(* ===== verification/_CoqProject ===== *)
-Q . S2P
Prelude.v
Words.v
BitField.v
Mmio.v
Bytes.v
Aic.v
Dart.v
Sart.v
Timer.v
Storage.v
Recovery.v
Uart.v
Gpio.v
Adp.v
Smc.v
Sep.v
Gxf.v
Nvram.v
AnsPci.v
AnsMbox.v
Ascwrap.v
AnsAutoboot.v
Ans.v
AnsIdentify.v
AnsController.v
Cpu.v
Insn.v
Steps.v
LoadStore.v
Provider.v
StageOne.v
Dynamic.v
X86.v
Emit.v
Translate.v
A64.v
Codegen.v
HostArith.v
TransAlu.v
Jumps.v
TransControl.v
TransMemory.v
TransOk.v
RunLoop.v
