(* ===== verification/Prelude.v ===== *)
(** * A model of the Nextcore-ISE platform devices and processor state

    The repository is an instruction-set emulator for an Apple-silicon machine.  Its C
    half has two layers: device models ([devices/*.c]), each a structure with an
    [init], register [read] and [write] functions and a few host-side operations; and
    the execution runtime ([runtime/*.c]), which keeps the architectural state of the
    guest processor ([arch.c]), translates and runs guest code ([jit.c]), and routes
    guest accesses to the devices ([preos_bridge.c]).  This library models the devices
    and the processor state and proves what makes each of them correct.

    ** How the code is translated

    - A C structure is a Record with the names of the fields ([vf_cpu], which has too
      many, is a function from field names to values); an array is a list of its
      elements, a byte buffer a list of bytes.
    - An unsigned integer of [w] bits is a [Z] below [2^w]; every operation that can
      leave the range is written with its reduction (files Words, Bytes).
    - A pointer argument is an option, [None] being NULL; an operation returns its
      code and the structure as it leaves it.
    - Undefined behaviour (an index outside an array, a dangling buffer, an
      uninitialised variable) is [None] of an outer option.  That an operation never
      gets there is a theorem, not an assumption.
    - A callback of the embedder is a parameter, or a log of its calls.
    - A register switch is a table of cases read by [switch].
    - A loop is a Fixpoint, on the list it walks or on fuel.

    ** Files

    - Prelude (this file): arrays, pointers, switches, the tactics.
    - Words, Bytes: fixed-width words and bit lemmas; byte buffers and little-endian
      fields.  Mmio: the contract between a memory-mapped device and its caller, a
      type class with laws, and theorems on access sequences proved from the laws.
    - Aic ([devices/aic_v1.c]): the interrupt controller.  Reading EVENT claims and
      masks the lowest deliverable interrupt; bank writes change exactly the selected
      bits; no sequence of operations leaves an array.
    - Dart ([devices/dart_v1.c]): the address-translation registers.  A locked
      configuration cannot change; a written register reads back.
    - Sart ([devices/sart_v1.c]): the DMA filter.  Translation reports the first region
      that covers a page; a write that does not advance the generation changes none.
    - Timer ([devices/timer_v1.c]): the counter saturates.
    - Storage ([devices/storage_v1.c]): refines an abstract medium with an attach epoch.
    - Recovery ([devices/recovery_v1.c]): framed messages.  Encode and ingest round
      trip; a one-byte corruption is refused; accepted frames are in sequence.
    - Uart ([devices/apple_uart_v1.c]): refines a bounded queue with a transmit log.
    - Gpio ([devices/apple_gpio_v1.c]): edge and level inputs; memory safety up to 481
      pins, and the out-of-range access from 482 on.
    - Adp ([devices/adp_display_v1.c]): refines a display; a configured frame lies in
      its memory.
    - Smc ([devices/apple_smc_v1.c]): refines a finite map with eight places.
    - Sep ([devices/sep_mailbox_v1.c]): refines a one-place mailbox.
    - Gxf ([devices/apple_gxf_v1.c]): guarded execution.  Unguarded code cannot depend
      on or change the guarded bank; locked registers stay; enter and exit round trip.
    - Nvram ([devices/nvram_v1.c]): the variables refine a finite map; saving and
      loading restores them; parsing any bytes terminates and fails closed.
    - AnsPci ([devices/ans_pci_v1.c]): the interrupt routes of the storage controller
      refine one asserted level; the bound line follows it; the message write stays in
      its window.
    - AnsMbox ([devices/ans_mbox_v1.c]), Ascwrap ([ascwrap_v1.c]), AnsAutoboot
      ([ans_autoboot_v1.c]): the three objects between the PCI host and the storage
      controller, over stores of the objects they point at.  The mailbox refines the
      bootstrap protocol of Sep behind a gate; the bootstrap window is armed exactly
      when the whole chain is live.
    - Ans ([devices/ans_v1.c]): the storage controller, over a store of buffers and linked
      objects.  AnsIdentify: what one doorbell write does to registers and buffers, on
      every branch.  AnsController: the controller refines a transition relation on
      registers, a bounded vendor table and an interrupt that follows completions,
      proved against the class [HostLaws] of what it relies on in the PCI host; with
      the instance for a host with a bound line, the line follows the completions.
    - Cpu ([runtime/arch.c], [jit.h], [platform_abi.h]): the processor.  Every operation
      keeps the validity check of the code true; exception entry and interrupt polling
      are given field by field; system registers read back what they keep; EL0 is
      confined; a pending exception is not lost.

    - Insn ([runtime/jit.c], [memory_provider.c]): the instruction decoders.  The mask
      of a logical immediate is the replication of a rotated run of ones; every
      memory form decodes to a legal shape; the syndrome the code reports for a load
      or store equals the one derived from its decoded form.
    - Steps ([runtime/jit.c]): the interpreted steps (system registers, exception
      return, pointer authentication, exception generation).  Every step keeps a
      valid processor valid; pointer authentication touches only its destination.
    - LoadStore: the abstract machine of one load or store (address, width, extension,
      writeback) that the three memory interpreters refine, and the shared lemmas.
    - Provider ([runtime/jit.c], [memory_provider.c]): requests to an untrusted memory
      provider.  A reply is accepted, refused or an exception, decided by the bytes;
      a step against a provider that keeps the class [MemoryService] refines the
      abstract machine.
    - StageOne ([runtime/memory_stage1.inc]): replies that carry translation faults.  A
      fault is believed exactly when its syndrome is one the request could raise;
      the step refines the abstract machine for [TranslatedMemory] providers.
    - Dynamic ([runtime/memory_dynamic.inc], [memory_dynamic.c]): system register
      writes in three phases (prepare, commit, observe).  Processor and provider agree
      after every sequence of steps for [ControlService] providers.

    - BitField: masks, fields and sign extension on words, shared by the translator.
    - Emit, Translate ([runtime/jit.c]): the buffer of generated code, and the translator
      of A64 instructions to x86-64 bytes, every class of instructions with its own
      emitter, composed by [translate_loop] as the switch of the source composes them.
    - X86: the machine the bytes run on, decoded and executed byte by byte; not a
      definition of the source but of what its output means.  A64: what each translated
      instruction means on the guest, independent of the translator.
    - Codegen, HostArith, TransAlu, Jumps, TransControl, TransMemory: that the bytes each
      emitter stores do on X86 what A64 says (the simulation of one instruction; flags
      and arithmetic; data processing; jumps and exits; branches; loads and stores).
    - TransOk: the composition.  A translated block returns with the status, registers and
      memory that its A64 instructions define; no byte is stored outside the buffer.
    - RunLoop ([runtime/jit.c], [vf_run]): translated code inside the dispatcher.  The loop
      ends within its budget and does what the run without the translator does.

    Each device file has the same order: constants and data, operations as in the
    source, the invariant, the specification it refines where it has one, lemmas, and
    the properties with a concrete instance each.

    ** Fuel

    - Nvram [scan], [load_env]: the fuel is the distance to the end of the partition
      plus one, and each round advances ([load_env_total]).
    - Nvram [parse_parts]: the fuel is the length of the image plus one, and every
      header advances by at least sixteen bytes ([parse_parts_total]).
    - X86 [exec]: one round per byte of code; every instruction takes a byte at least, and
      the code of the translator only jumps forward.  Translate [translate_loop]: the
      limit of the block, one instruction a round.
    - RunLoop [run_loop]: the budget plus one; every round that goes on retires at least
      one instruction ([run_refines_guest] proves that the loop returns).
    - Insn [tag_length]: seven rounds, the bits of the element size ([tag_length_spec]).
    - Sart [translate_scan], Uart [uart_shift], Ans [sparse_find_from] and the Aic scans:
      the number of rounds of the source's loop.

    ** Not modelled

    - Of Nvram: the file backend ([nvram_file_*], attach and detach) wraps operating
      system calls.  The block backend is a parameter, with the law that it stores
      bytes; an array of bytes is an instance.
    - Of Cpu: the floating-point bank and the authentication callback, which [arch.c]
      only clears on reset.
    - Of the translator and the run loops: the optional floating-point execution
      ([NEXTCORE_FP_EXECUTION]), which the default build leaves out, with the floating-point
      and SIMD units ([runtime/fp_*.c], [simd_*.c]) behind it.  The x86-64 machine of X86 has
      the instructions the translator emits and no others.
    - The loops over a memory provider and the boot entries ([jit.c], [memory_boot*.c]);
      the steps the loops are made of are modelled (Provider, StageOne, Dynamic).
    - The bridge ([runtime/preos_bridge.c]) that connects the devices to the guest bus.
    - [runtime/main.c], [gop_scanout.c], [jit_protection.c] and [boot_jit.c] drive
      firmware services.  The Rust half ([src], [runtime/preos], [runtime/memory-service]),
      the tests, the tools and the older copies under [research] are out of scope. *)
From Stdlib Require Export ZArith Lia ZifyBool Btauto.
From stdpp Require Export prelude list gmap numbers option.
From coqutil Require Export Datatypes.RecordSettersUsingExistingGetters.

#[global] Open Scope Z_scope.

Arguments const {_} _ _ /.

Arguments Z.land : simpl never.
Arguments Z.lor : simpl never.
Arguments Z.lxor : simpl never.
Arguments Z.ldiff : simpl never.
Arguments Z.lnot : simpl never.
Arguments Z.shiftl : simpl never.
Arguments Z.shiftr : simpl never.
Arguments Z.testbit : simpl never.
Arguments Z.pow : simpl never.
Arguments Z.ones : simpl never.
Arguments Z.to_nat : simpl never.
Arguments Z.of_nat : simpl never.
Arguments Z.add : simpl never.
Arguments Z.sub : simpl never.
Arguments Z.mul : simpl never.
Arguments Z.div : simpl never.
Arguments Z.modulo : simpl never.
Arguments Z.eqb : simpl never.
Arguments Z.ltb : simpl never.
Arguments Z.leb : simpl never.
Arguments replicate : simpl never.

(** ** Undefined behaviour, pointers and arrays *)

(** A C function that touches device state is a function to [option]: [None]
    is undefined behaviour of the C abstract machine, that is an access outside
    the bounds of an array.  A device pointer is [option]: [None] is [NULL]. *)
Abbreviation ptr S := (option S).

Definition arr_get {A} (l : list A) (i : Z) : option A :=
  if bool_decide (0 ≤ i) then l !! Z.to_nat i else None.

Definition arr_set {A} (l : list A) (i : Z) (x : A) : option (list A) :=
  if bool_decide (0 ≤ i < Z.of_nat (length l)) then Some (<[Z.to_nat i := x]> l) else None.

(** [if (!p) return null;] in front of a body that works on the object. *)
Definition with_obj {S R} (null : R) (p : ptr S) (body : S → option (R * S)) :
    option (R * ptr S) :=
  match p with
  | None => Some (null, None)
  | Some s => '(r, s') ← body s; Some (r, Some s')
  end.

Arguments arr_get : simpl never.
Arguments arr_set : simpl never.

(** [switch (x) { case k: ...; }] with one result per case. *)
Fixpoint switch {A} (x : Z) (cases : list (Z * A)) : option A :=
  match cases with
  | [] => None
  | (k, a) :: cases => if x =? k then Some a else switch x cases
  end.

Lemma arr_get_lt {A} (l : list A) i :
  0 ≤ i < Z.of_nat (length l) → ∃ x, arr_get l i = Some x.
Proof.
  intros Hi. unfold arr_get. rewrite bool_decide_true by lia.
  apply lookup_lt_is_Some. lia.
Qed.

Lemma arr_get_Some {A} (l : list A) i x :
  arr_get l i = Some x → 0 ≤ i < Z.of_nat (length l).
Proof.
  unfold arr_get. case_bool_decide; [|done]. intros Hl%lookup_lt_Some. lia.
Qed.

Lemma arr_get_None {A} (l : list A) i :
  arr_get l i = None ↔ ¬ 0 ≤ i < Z.of_nat (length l).
Proof.
  unfold arr_get. case_bool_decide.
  - rewrite lookup_ge_None. lia.
  - split; [lia|done].
Qed.

Lemma arr_set_lt {A} (l : list A) i x :
  0 ≤ i < Z.of_nat (length l) → arr_set l i x = Some (<[Z.to_nat i := x]> l).
Proof. intros. unfold arr_set. by rewrite bool_decide_true. Qed.

Lemma arr_set_Some {A} (l l' : list A) i x :
  arr_set l i x = Some l' →
  0 ≤ i < Z.of_nat (length l) ∧ l' = <[Z.to_nat i := x]> l.
Proof. unfold arr_set. case_bool_decide; [|done]. by intros [= <-]. Qed.

Lemma arr_get_insert_eq {A} (l : list A) i x :
  0 ≤ i < Z.of_nat (length l) → arr_get (<[Z.to_nat i := x]> l) i = Some x.
Proof.
  intros. unfold arr_get. rewrite bool_decide_true by lia.
  apply list_lookup_insert_eq. lia.
Qed.

Lemma arr_get_insert_ne {A} (l : list A) i j x :
  0 ≤ i → i ≠ j → arr_get (<[Z.to_nat i := x]> l) j = arr_get l j.
Proof.
  intros. unfold arr_get. case_bool_decide; [|done].
  apply list_lookup_insert_ne. lia.
Qed.

Lemma arr_get_Forall {A} (P : A → Prop) l i x :
  Forall P l → arr_get l i = Some x → P x.
Proof.
  intros HP. unfold arr_get. case_bool_decide; [|done].
  by apply Forall_lookup_1.
Qed.

Lemma fold_left_cons {A B} (f : A → B → A) b l x :
  fold_left f (b :: l) x = fold_left f l (f x b).
Proof. done. Qed.

Lemma switch_cons_rel {A B} (f : A → B) x k a b l l' :
  (x = k → b = f a) → switch x l' = f <$> switch x l →
  switch x ((k, b) :: l') = f <$> switch x ((k, a) :: l).
Proof. intros Hk Hl. cbn. destruct (x =? k) eqn:E; [|done]. cbn. f_equal. apply Hk. lia. Qed.

(** ** Automation *)

(** [lia] with division and remainder by constants. *)
Ltac dlia := Z.to_euclidean_division_equations; lia.

(** Case analysis on every [if] of the goal, outermost first; the conditions
    stay as boolean equations, which [lia] reads. *)
Ltac split_ifs :=
  repeat match goal with |- context [if ?b then _ else _] =>
    lazymatch b with context [if _ then _ else _] => fail | _ => destruct b eqn:? end
  end.

(** Evaluates every comparison of the goal that the context decides. *)
Ltac tests :=
  repeat (match goal with
    | |- context [?a <=? ?b] =>
      first [rewrite (proj2 (Z.leb_le a b)) by lia|rewrite (proj2 (Z.leb_gt a b)) by lia]
    | |- context [?a <? ?b] =>
      first [rewrite (proj2 (Z.ltb_lt a b)) by lia|rewrite (proj2 (Z.ltb_ge a b)) by lia]
    | |- context [?a =? ?b] =>
      first [rewrite (proj2 (Z.eqb_eq a b)) by lia|rewrite (proj2 (Z.eqb_neq a b)) by lia]
    end; cbn [andb orb negb]; cbv iota).

(** Destructs [Forall P] hypotheses and goals on literal lists. *)
Ltac foralls :=
  repeat match goal with
  | H : Forall _ (_ :: _) |- _ => apply Forall_cons_1 in H as [? H]
  | H : Forall _ [] |- _ => clear H
  | |- Forall _ (_ :: _) => apply Forall_cons_2
  | |- Forall _ [] => apply Forall_nil_2
  end.

(** The next [arr_get] or [arr_set] of the goal is in bounds. *)
Ltac in_bounds tac :=
  match goal with
  | |- context [arr_get ?l ?i] =>
    let x := fresh "x" in let H := fresh "Hget" in
    destruct (arr_get_lt l i) as [x H]; [tac|rewrite H; cbn [mbind option_bind]]
  | |- context [arr_set ?l ?i ?v] =>
    rewrite (arr_set_lt l i v) by tac; cbn [mbind option_bind]
  end.

(** Two switches case by case; [tac] closes a case from [x = k]. *)
Ltac switch_rel tac :=
  repeat (apply switch_cons_rel; [let E := fresh "Ereg" in intros E; tac E|]); reflexivity.
