(* ===== verification/Words.v ===== *)
(** Fixed-width unsigned integers as the C code computes with them.

    An unsigned [w]-bit C value is an integer [x] with [fits w x]; every
    operation that can leave the range is written with its reduction modulo
    [2^w] ([wrap]), the complement [~x] is [bnot w x].  The lemmas close the
    range side conditions ([width] hint database) and give the bit-level view
    ([testbit] rewriting, [bits_eq]). *)
From S2P Require Import Prelude.

Definition wrap (w x : Z) : Z := x mod 2 ^ w.
Definition fits (w x : Z) : Prop := 0 ≤ x < 2 ^ w.
Definition bnot (w x : Z) : Z := Z.ldiff (Z.ones w) x.
Definition shl (w x n : Z) : Z := wrap w (Z.shiftl x n).

(** C truth value of an integer. *)
Definition nz (x : Z) : bool := negb (x =? 0).
(** C integer of a truth value. *)
Definition b2z (b : bool) : Z := if b then 1 else 0.

Abbreviation u8 := (wrap 8).
Abbreviation u16 := (wrap 16).
Abbreviation u32 := (wrap 32).
Abbreviation u64 := (wrap 64).
Abbreviation UINT32_MAX := 4294967295.
Abbreviation UINT64_MAX := 18446744073709551615.

#[export] Instance fits_dec w x : Decision (fits w x).
Proof. unfold fits. apply _. Defined.

Arguments wrap : simpl never.
Arguments bnot : simpl never.
Arguments shl : simpl never.

Create HintDb width.

(** ** Ranges *)

Lemma fits_nonneg w x : fits w x → 0 ≤ x.
Proof. unfold fits. lia. Qed.

Lemma fits_wrap w x : 0 ≤ w → fits w (wrap w x).
Proof. intros. apply Z.mod_pos_bound. lia. Qed.

Lemma wrap_id w x : fits w x → wrap w x = x.
Proof. apply Z.mod_small. Qed.

Lemma wrap_wrap w x : wrap w (wrap w x) = wrap w x.
Proof. apply Zmod_mod. Qed.

Lemma fits_weaken w w' x : 0 ≤ w ≤ w' → fits w x → fits w' x.
Proof.
  intros Hw [H1 H2]. split; [done|].
  eapply Z.lt_le_trans; [done|]. apply Z.pow_le_mono_r; lia.
Qed.

Lemma fits_bits w x :
  0 ≤ w → fits w x ↔ 0 ≤ x ∧ ∀ i, w ≤ i → Z.testbit x i = false.
Proof.
  intros Hw. split.
  - intros [H1 H2]. split; [done|]. intros i Hi.
    destruct (decide (x = 0)) as [->|Hx]; [apply Z.bits_0|].
    apply Z.bits_above_log2; [done|].
    apply Z.lt_le_trans with w; [|done]. apply Z.log2_lt_pow2; lia.
  - intros [H1 H2]. split; [done|].
    destruct (decide (x = 0)) as [->|Hx]; [lia|].
    apply Z.log2_lt_pow2; [lia|]. apply Z.nle_gt. intros Hle.
    specialize (H2 (Z.log2 x) Hle). rewrite Z.bit_log2 in H2; [done|lia].
Qed.

Lemma fits_testbit_high w x i : fits w x → 0 ≤ w → w ≤ i → Z.testbit x i = false.
Proof. intros H Hw. by apply fits_bits. Qed.

Lemma fits_land_l w x y : 0 ≤ w → fits w x → fits w (Z.land x y).
Proof.
  intros Hw. rewrite !fits_bits by done. intros [H1 H2]. split.
  - apply Z.land_nonneg. by left.
  - intros i Hi. by rewrite Z.land_spec, H2.
Qed.

Lemma fits_land_r w x y : 0 ≤ w → fits w y → fits w (Z.land x y).
Proof. rewrite Z.land_comm. apply fits_land_l. Qed.

Lemma fits_lor w x y : 0 ≤ w → fits w x → fits w y → fits w (Z.lor x y).
Proof.
  intros Hw. rewrite !fits_bits by done. intros [H1 H2] [H3 H4]. split.
  - by apply Z.lor_nonneg.
  - intros i Hi. by rewrite Z.lor_spec, H2, H4.
Qed.

Lemma fits_lxor w x y : 0 ≤ w → fits w x → fits w y → fits w (Z.lxor x y).
Proof.
  intros Hw. rewrite !fits_bits by done. intros [H1 H2] [H3 H4]. split.
  - apply Z.lxor_nonneg. tauto.
  - intros i Hi. by rewrite Z.lxor_spec, H2, H4.
Qed.

Lemma fits_shiftr w x n : 0 ≤ w → 0 ≤ n → fits w x → fits w (Z.shiftr x n).
Proof.
  intros Hw Hn. rewrite !fits_bits by done. intros [H1 H2]. split.
  - by apply Z.shiftr_nonneg.
  - intros i Hi. rewrite Z.shiftr_spec by lia. apply H2. lia.
Qed.

Lemma fits_ldiff w x y : 0 ≤ w → fits w x → fits w (Z.ldiff x y).
Proof.
  intros Hw. rewrite !fits_bits by done. intros [H1 H2]. split.
  - apply Z.ldiff_nonneg. by left.
  - intros i Hi. by rewrite Z.ldiff_spec, H2.
Qed.

Lemma fits_ones w : 0 ≤ w → fits w (Z.ones w).
Proof. intros. rewrite Z.ones_equiv. unfold fits. lia. Qed.

Lemma fits_bnot w x : 0 ≤ w → fits w (bnot w x).
Proof. intros. by apply fits_ldiff, fits_ones. Qed.

Lemma fits_shl w x n : 0 ≤ w → fits w (shl w x n).
Proof. intros. by apply fits_wrap. Qed.

Lemma fits_bit w n : 0 ≤ n < w → fits w (Z.shiftl 1 n).
Proof.
  intros. rewrite Z.shiftl_1_l. split; [lia|]. apply Z.pow_lt_mono_r; lia.
Qed.

Lemma fits_b2z w b : 0 < w → fits w (b2z b).
Proof.
  intros. assert (2 ^ 1 ≤ 2 ^ w) by (apply Z.pow_le_mono_r; lia).
  unfold fits. destruct b; simpl; lia.
Qed.

#[export] Hint Resolve fits_wrap fits_land_l fits_land_r fits_lor fits_lxor fits_shiftr
  fits_ldiff fits_ones fits_bnot fits_shl fits_b2z : width.
#[export] Hint Extern 1 (fits _ _) => assumption : width.
#[export] Hint Extern 2 (fits _ (Z.shiftl 1 _)) => apply fits_bit; lia : width.
#[export] Hint Extern 3 (_ ≤ _) => lia : width.
#[export] Hint Extern 3 (_ < _) => lia : width.
#[export] Hint Extern 4 (fits _ _) => unfold fits; lia : width.
#[export] Hint Extern 0 (fits _ (Zpos _)) => unfold fits; lia : width.
#[export] Hint Extern 0 (fits _ 0) => unfold fits; lia : width.

(** Closes range goals. *)
Ltac width := solve [eauto 8 with width].

(** ** Bits *)

Lemma bits_eq w x y :
  0 ≤ w → fits w x → fits w y →
  (∀ i, 0 ≤ i < w → Z.testbit x i = Z.testbit y i) → x = y.
Proof.
  intros Hw Hx Hy H. apply Z.bits_inj'. intros i Hi.
  destruct (decide (i < w)) as [|Hge]; [by apply H|].
  by rewrite !(fits_testbit_high w) by (done || lia).
Qed.

Lemma wrap_testbit w x i :
  0 ≤ w → Z.testbit (wrap w x) i = bool_decide (i < w) && Z.testbit x i.
Proof.
  intros Hw. unfold wrap. case_bool_decide.
  - by rewrite Z.mod_pow2_bits_low.
  - rewrite Z.mod_pow2_bits_high; [done|lia].
Qed.

Lemma bnot_testbit w x i :
  0 ≤ w → 0 ≤ i → Z.testbit (bnot w x) i = bool_decide (i < w) && negb (Z.testbit x i).
Proof.
  intros Hw Hi. unfold bnot. rewrite Z.ldiff_spec. case_bool_decide.
  - by rewrite Z.ones_spec_low by lia.
  - by rewrite Z.ones_spec_high by lia.
Qed.

Lemma bit_testbit n i : 0 ≤ n → Z.testbit (Z.shiftl 1 n) i = bool_decide (i = n).
Proof.
  intros Hn. rewrite Z.shiftl_1_l, Z.pow2_bits_eqb by done.
  case_bool_decide; [subst; apply Z.eqb_refl|]. apply Z.eqb_neq. done.
Qed.

Lemma land_bit_nz x n : 0 ≤ n → nz (Z.land x (Z.shiftl 1 n)) = Z.testbit x n.
Proof.
  intros Hn. unfold nz. destruct (Z.testbit x n) eqn:E.
  - apply negb_true_iff, Z.eqb_neq. intros H.
    apply (f_equal (λ z, Z.testbit z n)) in H.
    rewrite Z.land_spec, bit_testbit, E, Z.bits_0, bool_decide_true in H by done. done.
  - apply negb_false_iff, Z.eqb_eq. apply Z.bits_inj'. intros i Hi.
    rewrite Z.land_spec, bit_testbit, Z.bits_0 by done.
    case_bool_decide; [subst; by rewrite E|]. by rewrite andb_false_r.
Qed.

Lemma lor_bit_testbit x n i :
  0 ≤ n → Z.testbit (Z.lor x (Z.shiftl 1 n)) i = Z.testbit x i || bool_decide (i = n).
Proof. intros. by rewrite Z.lor_spec, bit_testbit. Qed.

Lemma land_bnot_bit_testbit w x n i :
  0 ≤ w → 0 ≤ n → 0 ≤ i → fits w x →
  Z.testbit (Z.land x (bnot w (Z.shiftl 1 n))) i = Z.testbit x i && bool_decide (i ≠ n).
Proof.
  intros Hw Hn Hi Hx. rewrite Z.land_spec, bnot_testbit, bit_testbit by done.
  destruct (decide (i < w)).
  - rewrite bool_decide_true by done. by rewrite bool_decide_not.
  - rewrite (fits_testbit_high w x i) by (done || lia). done.
Qed.

Lemma land_bnot w x y : 0 ≤ w → fits w x → Z.land x (bnot w y) = Z.ldiff x y.
Proof.
  intros Hw Hx. apply Z.bits_inj'. intros i Hi.
  rewrite Z.land_spec, Z.ldiff_spec, bnot_testbit by done.
  case_bool_decide; [done|].
  by rewrite (fits_testbit_high w x i) by (done || lia).
Qed.

Lemma nz_false x : nz x = false ↔ x = 0.
Proof. unfold nz. rewrite negb_false_iff. apply Z.eqb_eq. Qed.
Lemma nz_b2z b : nz (b2z b) = b.
Proof. by destruct b. Qed.

Lemma nz_true x : nz x = true ↔ x ≠ 0.
Proof. unfold nz. rewrite negb_true_iff. apply Z.eqb_neq. Qed.

Lemma land_3_mod x : Z.land x 3 = x mod 4.
Proof. apply (Z.land_ones x 2). lia. Qed.
Lemma land_ones_mod x w : 0 ≤ w → Z.land x (Z.ones w) = x mod 2 ^ w.
Proof. apply Z.land_ones. Qed.

Lemma lor_add x y : Z.land x y = 0 → Z.lor x y = x + y.
Proof. intros H. by rewrite Z.add_nocarry_lxor, Z.lxor_lor. Qed.

(** A low field below a shifted high one: no bit in common. *)
Lemma land_high_low n h l : 0 ≤ n → fits n l → Z.land (h * 2 ^ n) l = 0.
Proof.
  intros Hn Hl. apply Z.bits_inj'. intros i Hi. rewrite Z.land_spec, Z.bits_0.
  destruct (decide (i < n)).
  - by rewrite Z.mul_pow2_bits_low.
  - rewrite (fits_testbit_high n l) by (done || lia). by rewrite andb_false_r.
Qed.

Lemma lor_high_low n h l : 0 ≤ n → fits n l → Z.lor (h * 2 ^ n) l = h * 2 ^ n + l.
Proof. intros. by apply lor_add, land_high_low. Qed.

(** Clearing the low bits rounds down. *)
Lemma land_bnot_ones w x n :
  0 ≤ w → 0 ≤ n → fits w x → Z.land x (bnot w (Z.ones n)) = x - x mod 2 ^ n.
Proof.
  intros Hw Hn Hx. assert (0 < 2 ^ n) by (apply Z.pow_pos_nonneg; lia).
  rewrite land_bnot, Z.ldiff_ones_r, Z.shiftl_mul_pow2, Z.shiftr_div_pow2 by done.
  pose proof (Z.div_mod x (2 ^ n)). lia.
Qed.

Lemma ones_testbit n b : 0 ≤ n → 0 ≤ b → Z.testbit (Z.ones n) b = (b <? n).
Proof.
  intros. destruct (Z.ltb_spec b n); [by apply Z.ones_spec_low|by apply Z.ones_spec_high].
Qed.

Lemma shl_one_pred w n : 0 ≤ n < w → wrap w (shl w 1 n - 1) = Z.ones n.
Proof.
  intros. assert (0 < 2 ^ n) by (apply Z.pow_pos_nonneg; lia).
  assert (2 ^ n < 2 ^ w) by (apply Z.pow_lt_mono_r; lia).
  unfold shl. rewrite Z.shiftl_1_l, (wrap_id w (2 ^ n)) by (split; lia).
  rewrite wrap_id by (split; lia). rewrite Z.ones_equiv. lia.
Qed.

(** A value with no bit outside a mask. *)
Lemma land_bnot_zero w x m :
  0 ≤ w → fits w x →
  Z.land x (bnot w m) = 0 ↔ ∀ b, 0 ≤ b < w → Z.testbit x b = true → Z.testbit m b = true.
Proof.
  intros Hw Hx. split.
  - intros H b Hb Hbit. apply (f_equal (λ z, Z.testbit z b)) in H.
    rewrite Z.land_spec, bnot_testbit, bool_decide_true, Z.bits_0, Hbit in H by lia.
    by apply negb_false_iff.
  - intros H. apply Z.bits_inj'. intros b Hb.
    rewrite Z.land_spec, bnot_testbit, Z.bits_0 by lia.
    case_bool_decide; [|by rewrite andb_false_r].
    destruct (Z.testbit x b) eqn:E; [|done]. by rewrite H.
Qed.

(** ** Lowest set bit *)

(** [__builtin_ctz]: the index of the lowest set bit. *)
Fixpoint ctz_pos (p : positive) : Z :=
  match p with
  | xO p => 1 + ctz_pos p
  | _ => 0
  end.
Definition ctz (x : Z) : Z := match x with Zpos p => ctz_pos p | _ => 0 end.

Lemma ctz_pos_nonneg p : 0 ≤ ctz_pos p.
Proof. induction p; simpl; lia. Qed.

Lemma double_testbit_succ x i : 0 ≤ i → Z.testbit (2 * x) (Z.succ i) = Z.testbit x i.
Proof. intros. by rewrite Z.testbit_even_succ. Qed.

Lemma succ_cases i : 0 ≤ i → i = 0 ∨ ∃ j, 0 ≤ j ∧ i = Z.succ j.
Proof.
  intros. destruct (decide (i = 0)); [by left|right]. exists (i - 1). lia.
Qed.

Lemma ctz_spec x :
  0 < x → 0 ≤ ctz x ∧ Z.testbit x (ctz x) = true ∧
  ∀ i, 0 ≤ i < ctz x → Z.testbit x i = false.
Proof.
  destruct x as [|p|p]; [lia| |lia]. intros _. simpl.
  induction p as [p IH|p IH|]; simpl.
  - split; [lia|]. split; [done|lia].
  - destruct IH as (H1 & H2 & H3). rewrite (Pos2Z.inj_xO p). split; [lia|]. split.
    + replace (1 + ctz_pos p) with (Z.succ (ctz_pos p)) by lia.
      by rewrite double_testbit_succ.
    + intros i Hi. destruct (succ_cases i) as [->|(j & Hj & ->)]; [lia| |].
      * apply Z.testbit_even_0.
      * rewrite double_testbit_succ by done. apply H3. lia.
  - split; [lia|]. split; [done|lia].
Qed.

Lemma clear_lowest_testbit x i :
  0 < x → 0 ≤ i →
  Z.testbit (Z.land x (x - 1)) i = Z.testbit x i && bool_decide (i ≠ ctz x).
Proof.
  destruct x as [|p|p]; [lia| |lia]. intros _. revert i. simpl.
  induction p as [p IH|p IH|]; intros i Hi; simpl; rewrite Z.land_spec.
  - replace (Zpos (xI p) - 1) with (2 * Zpos p) by lia.
    rewrite (Pos2Z.inj_xI p). destruct (succ_cases i) as [->|(j & Hj & ->)]; [done| |].
    + rewrite Z.testbit_even_0, andb_false_r, bool_decide_false by tauto.
      by rewrite andb_false_r.
    + rewrite double_testbit_succ, Z.testbit_odd_succ by done.
      rewrite bool_decide_true by lia. by rewrite andb_diag, andb_true_r.
  - replace (Zpos (xO p) - 1) with (2 * (Zpos p - 1) + 1) by lia.
    rewrite (Pos2Z.inj_xO p). destruct (succ_cases i) as [->|(j & Hj & ->)]; [done| |].
    + by rewrite Z.testbit_even_0.
    + rewrite double_testbit_succ, Z.testbit_odd_succ by done.
      rewrite <- Z.land_spec, IH by done. f_equal. apply bool_decide_ext. lia.
  - change (1 - 1) with 0. rewrite Z.bits_0, andb_false_r.
    destruct (succ_cases i) as [->|(j & Hj & ->)]; [done| |].
    + by rewrite bool_decide_false, andb_false_r by tauto.
    + change 1 with (2 * 0 + 1). rewrite Z.testbit_odd_succ by done. by rewrite Z.bits_0.
Qed.
