(* ===== verification/BitField.v ===== *)
(** Bit fields of words: extraction, replacement, signed values, and the masks and shifts
    that compute them. *)
From S2P Require Import Prelude.
From S2P Require Import Words.

(** Bits [lo .. lo + len - 1]; and [dst] with these bits replaced. *)
Definition fld (w lo len : Z) : Z := w / 2 ^ lo mod 2 ^ len.
Definition insert_bits (dst lo len v : Z) : Z := dst + (v - fld dst lo len) * 2 ^ lo.

(** The value of an [n]-bit word as a signed number. *)
Definition signed (n v : Z) : Z := if v <? 2 ^ (n - 1) then v else v - 2 ^ n.

Lemma pow2_pos n : 0 ≤ n → 0 < 2 ^ n.
Proof. intros. by apply Z.pow_pos_nonneg. Qed.

Lemma fld_fits w lo len : 0 ≤ len → fits len (fld w lo len).
Proof. intros Hl. apply Z.mod_pos_bound. by apply pow2_pos. Qed.

Lemma fld_testbit w lo len i : 0 ≤ lo → 0 ≤ len → 0 ≤ i → Z.testbit (fld w lo len) i = (i <? len) && Z.testbit w (lo + i).
Proof.
  intros Hlo Hlen Hi. unfold fld. destruct (Z.ltb_spec i len).
  - rewrite Z.mod_pow2_bits_low, Z.div_pow2_bits by lia. cbn [andb]. f_equal. lia.
  - by rewrite Z.mod_pow2_bits_high by lia.
Qed.

(** The C expression [(w >> lo) & ones]. *)
Lemma fld_land w lo len : 0 ≤ lo → 0 ≤ len → Z.land (Z.shiftr w lo) (Z.ones len) = fld w lo len.
Proof. intros. by rewrite Z.land_ones, Z.shiftr_div_pow2 by done. Qed.

Lemma concat_testbit n h l i : 0 ≤ n → fits n l → 0 ≤ i →
  Z.testbit (h * 2 ^ n + l) i = if i <? n then Z.testbit l i else Z.testbit h (i - n).
Proof.
  intros Hn Hl Hi. rewrite <- lor_high_low, Z.lor_spec by done. destruct (Z.ltb_spec i n).
  - by rewrite Z.mul_pow2_bits_low.
  - rewrite Z.mul_pow2_bits, (fits_testbit_high n l) by (done || lia). by rewrite orb_false_r.
Qed.

Lemma insert_split dst lo len v :
  0 ≤ lo → 0 ≤ len → insert_bits dst lo len v = (dst / 2 ^ lo / 2 ^ len * 2 ^ len + v) * 2 ^ lo + dst mod 2 ^ lo.
Proof.
  intros Hlo Hlen. unfold insert_bits, fld. pose proof (pow2_pos lo Hlo). pose proof (pow2_pos len Hlen).
  pose proof (Z.div_mod dst (2 ^ lo) ltac:(lia)) as H1. pose proof (Z.div_mod (dst / 2 ^ lo) (2 ^ len) ltac:(lia)) as H2. nia.
Qed.

Lemma insert_testbit dst lo len v i :
  0 ≤ lo → 0 ≤ len → fits len v → 0 ≤ i →
  Z.testbit (insert_bits dst lo len v) i =
  if (lo <=? i) && (i <? lo + len) then Z.testbit v (i - lo) else Z.testbit dst i.
Proof.
  intros Hlo Hlen Hv Hi. pose proof (pow2_pos lo Hlo). pose proof (pow2_pos len Hlen).
  rewrite insert_split by done. assert (fits lo (dst mod 2 ^ lo)) by (by apply Z.mod_pos_bound).
  rewrite concat_testbit by done. destruct (Z.ltb_spec i lo) as [Hi1|Hi1].
  - rewrite Z.mod_pow2_bits_low by lia. by rewrite (proj2 (Z.leb_gt _ _)) by lia.
  - rewrite (proj2 (Z.leb_le lo i)), concat_testbit by (done || lia). cbn [andb].
    destruct (Z.ltb_spec (i - lo) len), (Z.ltb_spec i (lo + len)); try lia; try done.
    rewrite !Z.div_pow2_bits by lia. f_equal. lia.
Qed.

Lemma insert_fits w dst lo len v :
  0 ≤ lo → 0 ≤ len → lo + len ≤ w → fits w dst → fits len v → fits w (insert_bits dst lo len v).
Proof.
  intros Hlo Hlen Hw Hd Hv. pose proof (pow2_pos lo Hlo). pose proof (pow2_pos len Hlen).
  apply fits_bits; [lia|]. split.
  - rewrite insert_split by done. pose proof (Z.mod_pos_bound dst (2 ^ lo)). unfold fits in *.
    assert (0 ≤ dst / 2 ^ lo / 2 ^ len) by (repeat apply Z.div_pos; lia). nia.
  - intros i Hi. rewrite insert_testbit by (done || lia). rewrite (proj2 (Z.ltb_ge _ _)), andb_false_r by lia.
    apply (fits_testbit_high w dst); done || lia.
Qed.

Lemma mul_pow2_testbit v n i : 0 ≤ n → 0 ≤ i → Z.testbit (v * 2 ^ n) i = (n <=? i) && Z.testbit v (i - n).
Proof.
  intros Hn Hi. rewrite Z.mul_pow2_bits by done. destruct (Z.leb_spec n i); [done|]. rewrite Z.testbit_neg_r by lia. done.
Qed.

(** [dst & ~mask | v << lo] *)
Lemma insert_lor w dst lo len v :
  0 ≤ lo → 0 ≤ len → lo + len ≤ w → fits w dst → fits len v →
  Z.lor (Z.land dst (bnot w (Z.ones len * 2 ^ lo))) (v * 2 ^ lo) = insert_bits dst lo len v.
Proof.
  intros Hlo Hlen Hw Hd Hv. apply Z.bits_inj'. intros i Hi.
  rewrite insert_testbit, Z.lor_spec, Z.land_spec, bnot_testbit, !mul_pow2_testbit by (done || lia).
  case_bool_decide as Hiw.
  - destruct (Z.leb_spec lo i) as [H1|H1]; cbn [andb negb]; [|by rewrite andb_true_r, orb_false_r].
    rewrite ones_testbit by lia. destruct (Z.ltb_spec (i - lo) len), (Z.ltb_spec i (lo + len)); try lia; cbn [andb negb].
    rewrite (fits_testbit_high len v) by (done || lia). by rewrite andb_true_r, orb_false_r.
  - rewrite andb_false_l, andb_false_r, (fits_testbit_high w dst) by (done || lia). cbn [orb].
    rewrite (proj2 (Z.ltb_ge i (lo + len))), andb_false_r by lia.
    rewrite (fits_testbit_high len v) by (done || lia). by rewrite ?andb_false_r.
Qed.
