(* ===== verification/Mmio.v ===== *)
(** The register interface every memory-mapped device of the repository offers
    to its callers, and what those callers may rely on.

    A device exposes a [read] of (device, offset, width, value pointer) and a
    [write] of (device, offset, width, value).  [MmioOps] is the pair of operations
    as the models define them, [MmioLaws] is the contract: on a state that
    satisfies the device's invariant an access has no undefined behaviour,
    keeps the invariant, and a refused access changes nothing.  The theorems on
    access sequences below use the contract only, so they hold of every device
    that has an instance. *)
From S2P Require Import Prelude.
From S2P Require Import Words.

(** Result of a read: the return code, and what was stored through the
    [value] pointer ([None] when nothing was stored). *)
Abbreviation rd_result := (Z * option Z)%type.

Class MmioOps (S : Type) := {
  mmio_read : ptr S → Z → Z → bool → option (rd_result * ptr S);
  mmio_write : ptr S → Z → Z → Z → option (Z * ptr S);
  mmio_inv : S → Prop;
  (** width in bits of the value argument *)
  mmio_bits : Z;
}.

Class MmioLaws (S : Type) `{!MmioOps S} := {
  mmio_read_null off w v : mmio_read None off w v = Some ((-1, None), None);
  mmio_write_null off w x : mmio_write None off w x = Some (-1, None);
  mmio_read_novalue s off w :
    mmio_inv s → fits 32 off → fits 32 w →
    mmio_read (Some s) off w false = Some ((-1, None), Some s);
  mmio_read_safe s off w :
    mmio_inv s → fits 32 off → fits 32 w →
    ∃ r s', mmio_read (Some s) off w true = Some (r, Some s') ∧ mmio_inv s' ∧
      ((∃ x, r = (0, Some x) ∧ fits mmio_bits x) ∨ (r = (-1, None) ∧ s' = s));
  mmio_write_safe s off w x :
    mmio_inv s → fits 32 off → fits 32 w → fits mmio_bits x →
    ∃ rc s', mmio_write (Some s) off w x = Some (rc, Some s') ∧ mmio_inv s' ∧
      (rc = 0 ∨ (rc = -1 ∧ s' = s));
}.

(** ** Sequences of accesses *)

Inductive access := Rd (off w : Z) | Wr (off w x : Z).

Definition access_ok (bits : Z) (c : access) : Prop :=
  match c with
  | Rd off w => fits 32 off ∧ fits 32 w
  | Wr off w x => fits 32 off ∧ fits 32 w ∧ fits bits x
  end.

Section traces.
Context {S : Type} `{!MmioOps S}.

(** One access on a live device: the answer and the next state. *)
Definition do_access (s : S) (c : access) : option (rd_result * S) :=
  match c with
  | Rd off w =>
    '(r, p) ← mmio_read (Some s) off w true; s' ← p; Some (r, s')
  | Wr off w x =>
    '(rc, p) ← mmio_write (Some s) off w x; s' ← p; Some ((rc, None), s')
  end.

Fixpoint run (s : S) (cs : list access) : option (list rd_result * S) :=
  match cs with
  | [] => Some ([], s)
  | c :: cs =>
    '(r, s1) ← do_access s c; '(rs, s2) ← run s1 cs; Some (r :: rs, s2)
  end.

Context `{!MmioLaws S}.

Lemma do_access_safe s c :
  mmio_inv s → access_ok mmio_bits c →
  ∃ r s', do_access s c = Some (r, s') ∧ mmio_inv s' ∧
    (r.1 = 0 ∨ (r.1 = -1 ∧ s' = s)).
Proof.
  intros Hs. destruct c as [off w|off w x]; simpl.
  - intros [Ho Hw]. destruct (mmio_read_safe s off w) as (r & s' & -> & ? & Hr); [done..|].
    exists r, s'. split; [done|]. split; [done|].
    destruct Hr as [(x & -> & _)|[-> ->]]; [by left|by right].
  - intros (Ho & Hw & Hx).
    destruct (mmio_write_safe s off w x) as (rc & s' & -> & ? & Hr); [done..|].
    exists (rc, None), s'. done.
Qed.

(** No access sequence reaches undefined behaviour, and the device's
    invariant holds at the end. *)
Lemma run_safe s cs :
  mmio_inv s → Forall (access_ok mmio_bits) cs →
  ∃ rs s', run s cs = Some (rs, s') ∧ mmio_inv s' ∧ length rs = length cs.
Proof.
  revert s. induction cs as [|c cs IH]; intros s Hs Hcs; simpl.
  { exists [], s. done. }
  inversion Hcs as [|?? Hc Hcs']; subst.
  destruct (do_access_safe s c Hs Hc) as (r & s1 & -> & Hs1 & _). simpl.
  destruct (IH s1 Hs1 Hcs') as (rs & s2 & -> & Hs2 & Hlen). simpl.
  exists (r :: rs), s2. simpl. auto.
Qed.

(** A property that every accepted access keeps holds along every sequence. *)
Lemma run_preserves (P : S → Prop) s cs rs s' :
  (∀ s c r s', mmio_inv s → P s → access_ok mmio_bits c →
     do_access s c = Some (r, s') → P s') →
  mmio_inv s → P s → Forall (access_ok mmio_bits) cs →
  run s cs = Some (rs, s') → P s'.
Proof.
  intros HP. revert s rs. induction cs as [|c cs IH]; intros s rs Hs HPs Hcs; simpl.
  { by intros [= _ <-]. }
  inversion Hcs as [|?? Hc Hcs']; subst.
  destruct (do_access_safe s c Hs Hc) as (r & s1 & Hd & Hs1 & _). rewrite Hd. simpl.
  destruct (run s1 cs) as [[rs' s2]|] eqn:Hr; simpl; [|done].
  intros [= _ <-]. apply (IH s1 rs'); [done| |done|done]. by apply (HP s c r s1).
Qed.
End traces.
