(* ===== verification/Bytes.v ===== *)
(** Byte buffers and little-endian fields.

    A buffer is a list of byte values; reading or writing outside it is
    undefined behaviour ([None]).  Shared by the components that parse or build
    byte images. *)
From S2P Require Import Prelude.
From S2P Require Import Words.

Abbreviation bytes := (list Z).
Abbreviation is_byte := (fits 8).

(** [n] bytes of a buffer from [off] on, the source of a [memcpy]. *)
Definition buf_read (buf : bytes) (off n : Z) : option bytes :=
  if bool_decide (0 ≤ off ∧ 0 ≤ n ∧ off + n ≤ Z.of_nat (length buf))
  then Some (take (Z.to_nat n) (drop (Z.to_nat off) buf)) else None.

(** Stores [bs] at [off], the target of a [memcpy]. *)
Definition buf_write (buf : bytes) (off : Z) (bs : bytes) : option bytes :=
  if bool_decide (0 ≤ off ∧ off + Z.of_nat (length bs) ≤ Z.of_nat (length buf))
  then Some (take (Z.to_nat off) buf ++ bs ++ drop (Z.to_nat off + length bs) buf) else None.

Arguments buf_read : simpl never.
Arguments buf_write : simpl never.

(** A 32-bit little-endian field, as the sources assemble and split it. *)
Definition le32_join (b0 b1 b2 b3 : Z) : Z :=
  Z.lor (Z.lor (Z.lor b0 (shl 32 b1 8)) (shl 32 b2 16)) (shl 32 b3 24).

Definition le32_split (v : Z) : bytes :=
  [Z.land v 0xff; Z.land (Z.shiftr v 8) 0xff; Z.land (Z.shiftr v 16) 0xff;
   Z.land (Z.shiftr v 24) 0xff].

Definition le32_at (buf : bytes) (off : Z) : option Z :=
  b0 ← arr_get buf off; b1 ← arr_get buf (off + 1);
  b2 ← arr_get buf (off + 2); b3 ← arr_get buf (off + 3); Some (le32_join b0 b1 b2 b3).

Arguments le32_join : simpl never.
Arguments le32_split : simpl never.
Arguments le32_at : simpl never.

(** ** Buffers *)

Lemma buf_read_Some buf off n :
  0 ≤ off → 0 ≤ n → off + n ≤ Z.of_nat (length buf) →
  buf_read buf off n = Some (take (Z.to_nat n) (drop (Z.to_nat off) buf)).
Proof. intros. unfold buf_read. by rewrite bool_decide_true by lia. Qed.

Lemma buf_write_Some buf off bs :
  0 ≤ off → off + Z.of_nat (length bs) ≤ Z.of_nat (length buf) →
  buf_write buf off bs = Some (take (Z.to_nat off) buf ++ bs ++ drop (Z.to_nat off + length bs) buf).
Proof. intros. unfold buf_write. by rewrite bool_decide_true by lia. Qed.

Lemma buf_write_length buf off bs buf' :
  buf_write buf off bs = Some buf' → length buf' = length buf.
Proof.
  unfold buf_write. case_bool_decide; [|done]. intros [= <-].
  rewrite !length_app, length_take, length_drop. lia.
Qed.

Lemma buf_write_Forall (P : Z → Prop) buf off bs buf' :
  Forall P buf → Forall P bs → buf_write buf off bs = Some buf' → Forall P buf'.
Proof.
  intros Hb Hs. unfold buf_write. case_bool_decide; [|done]. intros [= <-].
  apply Forall_app; split; [by apply Forall_take|]. apply Forall_app; split; [done|].
  by apply Forall_drop.
Qed.

Lemma buf_read_Forall (P : Z → Prop) buf off n bs :
  Forall P buf → buf_read buf off n = Some bs → Forall P bs.
Proof.
  intros Hb. unfold buf_read. case_bool_decide; [|done]. intros [= <-].
  by apply Forall_take, Forall_drop.
Qed.

Lemma buf_read_length buf off n bs :
  buf_read buf off n = Some bs → Z.of_nat (length bs) = n.
Proof.
  unfold buf_read. case_bool_decide; [|done]. intros [= <-]. rewrite length_take, length_drop. lia.
Qed.

(** Sequential writes fill a buffer from its start. *)
Lemma buf_write_append pre rest bs :
  (length bs ≤ length rest)%nat →
  buf_write (pre ++ rest) (Z.of_nat (length pre)) bs =
    Some (pre ++ bs ++ drop (length bs) rest).
Proof.
  intros H. rewrite buf_write_Some by (rewrite ?length_app; lia). rewrite Nat2Z.id.
  by rewrite take_app_length, drop_app_add.
Qed.

(** Access inside a known middle part. *)
Lemma buf_read_mid pre mid rest k n :
  0 ≤ k → 0 ≤ n → k + n ≤ Z.of_nat (length mid) →
  buf_read (pre ++ mid ++ rest) (Z.of_nat (length pre) + k) n = Some (take (Z.to_nat n) (drop (Z.to_nat k) mid)).
Proof.
  intros Hk Hn Hle. rewrite buf_read_Some by (rewrite ?length_app; lia). f_equal.
  rewrite Z2Nat.inj_add, Nat2Z.id by lia. rewrite drop_app_add, drop_app_le by lia.
  apply take_app_le. rewrite length_drop. lia.
Qed.

Lemma buf_write_mid pre mid rest k bs :
  0 ≤ k → k + Z.of_nat (length bs) ≤ Z.of_nat (length mid) →
  buf_write (pre ++ mid ++ rest) (Z.of_nat (length pre) + k) bs =
    Some (pre ++ (take (Z.to_nat k) mid ++ bs ++ drop (Z.to_nat k + length bs) mid) ++ rest).
Proof.
  intros Hk Hle. rewrite buf_write_Some by (rewrite ?length_app; lia). f_equal.
  rewrite Z2Nat.inj_add, Nat2Z.id by lia. rewrite take_app_add, <- Nat.add_assoc, drop_app_add.
  rewrite take_app_le, drop_app_le by lia. by rewrite <- !app_assoc.
Qed.

Lemma buf_read_here pre mid rest off n :
  off = Z.of_nat (length pre) → n = Z.of_nat (length mid) → buf_read (pre ++ mid ++ rest) off n = Some mid.
Proof.
  intros -> ->. rewrite <- (Z.add_0_r (Z.of_nat (length pre))), buf_read_mid by lia.
  rewrite Nat2Z.id. f_equal. by apply take_ge.
Qed.

(** The same at the start. *)
Lemma buf_read_head mid rest n :
  0 ≤ n → n ≤ Z.of_nat (length mid) → buf_read (mid ++ rest) 0 n = Some (take (Z.to_nat n) mid).
Proof. intros. apply (buf_read_mid [] mid rest 0 n); lia. Qed.

(** ** Little-endian fields *)

Lemma land_ff x : Z.land x 0xff = x mod 256.
Proof. change 0xff with (Z.ones 8). by rewrite Z.land_ones. Qed.

Lemma le32_join_sum b0 b1 b2 b3 :
  is_byte b0 → is_byte b1 → is_byte b2 → is_byte b3 →
  le32_join b0 b1 b2 b3 = b0 + b1 * 2 ^ 8 + b2 * 2 ^ 16 + b3 * 2 ^ 24.
Proof.
  unfold fits. intros H0 H1 H2 H3. unfold le32_join, shl. rewrite !Z.shiftl_mul_pow2 by lia.
  rewrite !(wrap_id 32) by (unfold fits; lia).
  rewrite (Z.lor_comm b0), (lor_high_low 8) by (unfold fits; lia).
  rewrite (Z.lor_comm _ (b2 * _)), (lor_high_low 16) by (unfold fits; lia).
  rewrite (Z.lor_comm _ (b3 * _)), (lor_high_low 24) by (unfold fits; lia). lia.
Qed.

Lemma le32_join_fits b0 b1 b2 b3 :
  is_byte b0 → is_byte b1 → is_byte b2 → is_byte b3 → fits 32 (le32_join b0 b1 b2 b3).
Proof. intros. rewrite le32_join_sum by done. unfold fits in *. lia. Qed.

Lemma le32_join_inj b0 b1 b2 b3 c0 c1 c2 c3 :
  Forall is_byte [b0; b1; b2; b3] → Forall is_byte [c0; c1; c2; c3] →
  le32_join b0 b1 b2 b3 = le32_join c0 c1 c2 c3 → [b0; b1; b2; b3] = [c0; c1; c2; c3].
Proof.
  intros Hb Hc. foralls. rewrite !le32_join_sum by done. unfold fits in *. intros Heq.
  assert (b0 = c0) by lia. assert (b1 = c1) by lia. assert (b2 = c2) by lia.
  assert (b3 = c3) by lia. congruence.
Qed.

Lemma le32_split_bytes v : Forall is_byte (le32_split v).
Proof.
  unfold le32_split. foralls. all: rewrite land_ff; apply (fits_wrap 8); lia.
Qed.

Lemma le32_join_split v :
  fits 32 v →
  match le32_split v with [b0; b1; b2; b3] => le32_join b0 b1 b2 b3 = v | _ => False end.
Proof.
  intros Hv. pose proof (le32_split_bytes v) as Hb. unfold le32_split in *. foralls.
  rewrite le32_join_sum by done. rewrite !land_ff, !Z.shiftr_div_pow2 by lia.
  unfold fits in Hv. dlia.
Qed.

(** The field at the end of a known prefix. *)
Lemma arr_get_app_r {A} (pre : list A) l i :
  0 ≤ i → arr_get (pre ++ l) (Z.of_nat (length pre) + i) = arr_get l i.
Proof.
  intros. unfold arr_get. rewrite !bool_decide_true by lia.
  rewrite lookup_app_r by lia. f_equal. lia.
Qed.

Lemma arr_get_app_l {A} (l l' : list A) i :
  0 ≤ i < Z.of_nat (length l) → arr_get (l ++ l') i = arr_get l i.
Proof. intros. unfold arr_get. rewrite !bool_decide_true by lia. by rewrite lookup_app_l by lia. Qed.

Lemma arr_get_here {A} (pre : list A) c post i :
  i = Z.of_nat (length pre) → arr_get (pre ++ c :: post) i = Some c.
Proof.
  intros ->. rewrite <- (Z.add_0_r (Z.of_nat _)). by rewrite arr_get_app_r by lia.
Qed.

Lemma le32_at_split pre v post :
  fits 32 v → le32_at (pre ++ le32_split v ++ post) (Z.of_nat (length pre)) = Some v.
Proof.
  intros Hv. pose proof (le32_join_split v Hv) as Hj. unfold le32_at.
  rewrite <- (Z.add_0_r (Z.of_nat (length pre))) at 1. rewrite !arr_get_app_r by lia.
  unfold le32_split in *. cbn [app]. unfold arr_get. repeat rewrite bool_decide_true by lia.
  change (Z.to_nat 0) with 0%nat. change (Z.to_nat 1) with 1%nat.
  change (Z.to_nat 2) with 2%nat. change (Z.to_nat 3) with 3%nat. cbn. by rewrite Hj.
Qed.

Lemma le32_at_Some buf off :
  0 ≤ off → off + 4 ≤ Z.of_nat (length buf) → Forall is_byte buf →
  ∃ v, le32_at buf off = Some v ∧ fits 32 v.
Proof.
  intros Ho Hlen Hb. unfold le32_at.
  destruct (arr_get_lt buf off) as [b0 H0]; [lia|]. destruct (arr_get_lt buf (off + 1)) as [b1 H1]; [lia|].
  destruct (arr_get_lt buf (off + 2)) as [b2 H2]; [lia|]. destruct (arr_get_lt buf (off + 3)) as [b3 H3]; [lia|].
  rewrite H0, H1, H2, H3. cbn. eexists. split; [done|].
  apply le32_join_fits; by eapply arr_get_Forall.
Qed.

Lemma le32_at_app l l' off :
  0 ≤ off → off + 4 ≤ Z.of_nat (length l) → le32_at (l ++ l') off = le32_at l off.
Proof. intros. unfold le32_at. by rewrite !arr_get_app_l by lia. Qed.

Lemma le32_at_parts buf off v :
  le32_at buf off = Some v → ∃ b0 b1 b2 b3,
    arr_get buf off = Some b0 ∧ arr_get buf (off + 1) = Some b1 ∧
    arr_get buf (off + 2) = Some b2 ∧ arr_get buf (off + 3) = Some b3 ∧ v = le32_join b0 b1 b2 b3.
Proof.
  unfold le32_at. destruct (arr_get buf off) as [b0|]; cbn; [|done].
  destruct (arr_get buf (off + 1)) as [b1|]; cbn; [|done].
  destruct (arr_get buf (off + 2)) as [b2|]; cbn; [|done].
  destruct (arr_get buf (off + 3)) as [b3|]; cbn; [|done].
  intros [= <-]. by exists b0, b1, b2, b3.
Qed.

(** A changed byte outside a field leaves it, inside it changes it. *)
Lemma le32_at_insert_out buf p b off :
  0 ≤ p → ¬ off ≤ p < off + 4 → le32_at (<[Z.to_nat p := b]> buf) off = le32_at buf off.
Proof. intros. unfold le32_at. by rewrite !arr_get_insert_ne by lia. Qed.

Lemma le32_at_insert_in buf p a b off v v' :
  Forall is_byte buf → is_byte b → arr_get buf p = Some a → b ≠ a → off ≤ p < off + 4 →
  le32_at buf off = Some v → le32_at (<[Z.to_nat p := b]> buf) off = Some v' → v' ≠ v.
Proof.
  intros Hbuf Hb Hp Hne Hoff Hv Hv' ->.
  pose proof (arr_get_Some _ _ _ Hp) as Hrange.
  assert (Hbuf' : Forall is_byte (<[Z.to_nat p := b]> buf)) by (by apply Forall_insert).
  apply le32_at_parts in Hv as (b0 & b1 & b2 & b3 & H0 & H1 & H2 & H3 & ->).
  apply le32_at_parts in Hv' as (c0 & c1 & c2 & c3 & G0 & G1 & G2 & G3 & Hj).
  apply le32_join_inj in Hj; [|foralls; (eapply arr_get_Forall; [|eassumption]; assumption)..].
  assert (Hself : arr_get (<[Z.to_nat p := b]> buf) p = Some b) by (by apply arr_get_insert_eq).
  assert (p = off ∨ p = off + 1 ∨ p = off + 2 ∨ p = off + 3) as Hc by lia.
  destruct Hc as [->|[->|[->| ->]]]; simplify_eq; congruence.
Qed.
