(* ===== verification/Aic.v ===== *)
(** The interrupt controller, [src/devices/aic_v1.c] and [aic_v1.h].

    State: per-interrupt target masks, and three banks of one bit per interrupt
    (wired level, software level, mask).  Operations: initialisation, the wired
    line input, the pending query of a CPU, and the register reads and writes. *)
From S2P Require Import Prelude.
From S2P Require Import Words.
From S2P Require Import Mmio.

Module Aic.

Definition VF_AIC_MAX_IRQ := 1024.
Definition VF_AIC_MAX_CPU := 32.
Definition VF_AIC_REG_REV := 0x0000.
Definition VF_AIC_REG_INFO := 0x0004.
Definition VF_AIC_REG_GLB_CFG := 0x0010.
Definition VF_AIC_REG_RST := 0x000c.
Definition VF_AIC_REG_WHOAMI := 0x2000.
Definition VF_AIC_REG_EVENT := 0x2004.
Definition VF_AIC_REG_TARGET := 0x3000.
Definition VF_AIC_REG_SW_BASE := 0x4000.
Definition VF_AIC_REG_CPU_BASE := 0x5000.
Definition VF_AIC_EVENT_EXT := 0x10000.

Record vf_aic_v1 := {
  irq_count : Z;
  cpu_count : Z;
  global_cfg : Z;
  target : list Z;
  level : list Z;
  software : list Z;
  masked : list Z;
}.

Definition aic_eir_words (irqs : Z) : Z := u32 (irqs + 31) / 32.

Definition aic_word_valid (a : vf_aic_v1) (word : Z) : Z :=
  let first := u32 (word * 32) in
  if irq_count a <=? first then 0
  else if 32 <=? irq_count a - first then UINT32_MAX
  else u32 (shl 32 1 (irq_count a - first) - 1).

(** [None]: the access is refused ([return -1]). *)
Definition aic_resolve_access (a : vf_aic_v1) (cpu off : Z) : option (Z * Z) :=
  if (VF_AIC_REG_CPU_BASE <=? off)
     && (off <? u32 (VF_AIC_REG_CPU_BASE + u32 (cpu_count a * 0x80))) then
    let slot := (off - VF_AIC_REG_CPU_BASE) / 0x80 in
    let delta := (off - VF_AIC_REG_CPU_BASE) mod 0x80 in
    if 0x7c <? delta then None
    else Some (slot, u32 (VF_AIC_REG_WHOAMI + delta))
  else if cpu_count a <=? cpu then None
  else Some (cpu, off).

Definition aic_reset_state (a : vf_aic_v1) : vf_aic_v1 :=
  a <| target := replicate (Z.to_nat VF_AIC_MAX_IRQ) 1 |>
    <| level := replicate 32 0 |>
    <| software := replicate 32 0 |>
    <| masked := replicate 32 UINT32_MAX |>
    <| global_cfg := 0 |>.

Definition vf_aic_init (a : ptr vf_aic_v1) (irqs cpus : Z) : option (Z * ptr vf_aic_v1) :=
  with_obj (-1) a (λ a,
    if (irqs =? 0) || (VF_AIC_MAX_IRQ <? irqs) || (cpus =? 0) || (VF_AIC_MAX_CPU <? cpus)
    then Some (-1, a)
    else Some (0, aic_reset_state (a <| irq_count := irqs |> <| cpu_count := cpus |>))).

Definition vf_aic_set_line (a : ptr vf_aic_v1) (irq high : Z) : option (Z * ptr vf_aic_v1) :=
  with_obj (-1) a (λ a,
    if irq_count a <=? irq then Some (-1, a)
    else
      let bit := Z.shiftl 1 (Z.land irq 31) in
      let w := Z.shiftr irq 5 in
      x ← arr_get (level a) w;
      l ← arr_set (level a) w (if nz high then Z.lor x bit else Z.land x (bnot 32 bit));
      Some (0, a <| level := l |>)).

(** The [while (pending)] loop of [next_irq]; [None] is undefined behaviour or
    exhausted fuel, [Some None] is the normal end of the loop.  Every round
    clears a bit of a 32-bit word, so 33 units of fuel are enough. *)
Fixpoint scan_word (fuel : nat) (a : vf_aic_v1) (cpu word pending : Z) : option (option Z) :=
  match fuel with
  | O => None
  | S fuel =>
    if nz pending then
      let irq := u32 (word * 32 + ctz pending) in
      let next := scan_word fuel a cpu word (Z.land pending (u32 (pending - 1))) in
      if irq <? irq_count a then
        t ← arr_get (target a) irq;
        if nz (Z.land t (Z.shiftl 1 cpu)) then Some (Some irq) else next
      else next
    else Some None
  end.

(** The [for (word = 0; ...)] loop of [next_irq], [n] words from [word] on. *)
Fixpoint scan_words (n : nat) (a : vf_aic_v1) (cpu word : Z) : option Z :=
  match n with
  | O => Some (-1)
  | S n =>
    l ← arr_get (level a) word;
    s ← arr_get (software a) word;
    m ← arr_get (masked a) word;
    r ← scan_word 33 a cpu word (Z.land (Z.lor l s) (bnot 32 m));
    match r with
    | Some irq => Some irq
    | None => scan_words n a cpu (word + 1)
    end
  end.

Definition next_irq (a : ptr vf_aic_v1) (cpu : Z) : option Z :=
  match a with
  | None => Some (-1)
  | Some a =>
    if cpu_count a <=? cpu then Some (-1)
    else scan_words (Z.to_nat (aic_eir_words (irq_count a))) a cpu 0
  end.

Definition vf_aic_pending (a : ptr vf_aic_v1) (cpu : Z) : option Z :=
  r ← next_irq a cpu; Some (b2z (0 <=? r)).

Definition aic_read_bank (a : vf_aic_v1) (off : Z) (bank : list Z) : option rd_result :=
  if (off <? VF_AIC_REG_SW_BASE) || (0x4200 <=? off) || nz (Z.land off 3) then Some (-1, None)
  else
    let word := Z.land off 0x7f / 4 in
    if aic_eir_words (irq_count a) <=? word then Some (-1, None)
    else x ← arr_get bank word; Some (0, Some x).

Definition aic_write_bank (a : vf_aic_v1) (off value op : Z) : option (Z * vf_aic_v1) :=
  if (off <? VF_AIC_REG_SW_BASE) || (0x4200 <=? off) || nz (Z.land off 3) then Some (-1, a)
  else
    let word := Z.land off 0x7f / 4 in
    let group := (off - VF_AIC_REG_SW_BASE) / 0x80 in
    if (aic_eir_words (irq_count a) <=? word) || (3 <? group) then Some (-1, a)
    else if nz (Z.land value (bnot 32 (aic_word_valid a word))) then Some (-1, a)
    else if op =? 0 then
      x ← arr_get (software a) word;
      l ← arr_set (software a) word (Z.lor x value); Some (0, a <| software := l |>)
    else if op =? 1 then
      x ← arr_get (software a) word;
      l ← arr_set (software a) word (Z.land x (bnot 32 value)); Some (0, a <| software := l |>)
    else if op =? 2 then
      x ← arr_get (masked a) word;
      l ← arr_set (masked a) word (Z.lor x value); Some (0, a <| masked := l |>)
    else if op =? 3 then
      x ← arr_get (masked a) word;
      l ← arr_set (masked a) word (Z.land x (bnot 32 value)); Some (0, a <| masked := l |>)
    else Some (-1, a).

Definition vf_aic_read (a : ptr vf_aic_v1) (cpu off width : Z) (value : bool) :
    option (rd_result * ptr vf_aic_v1) :=
  with_obj (-1, None) a (λ a,
    if negb value || negb (width =? 4) || nz (Z.land off 3) then Some ((-1, None), a)
    else match aic_resolve_access a cpu off with
    | None => Some ((-1, None), a)
    | Some (cpu, off) =>
      if off =? VF_AIC_REG_REV then Some ((0, Some 2), a)
      else if off =? VF_AIC_REG_INFO then
        Some ((0, Some (Z.lor (shl 32 (u32 (cpu_count a - 1)) 16) (irq_count a))), a)
      else if off =? VF_AIC_REG_GLB_CFG then Some ((0, Some (global_cfg a)), a)
      else if off =? VF_AIC_REG_WHOAMI then Some ((0, Some cpu), a)
      else if off =? VF_AIC_REG_EVENT then
        irq ← next_irq (Some a) cpu;
        if 0 <=? irq then
          x ← arr_get (masked a) (Z.shiftr irq 5);
          l ← arr_set (masked a) (Z.shiftr irq 5) (Z.lor x (Z.shiftl 1 (Z.land irq 31)));
          Some ((0, Some (Z.lor VF_AIC_EVENT_EXT irq)), a <| masked := l |>)
        else Some ((0, Some 0), a)
      else if (VF_AIC_REG_TARGET <=? off) && (off <? 0x4000) then
        let irq := (off - VF_AIC_REG_TARGET) / 4 in
        if irq_count a <=? irq then Some ((-1, None), a)
        else t ← arr_get (target a) irq; Some ((0, Some t), a)
      else if (0x4100 <=? off) && (off <? 0x4200) then
        r ← aic_read_bank a off (masked a); Some (r, a)
      else if (0x4200 <=? off) && (off <? 0x4280) then
        let word := (off - 0x4200) / 4 in
        if aic_eir_words (irq_count a) <=? word then Some ((-1, None), a)
        else
          l ← arr_get (level a) word;
          s ← arr_get (software a) word;
          Some ((0, Some (Z.lor l s)), a)
      else Some ((-1, None), a)
    end).

Definition vf_aic_write (a : ptr vf_aic_v1) (cpu off width value : Z) :
    option (Z * ptr vf_aic_v1) :=
  with_obj (-1) a (λ a,
    if negb (width =? 4) || nz (Z.land off 3) then Some (-1, a)
    else match aic_resolve_access a cpu off with
    | None => Some (-1, a)
    | Some (_, off) =>
      if off =? VF_AIC_REG_RST then Some (0, aic_reset_state a)
      else if off =? VF_AIC_REG_GLB_CFG then Some (0, a <| global_cfg := value |>)
      else if (VF_AIC_REG_TARGET <=? off) && (off <? 0x4000) then
        let irq := (off - VF_AIC_REG_TARGET) / 4 in
        if (irq_count a <=? irq)
           || ((cpu_count a <? 32) && nz (Z.shiftr value (cpu_count a))) then Some (-1, a)
        else l ← arr_set (target a) irq value; Some (0, a <| target := l |>)
      else if (VF_AIC_REG_SW_BASE <=? off) && (off <? 0x4200) then
        aic_write_bank a off value ((off - VF_AIC_REG_SW_BASE) / 0x80)
      else Some (-1, a)
    end).

Arguments scan_word : simpl never.
Arguments scan_words : simpl never.

(** ** Invariant *)

Record aic_ok (a : vf_aic_v1) : Prop := {
  ok_irqs : 1 ≤ irq_count a ≤ VF_AIC_MAX_IRQ;
  ok_cpus : 1 ≤ cpu_count a ≤ VF_AIC_MAX_CPU;
  ok_cfg : fits 32 (global_cfg a);
  ok_target_len : length (target a) = 1024%nat;
  ok_level_len : length (level a) = 32%nat;
  ok_software_len : length (software a) = 32%nat;
  ok_masked_len : length (masked a) = 32%nat;
  ok_target : Forall (fits (cpu_count a)) (target a);
  ok_level : Forall (fits 32) (level a);
  ok_software : Forall (fits 32) (software a);
  ok_masked : Forall (fits 32) (masked a);
}.

(** Bit [i] of a bank of 32-bit words. *)
Definition bank_bit (bank : list Z) (i : Z) : bool :=
  match arr_get bank (i / 32) with Some w => Z.testbit w (i mod 32) | None => false end.

(** Interrupt [i] is routed to [cpu]. *)
Definition routed (a : vf_aic_v1) (cpu i : Z) : bool :=
  (i <? irq_count a) &&
  match arr_get (target a) i with Some t => Z.testbit t cpu | None => false end.

(** Interrupt [i] is to be delivered to [cpu]: asserted by its wire or by
    software, not masked, and routed there. *)
Definition deliverable (a : vf_aic_v1) (cpu i : Z) : bool :=
  (0 <=? i) && (bank_bit (level a) i || bank_bit (software a) i)
  && negb (bank_bit (masked a) i) && routed a cpu i.

(** ** The scan *)

Lemma bank_bit_word bank word b w :
  arr_get bank word = Some w → 0 ≤ b < 32 → bank_bit bank (word * 32 + b) = Z.testbit w b.
Proof.
  intros Hw Hb. unfold bank_bit.
  replace ((word * 32 + b) / 32) with word by (rewrite Z.div_add_l by lia; rewrite Z.div_small; lia).
  replace ((word * 32 + b) mod 32) with b.
  - by rewrite Hw.
  - rewrite Z.add_comm, Z.mod_add by lia. by rewrite Z.mod_small.
Qed.

(** What the bit loop returns for the candidate bits [pending] of a word: the
    lowest candidate routed to the CPU, or nothing when none is. *)
Definition scan_post (a : vf_aic_v1) (cpu word pending : Z) (r : option Z) : Prop :=
  match r with
  | Some irq => ∃ b, irq = word * 32 + b ∧ 0 ≤ b < 32 ∧ Z.testbit pending b = true ∧
      routed a cpu irq = true ∧
      (∀ b', 0 ≤ b' < b → Z.testbit pending b' = true → routed a cpu (word * 32 + b') = false)
  | None => ∀ b, 0 ≤ b < 32 → Z.testbit pending b = true →
      routed a cpu (word * 32 + b) = false
  end.

Lemma scan_post_skip a cpu word pending next c r :
  (∀ i, 0 ≤ i → Z.testbit next i = Z.testbit pending i && bool_decide (i ≠ c)) →
  routed a cpu (word * 32 + c) = false →
  scan_post a cpu word next r → scan_post a cpu word pending r.
Proof.
  intros Hnext Hno.
  assert (Hpull : ∀ b, 0 ≤ b → b ≠ c → Z.testbit pending b = true → Z.testbit next b = true).
  { intros b Hb Hbc Hbit. rewrite Hnext by done. by rewrite Hbit, bool_decide_true. }
  destruct r as [irq|]; simpl.
  - intros (b & -> & Hb & Hbit & Hrt & Hleast). exists b.
    rewrite Hnext in Hbit by lia. apply andb_true_iff in Hbit as [Hbit _].
    repeat split; [lia|lia|done|done|]. intros b' Hb' Hbit'.
    destruct (decide (b' = c)) as [->|]; [done|]. apply Hleast; [done|]. apply Hpull; auto; lia.
  - intros Hspec b Hb Hbit. destruct (decide (b = c)) as [->|]; [done|].
    apply Hspec; [done|]. apply Hpull; auto; lia.
Qed.

Lemma routed_unfold a cpu i :
  aic_ok a → 0 ≤ i → (irq_count a <=? i) = false →
  ∃ t, arr_get (target a) i = Some t ∧ routed a cpu i = Z.testbit t cpu.
Proof.
  intros Ha Hi Hlt. apply Z.leb_gt in Hlt.
  destruct (arr_get_lt (target a) i) as [t Ht].
  { rewrite (ok_target_len a Ha). pose proof (ok_irqs a Ha) as Hq. unfold VF_AIC_MAX_IRQ in Hq. lia. }
  exists t. split; [done|]. unfold routed. rewrite Ht. by rewrite (proj2 (Z.ltb_lt _ _)) by done.
Qed.

Lemma scan_word_spec fuel a cpu word pending k :
  aic_ok a → 0 ≤ cpu → 0 ≤ word < 32 → fits 32 pending →
  0 ≤ k ≤ 32 → (∀ i, 0 ≤ i < k → Z.testbit pending i = false) →
  (Z.to_nat (32 - k) < fuel)%nat →
  ∃ r, scan_word fuel a cpu word pending = Some r ∧ scan_post a cpu word pending r.
Proof.
  intros Ha Hcpu Hword. revert pending k.
  induction fuel as [|fuel IH]; intros pending k Hp Hk Hlow Hfuel; [lia|]. unfold scan_word; fold scan_word. cbv zeta.
  destruct (nz pending) eqn:Hnz.
  2:{ apply nz_false in Hnz as ->. exists None. split; [done|].
      intros b _. by rewrite Z.bits_0. }
  apply nz_true in Hnz. unfold fits in Hp.
  destruct (ctz_spec pending) as (Hc0 & Hc1 & Hc2); [lia|].
  set (c := ctz pending) in *.
  assert (Hkc : k ≤ c < 32).
  { split; [apply Z.nlt_ge|apply Z.nle_gt]; intros Hlt.
    - by rewrite Hlow in Hc1 by lia.
    - by rewrite (fits_testbit_high 32) in Hc1 by (unfold fits; lia). }
  rewrite (wrap_id 32 (word * 32 + c)) by (unfold fits; lia).
  rewrite (wrap_id 32 (pending - 1)) by (unfold fits; lia).
  set (next := Z.land pending (pending - 1)).
  assert (Hnext : ∀ i, 0 ≤ i → Z.testbit next i = Z.testbit pending i && bool_decide (i ≠ c))
    by (intros; by apply clear_lowest_testbit; lia).
  destruct (IH next (c + 1)) as (r & Hr & Hspec); [apply fits_land_l; [lia|done]|lia| |lia|].
  { intros i Hi. rewrite Hnext by lia.
    destruct (decide (i = c)) as [->|].
    - by rewrite bool_decide_false, andb_false_r by tauto.
    - rewrite Hc2; [done|lia]. }
  assert (Hskip : routed a cpu (word * 32 + c) = false → scan_post a cpu word pending r)
    by (intros; by apply (scan_post_skip a cpu word pending next c)).
  rewrite Z.ltb_antisym. destruct (irq_count a <=? word * 32 + c) eqn:Hlt; simpl.
  { exists r. split; [done|]. apply Hskip. unfold routed. by rewrite Z.ltb_antisym, Hlt. }
  destruct (routed_unfold a cpu (word * 32 + c)) as (t & -> & Hrt); [done|lia|done|]. simpl.
  rewrite land_bit_nz, <- Hrt by lia.
  destruct (routed a cpu (word * 32 + c)) eqn:Hbit; [|eauto].
  exists (Some (word * 32 + c)). split; [done|]. exists c.
  repeat split; [lia|lia|done|done|]. intros b' Hb' Hb'bit. by rewrite Hc2 in Hb'bit by lia.
Qed.

Lemma eir_words_bounds a :
  aic_ok a → aic_eir_words (irq_count a) = (irq_count a + 31) / 32 ∧
  1 ≤ aic_eir_words (irq_count a) ≤ 32 ∧ irq_count a ≤ aic_eir_words (irq_count a) * 32.
Proof.
  intros Ha. pose proof (ok_irqs a Ha) as Hi. unfold VF_AIC_MAX_IRQ in Hi.
  unfold aic_eir_words. rewrite wrap_id by (unfold fits; lia).
  pose proof (Z.div_mod (irq_count a + 31) 32). pose proof (Z.mod_pos_bound (irq_count a + 31) 32).
  lia.
Qed.

Lemma split_irq i : 0 ≤ i → i = i / 32 * 32 + i mod 32 ∧ 0 ≤ i mod 32 < 32 ∧ 0 ≤ i / 32.
Proof.
  intros. pose proof (Z.div_mod i 32). pose proof (Z.mod_pos_bound i 32).
  pose proof (Z.div_pos i 32). lia.
Qed.

Definition no_irq_below (a : vf_aic_v1) (cpu n : Z) : Prop :=
  ∀ j, 0 ≤ j < n → deliverable a cpu j = false.

Lemma candidates_testbit a cpu word l s m b :
  arr_get (level a) word = Some l → arr_get (software a) word = Some s →
  arr_get (masked a) word = Some m → fits 32 l → fits 32 s → 0 ≤ word → 0 ≤ b < 32 →
  deliverable a cpu (word * 32 + b) =
    Z.testbit (Z.land (Z.lor l s) (bnot 32 m)) b && routed a cpu (word * 32 + b).
Proof.
  intros Hl Hs Hm Fl Fs Hw Hb. unfold deliverable.
  rewrite (proj2 (Z.leb_le _ _)) by lia. simpl.
  rewrite (bank_bit_word _ _ _ _ Hl Hb), (bank_bit_word _ _ _ _ Hs Hb),
    (bank_bit_word _ _ _ _ Hm Hb).
  rewrite Z.land_spec, Z.lor_spec, bnot_testbit, bool_decide_true by lia. done.
Qed.

Lemma scan_words_S n a cpu word l s m r :
  arr_get (level a) word = Some l → arr_get (software a) word = Some s →
  arr_get (masked a) word = Some m →
  scan_word 33 a cpu word (Z.land (Z.lor l s) (bnot 32 m)) = Some r →
  scan_words (S n) a cpu word =
    match r with Some irq => Some irq | None => scan_words n a cpu (word + 1) end.
Proof.
  intros Hl Hs Hm Hr. unfold scan_words; fold scan_words. rewrite Hl, Hs, Hm.
  unfold mbind, option_bind. rewrite Hr. done.
Qed.

Lemma scan_words_spec n a cpu word :
  aic_ok a → 0 ≤ cpu → 0 ≤ word → word + Z.of_nat n = aic_eir_words (irq_count a) →
  no_irq_below a cpu (word * 32) →
  ∃ r, scan_words n a cpu word = Some r ∧
    ((r = -1 ∧ ∀ j, deliverable a cpu j = false)
     ∨ (deliverable a cpu r = true ∧ no_irq_below a cpu r)).
Proof.
  intros Ha Hcpu. destruct (eir_words_bounds a Ha) as (_ & Hw & Hcov).
  revert word. induction n as [|n IH]; intros word Hword Hsum Hno.
  { exists (-1). split; [done|]. left. split; [done|]. intros j.
    destruct (decide (0 ≤ j < word * 32)) as [Hj|Hj]; [by apply Hno|].
    unfold deliverable, routed. destruct (Z.leb_spec 0 j); [|done].
    rewrite (proj2 (Z.ltb_ge _ _)) by lia. by rewrite andb_false_r. }
  destruct (arr_get_lt (level a) word) as [l Hl]; [rewrite (ok_level_len a Ha); lia|].
  destruct (arr_get_lt (software a) word) as [s Hs]; [rewrite (ok_software_len a Ha); lia|].
  destruct (arr_get_lt (masked a) word) as [m Hm]; [rewrite (ok_masked_len a Ha); lia|].
  assert (Fl : fits 32 l) by (eapply arr_get_Forall; [apply (ok_level a Ha)|done]).
  assert (Fs : fits 32 s) by (eapply arr_get_Forall; [apply (ok_software a Ha)|done]).
  assert (Hcand := λ b Hb, candidates_testbit a cpu word l s m b Hl Hs Hm Fl Fs Hword Hb).
  destruct (scan_word_spec 33 a cpu word (Z.land (Z.lor l s) (bnot 32 m)) 0) as (r & Hr & Hpost);
    [done|done|lia|width|lia|lia|lia|].
  rewrite (scan_words_S n a cpu word l s m r Hl Hs Hm Hr).
  assert (Hext : ∀ c, 0 ≤ c ≤ 32 → (∀ b, 0 ≤ b < c → deliverable a cpu (word * 32 + b) = false) →
    no_irq_below a cpu (word * 32 + c)).
  { intros c Hc Hb j Hj. destruct (decide (j < word * 32)); [apply Hno; lia|].
    replace j with (word * 32 + (j - word * 32)) by lia. apply Hb. lia. }
  destruct r as [irq|]; simpl in Hpost.
  - destruct Hpost as (b & -> & Hb & Hbit & Hrt & Hleast).
    exists (word * 32 + b). split; [done|]. right. split.
    + rewrite Hcand by done. by rewrite Hbit, Hrt.
    + apply Hext; [lia|]. intros b' Hb'. rewrite Hcand by lia.
      destruct (Z.testbit _ b') eqn:E; [|done]. simpl. by apply Hleast.
  - apply IH; [lia|lia|]. replace ((word + 1) * 32) with (word * 32 + 32) by lia.
    apply Hext; [lia|]. intros b' Hb'. rewrite Hcand by lia.
    destruct (Z.testbit _ b') eqn:E; [|done]. simpl. by apply Hpost.
Qed.

Lemma next_irq_spec a cpu :
  aic_ok a → 0 ≤ cpu < cpu_count a →
  ∃ r, next_irq (Some a) cpu = Some r ∧
    ((r = -1 ∧ ∀ j, deliverable a cpu j = false)
     ∨ (deliverable a cpu r = true ∧ no_irq_below a cpu r)).
Proof.
  intros Ha Hcpu. destruct (eir_words_bounds a Ha) as (_ & Hw & _).
  unfold next_irq. rewrite (proj2 (Z.leb_gt _ _)) by lia.
  apply scan_words_spec; [done|lia|lia|lia|]. intros j Hj. lia.
Qed.

(** ** Banks of one bit per interrupt *)

Lemma bank_bit_insert bank word w j :
  0 ≤ word < Z.of_nat (length bank) →
  bank_bit (<[Z.to_nat word := w]> bank) j =
    if decide (j / 32 = word) then Z.testbit w (j mod 32) else bank_bit bank j.
Proof.
  intros Hw. unfold bank_bit. case_decide as Hj.
  - by rewrite Hj, arr_get_insert_eq.
  - rewrite arr_get_insert_ne; [done|lia|done].
Qed.

Lemma irq_word_bit i : 0 ≤ i → Z.shiftr i 5 = i / 32 ∧ Z.land i 31 = i mod 32.
Proof.
  intros. split; [by rewrite Z.shiftr_div_pow2|]. by apply (Z.land_ones i 5).
Qed.

Lemma deliverable_bounds a cpu i :
  deliverable a cpu i = true → 0 ≤ i < irq_count a.
Proof. unfold deliverable, routed. lia. Qed.

Lemma event_ext_add i : 0 ≤ i < 65536 → Z.lor VF_AIC_EVENT_EXT i = 65536 + i.
Proof.
  intros. by apply (lor_high_low 16 1).
Qed.

(** Masking a deliverable interrupt removes it, and only it, from what every
    CPU can claim. *)
Lemma claim_masks a i x l :
  aic_ok a → 0 ≤ i < irq_count a → arr_get (masked a) (i / 32) = Some x →
  l = <[Z.to_nat (i / 32) := Z.lor x (Z.shiftl 1 (i mod 32))]> (masked a) →
  ∀ c j, deliverable (a <| masked := l |>) c j = deliverable a c j && bool_decide (j ≠ i).
Proof.
  intros Ha Hi Hx -> c j. unfold deliverable, routed; cbn.
  destruct (split_irq i) as (Hsi & Hmi & Hdi); [lia|].
  rewrite bank_bit_insert by (apply arr_get_Some in Hx; lia).
  destruct (Z.leb_spec 0 j) as [Hj|]; [|done]. cbn.
  destruct (split_irq j) as (Hsj & Hmj & Hdj); [lia|].
  case_decide as Hw; cbn.
  - rewrite lor_bit_testbit by lia.
    assert (Hb : bank_bit (masked a) j = Z.testbit x (j mod 32)).
    { unfold bank_bit. by rewrite Hw, Hx. }
    rewrite Hb. rewrite (bool_decide_ext (j ≠ i) (¬ j mod 32 = i mod 32)) by lia.
    rewrite bool_decide_not. btauto.
  - rewrite bool_decide_true by (intros ->; done). by rewrite andb_true_r.
Qed.

(** Claiming sets the mask bit of the interrupt and no other. *)
Lemma claim_bits a i x :
  0 ≤ i → arr_get (masked a) (i / 32) = Some x →
  ∀ j, bank_bit (<[Z.to_nat (i / 32) := Z.lor x (Z.shiftl 1 (i mod 32))]> (masked a)) j = bank_bit (masked a) j || bool_decide (j = i).
Proof.
  intros Hi Hx j. destruct (split_irq i Hi) as (Hsi & Hmi & Hdi).
  rewrite bank_bit_insert by (apply arr_get_Some in Hx; lia). case_decide as Hw.
  - rewrite lor_bit_testbit by lia. unfold bank_bit. rewrite Hw, Hx. f_equal. apply bool_decide_ext.
    pose proof (Z.div_mod j 32). lia.
  - rewrite bool_decide_false by (by intros ->). by rewrite orb_false_r.
Qed.

Lemma word_valid_testbit a word b :
  aic_ok a → 0 ≤ word < 32 → 0 ≤ b < 32 →
  Z.testbit (aic_word_valid a word) b = (word * 32 + b <? irq_count a).
Proof.
  intros Ha Hw Hb. pose proof (ok_irqs a Ha) as Hi. unfold VF_AIC_MAX_IRQ in Hi.
  unfold aic_word_valid. rewrite (wrap_id 32 (word * 32)) by (unfold fits; lia).
  split_ifs.
  - rewrite Z.bits_0. lia.
  - change UINT32_MAX with (Z.ones 32). rewrite ones_testbit by lia. lia.
  - rewrite shl_one_pred, ones_testbit by lia. lia.
Qed.

(** The bits of a bank write that select interrupt [i]. *)
Definition selected (word value i : Z) : bool :=
  bool_decide (i / 32 = word) && Z.testbit value (i mod 32).

Lemma bank_bit_or bank word x value i :
  arr_get bank word = Some x →
  bank_bit (<[Z.to_nat word := Z.lor x value]> bank) i = bank_bit bank i || selected word value i.
Proof.
  intros Hx. rewrite bank_bit_insert by (apply arr_get_Some in Hx; lia).
  unfold selected. case_decide as Hw.
  - rewrite Z.lor_spec, bool_decide_true by done. unfold bank_bit. by rewrite Hw, Hx.
  - by rewrite bool_decide_false, orb_false_r.
Qed.

Lemma bank_bit_clear bank word x value i :
  arr_get bank word = Some x → fits 32 x → 0 ≤ i →
  bank_bit (<[Z.to_nat word := Z.land x (bnot 32 value)]> bank) i =
    bank_bit bank i && negb (selected word value i).
Proof.
  intros Hx Fx Hi. rewrite bank_bit_insert by (apply arr_get_Some in Hx; lia).
  unfold selected. case_decide as Hw.
  - destruct (split_irq i Hi) as (_ & Hm & _).
    rewrite Z.land_spec, bnot_testbit, !bool_decide_true by lia.
    unfold bank_bit. by rewrite Hw, Hx.
  - by rewrite bool_decide_false, andb_true_r.
Qed.

(** Which bank words may be written with [value]. *)
Definition bank_write_ok (a : vf_aic_v1) (word value : Z) : Prop :=
  word * 32 < irq_count a ∧
  ∀ b, 0 ≤ b < 32 → Z.testbit value b = true → word * 32 + b < irq_count a.

Lemma bank_write_guard a word value :
  aic_ok a → 0 ≤ word < 32 → fits 32 value →
  (aic_eir_words (irq_count a) <=? word) || nz (Z.land value (bnot 32 (aic_word_valid a word)))
    = false ↔ bank_write_ok a word value.
Proof.
  intros Ha Hw Hv. rewrite orb_false_iff, nz_false, land_bnot_zero by (done || lia).
  destruct (eir_words_bounds a Ha) as (He & Hb & _). unfold bank_write_ok.
  pose proof (Z.div_mod (irq_count a + 31) 32). pose proof (Z.mod_pos_bound (irq_count a + 31) 32).
  split; intros [H1 H2].
  - split; [lia|]. intros b Hb' Hbit. specialize (H2 b Hb' Hbit).
    rewrite word_valid_testbit in H2 by done. lia.
  - split; [lia|]. intros b Hb' Hbit. rewrite word_valid_testbit by done.
    specialize (H2 b Hb' Hbit). lia.
Qed.

(** ** Every operation keeps the invariant *)

#[local] Hint Resolve Forall_insert : width.

(** Rebuilds the invariant after an update of some fields. *)
Ltac rebuild Ha :=
  destruct Ha; constructor; cbn; rewrite ?length_insert, ?length_replicate;
  solve [done | lia | eauto 8 with width].

Lemma fits_32_shiftr c v : 1 ≤ c ≤ 32 → fits 32 v → (c <? 32) && nz (Z.shiftr v c) = false → fits c v.
Proof.
  intros Hc Hv. destruct (Z.ltb_spec c 32); cbn; [|intros; by replace c with 32 by lia].
  rewrite nz_false, Z.shiftr_div_pow2 by lia. intros Hz.
  assert (0 < 2 ^ c) by (apply Z.pow_pos_nonneg; lia).
  unfold fits in *. split; [lia|]. apply Z.div_small_iff in Hz; lia.
Qed.

Lemma bank_word_bounds off : 0 ≤ Z.land off 0x7f / 4 < 32.
Proof.
  change 0x7f with (Z.ones 7). rewrite Z.land_ones by lia.
  pose proof (Z.mod_pos_bound off (2 ^ 7)). pose proof (Z.div_mod (off mod 2 ^ 7) 4).
  pose proof (Z.mod_pos_bound (off mod 2 ^ 7) 4). lia.
Qed.

Lemma reset_ok a :
  1 ≤ irq_count a ≤ VF_AIC_MAX_IRQ → 1 ≤ cpu_count a ≤ VF_AIC_MAX_CPU → aic_ok (aic_reset_state a).
Proof.
  intros Hi Hc. constructor; cbn; rewrite ?length_replicate; auto with width.
  all: apply Forall_replicate; unfold fits.
  all: try lia. unfold VF_AIC_MAX_CPU in Hc.
  assert (2 ^ 1 ≤ 2 ^ cpu_count a) by (apply Z.pow_le_mono_r; lia). lia.
Qed.

Lemma aic_init_ok a irqs cpus :
  fits 32 irqs → fits 32 cpus →
  ∃ rc a', vf_aic_init (Some a) irqs cpus = Some (rc, Some a') ∧
    ((rc = -1 ∧ a' = a) ∨
     (rc = 0 ∧ aic_ok a' ∧ irq_count a' = irqs ∧ cpu_count a' = cpus)).
Proof.
  intros [Hi _] [Hc _]. unfold vf_aic_init, with_obj.
  destruct (_ || _ || _ || _) eqn:E; cbn [mbind option_bind]; [by eauto 8|].
  eexists _, _. split; [done|]. right. split; [done|]. split; [|done].
  apply reset_ok; cbn; lia.
Qed.

Lemma set_line_ok a irq high :
  aic_ok a → fits 32 irq →
  ∃ rc a', vf_aic_set_line (Some a) irq high = Some (rc, Some a') ∧ aic_ok a' ∧
    ((rc = -1 ∧ a' = a ∧ irq_count a ≤ irq) ∨ (rc = 0 ∧ irq < irq_count a)).
Proof.
  intros Ha [Hi _]. pose proof (ok_irqs a Ha) as Hq. unfold VF_AIC_MAX_IRQ in Hq.
  unfold vf_aic_set_line, with_obj. destruct (irq_count a <=? irq) eqn:E.
  { eexists _, _. split; [done|]. split; [done|]. left. split_and!; [done|done|lia]. }
  destruct (irq_word_bit irq Hi) as [-> ->]. destruct (split_irq irq Hi) as (? & ? & ?).
  in_bounds ltac:(rewrite (ok_level_len a Ha); lia).
  in_bounds ltac:(rewrite (ok_level_len a Ha); lia).
  eexists _, _. split; [done|]. split; [|right; lia].
  assert (fits 32 x) by (eapply arr_get_Forall; [apply (ok_level a Ha)|done]).
  destruct (nz high); rebuild Ha.
Qed.

Lemma resolve_bounds a cpu off c o :
  aic_ok a → 0 ≤ cpu → 0 ≤ off → aic_resolve_access a cpu off = Some (c, o) →
  0 ≤ c < cpu_count a ∧ 0 ≤ o.
Proof.
  intros Ha Hcpu Hoff. pose proof (ok_cpus a Ha) as Hc. unfold VF_AIC_MAX_CPU in Hc.
  unfold aic_resolve_access, VF_AIC_REG_CPU_BASE, VF_AIC_REG_WHOAMI.
  rewrite (wrap_id 32 (cpu_count a * 0x80)) by (unfold fits; lia).
  rewrite wrap_id by (unfold fits; lia).
  destruct (_ && _) eqn:E.
  - destruct (Z.ltb_spec 0x7c ((off - 0x5000) mod 0x80)); [discriminate|]. intros [= <- <-].
    pose proof (Z.div_mod (off - 0x5000) 0x80). pose proof (Z.mod_pos_bound (off - 0x5000) 0x80).
    split; [lia|]. apply (fits_nonneg 32). width.
  - destruct (Z.leb_spec (cpu_count a) cpu); [discriminate|]. intros [= <- <-]. lia.
Qed.

Lemma write_bank_ok a off value op :
  aic_ok a → fits 32 value → 0 ≤ off →
  ∃ rc a', aic_write_bank a off value op = Some (rc, a') ∧ aic_ok a' ∧
    (rc = 0 ∨ rc = -1 ∧ a' = a).
Proof.
  intros Ha Hv Hoff. pose proof (bank_word_bounds off) as Hw. unfold aic_write_bank.
  set (word := Z.land off 0x7f / 4) in *.
  split_ifs; try by eauto 8.
  all: in_bounds ltac:(rewrite ?(ok_software_len a Ha), ?(ok_masked_len a Ha); lia).
  all: in_bounds ltac:(rewrite ?(ok_software_len a Ha), ?(ok_masked_len a Ha); lia).
  all: assert (fits 32 x) by
    (eapply arr_get_Forall; [|eassumption]; first [apply (ok_software a Ha)|apply (ok_masked a Ha)]).
  all: eexists _, _; split; [done|]; split; [|by left]; rebuild Ha.
Qed.

(** The EVENT register, reached directly ([resolve] leaves offset and CPU) or
    through the per-CPU window. *)
Lemma read_event a cpu off c :
  aic_ok a → Z.land off 3 = 0 → 0 ≤ c < cpu_count a →
  aic_resolve_access a cpu off = Some (c, VF_AIC_REG_EVENT) →
  ∃ v a', vf_aic_read (Some a) cpu off 4 true = Some ((0, Some v), Some a') ∧ aic_ok a' ∧
    ((v = 0 ∧ a' = a ∧ ∀ j, deliverable a c j = false)
     ∨ (∃ i, v = 65536 + i ∧ deliverable a c i = true ∧ no_irq_below a c i ∧
         (∀ c' j, deliverable a' c' j = deliverable a c' j && bool_decide (j ≠ i)) ∧
         a' = a <| masked := masked a' |> ∧
         ∀ j, bank_bit (masked a') j = bank_bit (masked a) j || bool_decide (j = i))).
Proof.
  intros Ha Hal Hc Hres. pose proof (ok_irqs a Ha) as Hq. unfold VF_AIC_MAX_IRQ in Hq.
  unfold vf_aic_read, with_obj. rewrite Hal, Hres.
  change (negb true || negb (4 =? 4) || nz 0) with false. cbv iota beta.
  change (VF_AIC_REG_EVENT =? VF_AIC_REG_REV) with false.
  change (VF_AIC_REG_EVENT =? VF_AIC_REG_INFO) with false.
  change (VF_AIC_REG_EVENT =? VF_AIC_REG_GLB_CFG) with false.
  change (VF_AIC_REG_EVENT =? VF_AIC_REG_WHOAMI) with false.
  change (VF_AIC_REG_EVENT =? VF_AIC_REG_EVENT) with true. cbv iota.
  destruct (next_irq_spec a c Ha Hc) as (r & -> & Hr). cbn [mbind option_bind].
  destruct Hr as [[-> Hnone]|[Hdel Hleast]].
  { eexists _, _. split; [done|]. split; [done|]. by left. }
  pose proof (deliverable_bounds _ _ _ Hdel) as Hb. rewrite (proj2 (Z.leb_le 0 r)) by lia.
  destruct (irq_word_bit r) as [-> ->]; [lia|]. destruct (split_irq r) as (? & ? & ?); [lia|].
  in_bounds ltac:(rewrite (ok_masked_len a Ha); lia).
  in_bounds ltac:(rewrite (ok_masked_len a Ha); lia).
  rewrite event_ext_add by lia.
  assert (fits 32 x) by (eapply arr_get_Forall; [apply (ok_masked a Ha)|done]).
  eexists _, _. split; [done|]. split; [rebuild Ha|]. right. exists r. split; [done|].
  split; [done|]. split; [done|]. split; [by eapply claim_masks|]. split; [done|]. cbn. by apply claim_bits; [lia|].
Qed.

#[export] Instance aic_ops (cpu : Z) : MmioOps vf_aic_v1 := {
  mmio_read a off w v := vf_aic_read a cpu off w v;
  mmio_write a off w x := vf_aic_write a cpu off w x;
  mmio_inv := aic_ok;
  mmio_bits := 32;
}.

Lemma aic_read_safe a cpu off w :
  aic_ok a → 0 ≤ cpu → fits 32 off →
  ∃ r a', vf_aic_read (Some a) cpu off w true = Some (r, Some a') ∧ aic_ok a' ∧
    ((∃ x, r = (0, Some x) ∧ fits 32 x) ∨ (r = (-1, None) ∧ a' = a)).
Proof.
  intros Ha Hcpu [Ho _]. pose proof (ok_irqs a Ha) as Hq. unfold VF_AIC_MAX_IRQ in Hq.
  pose proof (ok_cpus a Ha) as Hc. unfold VF_AIC_MAX_CPU in Hc.
  destruct (eir_words_bounds a Ha) as (_ & Hw & _).
  assert (Href : ∃ r a', Some ((-1, None : option Z), Some a) = Some (r, Some a') ∧ aic_ok a' ∧
    ((∃ x, r = (0, Some x) ∧ fits 32 x) ∨ (r = (-1, None) ∧ a' = a))) by eauto 8.
  destruct (negb (w =? 4) || nz (Z.land off 3)) eqn:Eg.
  { unfold vf_aic_read, with_obj. cbn [negb orb]. rewrite Eg. exact Href. }
  apply orb_false_iff in Eg as [Ew Eo]. assert (w = 4) as -> by lia. apply nz_false in Eo.
  destruct (aic_resolve_access a cpu off) as [[c o]|] eqn:Hres.
  2:{ unfold vf_aic_read, with_obj. rewrite Eo, Hres. exact Href. }
  destruct (resolve_bounds _ _ _ _ _ Ha Hcpu Ho Hres) as [Hcb Hob].
  destruct (decide (o = VF_AIC_REG_EVENT)) as [->|Hne].
  { destruct (read_event a cpu off c) as (v & a' & -> & Ha' & Hv); [done..|].
    eexists _, _. split; [done|]. split; [done|]. left. exists v. split; [done|].
    destruct Hv as [(-> & _)|(i & -> & Hd%deliverable_bounds & _)]; unfold fits; lia. }
  unfold vf_aic_read, with_obj. rewrite Eo, Hres. cbn -[aic_read_bank].
  rewrite (proj2 (Z.eqb_neq _ _) Hne).
  assert (Hok : ∀ v, fits 32 v → ∃ r a', Some ((0, Some v), Some a) = Some (r, Some a') ∧ aic_ok a' ∧
    ((∃ x, r = (0, Some x) ∧ fits 32 x) ∨ (r = (-1, None) ∧ a' = a))) by eauto 10.
  unfold aic_read_bank, VF_AIC_REG_TARGET in *.
  pose proof (bank_word_bounds o).
  split_ifs; try exact Href; try apply Hok.
  all: try in_bounds ltac:(rewrite ?(ok_target_len a Ha), ?(ok_masked_len a Ha), ?(ok_level_len a Ha); dlia).
  all: try in_bounds ltac:(rewrite ?(ok_software_len a Ha); dlia).
  all: try apply Hok.
  all: try solve [apply (ok_cfg a Ha) | unfold fits; lia | apply fits_lor; [lia|width|unfold fits; lia]].
  - eapply (fits_weaken (cpu_count a)); [lia|]. eapply arr_get_Forall; [apply (ok_target a Ha)|done].
  - eapply arr_get_Forall; [apply (ok_masked a Ha)|done].
  - apply fits_lor; [lia| |].
    + eapply arr_get_Forall; [apply (ok_level a Ha)|done].
    + eapply arr_get_Forall; [apply (ok_software a Ha)|done].
Qed.

Lemma aic_write_safe a cpu off w x :
  aic_ok a → 0 ≤ cpu → fits 32 off → fits 32 x →
  ∃ rc a', vf_aic_write (Some a) cpu off w x = Some (rc, Some a') ∧ aic_ok a' ∧
    (rc = 0 ∨ (rc = -1 ∧ a' = a)).
Proof.
  intros Ha Hcpu [Ho _] Hx. pose proof (ok_irqs a Ha) as Hq. pose proof (ok_cpus a Ha) as Hc.
  unfold vf_aic_write, with_obj.
  assert (Href : ∃ rc a', Some (-1, Some a) = Some (rc, Some a') ∧ aic_ok a' ∧
    (rc = 0 ∨ (rc = -1 ∧ a' = a))) by eauto 8.
  destruct (negb (w =? 4) || nz (Z.land off 3)) eqn:Eg; [exact Href|].
  destruct (aic_resolve_access a cpu off) as [[c o]|] eqn:Hres; [|exact Href].
  destruct (resolve_bounds _ _ _ _ _ Ha Hcpu Ho Hres) as [Hcb Hob].
  unfold VF_AIC_REG_TARGET, VF_AIC_MAX_IRQ, VF_AIC_MAX_CPU in *.
  split_ifs; try exact Href.
  - eexists _, _. split; [done|]. split; [by apply reset_ok|by left].
  - eexists _, _. split; [done|]. split; [rebuild Ha|by left].
  - in_bounds ltac:(rewrite (ok_target_len a Ha); dlia).
    assert (fits (cpu_count a) x) by (apply fits_32_shiftr; [lia|done|lia]).
    eexists _, _. split; [done|]. split; [rebuild Ha|by left].
  - destruct (write_bank_ok a o x ((o - VF_AIC_REG_SW_BASE) / 0x80)) as (rc & a' & -> & ? & ?);
      [done..|]. cbn. eauto 8.
Qed.

#[export] Instance aic_laws cpu (Hcpu : fits 32 cpu) : @MmioLaws vf_aic_v1 (aic_ops cpu).
Proof.
  destruct Hcpu as [Hcpu _]. split; cbn; try done.
  - intros. by apply aic_read_safe.
  - intros. by apply aic_write_safe.
Qed.

Lemma pending_spec a cpu :
  aic_ok a → 0 ≤ cpu < cpu_count a →
  ∃ b, vf_aic_pending (Some a) cpu = Some (b2z b) ∧
    (b = true ↔ ∃ i, deliverable a cpu i = true).
Proof.
  intros Ha Hc. unfold vf_aic_pending.
  destruct (next_irq_spec a cpu Ha Hc) as (r & -> & Hr). cbn [mbind option_bind].
  exists (0 <=? r). split; [done|]. destruct Hr as [[-> Hno]|[Hd _]].
  - split; [done|]. intros [i Hi]. by rewrite Hno in Hi.
  - pose proof (deliverable_bounds _ _ _ Hd). split; [by eauto|lia].
Qed.

(** The two ways to address a CPU's EVENT register. *)
Definition event_address (cpu c off : Z) : Prop :=
  (off = VF_AIC_REG_EVENT ∧ c = cpu) ∨ off = VF_AIC_REG_CPU_BASE + c * 0x80 + 4.

Lemma resolve_event a cpu c off :
  aic_ok a → 0 ≤ c < cpu_count a → event_address cpu c off →
  aic_resolve_access a cpu off = Some (c, VF_AIC_REG_EVENT) ∧ Z.land off 3 = 0.
Proof.
  intros Ha Hc Hoff. pose proof (ok_cpus a Ha) as Hq. unfold VF_AIC_MAX_CPU in Hq.
  unfold aic_resolve_access, event_address, VF_AIC_REG_CPU_BASE, VF_AIC_REG_EVENT,
    VF_AIC_REG_WHOAMI in *.
  rewrite (wrap_id 32 (cpu_count a * 0x80)) by (unfold fits; lia).
  rewrite wrap_id by (unfold fits; lia). rewrite land_3_mod.
  destruct Hoff as [[-> ->]| ->].
  - split; [|done]. rewrite (proj2 (Z.leb_gt _ _)) by lia. cbn.
    by rewrite (proj2 (Z.leb_gt (cpu_count a) cpu)) by lia.
  - split; [|dlia]. rewrite (proj2 (Z.leb_le _ _)), (proj2 (Z.ltb_lt _ (_ + _))) by lia. cbn.
    replace (0x5000 + c * 0x80 + 4 - 0x5000) with (c * 0x80 + 4) by lia.
    rewrite Z.div_add_l by lia. rewrite (Z.add_comm (c * 0x80)), Z.mod_add by lia.
    cbn. by rewrite Z.add_0_r.
Qed.

(** ** Operation sequences *)

(** What the rest of the machine does with a controller: drive a wired line,
    access a register on behalf of a CPU. *)
Inductive aic_event :=
  | Line (irq high : Z)
  | Mmio (cpu : Z) (c : access).

Definition aic_step (a : vf_aic_v1) (e : aic_event) : option vf_aic_v1 :=
  match e with
  | Line irq high => '(_, p) ← vf_aic_set_line (Some a) irq high; p
  | Mmio cpu c => '(_, a') ← @do_access _ (aic_ops cpu) a c; Some a'
  end.

Fixpoint aic_steps (a : vf_aic_v1) (es : list aic_event) : option vf_aic_v1 :=
  match es with
  | [] => Some a
  | e :: es => a' ← aic_step a e; aic_steps a' es
  end.

Definition event_ok (e : aic_event) : Prop :=
  match e with
  | Line irq high => fits 32 irq
  | Mmio cpu c => fits 32 cpu ∧ access_ok 32 c
  end.

Lemma aic_step_ok a e : aic_ok a → event_ok e → ∃ a', aic_step a e = Some a' ∧ aic_ok a'.
Proof.
  intros Ha. destruct e as [irq high|cpu c]; unfold aic_step; cbn [event_ok].
  - intros Hi. destruct (set_line_ok a irq high Ha Hi) as (rc & a' & -> & ? & _). cbn. eauto.
  - intros [Hcpu Hc]. pose proof (aic_laws cpu Hcpu).
    destruct (@do_access_safe _ (aic_ops cpu) _ a c) as (r & a' & -> & ? & _); [done..|].
    cbn. eauto.
Qed.

Lemma aic_steps_ok a es :
  aic_ok a → Forall event_ok es → ∃ a', aic_steps a es = Some a' ∧ aic_ok a'.
Proof.
  intros Ha Hes. revert a Ha. induction Hes as [|e es He _ IH]; intros a Ha; cbn; [eauto|].
  destruct (aic_step_ok a e Ha He) as (a' & -> & Ha'). cbn. auto.
Qed.

(** ** Properties *)

(** C13. Reading EVENT, directly or through the window of CPU [c], claims the
    lowest-numbered interrupt that is asserted, unmasked and routed to [c]:
    the value is the external-event tag plus its number, afterwards that
    interrupt is masked for every CPU, and the deliverability of every other
    interrupt to every CPU is what it was.  The claim sets the mask bit of that
    interrupt and changes nothing else: no other mask bit, not its wired or
    software level, no target.  When there is none the value is 0 and nothing
    changes.  The pending query agrees with the value. *)
Theorem event_claims_lowest a cpu c off :
  aic_ok a → 0 ≤ c < cpu_count a → event_address cpu c off →
  ∃ v a', vf_aic_read (Some a) cpu off 4 true = Some ((0, Some v), Some a') ∧
    vf_aic_pending (Some a) c = Some (b2z (nz v)) ∧
    ((v = 0 ∧ a' = a ∧ ∀ j, deliverable a c j = false)
     ∨ (∃ i, v = 65536 + i ∧ deliverable a c i = true ∧ no_irq_below a c i ∧
         (∀ c' j, deliverable a' c' j = deliverable a c' j && bool_decide (j ≠ i)) ∧
         a' = a <| masked := masked a' |> ∧
         ∀ j, bank_bit (masked a') j = bank_bit (masked a) j || bool_decide (j = i))).
Proof.
  intros Ha Hc Hoff. destruct (resolve_event a cpu c off Ha Hc Hoff) as [Hres Hal].
  destruct (read_event a cpu off c Ha Hal Hc Hres) as (v & a' & Hrd & _ & Hv).
  exists v, a'. split; [done|]. split; [|done].
  destruct (pending_spec a c Ha Hc) as (b & -> & Hb). f_equal. f_equal.
  destruct Hv as [(-> & _ & Hno)|(i & -> & Hd & _)]; cbn.
  - destruct b; [|done]. destruct (proj1 Hb eq_refl) as [i Hi]. by rewrite Hno in Hi.
  - pose proof (deliverable_bounds _ _ _ Hd). rewrite (proj2 Hb) by eauto.
    unfold nz. lia.
Qed.

Definition sample : vf_aic_v1 :=
  match vf_aic_init (Some (Build_vf_aic_v1 0 0 0 [] [] [] [])) 64 2 with
  | Some (_, Some a) => a
  | _ => Build_vf_aic_v1 0 0 0 [] [] [] []
  end.

Lemma aic_sample_ok : aic_ok sample.
Proof.
  destruct (aic_init_ok (Build_vf_aic_v1 0 0 0 [] [] [] []) 64 2) as (rc & a' & H & Hr);
    [unfold fits; lia..|].
  unfold sample. rewrite H. destruct Hr as [[-> ->]|(_ & Ha & _)]; [|done]. done.
Qed.

(** Lines 5 and 9 are up and unmasked. *)
Definition sample_raised : vf_aic_v1 :=
  default sample (aic_steps sample [Line 9 1; Line 5 1; Mmio 0 (Wr 0x4180 4 0x220)]).

Lemma sample_raised_ok : aic_ok sample_raised.
Proof.
  destruct (aic_steps_ok sample [Line 9 1; Line 5 1; Mmio 0 (Wr 0x4180 4 0x220)] aic_sample_ok) as (a' & Hs & Ha).
  - repeat constructor; unfold fits; lia.
  - unfold sample_raised. by rewrite Hs.
Qed.

Lemma event_claims_lowest_witness :
  option_map fst (vf_aic_read (Some sample_raised) 0 0x2004 4 true) = Some (0, Some 0x10005) ∧
  ∃ v a', vf_aic_read (Some sample_raised) 0 0x2004 4 true = Some ((0, Some v), Some a') ∧
    vf_aic_pending (Some sample_raised) 0 = Some (b2z (nz v)) ∧
    ((v = 0 ∧ a' = sample_raised ∧ ∀ j, deliverable sample_raised 0 j = false)
     ∨ (∃ i, v = 65536 + i ∧ deliverable sample_raised 0 i = true ∧ no_irq_below sample_raised 0 i ∧
         (∀ c' j, deliverable a' c' j = deliverable sample_raised c' j && bool_decide (j ≠ i)) ∧
         a' = sample_raised <| masked := masked a' |> ∧
         ∀ j, bank_bit (masked a') j = bank_bit (masked sample_raised) j || bool_decide (j = i))).
Proof.
  split; [by vm_compute|]. apply (event_claims_lowest sample_raised 0 0 0x2004 sample_raised_ok).
  - vm_compute. split; congruence.
  - left. done.
Defined.

(** C35. From a successful initialisation no sequence of wired-line inputs and
    register accesses, by any CPU at any offset, width and value, has
    undefined behaviour (every table and bank index is in range), and the
    controller's invariant holds at its end: banks and targets keep their
    lengths and widths and no interrupt is routed to an absent CPU. *)
Theorem no_undefined_behaviour a irqs cpus a' es :
  fits 32 irqs → fits 32 cpus → Forall event_ok es →
  vf_aic_init (Some a) irqs cpus = Some (0, Some a') →
  ∃ a'', aic_steps a' es = Some a'' ∧ aic_ok a''.
Proof.
  intros Hi Hc Hes Hinit. destruct (aic_init_ok a irqs cpus Hi Hc) as (rc & b & Hb & Hr).
  rewrite Hinit in Hb. injection Hb as <- <-. destruct Hr as [[? _]|(_ & Ha & _)]; [lia|].
  by apply aic_steps_ok.
Qed.

Lemma no_undefined_behaviour_witness :
  ∃ a'', aic_steps sample [Line 5 1; Mmio 0 (Wr 0x4180 4 0x20); Mmio 7 (Rd 0x5004 4)] = Some a''
    ∧ aic_ok a''.
Proof.
  apply (no_undefined_behaviour (Build_vf_aic_v1 0 0 0 [] [] [] []) 64 2).
  - unfold fits; lia.
  - unfold fits; lia.
  - repeat constructor; unfold fits; lia.
  - reflexivity.
Defined.

(** The offset of word [word] of bank operation [op]: 0 set software, 1 clear
    software, 2 set mask, 3 clear mask. *)
Definition bank_address (op word : Z) : Z := VF_AIC_REG_SW_BASE + op * 0x80 + word * 4.

Lemma bank_address_fields op word :
  0 ≤ op < 4 → 0 ≤ word < 32 →
  let off := bank_address op word in
  0x4000 ≤ off < 0x4200 ∧ Z.land off 3 = 0 ∧ Z.land off 0x7f / 4 = word
  ∧ (off - VF_AIC_REG_SW_BASE) / 0x80 = op.
Proof.
  intros Ho Hw off. unfold off, bank_address, VF_AIC_REG_SW_BASE.
  rewrite land_3_mod. change 0x7f with (Z.ones 7). rewrite Z.land_ones by lia. dlia.
Qed.

(** Writing [value] to a bank register is accepted exactly when the word and
    every bit set in the value belong to an implemented interrupt.  It then sets
    or clears, in the addressed bank only, exactly the bits the value selects;
    a refused write changes nothing. *)
Theorem bank_write_bits a cpu op word value :
  aic_ok a → 0 ≤ cpu < cpu_count a → 0 ≤ op < 4 → 0 ≤ word < 32 → fits 32 value →
  ∃ rc a', vf_aic_write (Some a) cpu (bank_address op word) 4 value = Some (rc, Some a') ∧
    ((rc = -1 ∧ a' = a ∧ ¬ bank_write_ok a word value)
     ∨ (rc = 0 ∧ bank_write_ok a word value ∧ level a' = level a ∧ target a' = target a ∧
        ∀ i, 0 ≤ i →
          bank_bit (software a') i =
            (if op =? 0 then bank_bit (software a) i || selected word value i
             else if op =? 1 then bank_bit (software a) i && negb (selected word value i)
             else bank_bit (software a) i) ∧
          bank_bit (masked a') i =
            (if op =? 2 then bank_bit (masked a) i || selected word value i
             else if op =? 3 then bank_bit (masked a) i && negb (selected word value i)
             else bank_bit (masked a) i))).
Proof.
  intros Ha Hc Hop Hw Hv. destruct (bank_address_fields op word Hop Hw) as (Ho & Hal & Hword & Hgrp).
  unfold vf_aic_write, with_obj, aic_write_bank, aic_resolve_access, VF_AIC_REG_CPU_BASE,
    VF_AIC_REG_TARGET, VF_AIC_REG_SW_BASE, VF_AIC_REG_RST, VF_AIC_REG_GLB_CFG in *.
  set (off := bank_address op word) in *. rewrite Hal.
  change (nz 0) with false. tests. rewrite Hal, Hword, Hgrp. change (nz 0) with false. tests.
  rewrite orb_false_r. pose proof (bank_write_guard a word value Ha Hw Hv) as Hg.
  destruct (aic_eir_words (irq_count a) <=? word).
  { eexists _, _. split; [done|]. left. split_and!; [done..|]. intros H. by apply Hg in H. }
  destruct (nz (Z.land value (bnot 32 (aic_word_valid a word)))).
  { eexists _, _. split; [done|]. left. split_and!; [done..|]. intros H. by apply Hg in H. }
  apply proj1 in Hg. specialize (Hg eq_refl).
  assert (op = 0 ∨ op = 1 ∨ op = 2 ∨ op = 3) as Hcases by lia.
  destruct Hcases as [->|[->|[->| ->]]]; tests.
  all: in_bounds ltac:(rewrite ?(ok_software_len a Ha), ?(ok_masked_len a Ha); lia).
  all: in_bounds ltac:(rewrite ?(ok_software_len a Ha), ?(ok_masked_len a Ha); lia).
  all: assert (fits 32 x) by
    (eapply arr_get_Forall; [|eassumption]; first [apply (ok_software a Ha)|apply (ok_masked a Ha)]).
  all: eexists _, _; split; [done|]; right; split_and!; [done..|].
  all: intros i Hi; cbn; split; [|]; first [done|by apply bank_bit_or|by apply bank_bit_clear].
Qed.

Lemma bank_write_bits_witness :
  ∃ rc a', vf_aic_write (Some sample) 1 (bank_address 3 1) 4 0x80000001 = Some (rc, Some a') ∧
    rc = 0 ∧ bank_bit (masked a') 63 = false ∧ bank_bit (masked a') 62 = true.
Proof.
  destruct (bank_write_bits sample 1 3 1 0x80000001 aic_sample_ok) as (rc & a' & Hw & Hr).
  - vm_compute; split; congruence.
  - lia.
  - lia.
  - unfold fits; lia.
  - exists rc, a'. split; [exact Hw|]. vm_compute in Hw. injection Hw as <- <-.
    vm_compute. auto.
Defined.

End Aic.
