(* ===== verification/Dart.v ===== *)
(** The DART IOMMU register file, [devices/dart_v1.c] and [dart_v1.h].

    State: the identification, TLB, error, configuration and per-stream
    registers, and a generation counter of TLB invalidates.  Operations:
    initialisation, register reads and writes, the fault latch and its
    interrupt line. *)
From S2P Require Import Prelude.
From S2P Require Import Words.
From S2P Require Import Mmio.

Module Dart.

Definition VF_DART_INSTANCE_SIZE := 0x4000.
Definition VF_DART_REG_PARAMS1 := 0x000.
Definition VF_DART_REG_PARAMS2 := 0x004.
Definition VF_DART_REG_TLB_OP := 0x020.
Definition VF_DART_REG_SID_MASK_LO := 0x034.
Definition VF_DART_REG_SID_MASK_HI := 0x038.
Definition VF_DART_REG_ERROR_STATUS := 0x040.
Definition VF_DART_REG_ERROR_ADDR_LO := 0x050.
Definition VF_DART_REG_ERROR_ADDR_HI := 0x054.
Definition VF_DART_REG_CONFIG := 0x060.
Definition VF_DART_REG_SID_REMAP_BASE := 0x080.
Definition VF_DART_REG_TCR_BASE := 0x100.
Definition VF_DART_REG_TTBR_BASE := 0x200.
Definition VF_DART_MAX_STREAMS := 16.
Definition VF_DART_TTBR_PER_SID := 4.
Definition VF_DART_PARAMS1_PAGE_SHIFT_VAL (s : Z) := shl 32 (Z.land s 0xf) 24.
Definition VF_DART_TLB_OP_BUSY := 0x4.
Definition VF_DART_TLB_OP_INVALIDATE := 0x100000.
Definition VF_DART_ERROR_FLAG := 0x80000000.
Definition VF_DART_CONFIG_LOCK := 0x8000.
Definition VF_DART_DEFAULT_PAGE_SHIFT := 12.

Create HintDb dart_regs.
#[export] Hint Unfold VF_DART_INSTANCE_SIZE VF_DART_REG_PARAMS1 VF_DART_REG_PARAMS2
  VF_DART_REG_TLB_OP VF_DART_REG_SID_MASK_LO VF_DART_REG_SID_MASK_HI VF_DART_REG_ERROR_STATUS
  VF_DART_REG_ERROR_ADDR_LO VF_DART_REG_ERROR_ADDR_HI VF_DART_REG_CONFIG
  VF_DART_REG_SID_REMAP_BASE VF_DART_REG_TCR_BASE VF_DART_REG_TTBR_BASE VF_DART_MAX_STREAMS
  VF_DART_TTBR_PER_SID VF_DART_TLB_OP_BUSY VF_DART_TLB_OP_INVALIDATE VF_DART_ERROR_FLAG
  VF_DART_CONFIG_LOCK VF_DART_DEFAULT_PAGE_SHIFT : dart_regs.

Record vf_dart_v1 := {
  params1 : Z;
  params2 : Z;
  tlb_op : Z;
  sid_mask_lo : Z;
  sid_mask_hi : Z;
  error_status : Z;
  error_addr_lo : Z;
  error_addr_hi : Z;
  config : Z;
  sid_remap : list Z;
  tcr : list Z;
  ttbr : list (list Z);
  tlb_generation : Z;
}.

(** [true]: the access is refused. *)
Definition dart_bounds (off width : Z) : bool :=
  negb (width =? 4) || nz (Z.land off 3) || (VF_DART_INSTANCE_SIZE <=? off).

Definition dart_sid (off base : Z) : option Z :=
  if (off <? base) || nz (Z.land (off - base) 3) then None
  else
    let index := (off - base) / 4 in
    if VF_DART_MAX_STREAMS <=? index then None else Some index.

Definition dart_ttbr (off : Z) : option (Z * Z) :=
  if (off <? VF_DART_REG_TTBR_BASE) || nz (Z.land (off - VF_DART_REG_TTBR_BASE) 3) then None
  else
    let delta := off - VF_DART_REG_TTBR_BASE in
    let slot := delta / 4 in
    if VF_DART_MAX_STREAMS * VF_DART_TTBR_PER_SID <=? slot then None
    else Some (slot / VF_DART_TTBR_PER_SID, slot mod VF_DART_TTBR_PER_SID).

Definition dart_reset_state (d : vf_dart_v1) : vf_dart_v1 := {|
  params1 := VF_DART_PARAMS1_PAGE_SHIFT_VAL VF_DART_DEFAULT_PAGE_SHIFT;
  params2 := 0;
  tlb_op := 0;
  sid_mask_lo := 0;
  sid_mask_hi := 0;
  error_status := 0;
  error_addr_lo := 0;
  error_addr_hi := 0;
  config := 0;
  tlb_generation := 0;
  sid_remap := replicate 4 0;
  tcr := replicate 16 0;
  ttbr := replicate 16 (replicate 4 0);
|}.

Definition vf_dart_init (d : ptr vf_dart_v1) : option (Z * ptr vf_dart_v1) :=
  with_obj (-1) d (λ d, Some (0, dart_reset_state d)).

Definition vf_dart_tlb_generation (d : ptr vf_dart_v1) : Z :=
  match d with Some d => tlb_generation d | None => 0 end.

Definition vf_dart_irq_pending (d : ptr vf_dart_v1) : bool :=
  match d with Some d => nz (Z.land (error_status d) VF_DART_ERROR_FLAG) | None => false end.

Definition vf_dart_simulate_fault (d : ptr vf_dart_v1) (sid code : Z) :
    option (Z * ptr vf_dart_v1) :=
  with_obj (-1) d (λ d,
    if VF_DART_MAX_STREAMS <=? sid then Some (-1, d)
    else Some (0, d <| error_status :=
      Z.lor (Z.lor VF_DART_ERROR_FLAG (shl 32 (Z.land sid 0xf) 24)) (Z.land code 0xfff) |>)).

Definition dart_read_banks (d : vf_dart_v1) (off : Z) : option (rd_result * vf_dart_v1) :=
  if (VF_DART_REG_SID_REMAP_BASE <=? off) && (off <? VF_DART_REG_SID_REMAP_BASE + 16) then
    x ← arr_get (sid_remap d) ((off - VF_DART_REG_SID_REMAP_BASE) / 4); Some ((0, Some x), d)
  else match dart_sid off VF_DART_REG_TCR_BASE with
  | Some sid => x ← arr_get (tcr d) sid; Some ((0, Some x), d)
  | None =>
    match dart_ttbr off with
    | Some (sid, idx) =>
      row ← arr_get (ttbr d) sid; x ← arr_get row idx; Some ((0, Some x), d)
    | None => Some ((-1, None), d)
    end
  end.

Definition vf_dart_read (d : ptr vf_dart_v1) (off width : Z) (value : bool) :
    option (rd_result * ptr vf_dart_v1) :=
  with_obj (-1, None) d (λ d,
    if negb value || dart_bounds off width then Some ((-1, None), d)
    else if off =? VF_DART_REG_PARAMS1 then Some ((0, Some (params1 d)), d)
    else if off =? VF_DART_REG_PARAMS2 then Some ((0, Some (params2 d)), d)
    else if off =? VF_DART_REG_TLB_OP then
      Some ((0, Some (Z.land (tlb_op d) (bnot 32 VF_DART_TLB_OP_BUSY))), d)
    else if off =? VF_DART_REG_SID_MASK_LO then Some ((0, Some (sid_mask_lo d)), d)
    else if off =? VF_DART_REG_SID_MASK_HI then Some ((0, Some (sid_mask_hi d)), d)
    else if off =? VF_DART_REG_ERROR_STATUS then Some ((0, Some (error_status d)), d)
    else if off =? VF_DART_REG_ERROR_ADDR_LO then Some ((0, Some (error_addr_lo d)), d)
    else if off =? VF_DART_REG_ERROR_ADDR_HI then Some ((0, Some (error_addr_hi d)), d)
    else if off =? VF_DART_REG_CONFIG then Some ((0, Some (config d)), d)
    else dart_read_banks d off).

Definition dart_write_banks (d : vf_dart_v1) (off value : Z) : option (Z * vf_dart_v1) :=
  if (VF_DART_REG_SID_REMAP_BASE <=? off) && (off <? VF_DART_REG_SID_REMAP_BASE + 16) then
    l ← arr_set (sid_remap d) ((off - VF_DART_REG_SID_REMAP_BASE) / 4) value;
    Some (0, d <| sid_remap := l |>)
  else match dart_sid off VF_DART_REG_TCR_BASE with
  | Some sid => l ← arr_set (tcr d) sid value; Some (0, d <| tcr := l |>)
  | None =>
    match dart_ttbr off with
    | Some (sid, idx) =>
      row ← arr_get (ttbr d) sid; row' ← arr_set row idx value;
      l ← arr_set (ttbr d) sid row'; Some (0, d <| ttbr := l |>)
    | None => Some (-1, d)
    end
  end.

(** The offsets that stay writable under [CONFIG_LOCK]. *)
Definition dart_unlocked_offset (off : Z) : bool :=
  (off =? VF_DART_REG_ERROR_STATUS) || (off =? VF_DART_REG_ERROR_ADDR_LO)
  || (off =? VF_DART_REG_ERROR_ADDR_HI) || (off =? VF_DART_REG_TLB_OP).

Definition vf_dart_write (d : ptr vf_dart_v1) (off width value : Z) :
    option (Z * ptr vf_dart_v1) :=
  with_obj (-1) d (λ d,
    if dart_bounds off width then Some (-1, d)
    else if nz (Z.land (config d) VF_DART_CONFIG_LOCK) && negb (dart_unlocked_offset off)
    then Some (-1, d)
    else if off =? VF_DART_REG_PARAMS1 then Some (0, d <| params1 := value |>)
    else if off =? VF_DART_REG_PARAMS2 then Some (0, d <| params2 := value |>)
    else if off =? VF_DART_REG_TLB_OP then
      if nz (Z.land value VF_DART_TLB_OP_INVALIDATE) then
        Some (0, d <| tlb_op := 0 |> <| tlb_generation := u32 (tlb_generation d + 1) |>)
      else Some (0, d <| tlb_op := Z.land value (bnot 32 VF_DART_TLB_OP_BUSY) |>)
    else if off =? VF_DART_REG_SID_MASK_LO then Some (0, d <| sid_mask_lo := value |>)
    else if off =? VF_DART_REG_SID_MASK_HI then Some (0, d <| sid_mask_hi := value |>)
    else if off =? VF_DART_REG_ERROR_STATUS then
      Some (0, d <| error_status := Z.land (error_status d) (bnot 32 value) |>)
    else if off =? VF_DART_REG_ERROR_ADDR_LO then Some (0, d <| error_addr_lo := value |>)
    else if off =? VF_DART_REG_ERROR_ADDR_HI then Some (0, d <| error_addr_hi := value |>)
    else if off =? VF_DART_REG_CONFIG then Some (0, d <| config := value |>)
    else dart_write_banks d off value).

(** ** Invariant *)

Record dart_ok (d : vf_dart_v1) : Prop := {
  ok_regs : Forall (fits 32) [params1 d; params2 d; tlb_op d; sid_mask_lo d; sid_mask_hi d;
    error_status d; error_addr_lo d; error_addr_hi d; config d; tlb_generation d];
  ok_remap_len : length (sid_remap d) = 4%nat;
  ok_tcr_len : length (tcr d) = 16%nat;
  ok_ttbr_len : length (ttbr d) = 16%nat;
  ok_rows_len : Forall (λ row, length row = 4%nat) (ttbr d);
  ok_remap : Forall (fits 32) (sid_remap d);
  ok_tcr : Forall (fits 32) (tcr d);
  ok_ttbr : Forall (Forall (fits 32)) (ttbr d);
}.

(** ** Offset decoding *)

Lemma dart_sid_Some off base sid :
  dart_sid off base = Some sid → off = base + 4 * sid ∧ 0 ≤ sid < 16.
Proof.
  unfold dart_sid, VF_DART_MAX_STREAMS. rewrite land_3_mod.
  destruct ((off <? base) || nz ((off - base) mod 4)) eqn:E; [done|].
  apply orb_false_iff in E as [E1 E2]. apply nz_false in E2.
  destruct (Z.leb_spec 16 ((off - base) / 4)); [done|]. intros [= <-]. dlia.
Qed.

Lemma dart_ttbr_Some off sid idx :
  dart_ttbr off = Some (sid, idx) →
  off = VF_DART_REG_TTBR_BASE + 16 * sid + 4 * idx ∧ 0 ≤ sid < 16 ∧ 0 ≤ idx < 4.
Proof.
  unfold dart_ttbr, VF_DART_MAX_STREAMS, VF_DART_TTBR_PER_SID, VF_DART_REG_TTBR_BASE.
  rewrite land_3_mod. destruct ((off <? 0x200) || nz ((off - 0x200) mod 4)) eqn:E; [done|].
  apply orb_false_iff in E as [E1 E2]. apply nz_false in E2.
  destruct (Z.leb_spec (16 * 4) ((off - 0x200) / 4)); [done|]. intros [= <- <-]. dlia.
Qed.

Lemma ttbr_row d sid :
  dart_ok d → 0 ≤ sid < 16 →
  ∃ row, arr_get (ttbr d) sid = Some row ∧ length row = 4%nat ∧ Forall (fits 32) row.
Proof.
  intros Hd Hs. destruct (arr_get_lt (ttbr d) sid) as [row Hrow].
  { rewrite (ok_ttbr_len d Hd). lia. }
  exists row. split; [done|]. split.
  - exact (arr_get_Forall _ _ _ _ (ok_rows_len d Hd) Hrow).
  - exact (arr_get_Forall _ _ _ _ (ok_ttbr d Hd) Hrow).
Qed.

Lemma read_banks_safe d off :
  dart_ok d → 0 ≤ off →
  ∃ r, dart_read_banks d off = Some (r, d) ∧
    ((∃ x, r = (0, Some x) ∧ fits 32 x) ∨ r = (-1, None)).
Proof.
  intros Hd Ho. unfold dart_read_banks. unfold VF_DART_REG_SID_REMAP_BASE.
  destruct ((0x80 <=? off) && (off <? 0x80 + 16)) eqn:E.
  { in_bounds ltac:(rewrite (ok_remap_len d Hd); dlia). eexists. split; [done|]. left.
    eexists. split; [done|]. by eapply arr_get_Forall; [apply (ok_remap d Hd)|]. }
  destruct (dart_sid off VF_DART_REG_TCR_BASE) as [sid|] eqn:Es.
  { apply dart_sid_Some in Es as [_ Hs].
    in_bounds ltac:(rewrite (ok_tcr_len d Hd); lia). eexists. split; [done|]. left.
    eexists. split; [done|]. by eapply arr_get_Forall; [apply (ok_tcr d Hd)|]. }
  destruct (dart_ttbr off) as [[sid idx]|] eqn:Et; [|by eauto].
  apply dart_ttbr_Some in Et as (_ & Hs & Hi).
  destruct (ttbr_row d sid Hd Hs) as (row & -> & Hlen & Hrow). cbn [mbind option_bind].
  in_bounds ltac:(rewrite Hlen; lia). eexists. split; [done|]. left.
  eexists. split; [done|]. by eapply arr_get_Forall.
Qed.

#[local] Hint Resolve Forall_insert : width.

Lemma ok_reg d x : dart_ok d → In x [params1 d; params2 d; tlb_op d; sid_mask_lo d; sid_mask_hi d;
    error_status d; error_addr_lo d; error_addr_hi d; config d; tlb_generation d] → fits 32 x.
Proof. intros Hd. apply (proj1 (List.Forall_forall _ _) (ok_regs d Hd)). Qed.

Ltac reg Hd := apply (ok_reg _ _ Hd); cbn; tauto.

(** Rebuilds the invariant after an update of one register or bank. *)
Ltac rebuild Hd :=
  destruct Hd as [Hregs ???????]; constructor; cbn; rewrite ?length_insert, ?length_replicate;
  solve [done | lia | foralls; auto 8 with width | eauto 8 with width].

Lemma write_banks_safe d off value :
  dart_ok d → 0 ≤ off → fits 32 value →
  ∃ rc d', dart_write_banks d off value = Some (rc, d') ∧ dart_ok d' ∧
    (rc = 0 ∨ (rc = -1 ∧ d' = d)).
Proof.
  intros Hd Ho Hv. unfold dart_write_banks, VF_DART_REG_SID_REMAP_BASE.
  destruct ((0x80 <=? off) && (off <? 0x80 + 16)) eqn:E.
  { in_bounds ltac:(rewrite (ok_remap_len d Hd); dlia).
    eexists _, _. split; [done|]. split; [rebuild Hd|by left]. }
  destruct (dart_sid off VF_DART_REG_TCR_BASE) as [sid|] eqn:Es.
  { apply dart_sid_Some in Es as [_ Hs]. in_bounds ltac:(rewrite (ok_tcr_len d Hd); lia).
    eexists _, _. split; [done|]. split; [rebuild Hd|by left]. }
  destruct (dart_ttbr off) as [[sid idx]|] eqn:Et; [|by eauto 8].
  apply dart_ttbr_Some in Et as (_ & Hs & Hi).
  destruct (ttbr_row d sid Hd Hs) as (row & -> & Hlen & Hrow). cbn [mbind option_bind].
  in_bounds ltac:(rewrite Hlen; lia). in_bounds ltac:(rewrite (ok_ttbr_len d Hd); lia).
  eexists _, _. split; [done|]. split; [|by left].
  assert (length (<[Z.to_nat idx:=value]> row) = 4%nat) by (by rewrite length_insert).
  rebuild Hd.
Qed.

Lemma dart_reset_ok d : dart_ok (dart_reset_state d).
Proof.
  constructor; cbn; rewrite ?length_replicate; try done.
  all: foralls; repeat apply Forall_replicate; try done; unfold fits; cbn; lia.
Qed.

#[export] Instance dart_ops : MmioOps vf_dart_v1 := {
  mmio_read := vf_dart_read;
  mmio_write := vf_dart_write;
  mmio_inv := dart_ok;
  mmio_bits := 32;
}.

Lemma dart_read_safe d off w :
  dart_ok d → fits 32 off →
  ∃ r, vf_dart_read (Some d) off w true = Some (r, Some d) ∧
    ((∃ x, r = (0, Some x) ∧ fits 32 x) ∨ r = (-1, None)).
Proof.
  intros Hd [Ho _]. unfold vf_dart_read, with_obj. cbn [negb orb].
  split_ifs; cbn [mbind option_bind]; try by eauto.
  all: try (eexists; split; [done|]; left; eexists; split; [done|]; try apply fits_land_l; try lia;
    reg Hd).
  destruct (read_banks_safe d off Hd Ho) as (r & -> & Hr). cbn. eauto.
Qed.

Lemma dart_write_safe d off w x :
  dart_ok d → fits 32 off → fits 32 x →
  ∃ rc d', vf_dart_write (Some d) off w x = Some (rc, Some d') ∧ dart_ok d' ∧
    (rc = 0 ∨ (rc = -1 ∧ d' = d)).
Proof.
  intros Hd [Ho _] Hx. unfold vf_dart_write, with_obj.
  split_ifs; cbn [mbind option_bind]; try by eauto 8.
  all: try (eexists _, _; split; [done|]; split; [rebuild Hd|by left]).
  destruct (write_banks_safe d off x Hd Ho Hx) as (rc & d' & -> & ? & ?). cbn. eauto 8.
Qed.

#[export] Instance dart_laws : MmioLaws vf_dart_v1.
Proof.
  split; try done.
  - intros s off w Hs Ho Hw. change (@mmio_read _ dart_ops) with vf_dart_read. destruct (dart_read_safe s off w Hs Ho) as (r & -> & Hr).
    exists r, s. split; [done|]. split; [done|]. destruct Hr as [|]; [by left|by right].
  - intros s off w x Hs Ho Hw Hx. by apply dart_write_safe.
Qed.

(** ** Reading back what was written *)

(** The value of a register as the guest reads it. *)
Definition reg (d : vf_dart_v1) (off : Z) : option Z :=
  match vf_dart_read (Some d) off 4 true with Some ((0, Some v), _) => Some v | _ => None end.

Definition bank (d : vf_dart_v1) (off : Z) : option Z :=
  match dart_read_banks d off with Some ((0, Some v), _) => Some v | _ => None end.

(** What a write of [value] leaves in a register that held [old]. *)
Definition written (off old value : Z) : Z :=
  if off =? VF_DART_REG_TLB_OP then
    if nz (Z.land value VF_DART_TLB_OP_INVALIDATE) then 0
    else Z.land value (bnot 32 VF_DART_TLB_OP_BUSY)
  else if off =? VF_DART_REG_ERROR_STATUS then Z.land old (bnot 32 value)
  else value.

Ltac same := cbn; unfold mbind, option_bind; repeat case_match; simplify_eq; done.

Lemma bank_after_write d off x d' :
  dart_ok d → Z.land off 3 = 0 → dart_write_banks d off x = Some (0, d') →
  ∀ off', Z.land off' 3 = 0 → bank d' off' = if decide (off' = off) then Some x else bank d off'.
Proof.
  intros Hd Hal. rewrite land_3_mod in Hal. unfold dart_write_banks.
  destruct (_ && _) eqn:E.
  { destruct (arr_set _ _ _) as [l|] eqn:Hl; cbn; [|done]. intros [= <-] off' Hal'.
    rewrite land_3_mod in Hal'. apply arr_set_Some in Hl as [Hb ->].
    unfold bank, dart_read_banks, VF_DART_REG_SID_REMAP_BASE in *.
    case_decide as Ho; [subst off'; rewrite E; cbn; by rewrite arr_get_insert_eq|].
    destruct ((0x80 <=? off') && (off' <? 0x80 + 16)) eqn:E'; [|same]. cbn.
    rewrite arr_get_insert_ne; [same|lia|dlia]. }
  destruct (dart_sid off VF_DART_REG_TCR_BASE) as [sid|] eqn:Es.
  { destruct (arr_set _ _ _) as [l|] eqn:Hl; cbn; [|done]. intros [= <-] off' _.
    apply arr_set_Some in Hl as [Hb ->]. pose proof (dart_sid_Some _ _ _ Es) as [Hoff Hs].
    unfold bank, dart_read_banks. case_decide as Ho.
    { subst off'. rewrite E, Es. cbn. by rewrite arr_get_insert_eq. }
    destruct ((_ <=? off') && _); [same|]. destruct (dart_sid off' _) as [sid'|] eqn:Es'; [|same].
    apply dart_sid_Some in Es' as [Hoff' _]. cbn. rewrite arr_get_insert_ne; [same|lia|lia]. }
  destruct (dart_ttbr off) as [[sid idx]|] eqn:Et; [|done].
  destruct (arr_get (ttbr d) sid) as [row|] eqn:Hrow; cbn; [|done].
  destruct (arr_set row idx x) as [row'|] eqn:Hr; cbn; [|done].
  destruct (arr_set (ttbr d) sid row') as [l|] eqn:Hl; cbn; [|done]. intros [= <-] off' _.
  apply arr_set_Some in Hl as [Hb ->]. apply arr_set_Some in Hr as [Hi ->].
  pose proof (dart_ttbr_Some _ _ _ Et) as (Hoff & Hs & Hx).
  unfold bank, dart_read_banks. case_decide as Ho.
  { subst off'. rewrite E, Es, Et. cbn. rewrite arr_get_insert_eq by done. cbn.
    by rewrite arr_get_insert_eq. }
  destruct ((_ <=? off') && _); [same|]. destruct (dart_sid off' _); [same|].
  destruct (dart_ttbr off') as [[sid' idx']|] eqn:Et'; [|done].
  apply dart_ttbr_Some in Et' as (Hoff' & Hs' & Hx'). cbn.
  destruct (decide (sid' = sid)) as [->|]; [|rewrite arr_get_insert_ne; [same|lia|lia]].
  rewrite arr_get_insert_eq, Hrow by done. cbn. rewrite arr_get_insert_ne; [same|lia|lia].
Qed.

(** ** The configuration lock *)

Definition locked (d : vf_dart_v1) : bool := nz (Z.land (config d) VF_DART_CONFIG_LOCK).

(** Everything that decides how the IOMMU translates. *)
Definition protected (d : vf_dart_v1) :=
  (params1 d, params2 d, sid_mask_lo d, sid_mask_hi d, config d, sid_remap d, tcr d, ttbr d).

Lemma locked_write d off w x rc d' :
  locked d = true → vf_dart_write (Some d) off w x = Some (rc, Some d') →
  protected d' = protected d.
Proof.
  unfold locked, vf_dart_write, with_obj. intros ->.
  destruct (dart_bounds off w); [by intros [= _ <-]|]. cbn [andb].
  destruct (dart_unlocked_offset off) eqn:Eu; [|by intros [= _ <-]]. cbn [negb].
  unfold dart_unlocked_offset in Eu. rewrite !orb_true_iff, !Z.eqb_eq in Eu.
  autounfold with dart_regs in *.
  destruct Eu as [[[->| ->]| ->]| ->]; tests; try destruct (nz _); by intros [= _ <-].
Qed.

Lemma do_read_state d off w r d' :
  dart_ok d → fits 32 off → do_access d (Rd off w) = Some (r, d') → d' = d.
Proof.
  intros Hd Ho. unfold do_access. change (@mmio_read _ dart_ops) with vf_dart_read.
  destruct (dart_read_safe d off w Hd Ho) as (r' & -> & _). cbn. by intros [= _ <-].
Qed.

Lemma do_write_state d off w x r d' :
  do_access d (Wr off w x) = Some (r, d') →
  ∃ rc, vf_dart_write (Some d) off w x = Some (rc, Some d') ∧ r = (rc, None).
Proof.
  unfold do_access. change (@mmio_write _ dart_ops) with vf_dart_write.
  destruct (vf_dart_write _ _ _ _) as [[rc [d1|]]|]; cbn; [|done|done].
  intros [= <- <-]. eauto.
Qed.

(** ** Counting invalidates *)

Definition invalidates (c : access) : bool :=
  match c with
  | Wr off w x => (off =? VF_DART_REG_TLB_OP) && (w =? 4) && nz (Z.land x VF_DART_TLB_OP_INVALIDATE)
  | Rd _ _ => false
  end.

Lemma write_banks_generation d off x rc d' :
  dart_write_banks d off x = Some (rc, d') → tlb_generation d' = tlb_generation d.
Proof.
  unfold dart_write_banks. intros H.
  repeat (case_match || (apply bind_Some in H as (? & ? & H))); by simplify_eq.
Qed.

Lemma write_generation d off w x rc d' :
  vf_dart_write (Some d) off w x = Some (rc, Some d') →
  tlb_generation d' =
    if invalidates (Wr off w x) then u32 (tlb_generation d + 1) else tlb_generation d.
Proof.
  unfold vf_dart_write, with_obj, invalidates, dart_bounds.
  destruct (Z.eqb_spec w 4) as [->|]; [|intros [= _ <-]; by rewrite andb_false_r].
  destruct (Z.eqb_spec off VF_DART_REG_TLB_OP) as [->|Hne].
  { unfold dart_unlocked_offset. autounfold with dart_regs in *. tests.
    change (Z.land 0x20 3) with 0. change (nz 0) with false. cbn [orb]. rewrite andb_false_r.
    destruct (nz (Z.land x _)); by intros [= _ <-]. }
  cbn [andb]. split_ifs; try by intros [= _ <-].
  destruct (dart_write_banks d off x) as [[rc' d1]|] eqn:Eb; cbn; [|done].
  intros [= _ <-]. by apply write_banks_generation in Eb.
Qed.

(** ** The register file *)

(** The single registers, as the read switch lists them. *)
Definition fixed_reg (d : vf_dart_v1) (off : Z) : option Z :=
  if off =? VF_DART_REG_PARAMS1 then Some (params1 d)
  else if off =? VF_DART_REG_PARAMS2 then Some (params2 d)
  else if off =? VF_DART_REG_TLB_OP then
    Some (Z.land (tlb_op d) (bnot 32 VF_DART_TLB_OP_BUSY))
  else if off =? VF_DART_REG_SID_MASK_LO then Some (sid_mask_lo d)
  else if off =? VF_DART_REG_SID_MASK_HI then Some (sid_mask_hi d)
  else if off =? VF_DART_REG_ERROR_STATUS then Some (error_status d)
  else if off =? VF_DART_REG_ERROR_ADDR_LO then Some (error_addr_lo d)
  else if off =? VF_DART_REG_ERROR_ADDR_HI then Some (error_addr_hi d)
  else if off =? VF_DART_REG_CONFIG then Some (config d)
  else None.

Lemma reg_eq d off :
  reg d off = if dart_bounds off 4 then None
    else match fixed_reg d off with Some x => Some x | None => bank d off end.
Proof.
  unfold reg, vf_dart_read, with_obj, fixed_reg, bank. cbn [negb orb].
  split_ifs; cbn; try done. by destruct (dart_read_banks d off) as [[[rc v] d1]|].
Qed.

Lemma dart_bounds_false off w :
  dart_bounds off w = false → w = 4 ∧ Z.land off 3 = 0 ∧ off < VF_DART_INSTANCE_SIZE.
Proof.
  unfold dart_bounds. rewrite !orb_false_iff, nz_false. lia.
Qed.

Lemma hide_busy_idem x :
  Z.land (Z.land x (bnot 32 VF_DART_TLB_OP_BUSY)) (bnot 32 VF_DART_TLB_OP_BUSY)
    = Z.land x (bnot 32 VF_DART_TLB_OP_BUSY).
Proof. by rewrite <- Z.land_assoc, Z.land_diag. Qed.

Lemma bank_state_irrelevant d d' off :
  sid_remap d' = sid_remap d → tcr d' = tcr d → ttbr d' = ttbr d → bank d' off = bank d off.
Proof.
  intros H1 H2 H3. unfold bank, dart_read_banks. rewrite H1, H2, H3. same.
Qed.

Lemma fixed_reg_banks d off x d' off' :
  dart_write_banks d off x = Some (0, d') → fixed_reg d' off' = fixed_reg d off'.
Proof.
  unfold dart_write_banks. intros H.
  repeat (case_match || (apply bind_Some in H as (? & ? & H))); by simplify_eq.
Qed.

Lemma write_banks_readable d off x d' :
  dart_ok d → 0 ≤ off → dart_write_banks d off x = Some (0, d') → ∃ old, bank d off = Some old.
Proof.
  intros Hd Ho Hw. unfold bank. destruct (read_banks_safe d off Hd Ho) as (r & Hr & Hres).
  rewrite Hr. destruct Hres as [(v & -> & _)| ->]; [by eauto|].
  unfold dart_read_banks in Hr. unfold dart_write_banks in Hw.
  repeat (case_match || (apply bind_Some in Hr as (? & ? & Hr))); by simplify_eq.
Qed.

Lemma fixed_write d off old x d' :
  dart_bounds off 4 = false → fixed_reg d off = Some old →
  vf_dart_write (Some d) off 4 x = Some (0, Some d') →
  (∀ off', fixed_reg d' off' =
     if decide (off' = off) then Some (written off old x) else fixed_reg d off') ∧
  sid_remap d' = sid_remap d ∧ tcr d' = tcr d ∧ ttbr d' = ttbr d.
Proof.
  unfold vf_dart_write, with_obj. intros ->.
  destruct (nz (Z.land (config d) VF_DART_CONFIG_LOCK) && negb (dart_unlocked_offset off)); [done|].
  unfold fixed_reg, written. autounfold with dart_regs in *.
  split_ifs; intros [= <-] [= <-]; (split; [|done]); intros off'; cbn.
  all: case_decide; [subst off'; tests|split_ifs; done || lia].
  all: try done; try (exfalso; lia). exact (f_equal Some (hide_busy_idem x)).
Qed.

Lemma bank_write d off x rc d' :
  dart_bounds off 4 = false → fixed_reg d off = None → rc = 0 →
  vf_dart_write (Some d) off 4 x = Some (rc, Some d') → dart_write_banks d off x = Some (rc, d').
Proof.
  unfold vf_dart_write, with_obj, fixed_reg. intros -> Hf ->.
  destruct (nz (Z.land (config d) VF_DART_CONFIG_LOCK) && negb (dart_unlocked_offset off)); [done|].
  repeat (case_match; [done|]). destruct (dart_write_banks d off x) as [[rc' d1]|]; [|done].
  cbn. by intros [= -> ->].
Qed.

(** ** Properties *)

(** C18. Once CONFIG has its lock bit set, no sequence of register accesses can
    change the translation configuration: parameters, stream masks, the remap
    table, the translation-control and table-base registers and CONFIG itself
    (so the lock cannot be taken back).  The sequence runs to its end. *)
Theorem lock_freezes_configuration d cs :
  dart_ok d → locked d = true → Forall (access_ok 32) cs →
  ∃ rs d', run d cs = Some (rs, d') ∧ dart_ok d' ∧ protected d' = protected d.
Proof.
  intros Hd Hl Hcs. destruct (@run_safe _ dart_ops _ d cs Hd Hcs) as (rs & d' & Hrun & Hd' & _).
  exists rs, d'. split; [done|]. split; [done|].
  apply (run_preserves (λ e, protected e = protected d) d cs rs d'); [|done|done|done|done].
  intros e c r e' He Hp Hc Hdo. rewrite <- Hp. destruct c as [off w|off w x].
  - destruct Hc as [Ho _]. by rewrite (do_read_state e off w r e').
  - apply do_write_state in Hdo as (rc & Hw & _). eapply locked_write; [|done].
    unfold locked in *. assert (config e = config d) as -> by (unfold protected in Hp; congruence).
    done.
Qed.

Definition fresh : vf_dart_v1 := dart_reset_state (Build_vf_dart_v1 0 0 0 0 0 0 0 0 0 [] [] [] 0).
Definition fresh_locked : vf_dart_v1 := fresh <| config := 0x8000 |>.

Lemma fresh_locked_ok : dart_ok fresh_locked.
Proof. pose proof (dart_reset_ok fresh) as H. unfold fresh_locked. rebuild H. Qed.

Lemma lock_freezes_configuration_witness :
  ∃ rs d', run fresh_locked [Wr 0x60 4 0; Wr 0x100 4 0x80; Wr 0x40 4 1] = Some (rs, d') ∧
    dart_ok d' ∧ protected d' = protected fresh_locked.
Proof.
  apply (lock_freezes_configuration fresh_locked).
  - exact fresh_locked_ok.
  - reflexivity.
  - repeat constructor; unfold fits; lia.
Defined.

(** The register file: after an accepted write the written register reads as
    the write's effect (write-one-to-clear for ERROR_STATUS, busy bit hidden and
    invalidate self-clearing for TLB_OP, the value itself elsewhere) and every
    other offset reads as before, for all offsets of the instance. *)
Theorem write_then_read d off x d' :
  dart_ok d → fits 32 off → fits 32 x →
  vf_dart_write (Some d) off 4 x = Some (0, Some d') →
  ∃ old, reg d off = Some old ∧
    ∀ off', reg d' off' = if decide (off' = off) then Some (written off old x) else reg d off'.
Proof.
  intros Hd [Ho _] Hx Hw. pose proof Hw as Hw'. unfold vf_dart_write, with_obj in Hw.
  destruct (dart_bounds off 4) eqn:Hb; [done|].
  pose proof (dart_bounds_false _ _ Hb) as (_ & Hal & _).
  destruct (fixed_reg d off) as [old|] eqn:Hf.
  - exists old. split; [by rewrite reg_eq, Hb, Hf|].
    destruct (fixed_write d off old x d' Hb Hf Hw') as (Hfix & Hr & Ht & Hq). intros off'.
    rewrite !reg_eq, Hfix, (bank_state_irrelevant d d' off' Hr Ht Hq).
    case_decide; [subst; by rewrite Hb|done].
  - assert (Hbanks : dart_write_banks d off x = Some (0, d')) by (by apply bank_write).
    destruct (write_banks_readable d off x d' Hd Ho Hbanks) as [old Hold].
    exists old. split; [by rewrite reg_eq, Hb, Hf|]. intros off'.
    rewrite !reg_eq, (fixed_reg_banks d off x d' off' Hbanks).
    destruct (dart_bounds off' 4) eqn:Hb'.
    { case_decide; [|done]. subst. by rewrite Hb in Hb'. }
    pose proof (dart_bounds_false _ _ Hb') as (_ & Hal' & _).
    rewrite (bank_after_write d off x d' Hd Hal Hbanks off' Hal').
    case_decide; [|done]. subst off'. rewrite Hf. f_equal. unfold written.
    unfold fixed_reg in Hf. by repeat case_match.
Qed.

Lemma write_then_read_witness :
  ∃ old, reg fresh 0x20c = Some old ∧
    ∀ off', reg (fresh <| ttbr := <[0%nat := [0; 0; 0; 7]]> (ttbr fresh) |>) off' =
      if decide (off' = 0x20c) then Some (written 0x20c old 7) else reg fresh off'.
Proof.
  apply (write_then_read fresh 0x20c 7).
  - exact (dart_reset_ok _).
  - unfold fits; lia.
  - unfold fits; lia.
  - reflexivity.
Defined.

(** The invalidate generation: along any access sequence it advances, modulo
    2^32, once for every aligned 32-bit write to TLB_OP with the invalidate bit
    set and by nothing else (locked or not, whatever is read or refused). *)
Theorem generation_counts_invalidates d cs :
  dart_ok d → Forall (access_ok 32) cs →
  ∃ rs d', run d cs = Some (rs, d') ∧
    vf_dart_tlb_generation (Some d') =
      u32 (tlb_generation d + Z.of_nat (length (filter (λ c, invalidates c = true) cs))).
Proof.
  intros Hd Hcs. revert d Hd. induction Hcs as [|c cs Hc _ IH]; intros d Hd.
  { exists [], d. split; [done|]. cbn. rewrite Z.add_0_r, wrap_id; [done|]. reg Hd. }
  destruct (@do_access_safe _ dart_ops _ d c Hd Hc) as (r & d1 & Hdo & Hd1 & _).
  destruct (IH d1 Hd1) as (rs & d' & Hrun & Hgen). exists (r :: rs), d'.
  cbn [run]. rewrite Hdo. cbn [mbind option_bind]. rewrite Hrun. split; [done|]. rewrite Hgen.
  assert (Hstep : tlb_generation d1 = u32 (tlb_generation d + b2z (invalidates c))).
  { assert (fits 32 (tlb_generation d)) as Hfit by reg Hd. destruct c as [off w|off w x].
    - rewrite (do_read_state d off w r d1 Hd (proj1 Hc) Hdo). cbn. by rewrite Z.add_0_r, wrap_id.
    - apply do_write_state in Hdo as (rc & Hw & _). rewrite (write_generation _ _ _ _ _ _ Hw).
      destruct (invalidates _); cbn; [done|]. by rewrite Z.add_0_r, wrap_id. }
  rewrite Hstep, filter_cons. unfold wrap. rewrite Zplus_mod_idemp_l. f_equal.
  case_decide as Hi; [rewrite Hi; cbn; lia|].
  destruct (invalidates c); [done|]. cbn. lia.
Qed.

Lemma generation_counts_invalidates_witness :
  ∃ rs d', run fresh_locked [Wr 0x20 4 0x100000; Wr 0x20 2 0x100000; Wr 0x20 4 0x100004] = Some (rs, d')
    ∧ vf_dart_tlb_generation (Some d') = 2.
Proof.
  destruct (generation_counts_invalidates fresh_locked
    [Wr 0x20 4 0x100000; Wr 0x20 2 0x100000; Wr 0x20 4 0x100004]) as (rs & d' & H1 & H2).
  - exact fresh_locked_ok.
  - repeat constructor; unfold fits; lia.
  - exists rs, d'. split; [exact H1|]. rewrite H2. reflexivity.
Defined.

End Dart.
