(* ===== verification/Sart.v ===== *)
(** The SART address filter, [devices/sart_v1.c] and [sart_v1.h].

    State: the hardware version, a generation counter and a file of 0x2000
    words whose first words are the region table.  Operations: initialisation,
    register reads and writes, the decoding of a region, and the translation of
    an I/O address. *)
From S2P Require Import Prelude.
From S2P Require Import Words.
From S2P Require Import Mmio.

Module Sart.

Definition VF_SART_REG_SIZE := 0x8000.
Definition VF_SART_NUM_REGIONS := 16.
Definition VF_SART_VERSION_1 := 1.
Definition VF_SART_VERSION_2 := 2.
Definition VF_SART_VERSION_3 := 3.
Definition VF_SART_BANK_SIZE := 0x000.
Definition VF_SART_BANK_ADDR := 0x040.
Definition VF_SART_BANK_SIZE_V3 := 0x080.
Definition VF_SART_REG_SIZE_OFF (i : Z) := u32 (VF_SART_BANK_SIZE + u32 (4 * i)).
Definition VF_SART_REG_ADDR_OFF (i : Z) := u32 (VF_SART_BANK_ADDR + u32 (4 * i)).
Definition VF_SART_REG_SIZE_V3_OFF (i : Z) := u32 (VF_SART_BANK_SIZE_V3 + u32 (4 * i)).
Definition VF_SART_REG_WORDS := VF_SART_REG_SIZE / 4.
Definition VF_SART_PAGE_SHIFT := 12.
Definition VF_SART_PAGE_MASK := bnot 64 0xfff.
Definition VF_SART_MAX_VA_BITS := 42.
Definition VF_SART_SIZE_MASK_V1 := 0x0007ffff.
Definition VF_SART_SIZE_MASK_V2 := 0x00ffffff.
Definition VF_SART_ADDR_MASK_V12 := 0x00ffffff.
Definition VF_SART_ADDR_MASK_V3 := 0x3fffffff.
Definition VF_SART_SIZE_MASK_V3 := 0x3fffffff.

Record vf_sart_v1 := {
  version : Z;
  generation : Z;
  regs : list Z;
}.

(** [true]: the access is refused. *)
Definition sart_bounds (off width : Z) : bool :=
  negb (width =? 4) || nz (Z.land off 3) || (VF_SART_REG_SIZE <=? off).

Definition sart_region_write (s : vf_sart_v1) (off : Z) : bool :=
  if off <? VF_SART_NUM_REGIONS * 4 then true
  else if (VF_SART_BANK_ADDR <=? off) && (off <? VF_SART_BANK_ADDR + VF_SART_NUM_REGIONS * 4)
  then true
  else if (version s =? VF_SART_VERSION_3) && (VF_SART_BANK_SIZE_V3 <=? off)
    && (off <? VF_SART_BANK_SIZE_V3 + VF_SART_NUM_REGIONS * 4) then true
  else false.

Definition sart_reg (s : vf_sart_v1) (off : Z) : option Z := arr_get (regs s) (off / 4).

Definition vf_sart_init (s : ptr vf_sart_v1) (v : Z) : option (Z * ptr vf_sart_v1) :=
  with_obj (-1) s (λ s,
    if negb (v =? VF_SART_VERSION_1) && negb (v =? VF_SART_VERSION_2)
       && negb (v =? VF_SART_VERSION_3) then Some (-1, s)
    else Some (0, {| version := v; generation := 0;
                     regs := replicate (Z.to_nat VF_SART_REG_WORDS) 0 |})).

Definition vf_sart_generation (s : ptr vf_sart_v1) : Z :=
  match s with Some s => generation s | None => 0 end.

Definition vf_sart_read (s : ptr vf_sart_v1) (off width : Z) (value : bool) :
    option (rd_result * ptr vf_sart_v1) :=
  with_obj (-1, None) s (λ s,
    if negb value || sart_bounds off width then Some ((-1, None), s)
    else x ← arr_get (regs s) (off / 4); Some ((0, Some x), s)).

Definition vf_sart_write (s : ptr vf_sart_v1) (off width value : Z) :
    option (Z * ptr vf_sart_v1) :=
  with_obj (-1) s (λ s,
    if sart_bounds off width then Some (-1, s)
    else
      let s := if sart_region_write s off then s <| generation := u32 (generation s + 1) |> else s in
      l ← arr_set (regs s) (off / 4) value; Some (0, s <| regs := l |>)).

(** Address, size (in pages) and flags of a region; [outs]: the three output
    pointers are not null.  The inner [None] is [return -1]. *)
Definition vf_sart_region_decode (s : ptr vf_sart_v1) (region : Z) (outs : bool) :
    option (option (Z * Z * Z)) :=
  match s with
  | None => Some None
  | Some s =>
    if (VF_SART_NUM_REGIONS <=? region) || negb outs then Some None
    else
      size_word ← sart_reg s (VF_SART_REG_SIZE_OFF region);
      addr_word ← sart_reg s (VF_SART_REG_ADDR_OFF region);
      if version s =? VF_SART_VERSION_1 then
        Some (Some (Z.land addr_word VF_SART_ADDR_MASK_V12,
                    Z.land size_word VF_SART_SIZE_MASK_V1,
                    Z.land size_word (bnot 32 VF_SART_SIZE_MASK_V1)))
      else if version s =? VF_SART_VERSION_2 then
        Some (Some (Z.land addr_word VF_SART_ADDR_MASK_V12,
                    Z.land size_word VF_SART_SIZE_MASK_V2,
                    Z.land size_word (bnot 32 VF_SART_SIZE_MASK_V2)))
      else if version s =? VF_SART_VERSION_3 then
        size3 ← sart_reg s (VF_SART_REG_SIZE_V3_OFF region);
        Some (Some (Z.land addr_word VF_SART_ADDR_MASK_V3,
                    Z.land size3 VF_SART_SIZE_MASK_V3, size_word))
      else Some None
  end.

(** The loop of [vf_sart_translate], [n] regions from [i] on: return code and
    the last value stored in [*region_out]. *)
Fixpoint translate_scan (n : nat) (s : vf_sart_v1) (page i : Z) : option (Z * Z) :=
  match n with
  | O => Some (0, VF_SART_NUM_REGIONS)
  | S n =>
    d ← vf_sart_region_decode (Some s) i true;
    match d with
    | None => Some (-1, VF_SART_NUM_REGIONS)
    | Some (addr_pages, size_pages, flags) =>
      if (flags =? 0) || (size_pages =? 0) then translate_scan n s page (i + 1)
      else if (addr_pages <=? page) && (page <? u64 (addr_pages + size_pages)) then Some (1, i)
      else translate_scan n s page (i + 1)
    end
  end.

(** Return code, and what was stored in [*pa_out] and [*region_out]. *)
Definition vf_sart_translate (s : ptr vf_sart_v1) (iova : Z) (pa_out region_out : bool) :
    option (Z * option Z * option Z) :=
  match s with
  | None => Some (-1, None, None)
  | Some s =>
    if negb pa_out then Some (-1, None, None)
    else if nz (Z.shiftr iova VF_SART_MAX_VA_BITS) then Some (-1, None, None)
    else
      let pa := Z.land iova VF_SART_PAGE_MASK in
      let page := Z.shiftr iova VF_SART_PAGE_SHIFT in
      '(rc, region) ← translate_scan (Z.to_nat VF_SART_NUM_REGIONS) s page 0;
      Some (rc, Some pa, if region_out then Some region else None)
  end.

Arguments translate_scan : simpl never.

Create HintDb sart_regs.
#[export] Hint Unfold VF_SART_REG_SIZE VF_SART_NUM_REGIONS VF_SART_VERSION_1 VF_SART_VERSION_2
  VF_SART_VERSION_3 VF_SART_BANK_SIZE VF_SART_BANK_ADDR VF_SART_BANK_SIZE_V3
  VF_SART_REG_SIZE_OFF VF_SART_REG_ADDR_OFF VF_SART_REG_SIZE_V3_OFF VF_SART_PAGE_SHIFT
  VF_SART_PAGE_MASK VF_SART_MAX_VA_BITS VF_SART_SIZE_MASK_V1 VF_SART_SIZE_MASK_V2
  VF_SART_ADDR_MASK_V12 VF_SART_ADDR_MASK_V3 VF_SART_SIZE_MASK_V3 : sart_regs.

(** ** Invariant and register contract *)

Record sart_ok (s : vf_sart_v1) : Prop := {
  ok_version : version s = 1 ∨ version s = 2 ∨ version s = 3;
  ok_generation : fits 32 (generation s);
  ok_len : Z.of_nat (length (regs s)) = 8192;
  ok_regs : Forall (fits 32) (regs s);
}.

Lemma sart_bounds_false off w :
  sart_bounds off w = false → w = 4 ∧ Z.land off 3 = 0 ∧ off < 0x8000.
Proof.
  unfold sart_bounds. autounfold with sart_regs. rewrite !orb_false_iff, nz_false. lia.
Qed.

Lemma sart_init_ok s v :
  ∃ rc s', vf_sart_init (Some s) v = Some (rc, Some s') ∧
    ((rc = -1 ∧ s' = s) ∨ (rc = 0 ∧ sart_ok s' ∧ version s' = v)).
Proof.
  unfold vf_sart_init, with_obj. autounfold with sart_regs.
  destruct (_ && _) eqn:E; cbn [mbind option_bind]; [by eauto 8|].
  eexists _, _. split; [done|]. right. split; [done|]. split; [|done].
  constructor; cbn; [lia|unfold fits; lia| |].
  { rewrite length_replicate. by vm_compute. }
  apply Forall_replicate. unfold fits. lia.
Qed.

#[export] Instance sart_ops : MmioOps vf_sart_v1 := {
  mmio_read := vf_sart_read;
  mmio_write := vf_sart_write;
  mmio_inv := sart_ok;
  mmio_bits := 32;
}.

#[export] Instance sart_laws : MmioLaws vf_sart_v1.
Proof.
  split; try done.
  - intros s off w Hs [Ho _] _. unfold mmio_read, sart_ops, vf_sart_read, with_obj. cbn [negb orb].
    destruct (sart_bounds off w) eqn:E; [by eauto 8|]. apply sart_bounds_false in E as (_ & _ & Hlt).
    in_bounds ltac:(rewrite (ok_len s Hs); dlia).
    eexists _, _. split; [done|]. split; [done|]. left. eexists. split; [done|].
    by eapply arr_get_Forall; [apply (ok_regs s Hs)|].
  - intros s off w x Hs [Ho _] _ Hx. unfold mmio_write, sart_ops, vf_sart_write, with_obj.
    destruct (sart_bounds off w) eqn:E; [by eauto 8|]. apply sart_bounds_false in E as (_ & _ & Hlt).
    cbv zeta. assert (Hlen : ∀ b : bool, Z.of_nat (length (regs (if b
      then s <| generation := u32 (generation s + 1) |> else s))) = 8192)
      by (intros []; apply (ok_len s Hs)).
    in_bounds ltac:(rewrite Hlen; dlia).
    eexists _, _. split; [done|]. split; [|by left]. destruct Hs.
    destruct (sart_region_write s off); constructor; cbn; rewrite ?length_insert;
      auto using Forall_insert with width.
Qed.

(** ** What a region covers *)

Definition word (s : vf_sart_v1) (i : Z) : Z := default 0 (arr_get (regs s) i).

(** First page, page count and flags of region [i]: versions 1 and 2 keep
    the count in the low 19 or 24 bits of the flags word, version 3 in a
    word of its own. *)
Definition region_spec (s : vf_sart_v1) (i : Z) : Z * Z * Z :=
  let w := word s i in let a := word s (16 + i) in
  if version s =? 1 then (a mod 2 ^ 24, w mod 2 ^ 19, w - w mod 2 ^ 19)
  else if version s =? 2 then (a mod 2 ^ 24, w mod 2 ^ 24, w - w mod 2 ^ 24)
  else (a mod 2 ^ 30, word s (32 + i) mod 2 ^ 30, w).

(** Region [i] is enabled and covers [page]. *)
Definition region_hit (s : vf_sart_v1) (i page : Z) : bool :=
  let '(first, count, flags) := region_spec s i in
  negb (flags =? 0) && (first <=? page) && (page <? first + count).

Lemma word_get s i : sart_ok s → 0 ≤ i < 8192 → arr_get (regs s) i = Some (word s i).
Proof.
  intros Hs Hi. unfold word. destruct (arr_get_lt (regs s) i) as [x ->]; [|done].
  rewrite (ok_len s Hs). lia.
Qed.

Lemma word_fits s i : sart_ok s → fits 32 (word s i).
Proof.
  intros Hs. unfold word. destruct (arr_get (regs s) i) as [x|] eqn:E; cbn; [|unfold fits; lia].
  by eapply arr_get_Forall; [apply (ok_regs s Hs)|].
Qed.

Lemma decode_spec s i :
  sart_ok s → 0 ≤ i < 16 →
  vf_sart_region_decode (Some s) i true = Some (Some (region_spec s i)).
Proof.
  intros Hs Hi. unfold vf_sart_region_decode, sart_reg, region_spec. autounfold with sart_regs.
  tests. rewrite !(wrap_id 32 (4 * i)) by (unfold fits; lia).
  rewrite !(wrap_id 32 (_ + _)) by (unfold fits; lia).
  replace ((0x0 + 4 * i) / 4) with i by dlia.
  replace ((0x40 + 4 * i) / 4) with (16 + i) by dlia.
  replace ((0x80 + 4 * i) / 4) with (32 + i) by dlia.
  rewrite !word_get by (done || lia). cbn [mbind option_bind].
  change 0x7ffff with (Z.ones 19). change 0xffffff with (Z.ones 24).
  change 0x3fffffff with (Z.ones 30).
  rewrite !Z.land_ones, !land_bnot_ones by (lia || by apply word_fits).
  destruct (ok_version s Hs) as [->|[->| ->]]; tests; done.
Qed.

Lemma region_spec_bounds s i a n f :
  sart_ok s → region_spec s i = (a, n, f) → 0 ≤ a < 2 ^ 30 ∧ 0 ≤ n < 2 ^ 30.
Proof.
  intros Hs. pose proof (word_fits s i Hs). unfold region_spec.
  assert (∀ x, 0 ≤ x mod 2 ^ 24 < 2 ^ 30 ∧ 0 ≤ x mod 2 ^ 30 < 2 ^ 30 ∧ 0 ≤ x mod 2 ^ 19 < 2 ^ 30).
  { intros x. pose proof (Z.mod_pos_bound x (2 ^ 24)). pose proof (Z.mod_pos_bound x (2 ^ 30)).
    pose proof (Z.mod_pos_bound x (2 ^ 19)). lia. }
  split_ifs; intros [= <- <- _]; split; apply H0.
Qed.

Lemma translate_scan_spec n s page i :
  sart_ok s → 0 ≤ i → i + Z.of_nat n = 16 → 0 ≤ page →
  (∀ j, 0 ≤ j < i → region_hit s j page = false) →
  ∃ rc r, translate_scan n s page i = Some (rc, r) ∧
    ((rc = 1 ∧ 0 ≤ r < 16 ∧ region_hit s r page = true ∧
      ∀ j, 0 ≤ j < r → region_hit s j page = false)
     ∨ (rc = 0 ∧ r = 16 ∧ ∀ j, 0 ≤ j < 16 → region_hit s j page = false)).
Proof.
  intros Hs. revert i. induction n as [|n IH]; intros i Hi Hn Hpage Hno;
    unfold translate_scan; fold translate_scan.
  { exists 0, 16. split; [done|]. right. split_and!; [done..|]. intros j Hj. apply Hno. lia. }
  rewrite decode_spec by (done || lia). cbn [mbind option_bind].
  destruct (region_spec s i) as [[a c] f] eqn:Er.
  pose proof (region_spec_bounds s i a c f Hs Er) as [Ha Hc].
  rewrite (wrap_id 64) by (unfold fits; lia).
  assert (Hhit : region_hit s i page = negb (f =? 0) && (a <=? page) && (page <? a + c))
    by (unfold region_hit; by rewrite Er).
  assert (Hnext : region_hit s i page = false → ∀ j, 0 ≤ j < i + 1 → region_hit s j page = false).
  { intros Hf j Hj. destruct (decide (j = i)) as [->|]; [done|]. apply Hno. lia. }
  destruct ((f =? 0) || (c =? 0)) eqn:E1.
  { apply IH; [lia|lia|lia|]. apply Hnext. rewrite Hhit. lia. }
  destruct ((a <=? page) && (page <? a + c)) eqn:E2.
  - exists 1, i. split; [done|]. left. split_and!; [done|lia|lia| |done]. rewrite Hhit. lia.
  - apply IH; [lia|lia|lia|]. apply Hnext. rewrite Hhit. lia.
Qed.

Lemma scan_ext n s s' page i :
  (∀ j outs, 0 ≤ j < 16 →
     vf_sart_region_decode (Some s') j outs = vf_sart_region_decode (Some s) j outs) →
  0 ≤ i → i + Z.of_nat n ≤ 16 → translate_scan n s' page i = translate_scan n s page i.
Proof.
  intros Hdec. revert i. induction n as [|n IH]; intros i Hi Hn; [done|].
  unfold translate_scan; fold translate_scan. rewrite Hdec by lia.
  by rewrite IH by lia.
Qed.

(** A write outside the region table changes no region. *)
Lemma quiet_decode s off w x rc s' i outs :
  sart_ok s → 0 ≤ off → vf_sart_write (Some s) off w x = Some (rc, Some s') →
  generation s' = generation s → 0 ≤ i < 16 →
  vf_sart_region_decode (Some s') i outs = vf_sart_region_decode (Some s) i outs.
Proof.
  intros Hs Ho Hw Hgen Hi. unfold vf_sart_write, with_obj in Hw.
  destruct (sart_bounds off w) eqn:Hb; [by injection Hw as _ <-|].
  apply sart_bounds_false in Hb as (_ & Hal & Hlt). rewrite land_3_mod in Hal.
  destruct (sart_region_write s off) eqn:Er; cbn in Hw.
  { rewrite (arr_set_lt _ _ _) in Hw by (rewrite (ok_len s Hs); dlia). cbn in Hw.
    injection Hw as _ <-. cbn in Hgen. pose proof (ok_generation s Hs) as Hg.
    exfalso. unfold wrap, fits in *. dlia. }
  rewrite (arr_set_lt _ _ _) in Hw by (rewrite (ok_len s Hs); dlia). cbn in Hw.
  injection Hw as _ <-. unfold vf_sart_region_decode, sart_reg; cbn.
  unfold sart_region_write in Er. autounfold with sart_regs in *.
  destruct (off <? 16 * 4) eqn:E1; [done|]. destruct ((0x40 <=? off) && _) eqn:E2; [done|].
  rewrite !(wrap_id 32 (4 * i)) by (unfold fits; lia).
  rewrite !(wrap_id 32 (_ + _)) by (unfold fits; lia).
  rewrite (arr_get_insert_ne _ _ ((0 + 4 * i) / 4)) by dlia.
  rewrite (arr_get_insert_ne _ _ ((0x40 + 4 * i) / 4)) by dlia.
  destruct (version s =? 3) eqn:Ev; [|done].
  destruct (true && _ && _) eqn:E3; [done|].
  by rewrite (arr_get_insert_ne _ _ ((0x80 + 4 * i) / 4)) by dlia.
Qed.

(** ** Properties *)

(** C28. Translation is total: an address of 42 bits or fewer maps to itself with
    the page offset cleared, and the call reports a hit with the lowest-numbered
    enabled region that covers its page, or a miss with region number 16 when
    none does; a wider address is refused and nothing is stored. *)
Theorem translate_first_region s iova region_out :
  sart_ok s → fits 64 iova →
  ∃ rc pa r, vf_sart_translate (Some s) iova true region_out = Some (rc, pa, r) ∧
    ((2 ^ 42 ≤ iova ∧ rc = -1 ∧ pa = None ∧ r = None) ∨
     (iova < 2 ^ 42 ∧ pa = Some (iova - iova mod 4096) ∧
      ∃ i, r = (if region_out then Some i else None) ∧
        ((rc = 1 ∧ 0 ≤ i < 16 ∧ region_hit s i (iova / 4096) = true ∧
          ∀ j, 0 ≤ j < i → region_hit s j (iova / 4096) = false)
         ∨ (rc = 0 ∧ i = 16 ∧ ∀ j, 0 ≤ j < 16 → region_hit s j (iova / 4096) = false)))).
Proof.
  intros Hs Hv. pose proof Hv as [Hv0 _]. unfold vf_sart_translate. autounfold with sart_regs.
  rewrite !Z.shiftr_div_pow2 by lia. change 0xfff with (Z.ones 12).
  rewrite land_bnot_ones by (done || lia). cbn [negb].
  destruct (nz (iova / 2 ^ 42)) eqn:E.
  { apply nz_true in E. eexists _, _, _. split; [done|]. left. split_and!; [|done..]. dlia. }
  apply nz_false in E.
  destruct (translate_scan_spec (Z.to_nat 16) s (iova / 2 ^ 12) 0) as (rc & r & -> & Hr);
    [done|lia|lia|dlia|lia|].
  cbn [mbind option_bind]. eexists _, _, _. split; [done|]. right.
  split; [dlia|]. split; [done|]. exists r. split; [done|]. exact Hr.
Qed.

Definition sample : vf_sart_v1 :=
  {| version := 3; generation := 0;
     regs := <[0%nat := 1]> (<[16%nat := 0x800]> (<[32%nat := 2]> (replicate (Z.to_nat 8192) 0))) |}.

Lemma sart_sample_ok : sart_ok sample.
Proof.
  constructor; cbn; [lia|unfold fits; lia| |].
  - rewrite !length_insert, length_replicate. lia.
  - repeat apply Forall_insert; [apply Forall_replicate|..]; unfold fits; lia.
Qed.

Lemma translate_first_region_witness :
  vf_sart_translate (Some sample) 0x801234 true true = Some (1, Some 0x801000, Some 0) ∧
  region_hit sample 0 (0x801234 / 4096) = true.
Proof.
  destruct (translate_first_region sample 0x801234 true sart_sample_ok) as (rc & pa & r & H & Hc).
  - unfold fits; lia.
  - vm_compute in H. injection H as <- <- <-.
    destruct Hc as [(? & ? & _)|(_ & _ & i & [= <-] & [(_ & _ & Hh & _)|(? & _)])];
      [lia| |lia]. split; [vm_compute; reflexivity|exact Hh].
Defined.

(** The generation counter covers the translation: a register write that does
    not advance it leaves the result of translating every address unchanged. *)
Theorem quiet_write_keeps_translation s off w x rc s' :
  sart_ok s → fits 32 off →
  vf_sart_write (Some s) off w x = Some (rc, Some s') → generation s' = generation s →
  ∀ iova pa_out region_out,
    vf_sart_translate (Some s') iova pa_out region_out = vf_sart_translate (Some s) iova pa_out region_out.
Proof.
  intros Hs [Ho _] Hw Hgen. assert (Hdec : ∀ i outs, 0 ≤ i < 16 →
    vf_sart_region_decode (Some s') i outs = vf_sart_region_decode (Some s) i outs).
  { intros i outs Hi. by eapply quiet_decode. }
  intros iova pa_out region_out. unfold vf_sart_translate. unfold VF_SART_NUM_REGIONS.
  by rewrite (scan_ext _ s s') by (done || lia).
Qed.

Lemma quiet_write_keeps_translation_witness :
  vf_sart_translate (Some (sample <| regs := <[100%nat := 9]> (regs sample) |>)) 0x801234 true true
    = vf_sart_translate (Some sample) 0x801234 true true.
Proof.
  apply (quiet_write_keeps_translation sample 400 4 9 0).
  - exact sart_sample_ok.
  - unfold fits; lia.
  - vm_compute; reflexivity.
  - reflexivity.
Defined.

End Sart.
