(* ===== verification/Timer.v ===== *)
(** The graph-local timer, [devices/timer_v1.c] and [timer_v1.h].

    State: frequency, counter, compare value and control bits.  Operations:
    initialisation, the saturating advance, the interrupt level, register reads
    and writes (widths in bits). *)
From S2P Require Import Prelude.
From S2P Require Import Words.
From S2P Require Import Mmio.

Module Timer.

Definition VF_TIMER_FREQUENCY_HZ := 24000000.
Definition VF_TIMER_MMIO_COUNTER := 0x000.
Definition VF_TIMER_MMIO_COMPARE := 0x008.
Definition VF_TIMER_MMIO_CTL := 0x010.
Definition VF_TIMER_MMIO_FREQUENCY := 0x018.
Definition VF_M1_TIMER_CTL_ENABLE := Z.shiftl 1 0.
Definition VF_M1_TIMER_CTL_MASKED := Z.shiftl 1 1.
Definition VF_M1_TIMER_CTL_WRITABLE_MASK :=
  Z.lor VF_M1_TIMER_CTL_ENABLE VF_M1_TIMER_CTL_MASKED.

Record vf_timer_v1 := {
  frequency : Z;
  counter : Z;
  compare : Z;
  ctl : Z;
}.

Definition vf_timer_init (t : ptr vf_timer_v1) : option (Z * ptr vf_timer_v1) :=
  with_obj (-1) t (λ _,
    Some (0, {| frequency := VF_TIMER_FREQUENCY_HZ; counter := 0; compare := 0; ctl := 0 |})).

Definition vf_timer_advance (t : ptr vf_timer_v1) (ticks : Z) : option (Z * ptr vf_timer_v1) :=
  with_obj (-1) t (λ t,
    if UINT64_MAX - ticks <? counter t then Some (0, t <| counter := UINT64_MAX |>)
    else Some (0, t <| counter := u64 (counter t + ticks) |>)).

Definition vf_timer_irq_pending (t : ptr vf_timer_v1) : Z :=
  match t with
  | None => 0
  | Some t =>
    if negb (nz (Z.land (ctl t) VF_M1_TIMER_CTL_ENABLE)) then 0
    else if nz (Z.land (ctl t) VF_M1_TIMER_CTL_MASKED) then 0
    else b2z (compare t <=? counter t)
  end.

Definition vf_timer_read (t : ptr vf_timer_v1) (offset width_bits : Z) (value : bool) :
    option (rd_result * ptr vf_timer_v1) :=
  with_obj (-1, None) t (λ t,
    let refuse := Some ((-1, None), t) in
    if negb value then refuse
    else if offset =? VF_TIMER_MMIO_COUNTER then
      if negb (width_bits =? 64) then refuse else Some ((0, Some (counter t)), t)
    else if offset =? VF_TIMER_MMIO_COMPARE then
      if negb (width_bits =? 64) then refuse else Some ((0, Some (compare t)), t)
    else if offset =? VF_TIMER_MMIO_CTL then
      if negb (width_bits =? 32) then refuse
      else Some ((0, Some (Z.land (ctl t) VF_M1_TIMER_CTL_WRITABLE_MASK)), t)
    else if offset =? VF_TIMER_MMIO_FREQUENCY then
      if negb (width_bits =? 64) then refuse else Some ((0, Some (frequency t)), t)
    else refuse).

Definition vf_timer_write (t : ptr vf_timer_v1) (offset width_bits value : Z) :
    option (Z * ptr vf_timer_v1) :=
  with_obj (-1) t (λ t,
    let refuse := Some (-1, t) in
    if offset =? VF_TIMER_MMIO_COMPARE then
      if negb (width_bits =? 64) then refuse else Some (0, t <| compare := value |>)
    else if offset =? VF_TIMER_MMIO_CTL then
      if negb (width_bits =? 32) then refuse
      else if nz (Z.land value (bnot 64 VF_M1_TIMER_CTL_WRITABLE_MASK)) then refuse
      else Some (0, t <| ctl := Z.land (u32 value) VF_M1_TIMER_CTL_WRITABLE_MASK |>)
    else refuse).

(** ** Invariant and register contract *)

Record timer_ok (t : vf_timer_v1) : Prop := {
  ok_frequency : frequency t = VF_TIMER_FREQUENCY_HZ;
  ok_counter : fits 64 (counter t);
  ok_compare : fits 64 (compare t);
  ok_ctl : fits 2 (ctl t);
}.

Lemma timer_init_ok t : ∃ t', vf_timer_init (Some t) = Some (0, Some t') ∧ timer_ok t'.
Proof. eexists. split; [done|]. constructor; cbn; unfold fits; lia || done. Qed.

#[export] Instance timer_ops : MmioOps vf_timer_v1 := {
  mmio_read := vf_timer_read;
  mmio_write := vf_timer_write;
  mmio_inv := timer_ok;
  mmio_bits := 64;
}.

Lemma fits_writable x : fits 2 (Z.land x VF_M1_TIMER_CTL_WRITABLE_MASK).
Proof. apply fits_land_r; [lia|]. by vm_compute. Qed.

#[export] Instance timer_laws : MmioLaws vf_timer_v1.
Proof.
  split; try done.
  - intros t off w Ht _ _. unfold mmio_read, timer_ops, vf_timer_read, with_obj. cbv zeta.
    cbn [negb]. assert (Href : ∀ r, r = (-1, None : option Z) → ∃ r' t', Some (r, Some t) =
      Some (r', Some t') ∧ mmio_inv t' ∧ ((∃ x, r' = (0, Some x) ∧ fits mmio_bits x) ∨
      (r' = (-1, None) ∧ t' = t))) by (intros ? ->; eauto 8).
    split_ifs; try by apply Href.
    all: eexists _, _; split; [done|]; split; [done|]; left; eexists; split; [done|].
    + apply Ht.
    + apply Ht.
    + eapply fits_weaken; [|apply fits_writable]; cbn; lia.
    + rewrite (ok_frequency t Ht). unfold fits. by vm_compute.
  - intros t off w x Ht _ _ Hx. unfold mmio_write, timer_ops, vf_timer_write, with_obj. cbv zeta.
    split_ifs; try by (eexists _, _; split; [done|]; split; [exact Ht|by right]).
    all: eexists _, _; split; [done|]; split; [|by left]; destruct Ht; constructor; cbn; try done.
    apply fits_writable.
Qed.

(** ** Advancing *)

Fixpoint advance_all (t : vf_timer_v1) (ticks : list Z) : option vf_timer_v1 :=
  match ticks with
  | [] => Some t
  | n :: ticks => '(_, p) ← vf_timer_advance (Some t) n; t' ← p; advance_all t' ticks
  end.

Definition total (ticks : list Z) : Z := foldr Z.add 0 ticks.

Lemma total_nonneg ticks : Forall (fits 64) ticks → 0 ≤ total ticks.
Proof. induction 1 as [|n ticks [Hn _] _ IH]; cbn; [lia|]. unfold total in IH. lia. Qed.

Lemma advance_spec t n :
  fits 64 (counter t) → fits 64 n →
  vf_timer_advance (Some t) n =
    Some (0, Some (t <| counter := Z.min UINT64_MAX (counter t + n) |>)).
Proof.
  intros Hc Hn. unfold vf_timer_advance, with_obj. unfold fits in *.
  destruct (_ <? _) eqn:E; cbn [mbind option_bind]; do 3 f_equal.
  - rewrite Z.min_l; [done|lia].
  - rewrite Z.min_r, wrap_id; [done|unfold fits; lia|lia].
Qed.

Lemma advance_all_spec t ticks :
  fits 64 (counter t) → Forall (fits 64) ticks →
  advance_all t ticks = Some (t <| counter := Z.min UINT64_MAX (counter t + total ticks) |>).
Proof.
  intros Hc Hts. revert t Hc. induction Hts as [|n ticks Hn Hts IH]; intros t Hc; cbn [advance_all].
  - cbn. rewrite Z.add_0_r, Z.min_r by (unfold fits in *; lia). by destruct t.
  - rewrite advance_spec by done. cbn [mbind option_bind]. rewrite IH.
    + cbn. pose proof (total_nonneg ticks Hts) as Ht. unfold total in *.
      rewrite <- Z.add_min_distr_r, Z.min_assoc, (Z.min_l UINT64_MAX), <- Z.add_assoc by lia.
      done.
    + cbn. unfold fits in *. lia.
Qed.

(** ** Properties *)

(** C37. The counter saturates and never wraps: after any sequence of advances it
    is the true total capped at 2^64-1, every other field is unchanged, and the
    interrupt is pending exactly when the timer is enabled, not masked and the
    compare value does not exceed that capped total. *)
Theorem advance_saturates t ticks :
  timer_ok t → Forall (fits 64) ticks →
  ∃ t', advance_all t ticks = Some t' ∧ timer_ok t' ∧
    counter t' = Z.min UINT64_MAX (counter t + total ticks) ∧
    compare t' = compare t ∧ ctl t' = ctl t ∧
    vf_timer_irq_pending (Some t') =
      b2z (Z.testbit (ctl t) 0 && negb (Z.testbit (ctl t) 1)
           && (compare t <=? Z.min UINT64_MAX (counter t + total ticks))).
Proof.
  intros Ht Hts. rewrite advance_all_spec by (done || apply Ht).
  eexists. split; [done|]. pose proof (total_nonneg ticks Hts) as Htot. split.
  { destruct Ht as [? [? ?] ??]. constructor; cbn; try done. unfold fits. lia. }
  split_and!; [done..|]. unfold vf_timer_irq_pending. cbn.
  unfold VF_M1_TIMER_CTL_ENABLE, VF_M1_TIMER_CTL_MASKED. rewrite !land_bit_nz by lia.
  by destruct (Z.testbit (ctl t) 0), (Z.testbit (ctl t) 1).
Qed.

Lemma advance_saturates_witness :
  ∃ t', advance_all {| frequency := 24000000; counter := 5; compare := 100; ctl := 1 |}
    [90; UINT64_MAX; 7] = Some t' ∧ counter t' = UINT64_MAX ∧ vf_timer_irq_pending (Some t') = 1.
Proof.
  destruct (advance_saturates {| frequency := 24000000; counter := 5; compare := 100; ctl := 1 |}
    [90; UINT64_MAX; 7]) as (t' & H1 & _ & H2 & _ & _ & H3).
  - constructor; cbn; unfold fits; lia || done.
  - repeat constructor; unfold fits; lia.
  - exists t'. split; [exact H1|]. rewrite H2, H3. split; reflexivity.
Defined.

End Timer.
