(* ===== verification/Storage.v ===== *)
(** The graph-local storage window, [devices/storage_v1.c] and [storage_v1.h].

    State: the attached flag, the read-only flag, the block count and the
    attach epoch.  Operations: initialisation, attach and detach by the host,
    the interrupt level, guest register reads, and guest writes (all refused). *)
From S2P Require Import Prelude.
From S2P Require Import Words.
From S2P Require Import Mmio.

Module Storage.

Definition VF_STORAGE_BLOCK_BYTES := 4096.
Definition VF_STORAGE_MMIO_STATUS := 0x000.
Definition VF_STORAGE_MMIO_BLOCK_COUNT := 0x008.
Definition VF_STORAGE_MMIO_GENERATION := 0x010.
Definition VF_STORAGE_STATUS_ATTACHED := Z.shiftl 1 0.
Definition VF_STORAGE_STATUS_READ_ONLY := Z.shiftl 1 1.

Record vf_storage_v1 := {
  attached : Z;
  read_only : Z;
  block_count : Z;
  generation : Z;
}.

Definition vf_storage_init (s : ptr vf_storage_v1) : option (Z * ptr vf_storage_v1) :=
  with_obj (-1) s (λ _,
    Some (0, {| attached := 0; read_only := 0; block_count := 0; generation := 0 |})).

Definition vf_storage_attach (s : ptr vf_storage_v1) (blocks ro : Z) :
    option (Z * ptr vf_storage_v1) :=
  with_obj (-1) s (λ s,
    if blocks =? 0 then Some (-1, s)
    else
      let bytes := u64 (blocks * VF_STORAGE_BLOCK_BYTES) in
      if negb (bytes / VF_STORAGE_BLOCK_BYTES =? blocks) then Some (-1, s)
      else
        let s := s <| attached := 1 |> <| read_only := b2z (nz ro) |> <| block_count := blocks |> in
        if generation s <? UINT32_MAX then Some (0, s <| generation := u32 (generation s + 1) |>)
        else Some (0, s)).

Definition vf_storage_detach (s : ptr vf_storage_v1) : option (Z * ptr vf_storage_v1) :=
  with_obj (-1) s (λ s,
    Some (0, s <| attached := 0 |> <| read_only := 0 |> <| block_count := 0 |>)).

Definition vf_storage_irq_pending (s : ptr vf_storage_v1) : Z :=
  match s with Some s => b2z (nz (attached s)) | None => 0 end.

Definition vf_storage_read (s : ptr vf_storage_v1) (offset width_bits : Z) (value : bool) :
    option (rd_result * ptr vf_storage_v1) :=
  with_obj (-1, None) s (λ s,
    if negb value then Some ((-1, None), s)
    else if negb (width_bits =? 64) then Some ((-1, None), s)
    else if offset =? VF_STORAGE_MMIO_STATUS then
      Some ((0, Some (Z.lor (if nz (attached s) then VF_STORAGE_STATUS_ATTACHED else 0)
                            (if nz (read_only s) then VF_STORAGE_STATUS_READ_ONLY else 0))), s)
    else if offset =? VF_STORAGE_MMIO_BLOCK_COUNT then Some ((0, Some (block_count s)), s)
    else if offset =? VF_STORAGE_MMIO_GENERATION then Some ((0, Some (generation s)), s)
    else Some ((-1, None), s)).

Definition vf_storage_write (s : ptr vf_storage_v1) (offset width_bits value : Z) :
    option (Z * ptr vf_storage_v1) := Some (-1, s).

(** ** Invariant and register contract *)

Record storage_ok (s : vf_storage_v1) : Prop := {
  ok_attached : attached s = 0 ∨ attached s = 1;
  ok_read_only : read_only s = 0 ∨ read_only s = 1;
  ok_blocks : 0 ≤ block_count s < 2 ^ 52;
  ok_present : attached s = 1 ↔ block_count s ≠ 0;
  ok_detached : attached s = 0 → read_only s = 0;
  ok_generation : fits 32 (generation s);
}.

#[export] Instance storage_ops : MmioOps vf_storage_v1 := {
  mmio_read := vf_storage_read;
  mmio_write := vf_storage_write;
  mmio_inv := storage_ok;
  mmio_bits := 64;
}.

#[export] Instance storage_laws : MmioLaws vf_storage_v1.
Proof.
  split; try done.
  - intros s off w Hs _ _. unfold mmio_read, storage_ops, vf_storage_read, with_obj. cbn [negb].
    split_ifs; try by (eexists _, _; split; [done|]; split; [exact Hs|by right]).
    all: eexists _, _; split; [done|]; split; [exact Hs|]; left; eexists; split; [done|].
    5: eapply (fits_weaken 52 64); [lia|apply (ok_blocks s Hs)].
    5: eapply (fits_weaken 32 64); [lia|apply (ok_generation s Hs)].
    all: vm_compute; split; congruence.
  - intros s off w x Hs _ _ _. eexists _, _. split; [done|]. by split; [|right].
Qed.

(** ** Host operations against an abstract specification *)

Inductive storage_op :=
  | Attach (blocks ro : Z)
  | Detach
  | GuestRead (off w : Z)
  | GuestWrite (off w x : Z).

Definition op_ok (o : storage_op) : Prop :=
  match o with
  | Attach blocks ro => fits 64 blocks
  | _ => True
  end.

Definition storage_step (s : vf_storage_v1) (o : storage_op) : option (Z * vf_storage_v1) :=
  match o with
  | Attach blocks ro => '(rc, p) ← vf_storage_attach (Some s) blocks ro; s' ← p; Some (rc, s')
  | Detach => '(rc, p) ← vf_storage_detach (Some s); s' ← p; Some (rc, s')
  | GuestRead off w => '(r, p) ← vf_storage_read (Some s) off w true; s' ← p; Some (r.1, s')
  | GuestWrite off w x => '(rc, p) ← vf_storage_write (Some s) off w x; s' ← p; Some (rc, s')
  end.

(** The medium (block count, read-only) if one is attached, and how many
    attachments have succeeded. *)
Record medium := { backing : option (Z * bool); epoch : Z }.

(** A capacity is acceptable when it is not zero and its byte size is a
    64-bit number. *)
Definition acceptable (blocks : Z) : bool := (1 <=? blocks) && (blocks * 4096 <? 2 ^ 64).

Definition medium_step (m : medium) (o : storage_op) : medium :=
  match o with
  | Attach blocks ro =>
    if acceptable blocks then {| backing := Some (blocks, nz ro); epoch := epoch m + 1 |} else m
  | Detach => m <| backing := None |>
  | _ => m
  end.

(** The device state that represents a medium: the epoch is capped. *)
Definition represents (s : vf_storage_v1) (m : medium) : Prop :=
  0 ≤ epoch m ∧ generation s = Z.min UINT32_MAX (epoch m) ∧
  match backing m with
  | None => attached s = 0 ∧ read_only s = 0 ∧ block_count s = 0
  | Some (blocks, ro) => attached s = 1 ∧ read_only s = b2z ro ∧ block_count s = blocks
  end.

Lemma attach_guard blocks :
  fits 64 blocks → negb (u64 (blocks * 4096) / 4096 =? blocks) = negb (blocks * 4096 <? 2 ^ 64).
Proof.
  intros [Hb _]. f_equal. unfold wrap. destruct (Z.ltb_spec (blocks * 4096) (2 ^ 64)).
  - rewrite Z.mod_small by lia. dlia.
  - pose proof (Z.mod_pos_bound (blocks * 4096) (2 ^ 64)). dlia.
Qed.

Lemma step_refines s m o :
  represents s m → op_ok o →
  ∃ rc s', storage_step s o = Some (rc, s') ∧ represents s' (medium_step m o).
Proof.
  intros (He & Hg & Hb) Ho. destruct o as [blocks ro| |off w|off w x]; cbn [storage_step medium_step].
  - unfold vf_storage_attach, with_obj, VF_STORAGE_BLOCK_BYTES. cbv zeta. cbn in Ho.
    rewrite attach_guard by done. unfold acceptable. cbn [generation].
    destruct (Z.eqb_spec blocks 0) as [->|Hz].
    { eexists _, _. split; [done|]. by split_and!. }
    replace (1 <=? blocks) with true by (unfold fits in Ho; lia). cbn [andb].
    destruct (blocks * 4096 <? 2 ^ 64); cbn [negb].
    2:{ eexists _, _. split; [done|]. by split_and!. }
    cbn. destruct (Z.ltb_spec (generation s) UINT32_MAX); (eexists _, _; split; [done|]).
    + split_and!; cbn; [lia| |done..]. rewrite wrap_id by (unfold fits; lia). lia.
    + split_and!; cbn; [lia|lia|done..].
  - eexists _, _. split; [done|]. by split_and!.
  - unfold vf_storage_read, with_obj. cbn [negb].
    split_ifs; (eexists _, _; split; [done|]); by split_and!.
  - eexists _, _. split; [done|]. by split_and!.
Qed.

Fixpoint storage_steps (s : vf_storage_v1) (os : list storage_op) : option vf_storage_v1 :=
  match os with
  | [] => Some s
  | o :: os => '(_, s') ← storage_step s o; storage_steps s' os
  end.

Lemma steps_refine s m os :
  represents s m → Forall op_ok os →
  ∃ s', storage_steps s os = Some s' ∧ represents s' (foldl medium_step m os).
Proof.
  intros Hr Hos. revert s m Hr. induction Hos as [|o os Ho _ IH]; intros s m Hr; cbn; [eauto|].
  destruct (step_refines s m o Hr Ho) as (rc & s' & -> & Hr'). cbn. auto.
Qed.

(** ** Properties *)

(** C27. Refinement: from initialisation, any interleaving of host attaches and
    detaches with guest reads and writes leaves the window representing the
    abstract medium: the last acceptable capacity attached and not detached since,
    and the number of successful attachments, capped at 2^32-1 (an attach is
    accepted exactly for a non-zero capacity below 2^52 blocks; guest writes have
    no effect).  The guest then reads that medium back from the registers, and the
    interrupt level tells whether one is attached. *)
Theorem storage_refines_medium s0 os :
  Forall op_ok os →
  let m := foldl medium_step {| backing := None; epoch := 0 |} os in
  ∃ s s', vf_storage_init (Some s0) = Some (0, Some s) ∧ storage_steps s os = Some s' ∧
    vf_storage_irq_pending (Some s') = b2z (bool_decide (is_Some (backing m))) ∧
    vf_storage_read (Some s') 0x8 64 true =
      Some ((0, Some (match backing m with Some (b, _) => b | None => 0 end)), Some s') ∧
    vf_storage_read (Some s') 0x0 64 true =
      Some ((0, Some (match backing m with Some (_, ro) => 1 + 2 * b2z ro | None => 0 end)), Some s') ∧
    vf_storage_read (Some s') 0x10 64 true =
      Some ((0, Some (Z.min UINT32_MAX (epoch m))), Some s').
Proof.
  intros Hos m. eexists. assert (Hinit : represents
    {| attached := 0; read_only := 0; block_count := 0; generation := 0 |}
    {| backing := None; epoch := 0 |}) by (split_and!; done).
  destruct (steps_refine _ _ os Hinit Hos) as (s' & Hs & He & Hg & Hb). fold m in He, Hg, Hb.
  exists s'. split; [done|]. split; [done|].
  unfold vf_storage_irq_pending, vf_storage_read, with_obj. cbn [negb].
  unfold VF_STORAGE_MMIO_STATUS, VF_STORAGE_MMIO_BLOCK_COUNT, VF_STORAGE_MMIO_GENERATION. tests.
  rewrite Hg. destruct (backing m) as [[b ro]|]; destruct Hb as (-> & -> & ->); [|done].
  by destruct ro.
Qed.

Lemma storage_refines_medium_witness :
  ∃ s s', vf_storage_init (Some (Build_vf_storage_v1 9 9 9 9)) = Some (0, Some s) ∧
    storage_steps s [Attach 16 0; Attach (2 ^ 52) 1; Detach; Attach 8 1; GuestWrite 8 64 77] = Some s' ∧
    vf_storage_read (Some s') 0x8 64 true = Some ((0, Some 8), Some s').
Proof.
  destruct (storage_refines_medium (Build_vf_storage_v1 9 9 9 9)
    [Attach 16 0; Attach (2 ^ 52) 1; Detach; Attach 8 1; GuestWrite 8 64 77])
    as (s & s' & H1 & H2 & _ & H3 & _).
  - repeat constructor; unfold fits; lia.
  - exists s, s'. split; [exact H1|]. split; [exact H2|]. exact H3.
Defined.

End Storage.
