(* ===== verification/Recovery.v ===== *)
(** The recovery envelope, [devices/recovery_v1.c] and [recovery_v1.h].

    A frame is a 20-byte header (magic, sequence, flags, payload length, CRC-32
    of the payload; little endian) followed by the payload.  State: the next
    sequence number, the last accepted frame's fields and payload, and the ready
    flag.  Operations: encoding a frame, ingesting one, clearing the ready flag,
    the interrupt level, guest register reads, and guest writes (all refused). *)
From S2P Require Import Prelude.
From S2P Require Import Words.
From S2P Require Import Bytes.
From S2P Require Import Mmio.

Module Recovery.

Definition VF_RECOVERY_MAX_PAYLOAD := 1024.
Definition VF_RECOVERY_HEADER_BYTES := 20.
Definition VF_RECOVERY_MAGIC := 0x31524656.
Definition VF_RECOVERY_MMIO_STATUS := 0x000.
Definition VF_RECOVERY_MMIO_LAST_SEQUENCE := 0x004.
Definition VF_RECOVERY_MMIO_PAYLOAD_LEN := 0x008.
Definition VF_RECOVERY_STATUS_READY := Z.shiftl 1 0.
Definition VF_RECOVERY_STATUS_SIGNATURE_VERIFIED := Z.shiftl 1 1.
Definition VF_RECOVERY_OK := 0.
Definition VF_RECOVERY_ERR_SHORT_FRAME := -2.
Definition VF_RECOVERY_ERR_BAD_MAGIC := -3.
Definition VF_RECOVERY_ERR_BAD_LENGTH := -4.
Definition VF_RECOVERY_ERR_BAD_CHECKSUM := -5.
Definition VF_RECOVERY_ERR_SEQUENCE := -6.
Definition VF_RECOVERY_ERR_PAYLOAD_LARGE := -7.
Definition VF_RECOVERY_ERR_OUTPUT_SMALL := -8.

Record vf_recovery_v1 := {
  expected_sequence : Z;
  last_sequence : Z;
  flags : Z;
  payload : bytes;
  payload_len : Z;
  ready : Z;
  signature_verified : Z;
}.

Definition recovery_read_u32_le (buf : bytes) (off : Z) : option Z := le32_at buf off.

Definition recovery_put_u32_le (buf : bytes) (off value : Z) : option bytes :=
  buf_write buf off (le32_split value).

(** One round of the inner loop. *)
Definition crc_bit (crc : Z) : Z :=
  let mask := u32 (0 - Z.land crc 1) in
  Z.lxor (Z.shiftr crc 1) (Z.land 0xedb88320 mask).

(** One round of the outer loop. *)
Definition crc_byte (crc b : Z) : Z := Nat.iter 8 crc_bit (Z.lxor crc b).

Definition recovery_crc32 (bs : bytes) : Z := bnot 32 (fold_left crc_byte bs 0xffffffff).

Definition vf_recovery_init (r : ptr vf_recovery_v1) : option (Z * ptr vf_recovery_v1) :=
  with_obj (-1) r (λ _, Some (0, {| expected_sequence := 0; last_sequence := 0; flags := 0;
    payload := replicate (Z.to_nat VF_RECOVERY_MAX_PAYLOAD) 0; payload_len := 0; ready := 0;
    signature_verified := 0 |})).

(** Return code, the output buffer, and what was stored in [*out_len]. *)
Definition vf_recovery_encode (sequence fl : Z) (pl : ptr bytes) (len : Z) (output : ptr bytes)
    (output_cap : Z) (out_len : bool) : option (Z * ptr bytes * option Z) :=
  match output with
  | None => Some (VF_RECOVERY_ERR_OUTPUT_SMALL, None, None)
  | Some out =>
    if negb out_len then Some (VF_RECOVERY_ERR_OUTPUT_SMALL, Some out, None)
    else if VF_RECOVERY_MAX_PAYLOAD <? len then Some (VF_RECOVERY_ERR_PAYLOAD_LARGE, Some out, None)
    else if (0 <? len) && bool_decide (pl = None) then
      Some (VF_RECOVERY_ERR_SHORT_FRAME, Some out, None)
    else
      let total := VF_RECOVERY_HEADER_BYTES + len in
      if output_cap <? total then Some (VF_RECOVERY_ERR_OUTPUT_SMALL, Some out, None)
      else
        out ← recovery_put_u32_le out 0 VF_RECOVERY_MAGIC;
        out ← recovery_put_u32_le out 4 sequence;
        out ← recovery_put_u32_le out 8 fl;
        out ← recovery_put_u32_le out 12 (u32 len);
        src ← (if nz len then p ← pl; buf_read p 0 len else Some []);
        out ← recovery_put_u32_le out 16 (recovery_crc32 src);
        out ← (if nz len then buf_write out VF_RECOVERY_HEADER_BYTES src else Some out);
        Some (VF_RECOVERY_OK, Some out, Some total)
  end.

Definition vf_recovery_ingest (r : ptr vf_recovery_v1) (frame : ptr bytes) (frame_len : Z) :
    option (Z * ptr vf_recovery_v1) :=
  with_obj VF_RECOVERY_ERR_SHORT_FRAME r (λ r,
    match frame with
    | None => Some (VF_RECOVERY_ERR_SHORT_FRAME, r)
    | Some frame =>
      if frame_len <? VF_RECOVERY_HEADER_BYTES then Some (VF_RECOVERY_ERR_SHORT_FRAME, r)
      else
        magic ← recovery_read_u32_le frame 0;
        if negb (magic =? VF_RECOVERY_MAGIC) then Some (VF_RECOVERY_ERR_BAD_MAGIC, r)
        else
          sequence ← recovery_read_u32_le frame 4;
          fl ← recovery_read_u32_le frame 8;
          len ← recovery_read_u32_le frame 12;
          if VF_RECOVERY_MAX_PAYLOAD <? len then Some (VF_RECOVERY_ERR_PAYLOAD_LARGE, r)
          else if negb (frame_len =? VF_RECOVERY_HEADER_BYTES + len) then
            Some (VF_RECOVERY_ERR_BAD_LENGTH, r)
          else
            crc ← recovery_read_u32_le frame 16;
            pl ← buf_read frame VF_RECOVERY_HEADER_BYTES len;
            if negb (crc =? recovery_crc32 pl) then Some (VF_RECOVERY_ERR_BAD_CHECKSUM, r)
            else if negb (sequence =? expected_sequence r) then Some (VF_RECOVERY_ERR_SEQUENCE, r)
            else
              dst ← (if nz len then buf_write (payload r) 0 pl else Some (payload r));
              Some (VF_RECOVERY_OK,
                r <| payload := dst |> <| payload_len := len |> <| flags := fl |>
                  <| last_sequence := sequence |>
                  <| expected_sequence := u32 (expected_sequence r + 1) |>
                  <| ready := 1 |> <| signature_verified := 0 |>)
    end).

Definition vf_recovery_clear_ready (r : ptr vf_recovery_v1) : option (Z * ptr vf_recovery_v1) :=
  with_obj (-1) r (λ r, Some (0, r <| ready := 0 |>)).

Definition vf_recovery_irq_pending (r : ptr vf_recovery_v1) : Z :=
  match r with Some r => b2z (nz (ready r)) | None => 0 end.

(** The payload buffer and the stored length. *)
Definition vf_recovery_payload (r : ptr vf_recovery_v1) : ptr bytes * Z :=
  match r with Some r => (Some (payload r), payload_len r) | None => (None, 0) end.

Definition vf_recovery_read (r : ptr vf_recovery_v1) (offset width_bits : Z) (value : bool) :
    option (rd_result * ptr vf_recovery_v1) :=
  with_obj (-1, None) r (λ r,
    if negb value then Some ((-1, None), r)
    else if negb (width_bits =? 32) then Some ((-1, None), r)
    else if offset =? VF_RECOVERY_MMIO_STATUS then
      Some ((0, Some (Z.lor (if nz (ready r) then VF_RECOVERY_STATUS_READY else 0)
        (if nz (signature_verified r) then VF_RECOVERY_STATUS_SIGNATURE_VERIFIED else 0))), r)
    else if offset =? VF_RECOVERY_MMIO_LAST_SEQUENCE then Some ((0, Some (last_sequence r)), r)
    else if offset =? VF_RECOVERY_MMIO_PAYLOAD_LEN then Some ((0, Some (payload_len r)), r)
    else Some ((-1, None), r)).

Definition vf_recovery_write (r : ptr vf_recovery_v1) (offset width_bits value : Z) :
    option (Z * ptr vf_recovery_v1) := Some (-1, r).

(** ** The checksum separates frames that differ in one byte *)

Lemma crc_bit_eq c :
  fits 32 c → crc_bit c = Z.lxor (Z.shiftr c 1) (if Z.testbit c 0 then 0xedb88320 else 0).
Proof.
  intros Hc. unfold crc_bit. f_equal.
  change 1 with (Z.ones 1). rewrite Z.land_ones, <- Z.bit0_mod by lia.
  by destruct (Z.testbit c 0).
Qed.

Lemma crc_bit_fits c : fits 32 c → fits 32 (crc_bit c).
Proof.
  intros Hc. rewrite crc_bit_eq by done. apply fits_lxor; [lia|width|].
  destruct (Z.testbit c 0); unfold fits; lia.
Qed.

Lemma shiftr1_high c : fits 32 c → Z.testbit (Z.shiftr c 1) 31 = false.
Proof. intros Hc. rewrite Z.shiftr_spec by lia. by apply (fits_testbit_high 32). Qed.

(** The polynomial's top bit makes every round reversible. *)
Lemma crc_bit_inj x y : fits 32 x → fits 32 y → crc_bit x = crc_bit y → x = y.
Proof.
  intros Hx Hy. rewrite !crc_bit_eq by done. intros H.
  assert (H0 : Z.testbit x 0 = Z.testbit y 0).
  { apply (f_equal (λ z, Z.testbit z 31)) in H. rewrite !Z.lxor_spec, !shiftr1_high in H by done.
    by destruct (Z.testbit x 0), (Z.testbit y 0). }
  rewrite H0 in H. apply (bits_eq 32); [lia|done|done|]. intros i Hi.
  destruct (decide (i = 0)) as [->|Hne]; [done|].
  apply (f_equal (λ z, Z.testbit z (i - 1))) in H. rewrite !Z.lxor_spec, !Z.shiftr_spec in H by lia.
  replace (i - 1 + 1) with i in H by lia.
  by destruct (Z.testbit x i), (Z.testbit y i), (Z.testbit _ (i - 1)).
Qed.

Lemma iter_crc_fits n c : fits 32 c → fits 32 (Nat.iter n crc_bit c).
Proof. intros Hc. induction n; cbn; [done|]. by apply crc_bit_fits. Qed.

Lemma iter_crc_inj n x y :
  fits 32 x → fits 32 y → Nat.iter n crc_bit x = Nat.iter n crc_bit y → x = y.
Proof.
  intros Hx Hy. induction n as [|n IH]; [done|]. intros H. apply IH.
  apply crc_bit_inj; [by apply iter_crc_fits..|exact H].
Qed.

Lemma byte_fits_32 b : is_byte b → fits 32 b.
Proof. apply fits_weaken. lia. Qed.
#[local] Hint Resolve byte_fits_32 : width.

Lemma crc_byte_fits c b : fits 32 c → is_byte b → fits 32 (crc_byte c b).
Proof. intros. apply iter_crc_fits. width. Qed.

Lemma lxor_cancel_r a b c : Z.lxor a c = Z.lxor b c → a = b.
Proof.
  intros H. apply (f_equal (λ z, Z.lxor z c)) in H.
  by rewrite !Z.lxor_assoc, Z.lxor_nilpotent, !Z.lxor_0_r in H.
Qed.

Lemma crc_byte_inj_crc b x y :
  fits 32 x → fits 32 y → is_byte b → crc_byte x b = crc_byte y b → x = y.
Proof. intros ??? H%iter_crc_inj; [by apply lxor_cancel_r in H|width..]. Qed.

Lemma crc_byte_inj_byte c x y :
  fits 32 c → is_byte x → is_byte y → crc_byte c x = crc_byte c y → x = y.
Proof.
  intros ??? H%iter_crc_inj; [|width..]. rewrite !(Z.lxor_comm c) in H. by apply lxor_cancel_r in H.
Qed.

Lemma crc_fold_fits l c :
  fits 32 c → Forall is_byte l → fits 32 (fold_left crc_byte l c).
Proof.
  intros Hc Hl. revert c Hc. induction Hl as [|b l Hb _ IH]; intros c Hc; [done|]. rewrite fold_left_cons.
  apply IH. by apply crc_byte_fits.
Qed.

Lemma crc_fold_inj l x y :
  fits 32 x → fits 32 y → Forall is_byte l →
  fold_left crc_byte l x = fold_left crc_byte l y → x = y.
Proof.
  intros Hx Hy Hl. revert x y Hx Hy. induction Hl as [|b l Hb Hl IH]; intros x y Hx Hy; [done|].
  rewrite !fold_left_cons.
  intros H%IH; [|by apply crc_byte_fits..]. by apply crc_byte_inj_crc in H.
Qed.

Lemma bnot_inj w x y : 0 ≤ w → fits w x → fits w y → bnot w x = bnot w y → x = y.
Proof.
  intros Hw Hx Hy H. apply (bits_eq w); [done..|]. intros i Hi.
  apply (f_equal (λ z, Z.testbit z i)) in H.
  rewrite !bnot_testbit, bool_decide_true in H by lia. by destruct (Z.testbit x i), (Z.testbit y i).
Qed.

Lemma crc32_fits l : fits 32 (recovery_crc32 l).
Proof. unfold recovery_crc32. width. Qed.

Lemma crc_fold_one_byte l1 l2 a b c :
  fits 32 c → Forall is_byte l1 → Forall is_byte l2 → is_byte a → is_byte b →
  fold_left crc_byte (l1 ++ b :: l2) c = fold_left crc_byte (l1 ++ a :: l2) c → b = a.
Proof.
  intros Hc Hl1 Hl2 Ha Hb. rewrite !fold_left_app, !fold_left_cons. intros H.
  pose proof (crc_fold_fits l1 c Hc Hl1).
  apply crc_fold_inj in H; [|by apply crc_byte_fits..|done]. by eapply crc_byte_inj_byte.
Qed.

Lemma crc32_one_byte l k a b :
  Forall is_byte l → l !! k = Some a → is_byte b → b ≠ a →
  recovery_crc32 (<[k := b]> l) ≠ recovery_crc32 l.
Proof.
  intros Hl Hk Hb Hne H. destruct (list_elem_of_split_length l k a Hk) as (l1 & l2 & -> & ->).
  apply Forall_app in Hl as [Hl1 Hl2]. apply Forall_cons_1 in Hl2 as [Ha Hl2].
  rewrite <- (Nat.add_0_r (length l1)), insert_app_r in H.
  change (<[0%nat := b]> (a :: l2)) with (b :: l2) in H.
  assert (Hi : fits 32 0xffffffff) by (unfold fits; lia).
  apply Hne. apply (crc_fold_one_byte l1 l2 a b 0xffffffff); [done..|].
  apply (bnot_inj 32); [lia| | |exact H].
  all: apply crc_fold_fits; [done|]; apply Forall_app; split; [done|]; by constructor.
Qed.

(** ** Invariant and register contract *)

Record recovery_ok (r : vf_recovery_v1) : Prop := {
  ok_expected : fits 32 (expected_sequence r);
  ok_last : fits 32 (last_sequence r);
  ok_flags : fits 32 (flags r);
  ok_payload_len : 0 ≤ payload_len r ≤ VF_RECOVERY_MAX_PAYLOAD;
  ok_payload_buf : Z.of_nat (length (payload r)) = VF_RECOVERY_MAX_PAYLOAD;
  ok_payload : Forall is_byte (payload r);
  ok_signature : signature_verified r = 0;
}.

#[export] Instance recovery_ops : MmioOps vf_recovery_v1 := {
  mmio_read := vf_recovery_read;
  mmio_write := vf_recovery_write;
  mmio_inv := recovery_ok;
  mmio_bits := 64;
}.

#[export] Instance recovery_laws : MmioLaws vf_recovery_v1.
Proof.
  split; try done.
  - intros r off w Hr _ _. unfold mmio_read, recovery_ops, vf_recovery_read, with_obj. cbn [negb].
    split_ifs; try by (eexists _, _; split; [done|]; split; [exact Hr|by right]).
    all: eexists _, _; split; [done|]; split; [exact Hr|]; left; eexists; split; [done|].
    5: eapply (fits_weaken 32 64); [lia|apply (ok_last r Hr)].
    5: pose proof (ok_payload_len r Hr) as Hl; unfold VF_RECOVERY_MAX_PAYLOAD in Hl; unfold fits;
      cbn [mmio_bits recovery_ops]; lia.
    all: vm_compute; split; congruence.
  - intros s off w x Hs _ _ _. eexists _, _. split; [done|]. by split; [|right].
Qed.

(** ** Ingest, field by field *)

Record header := { h_magic : Z; h_sequence : Z; h_flags : Z; h_len : Z; h_crc : Z }.

Definition header_of (frame : bytes) : option header :=
  m ← le32_at frame 0; s ← le32_at frame 4; f ← le32_at frame 8;
  n ← le32_at frame 12; c ← le32_at frame 16;
  Some {| h_magic := m; h_sequence := s; h_flags := f; h_len := n; h_crc := c |}.

Definition accepted (r : vf_recovery_v1) (h : header) (pl : bytes) : vf_recovery_v1 := {|
  expected_sequence := u32 (expected_sequence r + 1);
  last_sequence := h_sequence h;
  flags := h_flags h;
  payload := pl ++ drop (length pl) (payload r);
  payload_len := h_len h;
  ready := 1;
  signature_verified := 0;
|}.

(** The verdict on a frame: the checks in their order. *)
Definition verdict (r : vf_recovery_v1) (frame : bytes) (h : header) : Z :=
  if negb (h_magic h =? VF_RECOVERY_MAGIC) then VF_RECOVERY_ERR_BAD_MAGIC
  else if VF_RECOVERY_MAX_PAYLOAD <? h_len h then VF_RECOVERY_ERR_PAYLOAD_LARGE
  else if negb (Z.of_nat (length frame) =? 20 + h_len h) then VF_RECOVERY_ERR_BAD_LENGTH
  else if negb (h_crc h =? recovery_crc32 (drop 20 frame)) then VF_RECOVERY_ERR_BAD_CHECKSUM
  else if negb (h_sequence h =? expected_sequence r) then VF_RECOVERY_ERR_SEQUENCE
  else VF_RECOVERY_OK.

Lemma header_of_Some frame :
  20 ≤ Z.of_nat (length frame) → Forall is_byte frame →
  ∃ h, header_of frame = Some h ∧ fits 32 (h_magic h) ∧ fits 32 (h_sequence h) ∧
    fits 32 (h_flags h) ∧ fits 32 (h_len h) ∧ fits 32 (h_crc h).
Proof.
  intros Hlen Hb. unfold header_of.
  destruct (le32_at_Some frame 0) as (m & -> & ?); [lia..|done|].
  destruct (le32_at_Some frame 4) as (s & -> & ?); [lia..|done|].
  destruct (le32_at_Some frame 8) as (f & -> & ?); [lia..|done|].
  destruct (le32_at_Some frame 12) as (n & -> & ?); [lia..|done|].
  destruct (le32_at_Some frame 16) as (c & -> & ?); [lia..|done|].
  cbn. eexists. split; [done|]. done.
Qed.

Lemma header_of_inv frame h :
  header_of frame = Some h →
  le32_at frame 0 = Some (h_magic h) ∧ le32_at frame 4 = Some (h_sequence h) ∧
  le32_at frame 8 = Some (h_flags h) ∧ le32_at frame 12 = Some (h_len h) ∧
  le32_at frame 16 = Some (h_crc h).
Proof.
  unfold header_of. destruct (le32_at frame 0); cbn; [|done]. destruct (le32_at frame 4); cbn; [|done].
  destruct (le32_at frame 8); cbn; [|done]. destruct (le32_at frame 12); cbn; [|done].
  destruct (le32_at frame 16); cbn; [|done]. by intros [= <-].
Qed.

Lemma ingest_verdict r frame h :
  recovery_ok r → 20 ≤ Z.of_nat (length frame) → header_of frame = Some h → fits 32 (h_len h) →
  vf_recovery_ingest (Some r) (Some frame) (Z.of_nat (length frame)) =
    Some (verdict r frame h,
      Some (if verdict r frame h =? VF_RECOVERY_OK then accepted r h (drop 20 frame) else r)).
Proof.
  intros Hr Hlen (Hm & Hs & Hf & Hn & Hc)%header_of_inv [Hn0 _].
  unfold vf_recovery_ingest, with_obj, verdict, recovery_read_u32_le, VF_RECOVERY_HEADER_BYTES,
    VF_RECOVERY_MAX_PAYLOAD. rewrite Hm, Hs, Hf, Hn, Hc. tests. cbn [mbind option_bind].
  destruct (negb (h_magic h =? VF_RECOVERY_MAGIC)); [done|].
  destruct (1024 <? h_len h) eqn:El; [done|].
  destruct (negb (Z.of_nat (length frame) =? 20 + h_len h)) eqn:Et; [done|].
  rewrite buf_read_Some by lia. cbn [mbind option_bind].
  assert (Hpl : take (Z.to_nat (h_len h)) (drop (Z.to_nat 20) frame) = drop 20 frame).
  { change (Z.to_nat 20) with 20%nat. apply take_ge. rewrite length_drop. lia. }
  rewrite Hpl. destruct (negb (h_crc h =? _)); [done|].
  destruct (negb (h_sequence h =? _)); [done|]. unfold accepted. cbn [Z.eqb].
  assert (Hdrop : Z.of_nat (length (drop 20 frame)) = h_len h) by (rewrite length_drop; lia).
  pose proof (ok_payload_buf r Hr) as Hbuf. unfold VF_RECOVERY_MAX_PAYLOAD in Hbuf.
  destruct (nz (h_len h)) eqn:Ez.
  - rewrite buf_write_Some by lia. change (Z.to_nat 0) with 0%nat. cbn. by destruct r.
  - apply nz_false in Ez. cbn. destruct (drop 20 frame) as [|x l]; [|cbn in Hdrop; lia].
    by destruct r.
Qed.

Lemma accepted_ok r h pl :
  recovery_ok r → fits 32 (h_sequence h) → fits 32 (h_flags h) → Forall is_byte pl →
  0 ≤ h_len h ≤ VF_RECOVERY_MAX_PAYLOAD → Z.of_nat (length pl) = h_len h →
  recovery_ok (accepted r h pl).
Proof.
  intros [] Hs Hf Hpl Hn Hlen. unfold VF_RECOVERY_MAX_PAYLOAD in *.
  constructor; cbn; [width|done|done|done| | |done].
  - rewrite length_app, length_drop. unfold VF_RECOVERY_MAX_PAYLOAD. lia.
  - apply Forall_app; split; [done|by apply Forall_drop].
Qed.

(** Bytes of the buffer beyond [frame_len] play no part. *)
Lemma ingest_prefix r frame rest :
  20 ≤ Z.of_nat (length frame) →
  vf_recovery_ingest (Some r) (Some (frame ++ rest)) (Z.of_nat (length frame)) =
  vf_recovery_ingest (Some r) (Some frame) (Z.of_nat (length frame)).
Proof.
  intros Hlen. unfold vf_recovery_ingest, with_obj, recovery_read_u32_le, VF_RECOVERY_HEADER_BYTES.
  tests. rewrite !le32_at_app by lia.
  destruct (le32_at frame 0) as [m|]; cbn [mbind option_bind]; [|done].
  destruct (negb (m =? _)); [done|].
  destruct (le32_at frame 4) as [q|]; cbn [mbind option_bind]; [|done].
  destruct (le32_at frame 8) as [f|]; cbn [mbind option_bind]; [|done].
  destruct (le32_at frame 12) as [n|]; cbn [mbind option_bind]; [|done].
  destruct (VF_RECOVERY_MAX_PAYLOAD <? n); [done|].
  destruct (negb (Z.of_nat (length frame) =? 20 + n)) eqn:Et; [done|].
  destruct (le32_at frame 16) as [c|]; cbn [mbind option_bind]; [|done].
  destruct (decide (0 ≤ n)).
  - rewrite !buf_read_Some by (rewrite ?length_app; lia).
    rewrite drop_app_le by lia. rewrite take_app_le; [done|]. rewrite length_drop. lia.
  - unfold buf_read. by rewrite !bool_decide_false by lia.
Qed.

(** The image [vf_recovery_encode] builds. *)
Definition frame_of (sequence fl : Z) (pl : bytes) : bytes :=
  le32_split VF_RECOVERY_MAGIC ++ le32_split sequence ++ le32_split fl ++
  le32_split (Z.of_nat (length pl)) ++ le32_split (recovery_crc32 pl) ++ pl.

Lemma frame_of_length sequence fl pl : length (frame_of sequence fl pl) = (20 + length pl)%nat.
Proof. unfold frame_of, le32_split. rewrite !length_app. done. Qed.

Lemma frame_of_header sequence fl pl :
  fits 32 sequence → fits 32 fl → Z.of_nat (length pl) ≤ VF_RECOVERY_MAX_PAYLOAD →
  header_of (frame_of sequence fl pl) = Some {| h_magic := VF_RECOVERY_MAGIC;
    h_sequence := sequence; h_flags := fl; h_len := Z.of_nat (length pl);
    h_crc := recovery_crc32 pl |}.
Proof.
  intros Hs Hf Hlen. unfold VF_RECOVERY_MAX_PAYLOAD in Hlen. unfold header_of, frame_of.
  set (m := le32_split VF_RECOVERY_MAGIC). set (q := le32_split sequence). set (f := le32_split fl).
  set (n := le32_split (Z.of_nat (length pl))). set (c := le32_split (recovery_crc32 pl)).
  assert (Fm : fits 32 VF_RECOVERY_MAGIC) by (unfold fits, VF_RECOVERY_MAGIC; lia).
  assert (Fn : fits 32 (Z.of_nat (length pl))) by (unfold fits; lia).
  pose proof (crc32_fits pl) as Fc.
  assert (H0 : le32_at (m ++ q ++ f ++ n ++ c ++ pl) 0 = Some VF_RECOVERY_MAGIC)
    by (by apply (le32_at_split [])).
  assert (H4 : le32_at (m ++ q ++ f ++ n ++ c ++ pl) 4 = Some sequence)
    by (by apply (le32_at_split m)).
  assert (H8 : le32_at (m ++ q ++ f ++ n ++ c ++ pl) 8 = Some fl)
    by (rewrite app_assoc; by apply (le32_at_split (m ++ q))).
  assert (H12 : le32_at (m ++ q ++ f ++ n ++ c ++ pl) 12 = Some (Z.of_nat (length pl)))
    by (rewrite 2!app_assoc; by apply (le32_at_split ((m ++ q) ++ f))).
  assert (H16 : le32_at (m ++ q ++ f ++ n ++ c ++ pl) 16 = Some (recovery_crc32 pl))
    by (rewrite 3!app_assoc; by apply (le32_at_split (((m ++ q) ++ f) ++ n))).
  by rewrite H0, H4, H8, H12, H16.
Qed.

Lemma frame_of_payload sequence fl pl : drop 20 (frame_of sequence fl pl) = pl.
Proof. unfold frame_of, le32_split. done. Qed.

(** Sequential field stores build the frame in front of what the buffer held. *)
Lemma put_append pre rest v :
  (4 ≤ length rest)%nat →
  recovery_put_u32_le (pre ++ rest) (Z.of_nat (length pre)) v =
    Some ((pre ++ le32_split v) ++ drop 4 rest).
Proof.
  intros H. unfold recovery_put_u32_le. rewrite buf_write_append by done.
  by rewrite <- app_assoc.
Qed.

Lemma encode_frame sequence fl pl out cap :
  Z.of_nat (length pl) ≤ VF_RECOVERY_MAX_PAYLOAD →
  20 + Z.of_nat (length pl) ≤ cap → cap ≤ Z.of_nat (length out) →
  vf_recovery_encode sequence fl (Some pl) (Z.of_nat (length pl)) (Some out) cap true =
    Some (VF_RECOVERY_OK, Some (frame_of sequence fl pl ++ drop (20 + length pl) out),
      Some (20 + Z.of_nat (length pl))).
Proof.
  intros Hlen Hcap Hout. unfold vf_recovery_encode, VF_RECOVERY_HEADER_BYTES.
  unfold VF_RECOVERY_MAX_PAYLOAD in *. cbn [negb]. tests. rewrite bool_decide_false by done.
  rewrite andb_false_r. cbv zeta. tests. rewrite (wrap_id 32) by (unfold fits; lia).
  rewrite <- (app_nil_l out) at 1. pose proof (put_append [] out) as P0.
  cbn [length app] in P0. change (Z.of_nat 0) with 0 in P0. cbn [app].
  rewrite P0 by lia. cbn [mbind option_bind].
  rewrite (put_append (le32_split _)) by (rewrite length_drop; lia). cbn [mbind option_bind].
  rewrite (put_append (le32_split _ ++ le32_split _)) by (rewrite !length_drop; lia).
  cbn [mbind option_bind].
  rewrite (put_append ((le32_split _ ++ le32_split _) ++ le32_split _)) by (rewrite !length_drop; lia).
  cbn [mbind option_bind].
  assert (Hsrc : (if nz (Z.of_nat (length pl)) then buf_read pl 0 (Z.of_nat (length pl)) else Some [])
    = Some pl).
  { destruct (nz (Z.of_nat (length pl))) eqn:Ez.
    - rewrite buf_read_Some by lia. rewrite Nat2Z.id. by rewrite take_ge.
    - apply nz_false in Ez. by destruct pl. }
  rewrite Hsrc. cbn [mbind option_bind].
  rewrite (put_append (((le32_split _ ++ le32_split _) ++ le32_split _) ++ le32_split _))
    by (rewrite !length_drop; lia). cbn [mbind option_bind].
  rewrite !drop_drop. cbn [Nat.add].
  assert (Hmem : ∀ pre, Z.of_nat (length pre) = 20 → pl ≠ [] →
    buf_write (pre ++ drop 20 out) 20 pl = Some (pre ++ pl ++ drop (20 + length pl) out)).
  { intros pre Hpre Hne. rewrite <- Hpre, buf_write_append by (rewrite length_drop; lia).
    by rewrite drop_drop. }
  unfold frame_of. rewrite <- !app_assoc.
  destruct (nz (Z.of_nat (length pl))) eqn:Ez.
  - rewrite !app_assoc, Hmem; [by rewrite <- !app_assoc|done|].
    intros ->. done.
  - apply nz_false in Ez. destruct pl; [done|cbn in Ez; lia].
Qed.

(** ** One changed byte *)

(** The flags field is the only part of a frame no check covers. *)
Definition in_flags (p : Z) : Prop := 8 ≤ p < 12.

Lemma header_of_insert frame p b h :
  20 ≤ Z.of_nat (length frame) → Forall is_byte frame → is_byte b → 0 ≤ p →
  header_of frame = Some h →
  ∃ h', header_of (<[Z.to_nat p := b]> frame) = Some h' ∧ fits 32 (h_len h') ∧
    ∀ a, arr_get frame p = Some a → b ≠ a →
      (0 ≤ p < 4 → h_magic h' ≠ h_magic h) ∧ (¬ 0 ≤ p < 4 → h_magic h' = h_magic h) ∧
      (4 ≤ p < 8 → h_sequence h' ≠ h_sequence h) ∧ (¬ 4 ≤ p < 8 → h_sequence h' = h_sequence h) ∧
      (12 ≤ p < 16 → h_len h' ≠ h_len h) ∧ (¬ 12 ≤ p < 16 → h_len h' = h_len h) ∧
      (16 ≤ p < 20 → h_crc h' ≠ h_crc h) ∧ (¬ 16 ≤ p < 20 → h_crc h' = h_crc h).
Proof.
  intros Hlen Hb Hbyte Hp Hh. assert (Hb' : Forall is_byte (<[Z.to_nat p := b]> frame))
    by (by apply Forall_insert).
  destruct (header_of_Some (<[Z.to_nat p := b]> frame)) as (h' & Hh' & _ & _ & _ & Hl & _);
    [by rewrite length_insert|done|].
  exists h'. split; [done|]. split; [done|]. intros a Ha Hne.
  apply header_of_inv in Hh as (H0 & H4 & _ & H12 & H16).
  apply header_of_inv in Hh' as (G0 & G4 & _ & G12 & G16).
  assert (Hout : ∀ off v v', le32_at frame off = Some v →
    le32_at (<[Z.to_nat p := b]> frame) off = Some v' → ¬ off ≤ p < off + 4 → v' = v).
  { intros off v v' Hv Hv' Ho. rewrite le32_at_insert_out in Hv' by done. congruence. }
  assert (Hin : ∀ off v v', le32_at frame off = Some v →
    le32_at (<[Z.to_nat p := b]> frame) off = Some v' → off ≤ p < off + 4 → v' ≠ v).
  { intros off v v' Hv Hv' Ho. exact (le32_at_insert_in _ _ _ _ _ _ _ Hb Hbyte Ha Hne Ho Hv Hv'). }
  split_and!; intros Hr; first [apply (Hin _ _ _ H0 G0); lia|apply (Hout _ _ _ H0 G0); lia
    |apply (Hin _ _ _ H4 G4); lia|apply (Hout _ _ _ H4 G4); lia
    |apply (Hin _ _ _ H12 G12); lia|apply (Hout _ _ _ H12 G12); lia
    |apply (Hin _ _ _ H16 G16); lia|apply (Hout _ _ _ H16 G16); lia].
Qed.

Lemma drop_insert_payload (frame : bytes) (p b : Z) :
  0 ≤ p → drop 20 (<[Z.to_nat p := b]> frame) =
    if decide (20 ≤ p) then <[Z.to_nat (p - 20) := b]> (drop 20 frame) else drop 20 frame.
Proof.
  intros Hp. case_decide.
  - rewrite drop_insert_ge by lia. f_equal. lia.
  - by rewrite drop_insert_lt by lia.
Qed.

(** A frame that passes every check. *)
Definition valid (r : vf_recovery_v1) (frame : bytes) : Prop :=
  20 ≤ Z.of_nat (length frame) ∧ Forall is_byte frame ∧
  ∃ r', vf_recovery_ingest (Some r) (Some frame) (Z.of_nat (length frame)) = Some (VF_RECOVERY_OK, Some r').

Lemma verdict_OK r frame h :
  verdict r frame h = VF_RECOVERY_OK →
  h_magic h = VF_RECOVERY_MAGIC ∧ h_len h ≤ VF_RECOVERY_MAX_PAYLOAD ∧
  Z.of_nat (length frame) = 20 + h_len h ∧ h_crc h = recovery_crc32 (drop 20 frame) ∧
  h_sequence h = expected_sequence r.
Proof. unfold verdict. split_ifs; try done. intros _. split_and!; lia. Qed.

(** ** Sequences of frames *)

(** Ingests frames one after the other; the result lists the accepted ones. *)
Fixpoint ingest_all (r : vf_recovery_v1) (frames : list bytes) : option (list bytes * vf_recovery_v1) :=
  match frames with
  | [] => Some ([], r)
  | frame :: frames =>
    '(rc, p) ← vf_recovery_ingest (Some r) (Some frame) (Z.of_nat (length frame));
    r' ← p; '(acc, r'') ← ingest_all r' frames;
    Some (if rc =? VF_RECOVERY_OK then frame :: acc else acc, r'')
  end.

Lemma ingest_cases r frame :
  recovery_ok r → Forall is_byte frame →
  ∃ rc r', vf_recovery_ingest (Some r) (Some frame) (Z.of_nat (length frame)) = Some (rc, Some r') ∧
    recovery_ok r' ∧
    ((rc ≠ VF_RECOVERY_OK ∧ r' = r) ∨
     (rc = VF_RECOVERY_OK ∧ expected_sequence r' = u32 (expected_sequence r + 1) ∧
      last_sequence r' = expected_sequence r ∧ le32_at frame 4 = Some (expected_sequence r))).
Proof.
  intros Hr Hb. destruct (decide (20 ≤ Z.of_nat (length frame))) as [Hlen|Hlen].
  2:{ unfold vf_recovery_ingest, with_obj, VF_RECOVERY_HEADER_BYTES. tests.
      eexists _, _. split; [done|]. split; [done|]. by left. }
  destruct (header_of_Some frame Hlen Hb) as (h & Hh & Fm & Fs & Ff & Fn & Fc).
  rewrite (ingest_verdict r frame h) by done. eexists _, _. split; [done|].
  destruct (Z.eqb_spec (verdict r frame h) VF_RECOVERY_OK) as [Hv|Hv].
  2:{ split; [done|]. by left. }
  rewrite Hv. apply verdict_OK in Hv as (_ & Hmax & Htot & _ & Hseq). split.
  - apply accepted_ok; [done|done|done|by apply Forall_drop| |rewrite length_drop; lia].
    unfold fits in Fn. lia.
  - right. apply header_of_inv in Hh as (_ & Hs & _). cbn. rewrite <- Hseq.
    split_and!; [done|congruence|done..].
Qed.

Lemma ingest_all_sequence frames r k :
  recovery_ok r → Forall (Forall is_byte) frames → 0 ≤ k → expected_sequence r = u32 k →
  ∃ acc r', ingest_all r frames = Some (acc, r') ∧ recovery_ok r' ∧
    expected_sequence r' = u32 (k + Z.of_nat (length acc)) ∧
    ∀ i frame, acc !! i = Some frame → le32_at frame 4 = Some (u32 (k + Z.of_nat i)).
Proof.
  intros Hr Hf. revert r k Hr. induction Hf as [|frame frames Hb _ IH]; intros r k Hr Hk He.
  { exists [], r. cbn. rewrite Z.add_0_r. done. }
  cbn [ingest_all].
  destruct (ingest_cases r frame Hr Hb) as (rc & r1 & -> & Hr1 & Hc). cbn [mbind option_bind].
  destruct Hc as [[Hrc ->]|(-> & He1 & _ & Hseq)].
  - destruct (IH r k Hr Hk He) as (acc & r2 & -> & Hr2 & He2 & Hacc). cbn [mbind option_bind].
    rewrite (proj2 (Z.eqb_neq _ _)) by done. eauto 8.
  - destruct (IH r1 (k + 1)) as (acc & r2 & -> & Hr2 & He2 & Hacc); [done|lia| |].
    { rewrite He1, He. unfold wrap. by rewrite Zplus_mod_idemp_l. }
    cbn [mbind option_bind]. rewrite Z.eqb_refl. exists (frame :: acc), r2. split; [done|].
    split; [done|]. split.
    + rewrite He2. f_equal. cbn [length]. lia.
    + intros [|i] fr Hi; cbn in Hi.
      * injection Hi as <-. by rewrite Hseq, He, Z.add_0_r.
      * rewrite (Hacc i fr Hi). do 2 f_equal. lia.
Qed.

Definition initial : vf_recovery_v1 := {| expected_sequence := 0; last_sequence := 0; flags := 0;
  payload := replicate (Z.to_nat VF_RECOVERY_MAX_PAYLOAD) 0; payload_len := 0; ready := 0;
  signature_verified := 0 |}.

Lemma initial_ok : recovery_ok initial.
Proof.
  constructor; cbn; try (unfold fits, VF_RECOVERY_MAX_PAYLOAD; lia).
  - by rewrite length_replicate.
  - apply Forall_replicate. unfold fits. lia.
Qed.

(** ** Properties *)

(** C36. Round trip: what [vf_recovery_encode] writes into any large enough buffer,
    a receiver that expects that sequence number accepts; afterwards it holds
    exactly the payload, its length, the flags and the sequence number, is ready,
    has advanced the expected sequence number, and is not marked verified. *)
Theorem encode_ingest_roundtrip r sequence fl pl out cap :
  recovery_ok r → fits 32 fl → expected_sequence r = sequence →
  Z.of_nat (length pl) ≤ VF_RECOVERY_MAX_PAYLOAD →
  20 + Z.of_nat (length pl) ≤ cap ≤ Z.of_nat (length out) →
  ∃ out' r',
    vf_recovery_encode sequence fl (Some pl) (Z.of_nat (length pl)) (Some out) cap true =
      Some (VF_RECOVERY_OK, Some out', Some (20 + Z.of_nat (length pl))) ∧
    vf_recovery_ingest (Some r) (Some out') (20 + Z.of_nat (length pl)) =
      Some (VF_RECOVERY_OK, Some r') ∧
    buf_read (payload r') 0 (payload_len r') = Some pl ∧
    payload_len r' = Z.of_nat (length pl) ∧ flags r' = fl ∧ last_sequence r' = sequence ∧
    expected_sequence r' = u32 (sequence + 1) ∧ vf_recovery_irq_pending (Some r') = 1 ∧
    signature_verified r' = 0.
Proof.
  intros Hr Hf Hseq Hlen [Hcap Hout]. pose proof (ok_expected r Hr) as Hs. rewrite Hseq in Hs.
  rewrite encode_frame by done. eexists _, _. split; [done|].
  pose proof (frame_of_length sequence fl pl) as Hfl.
  pose proof (frame_of_header sequence fl pl Hs Hf Hlen) as Hh.
  set (h := Build_header _ _ _ _ _) in Hh. unfold VF_RECOVERY_MAX_PAYLOAD in Hlen.
  replace (20 + Z.of_nat (length pl)) with (Z.of_nat (length (frame_of sequence fl pl))) by lia.
  assert (Hv : verdict r (frame_of sequence fl pl) h = VF_RECOVERY_OK).
  { unfold verdict, VF_RECOVERY_MAX_PAYLOAD, VF_RECOVERY_MAGIC. rewrite frame_of_payload, Hfl.
    cbn. tests. rewrite !Z.eqb_refl. by tests. }
  rewrite ingest_prefix, (ingest_verdict r _ h) by (done || lia || (unfold fits; cbn; lia)).
  rewrite Hv, Z.eqb_refl. split; [done|]. rewrite frame_of_payload, <- Hseq. split_and!; try done.
  cbn [payload payload_len accepted h_len h].
  rewrite buf_read_Some by (rewrite ?length_app; lia). rewrite Nat2Z.id.
  change (Z.to_nat 0) with 0%nat. rewrite drop_0. by rewrite take_app_length.
Qed.

Lemma encode_ingest_roundtrip_witness :
  ∃ out' r', vf_recovery_encode 0 7 (Some [1; 2; 3]) 3 (Some (replicate 64 0)) 64 true =
      Some (VF_RECOVERY_OK, Some out', Some 23) ∧
    vf_recovery_ingest (Some initial) (Some out') 23 = Some (VF_RECOVERY_OK, Some r') ∧
    buf_read (payload r') 0 (payload_len r') = Some [1; 2; 3].
Proof.
  destruct (encode_ingest_roundtrip initial 0 7 [1; 2; 3] (replicate 64 0) 64)
    as (out' & r' & H1 & H2 & H3 & _).
  - exact initial_ok.
  - unfold fits; lia.
  - reflexivity.
  - cbn. unfold VF_RECOVERY_MAX_PAYLOAD. lia.
  - rewrite length_replicate. cbn. lia.
  - exists out', r'. split; [exact H1|]. split; [exact H2|]. exact H3.
Defined.

(** C12. Corruption of any single byte of an acceptable frame outside its flags
    field (magic, sequence, length, checksum or payload, to any other value) makes
    the receiver refuse the frame and leaves its state unchanged: the CRC rounds
    are injective, so no one-byte change of the payload keeps the checksum. *)
Theorem one_byte_corruption_refused r frame p a b :
  recovery_ok r → valid r frame → arr_get frame p = Some a → is_byte b → b ≠ a → ¬ in_flags p →
  ∃ rc, vf_recovery_ingest (Some r) (Some (<[Z.to_nat p := b]> frame)) (Z.of_nat (length frame)) =
    Some (rc, Some r) ∧ rc ≠ VF_RECOVERY_OK.
Proof.
  intros Hr (Hlen & Hbytes & r' & Hok) Ha Hb Hne Hp. unfold in_flags in Hp.
  pose proof (arr_get_Some _ _ _ Ha) as [Hp0 Hp1].
  destruct (header_of_Some frame Hlen Hbytes) as (h & Hh & _ & _ & _ & Fn & _).
  rewrite (ingest_verdict r frame h) in Hok by done. injection Hok as Hv _.
  apply verdict_OK in Hv as (Vm & Vl & Vt & Vc & Vs).
  destruct (header_of_insert frame p b h) as (h' & Hh' & Fn' & Hfields); [done..|].
  destruct (Hfields a Ha Hne) as (M1 & M2 & S1 & S2 & L1 & L2 & C1 & C2).
  assert (Hbad : verdict r (<[Z.to_nat p := b]> frame) h' ≠ VF_RECOVERY_OK).
  { intros (Wm & _ & Wt & Wc & Ws)%verdict_OK. rewrite length_insert in Wt.
    rewrite drop_insert_payload in Wc by done. case_decide as Hpl.
    - rewrite C2, Vc in Wc by lia. symmetry in Wc. revert Wc.
      apply (crc32_one_byte _ _ a); [by apply Forall_drop| |done|done].
      rewrite lookup_drop. unfold arr_get in Ha. rewrite bool_decide_true in Ha by done.
      rewrite <- Ha. f_equal. lia.
    - assert (0 ≤ p < 4 ∨ 4 ≤ p < 8 ∨ 12 ≤ p < 16 ∨ 16 ≤ p < 20) as [H|[H|[H|H]]] by lia.
      + apply (M1 H). congruence.
      + apply (S1 H). congruence.
      + apply (L1 H). lia.
      + apply (C1 H). congruence. }
  exists (verdict r (<[Z.to_nat p := b]> frame) h'). split; [|done].
  pose proof (ingest_verdict r (<[Z.to_nat p := b]> frame) h') as Hi. rewrite length_insert in Hi.
  rewrite Hi by done. by rewrite (proj2 (Z.eqb_neq _ _)).
Qed.

Lemma one_byte_corruption_refused_witness :
  ∃ rc, vf_recovery_ingest (Some initial) (Some (<[Z.to_nat 21 := 9]> (frame_of 0 0 [5; 6; 7]))) 23 =
    Some (rc, Some initial) ∧ rc ≠ VF_RECOVERY_OK.
Proof.
  apply (one_byte_corruption_refused initial (frame_of 0 0 [5; 6; 7]) 21 6 9).
  - exact initial_ok.
  - split; [vm_compute; congruence|]. split.
    + repeat (apply Forall_cons_2 || apply Forall_nil_2); vm_compute; split; congruence.
    + eexists. vm_compute. reflexivity.
  - reflexivity.
  - unfold fits; lia.
  - lia.
  - unfold in_flags; lia.
Defined.

(** No replay and no reordering: whatever frames arrive after initialisation,
    the accepted ones carry the sequence numbers 0, 1, 2, ... (modulo 2^32) in
    arrival order, and nothing ever marks the envelope as signature-verified. *)
Theorem accepted_in_sequence frames :
  Forall (Forall is_byte) frames →
  ∃ acc r, ingest_all initial frames = Some (acc, r) ∧ recovery_ok r ∧
    expected_sequence r = u32 (Z.of_nat (length acc)) ∧ signature_verified r = 0 ∧
    ∀ i frame, acc !! i = Some frame → le32_at frame 4 = Some (u32 (Z.of_nat i)).
Proof.
  intros Hf. destruct (ingest_all_sequence frames initial 0) as (acc & r & H1 & H2 & H3 & H4);
    [exact initial_ok|done|lia|done|].
  exists acc, r. split; [done|]. split; [done|]. split; [done|].
  split; [apply (ok_signature r H2)|]. intros i frame Hi. by apply H4.
Qed.

Lemma accepted_in_sequence_witness :
  ∃ acc r, ingest_all initial [frame_of 0 0 [1]; frame_of 0 0 [1]; [3]; frame_of 1 0 []] = Some (acc, r)
    ∧ expected_sequence r = u32 (Z.of_nat (length acc)).
Proof.
  destruct (accepted_in_sequence [frame_of 0 0 [1]; frame_of 0 0 [1]; [3]; frame_of 1 0 []])
    as (acc & r & H1 & _ & H2 & _).
  - repeat (apply Forall_cons_2 || apply Forall_nil_2); vm_compute; split; congruence.
  - exists acc, r. split; [exact H1|exact H2].
Defined.

End Recovery.
