(* ===== verification/Uart.v ===== *)
(** The UART, [devices/apple_uart_v1.c] and [apple_uart_v1.h].

    State: 15 registers, a receive FIFO of 16 bytes kept as an array whose
    first [rx_count] entries are live, the interrupt level, and the transmit
    callback.  The callback is code of the embedder: the model keeps whether one
    is installed and the bytes it has been called with, in order.  Operations:
    initialisation, a byte from the wire, the interrupt level, register reads
    (the receive register pops the FIFO) and writes. *)
From S2P Require Import Prelude.
From S2P Require Import Words.
From S2P Require Import Bytes.
From S2P Require Import Mmio.

Module Uart.

Definition VF_APPLE_UART_MMIO_SIZE := 0x3c.
Definition VF_UART_ULCON := 0x0000.
Definition VF_UART_UCON := 0x0004.
Definition VF_UART_UFCON := 0x0008.
Definition VF_UART_UMCON := 0x000c.
Definition VF_UART_UTRSTAT := 0x0010.
Definition VF_UART_UERSTAT := 0x0014.
Definition VF_UART_UFSTAT := 0x0018.
Definition VF_UART_UMSTAT := 0x001c.
Definition VF_UART_UTXH := 0x0020.
Definition VF_UART_URXH := 0x0024.
Definition VF_UART_UBRDIV := 0x0028.
Definition VF_UART_UFRACVAL := 0x002c.
Definition VF_UART_UTRSTAT_TX_EMPTY := Z.shiftl 1 2.
Definition VF_UART_UTRSTAT_TX_BUFFER_EMPTY := Z.shiftl 1 1.
Definition VF_UART_UTRSTAT_RX_READY := Z.shiftl 1 0.
Definition VF_UART_UTRSTAT_RESET :=
  Z.lor VF_UART_UTRSTAT_TX_EMPTY VF_UART_UTRSTAT_TX_BUFFER_EMPTY.
Definition VF_UART_UFCON_FIFO_ENABLE := Z.shiftl 1 0.
Definition VF_UART_UFCON_RX_RESET := Z.shiftl 1 1.
Definition VF_UART_UFCON_TX_RESET := Z.shiftl 1 2.

Create HintDb uart_regs.
#[export] Hint Unfold VF_APPLE_UART_MMIO_SIZE VF_UART_ULCON VF_UART_UCON VF_UART_UFCON
  VF_UART_UMCON VF_UART_UTRSTAT VF_UART_UERSTAT VF_UART_UFSTAT VF_UART_UMSTAT VF_UART_UTXH
  VF_UART_URXH VF_UART_UBRDIV VF_UART_UFRACVAL : uart_regs.

Record vf_apple_uart_v1 := {
  reg : list Z;
  rx_fifo : bytes;
  rx_count : Z;
  (** a transmit callback is installed; the bytes it was called with *)
  tx : bool;
  sent : bytes;
  irq_pending : Z;
}.

(** [true]: the access is refused. *)
Definition uart_bounds (off width : Z) : bool :=
  negb (width =? 4) || nz (Z.land off 3) || (VF_APPLE_UART_MMIO_SIZE <=? off).

Definition uart_idx (off : Z) : Z := off / 4.

Definition reg_update (u : vf_apple_uart_v1) (off : Z) (f : Z → Z) : option vf_apple_uart_v1 :=
  x ← arr_get (reg u) (uart_idx off);
  l ← arr_set (reg u) (uart_idx off) (f x);
  Some (u <| reg := l |>).

Definition uart_update_status (u : vf_apple_uart_v1) : option vf_apple_uart_v1 :=
  if nz (rx_count u)
  then reg_update u VF_UART_UTRSTAT (λ x, Z.lor x VF_UART_UTRSTAT_RX_READY)
  else reg_update u VF_UART_UTRSTAT (λ x, Z.land x (bnot 32 VF_UART_UTRSTAT_RX_READY)).

(** The FIFO array and the transmit log are left as they are. *)
Definition vf_apple_uart_init (u : ptr vf_apple_uart_v1) (tx_fn : bool) :
    option (Z * ptr vf_apple_uart_v1) :=
  with_obj (-1) u (λ u,
    l ← arr_set (replicate 15 0) (uart_idx VF_UART_UTRSTAT) VF_UART_UTRSTAT_RESET;
    Some (0, u <| reg := l |> <| rx_count := 0 |> <| tx := tx_fn |> <| irq_pending := 0 |>)).

Definition vf_apple_uart_push_rx (u : ptr vf_apple_uart_v1) (byte : Z) :
    option (Z * ptr vf_apple_uart_v1) :=
  with_obj (-1) u (λ u,
    if 16 <=? rx_count u then Some (-1, u)
    else
      l ← arr_set (rx_fifo u) (rx_count u) byte;
      u ← uart_update_status (u <| rx_fifo := l |> <| rx_count := u32 (rx_count u + 1) |>);
      Some (0, u <| irq_pending := 1 |>)).

Definition vf_apple_uart_irq_pending (u : ptr vf_apple_uart_v1) : bool :=
  match u with Some u => nz (irq_pending u) | None => false end.

(** [n] rounds of the shift loop from [i] on. *)
Fixpoint uart_shift (n : nat) (i : Z) (fifo : bytes) : option bytes :=
  match n with
  | O => Some fifo
  | S n => x ← arr_get fifo i; l ← arr_set fifo (i - 1) x; uart_shift n (i + 1) l
  end.

Definition vf_apple_uart_read (u : ptr vf_apple_uart_v1) (off width : Z) (value : bool) :
    option (rd_result * ptr vf_apple_uart_v1) :=
  with_obj (-1, None) u (λ u,
    if negb value || uart_bounds off width then Some ((-1, None), u)
    else if off =? VF_UART_UERSTAT then
      x ← arr_get (reg u) (uart_idx off);
      l ← arr_set (reg u) (uart_idx off) 0;
      Some ((0, Some x), u <| reg := l |>)
    else if off =? VF_UART_UFSTAT then
      let v := Z.land (rx_count u) 0xf in
      Some ((0, Some (if 16 <=? rx_count u then Z.lor v (Z.shiftl 1 8) else v)), u)
    else if off =? VF_UART_URXH then
      c ← arr_get (reg u) (uart_idx VF_UART_UFCON);
      if nz (Z.land c VF_UART_UFCON_FIFO_ENABLE) then
        if negb (nz (rx_count u)) then Some ((0, Some 0), u)
        else
          x ← arr_get (rx_fifo u) 0;
          l ← uart_shift (Z.to_nat (rx_count u - 1)) 1 (rx_fifo u);
          u ← uart_update_status (u <| rx_fifo := l |> <| rx_count := u32 (rx_count u - 1) |>);
          Some ((0, Some x), u)
      else
        x ← arr_get (reg u) (uart_idx VF_UART_URXH);
        u ← uart_update_status u;
        Some ((0, Some x), u)
    else if off =? VF_UART_UTXH then Some ((-1, None), u)
    else x ← arr_get (reg u) (uart_idx off); Some ((0, Some x), u)).

Definition vf_apple_uart_write (u : ptr vf_apple_uart_v1) (off width value : Z) :
    option (Z * ptr vf_apple_uart_v1) :=
  with_obj (-1) u (λ u,
    if uart_bounds off width then Some (-1, u)
    else if off =? VF_UART_UFCON then
      u ← reg_update u off (λ _, value);
      if nz (Z.land value VF_UART_UFCON_RX_RESET) then
        u ← reg_update (u <| rx_count := 0 |>) off (λ x, Z.land x (bnot 32 VF_UART_UFCON_RX_RESET));
        u ← uart_update_status u;
        Some (0, u <| irq_pending := 0 |>)
      else Some (0, u)
    else if off =? VF_UART_UTXH then
      let u := if tx u then u <| sent := sent u ++ [u8 value] |> else u in
      u ← reg_update u VF_UART_UTRSTAT
        (λ x, Z.lor x (Z.lor VF_UART_UTRSTAT_TX_EMPTY VF_UART_UTRSTAT_TX_BUFFER_EMPTY));
      Some (0, u <| irq_pending := 1 |>)
    else if off =? VF_UART_UTRSTAT then
      u ← reg_update u off (λ x, Z.land x (bnot 32 (Z.land value VF_UART_UTRSTAT_TX_EMPTY)));
      Some (0, u <| irq_pending := 0 |>)
    else if off =? VF_UART_UERSTAT then
      u ← reg_update u off (λ x, Z.land x (bnot 32 value)); Some (0, u)
    else if (off =? VF_UART_UFSTAT) || (off =? VF_UART_UMSTAT) || (off =? VF_UART_URXH) then
      Some (-1, u)
    else u ← reg_update u off (λ _, value); Some (0, u)).

Arguments uart_shift : simpl never.
Arguments reg_update : simpl never.

(** ** The shift loop removes the head *)

Lemma uart_shift_spec n i l :
  1 ≤ i → i + Z.of_nat n ≤ Z.of_nat (length l) →
  ∃ l', uart_shift n i l = Some l' ∧ length l' = length l ∧
    ∀ j, 0 ≤ j → arr_get l' j = if decide (i - 1 ≤ j < i - 1 + Z.of_nat n) then arr_get l (j + 1)
      else arr_get l j.
Proof.
  revert i l. induction n as [|n IH]; intros i l Hi Hlen.
  { exists l. split; [done|]. split; [done|]. intros j Hj. rewrite decide_False by lia. done. }
  unfold uart_shift; fold uart_shift.
  destruct (arr_get_lt l i) as [x Hx]; [lia|]. rewrite Hx. cbn [mbind option_bind].
  rewrite arr_set_lt by lia. cbn [mbind option_bind].
  destruct (IH (i + 1) (<[Z.to_nat (i - 1) := x]> l)) as (l' & -> & Hl' & Hget);
    [lia|rewrite length_insert; lia|].
  exists l'. split; [done|]. split; [by rewrite Hl', length_insert|]. intros j Hj.
  rewrite Hget by done. destruct (decide (j = i - 1)) as [->|Hne].
  - repeat case_decide; try lia. rewrite arr_get_insert_eq by lia.
    rewrite <- Hx. f_equal. lia.
  - repeat case_decide; try lia; by rewrite arr_get_insert_ne by lia.
Qed.

(** The live part of the FIFO. *)
Definition queue (u : vf_apple_uart_v1) : bytes := take (Z.to_nat (rx_count u)) (rx_fifo u).

Lemma shift_queue l c :
  (1 ≤ c ≤ length l)%nat →
  ∃ b l', arr_get l 0 = Some b ∧ uart_shift (c - 1) 1 l = Some l' ∧ length l' = length l ∧
    take c l = b :: take (c - 1) l'.
Proof.
  intros Hc. destruct (uart_shift_spec (c - 1) 1 l) as (l' & Hs & Hlen & Hget); [lia..|].
  destruct (arr_get_lt l 0) as [b Hb]; [lia|]. exists b, l'. split_and!; [done..|].
  apply list_eq. intros [|j].
  - rewrite lookup_take_lt by lia. unfold arr_get in Hb. by rewrite bool_decide_true in Hb by lia.
  - change ((b :: take (c - 1) l') !! S j) with (take (c - 1) l' !! j).
    destruct (decide (j < c - 1)%nat) as [Hj|Hj].
    + rewrite !lookup_take_lt by lia. specialize (Hget (Z.of_nat j)).
      rewrite decide_True in Hget by lia. unfold arr_get in Hget.
      rewrite !bool_decide_true in Hget by lia. rewrite Nat2Z.id in Hget.
      rewrite Hget by lia. f_equal. lia.
    + rewrite !lookup_take_ge by lia. done.
Qed.

(** ** Invariant *)

Definition r (u : vf_apple_uart_v1) (off : Z) : Z := default 0 (arr_get (reg u) (uart_idx off)).

Record uart_shape (u : vf_apple_uart_v1) : Prop := {
  ok_reg_len : length (reg u) = 15%nat;
  ok_reg : Forall (fits 32) (reg u);
  ok_fifo_len : length (rx_fifo u) = 16%nat;
  ok_fifo : Forall is_byte (rx_fifo u);
  ok_count : 0 ≤ rx_count u ≤ 16;
  ok_urxh : r u VF_UART_URXH = 0;
}.

(** The receive-ready bit follows the FIFO. *)
Definition status_ok (u : vf_apple_uart_v1) : Prop :=
  Z.testbit (r u VF_UART_UTRSTAT) 0 = nz (rx_count u).

Definition uart_ok (u : vf_apple_uart_v1) : Prop := uart_shape u ∧ status_ok u.

(** The side of the wire and of the interrupt controller: the transmit callback, the bytes
    it has been called with, the interrupt level. *)
Definition wire (u : vf_apple_uart_v1) : bool * bytes * Z := (tx u, sent u, irq_pending u).

Definition reg_offset (off : Z) : Prop := 0 ≤ off < 0x3c ∧ off mod 4 = 0.

Lemma r_get u off : uart_shape u → reg_offset off → arr_get (reg u) (uart_idx off) = Some (r u off).
Proof.
  intros Hu [Ho Hal]. unfold r. destruct (arr_get_lt (reg u) (uart_idx off)) as [x ->]; [|done].
  rewrite (ok_reg_len u Hu). unfold uart_idx. dlia.
Qed.

Lemma r_fits u off : uart_shape u → fits 32 (r u off).
Proof.
  intros Hu. unfold r. destruct (arr_get _ _) as [x|] eqn:E; cbn; [|unfold fits; lia].
  by eapply arr_get_Forall; [apply (ok_reg u Hu)|].
Qed.

Lemma reg_update_spec u off f :
  uart_shape u → reg_offset off → (off = VF_UART_URXH → f 0 = 0) → fits 32 (f (r u off)) →
  ∃ u', reg_update u off f = Some u' ∧ uart_shape u' ∧
    rx_fifo u' = rx_fifo u ∧ rx_count u' = rx_count u ∧ wire u' = wire u ∧
    ∀ off', reg_offset off' → r u' off' = if decide (off' = off) then f (r u off) else r u off'.
Proof.
  intros Hu Ho Hx Hf. unfold reg_update. rewrite r_get by done. cbn [mbind option_bind].
  pose proof Ho as [Hr Hal].
  rewrite arr_set_lt by (rewrite (ok_reg_len u Hu); unfold uart_idx; dlia). cbn [mbind option_bind].
  assert (Hget : ∀ off', reg_offset off' →
    r (u <| reg := <[Z.to_nat (uart_idx off) := f (r u off)]> (reg u) |>) off' =
    if decide (off' = off) then f (r u off) else r u off').
  { intros off' [Hr' Hal']. unfold r at 1. cbn. case_decide as He.
    - subst off'. rewrite arr_get_insert_eq; [done|].
      rewrite (ok_reg_len u Hu). unfold uart_idx. dlia.
    - rewrite arr_get_insert_ne; [done|unfold uart_idx; dlia..]. }
  eexists. split; [done|]. split; [|done]. destruct Hu as [H1 H2 H3 H4 H5 H6].
  constructor; cbn; [by rewrite length_insert|by apply Forall_insert|done..|].
  rewrite Hget by (unfold reg_offset; autounfold with uart_regs; dlia).
  case_decide as He; [|done]. rewrite <- He, H6 in *. auto.
Qed.

Lemma utrstat_offset : reg_offset VF_UART_UTRSTAT.
Proof. by vm_compute. Qed.

(** The status update restores the ready bit and touches nothing else. *)
Lemma update_status_spec u :
  uart_shape u →
  ∃ u', uart_update_status u = Some u' ∧ uart_ok u' ∧ rx_fifo u' = rx_fifo u ∧
    rx_count u' = rx_count u ∧ wire u' = wire u ∧
    ∀ off', reg_offset off' → off' ≠ VF_UART_UTRSTAT → r u' off' = r u off'.
Proof.
  intros Hu. pose proof (r_fits u VF_UART_UTRSTAT Hu) as Hf. unfold uart_update_status.
  unfold VF_UART_UTRSTAT_RX_READY.
  destruct (nz (rx_count u)) eqn:Hn.
  - destruct (reg_update_spec u VF_UART_UTRSTAT (λ x, Z.lor x (Z.shiftl 1 0)))
      as (u' & Hup & Hu' & H1 & H2 & H3 & Hr); [done|exact utrstat_offset|done|width|].
    exists u'. split; [done|]. split_and!; [split; [done|]|done..|].
    + unfold status_ok. rewrite Hr, decide_True, H2, Hn by (done || exact utrstat_offset).
      rewrite lor_bit_testbit, bool_decide_true by done. apply orb_true_r.
    + intros off' Ho Hne. by rewrite Hr, decide_False.
  - destruct (reg_update_spec u VF_UART_UTRSTAT (λ x, Z.land x (bnot 32 (Z.shiftl 1 0))))
      as (u' & Hup & Hu' & H1 & H2 & H3 & Hr); [done|exact utrstat_offset|done|width|].
    exists u'. split; [done|]. split_and!; [split; [done|]|done..|].
    + unfold status_ok. rewrite Hr, decide_True, H2, Hn by (done || exact utrstat_offset).
      rewrite land_bnot_bit_testbit, bool_decide_false, andb_false_r by (done || lia). done.
    + intros off' Ho Hne. by rewrite Hr, decide_False.
Qed.

(** ** The port: a bounded queue, a transmit log and an interrupt level *)

Inductive uart_op := Push (b : Z) | Access (c : access).

Definition uart_op_ok (o : uart_op) : Prop :=
  match o with Push b => is_byte b | Access c => access_ok 32 c end.

#[export] Instance uart_ops : MmioOps vf_apple_uart_v1 := {
  mmio_read := vf_apple_uart_read;
  mmio_write := vf_apple_uart_write;
  mmio_inv := uart_ok;
  mmio_bits := 32;
}.

Definition uart_step (u : vf_apple_uart_v1) (o : uart_op) : option (rd_result * vf_apple_uart_v1) :=
  match o with
  | Push b => '(rc, p) ← vf_apple_uart_push_rx (Some u) b; u' ← p; Some ((rc, None), u')
  | Access c => do_access u c
  end.

Fixpoint uart_run (u : vf_apple_uart_v1) (os : list uart_op) :
    option (list rd_result * vf_apple_uart_v1) :=
  match os with
  | [] => Some ([], u)
  | o :: os => '(a, u1) ← uart_step u o; '(rs, u2) ← uart_run u1 os; Some (a :: rs, u2)
  end.

(** The specification: the received bytes that are pending, whether the FIFO is enabled,
    whether the transmitter is connected, the bytes transmitted, and the interrupt. *)
Record port := { pending : bytes; fifo_on : bool; connected : bool; transmitted : bytes; raised : bool }.

Definition port_of (u : vf_apple_uart_v1) : port :=
  {| pending := queue u; fifo_on := Z.testbit (r u VF_UART_UFCON) 0; connected := tx u; transmitted := sent u;
     raised := nz (irq_pending u) |}.

Definition port_next (p : port) (o : uart_op) : port :=
  match o with
  | Push b => if (length (pending p) <? 16)%nat then p <| pending := pending p ++ [b] |> <| raised := true |> else p
  | Access (Rd off w) =>
    if (off =? VF_UART_URXH) && (w =? 4) && fifo_on p
    then p <| pending := tail (pending p) |> else p
  | Access (Wr off w x) =>
    if (off =? VF_UART_UFCON) && (w =? 4)
    then p <| pending := if Z.testbit x 1 then [] else pending p |> <| fifo_on := Z.testbit x 0 |>
           <| raised := if Z.testbit x 1 then false else raised p |>
    else if (off =? VF_UART_UTXH) && (w =? 4)
    then p <| transmitted := if connected p then transmitted p ++ [x mod 256] else transmitted p |> <| raised := true |>
    else if (off =? VF_UART_UTRSTAT) && (w =? 4) then p <| raised := false |>
    else p
  end.

(** The registers that may be written: whole aligned words, the three status and receive
    registers apart. *)
Definition writable (off w : Z) : bool :=
  (w =? 4) && (off mod 4 =? 0) && (off <? 0x3c)
  && negb ((off =? VF_UART_UFSTAT) || (off =? VF_UART_UMSTAT) || (off =? VF_UART_URXH)).

(** What the specification says of an answer; nothing for reads of the other registers. *)
Definition port_answer (p : port) (o : uart_op) (a : rd_result) : Prop :=
  match o with
  | Push b => a = (if (length (pending p) <? 16)%nat then 0 else -1, None)
  | Access (Rd off w) =>
    if negb (w =? 4) then a = (-1, None)
    else if off =? VF_UART_URXH then
      a = (0, Some (if fifo_on p then default 0 (head (pending p)) else 0))
    else if off =? VF_UART_UFSTAT then
      a = (0, Some (if decide (length (pending p) = 16%nat) then 256 else Z.of_nat (length (pending p))))
    else if off =? VF_UART_UTRSTAT then
      ∃ v, a = (0, Some v) ∧ Z.testbit v 0 = bool_decide (pending p ≠ [])
    else True
  | Access (Wr off w x) => a = (if writable off w then 0 else -1, None)
  end.

Lemma queue_length u : uart_shape u → length (queue u) = Z.to_nat (rx_count u).
Proof.
  intros Hu. unfold queue. rewrite length_take, (ok_fifo_len u Hu).
  pose proof (ok_count u Hu). lia.
Qed.

Lemma queue_nonempty u : uart_shape u → nz (rx_count u) = bool_decide (queue u ≠ []).
Proof.
  intros Hu. pose proof (queue_length u Hu) as Hl. pose proof (ok_count u Hu).
  case_bool_decide as Hq.
  - apply nz_true. intros Hz. rewrite Hz in Hl. by destruct (queue u).
  - apply nz_false. destruct (queue u); [cbn in Hl; lia|]. done.
Qed.

(** Replacing the FIFO contents and count keeps the shape. *)
Lemma shape_fifo u l c :
  uart_shape u → length l = 16%nat → Forall is_byte l → 0 ≤ c ≤ 16 →
  uart_shape (u <| rx_fifo := l |> <| rx_count := c |>).
Proof. intros [] Hl Hb Hc. by constructor. Qed.

Lemma port_of_same u u' :
  rx_fifo u' = rx_fifo u → rx_count u' = rx_count u →
  r u' VF_UART_UFCON = r u VF_UART_UFCON → wire u' = wire u → port_of u' = port_of u.
Proof. intros H1 H2 H3 [= H4 H5 H6]. unfold port_of, queue. by rewrite H1, H2, H3, H4, H5, H6. Qed.

Lemma ufcon_offset : reg_offset VF_UART_UFCON.
Proof. by vm_compute. Qed.
Lemma urxh_offset : reg_offset VF_UART_URXH.
Proof. by vm_compute. Qed.
Lemma ufcon_utrstat : VF_UART_UFCON ≠ VF_UART_UTRSTAT.
Proof. done. Qed.

Lemma push_step u b :
  uart_ok u → is_byte b →
  ∃ a u', uart_step u (Push b) = Some (a, u') ∧ uart_ok u' ∧
    port_of u' = port_next (port_of u) (Push b) ∧ port_answer (port_of u) (Push b) a.
Proof.
  intros [Hu Hst] Hb. pose proof (queue_length u Hu) as Hl. pose proof (ok_count u Hu) as Hc.
  pose proof (ok_fifo_len u Hu) as Hf.
  unfold uart_step, vf_apple_uart_push_rx, with_obj, port_next, port_answer.
  cbn [pending port_of]. rewrite Hl. destruct (16 <=? rx_count u) eqn:E.
  { rewrite (proj2 (Nat.ltb_ge _ _)) by lia. eexists _, _. split; [done|]. by split_and!. }
  rewrite (proj2 (Nat.ltb_lt _ _)) by lia.
  rewrite arr_set_lt by lia. cbn [mbind option_bind]. rewrite (wrap_id 32) by (unfold fits; lia).
  destruct (update_status_spec (u <| rx_fifo := <[Z.to_nat (rx_count u) := b]> (rx_fifo u) |>
    <| rx_count := rx_count u + 1 |>)) as (u' & -> & [Hu' Hst'] & H1 & H2 & [= W1 W2 W3] & Hr).
  { apply shape_fifo; [done|by rewrite length_insert|apply Forall_insert; [apply Hu|done]|lia]. }
  cbn [mbind option_bind]. eexists _, _. split; [done|]. split; [by split; [destruct Hu'|]|].
  split; [|done].
  change ((port_of u) <| pending := queue u ++ [b] |> <| raised := true |>)
    with {| pending := queue u ++ [b]; fifo_on := Z.testbit (r u VF_UART_UFCON) 0; connected := tx u; transmitted := sent u; raised := true |}.
  unfold port_of. cbn [tx sent irq_pending]. f_equal; [| |exact W1|exact W2].
  - unfold queue. cbn. rewrite H1, H2. cbn.
    replace (Z.to_nat (rx_count u + 1)) with (S (Z.to_nat (rx_count u))) by lia.
    rewrite (take_S_r _ _ b) by (apply list_lookup_insert_eq; lia). by rewrite take_insert_ge by lia.
  - change (r (u' <| irq_pending := 1 |>) VF_UART_UFCON) with (r u' VF_UART_UFCON).
    by rewrite Hr by (exact ufcon_offset || exact ufcon_utrstat).
Qed.

Lemma pop_step u c :
  uart_ok u → arr_get (reg u) (uart_idx VF_UART_UFCON) = Some c → Z.testbit c 0 = true →
  ∃ u', vf_apple_uart_read (Some u) VF_UART_URXH 4 true =
      Some ((0, Some (default 0 (head (queue u)))), Some u') ∧ uart_ok u' ∧
    queue u' = tail (queue u) ∧ r u' VF_UART_UFCON = r u VF_UART_UFCON ∧ wire u' = wire u.
Proof.
  intros [Hu Hst] Hc Hbit. pose proof (ok_count u Hu) as Hn. pose proof (ok_fifo_len u Hu) as Hf.
  unfold vf_apple_uart_read, with_obj. change (negb true || uart_bounds VF_UART_URXH 4) with false.
  autounfold with uart_regs in *. tests. rewrite Hc. cbn [mbind option_bind].
  unfold VF_UART_UFCON_FIFO_ENABLE. rewrite land_bit_nz, Hbit by lia.
  destruct (nz (rx_count u)) eqn:E; cbn [negb].
  2:{ apply nz_false in E. exists u. unfold queue. rewrite E. split; [done|]. by split_and!. }
  apply nz_true in E.
  destruct (shift_queue (rx_fifo u) (Z.to_nat (rx_count u))) as (b & l' & Hb & Hs & Hlen & Hq); [lia|].
  replace (Z.to_nat (rx_count u - 1)) with (Z.to_nat (rx_count u) - 1)%nat by lia.
  rewrite Hb, Hs. cbn [mbind option_bind]. rewrite (wrap_id 32) by (unfold fits; lia).
  assert (Hl' : Forall is_byte l').
  { apply Forall_lookup. intros j x Hj.
    destruct (uart_shift_spec (Z.to_nat (rx_count u) - 1) 1 (rx_fifo u)) as (l2 & Hs2 & _ & Hget);
      [lia..|]. rewrite Hs in Hs2. injection Hs2 as <-. specialize (Hget (Z.of_nat j)).
    unfold arr_get in Hget. rewrite !bool_decide_true in Hget by lia. rewrite Nat2Z.id in Hget.
    rewrite Hj in Hget. case_decide; symmetry in Hget;
      (eapply Forall_lookup_1; [apply Hu|apply Hget; lia]). }
  destruct (update_status_spec (u <| rx_fifo := l' |> <| rx_count := rx_count u - 1 |>))
    as (u' & -> & Hu' & H1 & H2 & H3 & Hr); [apply shape_fifo; [done|congruence|done|lia]|].
  cbn [mbind option_bind]. exists u'. unfold queue. rewrite Hq, H1, H2. cbn.
  split; [done|]. split; [done|]. split; [f_equal; lia|]. split; [|exact H3].
  by rewrite Hr by (exact ufcon_offset || exact ufcon_utrstat).
Qed.

Lemma bounds_false off w :
  0 ≤ off → uart_bounds off w = false → w = 4 ∧ reg_offset off.
Proof.
  unfold uart_bounds, reg_offset, VF_APPLE_UART_MMIO_SIZE. rewrite !orb_false_iff, nz_false, land_3_mod.
  lia.
Qed.

Lemma read_refused off w :
  uart_bounds off w = true → 0 ≤ off → reg_offset off → w ≠ 4.
Proof.
  unfold uart_bounds, VF_APPLE_UART_MMIO_SIZE. intros H Ho [Hr Hal] ->.
  rewrite land_3_mod, Hal in H. change (nz 0) with false in H. lia.
Qed.

(** Reads other than the receive register leave the port alone. *)
Lemma read_plain u off :
  uart_ok u → reg_offset off → off ≠ VF_UART_URXH →
  ∃ a u', vf_apple_uart_read (Some u) off 4 true = Some (a, Some u') ∧ uart_ok u' ∧
    port_of u' = port_next (port_of u) (Access (Rd off 4)) ∧
    port_answer (port_of u) (Access (Rd off 4)) a ∧
    ((∃ x, a = (0, Some x) ∧ fits 32 x) ∨ (a = (-1, None) ∧ u' = u)).
Proof.
  intros [Hu Hst] Hr Hne. pose proof (ok_count u Hu) as Hn. pose proof Hr as [Ho Hal].
  unfold vf_apple_uart_read, with_obj, port_next, port_answer.
  assert (uart_bounds off 4 = false) as ->.
  { unfold uart_bounds, VF_APPLE_UART_MMIO_SIZE. rewrite land_3_mod, Hal. change (nz 0) with false. lia. }
  rewrite (proj2 (Z.eqb_neq _ _) Hne). change (4 =? 4) with true. cbn [negb orb andb].
  rewrite (r_get u off) by done. cbn [mbind option_bind].
  destruct (Z.eqb_spec off VF_UART_UERSTAT) as [->|Hne1].
  { destruct (reg_update_spec u VF_UART_UERSTAT (λ _, 0)) as (u' & Hup & Hu' & H1 & H2 & H3 & Hr');
      [done|done|done|unfold fits; lia|].
    unfold reg_update in Hup. rewrite (r_get u _) in Hup by done. cbn [mbind option_bind] in Hup.
    cbv beta in Hup. destruct (arr_set (reg u) _ 0) as [l|]; [|done].
    cbn [mbind option_bind] in *. injection Hup as ->.
    eexists _, u'. split; [done|]. split.
    { split; [done|]. unfold status_ok. by rewrite Hr', decide_False, H2 by (done || exact utrstat_offset). }
    split; [apply port_of_same; [done|done| |done]; by rewrite Hr', decide_False by (done || exact ufcon_offset)|].
    split; [done|]. left. eexists. split; [done|]. by apply r_fits. }
  destruct (Z.eqb_spec off VF_UART_UFSTAT) as [->|Hne2].
  { eexists _, u. split; [done|]. split; [done|]. split; [done|]. cbn [pending port_of].
    pose proof (queue_length u Hu) as Hl. rewrite Hl.
    change 0xf with (Z.ones 4). rewrite Z.land_ones by lia.
    destruct (16 <=? rx_count u) eqn:E.
    - replace (rx_count u) with 16 by lia. split; [done|]. left. eexists. split; [done|].
      vm_compute. split; congruence.
    - rewrite decide_False by lia. rewrite Z.mod_small by lia. rewrite Z2Nat.id by lia.
      split; [done|]. left. eexists. split; [done|]. unfold fits. lia. }
  destruct (Z.eqb_spec off VF_UART_UTXH) as [->|Hne3].
  { eexists _, u. split; [done|]. split; [done|]. split; [done|]. split; [done|]. by right. }
  eexists _, u. split; [done|]. split; [done|]. split; [done|]. split.
  - destruct (Z.eqb_spec off VF_UART_UTRSTAT) as [->|]; [|done]. eexists. split; [done|].
    cbn [pending port_of]. rewrite <- queue_nonempty by done. exact Hst.
  - left. eexists. split; [done|]. by apply r_fits.
Qed.

(** The registers the specification speaks about, in one place. *)
Lemma uart_read_step u off w :
  uart_ok u → fits 32 off →
  ∃ a u', vf_apple_uart_read (Some u) off w true = Some (a, Some u') ∧ uart_ok u' ∧
    port_of u' = port_next (port_of u) (Access (Rd off w)) ∧
    port_answer (port_of u) (Access (Rd off w)) a ∧
    ((∃ x, a = (0, Some x) ∧ fits 32 x) ∨ (a = (-1, None) ∧ u' = u)).
Proof.
  intros Hok [Ho _]. pose proof Hok as [Hu Hst]. pose proof (ok_count u Hu) as Hn.
  destruct (uart_bounds off w) eqn:E.
  { eexists _, u. unfold vf_apple_uart_read, with_obj. rewrite E. split; [done|]. split; [done|].
    assert (Hw : reg_offset off → w ≠ 4) by (by apply read_refused). unfold port_next, port_answer.
    assert (Hx : ∀ o, reg_offset o → (off =? o) && (w =? 4) = false).
    { intros o Hr. destruct (Z.eqb_spec off o); [|done]. subst. destruct (Z.eqb_spec w 4); [|done].
      by destruct Hw. }
    rewrite Hx by exact urxh_offset. split; [done|]. split; [|by right].
    destruct (Z.eqb_spec w 4) as [->|]; [|done].
    specialize (Hx off). rewrite Z.eqb_refl in Hx. cbn [negb].
    repeat (case_match; [exfalso; apply Hw; [|done]; assert (off = 36 ∨ off = 24 ∨ off = 16)
      by (autounfold with uart_regs in *; lia); unfold reg_offset; dlia|]). done. }
  apply bounds_false in E as [-> Hr]; [|done].
  destruct (decide (off = VF_UART_URXH)) as [->|Hne].
  { pose proof (r_get u _ Hu ufcon_offset) as Hc.
    unfold port_next, port_answer. rewrite Z.eqb_refl. cbn [negb andb Z.eqb].
    change (4 =? 4) with true. cbn [negb andb fifo_on port_of pending].
    destruct (Z.testbit (r u VF_UART_UFCON) 0) eqn:Hbit.
    - destruct (pop_step u _ Hok Hc Hbit) as (u' & Hp & Hu' & Hq & Hf & [= W1 W2 W3]). eexists _, u'.
      split; [exact Hp|]. split; [done|]. split; [|split; [done|]].
      + unfold port_of. by rewrite Hq, Hf, W1, W2, W3.
      + left. eexists. split; [done|]. unfold queue.
        destruct (take _ _) as [|b l] eqn:Et; cbn; [unfold fits; lia|].
        apply (fits_weaken 8); [lia|]. assert (Hall : Forall is_byte (b :: l))
          by (rewrite <- Et; apply Forall_take, Hu). by apply Forall_cons_1 in Hall as [? _].
    - unfold vf_apple_uart_read, with_obj. change (negb true || uart_bounds VF_UART_URXH 4) with false.
      rewrite Hc, (r_get u _ Hu urxh_offset), (ok_urxh u Hu). cbn [mbind option_bind].
      change (VF_UART_URXH =? VF_UART_UERSTAT) with false.
      change (VF_UART_URXH =? VF_UART_UFSTAT) with false.
      change (VF_UART_URXH =? VF_UART_URXH) with true.
      unfold VF_UART_UFCON_FIFO_ENABLE. rewrite land_bit_nz, Hbit by lia.
      destruct (update_status_spec u Hu) as (u' & -> & Hu' & H1 & H2 & H3 & Hr').
      cbn [mbind option_bind]. eexists _, u'. split; [done|]. split; [done|].
      split; [apply port_of_same; [done|done|by apply Hr'; [exact ufcon_offset|exact ufcon_utrstat]|done]|].
      split; [done|]. left. eexists. split; [done|]. unfold fits. lia. }
  destruct (read_plain u off Hok Hr Hne) as (a & u' & Hrd & Hu' & Hp & Ha & Hres).
  exists a, u'. split_and!; [done..|]. by destruct Hres as [?|[-> ->]]; [left|right].
Qed.

(** An update of a register that is neither the control nor the status register. *)
Lemma plain_update u off f :
  uart_ok u → reg_offset off → off ≠ VF_UART_UFCON → off ≠ VF_UART_UTRSTAT → off ≠ VF_UART_URXH →
  fits 32 (f (r u off)) →
  ∃ u', reg_update u off f = Some u' ∧ uart_ok u' ∧ port_of u' = port_of u.
Proof.
  intros [Hu Hst] Hr H1 H2 H3 Hf.
  destruct (reg_update_spec u off f) as (u' & Hup & Hu' & G1 & G2 & G3 & Hr'); [done..|].
  exists u'. split; [done|]. split.
  - split; [done|]. unfold status_ok. by rewrite Hr', decide_False, G2 by (done || exact utrstat_offset).
  - apply port_of_same; [done|done| |done]. by rewrite Hr', decide_False by (done || exact ufcon_offset).
Qed.

(** A status update that leaves the ready bit alone. *)
Lemma utrstat_update u f i :
  uart_ok u → fits 32 (f (r u VF_UART_UTRSTAT)) →
  Z.testbit (f (r u VF_UART_UTRSTAT)) 0 = Z.testbit (r u VF_UART_UTRSTAT) 0 →
  ∃ u', reg_update u VF_UART_UTRSTAT f = Some u' ∧ uart_ok (u' <| irq_pending := i |>) ∧
    port_of (u' <| irq_pending := i |>) = (port_of u) <| raised := nz i |>.
Proof.
  intros [Hu Hst] Hf Hbit.
  destruct (reg_update_spec u VF_UART_UTRSTAT f) as (u' & Hup & Hu' & G1 & G2 & [= G3 G4 _] & Hr');
    [done|exact utrstat_offset|done|done|].
  exists u'. split; [done|]. split.
  - split; [by destruct Hu'|]. unfold status_ok.
    change (r (u' <| irq_pending := i |>)) with (r u').
    rewrite Hr', decide_True by (done || exact utrstat_offset). rewrite Hbit. cbn. by rewrite G2.
  - unfold port_of, queue. cbn. rewrite G1, G2, G3, G4. f_equal. change (r (u' <| irq_pending := i |>)) with (r u').
    by rewrite Hr', decide_False by (done || exact ufcon_offset).
Qed.

Lemma ufcon_write u x :
  uart_ok u → fits 32 x →
  ∃ u', vf_apple_uart_write (Some u) VF_UART_UFCON 4 x = Some (0, Some u') ∧ uart_ok u' ∧
    port_of u' = (port_of u) <| pending := if Z.testbit x 1 then [] else queue u |> <| fifo_on := Z.testbit x 0 |>
      <| raised := if Z.testbit x 1 then false else nz (irq_pending u) |>.
Proof.
  intros [Hu Hst] Hx. unfold vf_apple_uart_write, with_obj.
  change (uart_bounds VF_UART_UFCON 4) with false. change (VF_UART_UFCON =? VF_UART_UFCON) with true.
  cbv iota. unfold VF_UART_UFCON_RX_RESET. rewrite land_bit_nz by lia.
  destruct (reg_update_spec u VF_UART_UFCON (λ _, x)) as (u1 & -> & Hu1 & G1 & G2 & [= W1 W2 W3] & Hr1);
    [done|exact ufcon_offset|done|done|]. cbn [mbind option_bind].
  assert (Hc1 : r u1 VF_UART_UFCON = x) by (by rewrite Hr1, decide_True by (done || exact ufcon_offset)).
  destruct (Z.testbit x 1).
  - pose proof (shape_fifo u1 (rx_fifo u1) 0 Hu1 (ok_fifo_len u1 Hu1) (ok_fifo u1 Hu1)) as Hu2.
    destruct (reg_update_spec (u1 <| rx_count := 0 |>) VF_UART_UFCON
      (λ x, Z.land x (bnot 32 (Z.shiftl 1 1)))) as (u2 & -> & Hu2' & K1 & K2 & [= V1 V2 _] & Hr2);
      [apply Hu2; lia|exact ufcon_offset|done|apply fits_land_l; [lia|by apply r_fits, Hu2]|].
    cbn [mbind option_bind]. destruct (update_status_spec u2 Hu2') as (u3 & -> & [Hu3 Hs3] & L1 & L2 & [= T1 T2 _] & Hr3).
    cbn [mbind option_bind]. eexists. split; [done|]. split; [by split; [destruct Hu3|]|].
    unfold port_of, queue. cbn. rewrite L2, K2, T1, T2, V1, V2. cbn. rewrite W1, W2.
    change (r (u3 <| irq_pending := 0 |>)) with (r u3).
    rewrite Hr3 by (exact ufcon_offset || exact ufcon_utrstat).
    rewrite Hr2, decide_True by (done || exact ufcon_offset).
    change (r (u1 <| rx_count := 0 |>)) with (r u1). rewrite Hc1.
    f_equal. rewrite land_bnot_bit_testbit, bool_decide_true, andb_true_r by (done || lia). done.
  - eexists. split; [done|]. split.
    + split; [done|]. unfold status_ok. by rewrite Hr1, decide_False, G2 by (done || exact utrstat_offset).
    + unfold port_of, queue. cbn. by rewrite G1, G2, Hc1, W1, W2, W3.
Qed.

Lemma bounds_writable off w :
  0 ≤ off → writable off w = negb (uart_bounds off w || ((off =? VF_UART_UFSTAT) || (off =? VF_UART_UMSTAT) || (off =? VF_UART_URXH))).
Proof.
  intros Ho. unfold writable, uart_bounds, VF_APPLE_UART_MMIO_SIZE. rewrite land_3_mod. unfold nz.
  rewrite !negb_orb, !negb_involutive. f_equal. f_equal. lia.
Qed.

Lemma uart_write_step u off w x :
  uart_ok u → fits 32 off → fits 32 x →
  ∃ rc u', vf_apple_uart_write (Some u) off w x = Some (rc, Some u') ∧ uart_ok u' ∧
    port_of u' = port_next (port_of u) (Access (Wr off w x)) ∧ rc = (if writable off w then 0 else -1) ∧ (rc = 0 ∨ (rc = -1 ∧ u' = u)).
Proof.
  intros Hok [Ho _] Hx. pose proof Hok as [Hu Hst]. unfold port_next. rewrite bounds_writable by done.
  destruct (uart_bounds off w) eqn:E; cbn [orb negb].
  { eexists _, u. unfold vf_apple_uart_write, with_obj. rewrite E. split; [done|]. split; [done|].
    assert (∀ o, reg_offset o → (off =? o) && (w =? 4) = false) as Hx'.
    { intros o Hr. destruct (Z.eqb_spec off o); [|done]. subst. destruct (Z.eqb_spec w 4); [|done]. by destruct (read_refused o w E). }
    rewrite !Hx' by by vm_compute. split; [done|]. split; [done|by right]. }
  pose proof (bounds_false off w Ho E) as [-> Hr]. change (4 =? 4) with true. rewrite !andb_true_r.
  destruct (Z.eqb_spec off VF_UART_UFCON) as [->|Hne].
  { destruct (ufcon_write u x Hok Hx) as (u' & Hw & Hu' & Hp). eexists _, u'.
    split; [exact Hw|]. split; [done|]. split; [exact Hp|]. split; [done|by left]. }
  unfold vf_apple_uart_write, with_obj. rewrite E, (proj2 (Z.eqb_neq _ _) Hne). cbv iota.
  pose proof (r_fits u VF_UART_UTRSTAT Hu) as Hf.
  destruct (Z.eqb_spec off VF_UART_UTXH) as [->|Hne1].
  { assert (Hokt : uart_ok (if tx u then u <| sent := sent u ++ [u8 x] |> else u))
      by (destruct (tx u); [by split; [destruct Hu|]|done]).
    destruct (utrstat_update (if tx u then u <| sent := sent u ++ [u8 x] |> else u)
      (λ x, Z.lor x (Z.lor VF_UART_UTRSTAT_TX_EMPTY VF_UART_UTRSTAT_TX_BUFFER_EMPTY)) 1)
      as (u' & -> & Hu' & Hp); [done| | |].
    - apply fits_lor; [lia|apply r_fits, Hokt|]. vm_compute; split; congruence.
    - rewrite Z.lor_spec. by rewrite orb_false_r.
    - cbn [mbind option_bind]. eexists _, _. split; [done|]. split; [done|].
      split; [rewrite Hp; cbn; by destruct (tx u)|]. split; [done|by left]. }
  destruct (Z.eqb_spec off VF_UART_UTRSTAT) as [->|Hne2].
  { destruct (utrstat_update u (λ y, Z.land y (bnot 32 (Z.land x VF_UART_UTRSTAT_TX_EMPTY))) 0)
      as (u' & -> & Hu' & Hp); [done|width| |].
    - rewrite Z.land_spec, bnot_testbit, Z.land_spec, andb_false_r by lia. apply andb_true_r.
    - cbn [mbind option_bind]. eexists _, _. split; [done|]. split; [done|]. split; [done|]. split; [done|by left]. }
  destruct (Z.eqb_spec off VF_UART_UERSTAT) as [->|Hne3].
  { destruct (plain_update u VF_UART_UERSTAT (λ y, Z.land y (bnot 32 x))) as (u' & -> & Hu' & Hp);
      [done..| |]. { apply fits_land_l; [lia|by apply r_fits]. }
    cbn [mbind option_bind]. eexists _, u'. split; [done|]. split; [done|]. split; [done|]. split; [done|by left]. }
  destruct ((off =? VF_UART_UFSTAT) || (off =? VF_UART_UMSTAT) || (off =? VF_UART_URXH)) eqn:E2.
  { eexists _, u. split; [done|]. split; [done|]. split; [done|]. split; [done|by right]. }
  destruct (plain_update u off (λ _, x)) as (u' & -> & Hu' & Hp); [done..| |done|]; [lia|].
  cbn [mbind option_bind]. eexists _, u'. split; [done|]. split; [done|]. split; [done|]. split; [done|by left].
Qed.

#[export] Instance uart_laws : MmioLaws vf_apple_uart_v1.
Proof.
  split; try done.
  - intros u off w Hu Ho _. destruct (uart_read_step u off w Hu Ho) as (a & u' & H & Hu' & _ & _ & Hr).
    exists a, u'. split; [exact H|]. by split.
  - intros u off w x Hu Ho _ Hx.
    destruct (uart_write_step u off w x Hu Ho Hx) as (rc & u' & H & Hu' & _ & _ & Hr).
    exists rc, u'. split; [exact H|]. by split.
Qed.

Lemma uart_step_refines u o :
  uart_ok u → uart_op_ok o →
  ∃ a u', uart_step u o = Some (a, u') ∧ uart_ok u' ∧
    port_of u' = port_next (port_of u) o ∧ port_answer (port_of u) o a.
Proof.
  intros Hu Ho. destruct o as [b|[off w|off w x]].
  - by apply push_step.
  - destruct Ho as [Ho Hw]. destruct (uart_read_step u off w Hu Ho) as (a & u' & H & Hu' & Hp & Ha & _).
    exists a, u'. cbn [uart_step]. unfold do_access. change (@mmio_read _ uart_ops) with vf_apple_uart_read.
    by rewrite H.
  - destruct Ho as (Ho & Hw & Hx).
    destruct (uart_write_step u off w x Hu Ho Hx) as (rc & u' & H & Hu' & Hp & Hrc & _).
    exists (rc, None), u'. cbn [uart_step]. unfold do_access.
    change (@mmio_write _ uart_ops) with vf_apple_uart_write. rewrite H. by rewrite Hrc.
Qed.

(** ** Properties *)

(** The specification along a sequence: every answer, then the final port. *)
Fixpoint port_trace (p : port) (os : list uart_op) (rs : list rd_result) : Prop :=
  match os, rs with
  | [], [] => True
  | o :: os, a :: rs => port_answer p o a ∧ port_trace (port_next p o) os rs
  | _, _ => False
  end.

Lemma uart_run_refines u os :
  uart_ok u → Forall uart_op_ok os →
  ∃ rs u', uart_run u os = Some (rs, u') ∧ port_trace (port_of u) os rs ∧
    port_of u' = foldl port_next (port_of u) os.
Proof.
  intros Hu Hos. revert u Hu. induction Hos as [|o os Ho _ IH]; intros u Hu.
  { by exists [], u. }
  destruct (uart_step_refines u o Hu Ho) as (a & u1 & Hs & Hu1 & Hp & Ha).
  destruct (IH u1 Hu1) as (rs & u2 & Hr & Htr & Hp2). rewrite Hp in Htr, Hp2.
  exists (a :: rs), u2. cbn [uart_run]. rewrite Hs. cbn [mbind option_bind]. by rewrite Hr.
Qed.

(** The port as initialisation leaves it; what has been transmitted stays. *)
Definition opened (u : vf_apple_uart_v1) (tx_fn : bool) : port :=
  {| pending := []; fifo_on := false; connected := tx_fn; transmitted := sent u; raised := false |}.

(** C25. Refinement: from initialisation, for every interleaving of bytes
    arriving on the wire with register accesses, the device behaves as a port.  Its
    receive side is a queue of at most 16 bytes with an enable flag: a byte is accepted
    exactly when there is room, the receive register pops the oldest byte (or reads 0),
    the FIFO status shows the count and the full flag, the ready bit shows non-emptiness
    and a receive reset empties it.  Its transmit side is a log: with a transmit callback
    installed, every write of the transmit register sends its low byte, in order, and
    nothing else sends; without one nothing is sent.  The interrupt is raised by an accepted
    byte and by a transmission, and lowered by a status acknowledge and a receive reset.
    Writes are refused exactly outside the writable registers.  No array is accessed out
    of range. *)
Theorem uart_refines_queue u0 tx_fn os :
  length (rx_fifo u0) = 16%nat → Forall is_byte (rx_fifo u0) → Forall uart_op_ok os →
  ∃ u rs u', vf_apple_uart_init (Some u0) tx_fn = Some (0, Some u) ∧ uart_run u os = Some (rs, u') ∧
    port_trace (opened u0 tx_fn) os rs ∧ port_of u' = foldl port_next (opened u0 tx_fn) os ∧
    sent u' = transmitted (foldl port_next (opened u0 tx_fn) os) ∧
    vf_apple_uart_irq_pending (Some u') = raised (foldl port_next (opened u0 tx_fn) os).
Proof.
  intros Hlen Hb Hos. eexists. assert (Hok : uart_ok (u0 <| reg := <[4%nat := 6]> (replicate 15 0) |>
    <| rx_count := 0 |> <| tx := tx_fn |> <| irq_pending := 0 |>)).
  { split; [|done]. constructor; cbn; [done| |done..|lia|done].
    apply Forall_insert; [apply Forall_replicate|]; unfold fits; lia. }
  destruct (uart_run_refines _ os Hok Hos) as (rs & u' & Hrun & Htr & Hp).
  change (port_of _) with (opened u0 tx_fn) in Htr. change (port_of (_ <| irq_pending := 0 |>)) with (opened u0 tx_fn) in Hp.
  exists rs, u'. split; [done|]. rewrite <- Hp. by split_and!.
Qed.

Definition blank : vf_apple_uart_v1 :=
  {| reg := []; rx_fifo := replicate 16 0; rx_count := 0; tx := false; sent := []; irq_pending := 0 |}.

Definition sample_ops : list uart_op :=
  [Access (Wr 8 4 1); Push 65; Access (Wr 0x20 4 0x148); Push 66; Access (Rd 36 4); Access (Rd 24 4); Access (Wr 0x20 4 0x49); Access (Wr 0x18 4 0)].

Lemma uart_refines_queue_witness :
  foldl port_next (opened blank true) sample_ops =
    {| pending := [66]; fifo_on := true; connected := true; transmitted := [0x48; 0x49]; raised := true |} ∧
  ∃ u rs u', vf_apple_uart_init (Some blank) true = Some (0, Some u) ∧ uart_run u sample_ops = Some (rs, u') ∧
    port_trace (opened blank true) sample_ops rs ∧ port_of u' = foldl port_next (opened blank true) sample_ops ∧
    sent u' = transmitted (foldl port_next (opened blank true) sample_ops) ∧
    vf_apple_uart_irq_pending (Some u') = raised (foldl port_next (opened blank true) sample_ops).
Proof.
  split; [reflexivity|]. apply (uart_refines_queue blank true sample_ops).
  - reflexivity.
  - apply Forall_replicate. unfold fits; lia.
  - repeat constructor; unfold fits; lia.
Defined.

End Uart.
