(* ===== verification/Gpio.v ===== *)
(** The GPIO controller, [devices/apple_gpio_v1.c] and [apple_gpio_v1.h].

    State: per-pin configuration words, pending interrupt bits per group, the
    current and previous input levels, and two callbacks.  The callbacks are code
    of the embedder: the model keeps whether each is installed and the calls made
    to it, in order.  Operations: initialisation, an input level, the group query,
    register reads and writes. *)
From S2P Require Import Prelude.
From S2P Require Import Words.
From S2P Require Import Mmio.

Module Gpio.

Definition VF_GPIO_MAX_PIN_NR := 512.
Definition VF_GPIO_MAX_INT_GRP_NR := 7.
Definition VF_GPIO_INT_WORDS := 16.
Definition VF_GPIO_REG_CFG (n : Z) := u32 (0x000 + u32 (u32 n * 4)).
Definition VF_GPIO_REG_INT (g n : Z) :=
  u32 (u32 (0x800 + u32 (u32 g * 0x40)) + u32 (Z.shiftr (u32 (n + 31)) 5 * 4)).
Definition VF_GPIO_REG_NPL_IN_EN := 0xc48.
Definition VF_GPIO_DATA_0 := Z.shiftl 0 0.
Definition VF_GPIO_DATA_1 := Z.shiftl 1 0.
Definition VF_GPIO_CFG_GP_IN := Z.shiftl 0 1.
Definition VF_GPIO_CFG_GP_OUT := Z.shiftl 1 1.
Definition VF_GPIO_CFG_INT_LVL_HI := Z.shiftl 2 1.
Definition VF_GPIO_CFG_INT_LVL_LO := Z.shiftl 3 1.
Definition VF_GPIO_CFG_INT_EDG_RIS := Z.shiftl 4 1.
Definition VF_GPIO_CFG_INT_EDG_FAL := Z.shiftl 5 1.
Definition VF_GPIO_CFG_INT_EDG_ANY := Z.shiftl 6 1.
Definition VF_GPIO_CFG_DISABLE := Z.shiftl 7 1.
Definition VF_GPIO_CFG_MASK := Z.shiftl 7 1.
Definition VF_GPIO_FUNC_SHIFT := 5.
Definition VF_GPIO_FUNC_GPIO := Z.shiftl 0 VF_GPIO_FUNC_SHIFT.
Definition VF_GPIO_FUNC_ALT0 := Z.shiftl 1 VF_GPIO_FUNC_SHIFT.
Definition VF_GPIO_FUNC_MASK := Z.shiftl 3 VF_GPIO_FUNC_SHIFT.
Definition VF_GPIO_INTR_GRP_SHIFT := 16.
Definition VF_GPIO_INT_MASKED := Z.shiftl 7 VF_GPIO_INTR_GRP_SHIFT.
Definition VF_GPIO_CFG_DISABLED :=
  Z.lor (Z.lor VF_GPIO_FUNC_GPIO VF_GPIO_CFG_DISABLE) VF_GPIO_INT_MASKED.

Record vf_apple_gpio_v1 := {
  npins : Z;
  nirqgrps : Z;
  phandle : Z;
  gpio_cfg : list Z;
  int_cfg : list (list Z);
  in_ : list Z;
  old_in : list Z;
  npl : Z;
  (** the output callback is installed; its calls (pin, level) *)
  out : bool;
  out_calls : list (Z * Z);
  (** the interrupt callback is installed; its calls (group, asserted) *)
  irq : bool;
  irq_calls : list (Z * bool);
}.

Definition gpio_width_ok (off width : Z) : bool := (width =? 4) && negb (nz (Z.land off 3)).

Definition gpio_test_bit (words : list Z) (pin : Z) : option Z :=
  x ← arr_get words (Z.shiftr pin 5);
  Some (Z.land (Z.shiftr x (Z.land pin 31)) 1).

(** [words[w] |= 1 << (pin & 31)] and its inverse, for any word index. *)
Definition set_bit_at (words : list Z) (w pin : Z) : option (list Z) :=
  x ← arr_get words w; arr_set words w (Z.lor x (Z.shiftl 1 (Z.land pin 31))).
Definition clear_bit_at (words : list Z) (w pin : Z) : option (list Z) :=
  x ← arr_get words w; arr_set words w (Z.land x (bnot 32 (Z.shiftl 1 (Z.land pin 31)))).

Definition gpio_set_bit (words : list Z) (pin : Z) := set_bit_at words (Z.shiftr pin 5) pin.
Definition gpio_clear_bit (words : list Z) (pin : Z) := clear_bit_at words (Z.shiftr pin 5) pin.

Definition gpio_int_word (pin : Z) : Z := Z.shiftr (u32 (pin + 31)) 5.
Definition gpio_int_set_bit (words : list Z) (pin : Z) := set_bit_at words (gpio_int_word pin) pin.
Definition gpio_int_clear_bit (words : list Z) (pin : Z) :=
  clear_bit_at words (gpio_int_word pin) pin.

Definition gpio_int_words (n : Z) : Z :=
  if n =? 0 then 0 else u32 (gpio_int_word (u32 (n - 1)) + 1).

(** The loop of [gpio_group_active], [n] words from [w] on. *)
Fixpoint any_pending (n : nat) (row : list Z) (w : Z) : option bool :=
  match n with
  | O => Some false
  | S n => x ← arr_get row w; if nz x then Some true else any_pending n row (w + 1)
  end.

Definition gpio_group_active (g : vf_apple_gpio_v1) (group : Z) : option bool :=
  let words := gpio_int_words (npins g) in
  if nirqgrps g <=? group then Some false
  else row ← arr_get (int_cfg g) group; any_pending (Z.to_nat words) row 0.

Definition gpio_raise_irq (g : vf_apple_gpio_v1) (group : Z) : option vf_apple_gpio_v1 :=
  if irq g then
    b ← gpio_group_active g group; Some (g <| irq_calls := irq_calls g ++ [(group, b)] |>)
  else Some g.

Definition gpio_drive_out (g : vf_apple_gpio_v1) (pin cfg : Z) : vf_apple_gpio_v1 :=
  if negb (out g) || (npins g <=? pin) then g
  else
    let level :=
      if nz (Z.land cfg VF_GPIO_FUNC_MASK) then 1
      else if Z.land cfg VF_GPIO_CFG_MASK =? VF_GPIO_CFG_GP_OUT then
        if nz (Z.land cfg VF_GPIO_DATA_1) then 1 else 0
      else 1 in
    g <| out_calls := out_calls g ++ [(pin, level)] |>.

(** Applies an operation to the pending words of one group. *)
Definition int_update (g : vf_apple_gpio_v1) (grp : Z) (f : list Z → option (list Z)) :
    option vf_apple_gpio_v1 :=
  row ← arr_get (int_cfg g) grp; row' ← f row; l ← arr_set (int_cfg g) grp row';
  Some (g <| int_cfg := l |>).

Definition gpio_update_level_pending (g : vf_apple_gpio_v1) (pin cfg : Z) :
    option vf_apple_gpio_v1 :=
  if Z.land cfg VF_GPIO_INT_MASKED =? VF_GPIO_INT_MASKED then Some g
  else
    let irqgrp := Z.shiftr (Z.land cfg VF_GPIO_INT_MASKED) VF_GPIO_INTR_GRP_SHIFT in
    if nirqgrps g <=? irqgrp then Some g
    else
      g ← int_update g irqgrp (λ row, gpio_int_clear_bit row pin);
      g ← (if Z.land cfg VF_GPIO_CFG_MASK =? VF_GPIO_CFG_INT_LVL_HI then
             b ← gpio_test_bit (in_ g) pin;
             if nz b then int_update g irqgrp (λ row, gpio_int_set_bit row pin) else Some g
           else if Z.land cfg VF_GPIO_CFG_MASK =? VF_GPIO_CFG_INT_LVL_LO then
             b ← gpio_test_bit (in_ g) pin;
             if negb (nz b) then int_update g irqgrp (λ row, gpio_int_set_bit row pin) else Some g
           else Some g);
      gpio_raise_irq g irqgrp.

Definition gpio_update_pincfg (g : vf_apple_gpio_v1) (pin value : Z) : option vf_apple_gpio_v1 :=
  if npins g <=? pin then Some g
  else
    g ← gpio_update_level_pending g pin value;
    l ← arr_set (gpio_cfg g) pin value;
    Some (gpio_drive_out (g <| gpio_cfg := l |>) pin value).

(** The switch of [gpio_apply_input_irq]: whether the pin's pending bit is to be
    set.  [old] is read only where the code reads it. *)
Definition input_fires (g : vf_apple_gpio_v1) (pin cfg level : Z) : option bool :=
  let mode := Z.land cfg VF_GPIO_CFG_MASK in
  if (mode =? VF_GPIO_CFG_GP_IN) || (mode =? VF_GPIO_CFG_GP_OUT) then Some false
  else if mode =? VF_GPIO_CFG_INT_LVL_HI then Some (nz level)
  else if mode =? VF_GPIO_CFG_INT_LVL_LO then Some (negb (nz level))
  else if mode =? VF_GPIO_CFG_INT_EDG_RIS then
    old ← gpio_test_bit (old_in g) pin; Some (negb (nz old) && nz level)
  else if mode =? VF_GPIO_CFG_INT_EDG_FAL then
    old ← gpio_test_bit (old_in g) pin; Some (nz old && negb (nz level))
  else if mode =? VF_GPIO_CFG_INT_EDG_ANY then
    old ← gpio_test_bit (old_in g) pin; Some (negb (old =? level))
  else Some false.

Definition gpio_apply_input_irq (g : vf_apple_gpio_v1) (pin level : Z) : option vf_apple_gpio_v1 :=
  if npins g <=? pin then Some g
  else
    words ← (if nz level then gpio_set_bit (in_ g) pin else gpio_clear_bit (in_ g) pin);
    let g : vf_apple_gpio_v1 := g <| in_ := words |> in
    cfg ← arr_get (gpio_cfg g) pin;
    let irqgrp := Z.shiftr (Z.land cfg VF_GPIO_INT_MASKED) VF_GPIO_INTR_GRP_SHIFT in
    let live := negb (Z.land cfg VF_GPIO_INT_MASKED =? VF_GPIO_INT_MASKED)
                && (irqgrp <? nirqgrps g) in
    g ← (if live then
           b ← input_fires g pin cfg level;
           if (b : bool) then int_update g irqgrp (λ row, gpio_int_set_bit row pin) else Some g
         else Some g);
    x ← arr_get (in_ g) (Z.shiftr pin 5);
    l ← arr_set (old_in g) (Z.shiftr pin 5) x;
    let g : vf_apple_gpio_v1 := g <| old_in := l |> in
    if live then gpio_raise_irq g irqgrp else Some g.

Definition gpio_cfg_index (off : Z) : option Z :=
  if (off <? VF_GPIO_REG_CFG 0) || (VF_GPIO_REG_CFG (VF_GPIO_MAX_PIN_NR - 1) <? off) then None
  else Some (Z.shiftr (u32 (off - VF_GPIO_REG_CFG 0)) 2).

Definition gpio_int_index (off : Z) : option (Z * Z) :=
  if (off <? VF_GPIO_REG_INT 0 0)
     || (VF_GPIO_REG_INT VF_GPIO_MAX_INT_GRP_NR (VF_GPIO_MAX_PIN_NR - 1) <? off) then None
  else
    let rel := u32 (off - VF_GPIO_REG_INT 0 0) in
    Some (Z.shiftr rel 6, Z.shiftr (Z.land rel 0x3f) 2).

(** [for (i = 0; i < n; i++) a[i] = x;] *)
Fixpoint fill {A} (n : nat) (x : A) (i : Z) (a : list A) : option (list A) :=
  match n with O => Some a | S n => l ← arr_set a i x; fill n x (i + 1) l end.

(** The loop over the groups, [n] groups from [grp] on. *)
Fixpoint clear_groups (n : nat) (words grp : Z) (c : list (list Z)) : option (list (list Z)) :=
  match n with
  | O => Some c
  | S n =>
    row ← arr_get c grp;
    row' ← fill (Z.to_nat (Z.min words VF_GPIO_INT_WORDS)) 0 0 row;
    c' ← arr_set c grp row';
    clear_groups n words (grp + 1) c'
  end.

(** The configuration words beyond [npins] and the pending words beyond the
    cleared ones are left as they are, as are the call logs. *)
Definition vf_apple_gpio_init (g : ptr vf_apple_gpio_v1) (pins grps ph : Z) (out_fn irq_fn : bool) :
    option (Z * ptr vf_apple_gpio_v1) :=
  with_obj (-1) g (λ g,
    if (pins =? 0) || (VF_GPIO_MAX_PIN_NR <=? pins) || (grps =? 0)
       || (VF_GPIO_MAX_INT_GRP_NR <? grps) then Some (-1, g)
    else
      cfg ← fill (Z.to_nat pins) VF_GPIO_CFG_DISABLED 0 (gpio_cfg g);
      c ← clear_groups (Z.to_nat grps) (gpio_int_words pins) 0 (int_cfg g);
      Some (0, g <| npins := pins |> <| nirqgrps := grps |> <| phandle := ph |> <| out := out_fn |>
                 <| irq := irq_fn |> <| npl := 0 |> <| gpio_cfg := cfg |> <| int_cfg := c |>
                 <| in_ := replicate 16 0 |> <| old_in := replicate 16 0 |>)).

Definition vf_apple_gpio_set_in (g : ptr vf_apple_gpio_v1) (pin level : Z) :
    option (Z * ptr vf_apple_gpio_v1) :=
  with_obj (-1) g (λ g,
    if npins g <=? pin then Some (-1, g)
    else g ← gpio_apply_input_irq g pin (b2z (nz level)); Some (0, g)).

Definition vf_apple_gpio_irq_asserted (g : ptr vf_apple_gpio_v1) (group : Z) : option bool :=
  match g with
  | None => Some false
  | Some g => if nirqgrps g <=? group then Some false else gpio_group_active g group
  end.

Definition vf_apple_gpio_read (g : ptr vf_apple_gpio_v1) (off width : Z) (value : bool) :
    option (rd_result * ptr vf_apple_gpio_v1) :=
  with_obj (-1, None) g (λ g,
    if negb value || negb (gpio_width_ok off width) then Some ((-1, None), g)
    else match gpio_cfg_index off with
    | Some pin =>
      if npins g <=? pin then Some ((0, Some 0), g)
      else
        cfg ← arr_get (gpio_cfg g) pin;
        if (Z.land cfg VF_GPIO_FUNC_MASK =? VF_GPIO_FUNC_GPIO)
           && (Z.land cfg VF_GPIO_CFG_MASK =? VF_GPIO_CFG_GP_IN) then
          let cfg := Z.land cfg (bnot 32 VF_GPIO_DATA_1) in
          b ← gpio_test_bit (in_ g) pin;
          Some ((0, Some (if nz b then Z.lor cfg VF_GPIO_DATA_1 else cfg)), g)
        else Some ((0, Some cfg), g)
    | None =>
      match gpio_int_index off with
      | Some (group, word) =>
        if (nirqgrps g <=? group) || (VF_GPIO_INT_WORDS <=? word) then Some ((0, Some 0), g)
        else row ← arr_get (int_cfg g) group; x ← arr_get row word; Some ((0, Some x), g)
      | None =>
        if off =? VF_GPIO_REG_NPL_IN_EN then Some ((0, Some (npl g)), g)
        else Some ((0, Some 0), g)
      end
    end).

Definition vf_apple_gpio_write (g : ptr vf_apple_gpio_v1) (off width value : Z) :
    option (Z * ptr vf_apple_gpio_v1) :=
  with_obj (-1) g (λ g,
    if negb (gpio_width_ok off width) then Some (-1, g)
    else match gpio_cfg_index off with
    | Some pin =>
      if npins g <=? pin then Some (0, g)
      else g ← gpio_update_pincfg g pin value; Some (0, g)
    | None =>
      match gpio_int_index off with
      | Some (group, word) =>
        if (nirqgrps g <=? group) || (VF_GPIO_INT_WORDS <=? word) then Some (0, g)
        else
          g ← int_update g group (λ row,
                x ← arr_get row word; arr_set row word (Z.land x (bnot 32 value)));
          g ← gpio_raise_irq g group;
          Some (0, g)
      | None => Some (-1, g)
      end
    end).

(** ** Bits of a word array *)

Definition wbit (words : list Z) (w b : Z) : bool :=
  match arr_get words w with Some x => Z.testbit x b | None => false end.

Lemma land_31 pin : Z.land pin 31 = pin mod 32.
Proof. apply (Z.land_ones pin 5). lia. Qed.

Lemma shiftr_5 pin : Z.shiftr pin 5 = pin / 32.
Proof. by rewrite Z.shiftr_div_pow2. Qed.

(** Both array updates, with the bits before and after. *)
Lemma word_update words w pin (f : Z → Z) (keep : bool → bool) :
  0 ≤ w < Z.of_nat (length words) → Forall (fits 32) words → 0 ≤ pin →
  (∀ x, fits 32 x → fits 32 (f x) ∧
     ∀ b, 0 ≤ b < 32 → Z.testbit (f x) b = if decide (b = pin mod 32) then keep (Z.testbit x b)
       else Z.testbit x b) →
  ∃ l, (x ← arr_get words w; arr_set words w (f x)) = Some l ∧ length l = length words ∧
    Forall (fits 32) l ∧ (∃ x, l = <[Z.to_nat w := x]> words) ∧
    ∀ w' b, 0 ≤ b < 32 → wbit l w' b =
      if decide (w' = w ∧ b = pin mod 32) then keep (wbit words w' b) else wbit words w' b.
Proof.
  intros Hw Hf Hpin Hop. destruct (arr_get_lt words w Hw) as [x Hx]. rewrite Hx. cbn [mbind option_bind].
  rewrite arr_set_lt by done. eexists. split; [done|]. split; [by rewrite length_insert|].
  destruct (Hop x) as [Hfx Hbits]; [by eapply arr_get_Forall|]. split; [by apply Forall_insert|].
  split; [by eexists|].
  intros w' b Hb. unfold wbit. destruct (decide (w' = w)) as [->|Hne].
  - rewrite arr_get_insert_eq, Hx by done. rewrite Hbits by done.
    repeat case_decide; try done; tauto.
  - rewrite arr_get_insert_ne by lia. rewrite decide_False by tauto. done.
Qed.

Lemma set_bit_spec words w pin :
  0 ≤ w < Z.of_nat (length words) → Forall (fits 32) words → 0 ≤ pin →
  ∃ l, set_bit_at words w pin = Some l ∧ length l = length words ∧ Forall (fits 32) l ∧
    (∃ x, l = <[Z.to_nat w := x]> words) ∧
    ∀ w' b, 0 ≤ b < 32 → wbit l w' b =
      if decide (w' = w ∧ b = pin mod 32) then true else wbit words w' b.
Proof.
  intros Hw Hf Hpin. apply (word_update words w pin (λ x, Z.lor x (Z.shiftl 1 (Z.land pin 31))) (λ _, true));
    [done..|]. intros x Hx. rewrite land_31. split; [apply fits_lor; [lia|done|apply fits_bit; dlia]|].
  intros b Hb. rewrite lor_bit_testbit by dlia. case_decide.
  - by rewrite bool_decide_true, orb_true_r.
  - by rewrite bool_decide_false, orb_false_r.
Qed.

Lemma clear_bit_spec words w pin :
  0 ≤ w < Z.of_nat (length words) → Forall (fits 32) words → 0 ≤ pin →
  ∃ l, clear_bit_at words w pin = Some l ∧ length l = length words ∧ Forall (fits 32) l ∧
    (∃ x, l = <[Z.to_nat w := x]> words) ∧
    ∀ w' b, 0 ≤ b < 32 → wbit l w' b =
      if decide (w' = w ∧ b = pin mod 32) then false else wbit words w' b.
Proof.
  intros Hw Hf Hpin.
  apply (word_update words w pin (λ x, Z.land x (bnot 32 (Z.shiftl 1 (Z.land pin 31)))) (λ _, false));
    [done..|]. intros x Hx. rewrite land_31. split; [width|].
  intros b Hb. rewrite land_bnot_bit_testbit by (done || dlia). case_decide.
  - by rewrite bool_decide_false, andb_false_r by tauto.
  - by rewrite bool_decide_true, andb_true_r.
Qed.

Lemma test_bit_spec words pin :
  0 ≤ pin < 32 * Z.of_nat (length words) →
  gpio_test_bit words pin = Some (b2z (wbit words (pin / 32) (pin mod 32))).
Proof.
  intros Hp. unfold gpio_test_bit, wbit. rewrite land_31, shiftr_5.
  destruct (arr_get_lt words (pin / 32)) as [x ->]; [dlia|]. cbn [mbind option_bind]. f_equal.
  change 1 with (Z.ones 1). rewrite Z.land_ones, <- Z.bit0_mod, Z.shiftr_spec by lia.
  rewrite Z.add_0_l. by destruct (Z.testbit x _).
Qed.

(** ** Invariant *)

(** What the C types guarantee of any object. *)
Record gpio_shape (g : vf_apple_gpio_v1) : Prop := {
  ok_cfg_len : Z.of_nat (length (gpio_cfg g)) = 512;
  ok_cfg : Forall (fits 32) (gpio_cfg g);
  ok_int_len : length (int_cfg g) = 7%nat;
  ok_rows_len : Forall (λ row, length row = 16%nat) (int_cfg g);
  ok_rows : Forall (Forall (fits 32)) (int_cfg g);
  ok_in_len : length (in_ g) = 16%nat;
  ok_in : Forall (fits 32) (in_ g);
  ok_old_len : length (old_in g) = 16%nat;
  ok_old : Forall (fits 32) (old_in g);
  ok_npl : fits 32 (npl g);
}.

(** The pending-word index of every pin is in range up to pin 480. *)
Definition safe_pins := 481.

Record gpio_ok (g : vf_apple_gpio_v1) : Prop := {
  ok_shape : gpio_shape g;
  ok_npins : 1 ≤ npins g ≤ safe_pins;
  ok_grps : 1 ≤ nirqgrps g ≤ VF_GPIO_MAX_INT_GRP_NR;
  ok_sampled : old_in g = in_ g;
}.

Lemma int_word_div pin : 0 ≤ pin < 512 → gpio_int_word pin = (pin + 31) / 32.
Proof. intros. unfold gpio_int_word. by rewrite wrap_id, shiftr_5 by (unfold fits; lia). Qed.

Lemma int_word_bounds pin : 0 ≤ pin < safe_pins → 0 ≤ gpio_int_word pin < 16.
Proof. unfold safe_pins. intros. rewrite int_word_div by lia. dlia. Qed.

(** The pending bit of a pin is its own. *)
Lemma int_slot_inj p q :
  0 ≤ p < 512 → 0 ≤ q < 512 → gpio_int_word p = gpio_int_word q → p mod 32 = q mod 32 → p = q.
Proof. intros Hp Hq. rewrite !int_word_div by done. intros H1 H2. dlia. Qed.

Lemma int_words_bound g : gpio_ok g → 0 ≤ gpio_int_words (npins g) ≤ 16.
Proof.
  intros Hg. pose proof (ok_npins g Hg) as Hn. unfold safe_pins in Hn. unfold gpio_int_words.
  tests. rewrite (wrap_id 32 (npins g - 1)) by (unfold fits; lia).
  pose proof (int_word_bounds (npins g - 1)) as Hw. unfold safe_pins in Hw.
  rewrite wrap_id by (unfold fits; lia). lia.
Qed.

Lemma group_row g grp :
  gpio_shape g → 0 ≤ grp < 7 →
  ∃ row, arr_get (int_cfg g) grp = Some row ∧ length row = 16%nat ∧ Forall (fits 32) row.
Proof.
  intros Hg Hgrp. destruct (arr_get_lt (int_cfg g) grp) as [row Hrow].
  { rewrite (ok_int_len g Hg). lia. }
  exists row. split; [done|]. split.
  - exact (arr_get_Forall _ _ _ _ (ok_rows_len g Hg) Hrow).
  - exact (arr_get_Forall _ _ _ _ (ok_rows g Hg) Hrow).
Qed.

Definition slot (g : vf_apple_gpio_v1) (grp w b : Z) : bool :=
  match arr_get (int_cfg g) grp with Some row => wbit row w b | None => false end.

(** Pin [pin] is pending in group [grp]; the level last applied to a pin. *)
Definition pending (g : vf_apple_gpio_v1) (grp pin : Z) : bool :=
  slot g grp (gpio_int_word pin) (pin mod 32).
Definition input (g : vf_apple_gpio_v1) (pin : Z) : bool := wbit (in_ g) (pin / 32) (pin mod 32).

(** The components an update of the pending bits leaves alone. *)
Definition rest (g : vf_apple_gpio_v1) :=
  (npins g, nirqgrps g, gpio_cfg g, in_ g, old_in g, npl g, out g, irq g).

Lemma int_update_spec g grp f :
  gpio_shape g → 0 ≤ grp < 7 →
  (∀ row, length row = 16%nat → Forall (fits 32) row →
     ∃ row', f row = Some row' ∧ length row' = 16%nat ∧ Forall (fits 32) row') →
  ∃ g' row row', int_update g grp f = Some g' ∧ gpio_shape g' ∧ rest g' = rest g ∧
    irq_calls g' = irq_calls g ∧ out_calls g' = out_calls g ∧
    arr_get (int_cfg g) grp = Some row ∧ f row = Some row' ∧ arr_get (int_cfg g') grp = Some row' ∧
    ∀ grp', grp' ≠ grp → arr_get (int_cfg g') grp' = arr_get (int_cfg g) grp'.
Proof.
  intros Hg Hgrp Hf. destruct (group_row g grp Hg Hgrp) as (row & Hrow & Hlen & Hfit).
  destruct (Hf row Hlen Hfit) as (row' & Hf' & Hlen' & Hfit').
  unfold int_update. rewrite Hrow. cbn [mbind option_bind]. rewrite Hf'. cbn [mbind option_bind].
  assert (Hb : 0 ≤ grp < Z.of_nat (length (int_cfg g))) by (rewrite (ok_int_len g Hg); lia).
  rewrite arr_set_lt by done. cbn [mbind option_bind]. eexists _, row, row'. split; [done|].
  split.
  { destruct Hg. constructor; cbn; try done; try by apply Forall_insert. by rewrite length_insert. }
  split_and!; try done; cbn.
  - by rewrite arr_get_insert_eq.
  - intros grp' Hne. by rewrite arr_get_insert_ne by lia.
Qed.

(** ** Interrupt output *)

Lemma any_pending_spec n row w :
  0 ≤ w → w + Z.of_nat n ≤ Z.of_nat (length row) →
  any_pending n row w = Some (existsb nz (take n (drop (Z.to_nat w) row))).
Proof.
  revert w. induction n as [|n IH]; intros w Hw Hlen; [done|]. cbn [any_pending].
  destruct (arr_get_lt row w) as [x Hx]; [lia|]. rewrite Hx. cbn [mbind option_bind].
  assert (Hd : drop (Z.to_nat w) row = x :: drop (Z.to_nat (w + 1)) row).
  { unfold arr_get in Hx. rewrite bool_decide_true in Hx by done.
    replace (Z.to_nat (w + 1)) with (S (Z.to_nat w)) by lia. by rewrite (drop_S _ x). }
  rewrite Hd. cbn. rewrite IH by lia. by destruct (nz x).
Qed.

(** Whether any implemented pending word of the group is non-zero. *)
Definition asserted (g : vf_apple_gpio_v1) (grp : Z) : bool :=
  match arr_get (int_cfg g) grp with
  | Some row => existsb nz (take (Z.to_nat (gpio_int_words (npins g))) row)
  | None => false
  end.

Lemma group_active_spec g grp :
  gpio_ok g → 0 ≤ grp < nirqgrps g → gpio_group_active g grp = Some (asserted g grp).
Proof.
  intros Hg Hgrp. pose proof (ok_grps g Hg) as Hn. unfold VF_GPIO_MAX_INT_GRP_NR in Hn.
  pose proof (int_words_bound g Hg) as Hw. unfold gpio_group_active, asserted. tests.
  destruct (group_row g grp (ok_shape g Hg)) as (row & -> & Hlen & _); [lia|]. cbn [mbind option_bind].
  by rewrite any_pending_spec by lia.
Qed.

(** Only the call log changes. *)
Lemma raise_irq_spec g grp :
  gpio_ok g → 0 ≤ grp < nirqgrps g →
  ∃ g', gpio_raise_irq g grp = Some g' ∧ gpio_ok g' ∧ rest g' = rest g ∧ int_cfg g' = int_cfg g ∧
    irq_calls g' = irq_calls g ++ (if irq g then [(grp, asserted g grp)] else []) ∧
    out_calls g' = out_calls g.
Proof.
  intros Hg Hgrp. unfold gpio_raise_irq. destruct (irq g).
  - rewrite group_active_spec by done. cbn [mbind option_bind]. eexists. split; [done|].
    split_and!; try done. destruct Hg as [[] ???]. by constructor.
  - exists g. rewrite app_nil_r. by split_and!.
Qed.

(** The interrupt group of a configuration word. *)
Definition cfg_group (cfg : Z) : Z := Z.shiftr (Z.land cfg VF_GPIO_INT_MASKED) VF_GPIO_INTR_GRP_SHIFT.
Definition cfg_live (g : vf_apple_gpio_v1) (cfg : Z) : bool :=
  negb (Z.land cfg VF_GPIO_INT_MASKED =? VF_GPIO_INT_MASKED) && (cfg_group cfg <? nirqgrps g).

Lemma cfg_group_nonneg cfg : fits 32 cfg → 0 ≤ cfg_group cfg.
Proof.
  intros Hc. apply (fits_nonneg 32). apply fits_shiftr; [lia|done|]. by apply fits_land_l.
Qed.

(** ** A changed input level *)

(** When an input mode turns a level change into a pending interrupt. *)
Definition fires (mode : Z) (old new : bool) : bool :=
  if mode =? 2 then new
  else if mode =? 3 then negb new
  else if mode =? 4 then negb old && new
  else if mode =? 5 then old && negb new
  else if mode =? 6 then xorb old new
  else false.

Definition cfg_mode (cfg : Z) : Z := Z.shiftr cfg 1 mod 8.

Lemma cfg_mode_mask cfg : Z.land cfg VF_GPIO_CFG_MASK = 2 * cfg_mode cfg.
Proof.
  unfold cfg_mode, VF_GPIO_CFG_MASK. change 8 with (2 ^ 3). rewrite <- Z.land_ones by lia.
  replace (2 * Z.land (Z.shiftr cfg 1) (Z.ones 3))
    with (Z.shiftl (Z.land (Z.shiftr cfg 1) (Z.ones 3)) 1) by (rewrite Z.shiftl_mul_pow2; lia).
  apply Z.bits_inj'. intros i Hi. rewrite Z.land_spec, !Z.shiftl_spec by lia.
  destruct (decide (i = 0)) as [->|Hne].
  { rewrite !(Z.testbit_neg_r _ (0 - 1)) by lia. apply andb_false_r. }
  rewrite Z.land_spec, Z.shiftr_spec by lia. replace (i - 1 + 1) with i by lia.
  by change 7 with (Z.ones 3).
Qed.

Lemma input_fires_spec g pin cfg level :
  gpio_shape g → 0 ≤ pin < 512 →
  input_fires g pin cfg (b2z level) =
    Some (fires (cfg_mode cfg) (wbit (old_in g) (pin / 32) (pin mod 32)) level).
Proof.
  intros Hg Hp. unfold input_fires, fires. rewrite cfg_mode_mask, nz_b2z.
  rewrite test_bit_spec by (rewrite (ok_old_len g Hg); lia). cbn [mbind option_bind].
  set (m := cfg_mode cfg). assert (Hm : 0 ≤ m < 8) by (apply Z.mod_pos_bound; lia).
  unfold VF_GPIO_CFG_GP_IN, VF_GPIO_CFG_GP_OUT, VF_GPIO_CFG_INT_LVL_HI, VF_GPIO_CFG_INT_LVL_LO,
    VF_GPIO_CFG_INT_EDG_RIS, VF_GPIO_CFG_INT_EDG_FAL, VF_GPIO_CFG_INT_EDG_ANY.
  change (Z.shiftl 0 1) with 0. change (Z.shiftl 1 1) with 2. change (Z.shiftl 2 1) with 4.
  change (Z.shiftl 3 1) with 6. change (Z.shiftl 4 1) with 8. change (Z.shiftl 5 1) with 10.
  change (Z.shiftl 6 1) with 12.
  assert (m = 0 ∨ m = 1 ∨ m = 2 ∨ m = 3 ∨ m = 4 ∨ m = 5 ∨ m = 6 ∨ m = 7) as Hc by lia.
  destruct Hc as [->|[->|[->|[->|[->|[->|[->| ->]]]]]]]; tests; rewrite ?nz_b2z; try done.
  f_equal. by destruct (wbit _ _ _), level.
Qed.

(** Setting a pending bit, or not. *)
Lemma mark_spec g grp pin (b : bool) :
  gpio_shape g → 0 ≤ grp < 7 → 0 ≤ pin < safe_pins →
  ∃ g', (if b then int_update g grp (λ row, gpio_int_set_bit row pin) else Some g) = Some g' ∧
    gpio_shape g' ∧ rest g' = rest g ∧ irq_calls g' = irq_calls g ∧ out_calls g' = out_calls g ∧
    ∀ grp' p, 0 ≤ p < 512 →
      pending g' grp' p = pending g grp' p || (bool_decide (grp' = grp ∧ p = pin) && b).
Proof.
  intros Hg Hgrp Hpin. pose proof (int_word_bounds pin Hpin) as Hw. unfold safe_pins in Hpin.
  destruct b.
  2:{ exists g. split_and!; try done. intros. by rewrite andb_false_r, orb_false_r. }
  destruct (int_update_spec g grp (λ row, gpio_int_set_bit row pin))
    as (g' & row & row' & Hup & Hs & Hr & Hi & Ho & Hrow & Hf & Hrow' & Hoth); [done|done| |].
  { intros row Hlen Hfit. destruct (set_bit_spec row (gpio_int_word pin) pin) as (l & Hl & H1 & H2 & _);
      [lia|done|lia|]. exists l. by rewrite H1. }
  exists g'. split_and!; try done. intros grp' p Hp. rewrite andb_true_r. unfold pending, slot.
  destruct (decide (grp' = grp)) as [->|Hne].
  2:{ rewrite Hoth by done. by rewrite bool_decide_false, orb_false_r by tauto. }
  rewrite Hrow, Hrow'. destruct (group_row g grp Hg Hgrp) as (row2 & Hrow2 & Hlen & Hfit).
  rewrite Hrow in Hrow2. injection Hrow2 as <-.
  destruct (set_bit_spec row (gpio_int_word pin) pin) as (l & Hl & _ & _ & _ & Hb); [lia|done|lia|].
  cbv beta in Hf. unfold gpio_int_set_bit in Hf. rewrite Hl in Hf. injection Hf as <-.
  rewrite Hb by dlia. case_decide as Hc.
  - destruct Hc as [Hc1 Hc2]. rewrite bool_decide_true, orb_true_r; [done|]. split; [done|].
    apply int_slot_inj; [done|lia|done|done].
  - rewrite bool_decide_false, orb_false_r; [done|]. intros [_ ->]. by apply Hc.
Qed.

(** Sampling the changed word makes the previous levels the current ones. *)
Lemma sample_word (old l words : list Z) k x v :
  old = words → l = <[Z.to_nat k := x]> words → arr_get l k = Some v →
  <[Z.to_nat k := v]> old = l.
Proof.
  intros -> -> Hv. pose proof (arr_get_Some _ _ _ Hv) as Hk. rewrite length_insert in Hk.
  rewrite arr_get_insert_eq in Hv by done. by injection Hv as ->.
Qed.

Lemma apply_input_spec g pin level :
  gpio_ok g → 0 ≤ pin < npins g →
  ∃ g' cfg, gpio_apply_input_irq g pin (b2z level) = Some g' ∧ gpio_ok g' ∧
    arr_get (gpio_cfg g) pin = Some cfg ∧
    npins g' = npins g ∧ nirqgrps g' = nirqgrps g ∧ gpio_cfg g' = gpio_cfg g ∧
    (∀ p, 0 ≤ p → input g' p = if decide (p = pin) then level else input g p) ∧
    (∀ grp p, 0 ≤ p < npins g → pending g' grp p =
       pending g grp p || (bool_decide (grp = cfg_group cfg ∧ p = pin) && cfg_live g cfg
         && fires (cfg_mode cfg) (input g pin) level)) ∧
    irq_calls g' = irq_calls g ++
      (if irq g && cfg_live g cfg then [(cfg_group cfg, asserted g' (cfg_group cfg))] else []).
Proof.
  intros Hg Hp. pose proof (ok_npins g Hg) as Hn. unfold safe_pins in Hn.
  pose proof (ok_shape g Hg) as Hs. pose proof (ok_in_len g Hs) as Hil.
  unfold gpio_apply_input_irq. tests. rewrite nz_b2z.
  assert (Hpw : 0 ≤ Z.shiftr pin 5 < Z.of_nat (length (in_ g))) by (rewrite shiftr_5, Hil; dlia).
  assert (Hwords : ∃ l, (if level then gpio_set_bit (in_ g) pin else gpio_clear_bit (in_ g) pin) = Some l ∧
    length l = length (in_ g) ∧ Forall (fits 32) l ∧ (∃ x, l = <[Z.to_nat (Z.shiftr pin 5) := x]> (in_ g)) ∧
    ∀ w' b, 0 ≤ b < 32 → wbit l w' b =
      if decide (w' = Z.shiftr pin 5 ∧ b = pin mod 32) then level else wbit (in_ g) w' b).
  { destruct level; [apply set_bit_spec|apply clear_bit_spec]; done || lia || apply (ok_in g Hs). }
  destruct Hwords as (l & -> & Hl & Hlf & [x0 Hlx] & Hlb). cbn [mbind option_bind]. cbv zeta. cbn.
  destruct (arr_get_lt (gpio_cfg g) pin) as [cfg Hcfg]; [rewrite (ok_cfg_len g Hs); lia|].
  rewrite Hcfg. cbn [mbind option_bind]. fold (cfg_group cfg). fold (cfg_live g cfg).
  assert (Hcf : fits 32 cfg) by (by eapply arr_get_Forall; [apply (ok_cfg g Hs)|]).
  set (g1 := g <| in_ := l |>). assert (Hs1 : gpio_shape g1).
  { destruct Hs. constructor; cbn; try done. congruence. }
  assert (Hlive : cfg_live g cfg = true → 0 ≤ cfg_group cfg < nirqgrps g).
  { pose proof (cfg_group_nonneg cfg Hcf). unfold cfg_live. lia. }
  pose proof (ok_grps g Hg) as Hgr. unfold VF_GPIO_MAX_INT_GRP_NR in Hgr.
  assert (Hmid : ∃ g2, (if cfg_live g cfg then b ← input_fires g1 pin cfg (b2z level);
       if (b : bool) then int_update g1 (cfg_group cfg) (λ row, gpio_int_set_bit row pin) else Some g1
     else Some g1) = Some g2 ∧ gpio_shape g2 ∧ rest g2 = rest g1 ∧ irq_calls g2 = irq_calls g ∧
     ∀ grp' p, 0 ≤ p < 512 → pending g2 grp' p = pending g grp' p ||
       (bool_decide (grp' = cfg_group cfg ∧ p = pin) && cfg_live g cfg
        && fires (cfg_mode cfg) (input g pin) level)).
  { destruct (cfg_live g cfg) eqn:El.
    - rewrite input_fires_spec by (done || lia). cbn [mbind option_bind].
      destruct (mark_spec g1 (cfg_group cfg) pin (fires (cfg_mode cfg)
        (wbit (old_in g1) (pin / 32) (pin mod 32)) level)) as (g2 & H1 & H2 & H3 & H4 & _ & H5);
        [done|specialize (Hlive eq_refl); lia|unfold safe_pins; lia|].
      exists g2. split_and!; try done. intros grp' p Hp'. rewrite H5 by done. rewrite andb_true_r.
      unfold input. by rewrite <- (ok_sampled g Hg).
    - exists g1. split_and!; try done. intros. by rewrite andb_false_r, orb_false_r. }
  destruct Hmid as (g2 & -> & Hs2 & Hr2 & Hi2 & Hp2). cbn [mbind option_bind].
  unfold rest in Hr2. injection Hr2 as Rn Rg Rc Ri Ro Rp Rout Rirq. cbn in Ri.
  rewrite Ri, Ro. destruct (arr_get_lt l (Z.shiftr pin 5)) as [v Hv]; [by rewrite Hl|].
  rewrite Hv. cbn [mbind option_bind]. rewrite arr_set_lt by
    (change (old_in g1) with (old_in g); rewrite (ok_old_len g Hs); rewrite Hil in Hpw; done).
  cbn [mbind option_bind]. rewrite (sample_word (old_in g) l (in_ g) _ x0 v (ok_sampled g Hg) Hlx Hv).
  set (g3 := g2 <| old_in := l |>). assert (Hg3 : gpio_ok g3).
  { constructor; cbn; [|rewrite Rn; exact (ok_npins g Hg)|rewrite Rg; exact (ok_grps g Hg)|by rewrite Ri].
    destruct Hs2. constructor; cbn; try done. congruence. }
  assert (Hend : ∃ g', (if cfg_live g cfg then gpio_raise_irq g3 (cfg_group cfg) else Some g3) = Some g' ∧
    gpio_ok g' ∧ rest g' = rest g3 ∧ int_cfg g' = int_cfg g2 ∧ irq_calls g' = irq_calls g ++
      (if irq g && cfg_live g cfg then [(cfg_group cfg, asserted g' (cfg_group cfg))] else [])).
  { destruct (cfg_live g cfg).
    - destruct (raise_irq_spec g3 (cfg_group cfg) Hg3) as (g' & H1 & H2 & H3 & H4 & H5 & _);
        [specialize (Hlive eq_refl); cbn; rewrite Rg; exact Hlive|].
      exists g'. split_and!; try done. rewrite H5, andb_true_r. unfold asserted. rewrite H4.
      assert (npins g' = npins g3) as -> by (unfold rest in H3; congruence). cbn. by rewrite Hi2, Rirq.
    - exists g3. rewrite andb_false_r, app_nil_r. by split_and!. }
  destruct Hend as (g' & -> & Hok & Hr' & Hint & Hcalls). unfold rest in Hr'.
  injection Hr' as Sn Sg Sc Si So Sp Sout Sirq. cbn in *.
  exists g', cfg. split; [done|]. split; [done|]. split; [done|].
  split_and!; [congruence|congruence|congruence| | |done].
  - intros p Hp0. unfold input. rewrite Si, Ri, Hlb by dlia. rewrite shiftr_5.
    repeat case_decide; try done; subst; try tauto. exfalso. dlia.
  - intros grp p Hp0. rewrite <- Hp2 by lia. unfold pending, slot. by rewrite Hint.
Qed.

(** ** Writes *)

Lemma unmark_spec g grp pin :
  gpio_shape g → 0 ≤ grp < 7 → 0 ≤ pin < safe_pins →
  ∃ g', int_update g grp (λ row, gpio_int_clear_bit row pin) = Some g' ∧
    gpio_shape g' ∧ rest g' = rest g ∧ irq_calls g' = irq_calls g ∧ out_calls g' = out_calls g ∧
    ∀ grp' p, 0 ≤ p < 512 →
      pending g' grp' p = pending g grp' p && negb (bool_decide (grp' = grp ∧ p = pin)).
Proof.
  intros Hg Hgrp Hpin. pose proof (int_word_bounds pin Hpin) as Hw. unfold safe_pins in Hpin.
  destruct (int_update_spec g grp (λ row, gpio_int_clear_bit row pin))
    as (g' & row & row' & Hup & Hs & Hr & Hi & Ho & Hrow & Hf & Hrow' & Hoth); [done|done| |].
  { intros row Hlen Hfit. destruct (clear_bit_spec row (gpio_int_word pin) pin) as (l & Hl & H1 & H2 & _);
      [lia|done|lia|]. exists l. by rewrite H1. }
  exists g'. split_and!; try done. intros grp' p Hp. unfold pending, slot.
  destruct (decide (grp' = grp)) as [->|Hne].
  2:{ rewrite Hoth by done. by rewrite bool_decide_false, andb_true_r by tauto. }
  rewrite Hrow, Hrow'. destruct (group_row g grp Hg Hgrp) as (row2 & Hrow2 & Hlen & Hfit).
  rewrite Hrow in Hrow2. injection Hrow2 as <-.
  destruct (clear_bit_spec row (gpio_int_word pin) pin) as (l & Hl & _ & _ & _ & Hb); [lia|done|lia|].
  cbv beta in Hf. unfold gpio_int_clear_bit in Hf. rewrite Hl in Hf. injection Hf as <-.
  rewrite Hb by dlia. case_decide as Hc.
  - destruct Hc as [Hc1 Hc2]. rewrite bool_decide_true, andb_false_r; [done|]. split; [done|].
    apply int_slot_inj; [done|lia|done|done].
  - rewrite bool_decide_false, andb_true_r; [done|]. intros [_ ->]. by apply Hc.
Qed.

Lemma rest_ok g g' :
  gpio_ok g → gpio_shape g' → rest g' = rest g → gpio_ok g'.
Proof.
  intros [] Hs Hr. unfold rest in Hr. injection Hr as Sn Sg Sc Si So Sp Sout Sirq.
  by constructor; [|rewrite Sn|rewrite Sg|rewrite So, Si].
Qed.

(** The pending bit a configuration word starts with: the level condition. *)
Definition level_pending (cfg : Z) (level : bool) : bool :=
  ((cfg_mode cfg =? 2) && level) || ((cfg_mode cfg =? 3) && negb level).

Lemma level_pending_spec g pin cfg :
  gpio_ok g → 0 ≤ pin < npins g → fits 32 cfg →
  ∃ g', gpio_update_level_pending g pin cfg = Some g' ∧ gpio_ok g' ∧ rest g' = rest g ∧
    out_calls g' = out_calls g ∧
    (∀ grp p, 0 ≤ p < 512 → pending g' grp p =
       if bool_decide (grp = cfg_group cfg ∧ p = pin) && cfg_live g cfg
       then level_pending cfg (input g pin) else pending g grp p) ∧
    irq_calls g' = irq_calls g ++
      (if irq g && cfg_live g cfg then [(cfg_group cfg, asserted g' (cfg_group cfg))] else []).
Proof.
  intros Hg Hp Hcf. pose proof (ok_npins g Hg) as Hn. pose proof (ok_shape g Hg) as Hs.
  pose proof (ok_grps g Hg) as Hgr. unfold VF_GPIO_MAX_INT_GRP_NR in Hgr. unfold safe_pins in Hn.
  pose proof (cfg_group_nonneg cfg Hcf) as Hgn.
  unfold gpio_update_level_pending. fold (cfg_group cfg). unfold cfg_live.
  destruct (Z.land cfg VF_GPIO_INT_MASKED =? VF_GPIO_INT_MASKED); cbn [negb andb].
  { exists g. split_and!; try done; [intros; by rewrite andb_false_r|].
    by rewrite andb_false_r, app_nil_r. }
  rewrite Z.ltb_antisym. destruct (nirqgrps g <=? cfg_group cfg) eqn:El; cbn [negb].
  { exists g. split_and!; try done; [intros; by rewrite andb_false_r|].
    by rewrite andb_false_r, app_nil_r. }
  destruct (unmark_spec g (cfg_group cfg) pin) as (g1 & -> & Hs1 & Hr1 & Hi1 & Ho1 & Hp1);
    [done|lia|unfold safe_pins; lia|]. cbn [mbind option_bind].
  pose proof (rest_ok g g1 Hg Hs1 Hr1) as Hg1.
  assert (Hin : in_ g1 = in_ g) by (unfold rest in Hr1; congruence).
  assert (Hmid : ∃ g2, (if Z.land cfg VF_GPIO_CFG_MASK =? VF_GPIO_CFG_INT_LVL_HI then
             b ← gpio_test_bit (in_ g1) pin;
             if nz b then int_update g1 (cfg_group cfg) (λ row, gpio_int_set_bit row pin) else Some g1
           else if Z.land cfg VF_GPIO_CFG_MASK =? VF_GPIO_CFG_INT_LVL_LO then
             b ← gpio_test_bit (in_ g1) pin;
             if negb (nz b) then int_update g1 (cfg_group cfg) (λ row, gpio_int_set_bit row pin)
             else Some g1
           else Some g1) = Some g2 ∧ gpio_shape g2 ∧ rest g2 = rest g1 ∧ irq_calls g2 = irq_calls g1 ∧
     out_calls g2 = out_calls g1 ∧ ∀ grp' p, 0 ≤ p < 512 → pending g2 grp' p = pending g1 grp' p ||
       (bool_decide (grp' = cfg_group cfg ∧ p = pin) && level_pending cfg (input g pin))).
  { rewrite test_bit_spec by (rewrite Hin, (ok_in_len g Hs); lia). cbn [mbind option_bind].
    rewrite cfg_mode_mask, Hin, nz_b2z. fold (input g pin). unfold level_pending.
    unfold VF_GPIO_CFG_INT_LVL_HI, VF_GPIO_CFG_INT_LVL_LO.
    change (Z.shiftl 2 1) with 4. change (Z.shiftl 3 1) with 6.
    replace (2 * cfg_mode cfg =? 4) with (cfg_mode cfg =? 2) by lia.
    replace (2 * cfg_mode cfg =? 6) with (cfg_mode cfg =? 3) by lia.
    assert (∀ b : bool, ∃ g2, (if b then int_update g1 (cfg_group cfg) (λ row, gpio_int_set_bit row pin)
      else Some g1) = Some g2 ∧ gpio_shape g2 ∧ rest g2 = rest g1 ∧ irq_calls g2 = irq_calls g1 ∧
      out_calls g2 = out_calls g1 ∧ ∀ grp' p, 0 ≤ p < 512 → pending g2 grp' p = pending g1 grp' p ||
        (bool_decide (grp' = cfg_group cfg ∧ p = pin) && b)) as Hmark
      by (intros b; apply mark_spec; [done|lia|unfold safe_pins; lia]).
    destruct (Z.eqb_spec (cfg_mode cfg) 2) as [Hm|Hm];
      [rewrite Hm|destruct (Z.eqb_spec (cfg_mode cfg) 3) as [Hm3|Hm3]].
    - destruct (Hmark (input g pin)) as (g2 & H). exists g2. change (2 =? 3) with false.
      by rewrite orb_false_r.
    - destruct (Hmark (negb (input g pin))) as (g2 & H). by exists g2.
    - destruct (Hmark false) as (g2 & H). by exists g2. }
  destruct Hmid as (g2 & -> & Hs2 & Hr2 & Hi2 & Ho2 & Hp2). cbn [mbind option_bind].
  assert (Hr02 : rest g2 = rest g) by congruence.
  pose proof (rest_ok g g2 Hg Hs2 Hr02) as Hg2.
  destruct (raise_irq_spec g2 (cfg_group cfg) Hg2) as (g' & -> & H2 & H3 & H4 & H5 & H6);
    [unfold rest in Hr02; injection Hr02; intros; lia|].
  exists g'. split_and!; [done|done|congruence|congruence| |].
  - intros grp p Hp0. unfold pending, slot in Hp1, Hp2 |- *. rewrite H4, Hp2, Hp1 by done.
    case_bool_decide; cbn; [by rewrite andb_false_r|]. by rewrite andb_true_r, orb_false_r.
  - rewrite H5, Hi2, Hi1, andb_true_r. f_equal.
    assert (irq g2 = irq g) as -> by (unfold rest in Hr02; congruence).
    unfold asserted. rewrite H4. assert (npins g' = npins g2) as -> by (unfold rest in H3; congruence).
    done.
Qed.

(** The level driven on the output callback by a configuration word. *)
Definition driven (cfg : Z) : Z :=
  if nz (Z.land cfg VF_GPIO_FUNC_MASK) then 1
  else if cfg_mode cfg =? 1 then b2z (Z.testbit cfg 0) else 1.

Lemma update_pincfg_spec g pin cfg :
  gpio_ok g → 0 ≤ pin < npins g → fits 32 cfg →
  ∃ g', gpio_update_pincfg g pin cfg = Some g' ∧ gpio_ok g' ∧
    gpio_cfg g' = <[Z.to_nat pin := cfg]> (gpio_cfg g) ∧ in_ g' = in_ g ∧
    npins g' = npins g ∧ nirqgrps g' = nirqgrps g ∧
    (∀ grp p, 0 ≤ p < 512 → pending g' grp p =
       if bool_decide (grp = cfg_group cfg ∧ p = pin) && cfg_live g cfg
       then level_pending cfg (input g pin) else pending g grp p) ∧
    irq_calls g' = irq_calls g ++
      (if irq g && cfg_live g cfg then [(cfg_group cfg, asserted g' (cfg_group cfg))] else []) ∧
    out_calls g' = out_calls g ++ (if out g then [(pin, driven cfg)] else []).
Proof.
  intros Hg Hp Hcf. pose proof (ok_npins g Hg) as Hn. unfold safe_pins in Hn.
  unfold gpio_update_pincfg. tests.
  destruct (level_pending_spec g pin cfg Hg Hp Hcf) as (g1 & -> & Hg1 & Hr & Ho & Hpend & Hi).
  cbn [mbind option_bind]. rewrite arr_set_lt by (rewrite (ok_cfg_len g1 (ok_shape g1 Hg1)); lia).
  cbn [mbind option_bind]. unfold rest in Hr. injection Hr as Sn Sg Sc Si So Sp Sout Sirq.
  eexists. split; [done|]. unfold gpio_drive_out. cbn [out npins].
  change (out (g1 <| gpio_cfg := <[Z.to_nat pin := cfg]> (gpio_cfg g1) |>)) with (out g1).
  change (npins (g1 <| gpio_cfg := <[Z.to_nat pin := cfg]> (gpio_cfg g1) |>)) with (npins g1).
  rewrite Sn, Sout. tests. rewrite orb_false_r.
  assert (Hlevel : (if nz (Z.land cfg VF_GPIO_FUNC_MASK) then 1
      else if Z.land cfg VF_GPIO_CFG_MASK =? VF_GPIO_CFG_GP_OUT then
        if nz (Z.land cfg VF_GPIO_DATA_1) then 1 else 0 else 1) = driven cfg).
  { unfold driven, VF_GPIO_DATA_1, VF_GPIO_CFG_GP_OUT. rewrite cfg_mode_mask, land_bit_nz by lia.
    change (Z.shiftl 1 1) with 2. by replace (2 * cfg_mode cfg =? 2) with (cfg_mode cfg =? 1) by lia. }
  rewrite Hlevel.
  destruct (out g); cbn; rewrite ?app_nil_r; split_and!; try done; try congruence.
  all: try (destruct Hg1 as [[] ???]; constructor; [constructor; cbn; try done|done..];
    [by rewrite length_insert|by apply Forall_insert]).
Qed.

(** ** Register contract *)

Lemma cfg_index_Some off pin :
  0 ≤ off → gpio_cfg_index off = Some pin → pin = off / 4 ∧ 0 ≤ pin < 512.
Proof.
  intros Ho. unfold gpio_cfg_index. change (VF_GPIO_REG_CFG 0) with 0.
  change (VF_GPIO_REG_CFG (VF_GPIO_MAX_PIN_NR - 1)) with 2044.
  destruct ((off <? 0) || (2044 <? off)) eqn:E; [done|]. intros [= <-].
  rewrite wrap_id, Z.shiftr_div_pow2 by (unfold fits; lia). change (2 ^ 2) with 4. dlia.
Qed.

Lemma int_index_Some off group word :
  0 ≤ off → gpio_int_index off = Some (group, word) →
  off mod 4 = 0 → off = 0x800 + 0x40 * group + 4 * word ∧ 0 ≤ group ≤ 8 ∧ 0 ≤ word < 16.
Proof.
  intros Ho. unfold gpio_int_index. change (VF_GPIO_REG_INT 0 0) with 2048.
  change (VF_GPIO_REG_INT VF_GPIO_MAX_INT_GRP_NR (VF_GPIO_MAX_PIN_NR - 1)) with 2560.
  destruct ((off <? 2048) || (2560 <? off)) eqn:E; [done|]. intros [= <- <-] Hal.
  rewrite wrap_id by (unfold fits; lia). change 0x3f with (Z.ones 6).
  rewrite Z.land_ones, !Z.shiftr_div_pow2 by lia. change (2 ^ 6) with 64. change (2 ^ 2) with 4. dlia.
Qed.

Lemma width_ok off w : gpio_width_ok off w = true → w = 4 ∧ off mod 4 = 0.
Proof.
  unfold gpio_width_ok. rewrite land_3_mod. intros [Hw Hn]%andb_prop. apply negb_true_iff, nz_false in Hn.
  lia.
Qed.

#[export] Instance gpio_ops : MmioOps vf_apple_gpio_v1 := {
  mmio_read := vf_apple_gpio_read;
  mmio_write := vf_apple_gpio_write;
  mmio_inv := gpio_ok;
  mmio_bits := 32;
}.

Lemma gpio_read_safe g off w :
  gpio_ok g → fits 32 off →
  ∃ a, vf_apple_gpio_read (Some g) off w true = Some (a, Some g) ∧
    ((∃ x, a = (0, Some x) ∧ fits 32 x) ∨ a = (-1, None)).
Proof.
  intros Hg [Ho _]. pose proof (ok_shape g Hg) as Hs. pose proof (ok_npins g Hg) as Hn.
  pose proof (ok_grps g Hg) as Hgr. unfold safe_pins, VF_GPIO_MAX_INT_GRP_NR in *.
  assert (Hok : ∀ x, fits 32 x → ∃ a, Some ((0, Some x), Some g) = Some (a, Some g) ∧
    ((∃ x, a = (0, Some x) ∧ fits 32 x) ∨ a = (-1, None))) by eauto 8.
  unfold vf_apple_gpio_read, with_obj. cbn [negb orb].
  destruct (gpio_width_ok off w) eqn:Ew; cbn [negb]; [|by eauto]. apply width_ok in Ew as [-> Hal].
  destruct (gpio_cfg_index off) as [pin|] eqn:Ec.
  { apply cfg_index_Some in Ec as [_ Hp]; [|done].
    destruct (npins g <=? pin) eqn:Ep; [apply Hok; unfold fits; lia|].
    destruct (arr_get_lt (gpio_cfg g) pin) as [cfg Hcfg]; [rewrite (ok_cfg_len g Hs); lia|].
    assert (fits 32 cfg) by (by eapply arr_get_Forall; [apply (ok_cfg g Hs)|]).
    rewrite Hcfg. cbn [mbind option_bind]. destruct (_ && _); [|by apply Hok].
    rewrite test_bit_spec by (rewrite (ok_in_len g Hs); lia). cbn [mbind option_bind].
    apply Hok. unfold VF_GPIO_DATA_1. destruct (nz _); width. }
  destruct (gpio_int_index off) as [[group word]|] eqn:Ei.
  { apply int_index_Some in Ei as (_ & Hgp & Hw); [|done..].
    destruct ((nirqgrps g <=? group) || (VF_GPIO_INT_WORDS <=? word)) eqn:Eg;
      [apply Hok; unfold fits; lia|].
    destruct (group_row g group Hs) as (row & -> & Hlen & Hfit); [lia|]. cbn [mbind option_bind].
    destruct (arr_get_lt row word) as [x Hx]; [lia|]. rewrite Hx. cbn [mbind option_bind].
    apply Hok. by eapply arr_get_Forall. }
  destruct (off =? VF_GPIO_REG_NPL_IN_EN); apply Hok; [apply (ok_npl g Hs)|unfold fits; lia].
Qed.

Lemma int_write_spec g grp word x :
  gpio_ok g → 0 ≤ grp < nirqgrps g → 0 ≤ word < 16 → fits 32 x →
  ∃ g', int_update g grp (λ row, y ← arr_get row word; arr_set row word (Z.land y (bnot 32 x))) = Some g' ∧
    gpio_ok g' ∧ rest g' = rest g ∧ irq_calls g' = irq_calls g ∧
    ∀ grp' w b, 0 ≤ b < 32 → slot g' grp' w b =
      slot g grp' w b && negb (bool_decide (grp' = grp ∧ w = word) && Z.testbit x b).
Proof.
  intros Hg Hgrp Hw Hx. pose proof (ok_shape g Hg) as Hs. pose proof (ok_grps g Hg) as Hgr.
  unfold VF_GPIO_MAX_INT_GRP_NR in Hgr.
  destruct (int_update_spec g grp (λ row, y ← arr_get row word; arr_set row word (Z.land y (bnot 32 x))))
    as (g' & row & row' & Hup & Hs' & Hr & Hi & Ho & Hrow & Hf & Hrow' & Hoth); [done|lia| |].
  { intros row Hlen Hfit. destruct (arr_get_lt row word) as [y Hy]; [lia|]. rewrite Hy. cbn.
    rewrite arr_set_lt by lia. eexists. split; [done|]. split; [by rewrite length_insert|].
    apply Forall_insert; [done|]. assert (fits 32 y) by (by eapply arr_get_Forall). width. }
  exists g'. split; [done|]. split; [by apply (rest_ok g)|]. split_and!; [done|done|].
  intros grp' w b Hb. unfold slot. destruct (decide (grp' = grp)) as [->|Hne].
  2:{ rewrite Hoth by done. by rewrite bool_decide_false, andb_true_r by tauto. }
  rewrite Hrow, Hrow'. cbv beta in Hf. destruct (arr_get row word) as [y|] eqn:Hy; [|done].
  cbn [mbind option_bind] in Hf. apply arr_set_Some in Hf as [Hl ->].
  assert (fits 32 y). { destruct (group_row g grp Hs) as (r2 & Hr2 & _ & Hf2); [lia|].
    rewrite Hrow in Hr2. injection Hr2 as <-. by eapply arr_get_Forall. }
  unfold wbit. destruct (decide (w = word)) as [->|Hne].
  - rewrite arr_get_insert_eq, Hy, bool_decide_true by done. cbn.
    by rewrite Z.land_spec, bnot_testbit, bool_decide_true by lia.
  - rewrite arr_get_insert_ne by lia. by rewrite bool_decide_false, andb_true_r by tauto.
Qed.

Lemma gpio_write_safe g off w x :
  gpio_ok g → fits 32 off → fits 32 x →
  ∃ rc g', vf_apple_gpio_write (Some g) off w x = Some (rc, Some g') ∧ gpio_ok g' ∧
    (rc = 0 ∨ (rc = -1 ∧ g' = g)).
Proof.
  intros Hg [Ho _] Hx. unfold vf_apple_gpio_write, with_obj.
  destruct (gpio_width_ok off w) eqn:Ew; cbn [negb]; [|by eauto 8]. apply width_ok in Ew as [-> Hal].
  destruct (gpio_cfg_index off) as [pin|] eqn:Ec.
  { apply cfg_index_Some in Ec as [_ Hp]; [|done].
    destruct (npins g <=? pin) eqn:Ep; [by eauto 8|].
    destruct (update_pincfg_spec g pin x Hg) as (g' & -> & Hg' & _); [lia|done|]. cbn. by eauto 8. }
  destruct (gpio_int_index off) as [[group word]|] eqn:Ei; [|by eauto 8].
  apply int_index_Some in Ei as (_ & Hgp & Hw); [|done..].
  destruct ((nirqgrps g <=? group) || (VF_GPIO_INT_WORDS <=? word)) eqn:Eg; [by eauto 8|].
  destruct (int_write_spec g group word x Hg) as (g1 & -> & Hg1 & Hr & _); [lia|done|done|].
  cbn [mbind option_bind]. assert (nirqgrps g1 = nirqgrps g) as Hn by (unfold rest in Hr; congruence).
  destruct (raise_irq_spec g1 group Hg1) as (g2 & -> & Hg2 & _); [lia|]. cbn. by eauto 8.
Qed.

#[export] Instance gpio_laws : MmioLaws vf_apple_gpio_v1.
Proof.
  split; try done.
  - intros g off w Hg Ho _. destruct (gpio_read_safe g off w Hg Ho) as (a & H & Ha).
    exists a, g. split; [exact H|]. split; [done|]. destruct Ha as [?| ->]; [by left|by right].
  - intros g off w x Hg Ho _ Hx. by apply gpio_write_safe.
Qed.

(** ** Initialisation *)

Lemma fill_spec {A} n (x : A) i l :
  0 ≤ i → i + Z.of_nat n ≤ Z.of_nat (length l) →
  ∃ l', fill n x i l = Some l' ∧ length l' = length l ∧
    ∀ P : A → Prop, P x → Forall P l → Forall P l'.
Proof.
  revert i l. induction n as [|n IH]; intros i l Hi Hlen; cbn [fill]; [by eauto|].
  rewrite arr_set_lt by lia. cbn [mbind option_bind].
  destruct (IH (i + 1) (<[Z.to_nat i := x]> l)) as (l' & Hl' & Hlen' & HP);
    [lia|rewrite length_insert; lia|]. exists l'. split; [done|].
  rewrite length_insert in Hlen'. split; [done|]. intros P Hx Hl. apply HP; [done|].
  by apply Forall_insert.
Qed.

Lemma clear_groups_spec n words grp c :
  0 ≤ grp → grp + Z.of_nat n ≤ Z.of_nat (length c) → 0 ≤ words →
  Forall (λ row, length row = 16%nat) c → Forall (Forall (fits 32)) c →
  ∃ c', clear_groups n words grp c = Some c' ∧ length c' = length c ∧
    Forall (λ row, length row = 16%nat) c' ∧ Forall (Forall (fits 32)) c'.
Proof.
  intros Hgrp Hlen Hwords. revert grp c Hgrp Hlen.
  induction n as [|n IH]; intros grp c Hgrp Hlen Hrl Hrf; cbn [clear_groups]; [by eauto|].
  destruct (arr_get_lt c grp) as [row Hrow]; [lia|]. rewrite Hrow. cbn [mbind option_bind].
  pose proof (arr_get_Forall _ _ _ _ Hrl Hrow) as Hr1. pose proof (arr_get_Forall _ _ _ _ Hrf Hrow) as Hr2.
  cbv beta in Hr1, Hr2.
  destruct (fill_spec (Z.to_nat (Z.min words VF_GPIO_INT_WORDS)) 0 0 row) as (row' & -> & Hl' & HP);
    [lia|unfold VF_GPIO_INT_WORDS; lia|]. cbn [mbind option_bind].
  rewrite arr_set_lt by lia. cbn [mbind option_bind].
  destruct (IH (grp + 1) (<[Z.to_nat grp := row']> c)) as (c' & Hc' & H1 & H2 & H3).
  - lia.
  - rewrite length_insert. lia.
  - apply Forall_insert; [done|congruence].
  - apply Forall_insert; [done|]. apply HP; [unfold fits; lia|done].
  - exists c'. rewrite length_insert in H1. by split_and!.
Qed.

(** Initialisation never accesses an array out of range, whatever the pin count. *)
Lemma gpio_init_spec g0 pins grps ph out_fn irq_fn :
  gpio_shape g0 → fits 32 pins → fits 32 grps →
  ∃ rc g, vf_apple_gpio_init (Some g0) pins grps ph out_fn irq_fn = Some (rc, Some g) ∧
    ((rc = -1 ∧ g = g0) ∨
     (rc = 0 ∧ gpio_shape g ∧ 1 ≤ pins ≤ 511 ∧ 1 ≤ grps ≤ 7 ∧ npins g = pins ∧ nirqgrps g = grps ∧
      old_in g = in_ g)).
Proof.
  intros Hs [Hp _] [Hgr _]. unfold vf_apple_gpio_init, with_obj, VF_GPIO_MAX_PIN_NR, VF_GPIO_MAX_INT_GRP_NR.
  destruct (_ || _ || _ || _) eqn:E; [by eauto 8|].
  pose proof (ok_cfg_len g0 Hs) as Hcl.
  destruct (fill_spec (Z.to_nat pins) VF_GPIO_CFG_DISABLED 0 (gpio_cfg g0)) as (cfg & -> & Hl & HP); [lia..|].
  cbn [mbind option_bind].
  destruct (clear_groups_spec (Z.to_nat grps) (gpio_int_words pins) 0 (int_cfg g0)) as (c & -> & H1 & H2 & H3).
  - lia.
  - rewrite (ok_int_len g0 Hs). lia.
  - unfold gpio_int_words. tests. apply (fits_nonneg 32). width.
  - apply Hs.
  - apply Hs.
  - cbn [mbind option_bind]. eexists _, _. split; [done|]. right. split; [done|]. split; [|cbn; split_and!; done || lia].
    destruct Hs. constructor; cbn; try done; try congruence; try lia.
    + apply HP; [vm_compute; split; congruence|done].
    + apply Forall_replicate. unfold fits. lia.
    + apply Forall_replicate. unfold fits. lia.
Qed.

(** ** Operation sequences *)

Inductive gpio_op := SetIn (pin level : Z) | Asserted (grp : Z) | Access (c : access).

Definition gpio_op_ok (o : gpio_op) : Prop :=
  match o with
  | SetIn pin level => fits 32 pin
  | Asserted grp => fits 32 grp
  | Access c => access_ok 32 c
  end.

Definition gpio_step (g : vf_apple_gpio_v1) (o : gpio_op) : option vf_apple_gpio_v1 :=
  match o with
  | SetIn pin level => '(_, p) ← vf_apple_gpio_set_in (Some g) pin level; p
  | Asserted grp => _ ← vf_apple_gpio_irq_asserted (Some g) grp; Some g
  | Access c => '(_, g') ← do_access g c; Some g'
  end.

Fixpoint gpio_steps (g : vf_apple_gpio_v1) (os : list gpio_op) : option vf_apple_gpio_v1 :=
  match os with [] => Some g | o :: os => g' ← gpio_step g o; gpio_steps g' os end.

Lemma gpio_step_ok g o : gpio_ok g → gpio_op_ok o → ∃ g', gpio_step g o = Some g' ∧ gpio_ok g'.
Proof.
  intros Hg. destruct o as [pin level|grp|c]; cbn [gpio_step gpio_op_ok].
  - intros [Hp _]. unfold vf_apple_gpio_set_in, with_obj.
    destruct (npins g <=? pin) eqn:E; cbn [mbind option_bind]; [by eauto|].
    destruct (apply_input_spec g pin (nz level) Hg) as (g' & cfg & -> & Hg' & _); [lia|]. cbn. by eauto.
  - intros [Hp _]. unfold vf_apple_gpio_irq_asserted.
    destruct (nirqgrps g <=? grp) eqn:E; cbn [mbind option_bind]; [by eauto|].
    rewrite group_active_spec by (done || lia). cbn. by eauto.
  - intros Hc. destruct (@do_access_safe _ gpio_ops _ g c Hg Hc) as (r & g' & -> & ? & _). cbn. eauto.
Qed.

Lemma gpio_steps_ok g os : gpio_ok g → Forall gpio_op_ok os → ∃ g', gpio_steps g os = Some g' ∧ gpio_ok g'.
Proof.
  intros Hg Hos. revert g Hg. induction Hos as [|o os Ho _ IH]; intros g Hg; cbn; [eauto|].
  destruct (gpio_step_ok g o Hg Ho) as (g' & -> & Hg'). cbn. auto.
Qed.

(** ** Properties *)

(** C38. A changed input: for a controller of at most 481 pins, driving a pin to
    a level records that level for that pin only, and sets the pin's pending bit in
    the interrupt group of its configuration exactly when the configured mode (high
    or low level, rising, falling or any edge) fires on the transition from the
    previous level; no other pending bit of any pin or group changes.  If the group
    is enabled, the interrupt callback is called once with the group's state. *)
Theorem input_change_semantics g pin level :
  gpio_ok g → 0 ≤ pin < npins g →
  ∃ g' cfg, vf_apple_gpio_set_in (Some g) pin level = Some (0, Some g') ∧ gpio_ok g' ∧
    arr_get (gpio_cfg g) pin = Some cfg ∧
    (∀ p, 0 ≤ p → input g' p = if decide (p = pin) then nz level else input g p) ∧
    (∀ grp p, 0 ≤ p < npins g → pending g' grp p =
       pending g grp p || (bool_decide (grp = cfg_group cfg ∧ p = pin) && cfg_live g cfg
         && fires (cfg_mode cfg) (input g pin) (nz level))) ∧
    irq_calls g' = irq_calls g ++
      (if irq g && cfg_live g cfg then [(cfg_group cfg, asserted g' (cfg_group cfg))] else []).
Proof.
  intros Hg Hp. destruct (apply_input_spec g pin (nz level) Hg Hp)
    as (g' & cfg & Ha & Hg' & Hc & _ & _ & _ & Hi & Hpend & Hcalls).
  exists g', cfg. unfold vf_apple_gpio_set_in, with_obj. tests. rewrite Ha. by split_and!.
Qed.

Definition blank : vf_apple_gpio_v1 := {|
  npins := 0; nirqgrps := 0; phandle := 0; gpio_cfg := replicate (Z.to_nat 512) 0;
  int_cfg := replicate 7 (replicate 16 0); in_ := replicate 16 0; old_in := replicate 16 0;
  npl := 0; out := false; out_calls := []; irq := false; irq_calls := [] |}.

Lemma blank_shape : gpio_shape blank.
Proof.
  constructor; cbn; rewrite ?length_replicate; try done.
  all: repeat apply Forall_replicate; unfold fits; try lia. by rewrite length_replicate.
Qed.

(** A controller of 64 pins whose pin 33 interrupts group 2 on a rising edge. *)
Definition sample : vf_apple_gpio_v1 :=
  blank <| npins := 64 |> <| nirqgrps := 3 |> <| irq := true |>
    <| gpio_cfg := <[33%nat := 0x20008]> (replicate (Z.to_nat 512) 0) |>.

Lemma gpio_sample_ok : gpio_ok sample.
Proof.
  pose proof blank_shape as []. constructor; [|cbn; unfold safe_pins; lia|cbn;
    unfold VF_GPIO_MAX_INT_GRP_NR; lia|done].
  constructor; try done; cbn.
  - apply Forall_insert; [apply Forall_replicate|]; unfold fits; lia.
Qed.

Lemma input_change_semantics_witness :
  ∃ g', vf_apple_gpio_set_in (Some sample) 33 1 = Some (0, Some g') ∧
    pending g' 2 33 = true ∧ pending g' 2 1 = false ∧ irq_calls g' = [(2, true)].
Proof.
  destruct (input_change_semantics sample 33 1 gpio_sample_ok) as (g' & cfg & H1 & _ & H2 & _ & H3 & H4).
  - cbn. lia.
  - vm_compute in H2. injection H2 as <-. exists g'. split; [exact H1|].
    split; [rewrite H3; [reflexivity|cbn; lia]|]. split; [rewrite H3; [reflexivity|cbn; lia]|].
    rewrite H4. vm_compute in H1. injection H1 as <-. reflexivity.
Defined.

(** Up to 481 pins the controller is free of undefined behaviour: from a
    successful initialisation, no sequence of input changes, group queries and
    register accesses indexes an array out of range, and the invariant holds
    at the end. *)
Theorem gpio_no_undefined_behaviour g0 pins grps ph out_fn irq_fn g os :
  gpio_shape g0 → fits 32 pins → fits 32 grps → pins ≤ safe_pins → Forall gpio_op_ok os →
  vf_apple_gpio_init (Some g0) pins grps ph out_fn irq_fn = Some (0, Some g) →
  ∃ g', gpio_steps g os = Some g' ∧ gpio_ok g'.
Proof.
  intros Hs Hp Hgr Hmax Hos Hinit.
  destruct (gpio_init_spec g0 pins grps ph out_fn irq_fn Hs Hp Hgr) as (rc & g1 & H & Hc).
  rewrite Hinit in H. injection H as <- <-. destruct Hc as [[? _]|(_ & Hs1 & H1 & H2 & H3 & H4 & H5)]; [lia|].
  apply gpio_steps_ok; [|done]. constructor; [done|unfold safe_pins in *; lia| |done].
  unfold VF_GPIO_MAX_INT_GRP_NR. lia.
Qed.

Lemma gpio_no_undefined_behaviour_witness :
  ∃ g, vf_apple_gpio_init (Some blank) 481 7 0 true true = Some (0, Some g) ∧
    ∃ g', gpio_steps g [Access (Wr (480 * 4) 4 0x60004); SetIn 480 1; Asserted 6] = Some g' ∧ gpio_ok g'.
Proof.
  eexists. split; [vm_compute; reflexivity|].
  apply (gpio_no_undefined_behaviour blank 481 7 0 true true).
  - exact blank_shape.
  - unfold fits; lia.
  - unfold fits; lia.
  - unfold safe_pins; lia.
  - repeat constructor; unfold fits; lia.
  - vm_compute. reflexivity.
Defined.

(** Beyond 481 pins the bound check is wrong: initialisation accepts every pin
    count up to 511, but the pending-word index of pin 481 is 16 and each group has
    16 words (0 to 15).  With 482 to 511 pins, a guest write that puts pin 481 into
    any enabled interrupt group accesses the group's array out of bounds. *)
Theorem pin_481_out_of_bounds g0 pins grps ph out_fn irq_fn value :
  gpio_shape g0 → 482 ≤ pins ≤ 511 → 1 ≤ grps ≤ 7 → fits 32 value → cfg_group value < grps →
  ∃ g, vf_apple_gpio_init (Some g0) pins grps ph out_fn irq_fn = Some (0, Some g) ∧
    vf_apple_gpio_write (Some g) (VF_GPIO_REG_CFG 481) 4 value = None.
Proof.
  intros Hs Hp Hgr Hv Hlt.
  destruct (gpio_init_spec g0 pins grps ph out_fn irq_fn Hs) as (rc & g & Hinit & Hc);
    [unfold fits; lia..|].
  assert (Hrc : rc = 0).
  { destruct Hc as [[-> ->]|[-> _]]; [|done]. exfalso. revert Hinit. unfold vf_apple_gpio_init, with_obj.
    unfold VF_GPIO_MAX_PIN_NR, VF_GPIO_MAX_INT_GRP_NR. tests.
    destruct (fill _ _ _ _); [|done]. cbn [mbind option_bind]. by destruct (clear_groups _ _ _ _). }
  subst rc. exists g. split; [done|]. destruct Hc as [[? _]|(_ & Hsg & _ & _ & Hnp & Hng & _)]; [lia|].
  pose proof (cfg_group_nonneg value Hv) as Hg0.
  unfold vf_apple_gpio_write, with_obj. change (VF_GPIO_REG_CFG 481) with 1924.
  change (gpio_width_ok 1924 4) with true. change (gpio_cfg_index 1924) with (Some 481). cbn [negb].
  unfold gpio_update_pincfg, gpio_update_level_pending. fold (cfg_group value).
  assert (Hm : (Z.land value VF_GPIO_INT_MASKED =? VF_GPIO_INT_MASKED) = false).
  { apply Z.eqb_neq. intros Heq. unfold cfg_group in Hlt. rewrite Heq in Hlt.
    vm_compute (Z.shiftr _ _) in Hlt. lia. }
  rewrite Hm. tests. unfold int_update.
  destruct (group_row g (cfg_group value) Hsg) as (row & -> & Hlen & _); [lia|]. cbn [mbind option_bind].
  unfold gpio_int_clear_bit, clear_bit_at. change (gpio_int_word 481) with 16.
  by rewrite (proj2 (arr_get_None row 16)) by lia.
Qed.

Lemma pin_481_out_of_bounds_witness :
  ∃ g, vf_apple_gpio_init (Some blank) 511 7 0 false false = Some (0, Some g) ∧
    vf_apple_gpio_write (Some g) (VF_GPIO_REG_CFG 481) 4 0x60004 = None.
Proof.
  apply (pin_481_out_of_bounds blank 511 7 0 false false 0x60004 blank_shape).
  - lia.
  - lia.
  - unfold fits; lia.
  - vm_compute. reflexivity.
Defined.

End Gpio.
