(* ===== verification/Adp.v ===== *)
(** The display stub, [devices/adp_display_v1.c] and [adp_display_v1.h].

    State: packed flags, the frame-buffer geometry, the frame and configuration
    counters and the vertical-blank latch.  Operations: initialisation,
    configuration by the host, presenting a frame, acknowledging the blank,
    the interrupt level, register reads and writes (widths in bits). *)
From S2P Require Import Prelude.
From S2P Require Import Words.
From S2P Require Import Mmio.

Module Adp.

Definition VF_ADP_TIER_L1_FRAMEBUFFER := 1.
Definition VF_ADP_FLAG_PRESENT := Z.shiftl 1 0.
Definition VF_ADP_FLAG_CONFIGURED := Z.shiftl 1 1.
Definition VF_ADP_FLAG_ENABLED := Z.shiftl 1 2.
Definition VF_ADP_FLAG_PRESENTED := Z.shiftl 1 3.
Definition VF_ADP_FLAG_VBLANK_PENDING := Z.shiftl 1 4.
Definition VF_ADP_MAX_WIDTH := 8192.
Definition VF_ADP_MAX_HEIGHT := 8192.
Definition VF_ADP_MMIO_CTRL := 0x000.
Definition VF_ADP_MMIO_WIDTH := 0x004.
Definition VF_ADP_MMIO_HEIGHT := 0x008.
Definition VF_ADP_MMIO_STRIDE := 0x00c.
Definition VF_ADP_MMIO_FRAME_COUNT := 0x010.
Definition VF_ADP_MMIO_TIER := 0x014.
Definition VF_ADP_MMIO_VBLANK_ACK := 0x018.
Definition VF_ADP_MMIO_GENERATION := 0x01c.
Definition VF_ADP_CTRL_DISABLE := 0.
Definition VF_ADP_CTRL_PRESENT := 1.

Create HintDb adp_regs.
#[export] Hint Unfold VF_ADP_MAX_WIDTH VF_ADP_MAX_HEIGHT VF_ADP_MMIO_CTRL VF_ADP_MMIO_WIDTH
  VF_ADP_MMIO_HEIGHT VF_ADP_MMIO_STRIDE VF_ADP_MMIO_FRAME_COUNT VF_ADP_MMIO_TIER
  VF_ADP_MMIO_VBLANK_ACK VF_ADP_MMIO_GENERATION VF_ADP_CTRL_DISABLE VF_ADP_CTRL_PRESENT : adp_regs.

Record vf_adp_display_v1 := {
  flags : Z;
  width : Z;
  height : Z;
  stride : Z;
  guest_address : Z;
  backing_bytes : Z;
  frame_count : Z;
  generation : Z;
  vblank_pending : Z;
}.

Definition configured (s : ptr vf_adp_display_v1) : bool :=
  match s with Some s => nz (Z.land (flags s) VF_ADP_FLAG_CONFIGURED) | None => false end.

Definition refresh_flags (s : vf_adp_display_v1) : vf_adp_display_v1 :=
  let f := VF_ADP_FLAG_PRESENT in
  let f := if nz (width s) && nz (height s) && nz (backing_bytes s)
           then Z.lor f VF_ADP_FLAG_CONFIGURED else f in
  let f := if nz (Z.land (flags s) VF_ADP_FLAG_ENABLED) then Z.lor f VF_ADP_FLAG_ENABLED else f in
  let f := if nz (Z.land (flags s) VF_ADP_FLAG_PRESENTED) then Z.lor f VF_ADP_FLAG_PRESENTED else f in
  let f := if nz (vblank_pending s) then Z.lor f VF_ADP_FLAG_VBLANK_PENDING else f in
  s <| flags := f |>.

Definition vf_adp_display_init (s : ptr vf_adp_display_v1) : option (Z * ptr vf_adp_display_v1) :=
  with_obj (-1) s (λ _, Some (0, {| flags := VF_ADP_FLAG_PRESENT; width := 0; height := 0;
    stride := 0; guest_address := 0; backing_bytes := 0; frame_count := 0; generation := 0;
    vblank_pending := 0 |})).

Definition vf_adp_display_configure (s : ptr vf_adp_display_v1) (addr bytes w h st : Z) :
    option (Z * ptr vf_adp_display_v1) :=
  with_obj (-1) s (λ s,
    if nz (Z.land addr 7) || (bytes =? 0) || (w =? 0) || (h =? 0) || (VF_ADP_MAX_WIDTH <? w)
       || (VF_ADP_MAX_HEIGHT <? h) then Some (-1, s)
    else if st <? u32 (w * 4) then Some (-1, s)
    else
      let required := u64 (st * h) in
      if bytes <? required then Some (-1, s)
      else
        Some (0, refresh_flags
          (s <| guest_address := addr |> <| backing_bytes := bytes |> <| width := w |>
             <| height := h |> <| stride := st |>
             <| flags := Z.land (flags s) (bnot 32 (Z.lor VF_ADP_FLAG_ENABLED VF_ADP_FLAG_PRESENTED)) |>
             <| vblank_pending := 0 |> <| generation := u32 (generation s + 1) |>))).

Definition vf_adp_display_present (s : ptr vf_adp_display_v1) : option (Z * ptr vf_adp_display_v1) :=
  if negb (configured s) then Some (-1, s)
  else with_obj (-1) s (λ s,
    Some (0, refresh_flags
      (s <| flags := Z.lor (flags s) (Z.lor VF_ADP_FLAG_ENABLED VF_ADP_FLAG_PRESENTED) |>
         <| frame_count := u64 (frame_count s + 1) |> <| vblank_pending := 1 |>))).

Definition vf_adp_display_ack_vblank (s : ptr vf_adp_display_v1) :
    option (Z * ptr vf_adp_display_v1) :=
  with_obj (-1) s (λ s, Some (0, refresh_flags (s <| vblank_pending := 0 |>))).

Definition vf_adp_display_irq_pending (s : ptr vf_adp_display_v1) : Z :=
  match s with Some s => b2z (nz (vblank_pending s)) | None => 0 end.

Definition vf_adp_display_read (s : ptr vf_adp_display_v1) (offset w : Z) (value : bool) :
    option (rd_result * ptr vf_adp_display_v1) :=
  with_obj (-1, None) s (λ s,
    if negb value then Some ((-1, None), s)
    else if negb (w =? 32) then Some ((-1, None), s)
    else if offset =? VF_ADP_MMIO_CTRL then
      let s := refresh_flags s in Some ((0, Some (flags s)), s)
    else if offset =? VF_ADP_MMIO_WIDTH then Some ((0, Some (width s)), s)
    else if offset =? VF_ADP_MMIO_HEIGHT then Some ((0, Some (height s)), s)
    else if offset =? VF_ADP_MMIO_STRIDE then Some ((0, Some (stride s)), s)
    else if offset =? VF_ADP_MMIO_FRAME_COUNT then Some ((0, Some (u32 (frame_count s))), s)
    else if offset =? VF_ADP_MMIO_TIER then Some ((0, Some VF_ADP_TIER_L1_FRAMEBUFFER), s)
    else if offset =? VF_ADP_MMIO_GENERATION then Some ((0, Some (generation s)), s)
    else Some ((-1, None), s)).

Definition vf_adp_display_write (s : ptr vf_adp_display_v1) (offset w value : Z) :
    option (Z * ptr vf_adp_display_v1) :=
  match s with
  | None => Some (-1, None)
  | Some d =>
    if negb (w =? 32) then Some (-1, s)
    else if offset =? VF_ADP_MMIO_CTRL then
      if value =? VF_ADP_CTRL_DISABLE then
        Some (0, Some (refresh_flags (d <| flags := Z.land (flags d) (bnot 32 VF_ADP_FLAG_ENABLED) |>)))
      else if value =? VF_ADP_CTRL_PRESENT then vf_adp_display_present s
      else Some (-1, s)
    else if offset =? VF_ADP_MMIO_VBLANK_ACK then
      if negb (value =? 1) then Some (-1, s) else vf_adp_display_ack_vblank s
    else Some (-1, s)
  end.

(** ** The display an embedder may rely on *)

(** A frame buffer: address, size in bytes, width and height in pixels, bytes
    per line. *)
Record mode := { m_addr : Z; m_bytes : Z; m_width : Z; m_height : Z; m_stride : Z }.

Record display := {
  d_mode : option mode;
  d_enabled : bool;
  d_presented : bool;
  d_vblank : bool;
  (** presented frames; configurations *)
  d_frames : Z;
  d_configs : Z;
}.

(** Every byte of every 4-byte pixel lies inside the buffer. *)
Definition frame_in_bounds (m : mode) : Prop :=
  ∀ x y, 0 ≤ x < m_width m → 0 ≤ y < m_height m →
    0 ≤ y * m_stride m + 4 * x ∧ y * m_stride m + 4 * x + 4 ≤ m_bytes m.

Definition mode_valid (m : mode) : bool :=
  (m_addr m mod 8 =? 0) && (1 <=? m_bytes m) && (1 <=? m_width m) && (m_width m <=? 8192)
  && (1 <=? m_height m) && (m_height m <=? 8192) && (4 * m_width m <=? m_stride m)
  && (m_stride m * m_height m <=? m_bytes m).

Inductive adp_op :=
  | Configure (m : mode)
  | Present
  | Ack
  | Access (c : access).

Definition present_spec (d : display) : display :=
  match d_mode d with
  | None => d
  | Some _ => d <| d_enabled := true |> <| d_presented := true |> <| d_vblank := true |>
                <| d_frames := d_frames d + 1 |>
  end.

Definition display_step (d : display) (o : adp_op) : display :=
  match o with
  | Configure m =>
    if mode_valid m then {| d_mode := Some m; d_enabled := false; d_presented := false;
      d_vblank := false; d_frames := d_frames d; d_configs := d_configs d + 1 |} else d
  | Present => present_spec d
  | Ack => d <| d_vblank := false |>
  | Access (Wr off w x) =>
    if negb (w =? 32) then d
    else if off =? VF_ADP_MMIO_CTRL then
      if x =? 0 then d <| d_enabled := false |> else if x =? 1 then present_spec d else d
    else if (off =? VF_ADP_MMIO_VBLANK_ACK) && (x =? 1) then d <| d_vblank := false |>
    else d
  | Access (Rd _ _) => d
  end.

(** The packed flag word. *)
Definition pack (present_mode enabled presented vblank : bool) : Z :=
  1 + 2 * b2z present_mode + 4 * b2z enabled + 8 * b2z presented + 16 * b2z vblank.

Definition represents (s : vf_adp_display_v1) (d : display) : Prop :=
  flags s = pack (bool_decide (is_Some (d_mode d))) (d_enabled d) (d_presented d) (d_vblank d) ∧
  vblank_pending s = b2z (d_vblank d) ∧
  frame_count s = u64 (d_frames d) ∧ generation s = u32 (d_configs d) ∧
  match d_mode d with
  | None => width s = 0 ∧ height s = 0 ∧ backing_bytes s = 0 ∧ stride s = 0 ∧ guest_address s = 0
  | Some m => width s = m_width m ∧ height s = m_height m ∧ backing_bytes s = m_bytes m ∧
      stride s = m_stride m ∧ guest_address s = m_addr m ∧ mode_valid m = true ∧
      fits 64 (m_bytes m) ∧ fits 32 (m_stride m)
  end.

Definition mode_ok (m : mode) : Prop :=
  fits 64 (m_addr m) ∧ fits 64 (m_bytes m) ∧ fits 32 (m_width m) ∧ fits 32 (m_height m)
  ∧ fits 32 (m_stride m).

Definition adp_op_ok (o : adp_op) : Prop :=
  match o with Configure m => mode_ok m | Access c => access_ok 64 c | _ => True end.

(** ** Flags *)

Lemma refresh_pack s c e p v :
  flags s = pack c e p v ∨ (∃ c' v', flags s = pack c' e p v') →
  vblank_pending s = b2z v → nz (width s) && nz (height s) && nz (backing_bytes s) = c →
  refresh_flags s = s <| flags := pack c e p v |>.
Proof.
  intros Hf Hv Hc. unfold refresh_flags. rewrite Hc, Hv.
  assert (∃ c' v', flags s = pack c' e p v') as (c' & v' & ->) by (destruct Hf; eauto).
  destruct c, e, p, v, c', v'; done.
Qed.

Lemma mode_geometry s d :
  represents s d →
  nz (width s) && nz (height s) && nz (backing_bytes s) = bool_decide (is_Some (d_mode d)).
Proof.
  intros (_ & _ & _ & _ & Hm). destruct (d_mode d) as [m|].
  - destruct Hm as (-> & -> & -> & _ & _ & Hv & _). rewrite bool_decide_true by eauto.
    unfold mode_valid in Hv. unfold nz. lia.
  - by destruct Hm as (-> & -> & -> & _).
Qed.

Lemma refresh_id s d : represents s d → refresh_flags s = s.
Proof.
  intros Hr. pose proof (mode_geometry s d Hr) as Hg. destruct Hr as (Hf & Hv & _).
  rewrite (refresh_pack s (bool_decide (is_Some (d_mode d))) (d_enabled d) (d_presented d) (d_vblank d)); [|by left|done|done].
  rewrite <- Hf. by destruct s.
Qed.

Lemma pack_clear c e p v :
  Z.land (pack c e p v) (bnot 32 VF_ADP_FLAG_ENABLED) = pack c false p v ∧
  Z.land (pack c e p v) (bnot 32 (Z.lor VF_ADP_FLAG_ENABLED VF_ADP_FLAG_PRESENTED)) = pack c false false v ∧
  Z.lor (pack c e p v) (Z.lor VF_ADP_FLAG_ENABLED VF_ADP_FLAG_PRESENTED) = pack c true true v ∧
  nz (Z.land (pack c e p v) VF_ADP_FLAG_CONFIGURED) = c.
Proof. by destruct c, e, p, v. Qed.

Lemma ack_step s d :
  represents s d → ∃ s', vf_adp_display_ack_vblank (Some s) = Some (0, Some s') ∧
    represents s' (d <| d_vblank := false |>).
Proof.
  intros Hr. pose proof (mode_geometry s d Hr) as Hg. destruct Hr as (Hf & Hv & Hc & Hn & Hm).
  unfold vf_adp_display_ack_vblank, with_obj. cbn [mbind option_bind].
  rewrite (refresh_pack _ (bool_decide (is_Some (d_mode d))) (d_enabled d) (d_presented d) false); [|right; by eexists _, _|done|done].
  eexists. split; [done|]. by split_and!.
Qed.

Lemma present_step s d :
  represents s d →
  ∃ rc s', vf_adp_display_present (Some s) = Some (rc, Some s') ∧ represents s' (present_spec d) ∧
    (rc = 0 ∧ is_Some (d_mode d) ∨ rc = -1 ∧ s' = s ∧ d_mode d = None).
Proof.
  intros Hr. pose proof (mode_geometry s d Hr) as Hg. pose proof Hr as (Hf & Hv & Hc & Hn & Hm).
  unfold vf_adp_display_present, configured, present_spec. rewrite Hf.
  destruct (pack_clear (bool_decide (is_Some (d_mode d))) (d_enabled d) (d_presented d) (d_vblank d))
    as (_ & _ & Hset & ->).
  destruct (d_mode d) as [m|] eqn:Ed; cbn [negb is_Some].
  2:{ rewrite bool_decide_false by (intros [? ?]; done). cbn [negb].
      eexists _, s. split; [done|]. split; [done|]. right. by split_and!. }
  rewrite bool_decide_true by eauto. cbn [negb]. unfold with_obj. cbn [mbind option_bind].
  rewrite bool_decide_true in Hset, Hg by eauto. rewrite bool_decide_true in Hf by eauto.
  rewrite (refresh_pack _ true true true true).
  - eexists _, _. split; [done|]. split; [|left; eauto]. unfold represents. cbn. rewrite Ed.
    split_and!; try done; try apply Hm. rewrite Hc. unfold wrap. by rewrite Zplus_mod_idemp_l.
  - right. exists true, (d_vblank d). cbn. rewrite Hf. exact Hset.
  - done.
  - exact Hg.
Qed.

Lemma configure_step s d m :
  represents s d → mode_ok m →
  ∃ rc s', vf_adp_display_configure (Some s) (m_addr m) (m_bytes m) (m_width m) (m_height m) (m_stride m)
      = Some (rc, Some s') ∧ represents s' (display_step d (Configure m)) ∧
    (rc = if mode_valid m then 0 else -1).
Proof.
  intros Hr (Ha & Hb & Hw & Hh & Hst). pose proof (mode_geometry s d Hr) as Hg.
  pose proof Hr as (Hf & Hv & Hc & Hn & Hm).
  unfold vf_adp_display_configure, with_obj. autounfold with adp_regs. cbv zeta.
  assert (Hguard : (if nz (Z.land (m_addr m) 7) || (m_bytes m =? 0) || (m_width m =? 0)
      || (m_height m =? 0) || (8192 <? m_width m) || (8192 <? m_height m) then false
    else if m_stride m <? u32 (m_width m * 4) then false
    else if m_bytes m <? u64 (m_stride m * m_height m) then false else true) = mode_valid m).
  { unfold mode_valid. change 7 with (Z.ones 3). rewrite Z.land_ones by lia. change (2 ^ 3) with 8.
    unfold nz, fits in *.
    destruct (negb (m_addr m mod 8 =? 0) || (m_bytes m =? 0) || (m_width m =? 0) || (m_height m =? 0)
      || (8192 <? m_width m) || (8192 <? m_height m)) eqn:E; [lia|].
    assert (0 ≤ m_stride m * m_height m < 2 ^ 64) by nia.
    rewrite !wrap_id by (unfold fits; lia).
    destruct (m_stride m <? m_width m * 4) eqn:E2; [lia|].
    destruct (m_bytes m <? m_stride m * m_height m) eqn:E3; lia. }
  cbn [display_step]. rewrite <- Hguard.
  destruct (_ || _ || _ || _ || _ || _); [by eauto 6|].
  destruct (m_stride m <? _); [by eauto 6|]. destruct (m_bytes m <? _); [by eauto 6|].
  cbn [mbind option_bind]. symmetry in Hguard.
  assert (Hgeo : nz (m_width m) && nz (m_height m) && nz (m_bytes m) = true).
  { unfold mode_valid in Hguard. unfold nz. lia. }
  rewrite (refresh_pack _ true false false false).
  - eexists _, _. split; [done|]. split; [|done]. unfold represents; cbn.
    split_and!; try done. rewrite Hn. unfold wrap. by rewrite Zplus_mod_idemp_l.
  - right. eexists _, (d_vblank d). cbn. rewrite Hf. apply pack_clear.
  - done.
  - exact Hgeo.
Qed.

Lemma disable_step s d :
  represents s d →
  represents (refresh_flags (s <| flags := Z.land (flags s) (bnot 32 VF_ADP_FLAG_ENABLED) |>))
    (d <| d_enabled := false |>).
Proof.
  intros Hr. pose proof (mode_geometry s d Hr) as Hg. destruct Hr as (Hf & Hv & Hc & Hn & Hm).
  rewrite (refresh_pack _ (bool_decide (is_Some (d_mode d))) false (d_presented d) (d_vblank d)); [|right|done|done].
  - by split_and!.
  - eexists _, (d_vblank d). cbn. rewrite Hf. apply pack_clear.
Qed.

Lemma adp_write_step s d off w x :
  represents s d →
  ∃ rc s', vf_adp_display_write (Some s) off w x = Some (rc, Some s') ∧
    represents s' (display_step d (Access (Wr off w x))) ∧ (rc = 0 ∨ rc = -1 ∧ s' = s).
Proof.
  intros Hr. unfold vf_adp_display_write, display_step.
  destruct (negb (w =? 32)); [by eauto 8|].
  destruct (off =? VF_ADP_MMIO_CTRL).
  { unfold VF_ADP_CTRL_DISABLE, VF_ADP_CTRL_PRESENT.
    destruct (x =? 0); [eexists _, _; split; [done|]; split; [by apply disable_step|by left]|].
    destruct (x =? 1); [|by eauto 8].
    destruct (present_step s d Hr) as (rc & s' & H1 & H2 & H3). exists rc, s'.
    split; [done|]. split; [done|]. destruct H3 as [[-> _]|(-> & -> & _)]; auto. }
  destruct (off =? VF_ADP_MMIO_VBLANK_ACK); [|by eauto 8]. destruct (x =? 1); cbn [negb andb]; [|by eauto 8].
  destruct (ack_step s d Hr) as (s' & H1 & H2). eauto 8.
Qed.

Lemma adp_read_step s d off w :
  represents s d →
  ∃ a, vf_adp_display_read (Some s) off w true = Some (a, Some s) ∧
    ((∃ x, a = (0, Some x) ∧ fits 64 x) ∨ a = (-1, None)).
Proof.
  intros Hr. pose proof (refresh_id s d Hr) as Hid. pose proof Hr as (Hf & _ & Hc & Hn & Hm).
  unfold vf_adp_display_read, with_obj. cbv zeta. cbn [negb]. rewrite Hid.
  assert (Hgeo : fits 64 (width s) ∧ fits 64 (height s) ∧ fits 64 (stride s)).
  { destruct (d_mode d) as [m|].
    - destruct Hm as (-> & -> & _ & -> & _ & Hv & _ & Hst). unfold mode_valid in Hv.
      split_and!; try (unfold fits; lia). eapply fits_weaken; [|done]. lia.
    - destruct Hm as (-> & -> & _ & -> & _). unfold fits. lia. }
  destruct Hgeo as (Hw & Hh & Hst).
  split_ifs; cbn [mbind option_bind]; eexists; (split; [done|]); try (by right); left; eexists;
    (split; [done|]); try done.
  - rewrite Hf. unfold pack, fits.
    destruct (bool_decide _), (d_enabled d), (d_presented d), (d_vblank d); cbn; lia.
  - apply (fits_weaken 32); [lia|]. width.
  - rewrite Hn. apply (fits_weaken 32); [lia|]. width.
Qed.

#[export] Instance adp_ops : MmioOps vf_adp_display_v1 := {
  mmio_read := vf_adp_display_read;
  mmio_write := vf_adp_display_write;
  mmio_inv s := ∃ d, represents s d;
  mmio_bits := 64;
}.

#[export] Instance adp_laws : MmioLaws vf_adp_display_v1.
Proof.
  split; try done.
  - intros s off w [d Hr] _ _. destruct (adp_read_step s d off w Hr) as (a & H & Ha).
    exists a, s. split; [exact H|]. split; [by exists d|]. destruct Ha as [?| ->]; [by left|by right].
  - intros s off w x [d Hr] _ _ _. destruct (adp_write_step s d off w x Hr) as (rc & s' & H1 & H2 & H3).
    exists rc, s'. split; [exact H1|]. split; [by eexists|done].
Qed.

(** ** Operation sequences *)

Definition adp_step (s : vf_adp_display_v1) (o : adp_op) : option vf_adp_display_v1 :=
  match o with
  | Configure m =>
    '(_, p) ← vf_adp_display_configure (Some s) (m_addr m) (m_bytes m) (m_width m) (m_height m)
                (m_stride m); p
  | Present => '(_, p) ← vf_adp_display_present (Some s); p
  | Ack => '(_, p) ← vf_adp_display_ack_vblank (Some s); p
  | Access c => '(_, s') ← do_access s c; Some s'
  end.

Fixpoint adp_steps (s : vf_adp_display_v1) (os : list adp_op) : option vf_adp_display_v1 :=
  match os with [] => Some s | o :: os => s' ← adp_step s o; adp_steps s' os end.

Lemma adp_step_refines s d o :
  represents s d → adp_op_ok o → ∃ s', adp_step s o = Some s' ∧ represents s' (display_step d o).
Proof.
  intros Hr Ho. destruct o as [m| | |[off w|off w x]]; cbn [adp_step].
  - destruct (configure_step s d m Hr Ho) as (rc & s' & -> & Hs' & _). by exists s'.
  - destruct (present_step s d Hr) as (rc & s' & -> & Hs' & _). by exists s'.
  - destruct (ack_step s d Hr) as (s' & -> & Hs'). by exists s'.
  - unfold do_access. change (@mmio_read _ adp_ops) with vf_adp_display_read.
    destruct (adp_read_step s d off w Hr) as (a & -> & _). by exists s.
  - unfold do_access. change (@mmio_write _ adp_ops) with vf_adp_display_write.
    destruct (adp_write_step s d off w x Hr) as (rc & s' & -> & Hs' & _). by exists s'.
Qed.

Lemma adp_steps_refine s d os :
  represents s d → Forall adp_op_ok os →
  ∃ s', adp_steps s os = Some s' ∧ represents s' (foldl display_step d os).
Proof.
  intros Hr Hos. revert s d Hr. induction Hos as [|o os Ho _ IH]; intros s d Hr; cbn; [by eauto|].
  destruct (adp_step_refines s d o Hr Ho) as (s' & -> & Hr'). cbn. auto.
Qed.

Lemma mode_valid_bounds m : mode_valid m = true → frame_in_bounds m.
Proof. unfold mode_valid, frame_in_bounds. intros Hv x y Hx Hy. nia. Qed.

Definition off_display : display :=
  {| d_mode := None; d_enabled := false; d_presented := false; d_vblank := false; d_frames := 0;
     d_configs := 0 |}.

(** ** Properties *)

(** C30. Refinement: from initialisation, any interleaving of host configurations,
    presents and acknowledgements with guest register accesses leaves the device in
    the state of the abstract display: the last valid mode, the enabled and
    presented marks, the blank latch (which is the interrupt level), the frame
    count modulo 2^64 and the configuration count modulo 2^32, with the flag word
    being exactly their packing.  In particular every pixel of a configured frame
    lies inside its backing memory. *)
Theorem adp_refines_display s0 os :
  Forall adp_op_ok os →
  let d := foldl display_step off_display os in
  ∃ s s', vf_adp_display_init (Some s0) = Some (0, Some s) ∧ adp_steps s os = Some s' ∧
    flags s' = pack (bool_decide (is_Some (d_mode d))) (d_enabled d) (d_presented d) (d_vblank d) ∧
    vf_adp_display_irq_pending (Some s') = b2z (d_vblank d) ∧
    frame_count s' = u64 (d_frames d) ∧ generation s' = u32 (d_configs d) ∧
    configured (Some s') = bool_decide (is_Some (d_mode d)) ∧
    (∀ m, d_mode d = Some m → frame_in_bounds m ∧ width s' = m_width m ∧ height s' = m_height m ∧
       stride s' = m_stride m ∧ backing_bytes s' = m_bytes m ∧ guest_address s' = m_addr m).
Proof.
  intros Hos d. eexists. assert (Hinit : represents {| flags := VF_ADP_FLAG_PRESENT; width := 0;
    height := 0; stride := 0; guest_address := 0; backing_bytes := 0; frame_count := 0;
    generation := 0; vblank_pending := 0 |} off_display) by (by split_and!).
  destruct (adp_steps_refine _ _ os Hinit Hos) as (s' & Hs & Hf & Hv & Hc & Hn & Hm). fold d in Hf, Hv, Hc, Hn, Hm.
  exists s'. split; [done|]. split; [done|]. split; [done|]. split.
  { unfold vf_adp_display_irq_pending. rewrite Hv. by destruct (d_vblank d). }
  split; [done|]. split; [done|]. split.
  { unfold configured. rewrite Hf. apply pack_clear. }
  intros m Em. rewrite Em in Hm. destruct Hm as (H1 & H2 & H3 & H4 & H5 & Hval & _).
  split; [by apply mode_valid_bounds|]. by split_and!.
Qed.

Lemma adp_refines_display_witness :
  ∃ s s', vf_adp_display_init (Some (Build_vf_adp_display_v1 9 9 9 9 9 9 9 9 9)) = Some (0, Some s) ∧
    adp_steps s [Access (Wr 0 32 1); Configure {| m_addr := 0x1000; m_bytes := 0x4000; m_width := 64;
      m_height := 64; m_stride := 256 |}; Access (Wr 0 32 1); Access (Wr 0x18 32 1); Present] = Some s' ∧
    vf_adp_display_irq_pending (Some s') = 1 ∧ frame_count s' = 2.
Proof.
  destruct (adp_refines_display (Build_vf_adp_display_v1 9 9 9 9 9 9 9 9 9)
    [Access (Wr 0 32 1); Configure {| m_addr := 0x1000; m_bytes := 0x4000; m_width := 64;
      m_height := 64; m_stride := 256 |}; Access (Wr 0 32 1); Access (Wr 0x18 32 1); Present])
    as (s & s' & H1 & H2 & _ & H3 & H4 & _).
  - repeat constructor; unfold fits; cbn; lia.
  - exists s, s'. split; [exact H1|]. split; [exact H2|]. rewrite H3, H4. split; vm_compute; reflexivity.
Defined.

End Adp.
