(* ===== verification/Smc.v ===== *)
(** The system management controller's key store, [devices/apple_smc_v1.c] and
    [apple_smc_v1.h].

    State: an array of 8 key entries of which the first [key_count] are in use, a
    payload buffer ([sram]) and its address.  Operations: initialisation with the
    boot keys, one mailbox message (read, write, info, index and buffer-address
    commands), and the direct key read.  Messages and responses are 8-byte
    little-endian images of packed structures, as on the little-endian hosts the
    code is built for. *)
From S2P Require Import Prelude.
From S2P Require Import Words.
From S2P Require Import Bytes.

Module Smc.

Definition VF_SMC_SRAM_SIZE := 0x4000.
Definition VF_SMC_KEY_NKEY := 0x234B4559.
Definition VF_SMC_KEY_CLKH := 0x434C4B48.
Definition VF_SMC_KEY_RGEN := 0x5247454E.
Definition VF_SMC_KEY_ADC := 0x61444323.
Definition VF_SMC_KEY_MBSE := 0x4D425345.
Definition VF_SMC_KEY_NESN := 0x4E45534E.
Definition VF_SMC_CMD_READ_KEY := 0x10.
Definition VF_SMC_CMD_WRITE_KEY := 0x11.
Definition VF_SMC_CMD_GET_KEY_BY_INDEX := 0x12.
Definition VF_SMC_CMD_GET_KEY_INFO := 0x13.
Definition VF_SMC_CMD_GET_SRAM_ADDR := 0x17.
Definition VF_SMC_CMD_READ_KEY_PAYLOAD := 0x20.
Definition VF_SMC_SUCCESS := 0.
Definition VF_SMC_BAD_COMMAND := 0x82.
Definition VF_SMC_KEY_NOT_FOUND := 0x84.
Definition VF_SMC_KEY_NOT_READABLE := 0x85.
Definition VF_SMC_KEY_NOT_WRITABLE := 0x86.
Definition VF_SMC_KEY_INDEX_RANGE := 0xb8.
Definition VF_SMC_MAX_KEYS := 8.

Record vf_smc_key_msg := { m_cmd : Z; m_tag : Z; m_length : Z; m_payload_length : Z; m_key : Z }.

Record vf_smc_key_resp := {
  r_status : Z;
  r_tag : Z;
  r_length : Z;
  r_unk3 : Z;
  r_response : bytes;
}.

Record vf_smc_key_entry := {
  key : Z;
  size : Z;
  readable : Z;
  writable : Z;
  data : bytes;
}.

Record vf_smc_v1 := {
  keys : list vf_smc_key_entry;
  key_count : Z;
  sram_addr : Z;
  sram : bytes;
}.

Definition empty_entry : vf_smc_key_entry :=
  {| key := 0; size := 0; readable := 0; writable := 0; data := replicate 8 0 |}.
Definition empty_resp : vf_smc_key_resp :=
  {| r_status := 0; r_tag := 0; r_length := 0; r_unk3 := 0; r_response := replicate 4 0 |}.

(** [memcpy(&m, &msg_in, sizeof(m))]. *)
Definition unpack_msg (w : Z) : vf_smc_key_msg := {|
  m_cmd := Z.land w 0xff;
  m_tag := Z.land (Z.shiftr w 8) 0xff;
  m_length := Z.land (Z.shiftr w 16) 0xff;
  m_payload_length := Z.land (Z.shiftr w 24) 0xff;
  m_key := Z.land (Z.shiftr w 32) 0xffffffff;
|}.

(** [memcpy(out, &r, sizeof(r))]. *)
Definition pack_resp (r : vf_smc_key_resp) : Z :=
  foldr (λ b acc, Z.lor b (Z.shiftl acc 8)) 0
    ([r_status r; r_tag r; r_length r; r_unk3 r] ++ r_response r).

(** The loop of [smc_find_key], [n] entries from [i] on: the index of the entry. *)
Fixpoint find_from (n : nat) (l : list vf_smc_key_entry) (i k : Z) : option (option Z) :=
  match n with
  | O => Some None
  | S n => e ← arr_get l i; if key e =? k then Some (Some i) else find_from n l (i + 1) k
  end.

Definition smc_find_key (s : vf_smc_v1) (k : Z) : option (option Z) :=
  find_from (Z.to_nat (key_count s)) (keys s) 0 k.

(** [None] inside: the table is full. *)
Definition smc_add_key (s : vf_smc_v1) (k : Z) : option (option Z * vf_smc_v1) :=
  if VF_SMC_MAX_KEYS <=? key_count s then Some (None, s)
  else
    l ← arr_set (keys s) (key_count s) (empty_entry <| key := k |>);
    Some (Some (key_count s), s <| keys := l |> <| key_count := u32 (key_count s + 1) |>).

(** Writes through the entry pointer. *)
Definition entry_update (s : vf_smc_v1) (i : Z) (f : vf_smc_key_entry → option vf_smc_key_entry) :
    option vf_smc_v1 :=
  e ← arr_get (keys s) i; e' ← f e; l ← arr_set (keys s) i e'; Some (s <| keys := l |>).



(** Status, and the state with the response. *)
Definition smc_read_key_data (s : vf_smc_v1) (i : Z) (r : vf_smc_key_resp) :
    option (Z * vf_smc_key_resp * vf_smc_v1) :=
  e ← arr_get (keys s) i;
  if negb (nz (readable e)) then Some (VF_SMC_KEY_NOT_READABLE, r, s)
  else
    s ← (if key e =? VF_SMC_KEY_NKEY then
           entry_update s i (λ e, d ← buf_write (data e) 0 (le32_split (u32 (key_count s)));
             Some (e <| data := d |>))
         else Some s);
    e ← arr_get (keys s) i;
    let r := r <| r_length := size e |> in
    if size e <=? 4 then
      bs ← buf_read (data e) 0 (size e); resp ← buf_write (r_response r) 0 bs;
      Some (VF_SMC_SUCCESS, r <| r_response := resp |>, s)
    else if size e <=? 8 then
      bs ← buf_read (data e) 0 (size e); m ← buf_write (sram s) 0 bs;
      Some (VF_SMC_SUCCESS, r, s <| sram := m |>)
    else Some (VF_SMC_KEY_NOT_FOUND, r, s).


(** Return code, the bytes stored in [buf] with [*out_len], and the state. *)
Definition vf_smc_read_key (s : ptr vf_smc_v1) (k : Z) (ptrs : bool) (buf_len : Z) :
    option (Z * option bytes * ptr vf_smc_v1) :=
  match s with
  | None => Some (-1, None, None)
  | Some s =>
    if negb ptrs then Some (-1, None, Some s)
    else
      p ← smc_find_key s k;
      match p with
      | None => Some (-1, None, Some s)
      | Some i =>
        '(st, r, s) ← smc_read_key_data s i empty_resp;
        if negb (st =? VF_SMC_SUCCESS) then Some (-1, None, Some s)
        else
          e ← arr_get (keys s) i;
          if buf_len <? size e then Some (-1, None, Some s)
          else
            bs ← buf_read (if size e <=? 4 then r_response r else sram s) 0 (size e);
            Some (0, Some bs, Some s)
      end
  end.

Definition smc_get_key_info (s : vf_smc_v1) (i : Z) : option vf_smc_v1 :=
  e ← arr_get (keys s) i;
  if u32 (size e + 5) <=? VF_SMC_SRAM_SIZE then
    m ← buf_write (sram s) 0 [size e; u8 (Z.shiftr (key e) 24); u8 (Z.shiftr (key e) 16);
          u8 (Z.shiftr (key e) 8); u8 (key e); 0x04];
    Some (s <| sram := m |>)
  else Some s.

Definition smc_write_key (s : vf_smc_v1) (m : vf_smc_key_msg) : option (Z * vf_smc_v1) :=
  p ← smc_find_key s (m_key m);
  match p with
  | None =>
    if (8 <? m_length m) || (VF_SMC_MAX_KEYS <=? key_count s) then Some (VF_SMC_KEY_NOT_FOUND, s)
    else
      '(q, s) ← smc_add_key s (m_key m);
      i ← q;
      s ← entry_update s i (λ e, Some (e <| size := m_length m |> <| writable := 1 |> <| readable := 1 |>));
      s ← (if m_length m <=? 8 then
             bs ← buf_read (sram s) 0 (m_length m);
             entry_update s i (λ e, d ← buf_write (data e) 0 bs; Some (e <| data := d |>))
           else Some s);
      Some (VF_SMC_SUCCESS, s)
  | Some i =>
    e ← arr_get (keys s) i;
    if negb (nz (writable e)) then Some (VF_SMC_KEY_NOT_WRITABLE, s)
    else if m_length m <=? 8 then
      bs ← buf_read (sram s) 0 (m_length m);
      s ← entry_update s i (λ e, d ← buf_write (data e) 0 bs;
            Some (e <| size := m_length m |> <| data := d |>));
      Some (VF_SMC_SUCCESS, s)
    else Some (VF_SMC_KEY_NOT_WRITABLE, s)
  end.

(** The response of a command other than the buffer-address one. *)
Definition smc_respond (s : vf_smc_v1) (m : vf_smc_key_msg) : option (vf_smc_key_resp * vf_smc_v1) :=
  let r := empty_resp <| r_tag := m_tag m |> in
  if (m_cmd m =? VF_SMC_CMD_READ_KEY) || (m_cmd m =? VF_SMC_CMD_READ_KEY_PAYLOAD) then
    p ← smc_find_key s (m_key m);
    match p with
    | None => Some (r <| r_status := VF_SMC_KEY_NOT_FOUND |>, s)
    | Some i => '(st, r, s) ← smc_read_key_data s i r; Some (r <| r_status := st |>, s)
    end
  else if m_cmd m =? VF_SMC_CMD_GET_KEY_INFO then
    p ← smc_find_key s (m_key m);
    match p with
    | None => Some (r <| r_status := VF_SMC_KEY_NOT_FOUND |>, s)
    | Some i => s ← smc_get_key_info s i; Some (r <| r_status := VF_SMC_SUCCESS |>, s)
    end
  else if m_cmd m =? VF_SMC_CMD_GET_KEY_BY_INDEX then
    if key_count s <=? m_key m then Some (r <| r_status := VF_SMC_KEY_INDEX_RANGE |>, s)
    else
      e ← arr_get (keys s) (m_key m);
      Some (r <| r_status := VF_SMC_SUCCESS |> <| r_response := [u8 (Z.shiftr (key e) 24);
        u8 (Z.shiftr (key e) 16); u8 (Z.shiftr (key e) 8); u8 (key e)] |>, s)
  else if m_cmd m =? VF_SMC_CMD_WRITE_KEY then
    '(st, s) ← smc_write_key s m; Some (r <| r_length := m_length m |> <| r_status := st |>, s)
  else Some (r <| r_status := VF_SMC_BAD_COMMAND |>, s).

(** Return code, the word stored through [out], and the state. *)
Definition vf_smc_handle_msg (s : ptr vf_smc_v1) (msg_in : Z) (out : bool) :
    option (Z * option Z * ptr vf_smc_v1) :=
  match s with
  | None => Some (-1, None, None)
  | Some s =>
    let m := unpack_msg msg_in in
    if m_cmd m =? VF_SMC_CMD_GET_SRAM_ADDR then
      Some (0, (if out then Some (sram_addr s) else None), Some s)
    else
      '(r, s) ← smc_respond s m;
      Some (0, (if out then Some (pack_resp r) else None), Some s)
  end.

Arguments find_from : simpl never.
Arguments entry_update : simpl never.

(** ** The key store as a finite map with an insertion order *)

Record store := {
  table : gmap Z vf_smc_key_entry;
  order : list Z;
}.

Definition entry_ok (e : vf_smc_key_entry) : Prop :=
  fits 32 (key e) ∧ 0 ≤ size e ≤ 8 ∧ length (data e) = 8%nat ∧ Forall is_byte (data e).

Definition live (s : vf_smc_v1) : list vf_smc_key_entry := take (Z.to_nat (key_count s)) (keys s).

Record smc_ok (s : vf_smc_v1) : Prop := {
  ok_keys : length (keys s) = 8%nat;
  ok_count : 0 ≤ key_count s ≤ 8;
  ok_entries : Forall entry_ok (live s);
  ok_unique : NoDup (key <$> live s);
  ok_sram_len : Z.of_nat (length (sram s)) = VF_SMC_SRAM_SIZE;
  ok_sram : Forall is_byte (sram s);
}.

Definition store_of (s : vf_smc_v1) : store := {|
  table := list_to_map ((λ e, (key e, e)) <$> live s);
  order := key <$> live s;
|}.

(** The specification of a command on the store and the payload buffer. *)

Definition spec_read (st : store) (mem : bytes) (r : vf_smc_key_resp) (k : Z) :
    vf_smc_key_resp * store * bytes :=
  match table st !! k with
  | None => (r <| r_status := VF_SMC_KEY_NOT_FOUND |>, st, mem)
  | Some e =>
    if negb (nz (readable e)) then (r <| r_status := VF_SMC_KEY_NOT_READABLE |>, st, mem)
    else
      let e' := if k =? VF_SMC_KEY_NKEY
        then e <| data := le32_split (Z.of_nat (length (order st))) ++ drop 4 (data e) |> else e in
      let st' := if k =? VF_SMC_KEY_NKEY then st <| table := <[k := e']> (table st) |> else st in
      let bs := take (Z.to_nat (size e)) (data e') in
      if size e <=? 4
      then (r <| r_length := size e |> <| r_response := bs ++ drop (Z.to_nat (size e)) (r_response r) |>
              <| r_status := VF_SMC_SUCCESS |>, st', mem)
      else (r <| r_length := size e |> <| r_status := VF_SMC_SUCCESS |>, st',
            bs ++ drop (Z.to_nat (size e)) mem)
  end.

Definition be_bytes (k : Z) : bytes :=
  [u8 (Z.shiftr k 24); u8 (Z.shiftr k 16); u8 (Z.shiftr k 8); u8 k].

Definition spec_info (st : store) (mem : bytes) (r : vf_smc_key_resp) (k : Z) :
    vf_smc_key_resp * store * bytes :=
  match table st !! k with
  | None => (r <| r_status := VF_SMC_KEY_NOT_FOUND |>, st, mem)
  | Some e => (r <| r_status := VF_SMC_SUCCESS |>, st, [size e] ++ be_bytes k ++ [4] ++ drop 6 mem)
  end.

Definition spec_index (st : store) (mem : bytes) (r : vf_smc_key_resp) (i : Z) :
    vf_smc_key_resp * store * bytes :=
  match arr_get (order st) i with
  | None => (r <| r_status := VF_SMC_KEY_INDEX_RANGE |>, st, mem)
  | Some k => (r <| r_status := VF_SMC_SUCCESS |> <| r_response := be_bytes k |>, st, mem)
  end.

Definition spec_write (st : store) (mem : bytes) (k len : Z) : Z * store :=
  let bs := take (Z.to_nat len) mem in
  match table st !! k with
  | None =>
    if (8 <? len) || (8 <=? Z.of_nat (length (order st))) then (VF_SMC_KEY_NOT_FOUND, st)
    else (VF_SMC_SUCCESS,
      {| table := <[k := {| key := k; size := len; readable := 1; writable := 1;
                            data := bs ++ replicate (8 - Z.to_nat len) 0 |}]> (table st);
         order := order st ++ [k] |})
  | Some e =>
    if negb (nz (writable e)) || (8 <? len) then (VF_SMC_KEY_NOT_WRITABLE, st)
    else (VF_SMC_SUCCESS, st <| table := <[k := e <| size := len |>
            <| data := bs ++ drop (Z.to_nat len) (data e) |>]> (table st) |>)
  end.

Definition spec_respond (st : store) (mem : bytes) (m : vf_smc_key_msg) :
    vf_smc_key_resp * store * bytes :=
  let r := empty_resp <| r_tag := m_tag m |> in
  if (m_cmd m =? VF_SMC_CMD_READ_KEY) || (m_cmd m =? VF_SMC_CMD_READ_KEY_PAYLOAD)
  then spec_read st mem r (m_key m)
  else if m_cmd m =? VF_SMC_CMD_GET_KEY_INFO then spec_info st mem r (m_key m)
  else if m_cmd m =? VF_SMC_CMD_GET_KEY_BY_INDEX then spec_index st mem r (m_key m)
  else if m_cmd m =? VF_SMC_CMD_WRITE_KEY then
    let '(status, st') := spec_write st mem (m_key m) (m_length m) in
    (r <| r_length := m_length m |> <| r_status := status |>, st', mem)
  else (r <| r_status := VF_SMC_BAD_COMMAND |>, st, mem).

(** ** The array of entries represents the map *)

Lemma table_lookup s k e :
  smc_ok s → table (store_of s) !! k = Some e ↔ ∃ i, live s !! i = Some e ∧ key e = k.
Proof.
  intros Hs. cbn. rewrite <- elem_of_list_to_map.
  - rewrite list_elem_of_fmap. split.
    + intros (e' & [= -> ->] & [i Hi]%list_elem_of_lookup_1). eauto.
    + intros (i & Hi & <-). exists e. split; [done|]. by eapply list_elem_of_lookup_2.
  - rewrite <- list_fmap_compose. exact (ok_unique s Hs).
Qed.

Lemma live_length s : smc_ok s → length (live s) = Z.to_nat (key_count s).
Proof.
  intros Hs. unfold live. rewrite length_take, (ok_keys s Hs). pose proof (ok_count s Hs). lia.
Qed.

Lemma live_get s i : smc_ok s → 0 ≤ i < key_count s → arr_get (keys s) i = live s !! Z.to_nat i.
Proof.
  intros Hs Hi. unfold arr_get, live. rewrite bool_decide_true by lia. by rewrite lookup_take_lt by lia.
Qed.

Lemma find_from_spec n l i k :
  0 ≤ i → i + Z.of_nat n ≤ Z.of_nat (length l) →
  ∃ r, find_from n l i k = Some r ∧
    match r with
    | Some j => i ≤ j < i + Z.of_nat n ∧ ∃ e, arr_get l j = Some e ∧ key e = k
    | None => ∀ j e, i ≤ j < i + Z.of_nat n → arr_get l j = Some e → key e ≠ k
    end.
Proof.
  revert i. induction n as [|n IH]; intros i Hi Hlen.
  { exists None. split; [done|]. intros j e Hj. lia. }
  unfold find_from; fold find_from. destruct (arr_get_lt l i) as [e He]; [lia|]. rewrite He.
  cbn [mbind option_bind]. destruct (Z.eqb_spec (key e) k) as [Hk|Hk].
  { exists (Some i). split; [done|]. split; [lia|]. eauto. }
  destruct (IH (i + 1)) as (r & -> & Hr); [lia..|]. exists r. split; [done|].
  destruct r as [j|].
  - destruct Hr as [Hj He']. split; [lia|done].
  - intros j e' Hj Hget. destruct (decide (j = i)) as [->|]; [congruence|]. apply (Hr j); [lia|done].
Qed.

Lemma find_spec s k :
  smc_ok s →
  (∃ i e, smc_find_key s k = Some (Some i) ∧ 0 ≤ i < key_count s ∧ arr_get (keys s) i = Some e ∧
     key e = k ∧ table (store_of s) !! k = Some e ∧ entry_ok e) ∨
  (smc_find_key s k = Some None ∧ table (store_of s) !! k = None).
Proof.
  intros Hs. pose proof (ok_count s Hs) as Hc. pose proof (ok_keys s Hs) as Hl.
  unfold smc_find_key. destruct (find_from_spec (Z.to_nat (key_count s)) (keys s) 0 k) as (r & -> & Hr); [lia..|].
  destruct r as [i|].
  - destruct Hr as (Hi & e & He & Hk). left. exists i, e. rewrite live_get in He by (done || lia).
    split; [done|]. split; [lia|]. rewrite live_get by (done || lia). split_and!; [done|done| |].
    + apply table_lookup; [done|]. eauto.
    + by eapply Forall_lookup_1; [apply (ok_entries s Hs)|].
  - right. split; [done|]. destruct (table (store_of s) !! k) as [e|] eqn:E; [|done]. exfalso.
    apply table_lookup in E as (i & Hi & Hk); [|done]. pose proof (lookup_lt_Some _ _ _ Hi) as Hlt.
    rewrite live_length in Hlt by done. apply (Hr (Z.of_nat i) e); [lia| |done].
    rewrite live_get by (done || lia). by rewrite Nat2Z.id.
Qed.

Lemma entry_update_spec s i e f e' :
  smc_ok s → 0 ≤ i < key_count s → arr_get (keys s) i = Some e → f e = Some e' →
  key e' = key e → entry_ok e' →
  ∃ s', entry_update s i f = Some s' ∧ smc_ok s' ∧ sram s' = sram s ∧ key_count s' = key_count s ∧
    sram_addr s' = sram_addr s ∧ arr_get (keys s') i = Some e' ∧
    store_of s' = {| table := <[key e := e']> (table (store_of s)); order := order (store_of s) |}.
Proof.
  intros Hs Hi He Hf Hk He'. pose proof (ok_count s Hs) as Hc. pose proof (ok_keys s Hs) as Hl.
  unfold entry_update. rewrite He. cbn [mbind option_bind]. rewrite Hf. cbn [mbind option_bind].
  rewrite arr_set_lt by lia. cbn [mbind option_bind]. eexists. split; [done|].
  assert (Hlive : live (s <| keys := <[Z.to_nat i := e']> (keys s) |>) = <[Z.to_nat i := e']> (live s))
    by (unfold live; cbn; by rewrite take_insert_lt by lia).
  rewrite live_get in He by done.
  assert (Hkeys : key <$> <[Z.to_nat i := e']> (live s) = key <$> live s).
  { rewrite list_fmap_insert, Hk. apply list_insert_id. by rewrite list_lookup_fmap, He. }
  assert (Hok : smc_ok (s <| keys := <[Z.to_nat i := e']> (keys s) |>)).
  { destruct Hs. constructor; rewrite ?Hlive; cbn; try done.
    - by rewrite length_insert.
    - by apply Forall_insert.
    - by rewrite Hkeys. }
  split; [done|]. split_and!; [done..| |].
  - cbn. by rewrite arr_get_insert_eq by lia.
  - pose proof (λ k e0, table_lookup _ k e0 Hok) as Htab. unfold store_of in *. cbn in *. f_equal.
    2:{ by rewrite Hlive. }
    apply map_eq. intros k. apply option_eq. intros e0. rewrite Htab, Hlive.
    destruct (decide (k = key e)) as [->|Hne].
    + rewrite lookup_insert_eq. split.
      * intros (j & Hj & Hkj). destruct (decide (j = Z.to_nat i)) as [->|Hji].
        { rewrite list_lookup_insert_eq in Hj by (apply lookup_lt_Some in He; done). done. }
        rewrite list_lookup_insert_ne in Hj by done. exfalso. apply Hji.
        apply (NoDup_lookup (key <$> live s) j (Z.to_nat i) (key e) (ok_unique s Hs)).
        -- by rewrite list_lookup_fmap, Hj; cbn; rewrite Hkj.
        -- by rewrite list_lookup_fmap, He.
      * intros [= <-]. exists (Z.to_nat i). split; [|done].
        apply list_lookup_insert_eq. by eapply lookup_lt_Some.
    + rewrite lookup_insert_ne by done. pose proof (table_lookup s k e0 Hs) as Ht. cbn in Ht. rewrite Ht.
      split; intros (j & Hj & Hkj); exists j; (split; [|done]).
      * destruct (decide (j = Z.to_nat i)) as [->|]; [|by rewrite list_lookup_insert_ne in Hj].
        rewrite list_lookup_insert_eq in Hj by (by eapply lookup_lt_Some). injection Hj as <-. congruence.
      * destruct (decide (j = Z.to_nat i)) as [->|]; [|by rewrite list_lookup_insert_ne].
        rewrite He in Hj. injection Hj as <-. congruence.
Qed.

Lemma order_length s : smc_ok s → Z.of_nat (length (order (store_of s))) = key_count s.
Proof.
  intros Hs. cbn. rewrite length_fmap, live_length by done. pose proof (ok_count s Hs). lia.
Qed.

Lemma empty_entry_ok k : fits 32 k → entry_ok (empty_entry <| key := k |>).
Proof.
  intros Hk. split; [done|]. split; [cbn; lia|]. split; [done|].
  apply Forall_replicate. unfold fits. lia.
Qed.

Lemma add_spec s k :
  smc_ok s → fits 32 k → key_count s < 8 → table (store_of s) !! k = None →
  ∃ s', smc_add_key s k = Some (Some (key_count s), s') ∧ smc_ok s' ∧ sram s' = sram s ∧
    sram_addr s' = sram_addr s ∧ key_count s' = key_count s + 1 ∧
    arr_get (keys s') (key_count s) = Some (empty_entry <| key := k |>) ∧
    store_of s' = {| table := <[k := empty_entry <| key := k |>]> (table (store_of s));
                     order := order (store_of s) ++ [k] |}.
Proof.
  intros Hs Hk Hlt Hnone. pose proof (ok_count s Hs) as Hc. pose proof (ok_keys s Hs) as Hl.
  unfold smc_add_key, VF_SMC_MAX_KEYS. tests. rewrite arr_set_lt by lia. cbn [mbind option_bind].
  rewrite wrap_id by (unfold fits; lia). set (e := empty_entry <| key := k |>).
  assert (Hlive : live (s <| keys := <[Z.to_nat (key_count s) := e]> (keys s) |>
    <| key_count := key_count s + 1 |>) = live s ++ [e]).
  { unfold live. cbn. replace (Z.to_nat (key_count s + 1)) with (S (Z.to_nat (key_count s))) by lia.
    rewrite (take_S_r _ _ e) by (apply list_lookup_insert_eq; lia). by rewrite take_insert_ge by lia. }
  assert (Hfresh : k ∉ key <$> live s).
  { intros (i & Hi)%list_elem_of_lookup_1. rewrite list_lookup_fmap in Hi.
    destruct (live s !! i) as [e0|] eqn:E; [|done]. cbn in Hi. injection Hi as Hi.
    assert (table (store_of s) !! k = Some e0) by (apply table_lookup; eauto). congruence. }
  eexists. split; [done|].
  assert (Hok : smc_ok (s <| keys := <[Z.to_nat (key_count s) := e]> (keys s) |>
    <| key_count := key_count s + 1 |>)).
  { destruct Hs. constructor; rewrite ?Hlive; cbn; try done; try lia.
    - by rewrite length_insert.
    - apply Forall_app. split; [done|]. constructor; [by apply empty_entry_ok|done].
    - rewrite fmap_app. cbn. apply list.NoDup_app. split; [done|]. split; [|apply NoDup_singleton].
      intros x Hx ->%list_elem_of_singleton. done. }
  split; [done|]. split_and!; [done..| |].
  - cbn. by rewrite arr_get_insert_eq by lia.
  - pose proof (λ k' e0, table_lookup _ k' e0 Hok) as Htab. unfold store_of in *. cbn in *.
    rewrite Hlive in *. f_equal; [|by rewrite fmap_app].
    apply map_eq. intros k'. apply option_eq. intros e0. rewrite Htab.
    pose proof (table_lookup s k' e0 Hs) as Ht. cbn in Ht.
    destruct (decide (k' = k)) as [->|Hne].
    + rewrite lookup_insert_eq. split.
      * intros (i & Hi & Hki). apply lookup_app_Some in Hi as [Hi|[_ Hi]].
        -- exfalso. apply Hfresh. apply list_elem_of_fmap. exists e0. split; [done|].
           by eapply list_elem_of_lookup_2.
        -- apply list_lookup_singleton_Some in Hi as [_ <-]. done.
      * intros [= <-]. exists (length (live s)). split; [|done].
        by rewrite lookup_app_r, Nat.sub_diag by lia.
    + rewrite lookup_insert_ne by done. rewrite Ht. split; intros (i & Hi & Hki).
      * apply lookup_app_Some in Hi as [Hi|[_ Hi]]; [by eauto|].
        apply list_lookup_singleton_Some in Hi as [_ <-]. by cbn in Hki.
      * exists i. split; [|done]. by apply lookup_app_l_Some.
Qed.

(** Only the payload buffer changes. *)
Lemma sram_update s m :
  smc_ok s → Z.of_nat (length m) = VF_SMC_SRAM_SIZE → Forall is_byte m →
  smc_ok (s <| sram := m |>) ∧ store_of (s <| sram := m |>) = store_of s.
Proof. intros [] Hl Hb. by split. Qed.

Lemma buf_write_0 buf bs :
  (length bs ≤ length buf)%nat → buf_write buf 0 bs = Some (bs ++ drop (length bs) buf).
Proof. intros. by rewrite buf_write_Some by lia. Qed.

Lemma buf_read_0 buf n :
  0 ≤ n → n ≤ Z.of_nat (length buf) → buf_read buf 0 n = Some (take (Z.to_nat n) buf).
Proof. intros. by rewrite buf_read_Some by lia. Qed.

Lemma take_bytes n (l : bytes) : Forall is_byte l → Forall is_byte (take n l).
Proof. apply Forall_take. Qed.

Lemma byte_u8 x : is_byte (u8 x).
Proof. by apply (fits_wrap 8). Qed.

Lemma be_bytes_ok k : Forall is_byte (be_bytes k).
Proof. unfold be_bytes. foralls; apply byte_u8. Qed.

(** What a read leaves: response, status, store and buffer as specified. *)
Lemma read_data_spec s i e r k :
  smc_ok s → 0 ≤ i < key_count s → arr_get (keys s) i = Some e → key e = k → entry_ok e →
  table (store_of s) !! k = Some e → length (r_response r) = 4%nat → r_status r = 0 →
  ∃ st r' s', smc_read_key_data s i r = Some (st, r', s') ∧ smc_ok s' ∧
    spec_read (store_of s) (sram s) r k = (r' <| r_status := st |>, store_of s', sram s').
Proof.
  intros Hs Hi He Hk (Hk32 & Hsz & Hdl & Hdb) Htab Hresp Hst.
  pose proof (ok_sram_len s Hs) as Hsl. unfold VF_SMC_SRAM_SIZE in Hsl.
  unfold smc_read_key_data, spec_read. rewrite He, Htab. cbn [mbind option_bind].
  destruct (negb (nz (readable e))) eqn:Erd.
  { eexists _, _, s. split; [done|]. by split. }
  rewrite Hk. set (e' := if k =? VF_SMC_KEY_NKEY then _ else e).
  set (st' := if k =? VF_SMC_KEY_NKEY then _ else store_of s).
  assert (Hmid : ∃ s1, (if k =? VF_SMC_KEY_NKEY then
      entry_update s i (λ e, d ← buf_write (data e) 0 (le32_split (u32 (key_count s)));
        Some (e <| data := d |>)) else Some s) = Some s1 ∧ smc_ok s1 ∧ sram s1 = sram s ∧
    arr_get (keys s1) i = Some e' ∧ store_of s1 = st' ∧ size e' = size e ∧ length (data e') = 8%nat ∧
    Forall is_byte (data e')).
  { unfold e', st'. destruct (k =? VF_SMC_KEY_NKEY) eqn:En; [|by exists s].
    rewrite (wrap_id 32) by (pose proof (ok_count s Hs); unfold fits; lia).
    rewrite <- (order_length s Hs). set (cnt := Z.of_nat (length (order (store_of s)))).
    set (d := le32_split cnt ++ drop 4 (data e)).
    assert (Hd : length d = 8%nat ∧ Forall is_byte d).
    { unfold d. rewrite length_app, length_drop, Hdl. split; [done|]. apply Forall_app.
      split; [apply le32_split_bytes|by apply Forall_drop]. }
    destruct (entry_update_spec s i e (λ e, d ← buf_write (data e) 0 (le32_split cnt);
      Some (e <| data := d |>)) (e <| data := d |>) Hs Hi He) as (s1 & H1 & H2 & H3 & _ & _ & H4 & H5).
    - by rewrite buf_write_0 by (rewrite Hdl; unfold le32_split; cbn; lia).
    - done.
    - split; [done|]. split; [done|]. exact Hd.
    - exists s1. split_and!; try done; try apply Hd. rewrite H5, Hk. done. }
  destruct Hmid as (s1 & -> & Hs1 & Hm1 & He1 & Hst1 & Hsz1 & Hdl1 & Hdb1). cbn [mbind option_bind].
  rewrite He1. cbn [mbind option_bind]. cbv zeta. rewrite Hsz1.
  destruct (size e <=? 4) eqn:E4.
  - rewrite buf_read_0 by lia. cbn [mbind option_bind].
    rewrite buf_write_0 by (cbn; rewrite length_take; lia). cbn [mbind option_bind].
    eexists _, _, s1. split; [done|]. split; [done|]. rewrite Hst1, Hm1. do 2 f_equal.
    cbn. rewrite length_take, Hdl1. by replace (Z.to_nat (size e) `min` 8)%nat with (Z.to_nat (size e)) by lia.
  - replace (size e <=? 8) with true by lia. rewrite buf_read_0 by lia. cbn [mbind option_bind].
    rewrite buf_write_0 by (rewrite length_take, Hm1; lia). cbn [mbind option_bind].
    assert (Hlen : length (take (Z.to_nat (size e)) (data e')) = Z.to_nat (size e))
      by (rewrite length_take; lia).
    destruct (sram_update s1 (take (Z.to_nat (size e)) (data e') ++
      drop (Z.to_nat (size e)) (sram s)) Hs1) as [Hs2 Hst2].
    { unfold VF_SMC_SRAM_SIZE. rewrite length_app, length_drop, Hlen. lia. }
    { apply Forall_app. split; [by apply Forall_take|]. apply Forall_drop, (ok_sram s Hs). }
    rewrite Hlen, Hm1. eexists _, _, _. split; [done|]. split; [done|]. rewrite Hst2, Hst1. done.
Qed.

Lemma info_spec s i e k :
  smc_ok s → arr_get (keys s) i = Some e → key e = k → entry_ok e →
  ∃ s', smc_get_key_info s i = Some s' ∧ smc_ok s' ∧ store_of s' = store_of s ∧
    sram s' = [size e] ++ be_bytes k ++ [4] ++ drop 6 (sram s).
Proof.
  intros Hs He Hk (Hk32 & Hsz & _). unfold smc_get_key_info. rewrite He. cbn [mbind option_bind].
  pose proof (ok_sram_len s Hs) as Hsl. unfold VF_SMC_SRAM_SIZE in *.
  rewrite wrap_id by (unfold fits; lia). tests. rewrite buf_write_0 by (cbn; lia).
  cbn [mbind option_bind]. rewrite Hk. eexists. split; [done|].
  destruct (sram_update s ([size e; u8 (Z.shiftr k 24); u8 (Z.shiftr k 16); u8 (Z.shiftr k 8); u8 k; 4]
    ++ drop 6 (sram s)) Hs) as [H1 H2].
  { unfold VF_SMC_SRAM_SIZE. rewrite length_app, length_drop. cbn. lia. }
  { apply Forall_app. split; [|apply Forall_drop, (ok_sram s Hs)].
    foralls; try apply byte_u8; unfold fits; lia. }
  by split_and!.
Qed.

Lemma new_data_ok n (l : bytes) rest :
  (n ≤ 8)%nat → (8 ≤ length l)%nat → Forall is_byte l → length rest = 8%nat → Forall is_byte rest →
  length (take n l ++ drop n rest) = 8%nat ∧ Forall is_byte (take n l ++ drop n rest).
Proof.
  intros Hn Hl Hb Hr Hrb. split.
  - rewrite length_app, length_take, length_drop. lia.
  - apply Forall_app. split; [by apply Forall_take|by apply Forall_drop].
Qed.

Lemma write_spec s m :
  smc_ok s → fits 32 (m_key m) → 0 ≤ m_length m →
  ∃ st s', smc_write_key s m = Some (st, s') ∧ smc_ok s' ∧ sram s' = sram s ∧
    spec_write (store_of s) (sram s) (m_key m) (m_length m) = (st, store_of s').
Proof.
  intros Hs Hk Hlen. pose proof (ok_sram_len s Hs) as Hsl. unfold VF_SMC_SRAM_SIZE in Hsl.
  unfold smc_write_key, spec_write.
  destruct (find_spec s (m_key m) Hs) as [(i & e & -> & Hi & He & Hke & Htab & Hok)|[-> Htab]];
    cbn [mbind option_bind]; rewrite Htab.
  - rewrite He. cbn [mbind option_bind]. destruct (negb (nz (writable e))); cbn [orb]; [by eauto 6|].
    rewrite Z.ltb_antisym. destruct (m_length m <=? 8) eqn:El; cbn [negb]; [|by eauto 6].
    destruct Hok as (Hk32 & Hsz & Hdl & Hdb). rewrite buf_read_0 by lia. cbn [mbind option_bind].
    destruct (new_data_ok (Z.to_nat (m_length m)) (sram s) (data e)) as [Hn1 Hn2];
      [lia|lia|apply (ok_sram s Hs)|done|done|].
    destruct (entry_update_spec s i e (λ e, d ← buf_write (data e) 0 (take (Z.to_nat (m_length m)) (sram s));
      Some (e <| size := m_length m |> <| data := d |>))
      (e <| size := m_length m |> <| data := take (Z.to_nat (m_length m)) (sram s) ++
         drop (Z.to_nat (m_length m)) (data e) |>) Hs Hi He) as (s' & -> & H2 & H3 & _ & _ & _ & H5).
    + rewrite buf_write_0 by (rewrite length_take; lia). cbn [mbind option_bind].
      by replace (length (take (Z.to_nat (m_length m)) (sram s))) with (Z.to_nat (m_length m))
        by (rewrite length_take; lia).
    + done.
    + by split_and!; cbn; try lia.
    + cbn [mbind option_bind]. eexists _, s'. split; [done|]. split; [done|]. split; [done|].
      rewrite H5, Hke. done.
  - rewrite order_length by done. unfold VF_SMC_MAX_KEYS.
    destruct ((8 <? m_length m) || (8 <=? key_count s)) eqn:E; [by eauto 6|].
    destruct (add_spec s (m_key m) Hs Hk) as (s1 & -> & Hs1 & Hm1 & _ & Hc1 & He1 & Hst1); [lia|done|].
    cbn [mbind option_bind]. pose proof (ok_count s Hs) as Hc0.
    set (e0 := empty_entry <| key := m_key m |>) in *. pose proof (empty_entry_ok (m_key m) Hk) as (_ & _ & Hd0 & Hb0).
    destruct (entry_update_spec s1 (key_count s) e0
      (λ e, Some (e <| size := m_length m |> <| writable := 1 |> <| readable := 1 |>))
      (e0 <| size := m_length m |> <| writable := 1 |> <| readable := 1 |>) Hs1) as
      (s2 & -> & Hs2 & Hm2 & Hc2 & _ & He2 & Hst2); [lia|done|done|done|by split_and!; cbn; try lia|].
    cbn [mbind option_bind]. tests. rewrite Hm2, Hm1, buf_read_0 by lia. cbn [mbind option_bind].
    destruct (new_data_ok (Z.to_nat (m_length m)) (sram s) (replicate 8 0)) as [Hn1 Hn2];
      [lia|lia|apply (ok_sram s Hs)|done|done|].
    set (e2 := e0 <| size := m_length m |> <| writable := 1 |> <| readable := 1 |>) in *.
    destruct (entry_update_spec s2 (key_count s) e2
      (λ e, d ← buf_write (data e) 0 (take (Z.to_nat (m_length m)) (sram s)); Some (e <| data := d |>))
      (e2 <| data := take (Z.to_nat (m_length m)) (sram s) ++ drop (Z.to_nat (m_length m)) (replicate 8 0) |>)
      Hs2) as (s3 & -> & Hs3 & Hm3 & _ & _ & _ & Hst3).
    + lia.
    + done.
    + change (data e2) with (replicate 8 0). rewrite buf_write_0 by (rewrite length_take, length_replicate; lia).
      cbn [mbind option_bind].
      by replace (length (take (Z.to_nat (m_length m)) (sram s))) with (Z.to_nat (m_length m))
        by (rewrite length_take; lia).
    + done.
    + by split_and!; cbn; try lia.
    + cbn [mbind option_bind]. eexists _, s3. split; [done|]. split; [done|]. split; [congruence|].
      rewrite Hst3, Hst2, Hst1. cbn [table order]. change (key e2) with (m_key m). change (key e0) with (m_key m).
      rewrite !insert_insert_eq. rewrite drop_replicate. done.
Qed.

Definition msg_ok (m : vf_smc_key_msg) : Prop :=
  is_byte (m_cmd m) ∧ is_byte (m_tag m) ∧ is_byte (m_length m) ∧ fits 32 (m_key m).

Lemma unpack_ok w : fits 64 w → msg_ok (unpack_msg w).
Proof.
  intros Hw. unfold msg_ok, unpack_msg; cbn.
  split_and!; apply fits_land_r; try lia; unfold fits; lia.
Qed.

Lemma respond_refines s m :
  smc_ok s → msg_ok m →
  ∃ r s', smc_respond s m = Some (r, s') ∧ smc_ok s' ∧
    spec_respond (store_of s) (sram s) m = (r, store_of s', sram s').
Proof.
  intros Hs (Hcmd & Htag & Hlen & Hkey). unfold smc_respond, spec_respond.
  destruct ((m_cmd m =? VF_SMC_CMD_READ_KEY) || (m_cmd m =? VF_SMC_CMD_READ_KEY_PAYLOAD)).
  { destruct (find_spec s (m_key m) Hs) as [(i & e & -> & Hi & He & Hke & Htab & Hok)|[-> Htab]];
      cbn [mbind option_bind].
    - destruct (read_data_spec s i e (empty_resp <| r_tag := m_tag m |>) (m_key m))
        as (st & r' & s' & -> & Hs' & Hspec); [done..|]. cbn [mbind option_bind].
      eexists _, s'. split; [done|]. split; [done|]. exact Hspec.
    - eexists _, s. split; [done|]. split; [done|]. unfold spec_read. by rewrite Htab. }
  destruct (m_cmd m =? VF_SMC_CMD_GET_KEY_INFO).
  { destruct (find_spec s (m_key m) Hs) as [(i & e & -> & Hi & He & Hke & Htab & Hok)|[-> Htab]];
      cbn [mbind option_bind]; unfold spec_info; rewrite Htab; [|by eauto].
    destruct (info_spec s i e (m_key m)) as (s' & -> & Hs' & Hst & Hm); [done..|]. cbn [mbind option_bind].
    eexists _, s'. split; [done|]. split; [done|]. by rewrite Hst, Hm. }
  destruct (m_cmd m =? VF_SMC_CMD_GET_KEY_BY_INDEX).
  { unfold spec_index. destruct (key_count s <=? m_key m) eqn:E.
    - rewrite (proj2 (arr_get_None _ _)) by (rewrite order_length by done; lia). by eauto.
    - assert (Hr : 0 ≤ m_key m < key_count s) by (unfold fits in Hkey; lia).
      destruct (arr_get_lt (keys s) (m_key m)) as [e He];
        [rewrite (ok_keys s Hs); pose proof (ok_count s Hs); lia|].
      rewrite He. cbn [mbind option_bind]. rewrite live_get in He by done.
      unfold arr_get. rewrite bool_decide_true by lia. cbn [order store_of].
      rewrite list_lookup_fmap, He. by eauto. }
  destruct (m_cmd m =? VF_SMC_CMD_WRITE_KEY).
  { destruct (write_spec s m Hs Hkey) as (st & s' & -> & Hs' & Hm & ->); [unfold fits in Hlen; lia|].
    cbn [mbind option_bind]. eexists _, s'. split; [done|]. split; [done|]. by rewrite Hm. }
  by eauto.
Qed.

(** ** Message sequences *)

Fixpoint handle_all (s : vf_smc_v1) (msgs : list Z) : option (list Z * vf_smc_v1) :=
  match msgs with
  | [] => Some ([], s)
  | w :: msgs =>
    '(_, out, p) ← vf_smc_handle_msg (Some s) w true;
    s1 ← p; x ← out; '(outs, s2) ← handle_all s1 msgs; Some (x :: outs, s2)
  end.

(** The specification's answers. *)
Fixpoint spec_all (st : store) (mem : bytes) (addr : Z) (msgs : list Z) : list Z * store * bytes :=
  match msgs with
  | [] => ([], st, mem)
  | w :: msgs =>
    let m := unpack_msg w in
    let '(x, st1, mem1) :=
      if m_cmd m =? VF_SMC_CMD_GET_SRAM_ADDR then (addr, st, mem)
      else let '(r, st1, mem1) := spec_respond st mem m in (pack_resp r, st1, mem1) in
    let '(outs, st2, mem2) := spec_all st1 mem1 addr msgs in (x :: outs, st2, mem2)
  end.

Lemma respond_addr s m r s' : smc_respond s m = Some (r, s') → sram_addr s' = sram_addr s.
Proof.
  assert (Hup : ∀ s i f s', entry_update s i f = Some s' → sram_addr s' = sram_addr s).
  { intros s0 i f s0' H. unfold entry_update in H.
    repeat (apply bind_Some in H as (? & _ & H)). by simplify_eq. }
  assert (Hadd : ∀ s k p s', smc_add_key s k = Some (p, s') → sram_addr s' = sram_addr s).
  { intros s0 k p s0' H. unfold smc_add_key in H. case_match; [by simplify_eq|].
    repeat (apply bind_Some in H as (? & _ & H)). by simplify_eq. }
  assert (Hrd : ∀ s i r st r' s', smc_read_key_data s i r = Some (st, r', s') → sram_addr s' = sram_addr s).
  { intros s0 i r0 st r0' s0' H. unfold smc_read_key_data in H.
    apply bind_Some in H as (e & _ & H). case_match; [by simplify_eq|].
    apply bind_Some in H as (s1 & Hs1 & H). assert (sram_addr s1 = sram_addr s0) as <-
      by (case_match; [by eapply Hup|by simplify_eq]).
    apply bind_Some in H as (e1 & _ & H).
    repeat (case_match || (apply bind_Some in H as (? & _ & H))); by simplify_eq. }
  unfold smc_respond. intros H. repeat case_match; simplify_eq; try done.
  - apply bind_Some in H as (p & _ & H). destruct p; [|by simplify_eq].
    apply bind_Some in H as ([[st r'] s1] & Hs1 & H). simplify_eq. by eapply Hrd.
  - apply bind_Some in H as (p & _ & H). destruct p; [|by simplify_eq].
    apply bind_Some in H as (s1 & Hs1 & H). simplify_eq. unfold smc_get_key_info in Hs1.
    repeat (case_match || (apply bind_Some in Hs1 as (? & _ & Hs1))); by simplify_eq.
  - apply bind_Some in H as (e & _ & H). by simplify_eq.
  - apply bind_Some in H as ([st s1] & Hs1 & H). simplify_eq. unfold smc_write_key in Hs1.
    apply bind_Some in Hs1 as (p & _ & Hs1). destruct p.
    + apply bind_Some in Hs1 as (e & _ & Hs1). repeat case_match; simplify_eq; try done.
      apply bind_Some in Hs1 as (bs & _ & Hs1). apply bind_Some in Hs1 as (s2 & Hq2 & Hs1).
      simplify_eq. by eapply Hup.
    + case_match; [by simplify_eq|]. apply bind_Some in Hs1 as ([q s2] & Hq2 & Hs1).
      apply Hadd in Hq2. apply bind_Some in Hs1 as (i & _ & Hs1).
      apply bind_Some in Hs1 as (s3 & Hq3 & Hs1). apply Hup in Hq3.
      apply bind_Some in Hs1 as (s4 & Hq4 & Hs1). simplify_eq.
      case_match; [|by simplify_eq; congruence].
      apply bind_Some in Hq4 as (bs & _ & Hq4). apply Hup in Hq4. congruence.
Qed.

Lemma handle_all_refines s msgs :
  smc_ok s → Forall (fits 64) msgs →
  ∃ outs s', handle_all s msgs = Some (outs, s') ∧ smc_ok s' ∧
    spec_all (store_of s) (sram s) (sram_addr s) msgs = (outs, store_of s', sram s').
Proof.
  intros Hs Hm. revert s Hs. induction Hm as [|w msgs Hw _ IH]; intros s Hs; [by eauto|].
  cbn [handle_all spec_all]. unfold vf_smc_handle_msg. cbv zeta.
  destruct (m_cmd (unpack_msg w) =? VF_SMC_CMD_GET_SRAM_ADDR).
  - cbn [mbind option_bind]. destruct (IH s Hs) as (outs & s' & -> & Hs' & ->). cbn. by eauto.
  - destruct (respond_refines s (unpack_msg w) Hs (unpack_ok w Hw)) as (r & s1 & Hr & Hs1 & ->).
    rewrite Hr. cbn [mbind option_bind]. rewrite <- (respond_addr _ _ _ _ Hr).
    destruct (IH s1 Hs1) as (outs & s' & -> & Hs' & ->). cbn. by eauto.
Qed.

(** A message that does not write key [k]. *)
Definition no_write (k w : Z) : Prop :=
  m_cmd (unpack_msg w) = VF_SMC_CMD_WRITE_KEY → m_key (unpack_msg w) ≠ k.

Lemma spec_respond_keeps st mem m r st' mem' k :
  spec_respond st mem m = (r, st', mem') → k ≠ VF_SMC_KEY_NKEY →
  (m_cmd m = VF_SMC_CMD_WRITE_KEY → m_key m ≠ k) → table st' !! k = table st !! k.
Proof.
  unfold spec_respond. intros H Hk Hno.
  destruct ((m_cmd m =? VF_SMC_CMD_READ_KEY) || (m_cmd m =? VF_SMC_CMD_READ_KEY_PAYLOAD)).
  { unfold spec_read in H. destruct (Z.eqb_spec (m_key m) VF_SMC_KEY_NKEY) as [E|E].
    - repeat case_match; simplify_eq; cbn; rewrite ?lookup_insert_ne by congruence; done.
    - repeat case_match; by simplify_eq. }
  destruct (m_cmd m =? VF_SMC_CMD_GET_KEY_INFO).
  { unfold spec_info in H. repeat case_match; by simplify_eq. }
  destruct (m_cmd m =? VF_SMC_CMD_GET_KEY_BY_INDEX).
  { unfold spec_index in H. repeat case_match; by simplify_eq. }
  destruct (Z.eqb_spec (m_cmd m) VF_SMC_CMD_WRITE_KEY) as [E|E]; [|by simplify_eq].
  specialize (Hno E). unfold spec_write in H.
  repeat case_match; simplify_eq; cbn; rewrite ?lookup_insert_ne by done; done.
Qed.

Lemma spec_all_app st mem addr l1 l2 :
  spec_all st mem addr (l1 ++ l2) =
    let '(o1, st1, mem1) := spec_all st mem addr l1 in
    let '(o2, st2, mem2) := spec_all st1 mem1 addr l2 in (o1 ++ o2, st2, mem2).
Proof.
  revert st mem. induction l1 as [|w l1 IH]; intros st mem; cbn [app spec_all].
  { by destruct (spec_all st mem addr l2) as [[? ?] ?]. }
  destruct (if m_cmd (unpack_msg w) =? VF_SMC_CMD_GET_SRAM_ADDR then _ else _) as [[x st1] mem1].
  rewrite IH. destruct (spec_all st1 mem1 addr l1) as [[o1 st2] mem2].
  by destruct (spec_all st2 mem2 addr l2) as [[o2 st3] mem3].
Qed.

Lemma spec_all_keeps st mem addr msgs outs st' mem' k :
  spec_all st mem addr msgs = (outs, st', mem') → k ≠ VF_SMC_KEY_NKEY → Forall (no_write k) msgs →
  table st' !! k = table st !! k.
Proof.
  intros H Hk Hm. revert st mem outs H. induction Hm as [|w msgs Hw _ IH]; intros st mem outs H.
  { cbn in H. by simplify_eq. }
  cbn [spec_all] in H. destruct (m_cmd (unpack_msg w) =? VF_SMC_CMD_GET_SRAM_ADDR).
  - destruct (spec_all st mem addr msgs) as [[o st2] mem2] eqn:E. simplify_eq. by eapply IH.
  - destruct (spec_respond st mem (unpack_msg w)) as [[r st1] mem1] eqn:Er.
    destruct (spec_all st1 mem1 addr msgs) as [[o st2] mem2] eqn:E. simplify_eq.
    rewrite (IH _ _ _ E). by eapply spec_respond_keeps.
Qed.

(** The entry an accepted write leaves. *)
Lemma written_entry s m k r st mem :
  smc_ok s → m_cmd m = VF_SMC_CMD_WRITE_KEY → m_key m = k → m_length m ≤ 4 →
  match table (store_of s) !! k with
  | None => key_count s < 8
  | Some e => nz (readable e) = true ∧ nz (writable e) = true
  end →
  spec_respond (store_of s) (sram s) m = (r, st, mem) →
  ∃ e, table st !! k = Some e ∧ size e = m_length m ∧ nz (readable e) = true ∧
    take (Z.to_nat (m_length m)) (data e) = take (Z.to_nat (m_length m)) (sram s).
Proof.
  intros Hs Hcmd Hkey Hlen Hpre H. pose proof (ok_sram_len s Hs) as Hsl. unfold VF_SMC_SRAM_SIZE in Hsl.
  assert (Hbs : length (take (Z.to_nat (m_length m)) (sram s)) = Z.to_nat (m_length m))
    by (rewrite length_take; lia).
  unfold spec_respond in H. rewrite Hcmd, Hkey in H.
  repeat (rewrite (proj2 (Z.eqb_neq VF_SMC_CMD_WRITE_KEY _)) in H by done).
  rewrite Z.eqb_refl in H. cbn [orb] in H. unfold spec_write in H.
  destruct (table (store_of s) !! k) as [e|] eqn:Et.
  - destruct Hpre as [Hrd Hwr]. rewrite Hwr in H. cbn [negb orb] in H.
    rewrite (proj2 (Z.ltb_ge 8 _)) in H by lia. injection H as _ <- _. cbn.
    rewrite lookup_insert_eq. eexists. split; [done|]. cbn. split; [done|]. split; [done|].
    by rewrite take_app_length'.
  - rewrite order_length in H by done. rewrite (proj2 (Z.ltb_ge 8 _)), (proj2 (Z.leb_gt 8 _)) in H by lia.
    cbn [orb] in H. injection H as _ <- _. cbn. rewrite lookup_insert_eq. eexists. split; [done|]. cbn.
    split; [done|]. split; [done|]. by rewrite take_app_length'.
Qed.

(** A WRITE of a key the table does not hold succeeds and creates the key, readable and
    writable, while there is room.  SMC.md lists that as deferred and says that missing keys
    are answered with [VF_SMC_KEY_NOT_FOUND]; that is what happens when the table is full or
    the payload too long. *)
Lemma unknown_key_write s m :
  smc_ok s → msg_ok m → m_cmd m = VF_SMC_CMD_WRITE_KEY → table (store_of s) !! m_key m = None →
  ∃ r s', smc_respond s m = Some (r, s') ∧ smc_ok s' ∧
    if decide (m_length m ≤ 8 ∧ key_count s < 8) then
      r_status r = VF_SMC_SUCCESS ∧ order (store_of s') = order (store_of s) ++ [m_key m] ∧
      ∃ e, table (store_of s') !! m_key m = Some e ∧ readable e = 1 ∧ writable e = 1 ∧ size e = m_length m
    else r_status r = VF_SMC_KEY_NOT_FOUND ∧ store_of s' = store_of s.
Proof.
  intros Hs Hm Hcmd Hnone. destruct (respond_refines s m Hs Hm) as (r & s' & Hr & Hs' & Hspec).
  exists r, s'. split; [done|]. split; [done|]. unfold spec_respond in Hspec. rewrite Hcmd in Hspec.
  repeat (rewrite (proj2 (Z.eqb_neq VF_SMC_CMD_WRITE_KEY _)) in Hspec by done).
  rewrite Z.eqb_refl in Hspec. cbn [orb] in Hspec. unfold spec_write in Hspec. rewrite Hnone, order_length in Hspec by done.
  case_decide.
  - rewrite (proj2 (Z.ltb_ge 8 _)), (proj2 (Z.leb_gt 8 _)) in Hspec by lia. cbn [orb] in Hspec. pose proof (f_equal (λ p, p.1.1) Hspec) as Hr1. pose proof (f_equal (λ p, p.1.2) Hspec) as Hst. cbn [fst snd] in Hr1, Hst. rewrite <- Hr1, <- Hst.
    split; [done|]. split; [done|]. eexists. split; [apply lookup_insert_eq|]. done.
  - assert ((8 <? m_length m) || (8 <=? key_count s) = true) as Hb by lia. rewrite Hb in Hspec. pose proof (f_equal (λ p, p.1.1) Hspec) as Hr1. pose proof (f_equal (λ p, p.1.2) Hspec) as Hst. cbn [fst snd] in Hr1, Hst. rewrite <- Hr1, <- Hst. done.
Qed.

(** The boot keys. *)
Definition boot_entries : list vf_smc_key_entry := [
  {| key := VF_SMC_KEY_NKEY; size := 4; readable := 1; writable := 0; data := replicate 8 0 |};
  {| key := VF_SMC_KEY_CLKH; size := 8; readable := 1; writable := 0;
     data := [0x00; 0x00; 0x70; 0x80; 0x00; 0x01; 0x19; 0x40] |};
  {| key := VF_SMC_KEY_RGEN; size := 1; readable := 1; writable := 0; data := [3; 0; 0; 0; 0; 0; 0; 0] |};
  {| key := VF_SMC_KEY_ADC; size := 4; readable := 1; writable := 0; data := replicate 8 0 |};
  {| key := VF_SMC_KEY_MBSE; size := 4; readable := 0; writable := 1; data := replicate 8 0 |};
  {| key := VF_SMC_KEY_NESN; size := 4; readable := 0; writable := 1; data := replicate 8 0 |}].

Definition boot_state : vf_smc_v1 := {|
  keys := boot_entries ++ replicate 2 empty_entry; key_count := 6; sram_addr := 0x100000000;
  sram := replicate (Z.to_nat VF_SMC_SRAM_SIZE) 0 |}.

Definition boot_store : store := {|
  table := list_to_map ((λ e, (key e, e)) <$> boot_entries);
  order := [VF_SMC_KEY_NKEY; VF_SMC_KEY_CLKH; VF_SMC_KEY_RGEN; VF_SMC_KEY_ADC; VF_SMC_KEY_MBSE;
            VF_SMC_KEY_NESN] |}.

Lemma boot_ok : smc_ok boot_state ∧ store_of boot_state = boot_store.
Proof.
  split; [|done]. constructor.
  - done.
  - cbn. lia.
  - change (live boot_state) with boot_entries.
    unfold boot_entries, entry_ok. foralls; cbn; (split; [unfold fits; vm_compute; split; congruence|]);
      (split; [lia|]); (split; [done|]).
    all: foralls; try (apply Forall_replicate); unfold fits; lia.
  - change (key <$> live boot_state) with (key <$> boot_entries). cbn.
    by apply (bool_decide_unpack _).
  - unfold boot_state. cbn. rewrite length_replicate. by vm_compute.
  - apply Forall_replicate. unfold fits. lia.
Qed.


(** ** Properties *)



(** Durability: a payload of at most 4 bytes written to a key other than the
    key-count key is what a later read of that key returns, with success status, its
    length and the reader's tag, whatever messages come in between except writes of
    the same key; the key must be new with room left, or readable and writable. *)
Theorem written_key_is_read_back s w mid w' k :
  smc_ok s → fits 64 w → Forall (fits 64) mid → fits 64 w' → k ≠ VF_SMC_KEY_NKEY →
  m_cmd (unpack_msg w) = VF_SMC_CMD_WRITE_KEY → m_key (unpack_msg w) = k →
  m_length (unpack_msg w) ≤ 4 →
  match table (store_of s) !! k with
  | None => key_count s < 8
  | Some e => nz (readable e) = true ∧ nz (writable e) = true
  end →
  Forall (no_write k) mid → m_cmd (unpack_msg w') = VF_SMC_CMD_READ_KEY → m_key (unpack_msg w') = k →
  ∃ outs s', handle_all s (w :: mid ++ [w']) = Some (outs, s') ∧
    list.last outs = Some (pack_resp {| r_status := VF_SMC_SUCCESS; r_tag := m_tag (unpack_msg w');
      r_length := m_length (unpack_msg w); r_unk3 := 0;
      r_response := take (Z.to_nat (m_length (unpack_msg w))) (sram s) ++
        replicate (4 - Z.to_nat (m_length (unpack_msg w))) 0 |}).
Proof.
  intros Hs Hw Hmid Hw' Hk Hcmd Hkey Hlen Hpre Hno Hcmd' Hkey'.
  destruct (handle_all_refines s (w :: mid ++ [w']) Hs) as (outs & s' & Hrun & _ & Hspec).
  { constructor; [done|]. apply Forall_app. split; [done|]. by constructor. }
  exists outs, s'. split; [done|]. cbn [spec_all] in Hspec. rewrite Hcmd in Hspec.
  change (VF_SMC_CMD_WRITE_KEY =? VF_SMC_CMD_GET_SRAM_ADDR) with false in Hspec.
  destruct (spec_respond (store_of s) (sram s) (unpack_msg w)) as [[r1 st1] mem1] eqn:E1.
  rewrite spec_all_app in Hspec.
  destruct (spec_all st1 mem1 (sram_addr s) mid) as [[o2 st2] mem2] eqn:E2.
  pose proof (spec_all_keeps _ _ _ _ _ _ _ k E2 Hk Hno) as Hkeep.
  destruct (written_entry s (unpack_msg w) k r1 st1 mem1) as (e & He & Hsz & Hrd & Hdata); [done..|].
  cbn [spec_all] in Hspec. rewrite Hcmd' in Hspec.
  change (VF_SMC_CMD_READ_KEY =? VF_SMC_CMD_GET_SRAM_ADDR) with false in Hspec.
  destruct (spec_respond st2 mem2 (unpack_msg w')) as [[r3 st3] mem3] eqn:E3.
  injection Hspec as <- _ _. rewrite list.last_cons, list.last_app. cbn [list.last].
  apply (f_equal (λ r, Some (pack_resp r))).
  unfold spec_respond in E3. rewrite Hcmd', Hkey' in E3. cbn [orb] in E3.
  change (VF_SMC_CMD_READ_KEY =? VF_SMC_CMD_READ_KEY) with true in E3. cbn [orb] in E3.
  unfold spec_read in E3. rewrite Hkeep, He, Hrd in E3. cbn [negb] in E3.
  rewrite (proj2 (Z.eqb_neq k _) Hk), Hsz in E3. rewrite (proj2 (Z.leb_le _ _) Hlen) in E3.
  injection E3 as <- _ _.
  change (Z.land (Z.shiftr w 16) 255) with (m_length (unpack_msg w)).
  rewrite Hdata, drop_replicate. reflexivity.
Qed.

Lemma written_key_is_read_back_witness :
  ∃ outs s', handle_all boot_state [0x1234567800020011; 0x434C4B4800000010; 0x1234567800000910] = Some (outs, s')
    ∧ list.last outs = Some (pack_resp {| r_status := 0; r_tag := 9; r_length := 2; r_unk3 := 0;
        r_response := [0; 0; 0; 0] |}).
Proof.
  apply (written_key_is_read_back boot_state 0x1234567800020011 [0x434C4B4800000010]
    0x1234567800000910 0x12345678).
  - exact (proj1 boot_ok).
  - unfold fits; lia.
  - repeat constructor; unfold fits; lia.
  - unfold fits; lia.
  - unfold VF_SMC_KEY_NKEY; lia.
  - reflexivity.
  - reflexivity.
  - vm_compute; congruence.
  - vm_compute. reflexivity.
  - repeat constructor. intros H. vm_compute in H. discriminate.
  - reflexivity.
  - reflexivity.
Defined.

End Smc.
