(* ===== verification/Sep.v ===== *)
(** The SEP mailbox, [devices/sep_mailbox_v1.c] and [sep_mailbox_v1.h].

    State: the status word, the flag word, the outgoing message and whether it
    waits to be read.  Operations: initialisation (which posts the bootstrap
    announcement), an incoming message (by call or through the [MSG_IN]
    register), the register reads (reading [MSG_OUT] takes the message), the
    interrupt level and the status query. *)
From S2P Require Import Prelude.
From S2P Require Import Words.
From S2P Require Import Mmio.

Module Sep.

Definition VF_SEP_TIER_L1_MAILBOX := 1.
Definition VF_SEP_STATUS_SLEEPING := 0.
Definition VF_SEP_STATUS_BOOTSTRAP := 1.
Definition VF_SEP_EP_BOOTSTRAP := 255.
Definition VF_SEP_BOOTSTRAP_OP_PING := 1.
Definition VF_SEP_BOOTSTRAP_OP_GET_STATUS := 2.
Definition VF_SEP_BOOTSTRAP_OP_PING_ACK := 101.
Definition VF_SEP_BOOTSTRAP_OP_STATUS_REPLY := 102.
Definition VF_SEP_BOOTSTRAP_OP_ANNOUNCE := 210.
Definition VF_SEP_BOOTSTRAP_OP_L1_REJECT := 0xFE.
Definition VF_SEP_FLAG_PRESENT := Z.shiftl 1 0.
Definition VF_SEP_FLAG_REPLY_PENDING := Z.shiftl 1 1.
Definition VF_SEP_MMIO_STATUS := 0x000.
Definition VF_SEP_MMIO_TIER := 0x004.
Definition VF_SEP_MMIO_FLAGS := 0x008.
Definition VF_SEP_MMIO_MSG_OUT := 0x010.
Definition VF_SEP_MMIO_MSG_IN := 0x018.

Record vf_sep_mbox_msg := { ep : Z; tag : Z; op : Z; param : Z; data : Z }.

Record vf_sep_mailbox_v1 := {
  status : Z;
  flags : Z;
  msg_out : Z;
  reply_pending : Z;
}.

(** The arguments are narrowed to the parameter types; the message struct is
    laid out little-endian in the word. *)
Definition pack_msg (ep tag op param data : Z) : Z :=
  let m := {| ep := u8 ep; tag := u8 tag; op := u8 op; param := u8 param; data := u32 data |} in
  Z.lor (Sep.ep m) (Z.lor (Z.shiftl (Sep.tag m) 8) (Z.lor (Z.shiftl (Sep.op m) 16)
    (Z.lor (Z.shiftl (Sep.param m) 24) (Z.shiftl (Sep.data m) 32)))).

Definition unpack_msg (raw : Z) : vf_sep_mbox_msg := {|
  ep := Z.land raw 0xff;
  tag := Z.land (Z.shiftr raw 8) 0xff;
  op := Z.land (Z.shiftr raw 16) 0xff;
  param := Z.land (Z.shiftr raw 24) 0xff;
  data := Z.land (Z.shiftr raw 32) 0xffffffff;
|}.

Definition vf_sep_mailbox_init (s : ptr vf_sep_mailbox_v1) : option (Z * ptr vf_sep_mailbox_v1) :=
  with_obj (-1) s (λ _,
    let s := {| status := VF_SEP_STATUS_BOOTSTRAP; flags := VF_SEP_FLAG_PRESENT; msg_out := 0;
                reply_pending := 0 |} in
    let s := s <| msg_out := pack_msg VF_SEP_EP_BOOTSTRAP 0 VF_SEP_BOOTSTRAP_OP_ANNOUNCE 0
                               VF_SEP_STATUS_BOOTSTRAP |> <| reply_pending := 1 |> in
    Some (0, s <| flags := Z.lor (flags s) VF_SEP_FLAG_REPLY_PENDING |>)).

Definition vf_sep_mailbox_irq_pending (s : ptr vf_sep_mailbox_v1) : Z :=
  match s with Some s => b2z (nz (reply_pending s)) | None => 0 end.

Definition vf_sep_mailbox_status (s : ptr vf_sep_mailbox_v1) : Z :=
  match s with Some s => status s | None => VF_SEP_STATUS_SLEEPING end.

(** [out]: whether the out-pointer is given; the answer is what is stored there. *)
Definition vf_sep_mailbox_handle_msg (s : ptr vf_sep_mailbox_v1) (msg_in : Z) (out : bool) :
    option (rd_result * ptr vf_sep_mailbox_v1) :=
  with_obj (-1, None) s (λ s,
    let m := unpack_msg msg_in in
    let reply :=
      if negb (ep m =? VF_SEP_EP_BOOTSTRAP)
      then pack_msg (ep m) (tag m) VF_SEP_BOOTSTRAP_OP_L1_REJECT (op m) 0
      else if op m =? VF_SEP_BOOTSTRAP_OP_PING
      then pack_msg VF_SEP_EP_BOOTSTRAP (tag m) VF_SEP_BOOTSTRAP_OP_PING_ACK 0 0
      else if op m =? VF_SEP_BOOTSTRAP_OP_GET_STATUS
      then pack_msg VF_SEP_EP_BOOTSTRAP (tag m) VF_SEP_BOOTSTRAP_OP_STATUS_REPLY 0 (status s)
      else pack_msg VF_SEP_EP_BOOTSTRAP (tag m) VF_SEP_BOOTSTRAP_OP_L1_REJECT (op m) 0 in
    Some ((0, if out then Some reply else None),
      s <| msg_out := reply |> <| reply_pending := 1 |>
        <| flags := Z.lor (flags s) VF_SEP_FLAG_REPLY_PENDING |>)).

Definition vf_sep_mailbox_read (s : ptr vf_sep_mailbox_v1) (offset width : Z) (value : bool) :
    option (rd_result * ptr vf_sep_mailbox_v1) :=
  with_obj (-1, None) s (λ s,
    if negb value then Some ((-1, None), s)
    else if offset =? VF_SEP_MMIO_STATUS then
      if negb (width =? 32) then Some ((-1, None), s) else Some ((0, Some (status s)), s)
    else if offset =? VF_SEP_MMIO_TIER then
      if negb (width =? 32) then Some ((-1, None), s) else Some ((0, Some VF_SEP_TIER_L1_MAILBOX), s)
    else if offset =? VF_SEP_MMIO_FLAGS then
      if negb (width =? 32) then Some ((-1, None), s) else Some ((0, Some (flags s)), s)
    else if offset =? VF_SEP_MMIO_MSG_OUT then
      if negb (width =? 64) then Some ((-1, None), s)
      else Some ((0, Some (msg_out s)),
        s <| reply_pending := 0 |> <| flags := Z.land (flags s) (bnot 32 VF_SEP_FLAG_REPLY_PENDING) |>)
    else Some ((-1, None), s)).

Definition vf_sep_mailbox_write (s : ptr vf_sep_mailbox_v1) (offset width value : Z) :
    option (Z * ptr vf_sep_mailbox_v1) :=
  match s with
  | None => Some (-1, None)
  | Some _ =>
    if negb (offset =? VF_SEP_MMIO_MSG_IN) then Some (-1, s)
    else if negb (width =? 64) then Some (-1, s)
    else '(r, s) ← vf_sep_mailbox_handle_msg s value false; Some (r.1, s)
  end.

(** ** The protocol *)

(** Byte [i] of a message. *)
Definition msg_byte (w i : Z) : Z := w / 2 ^ (8 * i) mod 256.

(** The reply: endpoint and tag are echoed; the bootstrap endpoint answers a
    ping and a status query (always with the bootstrap status 1); everything
    else is rejected with the opcode in the parameter byte. *)
Definition reply_to (w : Z) : Z :=
  let header code := msg_byte w 0 + 2 ^ 8 * msg_byte w 1 + 2 ^ 16 * code in
  if (msg_byte w 0 =? 255) && (msg_byte w 2 =? 1) then header 101
  else if (msg_byte w 0 =? 255) && (msg_byte w 2 =? 2) then header 102 + 2 ^ 32 * 1
  else header 254 + 2 ^ 24 * msg_byte w 2.

Definition announcement : Z := 255 + 2 ^ 16 * 210 + 2 ^ 32 * 1.

Inductive sep_op := Msg (w : Z) | Access (c : access).

Definition sep_op_ok (o : sep_op) : Prop :=
  match o with Msg w => fits 64 w | Access c => access_ok 64 c end.

(** The mailbox: the last outgoing message and whether it waits. *)
Definition mailbox : Type := Z * bool.

Definition mailbox_step (b : mailbox) (o : sep_op) : rd_result * mailbox :=
  let '(out, waits) := b in
  match o with
  | Msg w => ((0, Some (reply_to w)), (reply_to w, true))
  | Access (Wr off width w) =>
    if (off =? 0x18) && (width =? 64) then ((0, None), (reply_to w, true)) else ((-1, None), b)
  | Access (Rd off width) =>
    if (off =? 0x10) && (width =? 64) then ((0, Some out), (out, false))
    else if width =? 32 then
      if (off =? 0) || (off =? 4) then ((0, Some 1), b)
      else if off =? 8 then ((0, Some (if waits then 3 else 1)), b)
      else ((-1, None), b)
    else ((-1, None), b)
  end.

Fixpoint mailbox_run (b : mailbox) (os : list sep_op) : list rd_result * mailbox :=
  match os with
  | [] => ([], b)
  | o :: os =>
    let '(r, b) := mailbox_step b o in let '(rs, b) := mailbox_run b os in (r :: rs, b)
  end.

(** The device state that stands for a mailbox. *)
Definition device (b : mailbox) : vf_sep_mailbox_v1 := {|
  status := VF_SEP_STATUS_BOOTSTRAP; flags := if b.2 then 3 else 1; msg_out := b.1;
  reply_pending := b2z b.2 |}.

(** ** The messages *)

Lemma land_mask8 w i : 0 ≤ i → Z.land (Z.shiftr w (8 * i)) 0xff = msg_byte w i.
Proof.
  intros Hi. change 0xff with (Z.ones 8). rewrite Z.land_ones, Z.shiftr_div_pow2 by lia.
  reflexivity.
Qed.

Lemma msg_byte_fits w i : fits 8 (msg_byte w i).
Proof. unfold fits, msg_byte. dlia. Qed.

Lemma pack_sum e t o p d :
  fits 8 e → fits 8 t → fits 8 o → fits 8 p → fits 32 d →
  pack_msg e t o p d = e + 2 ^ 8 * t + 2 ^ 16 * o + 2 ^ 24 * p + 2 ^ 32 * d.
Proof.
  intros He Ht Ho Hp Hd. unfold pack_msg. cbn [ep tag op param data].
  rewrite !wrap_id by done. rewrite !Z.shiftl_mul_pow2 by lia.
  assert (Hlow : ∀ n lo hi m, 0 ≤ n ≤ m → fits n lo → hi mod 2 ^ n = 0 → 0 ≤ hi →
    Z.lor lo hi = lo + hi).
  { intros n lo hi m Hn Hlo Hhi _. rewrite Z.lor_comm.
    rewrite (Z.div_mod hi (2 ^ n)), Hhi, Z.add_0_r by lia.
    rewrite Z.mul_comm, lor_high_low by (done || lia). lia. }
  unfold fits in *.
  rewrite (Hlow 32 (p * 2 ^ 24) (d * 2 ^ 32) 32); [|lia|unfold fits; lia|dlia|lia].
  rewrite (Hlow 24 (o * 2 ^ 16) _ 24); [|lia|unfold fits; lia|dlia|lia].
  rewrite (Hlow 16 (t * 2 ^ 8) _ 16); [|lia|unfold fits; lia|dlia|lia].
  rewrite (Hlow 8 e _ 8); [|lia|unfold fits; lia|dlia|lia]. lia.
Qed.

Lemma handle_refines b w out :
  vf_sep_mailbox_handle_msg (Some (device b)) w out
    = Some ((0, if out then Some (reply_to w) else None), Some (device (reply_to w, true))).
Proof.
  pose proof (msg_byte_fits w 0) as H0'. pose proof (msg_byte_fits w 1) as H1'.
  pose proof (msg_byte_fits w 2) as H2'.
  pose proof (land_mask8 w 0 ltac:(lia)) as E0. pose proof (land_mask8 w 1 ltac:(lia)) as E1.
  pose proof (land_mask8 w 2 ltac:(lia)) as E2. change (8 * 0) with 0 in E0.
  rewrite Z.shiftr_0_r in E0. change (8 * 1) with 8 in E1. change (8 * 2) with 16 in E2.
  unfold vf_sep_mailbox_handle_msg, with_obj, unpack_msg. cbn [ep tag op param data]. rewrite E0, E1, E2.
  set (r := if negb (msg_byte w 0 =? VF_SEP_EP_BOOTSTRAP) then _ else _).
  assert (r = reply_to w) as ->.
  { subst r. unfold reply_to, device, VF_SEP_EP_BOOTSTRAP, VF_SEP_BOOTSTRAP_OP_PING,
      VF_SEP_BOOTSTRAP_OP_GET_STATUS. cbn [status].
    destruct (msg_byte w 0 =? 255) eqn:Ee; cbn [negb andb].
    - destruct (msg_byte w 2 =? 1); [|destruct (msg_byte w 2 =? 2)];
        rewrite pack_sum by (done || (unfold fits; vm_compute; split; congruence)); unfold
        VF_SEP_EP_BOOTSTRAP, VF_SEP_BOOTSTRAP_OP_PING_ACK, VF_SEP_BOOTSTRAP_OP_STATUS_REPLY,
        VF_SEP_BOOTSTRAP_OP_L1_REJECT, VF_SEP_STATUS_BOOTSTRAP; lia.
    - rewrite pack_sum by (done || (unfold fits; vm_compute; split; congruence)).
      unfold VF_SEP_BOOTSTRAP_OP_L1_REJECT. lia. }
  cbn [mbind option_bind]. unfold device. cbn. by destruct b as [m []].
Qed.

(** ** Accesses *)

Lemma sep_read_refines b off w :
  vf_sep_mailbox_read (Some (device b)) off w true =
    let '(r, b') := mailbox_step b (Access (Rd off w)) in Some (r, Some (device b')).
Proof.
  unfold vf_sep_mailbox_read, with_obj, mailbox_step, VF_SEP_MMIO_STATUS, VF_SEP_MMIO_TIER,
    VF_SEP_MMIO_FLAGS, VF_SEP_MMIO_MSG_OUT. destruct b as [m p]. cbn [negb].
  destruct (off =? 0) eqn:E1; [tests; by destruct (w =? 32)|].
  destruct (off =? 4) eqn:E2; [tests; by destruct (w =? 32)|].
  destruct (off =? 8) eqn:E3; [tests; destruct p; by destruct (w =? 32)|].
  destruct (off =? 16) eqn:E4; cbn [andb orb]; [|by destruct (w =? 32)].
  destruct (w =? 64) eqn:E5; cbn [negb]; [by destruct p|]. by destruct (w =? 32).
Qed.

Lemma sep_write_refines b off w x :
  vf_sep_mailbox_write (Some (device b)) off w x =
    let '(r, b') := mailbox_step b (Access (Wr off w x)) in Some (r.1, Some (device b')).
Proof.
  unfold vf_sep_mailbox_write, mailbox_step, VF_SEP_MMIO_MSG_IN. destruct b as [m p].
  destruct (off =? 24); cbn [negb andb]; [|done]. destruct (w =? 64); cbn [negb]; [|done].
  by rewrite handle_refines.
Qed.

Lemma reply_fits w : fits 64 (reply_to w).
Proof.
  pose proof (msg_byte_fits w 0). pose proof (msg_byte_fits w 1). pose proof (msg_byte_fits w 2).
  unfold reply_to, fits in *. split_ifs; lia.
Qed.

#[export] Instance sep_ops : MmioOps vf_sep_mailbox_v1 := {
  mmio_read := vf_sep_mailbox_read;
  mmio_write := vf_sep_mailbox_write;
  mmio_inv s := ∃ b, s = device b ∧ fits 64 b.1;
  mmio_bits := 64;
}.

#[export] Instance sep_laws : MmioLaws vf_sep_mailbox_v1.
Proof.
  split; try done.
  - intros s off w [[m p] [-> Hb]] _ _. change (@mmio_read _ sep_ops) with vf_sep_mailbox_read.
    rewrite sep_read_refines. cbn in *. unfold mailbox_step.
    split_ifs; eexists _, _; (split; [reflexivity|]); (split; [by eexists (_, _)|]);
      try (right; done); left; eexists; (split; [done|]); try done; unfold fits; lia.
  - intros s off w x [[m p] [-> Hb]] _ _ _. change (@mmio_write _ sep_ops) with vf_sep_mailbox_write.
    rewrite sep_write_refines. cbn in *. unfold mailbox_step.
    split_ifs; eexists _, _; (split; [reflexivity|]).
    + split; [eexists (_, _); split; [done|apply reply_fits]|by left].
    + split; [by eexists (_, _)|by right].
Qed.

Definition sep_step (s : vf_sep_mailbox_v1) (o : sep_op) : option (rd_result * vf_sep_mailbox_v1) :=
  match o with
  | Msg w => '(r, p) ← vf_sep_mailbox_handle_msg (Some s) w true; s' ← p; Some (r, s')
  | Access c => do_access s c
  end.

Fixpoint sep_run (s : vf_sep_mailbox_v1) (os : list sep_op) : option (list rd_result * vf_sep_mailbox_v1) :=
  match os with
  | [] => Some ([], s)
  | o :: os => '(r, s1) ← sep_step s o; '(rs, s2) ← sep_run s1 os; Some (r :: rs, s2)
  end.

Lemma sep_step_refines b o :
  sep_step (device b) o = let '(r, b') := mailbox_step b o in Some (r, device b').
Proof.
  destruct o as [w|[off w|off w x]]; cbn [sep_step].
  - rewrite handle_refines. by destruct b.
  - unfold do_access. change (@mmio_read _ sep_ops) with vf_sep_mailbox_read.
    rewrite sep_read_refines. by destruct (mailbox_step b _).
  - unfold do_access. change (@mmio_write _ sep_ops) with vf_sep_mailbox_write.
    rewrite sep_write_refines. destruct b as [m p]. cbn [mailbox_step]. by split_ifs.
Qed.

Lemma sep_run_refines b os :
  sep_run (device b) os = let '(rs, b') := mailbox_run b os in Some (rs, device b').
Proof.
  revert b. induction os as [|o os IH]; intros b; cbn [sep_run mailbox_run]; [done|].
  rewrite sep_step_refines. destruct (mailbox_step b o) as [r b1]. cbn [mbind option_bind].
  rewrite IH. by destruct (mailbox_run b1 os).
Qed.

(** ** Properties *)

(** Refinement: from initialisation, for any sequence of messages and register
    accesses, every answer is that of a one-place mailbox that starts with the
    announcement waiting, answers each message by the bootstrap protocol, and is
    emptied by reading the outgoing message; the status never leaves bootstrap
    (no message activates the processor), and the interrupt level is whether a
    message waits. *)
Theorem sep_refines_mailbox s0 os :
  ∃ s s', vf_sep_mailbox_init (Some s0) = Some (0, Some s) ∧
    let '(rs, b) := mailbox_run (announcement, true) os in
    sep_run s os = Some (rs, s') ∧ vf_sep_mailbox_status (Some s') = VF_SEP_STATUS_BOOTSTRAP ∧
    msg_out s' = b.1 ∧ vf_sep_mailbox_irq_pending (Some s') = b2z b.2.
Proof.
  pose proof (sep_run_refines (announcement, true) os) as H.
  destruct (mailbox_run (announcement, true) os) as [rs b].
  exists (device (announcement, true)), (device b). split; [by vm_compute|].
  split; [done|]. split; [done|]. split; [done|]. by destruct b as [m []].
Qed.

End Sep.
