(* ===== verification/Gxf.v ===== *)
(** Guarded execution and region permissions, [devices/apple_gxf_v1.c] and
    [apple_gxf_v1.h].

    State: the system registers of the struct, with the guarded bank
    ([*_gl11]) and the normal bank ([*_el1]) behind the dual-view EL1 registers,
    the permission generation and flush counters, and the flush callback.  The
    callback is code of the embedder: the model keeps whether one is installed and
    the generations it was called with.  Operations: initialisation, the host
    setters, register reads and writes at an exception level, entry to and exit
    from the guarded mode, the abort entry, exception delivery, and the decoding
    of the two guarded-mode instructions. *)
From S2P Require Import Prelude.
From S2P Require Import Words.
From S2P Require Import Mmio.

Module Gxf.

Definition VF_GXF_SYSREG (op0 op1 crn crm op2 : Z) : Z :=
  u32 (Z.lor (Z.lor (Z.lor (Z.lor (Z.shiftl op0 16) (Z.shiftl op1 12)) (Z.shiftl crn 8))
    (Z.shiftl crm 4)) op2).

Definition VF_GXF_REG_GXF_CONFIG_EL1 := VF_GXF_SYSREG 3 6 15 1 2.
Definition VF_GXF_REG_GXF_STATUS_EL1 := VF_GXF_SYSREG 3 6 15 8 0.
Definition VF_GXF_REG_GXF_ENTER_EL1 := VF_GXF_SYSREG 3 6 15 8 1.
Definition VF_GXF_REG_GXF_ABORT_EL1 := VF_GXF_SYSREG 3 6 15 8 2.
Definition VF_GXF_REG_ASPSR_GL11 := VF_GXF_SYSREG 3 6 15 8 3.
Definition VF_GXF_REG_SP_GL11 := VF_GXF_SYSREG 3 6 15 9 0.
Definition VF_GXF_REG_TPIDR_GL11 := VF_GXF_SYSREG 3 6 15 9 1.
Definition VF_GXF_REG_VBAR_GL11 := VF_GXF_SYSREG 3 6 15 9 2.
Definition VF_GXF_REG_SPSR_GL11 := VF_GXF_SYSREG 3 6 15 9 3.
Definition VF_GXF_REG_ESR_GL11 := VF_GXF_SYSREG 3 6 15 9 5.
Definition VF_GXF_REG_ELR_GL11 := VF_GXF_SYSREG 3 6 15 9 6.
Definition VF_GXF_REG_FAR_GL11 := VF_GXF_SYSREG 3 6 15 9 7.
Definition VF_GXF_REG_TPIDR_EL1 := VF_GXF_SYSREG 3 0 13 0 4.
Definition VF_GXF_REG_VBAR_EL1 := VF_GXF_SYSREG 3 0 12 0 0.
Definition VF_GXF_REG_SPSR_EL1 := VF_GXF_SYSREG 3 0 4 0 0.
Definition VF_GXF_REG_ELR_EL1 := VF_GXF_SYSREG 3 0 4 0 1.
Definition VF_GXF_REG_ESR_EL1 := VF_GXF_SYSREG 3 0 5 2 0.
Definition VF_GXF_REG_FAR_EL1 := VF_GXF_SYSREG 3 0 6 0 0.
Definition VF_GXF_REG_SCTLR_EL1 := VF_GXF_SYSREG 3 0 1 0 0.
Definition VF_GXF_REG_TTBR0_EL1 := VF_GXF_SYSREG 3 0 2 0 0.
Definition VF_GXF_REG_TTBR1_EL1 := VF_GXF_SYSREG 3 0 2 0 1.
Definition VF_GXF_REG_TCR_EL1 := VF_GXF_SYSREG 3 0 2 0 2.
Definition VF_GXF_REG_HCR_EL2 := VF_GXF_SYSREG 3 4 1 1 0.
Definition VF_GXF_REG_VMSA_LOCK_EL1 := VF_GXF_SYSREG 3 4 15 1 2.
Definition VF_GXF_REG_SPRR_CONFIG_EL1 := VF_GXF_SYSREG 3 6 15 1 0.
Definition VF_GXF_REG_SPRR_CONFIG_EL0 := VF_GXF_SYSREG 3 6 15 1 1.
Definition VF_GXF_REG_SPRR_EL0BR0_EL1 := VF_GXF_SYSREG 3 6 15 1 5.
Definition VF_GXF_REG_SPRR_EL0BR1_EL1 := VF_GXF_SYSREG 3 6 15 1 6.
Definition VF_GXF_REG_SPRR_EL1BR0_EL1 := VF_GXF_SYSREG 3 6 15 1 7.
Definition VF_GXF_REG_SPRR_EL1BR1_EL1 := VF_GXF_SYSREG 3 6 15 3 0.
Definition VF_GXF_REG_MPRR_EL0BR0_EL1 := VF_GXF_SYSREG 3 6 15 3 1.
Definition VF_GXF_REG_MPRR_EL0BR1_EL1 := VF_GXF_SYSREG 3 6 15 3 2.
Definition VF_GXF_REG_MPRR_EL1BR0_EL1 := VF_GXF_SYSREG 3 6 15 3 3.
Definition VF_GXF_REG_MPRR_EL1BR1_EL1 := VF_GXF_SYSREG 3 6 15 3 4.

Definition VF_GXF_CONFIG_EN := 1.
Definition VF_GXF_STATUS_GUARDED := 1.
Definition VF_GXF_ASPSR_NEST := 1.
Definition VF_GXF_HCR_TVM := Z.shiftl 1 26.
Definition VF_GXF_HCR_TRVM := Z.shiftl 1 30.
Definition VF_GXF_VMSA_LOCK_VBAR_EL1 := Z.shiftl 1 0.
Definition VF_GXF_VMSA_LOCK_SCTLR_EL1 := Z.shiftl 1 1.
Definition VF_GXF_VMSA_LOCK_TCR_EL1 := Z.shiftl 1 2.
Definition VF_GXF_VMSA_LOCK_TTBR0_EL1 := Z.shiftl 1 3.
Definition VF_GXF_VMSA_LOCK_TTBR1_EL1 := Z.shiftl 1 4.
Definition VF_GXF_VMSA_LOCK_SCTLR_M_BIT := Z.shiftl 1 63.
Definition VF_GXF_SCTLR_M := Z.shiftl 1 0.
Definition VF_GXF_EXCP_SYNC := 0.
Definition VF_GXF_EXCP_SERR := 3.
Definition VF_GXF_VBAR_TABLE_LOWER_A32 := 3.
Definition VF_GXF_VBAR_KIND_OFFSET (kind : Z) : Z := u64 (u64 kind * 0x80).
Definition VF_GXF_VBAR_TABLE_OFFSET (tbl : Z) : Z := u64 (u64 tbl * 0x200).
Definition VF_GXF_TCG_INSN_GENTER := 0x00201420.
Definition VF_GXF_TCG_INSN_GEXIT := 0x00201400.
Definition VF_GXF_TCG_APPLE_OP_GXF := 5.
Definition VF_GXF_TCG_RN_GEXIT := 0.
Definition VF_GXF_TCG_RN_GENTER := 1.
Definition VF_GXF_TCG_KIND_NONE := 0.
Definition VF_GXF_TCG_KIND_GENTER := 1.
Definition VF_GXF_TCG_KIND_GEXIT := 2.
Definition VF_GXF_SPRR_SLOT_SHIFT (i : Z) : Z := u32 (u32 i * 4).
Definition VF_GXF_SPRR_RWX_MASK := 0x7.
Definition VF_GXF_MPRR_ALLOW_SHIFT (i : Z) : Z := u32 (u32 i * 2).
Definition VF_GXF_MPRR_ALLOW_MASK := 0x3.

Record vf_apple_gxf_v1 := {
  guarded : Z;
  gxf_config_el1 : Z;
  gxf_status_el1 : Z;
  gxf_enter_el1 : Z;
  gxf_abort_el1 : Z;
  aspsr_gl11 : Z;
  sp_gl11 : Z;
  tpidr_gl11 : Z;
  vbar_gl11 : Z;
  spsr_gl11 : Z;
  esr_gl11 : Z;
  elr_gl11 : Z;
  far_gl11 : Z;
  tpidr_el1 : Z;
  vbar_el1 : Z;
  spsr_el1 : Z;
  elr_el1 : Z;
  esr_el1 : Z;
  far_el1 : Z;
  hcr_el2 : Z;
  vmsa_lock_el1 : Z;
  sctlr_el1 : Z;
  tcr_el1 : Z;
  ttbr0_el1 : Z;
  ttbr1_el1 : Z;
  sprr_config_el1 : Z;
  sprr_config_el0 : Z;
  sprr_el0br0_el1 : Z;
  sprr_el0br1_el1 : Z;
  sprr_el1br0_el1 : Z;
  sprr_el1br1_el1 : Z;
  mprr_el0br0_el1 : Z;
  mprr_el0br1_el1 : Z;
  mprr_el1br0_el1 : Z;
  mprr_el1br1_el1 : Z;
  sprr_perm_generation : Z;
  sprr_tlb_flush_count : Z;
  gxf_mode_generation : Z;
  (** a flush callback is installed; the generations it was called with *)
  sprr_tlb_flush : bool;
  flushed : list Z;
}.

(** [if (!g || !out) return -1;] in front of an operation that answers through
    an out-pointer: [out] says whether the pointer is given, and the answer is
    the return code with what is stored there. *)
Definition with_out (g : ptr vf_apple_gxf_v1) (out : bool)
    (body : vf_apple_gxf_v1 → rd_result * vf_apple_gxf_v1) : rd_result * ptr vf_apple_gxf_v1 :=
  match g with
  | Some s => if out then let '(r, s) := body s in (r, Some s) else ((-1, None), g)
  | None => ((-1, None), g)
  end.

Definition gxf_sync_guarded_from_status (g : vf_apple_gxf_v1) : vf_apple_gxf_v1 :=
  g <| guarded := if nz (Z.land (gxf_status_el1 g) VF_GXF_STATUS_GUARDED) then 1 else 0 |>.

(** [true]: a guarded-bank register named outside the guarded mode. *)
Definition gxf_guarded_only (g : vf_apple_gxf_v1) (reg : Z) : bool :=
  if existsb (Z.eqb reg) [VF_GXF_REG_ASPSR_GL11; VF_GXF_REG_SP_GL11; VF_GXF_REG_TPIDR_GL11;
       VF_GXF_REG_VBAR_GL11; VF_GXF_REG_SPSR_GL11; VF_GXF_REG_ESR_GL11; VF_GXF_REG_ELR_GL11;
       VF_GXF_REG_FAR_GL11]
  then negb (nz (guarded g)) else false.

Definition gxf_tvm_trvm_blocks (g : vf_apple_gxf_v1) (reg : Z) (isread : bool) (el : Z) : bool :=
  if negb (el =? 1) then false
  else if (reg =? VF_GXF_REG_ESR_EL1) || (reg =? VF_GXF_REG_FAR_EL1)
  then if isread then nz (Z.land (hcr_el2 g) VF_GXF_HCR_TRVM) else nz (Z.land (hcr_el2 g) VF_GXF_HCR_TVM)
  else false.

Definition gxf_vmsa_locked (g : vf_apple_gxf_v1) (guarded el lock_bit : Z) : bool :=
  if nz guarded || negb (el =? 1) then false else nz (Z.land (vmsa_lock_el1 g) lock_bit).

(** The dual-view registers. *)
Definition alias_read_cases (g : vf_apple_gxf_v1) : list (Z * Z) :=
  let gl := nz (guarded g) in [
    (VF_GXF_REG_TPIDR_EL1, if gl then tpidr_gl11 g else tpidr_el1 g);
    (VF_GXF_REG_VBAR_EL1, if gl then vbar_gl11 g else vbar_el1 g);
    (VF_GXF_REG_SPSR_EL1, if gl then spsr_gl11 g else spsr_el1 g);
    (VF_GXF_REG_ELR_EL1, if gl then elr_gl11 g else elr_el1 g);
    (VF_GXF_REG_ESR_EL1, if gl then esr_gl11 g else esr_el1 g);
    (VF_GXF_REG_FAR_EL1, if gl then far_gl11 g else far_el1 g)].

(** [None]: the register is not an alias, or the access is blocked. *)
Definition gxf_el1_alias_read (g : vf_apple_gxf_v1) (reg el : Z) : option Z :=
  if gxf_tvm_trvm_blocks g reg true el then None
  else switch reg (alias_read_cases g).

Definition alias_write_cases (g : vf_apple_gxf_v1) (value el : Z) : list (Z * vf_apple_gxf_v1) :=
  let gl := nz (guarded g) in
  let vbar := Z.land value (bnot 64 0x1f) in [
    (VF_GXF_REG_TPIDR_EL1, if gl then g <| tpidr_gl11 := value |> else g <| tpidr_el1 := value |>);
    (VF_GXF_REG_VBAR_EL1,
      if gxf_vmsa_locked g (guarded g) el VF_GXF_VMSA_LOCK_VBAR_EL1 then g
      else if gl then g <| vbar_gl11 := vbar |> else g <| vbar_el1 := vbar |>);
    (VF_GXF_REG_SPSR_EL1, if gl then g <| spsr_gl11 := value |> else g <| spsr_el1 := value |>);
    (VF_GXF_REG_ELR_EL1, if gl then g <| elr_gl11 := value |> else g <| elr_el1 := value |>);
    (VF_GXF_REG_ESR_EL1, if gl then g <| esr_gl11 := value |> else g <| esr_el1 := value |>);
    (VF_GXF_REG_FAR_EL1, if gl then g <| far_gl11 := value |> else g <| far_el1 := value |>)].

Definition gxf_el1_alias_write (g : vf_apple_gxf_v1) (reg value el : Z) : option vf_apple_gxf_v1 :=
  if gxf_tvm_trvm_blocks g reg false el then None
  else switch reg (alias_write_cases g value el).

(** One round of the merge loop. *)
Definition merge_slot (orig requested mprr_el0br0 : Z) (perm i : Z) : Z :=
  let shift := VF_GXF_SPRR_SLOT_SHIFT i in
  let allow := Z.land (Z.shiftr mprr_el0br0 (VF_GXF_MPRR_ALLOW_SHIFT i)) VF_GXF_MPRR_ALLOW_MASK in
  let req := Z.land (Z.shiftr requested shift) VF_GXF_SPRR_RWX_MASK in
  let old := Z.land (Z.shiftr orig shift) VF_GXF_SPRR_RWX_MASK in
  let changed := Z.land (Z.lxor req old) allow in
  let result := Z.lor (Z.land old (bnot 64 changed)) (Z.land req changed) in
  let perm := Z.land perm (bnot 64 (shl 64 VF_GXF_SPRR_RWX_MASK shift)) in
  Z.lor perm (shl 64 result shift).

Definition gxf_merge_sprr_el0br0 (orig requested mprr_el0br0 : Z) : Z :=
  foldl (merge_slot orig requested mprr_el0br0) orig (seqZ 0 16).

Definition gxf_sprr_perm_changed (g : vf_apple_gxf_v1) : vf_apple_gxf_v1 :=
  let g := g <| sprr_perm_generation := u64 (sprr_perm_generation g + 1) |> in
  let g := g <| sprr_tlb_flush_count := u64 (sprr_tlb_flush_count g + 1) |> in
  if sprr_tlb_flush g then g <| flushed := flushed g ++ [sprr_perm_generation g] |> else g.

(** The callback log is no field of the struct: it starts empty. *)
Definition vf_apple_gxf_init (g : ptr vf_apple_gxf_v1) : Z * ptr vf_apple_gxf_v1 :=
  match g with
  | None => (-1, None)
  | Some _ => (0, Some {|
      guarded := 0; gxf_config_el1 := 0; gxf_status_el1 := 0; gxf_enter_el1 := 0;
      gxf_abort_el1 := 0; aspsr_gl11 := 0; sp_gl11 := 0; tpidr_gl11 := 0;
      vbar_gl11 := 0; spsr_gl11 := 0; esr_gl11 := 0; elr_gl11 := 0;
      far_gl11 := 0; tpidr_el1 := 0; vbar_el1 := 0; spsr_el1 := 0;
      elr_el1 := 0; esr_el1 := 0; far_el1 := 0; hcr_el2 := 0;
      vmsa_lock_el1 := 0; sctlr_el1 := 0; tcr_el1 := 0; ttbr0_el1 := 0;
      ttbr1_el1 := 0; sprr_config_el1 := 0; sprr_config_el0 := 0; sprr_el0br0_el1 := 0;
      sprr_el0br1_el1 := 0; sprr_el1br0_el1 := 0; sprr_el1br1_el1 := 0; mprr_el0br0_el1 := 0;
      mprr_el0br1_el1 := 0; mprr_el1br0_el1 := 0; mprr_el1br1_el1 := 0; sprr_perm_generation := 0;
      sprr_tlb_flush_count := 0; gxf_mode_generation := 0;
      sprr_tlb_flush := false; flushed := [] |})
  end.

Definition vf_apple_gxf_set_guarded (g : ptr vf_apple_gxf_v1) (guarded : Z) : ptr vf_apple_gxf_v1 :=
  g ← g;
  Some (gxf_sync_guarded_from_status
    (if nz guarded
     then g <| gxf_status_el1 := Z.lor (gxf_status_el1 g) VF_GXF_STATUS_GUARDED |>
     else g <| gxf_status_el1 := Z.land (gxf_status_el1 g) (bnot 64 VF_GXF_STATUS_GUARDED) |>)).

Definition vf_apple_gxf_is_guarded (g : ptr vf_apple_gxf_v1) : bool :=
  match g with Some g => nz (Z.land (gxf_status_el1 g) VF_GXF_STATUS_GUARDED) | None => false end.

Definition vf_apple_gxf_set_hcr_el2 (g : ptr vf_apple_gxf_v1) (x : Z) : ptr vf_apple_gxf_v1 :=
  g ← g; Some (g <| hcr_el2 := x |>).

Definition vf_apple_gxf_get_hcr_el2 (g : ptr vf_apple_gxf_v1) : Z :=
  match g with Some g => hcr_el2 g | None => 0 end.

Definition vf_apple_gxf_set_vmsa_lock_el1 (g : ptr vf_apple_gxf_v1) (x : Z) : ptr vf_apple_gxf_v1 :=
  g ← g; Some (g <| vmsa_lock_el1 := x |>).

Definition vf_apple_gxf_get_vmsa_lock_el1 (g : ptr vf_apple_gxf_v1) : Z :=
  match g with Some g => vmsa_lock_el1 g | None => 0 end.

Definition vf_apple_gxf_set_sprr_tlb_flush (g : ptr vf_apple_gxf_v1) (fn : bool) : ptr vf_apple_gxf_v1 :=
  g ← g; Some (g <| sprr_tlb_flush := fn |>).

Definition vf_apple_gxf_sprr_perm_generation (g : ptr vf_apple_gxf_v1) : Z :=
  match g with Some g => sprr_perm_generation g | None => 0 end.

Definition vf_apple_gxf_sprr_tlb_flush_count (g : ptr vf_apple_gxf_v1) : Z :=
  match g with Some g => sprr_tlb_flush_count g | None => 0 end.

Definition vf_apple_gxf_genter (g : ptr vf_apple_gxf_v1) (return_pc spsr : Z) (enter_pc : bool) :
    rd_result * ptr vf_apple_gxf_v1 :=
  with_out g enter_pc (λ g,
  if negb (nz (Z.land (gxf_config_el1 g) VF_GXF_CONFIG_EN)) then ((-1, None), g)
  else if vf_apple_gxf_is_guarded (Some g) then ((-1, None), g)
  else
    let g := g <| elr_gl11 := return_pc |> <| spsr_gl11 := spsr |> in
    let g := g <| aspsr_gl11 := Z.land (aspsr_gl11 g) (bnot 64 VF_GXF_ASPSR_NEST) |> in
    let g := g <| gxf_status_el1 := Z.lor (gxf_status_el1 g) VF_GXF_STATUS_GUARDED |> in
    let g := gxf_sync_guarded_from_status g in
    let g := g <| gxf_mode_generation := u64 (gxf_mode_generation g + 1) |> in
    ((0, Some (gxf_enter_el1 g)), g)).

Definition vf_apple_gxf_abort (g : ptr vf_apple_gxf_v1) (return_pc spsr esr far : Z) (abort_pc : bool) :
    rd_result * ptr vf_apple_gxf_v1 :=
  with_out g abort_pc (λ g,
  if negb (nz (Z.land (gxf_config_el1 g) VF_GXF_CONFIG_EN)) then ((-1, None), g)
  else
    let already_guarded := vf_apple_gxf_is_guarded (Some g) in
    let g := g <| elr_gl11 := return_pc |> <| spsr_gl11 := spsr |> <| esr_gl11 := esr |>
               <| far_gl11 := far |> in
    let g :=
      if already_guarded then g <| aspsr_gl11 := Z.lor (aspsr_gl11 g) VF_GXF_ASPSR_NEST |>
      else
        let g := g <| aspsr_gl11 := Z.land (aspsr_gl11 g) (bnot 64 VF_GXF_ASPSR_NEST) |> in
        let g := g <| gxf_status_el1 := Z.lor (gxf_status_el1 g) VF_GXF_STATUS_GUARDED |> in
        gxf_sync_guarded_from_status g in
    let g := g <| gxf_mode_generation := u64 (gxf_mode_generation g + 1) |> in
    ((0, Some (gxf_abort_el1 g)), g)).

Definition vf_apple_gxf_take_exception (g : ptr vf_apple_gxf_v1)
    (kind table return_pc spsr esr far : Z) (vector_pc : bool) : rd_result * ptr vf_apple_gxf_v1 :=
  with_out g vector_pc (λ g,
  if (VF_GXF_EXCP_SERR <? kind) || (VF_GXF_VBAR_TABLE_LOWER_A32 <? table) then ((-1, None), g)
  else
    let gl := vf_apple_gxf_is_guarded (Some g) in
    let base := if gl then vbar_gl11 g else vbar_el1 g in
    let offset := u64 (VF_GXF_VBAR_TABLE_OFFSET table + VF_GXF_VBAR_KIND_OFFSET kind) in
    if u64 (u64 (-1) - offset) <? base then ((-1, None), g)
    else
      let g :=
        if gl then
          let g := g <| elr_gl11 := return_pc |> <| spsr_gl11 := spsr |> in
          let g := if (kind =? VF_GXF_EXCP_SYNC) || (kind =? VF_GXF_EXCP_SERR)
                   then g <| esr_gl11 := esr |> else g in
          if kind =? VF_GXF_EXCP_SYNC then g <| far_gl11 := far |> else g
        else
          let g := g <| elr_el1 := return_pc |> <| spsr_el1 := spsr |> in
          let g := if (kind =? VF_GXF_EXCP_SYNC) || (kind =? VF_GXF_EXCP_SERR)
                   then g <| esr_el1 := esr |> else g in
          if kind =? VF_GXF_EXCP_SYNC then g <| far_el1 := far |> else g in
      ((0, Some (u64 (base + offset))), g)).

Definition vf_apple_gxf_gexit (g : ptr vf_apple_gxf_v1) (return_pc : bool) :
    rd_result * ptr vf_apple_gxf_v1 :=
  with_out g return_pc (λ g,
  if negb (vf_apple_gxf_is_guarded (Some g)) then ((-1, None), g)
  else
    let return_pc := elr_gl11 g in
    let g :=
      if nz (Z.land (aspsr_gl11 g) VF_GXF_ASPSR_NEST)
      then g <| aspsr_gl11 := Z.land (aspsr_gl11 g) (bnot 64 VF_GXF_ASPSR_NEST) |>
      else gxf_sync_guarded_from_status
        (g <| gxf_status_el1 := Z.land (gxf_status_el1 g) (bnot 64 VF_GXF_STATUS_GUARDED) |>) in
    ((0, Some return_pc), g <| gxf_mode_generation := u64 (gxf_mode_generation g + 1) |>)).

Definition vf_apple_gxf_tcg_classify (insn : Z) : Z :=
  if nz (Z.land (Z.shiftr insn 31) 1) then VF_GXF_TCG_KIND_NONE
  else if negb (Z.land (Z.shiftr insn 25) 0xf =? 0) then VF_GXF_TCG_KIND_NONE
  else
    let opcode := Z.land (Z.shiftr insn 10) 0x3f in
    if negb (opcode =? VF_GXF_TCG_APPLE_OP_GXF) then VF_GXF_TCG_KIND_NONE
    else
      let rn := Z.land (Z.shiftr insn 5) 0x1f in
      if rn =? VF_GXF_TCG_RN_GENTER then VF_GXF_TCG_KIND_GENTER
      else if rn =? VF_GXF_TCG_RN_GEXIT then VF_GXF_TCG_KIND_GEXIT
      else VF_GXF_TCG_KIND_NONE.

Definition vf_apple_gxf_tcg_exec (g : ptr vf_apple_gxf_v1) (insn el return_pc spsr : Z)
    (next_pc : bool) : rd_result * ptr vf_apple_gxf_v1 :=
  if negb (bool_decide (is_Some g)) || negb next_pc then ((-1, None), g)
  else if el =? 0 then ((-1, None), g)
  else
    let kind := vf_apple_gxf_tcg_classify insn in
    if kind =? VF_GXF_TCG_KIND_GENTER then vf_apple_gxf_genter g return_pc spsr next_pc
    else if kind =? VF_GXF_TCG_KIND_GEXIT then vf_apple_gxf_gexit g next_pc
    else ((-1, None), g).

(** The cases of the register switches; [None] in a case: the access is refused. *)
Definition read_cases (g : vf_apple_gxf_v1) : list (Z * option Z) := [
  (VF_GXF_REG_GXF_CONFIG_EL1, Some (gxf_config_el1 g));
  (VF_GXF_REG_GXF_STATUS_EL1, Some (gxf_status_el1 g));
  (VF_GXF_REG_GXF_ENTER_EL1, Some (gxf_enter_el1 g));
  (VF_GXF_REG_GXF_ABORT_EL1, Some (gxf_abort_el1 g));
  (VF_GXF_REG_ASPSR_GL11, Some (aspsr_gl11 g));
  (VF_GXF_REG_SP_GL11, Some (sp_gl11 g));
  (VF_GXF_REG_TPIDR_GL11, Some (tpidr_gl11 g));
  (VF_GXF_REG_VBAR_GL11, Some (vbar_gl11 g));
  (VF_GXF_REG_SPSR_GL11, Some (spsr_gl11 g));
  (VF_GXF_REG_ESR_GL11, Some (esr_gl11 g));
  (VF_GXF_REG_ELR_GL11, Some (elr_gl11 g));
  (VF_GXF_REG_FAR_GL11, Some (far_gl11 g));
  (VF_GXF_REG_HCR_EL2, None);
  (VF_GXF_REG_VMSA_LOCK_EL1, Some (vmsa_lock_el1 g));
  (VF_GXF_REG_SCTLR_EL1, Some (sctlr_el1 g));
  (VF_GXF_REG_TCR_EL1, Some (tcr_el1 g));
  (VF_GXF_REG_TTBR0_EL1, Some (ttbr0_el1 g));
  (VF_GXF_REG_TTBR1_EL1, Some (ttbr1_el1 g));
  (VF_GXF_REG_SPRR_CONFIG_EL1, Some (sprr_config_el1 g));
  (VF_GXF_REG_SPRR_CONFIG_EL0, Some (sprr_config_el0 g));
  (VF_GXF_REG_SPRR_EL0BR0_EL1, Some (sprr_el0br0_el1 g));
  (VF_GXF_REG_SPRR_EL0BR1_EL1, Some (sprr_el0br1_el1 g));
  (VF_GXF_REG_SPRR_EL1BR0_EL1, Some (sprr_el1br0_el1 g));
  (VF_GXF_REG_SPRR_EL1BR1_EL1, Some (sprr_el1br1_el1 g));
  (VF_GXF_REG_MPRR_EL0BR0_EL1, Some (mprr_el0br0_el1 g));
  (VF_GXF_REG_MPRR_EL0BR1_EL1, Some (mprr_el0br1_el1 g));
  (VF_GXF_REG_MPRR_EL1BR0_EL1, Some (mprr_el1br0_el1 g));
  (VF_GXF_REG_MPRR_EL1BR1_EL1, Some (mprr_el1br1_el1 g))].

Definition vf_apple_gxf_read (g : ptr vf_apple_gxf_v1) (reg : Z) (value : bool) : rd_result :=
  match g with None => (-1, None) | Some g =>
  if negb value || gxf_guarded_only g reg then (-1, None)
  else match gxf_el1_alias_read g reg 1 with
  | Some v => (0, Some v)
  | None =>
    match switch reg (read_cases g) with
    | Some (Some v) => (0, Some v)
    | Some None | None => (-1, None)
    end
  end end.

Definition write_cases (g : vf_apple_gxf_v1) (value el : Z) : list (Z * option vf_apple_gxf_v1) := [
  (VF_GXF_REG_GXF_CONFIG_EL1, Some (g <| gxf_config_el1 := value |>));
  (VF_GXF_REG_GXF_ENTER_EL1, Some (g <| gxf_enter_el1 := value |>));
  (VF_GXF_REG_GXF_ABORT_EL1, Some (g <| gxf_abort_el1 := value |>));
  (VF_GXF_REG_ASPSR_GL11, Some (g <| aspsr_gl11 := value |>));
  (VF_GXF_REG_SP_GL11, Some (g <| sp_gl11 := value |>));
  (VF_GXF_REG_TPIDR_GL11, Some (g <| tpidr_gl11 := value |>));
  (VF_GXF_REG_VBAR_GL11, Some (g <| vbar_gl11 := Z.land value (bnot 64 0x1f) |>));
  (VF_GXF_REG_SPSR_GL11, Some (g <| spsr_gl11 := value |>));
  (VF_GXF_REG_ESR_GL11, Some (g <| esr_gl11 := value |>));
  (VF_GXF_REG_ELR_GL11, Some (g <| elr_gl11 := value |>));
  (VF_GXF_REG_FAR_GL11, Some (g <| far_gl11 := value |>));
  (VF_GXF_REG_HCR_EL2,
    if el <? 2 then None else Some (g <| hcr_el2 := value |>));
  (VF_GXF_REG_VMSA_LOCK_EL1,
    Some (g <| vmsa_lock_el1 := Z.lor (vmsa_lock_el1 g) value |>));
  (VF_GXF_REG_SCTLR_EL1,
    if gxf_vmsa_locked g (guarded g) el VF_GXF_VMSA_LOCK_SCTLR_EL1 then Some g
    else
      let value :=
        if gxf_vmsa_locked g (guarded g) el VF_GXF_VMSA_LOCK_SCTLR_M_BIT
        then Z.lor (Z.land value (bnot 64 VF_GXF_SCTLR_M)) (Z.land (sctlr_el1 g) VF_GXF_SCTLR_M)
        else value in
      Some (g <| sctlr_el1 := value |>));
  (VF_GXF_REG_TCR_EL1,
    if gxf_vmsa_locked g (guarded g) el VF_GXF_VMSA_LOCK_TCR_EL1 then Some g
    else Some (g <| tcr_el1 := value |>));
  (VF_GXF_REG_TTBR0_EL1,
    if gxf_vmsa_locked g (guarded g) el VF_GXF_VMSA_LOCK_TTBR0_EL1 then Some g
    else Some (g <| ttbr0_el1 := value |>));
  (VF_GXF_REG_TTBR1_EL1,
    if gxf_vmsa_locked g (guarded g) el VF_GXF_VMSA_LOCK_TTBR1_EL1 then Some g
    else Some (g <| ttbr1_el1 := value |>));
  (VF_GXF_REG_SPRR_CONFIG_EL1, Some (g <| sprr_config_el1 := value |>));
  (VF_GXF_REG_SPRR_CONFIG_EL0, Some (g <| sprr_config_el0 := value |>));
  (VF_GXF_REG_SPRR_EL0BR0_EL1,
    if el =? 0
    then Some (gxf_sprr_perm_changed
      (g <| sprr_el0br0_el1 :=
              gxf_merge_sprr_el0br0 (sprr_el0br0_el1 g) value (mprr_el0br0_el1 g) |>))
    else Some (g <| sprr_el0br0_el1 := value |>));
  (VF_GXF_REG_SPRR_EL0BR1_EL1, Some (g <| sprr_el0br1_el1 := value |>));
  (VF_GXF_REG_SPRR_EL1BR0_EL1, Some (g <| sprr_el1br0_el1 := value |>));
  (VF_GXF_REG_SPRR_EL1BR1_EL1, Some (g <| sprr_el1br1_el1 := value |>));
  (VF_GXF_REG_MPRR_EL0BR0_EL1, Some (g <| mprr_el0br0_el1 := value |>));
  (VF_GXF_REG_MPRR_EL0BR1_EL1, Some (g <| mprr_el0br1_el1 := value |>));
  (VF_GXF_REG_MPRR_EL1BR0_EL1, Some (g <| mprr_el1br0_el1 := value |>));
  (VF_GXF_REG_MPRR_EL1BR1_EL1, Some (g <| mprr_el1br1_el1 := value |>));
  (VF_GXF_REG_GXF_STATUS_EL1, None)].

Definition vf_apple_gxf_write_el (g : ptr vf_apple_gxf_v1) (reg value el : Z) :
    Z * ptr vf_apple_gxf_v1 :=
  match g with None => (-1, None) | Some g =>
  if gxf_guarded_only g reg then (-1, Some g)
  else match gxf_el1_alias_write g reg value el with
  | Some g => (0, Some g)
  | None =>
    match switch reg (write_cases g value el) with
    | Some (Some g) => (0, Some g)
    | Some None | None => (-1, Some g)
    end
  end end.

Definition vf_apple_gxf_write (g : ptr vf_apple_gxf_v1) (reg value : Z) : Z * ptr vf_apple_gxf_v1 :=
  vf_apple_gxf_write_el g reg value 1.

(** ** Banks and operation sequences *)

(** The state with the guarded, or the normal, bank of another one. *)
Definition with_gl (b g : vf_apple_gxf_v1) : vf_apple_gxf_v1 := {|
    guarded := guarded g; gxf_config_el1 := gxf_config_el1 g; gxf_status_el1 := gxf_status_el1 g;
    gxf_enter_el1 := gxf_enter_el1 g; gxf_abort_el1 := gxf_abort_el1 g;
    aspsr_gl11 := aspsr_gl11 b; sp_gl11 := sp_gl11 b; tpidr_gl11 := tpidr_gl11 b;
    vbar_gl11 := vbar_gl11 b; spsr_gl11 := spsr_gl11 b; esr_gl11 := esr_gl11 b;
    elr_gl11 := elr_gl11 b; far_gl11 := far_gl11 b; tpidr_el1 := tpidr_el1 g;
    vbar_el1 := vbar_el1 g; spsr_el1 := spsr_el1 g; elr_el1 := elr_el1 g; esr_el1 := esr_el1 g;
    far_el1 := far_el1 g; hcr_el2 := hcr_el2 g; vmsa_lock_el1 := vmsa_lock_el1 g;
    sctlr_el1 := sctlr_el1 g; tcr_el1 := tcr_el1 g; ttbr0_el1 := ttbr0_el1 g;
    ttbr1_el1 := ttbr1_el1 g; sprr_config_el1 := sprr_config_el1 g;
    sprr_config_el0 := sprr_config_el0 g; sprr_el0br0_el1 := sprr_el0br0_el1 g;
    sprr_el0br1_el1 := sprr_el0br1_el1 g; sprr_el1br0_el1 := sprr_el1br0_el1 g;
    sprr_el1br1_el1 := sprr_el1br1_el1 g; mprr_el0br0_el1 := mprr_el0br0_el1 g;
    mprr_el0br1_el1 := mprr_el0br1_el1 g; mprr_el1br0_el1 := mprr_el1br0_el1 g;
    mprr_el1br1_el1 := mprr_el1br1_el1 g; sprr_perm_generation := sprr_perm_generation g;
    sprr_tlb_flush_count := sprr_tlb_flush_count g; gxf_mode_generation := gxf_mode_generation g;
    sprr_tlb_flush := sprr_tlb_flush g; flushed := flushed g |}.

Definition with_el (b g : vf_apple_gxf_v1) : vf_apple_gxf_v1 := {|
    guarded := guarded g; gxf_config_el1 := gxf_config_el1 g; gxf_status_el1 := gxf_status_el1 g;
    gxf_enter_el1 := gxf_enter_el1 g; gxf_abort_el1 := gxf_abort_el1 g;
    aspsr_gl11 := aspsr_gl11 g; sp_gl11 := sp_gl11 g; tpidr_gl11 := tpidr_gl11 g;
    vbar_gl11 := vbar_gl11 g; spsr_gl11 := spsr_gl11 g; esr_gl11 := esr_gl11 g;
    elr_gl11 := elr_gl11 g; far_gl11 := far_gl11 g; tpidr_el1 := tpidr_el1 b;
    vbar_el1 := vbar_el1 b; spsr_el1 := spsr_el1 b; elr_el1 := elr_el1 b; esr_el1 := esr_el1 b;
    far_el1 := far_el1 b; hcr_el2 := hcr_el2 g; vmsa_lock_el1 := vmsa_lock_el1 g;
    sctlr_el1 := sctlr_el1 g; tcr_el1 := tcr_el1 g; ttbr0_el1 := ttbr0_el1 g;
    ttbr1_el1 := ttbr1_el1 g; sprr_config_el1 := sprr_config_el1 g;
    sprr_config_el0 := sprr_config_el0 g; sprr_el0br0_el1 := sprr_el0br0_el1 g;
    sprr_el0br1_el1 := sprr_el0br1_el1 g; sprr_el1br0_el1 := sprr_el1br0_el1 g;
    sprr_el1br1_el1 := sprr_el1br1_el1 g; mprr_el0br0_el1 := mprr_el0br0_el1 g;
    mprr_el0br1_el1 := mprr_el0br1_el1 g; mprr_el1br0_el1 := mprr_el1br0_el1 g;
    mprr_el1br1_el1 := mprr_el1br1_el1 g; sprr_perm_generation := sprr_perm_generation g;
    sprr_tlb_flush_count := sprr_tlb_flush_count g; gxf_mode_generation := gxf_mode_generation g;
    sprr_tlb_flush := sprr_tlb_flush g; flushed := flushed g |}.

Inductive gxf_op :=
  | Mrs (reg : Z)
  | Msr (reg value el : Z)
  | Genter (return_pc spsr : Z)
  | Abort (return_pc spsr esr far : Z)
  | Gexit
  | TakeException (kind table return_pc spsr esr far : Z)
  | TcgExec (insn el return_pc spsr : Z)
  | SetGuarded (x : Z)
  | SetHcr (x : Z)
  | SetVmsaLock (x : Z)
  | SetFlush (fn : bool).

Definition gxf_step (g : vf_apple_gxf_v1) (o : gxf_op) : rd_result * vf_apple_gxf_v1 :=
  match o with
  | Mrs reg => (vf_apple_gxf_read (Some g) reg true, g)
  | Msr reg value el =>
    let '(rc, p) := vf_apple_gxf_write_el (Some g) reg value el in ((rc, None), default g p)
  | Genter pc spsr =>
    let '(r, p) := vf_apple_gxf_genter (Some g) pc spsr true in (r, default g p)
  | Abort pc spsr esr far =>
    let '(r, p) := vf_apple_gxf_abort (Some g) pc spsr esr far true in (r, default g p)
  | Gexit => let '(r, p) := vf_apple_gxf_gexit (Some g) true in (r, default g p)
  | TakeException kind table pc spsr esr far =>
    let '(r, p) := vf_apple_gxf_take_exception (Some g) kind table pc spsr esr far true in
    (r, default g p)
  | TcgExec insn el pc spsr =>
    let '(r, p) := vf_apple_gxf_tcg_exec (Some g) insn el pc spsr true in (r, default g p)
  | SetGuarded x => ((0, None), default g (vf_apple_gxf_set_guarded (Some g) x))
  | SetHcr x => ((0, None), default g (vf_apple_gxf_set_hcr_el2 (Some g) x))
  | SetVmsaLock x => ((0, None), default g (vf_apple_gxf_set_vmsa_lock_el1 (Some g) x))
  | SetFlush fn => ((0, None), default g (vf_apple_gxf_set_sprr_tlb_flush (Some g) fn))
  end.

Fixpoint gxf_run (g : vf_apple_gxf_v1) (os : list gxf_op) : list rd_result * vf_apple_gxf_v1 :=
  match os with
  | [] => ([], g)
  | o :: os =>
    let '(r, g1) := gxf_step g o in let '(rs, g2) := gxf_run g1 os in (r :: rs, g2)
  end.

(** Operations that may enter, and that may leave, the guarded mode. *)
Definition enters (o : gxf_op) : bool :=
  match o with
  | Genter _ _ | Abort _ _ _ _ | SetGuarded _ => true
  | TcgExec insn _ _ _ => vf_apple_gxf_tcg_classify insn =? VF_GXF_TCG_KIND_GENTER
  | _ => false
  end.

Definition leaves (o : gxf_op) : bool :=
  match o with
  | Gexit | SetGuarded _ => true
  | TcgExec insn _ _ _ => vf_apple_gxf_tcg_classify insn =? VF_GXF_TCG_KIND_GEXIT
  | _ => false
  end.

(** The mode flag mirrors the status register. *)
Definition gxf_sync (g : vf_apple_gxf_v1) : Prop :=
  guarded g = b2z (vf_apple_gxf_is_guarded (Some g)).

(** ** The unguarded mode does not depend on the guarded bank *)

Lemma sync_guarded g : gxf_sync g → vf_apple_gxf_is_guarded (Some g) = nz (guarded g).
Proof. intros ->. by destruct (vf_apple_gxf_is_guarded (Some g)). Qed.

(** Registers of the guarded bank. *)
Definition gl_register (reg : Z) : bool :=
  existsb (Z.eqb reg) [VF_GXF_REG_ASPSR_GL11; VF_GXF_REG_SP_GL11; VF_GXF_REG_TPIDR_GL11;
    VF_GXF_REG_VBAR_GL11; VF_GXF_REG_SPSR_GL11; VF_GXF_REG_ESR_GL11; VF_GXF_REG_ELR_GL11;
    VF_GXF_REG_FAR_GL11].

Ltac ifs_refl :=
  repeat match goal with |- context [if ?c then _ else _] =>
    lazymatch c with context [if _ then _ else _] => fail | _ => destruct c end
  end; reflexivity.

Lemma perm_changed_gl b g : gxf_sprr_perm_changed (with_gl b g) = with_gl b (gxf_sprr_perm_changed g).
Proof. unfold gxf_sprr_perm_changed. destruct g. cbn. by destruct sprr_tlb_flush0. Qed.

Lemma perm_changed_el b g : gxf_sprr_perm_changed (with_el b g) = with_el b (gxf_sprr_perm_changed g).
Proof. unfold gxf_sprr_perm_changed. destruct g. cbn. by destruct sprr_tlb_flush0. Qed.

(** Closes the case of a register outside the bank: the write commutes with
    the replacement of the bank. *)
Ltac bank_case E :=
  first
    [ match goal with H : gl_register _ = _ |- _ => rewrite E in H; discriminate H end
    | clear; ifs_refl
    | clear; case_match; [|reflexivity]; cbn [option_map];
      first [rewrite <- perm_changed_gl|rewrite <- perm_changed_el]; reflexivity ].

(** Names the fields outside the banks that the conditions read. *)
Ltac bank_fields w b g :=
  change (guarded (w b g)) with (guarded g); change (hcr_el2 (w b g)) with (hcr_el2 g);
  change (vmsa_lock_el1 (w b g)) with (vmsa_lock_el1 g);
  change (sprr_el0br0_el1 (w b g)) with (sprr_el0br0_el1 g);
  change (mprr_el0br0_el1 (w b g)) with (mprr_el0br0_el1 g);
  repeat match goal with |- context [gxf_merge_sprr_el0br0 ?o ?r ?m] =>
    generalize (gxf_merge_sprr_el0br0 o r m); intros ? end.

Ltac bank_switch w b g :=
  unfold alias_read_cases, alias_write_cases, read_cases, write_cases, gxf_vmsa_locked;
  bank_fields w b g;
  try match goal with H : nz (guarded g) = _ |- _ => rewrite !H end; cbn [orb];
  switch_rel ltac:(fun E => bank_case E).

Section unguarded.
Context (b g : vf_apple_gxf_v1) (Hg : nz (guarded g) = false).

Lemma alias_read_unguarded x :
  switch x (alias_read_cases (with_gl b g)) = id <$> switch x (alias_read_cases g).
Proof. bank_switch with_gl b g. Qed.

Lemma read_unguarded x :
  gl_register x = false → switch x (read_cases (with_gl b g)) = id <$> switch x (read_cases g).
Proof. intros Hx. bank_switch with_gl b g. Qed.

Lemma alias_write_unguarded value el x :
  switch x (alias_write_cases (with_gl b g) value el) = with_gl b <$> switch x (alias_write_cases g value el).
Proof. bank_switch with_gl b g. Qed.

Lemma write_unguarded value el x :
  gl_register x = false →
  switch x (write_cases (with_gl b g) value el) = option_map (with_gl b) <$> switch x (write_cases g value el).
Proof. intros Hx. bank_switch with_gl b g. Qed.
End unguarded.

(** Registers of the normal bank are reached through the aliases only. *)
Section guarded_mode.
Context (b g : vf_apple_gxf_v1) (Hg : nz (guarded g) = true).

Lemma alias_read_guarded x :
  switch x (alias_read_cases (with_el b g)) = id <$> switch x (alias_read_cases g).
Proof. bank_switch with_el b g. Qed.

Lemma read_guarded x : switch x (read_cases (with_el b g)) = id <$> switch x (read_cases g).
Proof. bank_switch with_el b g. Qed.

Lemma alias_write_guarded value el x :
  switch x (alias_write_cases (with_el b g) value el) = with_el b <$> switch x (alias_write_cases g value el).
Proof. bank_switch with_el b g. Qed.

Lemma write_guarded value el x :
  switch x (write_cases (with_el b g) value el) = option_map (with_el b) <$> switch x (write_cases g value el).
Proof. bank_switch with_el b g. Qed.
End guarded_mode.

(** ** The mode *)

Lemma switch_Forall {A} (P : Z → A → Prop) x cases a :
  Forall (λ c, P c.1 c.2) cases → switch x cases = Some a → P x a.
Proof.
  induction 1 as [|[k c] cases Hc _ IH]; cbn; [done|].
  destruct (x =? k) eqn:E; [|done]. intros [= <-]. by apply Z.eqb_eq in E as ->.
Qed.

(** What holds of the state, and after every case of the switches, holds after
    a write. *)
Lemma write_el_ind (P : vf_apple_gxf_v1 → Prop) g reg value el :
  P g → Forall (λ c, reg = c.1 → P c.2) (alias_write_cases g value el) →
  Forall (λ c, reg = c.1 → from_option P True c.2) (write_cases g value el) →
  ∃ rc g', vf_apple_gxf_write_el (Some g) reg value el = (rc, Some g') ∧ P g'.
Proof.
  intros HP Ha Hw. unfold vf_apple_gxf_write_el.
  destruct (gxf_guarded_only g reg); [by eauto|].
  destruct (gxf_el1_alias_write g reg value el) as [g1|] eqn:E1.
  { unfold gxf_el1_alias_write in E1. destruct (gxf_tvm_trvm_blocks g reg false el); [done|].
    eexists _, _. split; [done|].
    by apply (switch_Forall (λ k a, reg = k → P a) _ _ _ Ha E1). }
  destruct (switch reg (write_cases g value el)) as [[g1|]|] eqn:E2; [|by eauto..].
  eexists _, _. split; [done|].
  by apply (switch_Forall (λ k a, reg = k → from_option P True a) _ _ _ Hw E2).
Qed.

Ltac ifs :=
  repeat match goal with |- context [if ?c then _ else _] =>
    lazymatch c with context [if _ then _ else _] => fail | _ => destruct c eqn:? end
  end.

(** Case by case through the write switches; [tac] sees the register equation. *)
Ltac write_cases_by tac :=
  unfold alias_write_cases, write_cases, gxf_sprr_perm_changed;
  repeat (apply Forall_cons_2;
    [let E := fresh "Ereg" in intros E; cbn [fst snd] in *; ifs; cbn [from_option];
     try exact I; tac E|]); apply Forall_nil_2.

Lemma write_el_mode g reg value el :
  ∃ rc g', vf_apple_gxf_write_el (Some g) reg value el = (rc, Some g') ∧
    guarded g' = guarded g ∧ gxf_status_el1 g' = gxf_status_el1 g.
Proof. apply write_el_ind; [done|write_cases_by ltac:(fun _ => done)..]. Qed.

Lemma set_status_bit x : nz (Z.land (Z.lor x VF_GXF_STATUS_GUARDED) VF_GXF_STATUS_GUARDED) = true.
Proof.
  change VF_GXF_STATUS_GUARDED with (Z.shiftl 1 0). rewrite land_bit_nz, lor_bit_testbit by lia.
  apply orb_true_r.
Qed.

Lemma clear_status_bit x :
  nz (Z.land (Z.land x (bnot 64 VF_GXF_STATUS_GUARDED)) VF_GXF_STATUS_GUARDED) = false.
Proof.
  change VF_GXF_STATUS_GUARDED with (Z.shiftl 1 0).
  rewrite land_bit_nz, Z.land_spec, bnot_testbit, bit_testbit by lia. by rewrite andb_false_r.
Qed.

Ltac gxf_open :=
  unfold gxf_step, vf_apple_gxf_genter, vf_apple_gxf_abort, vf_apple_gxf_take_exception,
    vf_apple_gxf_tcg_exec, vf_apple_gxf_gexit, vf_apple_gxf_set_guarded, vf_apple_gxf_set_hcr_el2,
    vf_apple_gxf_set_vmsa_lock_el1, vf_apple_gxf_set_sprr_tlb_flush, with_out,
    vf_apple_gxf_is_guarded, gxf_sync_guarded_from_status.

(** The mode flag stays in step with the status register and changes only by the
    operations that may enter or leave. *)
Lemma step_mode g o :
  gxf_sync g →
  gxf_sync (gxf_step g o).2 ∧
  (nz (guarded g) = false → enters o = false → nz (guarded (gxf_step g o).2) = false) ∧
  (nz (guarded g) = true → leaves o = false → nz (guarded (gxf_step g o).2) = true).
Proof.
  unfold gxf_sync. intros Hs. destruct o.
  2:{ cbn [gxf_step]. destruct (write_el_mode g reg value el) as (rc & g' & -> & H1 & H2).
      cbn in *. by rewrite H1, H2. }
  all: gxf_open; unfold gxf_sync, enters, leaves in *; cbn in *.
  all: rewrite ?set_status_bit, ?clear_status_bit; ifs; cbn; rewrite ?set_status_bit, ?clear_status_bit;
    split_and!; intros; first [done|congruence].
Qed.

(** ** The banks are isolated *)

Lemma write_el_unguarded b g reg value el :
  nz (guarded g) = false →
  vf_apple_gxf_write_el (Some (with_gl b g)) reg value el =
    let '(rc, p) := vf_apple_gxf_write_el (Some g) reg value el in (rc, with_gl b <$> p).
Proof.
  intros Hg. unfold vf_apple_gxf_write_el, gxf_guarded_only, gxf_el1_alias_write.
  change (guarded (with_gl b g)) with (guarded g). rewrite Hg. cbn [negb].
  change (existsb (Z.eqb reg) _) with (gl_register reg).
  destruct (gl_register reg) eqn:Hr; [done|].
  change (gxf_tvm_trvm_blocks (with_gl b g)) with (gxf_tvm_trvm_blocks g).
  rewrite alias_write_unguarded, write_unguarded by done.
  destruct (gxf_tvm_trvm_blocks g reg false el);
    [|destruct (switch reg (alias_write_cases g value el)); [done|]];
    by destruct (switch reg (write_cases g value el)) as [[]|].
Qed.

Lemma write_el_guarded b g reg value el :
  nz (guarded g) = true →
  vf_apple_gxf_write_el (Some (with_el b g)) reg value el =
    let '(rc, p) := vf_apple_gxf_write_el (Some g) reg value el in (rc, with_el b <$> p).
Proof.
  intros Hg. unfold vf_apple_gxf_write_el, gxf_guarded_only, gxf_el1_alias_write.
  change (guarded (with_el b g)) with (guarded g). rewrite Hg. cbn [negb].
  destruct (if existsb _ _ then false else false) eqn:Hr; [by destruct (existsb _ _)|]. clear Hr.
  change (gxf_tvm_trvm_blocks (with_el b g)) with (gxf_tvm_trvm_blocks g).
  rewrite alias_write_guarded, write_guarded by done.
  destruct (gxf_tvm_trvm_blocks g reg false el);
    [|destruct (switch reg (alias_write_cases g value el)); [done|]];
    by destruct (switch reg (write_cases g value el)) as [[]|].
Qed.

Lemma reg_read_unguarded b g reg :
  nz (guarded g) = false →
  vf_apple_gxf_read (Some (with_gl b g)) reg true = vf_apple_gxf_read (Some g) reg true.
Proof.
  intros Hg. unfold vf_apple_gxf_read, gxf_guarded_only, gxf_el1_alias_read.
  change (guarded (with_gl b g)) with (guarded g). rewrite Hg. cbn [negb orb].
  change (existsb (Z.eqb reg) _) with (gl_register reg).
  destruct (gl_register reg) eqn:Hr; [done|].
  change (gxf_tvm_trvm_blocks (with_gl b g)) with (gxf_tvm_trvm_blocks g).
  rewrite alias_read_unguarded, read_unguarded by done. by rewrite !option_fmap_id.
Qed.

Lemma reg_read_guarded b g reg :
  nz (guarded g) = true →
  vf_apple_gxf_read (Some (with_el b g)) reg true = vf_apple_gxf_read (Some g) reg true.
Proof.
  intros Hg. unfold vf_apple_gxf_read, gxf_guarded_only, gxf_el1_alias_read.
  change (guarded (with_el b g)) with (guarded g). rewrite Hg. cbn [negb].
  change (gxf_tvm_trvm_blocks (with_el b g)) with (gxf_tvm_trvm_blocks g).
  rewrite alias_read_guarded, read_guarded by done. by rewrite !option_fmap_id.
Qed.

Lemma step_unguarded b g o :
  gxf_sync g → nz (guarded g) = false → enters o = false →
  gxf_step (with_gl b g) o = let '(r, g') := gxf_step g o in (r, with_gl b g').
Proof.
  intros Hs Hg Ho. pose proof (sync_guarded g Hs) as Hst. rewrite Hg in Hst.
  destruct o; cbn [enters] in Ho; try done.
  - cbn [gxf_step]. by rewrite reg_read_unguarded.
  - cbn [gxf_step]. rewrite write_el_unguarded by done.
    destruct (write_el_mode g reg value el) as (rc & g' & -> & _). done.
  - unfold gxf_step, vf_apple_gxf_gexit, with_out. change (vf_apple_gxf_is_guarded (Some (with_gl b g)))
      with (vf_apple_gxf_is_guarded (Some g)). by rewrite Hst.
  - unfold gxf_step, vf_apple_gxf_take_exception, with_out. change (vf_apple_gxf_is_guarded (Some (with_gl b g)))
      with (vf_apple_gxf_is_guarded (Some g)). change (vbar_el1 (with_gl b g))
      with (vbar_el1 g). rewrite Hst. cbv zeta. ifs; done.
  - unfold gxf_step, vf_apple_gxf_tcg_exec. rewrite Ho. cbn [bool_decide negb orb].
    unfold vf_apple_gxf_gexit, with_out. change (vf_apple_gxf_is_guarded (Some (with_gl b g)))
      with (vf_apple_gxf_is_guarded (Some g)). rewrite Hst. cbn [negb]. ifs; done.
Qed.


Ltac bank_el b g :=
  change (vf_apple_gxf_is_guarded (Some (with_el b g))) with (vf_apple_gxf_is_guarded (Some g));
  change (gxf_config_el1 (with_el b g)) with (gxf_config_el1 g);
  change (aspsr_gl11 (with_el b g)) with (aspsr_gl11 g);
  change (vbar_gl11 (with_el b g)) with (vbar_gl11 g).

Lemma step_guarded b g o :
  gxf_sync g → nz (guarded g) = true → leaves o = false →
  gxf_step (with_el b g) o = let '(r, g') := gxf_step g o in (r, with_el b g').
Proof.
  intros Hs Hg Ho. pose proof (sync_guarded g Hs) as Hst. rewrite Hg in Hst.
  destruct o; cbn [leaves] in Ho; try done.
  - cbn [gxf_step]. by rewrite reg_read_guarded.
  - cbn [gxf_step]. rewrite write_el_guarded by done.
    destruct (write_el_mode g reg value el) as (rc & g' & -> & _). done.
  - unfold gxf_step, vf_apple_gxf_genter, with_out. bank_el b g. rewrite Hst. ifs; done.
  - unfold gxf_step, vf_apple_gxf_abort, with_out. bank_el b g. rewrite Hst. cbv zeta. ifs; done.
  - unfold gxf_step, vf_apple_gxf_take_exception, with_out. bank_el b g. rewrite Hst. cbv zeta. ifs; done.
  - unfold gxf_step, vf_apple_gxf_tcg_exec. rewrite Ho.
    unfold vf_apple_gxf_genter, with_out. bank_el b g. rewrite Hst. ifs; done.
Qed.

Lemma run_unguarded b g os :
  gxf_sync g → nz (guarded g) = false → Forall (λ o, enters o = false) os →
  let '(rs, g') := gxf_run g os in
  gxf_run (with_gl b g) os = (rs, with_gl b g') ∧ gxf_sync g' ∧ nz (guarded g') = false.
Proof.
  intros Hs Hg Hos. revert g Hs Hg. induction Hos as [|o os Ho _ IH]; intros g Hs Hg; cbn [gxf_run]; [done|].
  rewrite step_unguarded by done. destruct (step_mode g o Hs) as (Hs1 & Hg1 & _).
  destruct (gxf_step g o) as [r g1]. specialize (IH g1 Hs1 (Hg1 Hg Ho)).
  destruct (gxf_run g1 os) as [rs g2]. destruct IH as (-> & ? & ?). done.
Qed.

Lemma run_guarded b g os :
  gxf_sync g → nz (guarded g) = true → Forall (λ o, leaves o = false) os →
  let '(rs, g') := gxf_run g os in
  gxf_run (with_el b g) os = (rs, with_el b g') ∧ gxf_sync g' ∧ nz (guarded g') = true.
Proof.
  intros Hs Hg Hos. revert g Hs Hg. induction Hos as [|o os Ho _ IH]; intros g Hs Hg; cbn [gxf_run]; [done|].
  rewrite step_guarded by done. destruct (step_mode g o Hs) as (Hs1 & _ & Hg1).
  destruct (gxf_step g o) as [r g1]. specialize (IH g1 Hs1 (Hg1 Hg Ho)).
  destruct (gxf_run g1 os) as [rs g2]. destruct IH as (-> & ? & ?). done.
Qed.

Lemma with_gl_self g : with_gl g g = g.
Proof. by destruct g. Qed.

Lemma with_el_self g : with_el g g = g.
Proof. by destruct g. Qed.

(** ** What survives until the exit *)

(** Operations that do not overwrite the return address and the nesting mark. *)
Definition keeps_return (o : gxf_op) : bool :=
  match o with
  | Msr reg _ _ =>
    negb (existsb (Z.eqb reg) [VF_GXF_REG_ASPSR_GL11; VF_GXF_REG_ELR_GL11; VF_GXF_REG_ELR_EL1])
  | Abort _ _ _ _ | TakeException _ _ _ _ _ _ => false
  | _ => negb (leaves o)
  end.

Lemma keeps_return_stays o : keeps_return o = true → leaves o = false.
Proof. destruct o; cbn; try done. by destruct (_ =? _). Qed.

Definition return_state (g : vf_apple_gxf_v1) : Z * Z * Z :=
  (elr_gl11 g, aspsr_gl11 g, gxf_mode_generation g).

Lemma step_keeps_return g o :
  gxf_sync g → nz (guarded g) = true → keeps_return o = true →
  return_state (gxf_step g o).2 = return_state g.
Proof.
  intros Hs Hg Ho. pose proof (sync_guarded g Hs) as Hst. rewrite Hg in Hst.
  destruct o; cbn [keeps_return leaves] in Ho; try done.
  - cbn [gxf_step]. apply negb_true_iff in Ho.
    destruct (write_el_ind (λ g', return_state g' = return_state g) g reg value el) as (rc & g' & -> & ?);
      [done|write_cases_by ltac:(fun E => first [rewrite E in Ho; discriminate Ho|reflexivity])..|done].
  - unfold gxf_step, vf_apple_gxf_genter, with_out. rewrite Hst. ifs; done.
  - unfold gxf_step, vf_apple_gxf_tcg_exec. apply negb_true_iff in Ho. rewrite Ho.
    unfold vf_apple_gxf_genter, with_out. rewrite Hst. ifs; done.
Qed.

Lemma run_keeps_return g os :
  gxf_sync g → nz (guarded g) = true → Forall (λ o, keeps_return o = true) os →
  return_state (gxf_run g os).2 = return_state g.
Proof.
  intros Hs Hg Hos. revert g Hs Hg. induction Hos as [|o os Ho _ IH]; intros g Hs Hg; cbn [gxf_run]; [done|].
  destruct (step_mode g o Hs) as (Hs1 & _ & Hg1). pose proof (step_keeps_return g o Hs Hg Ho) as Hr.
  destruct (gxf_step g o) as [r g1]. cbn [snd] in *.
  specialize (IH g1 Hs1 (Hg1 Hg (keeps_return_stays o Ho))).
  destruct (gxf_run g1 os) as [rs g2]. cbn [snd] in *. congruence.
Qed.

(** ** The lock *)

(** Accesses at EL1, and events that do not change the mode. *)
Definition el1_op (o : gxf_op) : bool :=
  match o with
  | Mrs _ | Gexit | TakeException _ _ _ _ _ _ => true
  | Msr _ _ el => el =? 1
  | _ => false
  end.

(** What the lock word [w] protects is the same in both states. *)
Definition protected (w : Z) (g g' : vf_apple_gxf_v1) : Prop :=
  (Z.testbit w 0 = true → vbar_el1 g' = vbar_el1 g) ∧
  (Z.testbit w 1 = true → sctlr_el1 g' = sctlr_el1 g) ∧
  (Z.testbit w 2 = true → tcr_el1 g' = tcr_el1 g) ∧
  (Z.testbit w 3 = true → ttbr0_el1 g' = ttbr0_el1 g) ∧
  (Z.testbit w 4 = true → ttbr1_el1 g' = ttbr1_el1 g) ∧
  (Z.testbit w 63 = true → Z.testbit (sctlr_el1 g') 0 = Z.testbit (sctlr_el1 g) 0) ∧
  (∀ i, Z.testbit w i = true → Z.testbit (vmsa_lock_el1 g') i = true).

Lemma locked_bit g n :
  guarded g = 0 → 0 ≤ n → gxf_vmsa_locked g (guarded g) 1 (Z.shiftl 1 n) = Z.testbit (vmsa_lock_el1 g) n.
Proof. intros Hg Hn. unfold gxf_vmsa_locked. rewrite Hg. by apply land_bit_nz. Qed.

Lemma keep_m v s : Z.testbit (Z.lor (Z.land v (bnot 64 VF_GXF_SCTLR_M)) (Z.land s VF_GXF_SCTLR_M)) 0 = Z.testbit s 0.
Proof.
  unfold VF_GXF_SCTLR_M. rewrite Z.lor_spec, !Z.land_spec, bnot_testbit, bit_testbit by lia.
  by destruct (Z.testbit v 0), (Z.testbit s 0).
Qed.

Lemma write_protected g reg value :
  guarded g = 0 →
  ∃ rc g', vf_apple_gxf_write_el (Some g) reg value 1 = (rc, Some g') ∧ protected (vmsa_lock_el1 g) g g'.
Proof.
  intros Hg. apply write_el_ind; [done| |];
    unfold alias_write_cases, write_cases, VF_GXF_VMSA_LOCK_VBAR_EL1, VF_GXF_VMSA_LOCK_SCTLR_EL1,
      VF_GXF_VMSA_LOCK_TCR_EL1, VF_GXF_VMSA_LOCK_TTBR0_EL1, VF_GXF_VMSA_LOCK_TTBR1_EL1,
      VF_GXF_VMSA_LOCK_SCTLR_M_BIT; rewrite !locked_bit by (done || lia);
    write_cases_by ltac:(fun _ => unfold protected; cbn; split_and!; intros;
      first [done|congruence|apply keep_m|rewrite Z.lor_spec; apply orb_true_iff; by left]).
Qed.

Lemma protected_trans w g0 g1 g2 :
  (∀ i, Z.testbit w i = true → Z.testbit (vmsa_lock_el1 g1) i = true) →
  protected w g0 g1 → protected (vmsa_lock_el1 g1) g1 g2 → protected w g0 g2.
Proof.
  intros Hw (A1 & A2 & A3 & A4 & A5 & A6 & A7) (B1 & B2 & B3 & B4 & B5 & B6 & B7).
  split_and!; intros; first [by apply B7, Hw|rewrite ?B1, ?B2, ?B3, ?B4, ?B5, ?B6 by auto; auto].
Qed.

Lemma step_protected g o :
  gxf_sync g → guarded g = 0 → el1_op o = true →
  protected (vmsa_lock_el1 g) g (gxf_step g o).2 ∧ gxf_sync (gxf_step g o).2 ∧
    guarded (gxf_step g o).2 = 0.
Proof.
  intros Hs Hg Ho. destruct (step_mode g o Hs) as (Hs1 & Hg1 & _).
  assert (nz (guarded (gxf_step g o).2) = false) as Hz.
  { apply Hg1; [by rewrite Hg|by destruct o]. }
  split; [|split; [done|by apply nz_false]].
  pose proof (sync_guarded g Hs) as Hst. rewrite Hg in Hst. change (nz 0) with false in Hst.
  destruct o; try done; cbn [el1_op] in Ho.
  - apply Z.eqb_eq in Ho as ->. cbn [gxf_step].
    destruct (write_protected g reg value Hg) as (rc & g' & -> & Hp). exact Hp.
  - unfold gxf_step, vf_apple_gxf_gexit, with_out. by rewrite Hst.
  - unfold gxf_step, vf_apple_gxf_take_exception, with_out. rewrite Hst. cbv zeta. ifs; by split_and!.
Qed.

Lemma run_protected g os :
  gxf_sync g → guarded g = 0 → Forall (λ o, el1_op o = true) os →
  protected (vmsa_lock_el1 g) g (gxf_run g os).2.
Proof.
  intros Hs Hg Hos. revert g Hs Hg. induction Hos as [|o os Ho _ IH]; intros g Hs Hg; cbn [gxf_run]; [done|].
  destruct (step_protected g o Hs Hg Ho) as (Hp & Hs1 & Hg1).
  destruct (gxf_step g o) as [r g1]. cbn [snd] in *. specialize (IH g1 Hs1 Hg1).
  destruct (gxf_run g1 os) as [rs g2]. cbn [snd] in *.
  eapply protected_trans; [|done|done]. apply Hp.
Qed.

(** ** The permission merge *)

Lemma merge_slot_testbit orig req mprr perm i k :
  0 ≤ i < 16 → 0 ≤ k < 64 →
  Z.testbit (merge_slot orig req mprr perm i) k =
    if (4 * i <=? k) && (k <? 4 * i + 3)
    then Z.testbit (if (k - 4 * i <? 2) && Z.testbit mprr (2 * i + (k - 4 * i)) then req else orig) k
    else Z.testbit perm k.
Proof.
  intros Hi Hk. unfold merge_slot, VF_GXF_SPRR_SLOT_SHIFT, VF_GXF_MPRR_ALLOW_SHIFT,
    VF_GXF_SPRR_RWX_MASK, VF_GXF_MPRR_ALLOW_MASK.
  rewrite !(wrap_id 32 i) by (unfold fits; lia). rewrite !(wrap_id 32) by (unfold fits; lia).
  change 3 with (Z.ones 2) at 1 2. change 7 with (Z.ones 3).
  unfold shl. rewrite Z.lor_spec, Z.land_spec, bnot_testbit, !wrap_testbit, !bool_decide_true by lia.
  rewrite !Z.shiftl_spec by lia. replace (i * 4) with (4 * i) by lia.
  destruct (Z.ltb_spec k (4 * i)) as [Hlt|Hge].
  { rewrite !(Z.testbit_neg_r _ (k - 4 * i)) by lia. tests. cbn. by rewrite andb_true_r, orb_false_r. }
  rewrite !Z.lor_spec, !Z.land_spec, bnot_testbit, !Z.land_spec, !Z.lxor_spec, !Z.land_spec,
    !ones_testbit, !Z.shiftr_spec, bool_decide_true by lia.
  replace (k - 4 * i + 4 * i) with k by lia. replace (k - 4 * i + i * 2) with (2 * i + (k - 4 * i)) by lia.
  destruct (Z.ltb_spec k (4 * i + 3)) as [Hin|Hout]; tests.
  - destruct (k - 4 * i <? 2); cbn [andb]; destruct (Z.testbit perm k), (Z.testbit req k) eqn:?,
      (Z.testbit orig k) eqn:?; cbn; try (destruct (Z.testbit mprr _); cbn); congruence.
  - cbn. by rewrite ?andb_false_r, ?andb_true_r, ?orb_false_r.
Qed.

(** Bit [k] of a merge: the requested bit where the bit is one of the two low
    bits of its slot and the mask allows it, else the original bit. *)
Definition merged_bit (orig req mprr k : Z) : bool :=
  Z.testbit (if (k mod 4 <? 2) && Z.testbit mprr (2 * (k / 4) + k mod 4) then req else orig) k.

Lemma merge_fold_testbit orig req mprr l perm k :
  Forall (λ i, 0 ≤ i < 16) l → 0 ≤ k < 64 →
  Z.testbit (foldl (merge_slot orig req mprr) perm l) k =
    if bool_decide (k / 4 ∈ l) && (k mod 4 <? 3) then merged_bit orig req mprr k else Z.testbit perm k.
Proof.
  intros Hl Hk. revert perm. induction Hl as [|i l Hi _ IH]; intros perm; cbn [foldl].
  { by rewrite bool_decide_false by apply not_elem_of_nil. }
  rewrite IH, merge_slot_testbit by done. unfold merged_bit.
  destruct (decide (k / 4 = i)) as [<-|Hne].
  - rewrite (bool_decide_true (k / 4 ∈ _ :: l)) by apply list_elem_of_here.
    replace (k - 4 * (k / 4)) with (k mod 4) by dlia.
    destruct (k mod 4 <? 3) eqn:E; rewrite ?andb_false_r.
    + replace ((4 * (k / 4) <=? k) && (k <? 4 * (k / 4) + 3)) with true by (symmetry; dlia).
      by destruct (bool_decide (k / 4 ∈ l)).
    + by replace ((4 * (k / 4) <=? k) && (k <? 4 * (k / 4) + 3)) with false by (symmetry; dlia).
  - replace ((4 * i <=? k) && (k <? 4 * i + 3)) with false by (symmetry; dlia).
    rewrite (bool_decide_ext (k / 4 ∈ i :: l) (k / 4 ∈ l)); [done|].
    rewrite elem_of_cons. split; [by intros [?|?]|by right].
Qed.

Lemma merge_testbit orig req mprr k :
  0 ≤ k < 64 → Z.testbit (gxf_merge_sprr_el0br0 orig req mprr) k = merged_bit orig req mprr k.
Proof.
  intros Hk. unfold gxf_merge_sprr_el0br0. rewrite merge_fold_testbit; [|apply Forall_seqZ; lia|done].
  rewrite bool_decide_true by (apply elem_of_seqZ; dlia). cbn [andb].
  destruct (k mod 4 <? 3) eqn:E; [done|]. unfold merged_bit. tests. by cbn.
Qed.

(** ** Initialisation *)

Definition reset_state : vf_apple_gxf_v1 :=
  default (Build_vf_apple_gxf_v1 0 0 0 0 0 0 0 0 0 0 0 0 0 0 0 0 0 0 0 0 0 0 0 0 0 0 0 0 0 0 0 0 0 0 0 0 0 0
             false [])
    (vf_apple_gxf_init (Some (Build_vf_apple_gxf_v1 0 0 0 0 0 0 0 0 0 0 0 0 0 0 0 0 0 0 0 0 0 0 0 0 0 0 0 0 0
       0 0 0 0 0 0 0 0 0 false []))).2.

Lemma run_sync g os : gxf_sync g → gxf_sync (gxf_run g os).2.
Proof.
  revert g. induction os as [|o os IH]; intros g Hs; cbn [gxf_run]; [done|].
  destruct (step_mode g o Hs) as (Hs1 & _). destruct (gxf_step g o) as [r g1].
  specialize (IH g1 Hs1). by destruct (gxf_run g1 os) as [rs g2].
Qed.

(** ** Properties *)

(** C7. Isolation of the guarded bank: while the CPU is not guarded, any sequence
    of register accesses at any exception level, exception deliveries, exits and
    host settings gives answers that do not depend on the guarded bank, and leaves
    that bank as it was. *)
Theorem gxf_unguarded_isolation g b os :
  gxf_sync g → guarded g = 0 → Forall (λ o, enters o = false) os →
  let '(rs, g') := gxf_run g os in
  gxf_run (with_gl b g) os = (rs, with_gl b g') ∧ with_gl g g' = g' ∧ guarded g' = 0.
Proof.
  intros Hs Hg Hos. pose proof (run_unguarded b g os Hs) as H1. pose proof (run_unguarded g g os Hs) as H2.
  rewrite with_gl_self in H2. rewrite Hg in H1, H2.
  destruct (gxf_run g os) as [rs g']. destruct (H1 eq_refl Hos) as (H3 & _ & Hz).
  destruct (H2 eq_refl Hos) as ([= H4] & _). split; [done|]. split; [done|by apply nz_false].
Qed.

Lemma gxf_unguarded_isolation_witness :
  gxf_run (with_gl (reset_state <| vbar_gl11 := 0x8000 |>) reset_state)
      [Msr VF_GXF_REG_VBAR_EL1 0x1234 1; Mrs VF_GXF_REG_VBAR_EL1; Mrs VF_GXF_REG_VBAR_GL11; Gexit]
    = ([(0, None); (0, Some 0x1220); (-1, None); (-1, None)],
       with_gl (reset_state <| vbar_gl11 := 0x8000 |>) (reset_state <| vbar_el1 := 0x1220 |>)).
Proof.
  destruct (gxf_unguarded_isolation reset_state (reset_state <| vbar_gl11 := 0x8000 |>)
    [Msr VF_GXF_REG_VBAR_EL1 0x1234 1; Mrs VF_GXF_REG_VBAR_EL1; Mrs VF_GXF_REG_VBAR_GL11; Gexit])
    as (H & _); [reflexivity|reflexivity|repeat constructor|].
  exact H.
Defined.

(** C26. Guarded call and return: an entry from the unguarded mode with the feature
    enabled jumps to the enter vector; whatever the guarded code does short of
    overwriting its return address or nesting mark, its answers do not depend on
    the normal bank, and the exit returns to the saved address in the unguarded
    mode with the normal bank as it was; each direction counts one mode change. *)
Theorem gxf_guarded_roundtrip g b pc spsr os :
  gxf_sync g → guarded g = 0 → Z.testbit (gxf_config_el1 g) 0 = true →
  Forall (λ o, keeps_return o = true) os →
  ∃ g1 rs g2 g3,
    gxf_step g (Genter pc spsr) = ((0, Some (gxf_enter_el1 g)), g1) ∧ guarded g1 = 1 ∧
    gxf_run g1 os = (rs, g2) ∧ gxf_run (with_el b g1) os = (rs, with_el b g2) ∧
    gxf_step g2 Gexit = ((0, Some pc), g3) ∧ guarded g3 = 0 ∧ with_el g g3 = g3 ∧
    gxf_mode_generation g3 = u64 (gxf_mode_generation g + 2).
Proof.
  intros Hs Hg Hc Hos.
  destruct (gxf_step g (Genter pc spsr)) as [r1 g1] eqn:E1.
  assert (H1 : r1 = (0, Some (gxf_enter_el1 g)) ∧ guarded g1 = 1 ∧ gxf_sync g1 ∧ with_el g g1 = g1 ∧
    return_state g1 = (pc, Z.land (aspsr_gl11 g) (bnot 64 VF_GXF_ASPSR_NEST),
                       u64 (gxf_mode_generation g + 1))).
  { destruct (step_mode g (Genter pc spsr) Hs) as (Hs1 & _). rewrite E1 in Hs1. cbn [snd] in Hs1.
    unfold gxf_step, vf_apple_gxf_genter, with_out in E1. rewrite (sync_guarded g Hs), Hg in E1.
    change VF_GXF_CONFIG_EN with (Z.shiftl 1 0) in E1. rewrite land_bit_nz, Hc in E1 by lia.
    change (nz 0) with false in E1. cbn [negb] in E1. cbv zeta in E1. injection E1 as <- <-.
    split; [done|]. split; [|split; [done|split; [by destruct g|done]]].
    cbn. by rewrite set_status_bit. }
  destruct H1 as (-> & Hg1 & Hs1 & Hel1 & Hret1).
  assert (Hz1 : nz (guarded g1) = true) by by rewrite Hg1.
  assert (Hst : Forall (λ o, leaves o = false) os).
  { eapply Forall_impl; [|exact Hos]. intros o. apply keeps_return_stays. }
  pose proof (run_guarded b g1 os Hs1 Hz1 Hst) as Hb. pose proof (run_guarded g g1 os Hs1 Hz1 Hst) as Hgg.
  rewrite Hel1 in Hgg. pose proof (run_keeps_return g1 os Hs1 Hz1 Hos) as Hret.
  destruct (gxf_run g1 os) as [rs g2] eqn:E2. destruct Hb as (Hb & Hs2 & Hz2).
  destruct Hgg as ([= Hel2] & _). cbn [snd] in Hret. rewrite Hret1 in Hret. injection Hret as Hr1 Hr2 Hr3.
  exists g1, rs, g2. eexists. split; [done|]. split; [done|]. split; [done|]. split; [done|].
  unfold gxf_step, vf_apple_gxf_gexit, with_out. rewrite (sync_guarded g2 Hs2), Hz2, Hr1, Hr2. cbn [negb].
  change VF_GXF_ASPSR_NEST with (Z.shiftl 1 0).
  rewrite land_bit_nz, Z.land_spec, bnot_testbit, bit_testbit by lia. rewrite bool_decide_true by done.
  rewrite andb_false_r. split; [reflexivity|]. split; [cbn; by rewrite clear_status_bit|]. split.
  - rewrite Hel2. by destruct g2.
  - cbn. rewrite Hr3. unfold wrap. rewrite Zplus_mod_idemp_l. f_equal. lia.
Qed.

(** A state with the feature enabled. *)
Definition enabled_state : vf_apple_gxf_v1 :=
  reset_state <| gxf_config_el1 := 1 |> <| gxf_enter_el1 := 0x4000 |>.

Lemma gxf_guarded_roundtrip_witness :
  ∃ g1 rs g2 g3,
    gxf_step enabled_state (Genter 0x1000 5) = ((0, Some 0x4000), g1) ∧ guarded g1 = 1 ∧
    gxf_run g1 [Msr VF_GXF_REG_TPIDR_EL1 7 1; Mrs VF_GXF_REG_TPIDR_GL11] = (rs, g2) ∧
    gxf_step g2 Gexit = ((0, Some 0x1000), g3) ∧ guarded g3 = 0 ∧ tpidr_el1 g3 = 0.
Proof.
  destruct (gxf_guarded_roundtrip enabled_state enabled_state 0x1000 5
    [Msr VF_GXF_REG_TPIDR_EL1 7 1; Mrs VF_GXF_REG_TPIDR_GL11])
    as (g1 & rs & g2 & g3 & H1 & H2 & H3 & _ & H5 & H6 & H7 & _).
  - reflexivity.
  - reflexivity.
  - reflexivity.
  - repeat constructor.
  - exists g1, rs, g2, g3. split; [exact H1|]. split; [exact H2|]. split; [exact H3|].
    split; [exact H5|]. split; [exact H6|]. rewrite <- H7. reflexivity.
Defined.

(** C39. The lock: while the CPU is not guarded, no sequence of EL1 accesses, exits
    and exception deliveries changes a translation control whose lock bit is set
    (the vector base, the system control, the translation control and the two table
    bases), nor the enable bit of the system control under bit 63, nor clears any
    lock bit. *)
Theorem gxf_lock_protects g os :
  gxf_sync g → guarded g = 0 → Forall (λ o, el1_op o = true) os →
  protected (vmsa_lock_el1 g) g (gxf_run g os).2.
Proof. apply run_protected. Qed.

Lemma gxf_lock_protects_witness :
  let g := reset_state <| ttbr0_el1 := 0x5000 |> <| vmsa_lock_el1 := 8 |> in
  ttbr0_el1 (gxf_run g [Msr VF_GXF_REG_VMSA_LOCK_EL1 0 1; Msr VF_GXF_REG_TTBR0_EL1 0x9000 1]).2 = 0x5000.
Proof.
  intros g.
  destruct (gxf_lock_protects g [Msr VF_GXF_REG_VMSA_LOCK_EL1 0 1; Msr VF_GXF_REG_TTBR0_EL1 0x9000 1])
    as (_ & _ & _ & H & _); [reflexivity|reflexivity|repeat constructor|].
  exact (H eq_refl).
Defined.

(** The EL0 permission write: only the two low bits of each of the 16 slots
    whose bit in the mask register is set take the requested value, every other bit
    keeps its value; the write counts one permission generation and one flush, and
    calls the installed callback once with the new generation. *)
Theorem sprr_el0_write g value :
  ∃ g', vf_apple_gxf_write_el (Some g) VF_GXF_REG_SPRR_EL0BR0_EL1 value 0 = (0, Some g') ∧
    (∀ k, 0 ≤ k < 64 → Z.testbit (sprr_el0br0_el1 g') k =
       merged_bit (sprr_el0br0_el1 g) value (mprr_el0br0_el1 g) k) ∧
    vf_apple_gxf_sprr_perm_generation (Some g') = u64 (sprr_perm_generation g + 1) ∧
    vf_apple_gxf_sprr_tlb_flush_count (Some g') = u64 (sprr_tlb_flush_count g + 1) ∧
    flushed g' = flushed g ++ (if sprr_tlb_flush g then [sprr_perm_generation g'] else []).
Proof.
  pose proof (merge_testbit (sprr_el0br0_el1 g) value (mprr_el0br0_el1 g)) as Hm.
  unfold vf_apple_gxf_write_el.
  change (gxf_guarded_only g VF_GXF_REG_SPRR_EL0BR0_EL1) with false. cbv iota.
  change (gxf_el1_alias_write g VF_GXF_REG_SPRR_EL0BR0_EL1 value 0) with (@None vf_apple_gxf_v1). cbv iota.
  assert (Hsw : switch VF_GXF_REG_SPRR_EL0BR0_EL1 (write_cases g value 0) = Some (Some (gxf_sprr_perm_changed
    (g <| sprr_el0br0_el1 := gxf_merge_sprr_el0br0 (sprr_el0br0_el1 g) value (mprr_el0br0_el1 g) |>))))
    by reflexivity.
  rewrite Hsw. clear Hsw. eexists. split; [done|].
  generalize dependent (gxf_merge_sprr_el0br0 (sprr_el0br0_el1 g) value (mprr_el0br0_el1 g)).
  intros m Hm. unfold gxf_sprr_perm_changed. cbn.
  destruct (sprr_tlb_flush g); cbn; rewrite ?app_nil_r; by split_and!.
Qed.

(** The state after an exception is saved in a bank. *)
Definition saved (gl : bool) (g g' : vf_apple_gxf_v1) (kind pc spsr esr far : Z) : Prop :=
  let esr' old := if (kind =? 0) || (kind =? 3) then esr else old in
  let far' old := if kind =? 0 then far else old in
  if gl then elr_gl11 g' = pc ∧ spsr_gl11 g' = spsr ∧ esr_gl11 g' = esr' (esr_gl11 g) ∧
    far_gl11 g' = far' (far_gl11 g) ∧ with_el g g' = g'
  else elr_el1 g' = pc ∧ spsr_el1 g' = spsr ∧ esr_el1 g' = esr' (esr_el1 g) ∧
    far_el1 g' = far' (far_el1 g) ∧ with_gl g g' = g'.

(** Exception delivery, on every branch: a kind up to 3 and a table up to 3 whose
    vector does not exceed 64 bits deliver to base + 0x200 table + 0x80 kind of the
    current mode's vector base, and save the return address and status (the syndrome
    for synchronous exceptions and system errors, the fault address for
    synchronous exceptions) in the current mode's bank, leaving the other bank and the
    mode alone; every other request is refused and changes nothing. *)
Theorem exception_delivery g kind table pc spsr esr far :
  gxf_sync g → fits 64 (vbar_el1 g) → fits 64 (vbar_gl11 g) → fits 32 kind → fits 32 table →
  let gl := nz (guarded g) in
  let vector := (if gl then vbar_gl11 g else vbar_el1 g) + 0x200 * table + 0x80 * kind in
  let '(r, g') := gxf_step g (TakeException kind table pc spsr esr far) in
  if (kind <=? 3) && (table <=? 3) && (vector <? 2 ^ 64)
  then r = (0, Some vector) ∧ saved gl g g' kind pc spsr esr far ∧ guarded g' = guarded g ∧
    gxf_status_el1 g' = gxf_status_el1 g
  else r = (-1, None) ∧ g' = g.
Proof.
  intros Hs Hel Hgl Hk Ht gl vector. unfold gxf_step, vf_apple_gxf_take_exception, with_out.
  rewrite (sync_guarded g Hs). fold gl. cbv zeta. unfold VF_GXF_EXCP_SERR, VF_GXF_VBAR_TABLE_LOWER_A32,
    VF_GXF_VBAR_TABLE_OFFSET, VF_GXF_VBAR_KIND_OFFSET, VF_GXF_EXCP_SYNC.
  set (base := if gl then vbar_gl11 g else vbar_el1 g) in *.
  assert (Hb : fits 64 base) by (subst base; by destruct gl). unfold fits in *.
  destruct (3 <? kind) eqn:E1; cbn [orb]; [tests; done|].
  destruct (3 <? table) eqn:E2; [tests; done|].
  rewrite !(wrap_id 64 kind), !(wrap_id 64 table), !(wrap_id 64 (_ * _)) by (unfold fits; lia).
  rewrite !(wrap_id 64 (_ + _ * 0x80)) by (unfold fits; lia).
  change (u64 (-1)) with (2 ^ 64 - 1).
  rewrite (wrap_id 64 (2 ^ 64 - 1 - _)) by (unfold fits; lia).
  replace (2 ^ 64 - 1 - (table * 512 + kind * 128) <? base) with (negb (vector <? 2 ^ 64)) by (subst vector; lia).
  replace (kind <=? 3) with true by lia. replace (table <=? 3) with true by lia. cbn [andb].
  destruct (vector <? 2 ^ 64) eqn:E3; cbn [negb]; [|done].
  rewrite wrap_id by (unfold fits; lia). replace (base + _) with vector by (subst vector; lia).
  unfold saved. destruct gl, (kind =? 0), (kind =? 3); cbn [orb default]; split_and!; reflexivity.
Qed.

Lemma exception_delivery_witness :
  let '(r, g') := gxf_step (enabled_state <| vbar_el1 := 0x8000 |>) (TakeException 1 2 0x1000 5 6 7) in
  r = (0, Some 0x8480) ∧ saved false (enabled_state <| vbar_el1 := 0x8000 |>) g' 1 0x1000 5 6 7.
Proof.
  pose proof (exception_delivery (enabled_state <| vbar_el1 := 0x8000 |>) 1 2 0x1000 5 6 7) as H.
  destruct H as (H1 & H2 & _); try (unfold fits; cbn; lia); [reflexivity|].
  split; [exact H1|exact H2].
Defined.

End Gxf.
