(* ===== verification/Nvram.v ===== *)
(** The NVRAM environment bank, [devices/nvram_v1.c] and [nvram_v1.h].

    State: up to 32 environment variables, up to 8 partitions, the bank length
    and the generation.  Operations: initialisation, lookup (string, number,
    boolean), setting and removing a variable, parsing and building the bank image,
    loading from and saving to a block backend, and the boot-argument copy.

    A C string argument is the list of its bytes before the terminating NUL.  The
    [env] and [parts] arrays are kept as the list of their live entries: the code
    clears an entry before it becomes live and reads no entry past the counts, so
    [env_count] and [part_count] are the lengths.  The block backend is the
    embedder's code, a parameter of the operations that call it. *)
From S2P Require Import Prelude.
From S2P Require Import Words.
From S2P Require Import Bytes.

Module Nvram.

Definition VF_NVRAM_NSID := 5.
Definition VF_NVRAM_NSTYPE := 5.
Definition VF_NVRAM_BANK_MAX_LEN := 0x2000.
Definition VF_NVRAM_COMMON_PART_LEN := 0x7f0.
Definition VF_NVRAM_ENV_NAME_MAX := 64.
Definition VF_NVRAM_ENV_VALUE_MAX := 256.
Definition VF_NVRAM_MAX_ENV := 32.
Definition VF_NVRAM_MAX_PARTS := 8.
Definition VF_NVRAM_CHRP_SIG := 0x5a.
Definition VF_NVRAM_CHRP_PART_FREE := 0x7f.
Definition VF_NVRAM_COMMON_SIG := 0x70.
(** ["APL,OSXPani"] with its NUL, and the other strings of the code. *)
Definition VF_NVRAM_PANIC_PART_NAME : bytes :=
  [0x41; 0x50; 0x4c; 0x2c; 0x4f; 0x53; 0x58; 0x50; 0x61; 0x6e; 0x69; 0].
Definition str_common : bytes := [0x63; 0x6f; 0x6d; 0x6d; 0x6f; 0x6e].
Definition str_nvram : bytes := [0x6e; 0x76; 0x72; 0x61; 0x6d].
Definition str_true : bytes := [0x74; 0x72; 0x75; 0x65].
Definition str_boot_args : bytes := [0x62; 0x6f; 0x6f; 0x74; 0x2d; 0x61; 0x72; 0x67; 0x73].

Record vf_nvram_env := { name : bytes; value : bytes; flags : Z; parsed_uint : Z }.

(** [part_name] and [data] are the whole arrays, 16 and 0x7f0 bytes. *)
Record vf_nvram_part := { sig : Z; part_name : bytes; len : Z; data : bytes }.

Record vf_nvram_v1 := {
  env : list vf_nvram_env;
  parts : list vf_nvram_part;
  bank_len : Z;
  generation : Z;
}.

Record vf_nvram_ns_info := { nsid : Z; nstype : Z; qom_type : bytes }.

Definition g_nvram_ns : vf_nvram_ns_info := {|
  nsid := VF_NVRAM_NSID; nstype := VF_NVRAM_NSTYPE;
  qom_type := [0x61; 0x70; 0x70; 0x6c; 0x65; 0x2d; 0x6e; 0x76; 0x72; 0x61; 0x6d] |}.

Definition env_count (n : vf_nvram_v1) : Z := Z.of_nat (length (env n)).
Definition part_count (n : vf_nvram_v1) : Z := Z.of_nat (length (parts n)).
Definition cleared : vf_nvram_v1 := {| env := []; parts := []; bank_len := 0; generation := 0 |}.

Definition vf_nvram_get_namespace (meta : bool) : option vf_nvram_ns_info :=
  if meta then Some g_nvram_ns else None.

(** ** Strings and words *)

(** The C string in an array; [None]: the array has no NUL. *)
Fixpoint cstr (a : bytes) : option bytes :=
  match a with
  | [] => None
  | b :: a => if b =? 0 then Some [] else l ← cstr a; Some (b :: l)
  end.

(** The string an array of [dst_len] characters holds after the copy. *)
Definition nvram_copy_str (dst_len : Z) (src : bytes) : bytes :=
  take (Z.to_nat (if dst_len <=? Z.of_nat (length src) then dst_len - 1 else Z.of_nat (length src))) src.

(** A character array holding a string. *)
Definition char_array (size : Z) (s : bytes) : bytes :=
  take (Z.to_nat size) (s ++ replicate (Z.to_nat size) 0).

Definition be16_to_host (v : Z) : Z := Z.lor (Z.shiftr v 8) (Z.shiftl (Z.land v 0xff) 8).
Definition host_to_be16 (v : Z) : Z :=
  u16 (Z.lor (Z.shiftl (Z.land v 0xff) 8) (Z.land (Z.shiftr v 8) 0xff)).

(** A 16-bit field in memory. *)
Definition le16_at (buf : bytes) (off : Z) : option Z :=
  b0 ← arr_get buf off; b1 ← arr_get buf (off + 1); Some (Z.lor b0 (Z.shiftl b1 8)).
Definition le16_split (v : Z) : bytes := [Z.land v 0xff; Z.land (Z.shiftr v 8) 0xff].

(** ** Checksums *)

(** One round of the header checksum. *)
Definition chrp_byte (sum b : Z) : Z :=
  let sum := u32 (sum + b) in
  Z.land (u32 (sum + Z.shiftr (Z.land sum 0xff00) 8)) 0xff.

(** The header is 16 bytes of [buf] from [off] on. *)
Definition vf_nvram_chrp_checksum (buf : bytes) (off : Z) : option Z :=
  b ← arr_get buf off; bs ← buf_read buf (off + 2) 14;
  Some (u8 (Z.land (fold_left chrp_byte bs b) 0xff)).

Definition adler_byte (s : Z * Z) (b : Z) : Z * Z :=
  let s1 := u32 (s.1 + b) mod 65521 in
  let s2 := u32 (s.2 + s1) mod 65521 in (s1, s2).

Definition vf_nvram_adler32 (adler : Z) (bs : bytes) : Z :=
  let '(s1, s2) := fold_left adler_byte bs (Z.land adler 0xffff, Z.land (Z.shiftr adler 16) 0xffff) in
  Z.lor (shl 32 s2 16) s1.

(** ** Variables *)

(** Index of the first live variable of that name. *)
Definition nvram_find_env (n : vf_nvram_v1) (nm : bytes) : option nat :=
  fst <$> list_find (λ e, name e = nm) (env n).

Fixpoint find_part (l : list vf_nvram_part) (nm : bytes) : option (option nat) :=
  match l with
  | [] => Some None
  | p :: l =>
    s ← cstr (part_name p);
    if bool_decide (s = nm) then Some (Some 0%nat) else r ← find_part l nm; Some (option_map S r)
  end.

(** [None] inside: no such partition. *)
Definition nvram_find_part (n : vf_nvram_v1) (nm : bytes) : option (option nat) := find_part (parts n) nm.

Definition common_part : vf_nvram_part := {|
  sig := VF_NVRAM_COMMON_SIG; part_name := char_array 16 (nvram_copy_str 16 str_common);
  len := VF_NVRAM_COMMON_PART_LEN; data := replicate (Z.to_nat VF_NVRAM_COMMON_PART_LEN) 0 |}.

(** The index of the [common] partition, added when missing. *)
Definition nvram_ensure_common (n : vf_nvram_v1) : option (option nat * vf_nvram_v1) :=
  p ← nvram_find_part n str_common;
  match p with
  | Some i => Some (Some i, n)
  | None =>
    if VF_NVRAM_MAX_PARTS <=? part_count n then Some (None, n)
    else Some (Some (length (parts n)), n <| parts := parts n ++ [common_part] |>)
  end.

(** The digit a character stands for in the given base. *)
Definition digit_of (base c : Z) : option Z :=
  if (0x30 <=? c) && (c <=? 0x39) then Some (c - 0x30)
  else if (base =? 16) && (0x61 <=? c) && (c <=? 0x66) then Some (c - 0x61 + 10)
  else if (base =? 16) && (0x41 <=? c) && (c <=? 0x46) then Some (c - 0x41 + 10)
  else None.

Fixpoint parse_digits (base : Z) (s : bytes) (acc digits : Z) : Z * Z :=
  match s with
  | [] => (acc, digits)
  | c :: s =>
    match digit_of base c with
    | Some d =>
      if base <=? d then (acc, digits) else parse_digits base s (u32 (acc * base + d)) (digits + 1)
    | None => (acc, digits)
    end
  end.

Definition parse_env_uint (v : bytes) : Z :=
  let '(base, v) :=
    match v with
    | c0 :: c1 :: v' =>
      if (c0 =? 0x30) && ((c1 =? 0x78) || (c1 =? 0x58)) then (16, v') else (10, v)
    | _ => (10, v)
    end in
  let '(acc, digits) := parse_digits base v 0 0 in
  if digits =? 0 then 0 else acc.

Definition vf_nvram_env_get (n : ptr vf_nvram_v1) (nm : ptr bytes) : ptr bytes :=
  n ← n; nm ← nm; i ← nvram_find_env n nm; value <$> env n !! i.

Definition vf_nvram_env_get_uint (n : ptr vf_nvram_v1) (nm : ptr bytes) (default_val : Z) : Z :=
  match n, nm with
  | Some n, Some nm =>
    default default_val (i ← nvram_find_env n nm; parsed_uint <$> env n !! i)
  | _, _ => default_val
  end.

Definition vf_nvram_env_get_bool (n : ptr vf_nvram_v1) (nm : ptr bytes) (default_val : Z) : Z :=
  match n, nm with
  | Some n, Some nm =>
    match (i ← nvram_find_env n nm; env n !! i) with
    | None => default_val
    | Some v =>
      if bool_decide (value v = str_true) then 1 else if nz (parsed_uint v) then 1 else 0
    end
  | _, _ => default_val
  end.

Definition vf_nvram_env_unset (n : ptr vf_nvram_v1) (nm : ptr bytes) : Z * ptr vf_nvram_v1 :=
  match n, nm with
  | Some s, Some nm =>
    match nvram_find_env s nm with
    | None => (0, n)
    | Some i => (1, Some (s <| env := take i (env s) ++ drop (S i) (env s) |>))
    end
  | _, _ => (-1, n)
  end.

Definition vf_nvram_env_set (n : ptr vf_nvram_v1) (nm v : ptr bytes) (fl : Z) : Z * ptr vf_nvram_v1 :=
  match n, nm, v with
  | Some _, Some nm, Some v =>
    if bool_decide (nm = []) || (VF_NVRAM_ENV_NAME_MAX <=? Z.of_nat (length nm))
       || (VF_NVRAM_ENV_VALUE_MAX <=? Z.of_nat (length v)) then (-1, n)
    else
      let '(_, n) := vf_nvram_env_unset n (Some nm) in
      match n with
      | None => (-1, None)
      | Some s =>
        if VF_NVRAM_MAX_ENV <=? env_count s then (-1, n)
        else (0, Some (s <| env := env s ++ [{| name := nvram_copy_str VF_NVRAM_ENV_NAME_MAX nm;
                  value := nvram_copy_str VF_NVRAM_ENV_VALUE_MAX v; flags := fl;
                  parsed_uint := parse_env_uint v |}] |>))
      end
  | _, _, _ => (-1, n)
  end.

(** ** Parsing *)

(** The scan loops: how far the text from [pos] runs before [stop] or the end of
    the partition; [fuel] bounds the rounds. *)
Fixpoint scan (fuel : nat) (stop : Z → bool) (d : bytes) (plen pos : Z) : option Z :=
  match fuel with
  | O => None
  | S fuel =>
    if negb (pos <? plen) then Some pos
    else c ← arr_get d pos; if stop c then Some pos else scan fuel stop d plen (pos + 1)
  end.

(** The loop of [nvram_load_env_from_common] from [cnt] on. *)
Fixpoint load_env (fuel : nat) (n : vf_nvram_v1) (d : bytes) (plen cnt : Z) : option (Z * vf_nvram_v1) :=
  match fuel with
  | O => None
  | S fuel =>
    if negb (cnt <? plen) then Some (0, n)
    else
      c ← arr_get d cnt;
      if c =? 0 then Some (0, n)
      else
        e ← scan (Z.to_nat (plen - cnt + 1)) (λ c, (c =? 0) || (c =? 0x3d)) d plen cnt;
        if plen <=? e then Some (-1, n)
        else
          c ← arr_get d e;
          if negb (c =? 0x3d) then Some (-1, n)
          else
            let name_len := e - cnt in
            let cnt' := e + 1 in
            e' ← scan (Z.to_nat (plen - cnt' + 1)) (λ c, c =? 0) d plen cnt';
            if plen <=? e' then Some (-1, n)
            else
              let value_len := e' - cnt' in
              if (VF_NVRAM_ENV_NAME_MAX <=? name_len) || (VF_NVRAM_ENV_VALUE_MAX <=? value_len)
              then Some (-1, n)
              else
                nm ← buf_read d cnt name_len;
                v ← buf_read d cnt' value_len;
                let '(rc, p) := vf_nvram_env_set (Some n) (Some nm) (Some v) 0 in
                n ← p;
                if negb (rc =? 0) then Some (-1, n) else load_env fuel n d plen (e' + 1)
  end.

Definition nvram_load_env_from_common (n : vf_nvram_v1) (p : vf_nvram_part) : option (Z * vf_nvram_v1) :=
  load_env (S (Z.to_nat (len p))) (n <| env := [] |>) (data p) (len p) 0.

(** The loop of [nvram_parse_partitions]; [blen] bytes of [buf] are the image. *)
Fixpoint parse_parts (fuel : nat) (n : vf_nvram_v1) (buf : bytes) (blen offset : Z) :
    option (Z * vf_nvram_v1) :=
  match fuel with
  | O => None
  | S fuel =>
    if negb (offset + 16 <=? blen) then Some (0, n)
    else
      checksum ← arr_get buf (offset + 1);
      sum ← vf_nvram_chrp_checksum buf offset;
      if negb (checksum =? sum) then Some (-1, n)
      else
        signature ← arr_get buf offset;
        if signature =? VF_NVRAM_CHRP_PART_FREE then Some (0, n)
        else
          raw ← le16_at buf (offset + 2);
          let part_units := be16_to_host raw in
          if (part_units <? 1) || (blen <? part_units * 16 + offset) then Some (-1, n)
          else
            let part_bytes := part_units * 16 - 16 in
            if VF_NVRAM_MAX_PARTS <=? part_count n then Some (-1, n)
            else
              hdr_name ← buf_read buf (offset + 4) 12;
              if bool_decide (hdr_name = VF_NVRAM_PANIC_PART_NAME)
              then parse_parts fuel n buf blen (offset + part_units * 16)
              else
                let part := {| sig := signature; part_name := replicate 16 0; len := part_bytes;
                               data := replicate (Z.to_nat VF_NVRAM_COMMON_PART_LEN) 0 |} in
                if VF_NVRAM_COMMON_PART_LEN <? part_bytes
                then Some (-1, n <| parts := parts n ++ [part] |>)
                else
                  nm ← buf_read buf (offset + 4) 15;
                  pn ← buf_write (part_name part) 0 nm;
                  let part := part <| part_name := pn |> in
                  if blen <? offset + 16 + part_bytes
                  then Some (-1, n <| parts := parts n ++ [part] |>)
                  else
                    bs ← buf_read buf (offset + 16) part_bytes;
                    d ← buf_write (data part) 0 bs;
                    parse_parts fuel (n <| parts := parts n ++ [part <| data := d |>] |>) buf blen
                      (offset + part_units * 16)
  end.

Definition nvram_parse_partitions (n : vf_nvram_v1) (buf : bytes) (blen : Z) : option (Z * vf_nvram_v1) :=
  if blen <? 0x20 then Some (-1, n)
  else parse_parts (S (Z.to_nat blen)) (n <| parts := [] |>) buf blen 0x20.

Definition vf_nvram_init (n : ptr vf_nvram_v1) : option (Z * ptr vf_nvram_v1) :=
  match n with
  | None => Some (-1, None)
  | Some _ =>
    '(common, n) ← nvram_ensure_common (cleared <| bank_len := VF_NVRAM_BANK_MAX_LEN |>);
    Some (match common with Some _ => 0 | None => -1 end, Some n)
  end.

(** [blen] bytes of the object [buf] are the image. *)
Definition vf_nvram_parse_bank (n : ptr vf_nvram_v1) (buf : ptr bytes) (blen : Z) :
    option (Z * ptr vf_nvram_v1) :=
  match n, buf with
  | Some _, Some buf =>
    if blen <? 0x20 then Some (-1, n)
    else
      checksum ← arr_get buf 1;
      sum ← vf_nvram_chrp_checksum buf 0;
      if negb (checksum =? sum) then Some (-1, n)
      else
        body ← buf_read buf 0x14 (blen - 0x14);
        stored ← le32_at buf 0x10;
        if negb (vf_nvram_adler32 1 body =? stored) then Some (-1, n)
        else
          gen ← le32_at buf 0x14;
          let s := cleared <| bank_len := blen |> <| generation := gen |> in
          '(rc, s) ← nvram_parse_partitions s buf blen;
          if negb (rc =? 0) then Some (-1, Some cleared)
          else
            common ← nvram_find_part s str_common;
            match common with
            | None =>
              '(rc, p) ← vf_nvram_init (Some s);
              Some (if negb (rc =? 0) then -1 else 0, p)
            | Some i =>
              p ← parts s !! i;
              '(rc, s) ← nvram_load_env_from_common s p;
              if negb (rc =? 0) then Some (-1, Some cleared) else Some (0, Some s)
            end
  | _, _ => Some (-1, n)
  end.

Definition vf_nvram_ingest_bank (n : ptr vf_nvram_v1) (buf : ptr bytes) (blen : Z) :
    option (Z * ptr vf_nvram_v1) :=
  match n, buf with
  | Some _, Some _ =>
    if (blen =? 0) || (VF_NVRAM_BANK_MAX_LEN <? blen) then Some (-1, n)
    else vf_nvram_parse_bank n buf blen
  | _, _ => Some (-1, n)
  end.

(** ** Building *)

(** The destination is [dst_len] bytes of [buf] from [pos] on. *)
Definition nvram_format_env_entry (buf : bytes) (pos dst_len : Z) (nm v : bytes) : option (Z * bytes) :=
  let needed := Z.of_nat (length nm) + 1 + Z.of_nat (length v) in
  if dst_len <=? needed then Some (-1, buf)
  else
    buf ← buf_write buf pos nm;
    buf ← buf_write buf (pos + Z.of_nat (length nm)) [0x3d];
    buf ← buf_write buf (pos + Z.of_nat (length nm) + 1) v;
    buf ← buf_write buf (pos + needed) [0];
    Some (needed, buf).

(** The loop of [nvram_env_serialize]: the position reached, or a failure. *)
Fixpoint serialize_from (l : list vf_nvram_env) (buf : bytes) (blen pos : Z) : option (option Z * bytes) :=
  match l with
  | [] => Some (Some pos, buf)
  | v :: l =>
    '(needed, buf) ← nvram_format_env_entry buf pos (blen - pos) (name v) (value v);
    if (needed <? 0) || (blen - pos <=? needed) then Some (None, buf)
    else serialize_from l buf blen (pos + needed + 1)
  end.

Definition nvram_env_serialize (n : vf_nvram_v1) (buf : bytes) (blen : Z) : option (Z * bytes) :=
  '(r, buf) ← serialize_from (env n) buf blen 0;
  match r with
  | None => Some (-1, buf)
  | Some pos =>
    buf ← (if pos <? blen then buf_write buf pos [0] else Some buf);
    Some (pos, buf)
  end.

(** A header at [offset]: signature, length in units and name, then its checksum. *)
Definition put_header (buf : bytes) (offset signature units : Z) (nm : bytes) : option bytes :=
  buf ← buf_write buf offset [signature];
  buf ← buf_write buf (offset + 2) (le16_split (host_to_be16 units));
  buf ← buf_write buf (offset + 4) nm;
  sum ← vf_nvram_chrp_checksum buf offset;
  buf_write buf (offset + 1) [sum].

(** The loop over the partitions: the offset reached, or a failure. *)
Fixpoint prepare_parts (l : list vf_nvram_part) (buf : bytes) (blen offset : Z) :
    option (option Z * bytes) :=
  match l with
  | [] => Some (Some offset, buf)
  | p :: l =>
    if len p =? 0 then prepare_parts l buf blen offset
    else if blen <? offset + 16 then Some (None, buf)
    else
      let units := u32 ((len p + 16 + 15) / 16) in
      let total := units * 16 in
      if blen <? offset + total then Some (None, buf)
      else
        nm ← buf_read (part_name p) 0 12;
        buf ← put_header buf offset (sig p) units nm;
        bs ← buf_read (data p) 0 (len p);
        buf ← (if 0 <? len p then buf_write buf (offset + 16) bs else Some buf);
        prepare_parts l buf blen (offset + total)
  end.

Definition nvram_prepare_bank (n : vf_nvram_v1) (buf : bytes) (blen : Z) : option (Z * bytes) :=
  if blen <? 0x40 then Some (-1, buf)
  else
    buf ← buf_write buf 0 (replicate (Z.to_nat blen) 0);
    buf ← put_header buf 0 VF_NVRAM_CHRP_SIG 2 (str_nvram ++ [0]);
    buf ← buf_write buf 0x14 (le32_split (generation n));
    '(r, buf) ← prepare_parts (parts n) buf blen 0x20;
    match r with
    | None => Some (-1, buf)
    | Some offset =>
      buf ← (if offset + 16 <=? blen
             then put_header buf offset VF_NVRAM_CHRP_PART_FREE (u32 ((blen - offset) / 16)) []
             else Some buf);
      body ← buf_read buf 0x14 (blen - 0x14);
      buf ← buf_write buf 0x10 (le32_split (vf_nvram_adler32 1 body));
      Some (0, buf)
    end.

(** [buf] is the caller's buffer of [buf_len] bytes; the answer is the return code
    and the buffer.  The bank is built in a copy of the object. *)
Definition vf_nvram_serialize (n : ptr vf_nvram_v1) (buf : ptr bytes) (buf_len : Z) :
    option (Z * ptr bytes) :=
  match n, buf with
  | Some n, Some b =>
    if buf_len =? 0 then Some (-1, buf)
    else
      '(common, scratch) ← nvram_ensure_common n;
      match common with
      | None => Some (-1, buf)
      | Some i =>
        let scratch := if (bank_len scratch =? 0) || (buf_len <? bank_len scratch)
                       then scratch <| bank_len := buf_len |> else scratch in
        p ← parts scratch !! i;
        '(rc, d) ← nvram_env_serialize scratch (data p) (len p);
        if rc <? 0 then Some (-1, buf)
        else
          let scratch := scratch <| parts := <[i := p <| data := d |>]> (parts scratch) |> in
          '(rc, b) ← nvram_prepare_bank scratch b (bank_len scratch);
          if negb (rc =? 0) then Some (-1, Some b) else Some (bank_len scratch, Some b)
      end
  | _, _ => Some (-1, buf)
  end.

(** [out]: the caller's buffer. *)
Definition vf_nvram_boot_args_handoff (n : ptr vf_nvram_v1) (out : ptr bytes) (out_len : Z) :
    option (Z * ptr bytes) :=
  match n, out with
  | Some _, Some o =>
    if out_len =? 0 then Some (-1, out)
    else
      match vf_nvram_env_get n (Some str_boot_args) with
      | None | Some [] => o ← buf_write o 0 [0]; Some (0, Some o)
      | Some s =>
        if out_len <? Z.of_nat (length s) + 1 then Some (-1, out)
        else o ← buf_write o 0 (s ++ [0]); Some (Z.of_nat (length s), Some o)
      end
  | _, _ => Some (-1, out)
  end.

(** ** The block backend *)

(** The operations of a backend with state [B]; [None] is a NULL pointer.  [pread]
    is given the destination buffer and answers its new contents. *)
Record vf_nvram_blk_backend (B : Type) := {
  pread : option (B → Z → bytes → Z → Z * bytes * B);
  pwrite : option (B → Z → bytes → Z * B);
  getlength : option (B → Z);
}.
Arguments pread {B}. Arguments pwrite {B}. Arguments getlength {B}.

Section backend.
Context {B : Type}.

Definition vf_nvram_load_from_blk (n : ptr vf_nvram_v1) (blk : option (vf_nvram_blk_backend B)) (b : B) :
    option (Z * ptr vf_nvram_v1 * B) :=
  match n, blk with
  | Some _, Some blk =>
    match pread blk, getlength blk with
    | Some pread, Some getlength =>
      let raw_len := getlength b in
      if raw_len <=? 0 then Some (-1, n, b)
      else
        let blen := if VF_NVRAM_BANK_MAX_LEN <? raw_len then VF_NVRAM_BANK_MAX_LEN else raw_len in
        let '(rc, buffer, b) := pread b 0 (replicate (Z.to_nat VF_NVRAM_BANK_MAX_LEN) 0) blen in
        if negb (rc =? 0) then Some (-1, n, b)
        else '(rc, n) ← vf_nvram_ingest_bank n (Some buffer) blen; Some (rc, n, b)
    | _, _ => Some (-1, n, b)
    end
  | _, _ => Some (-1, n, b)
  end.

(** [buffer] is what the local array holds before the call. *)
Definition vf_nvram_save_to_blk (n : ptr vf_nvram_v1) (blk : option (vf_nvram_blk_backend B)) (b : B)
    (buffer : bytes) : option (Z * B) :=
  match n, blk with
  | Some _, Some blk =>
    match pwrite blk with
    | Some pwrite =>
      '(written, p) ← vf_nvram_serialize n (Some buffer) VF_NVRAM_BANK_MAX_LEN;
      if written <=? 0 then Some (-1, b)
      else
        buffer ← p;
        bs ← buf_read buffer 0 written;
        let '(rc, b) := pwrite b 0 bs in
        Some (if negb (rc =? 0) then -1 else 0, b)
    | None => Some (-1, b)
    end
  | _, _ => Some (-1, b)
  end.
End backend.

(** What the code relies on: a backend that stores bytes, as
    [pread], [pwrite] and [getlength] of a file do. *)
Record stores {B} (blk : vf_nvram_blk_backend B) (contents : B → bytes) : Prop := {
  st_pread : ∃ f, pread blk = Some f ∧ ∀ b buf len,
    0 ≤ len ≤ Z.of_nat (length (contents b)) → len ≤ Z.of_nat (length buf) →
    f b 0 buf len = (0, take (Z.to_nat len) (contents b) ++ drop (Z.to_nat len) buf, b);
  st_pwrite : ∃ f, pwrite blk = Some f ∧ ∀ b bs, ∃ b',
    f b 0 bs = (0, b') ∧ contents b' = bs ++ drop (length bs) (contents b);
  st_getlength : ∃ f, getlength blk = Some f ∧ ∀ b, f b = Z.of_nat (length (contents b));
}.

(** ** The variables as a finite map *)

Record entry_ok (e : vf_nvram_env) : Prop := {
  ok_name : name e ≠ [];
  ok_name_len : (length (name e) < 64)%nat;
  ok_value_len : (length (value e) < 256)%nat;
  ok_uint : parsed_uint e = parse_env_uint (value e);
}.

Record env_ok (n : vf_nvram_v1) : Prop := {
  ok_entries : Forall entry_ok (env n);
  ok_nodup : NoDup (name <$> env n);
  ok_count : (length (env n) ≤ 32)%nat;
}.

Abbreviation vars := (gmap bytes (bytes * Z)).

Definition binding (e : vf_nvram_env) : bytes * (bytes * Z) := (name e, (value e, flags e)).
Definition env_map (l : list vf_nvram_env) : vars := list_to_map (binding <$> l).

Arguments env_map : simpl never.

Definition acceptable (nm v : bytes) : bool :=
  negb (bool_decide (nm = [])) && (length nm <? 64)%nat && (length v <? 256)%nat.

Inductive env_op :=
  | Set_ (nm v : bytes) (fl : Z)
  | Unset (nm : bytes)
  | Get (nm : bytes)
  | GetUint (nm : bytes) (d : Z)
  | GetBool (nm : bytes) (d : Z).

Definition answer : Type := Z * option bytes.

Definition env_step (n : vf_nvram_v1) (o : env_op) : answer * vf_nvram_v1 :=
  match o with
  | Set_ nm v fl => let '(rc, p) := vf_nvram_env_set (Some n) (Some nm) (Some v) fl in ((rc, None), default n p)
  | Unset nm => let '(rc, p) := vf_nvram_env_unset (Some n) (Some nm) in ((rc, None), default n p)
  | Get nm => ((0, vf_nvram_env_get (Some n) (Some nm)), n)
  | GetUint nm d => ((vf_nvram_env_get_uint (Some n) (Some nm) d, None), n)
  | GetBool nm d => ((vf_nvram_env_get_bool (Some n) (Some nm) d, None), n)
  end.

Definition map_step (m : vars) (o : env_op) : answer * vars :=
  match o with
  | Set_ nm v fl =>
    if acceptable nm v && (size (delete nm m) <? 32)%nat then ((0, None), <[nm := (v, fl)]> m)
    else ((-1, None), m)
  | Unset nm => ((if m !! nm is Some _ then 1 else 0, None), delete nm m)
  | Get nm => ((0, fst <$> m !! nm), m)
  | GetUint nm d => ((from_option (parse_env_uint ∘ fst) d (m !! nm), None), m)
  | GetBool nm d =>
    ((from_option (λ x, b2z (bool_decide (fst x = str_true) || nz (parse_env_uint (fst x)))) d (m !! nm), None), m)
  end.

Fixpoint env_run (n : vf_nvram_v1) (os : list env_op) : list answer * vf_nvram_v1 :=
  match os with
  | [] => ([], n)
  | o :: os => let '(a, n) := env_step n o in let '(l, n) := env_run n os in (a :: l, n)
  end.

Fixpoint map_run (m : vars) (os : list env_op) : list answer * vars :=
  match os with
  | [] => ([], m)
  | o :: os => let '(a, m) := map_step m o in let '(l, m) := map_run m os in (a :: l, m)
  end.

Lemma find_env_None n nm :
  nvram_find_env n nm = None → nm ∉ (name <$> env n).
Proof.
  unfold nvram_find_env. destruct (list_find _ _) as [[i e]|] eqn:E; [done|]. intros _.
  apply list_find_None in E. intros Hin. apply list_elem_of_fmap in Hin as (e & -> & He).
  eapply list.Forall_forall in E; [|exact He]. by apply E.
Qed.

Lemma find_env_Some n nm i :
  NoDup (name <$> env n) → nvram_find_env n nm = Some i →
  ∃ l1 e l2, env n = l1 ++ e :: l2 ∧ i = length l1 ∧ name e = nm ∧
    (nm ∉ (name <$> l1)) ∧ nm ∉ (name <$> l2).
Proof.
  unfold nvram_find_env. intros Hnd H. destruct (list_find _ _) as [[j e]|] eqn:E; [|done].
  injection H as <-. apply list_find_Some in E as (Hj & Hn & _).
  exists (take j (env n)), e, (drop (S j) (env n)).
  pose proof (take_drop_middle _ _ _ Hj) as Hsplit. apply lookup_lt_Some in Hj.
  split; [done|]. split; [by rewrite length_take_le by lia|]. split; [done|].
  rewrite <- Hsplit in Hnd. rewrite fmap_app, fmap_cons, Hn in Hnd.
  apply list.NoDup_app in Hnd as (_ & Hd & Hnd). apply list.NoDup_cons in Hnd as [H2 _].
  split; [|done]. intros Hin. apply (Hd _ Hin). apply list_elem_of_here.
Qed.

Lemma env_map_lookup_None l nm : nm ∉ (name <$> l) → env_map l !! nm = None.
Proof.
  intros H. apply not_elem_of_list_to_map_1. unfold binding. by rewrite <- list_fmap_compose.
Qed.

Lemma env_map_app l1 l2 : env_map (l1 ++ l2) = env_map l1 ∪ env_map l2.
Proof. unfold env_map. by rewrite fmap_app, list_to_map_app. Qed.

Lemma env_map_middle l1 e l2 :
  name e ∉ (name <$> l1) → env_map (l1 ++ e :: l2) = <[name e := (value e, flags e)]> (env_map (l1 ++ l2)).
Proof.
  intros H. rewrite !env_map_app. unfold env_map at 2. cbn. fold (env_map l2).
  rewrite insert_union_r; [done|]. by apply env_map_lookup_None.
Qed.

Lemma env_map_delete l1 e l2 :
  name e ∉ (name <$> l1) → name e ∉ (name <$> l2) → delete (name e) (env_map (l1 ++ e :: l2)) = env_map (l1 ++ l2).
Proof.
  intros H1 H2. rewrite env_map_middle by done. rewrite delete_insert_id; [done|].
  apply env_map_lookup_None. rewrite fmap_app, elem_of_app. tauto.
Qed.

Lemma env_map_snoc l e :
  name e ∉ (name <$> l) → env_map (l ++ [e]) = <[name e := (value e, flags e)]> (env_map l).
Proof. intros H. rewrite env_map_middle by done. by rewrite app_nil_r. Qed.

Lemma env_map_size l : NoDup (name <$> l) → size (env_map l) = length l.
Proof.
  induction l as [|e l IH]; intros Hnd; [done|]. cbn [fmap list_fmap] in Hnd. apply list.NoDup_cons in Hnd as [H1 H2].
  change (env_map (e :: l)) with (<[name e := (value e, flags e)]> (env_map l)).
  rewrite map_size_insert_None by (by apply env_map_lookup_None). cbn. by rewrite IH.
Qed.

(** What the lookups see. *)
Lemma find_env_map n nm :
  env_ok n →
  match nvram_find_env n nm with
  | None => env_map (env n) !! nm = None
  | Some i => ∃ e, env n !! i = Some e ∧ entry_ok e ∧ env_map (env n) !! nm = Some (value e, flags e)
  end.
Proof.
  intros [He Hnd _]. destruct (nvram_find_env n nm) as [i|] eqn:E.
  - destruct (find_env_Some n nm i Hnd E) as (l1 & e & l2 & Hl & -> & <- & H1 & H2).
    exists e. rewrite Hl. split; [by apply list_lookup_middle|]. split.
    + rewrite Hl in He. apply Forall_app in He as [_ He]. by apply Forall_cons_1 in He as [? _].
    + rewrite env_map_middle by done. apply lookup_insert_eq.
  - apply env_map_lookup_None. by apply find_env_None.
Qed.

Lemma unset_spec n nm :
  env_ok n →
  ∃ n', vf_nvram_env_unset (Some n) (Some nm) = (if env_map (env n) !! nm is Some _ then 1 else 0, Some n') ∧
    env_ok n' ∧ env_map (env n') = delete nm (env_map (env n)) ∧ (nm ∉ (name <$> env n')) ∧
    n' = n <| env := env n' |>.
Proof.
  intros [He Hnd Hc]. unfold vf_nvram_env_unset. destruct (nvram_find_env n nm) as [i|] eqn:E.
  - destruct (find_env_Some n nm i Hnd E) as (l1 & e & l2 & Hl & -> & <- & H1 & H2).
    assert (Hm : env_map (env n) !! name e = Some (value e, flags e)).
    { rewrite Hl, env_map_middle by done. apply lookup_insert_eq. }
    rewrite Hm, Hl. replace (S (length l1)) with (length l1 + 1)%nat by lia.
    rewrite take_app_length, drop_app_add. change (drop 1 (e :: l2)) with l2.
    rewrite env_map_delete by done. eexists. split; [done|]. cbn [env].
    rewrite Hl in He, Hnd, Hc. rewrite fmap_app, fmap_cons in Hnd. apply Forall_app in He as [He1 He2].
    split; [|split; [done|split; [|done]]].
    + constructor; cbn; [apply Forall_app; split; [done|by apply Forall_cons_1 in He2 as [_ ?]]| |].
      * rewrite fmap_app. apply list.NoDup_app in Hnd as (Hn1 & Hd & Hn2). apply list.NoDup_app.
        apply list.NoDup_cons in Hn2 as [_ Hn2]. split; [done|]. split; [|done].
        intros x Hx Hx2. apply (Hd x Hx). by apply list_elem_of_further.
      * rewrite length_app in *. cbn [length] in *. lia.
    + cbn. rewrite fmap_app, elem_of_app. tauto.
  - apply find_env_None in E. rewrite env_map_lookup_None by done. exists n. split; [done|].
    split; [done|]. split; [by rewrite delete_id by (by apply env_map_lookup_None)|]. split; [done|]. by destruct n.
Qed.

Lemma copy_str_id k s : Z.of_nat (length s) < k → nvram_copy_str k s = s.
Proof. intros H. unfold nvram_copy_str. tests. rewrite Nat2Z.id. by rewrite take_ge. Qed.

Definition new_entry (nm v : bytes) (fl : Z) : vf_nvram_env :=
  {| name := nm; value := v; flags := fl; parsed_uint := parse_env_uint v |}.

Lemma set_spec n nm v fl :
  env_ok n →
  if acceptable nm v && (size (delete nm (env_map (env n))) <? 32)%nat
  then ∃ n1, vf_nvram_env_unset (Some n) (Some nm) = ((if env_map (env n) !! nm is Some _ then 1 else 0), Some n1) ∧
    let n' := n1 <| env := env n1 ++ [new_entry nm v fl] |> in
    vf_nvram_env_set (Some n) (Some nm) (Some v) fl = (0, Some n') ∧ env_ok n' ∧
    env_map (env n') = <[nm := (v, fl)]> (env_map (env n)) ∧ n' = n <| env := env n' |>
  else vf_nvram_env_set (Some n) (Some nm) (Some v) fl = (-1, Some n).
Proof.
  intros Hn. destruct (unset_spec n nm Hn) as (n1 & Hu & Hn1 & Hm & Hni & Hfr). unfold vf_nvram_env_set.
  rewrite Hu. unfold acceptable, VF_NVRAM_ENV_NAME_MAX, VF_NVRAM_ENV_VALUE_MAX, VF_NVRAM_MAX_ENV, env_count.
  destruct (bool_decide (nm = [])) eqn:E0; cbn [negb orb andb]; [done|]. apply bool_decide_eq_false in E0.
  destruct (64 <=? Z.of_nat (length nm)) eqn:E1; cbn [orb].
  { replace (length nm <? 64)%nat with false by lia. done. }
  replace (length nm <? 64)%nat with true by lia.
  destruct (256 <=? Z.of_nat (length v)) eqn:E2; cbn [andb].
  { replace (length v <? 256)%nat with false by lia. done. }
  replace (length v <? 256)%nat with true by lia. cbn [andb].
  rewrite <- Hm, env_map_size by apply Hn1.
  destruct (32 <=? Z.of_nat (length (env n1))) eqn:E3.
  - replace (length (env n1) <? 32)%nat with false by lia.
    (* full: the name was not there *)
    assert (env_map (env n) !! nm = None) as Hnone.
    { destruct (env_map (env n) !! nm) eqn:E; [|done]. exfalso. pose proof (env_map_size (env n1)) as Hs.
      rewrite Hm, map_size_delete_Some in Hs by (by eexists).
      specialize (Hs (ok_nodup _ Hn1)). pose proof (ok_count n Hn). rewrite env_map_size in Hs by apply Hn. lia. }
    unfold vf_nvram_env_unset in Hu. pose proof (find_env_map n nm Hn) as Hf.
    destruct (nvram_find_env n nm); [destruct Hf as (e & _ & _ & He); congruence|]. by injection Hu as _ <-.
  - replace (length (env n1) <? 32)%nat with true by lia. exists n1. split; [done|].
    rewrite !copy_str_id by lia. fold (new_entry nm v fl). split; [done|]. split; [|split].
    + destruct Hn1 as [He1 Hd1 Hc1]. constructor; cbn.
      * apply Forall_app. split; [done|]. constructor; [|done]. constructor; cbn; try done; lia.
      * rewrite fmap_app. apply list.NoDup_app. split; [done|]. split; [|apply NoDup_singleton].
        intros x Hx Hx'. cbn in Hx'. apply list_elem_of_singleton in Hx' as ->. done.
      * rewrite length_app. cbn [length]. lia.
    + cbn. rewrite env_map_snoc by done. cbn. by rewrite Hm, insert_delete_eq.
    + rewrite Hfr. by destruct n.
Qed.

Lemma env_step_refines n o :
  env_ok n →
  let '(a, n') := env_step n o in
  env_ok n' ∧ map_step (env_map (env n)) o = (a, env_map (env n')) ∧ n' = n <| env := env n' |>.
Proof.
  intros Hn. pose proof (find_env_map n) as Hf.
  destruct o as [nm v fl|nm|nm|nm d|nm d]; cbn [env_step map_step].
  - pose proof (set_spec n nm v fl Hn) as Hs.
    destruct (acceptable nm v && _) eqn:E.
    + destruct Hs as (n1 & _ & -> & H1 & H2 & H3). cbn [from_option id]. split; [done|]. by rewrite <- H2.
    + rewrite Hs. cbn [from_option id]. split; [done|]. split; [done|]. by destruct n.
  - destruct (unset_spec n nm Hn) as (n' & -> & H1 & H2 & _ & H3). cbn [from_option id].
    split; [done|]. by rewrite H2.
  - unfold vf_nvram_env_get. cbn [mbind option_bind]. specialize (Hf nm Hn).
    split; [done|]. split; [|by destruct n]. destruct (nvram_find_env n nm) as [i|].
    + destruct Hf as (e & He & _ & ->). cbn. by rewrite He.
    + by rewrite Hf.
  - unfold vf_nvram_env_get_uint. specialize (Hf nm Hn).
    split; [done|]. split; [|by destruct n]. destruct (nvram_find_env n nm) as [i|].
    + destruct Hf as (e & He & Hok & ->). cbn. rewrite He. cbn. by rewrite (ok_uint e Hok).
    + by rewrite Hf.
  - unfold vf_nvram_env_get_bool. specialize (Hf nm Hn).
    split; [done|]. split; [|by destruct n]. destruct (nvram_find_env n nm) as [i|].
    + destruct Hf as (e & He & Hok & ->). cbn. rewrite He. cbn. rewrite (ok_uint e Hok).
      by destruct (bool_decide _), (nz _).
    + by rewrite Hf.
Qed.

Lemma env_run_refines n os :
  env_ok n →
  let '(l, n') := env_run n os in
  env_ok n' ∧ map_run (env_map (env n)) os = (l, env_map (env n')) ∧ n' = n <| env := env n' |>.
Proof.
  revert n. induction os as [|o os IH]; intros n Hn; cbn [env_run map_run].
  { split; [done|]. split; [done|]. by destruct n. }
  pose proof (env_step_refines n o Hn) as Hs. destruct (env_step n o) as [a n1].
  destruct Hs as (Hn1 & -> & Hf). specialize (IH n1 Hn1). destruct (env_run n1 os) as [l n2].
  destruct IH as (Hn2 & -> & Hf2). split; [done|]. split; [done|]. rewrite Hf2, Hf. by destruct n.
Qed.

Definition fresh : vf_nvram_v1 :=
  {| env := []; parts := [common_part]; bank_len := VF_NVRAM_BANK_MAX_LEN; generation := 0 |}.

Lemma init_fresh n : vf_nvram_init (Some n) = Some (0, Some fresh).
Proof. reflexivity. Qed.

Lemma fresh_ok : env_ok fresh.
Proof. constructor; cbn; [done|apply NoDup_nil_2|lia]. Qed.

(** ** The text of the variables *)

Definition entry_text (e : vf_nvram_env) : bytes := name e ++ [0x3d] ++ value e ++ [0].
Definition env_text (l : list vf_nvram_env) : bytes := mjoin (entry_text <$> l).

(** Characters of a string, and of a name that parses back. *)
Definition plain (e : vf_nvram_env) : Prop :=
  Forall (λ c, c ≠ 0 ∧ c ≠ 0x3d) (name e) ∧ Forall (λ c, c ≠ 0) (value e).

(** What a parsed entry keeps. *)
Definition reflag (e : vf_nvram_env) : vf_nvram_env := e <| flags := 0 |>.

Lemma format_spec pre rest blen nm v :
  let needed := Z.of_nat (length nm) + 1 + Z.of_nat (length v) in
  let pos := Z.of_nat (length pre) in
  blen ≤ pos + Z.of_nat (length rest) → needed < blen - pos →
  nvram_format_env_entry (pre ++ rest) pos (blen - pos) nm v =
    Some (needed, pre ++ (nm ++ [0x3d] ++ v ++ [0]) ++ drop (length nm + 1 + length v + 1) rest).
Proof.
  intros needed pos Hb Hn. unfold nvram_format_env_entry. fold needed. tests.
  assert (Hw : ∀ p r bs q, q = Z.of_nat (length p) → (length bs ≤ length r)%nat →
    buf_write (p ++ r) q bs = Some ((p ++ bs) ++ drop (length bs) r)).
  { intros p r bs q -> Hl. rewrite buf_write_append by done. by rewrite <- app_assoc. }
  rewrite (Hw pre rest nm) by lia. cbn [mbind option_bind].
  rewrite Hw by (rewrite ?length_app, ?length_drop; cbn [length]; lia). cbn [mbind option_bind].
  rewrite Hw by (rewrite ?length_app, ?length_drop; cbn [length]; lia). cbn [mbind option_bind].
  rewrite Hw by (rewrite ?length_app, ?length_drop; cbn [length]; lia). cbn [mbind option_bind].
  rewrite !drop_drop, <- !app_assoc. cbn [length app].
  replace (length nm + 1 + length v + 1)%nat with (length nm + (1 + (length v + 1)))%nat by lia. done.
Qed.

Lemma entry_text_length e : length (entry_text e) = (length (name e) + 1 + length (value e) + 1)%nat.
Proof. unfold entry_text. rewrite !length_app. cbn [length]. lia. Qed.

Lemma serialize_from_spec l pre rest blen :
  blen ≤ Z.of_nat (length (pre ++ rest)) → Z.of_nat (length (pre ++ env_text l)) ≤ blen →
  serialize_from l (pre ++ rest) blen (Z.of_nat (length pre)) =
    Some (Some (Z.of_nat (length (pre ++ env_text l))),
          pre ++ env_text l ++ drop (length (env_text l)) rest).
Proof.
  revert pre rest. induction l as [|e l IH]; intros pre rest Hb Hfit.
  { cbn [serialize_from env_text fmap list_fmap mjoin list_join]. by rewrite app_nil_r, drop_0. }
  cbn [serialize_from]. change (env_text (e :: l)) with (entry_text e ++ env_text l) in *.
  pose proof (entry_text_length e) as Hlen. rewrite !length_app in *.
  rewrite format_spec by lia. cbn [mbind option_bind].
  rewrite (proj2 (Z.ltb_ge _ 0)), (proj2 (Z.leb_gt _ _)) by lia. cbn [orb].
  fold (entry_text e). rewrite <- Hlen.
  replace (Z.of_nat (length pre) + _ + 1) with (Z.of_nat (length (pre ++ entry_text e)))
    by (rewrite length_app; lia).
  rewrite app_assoc, IH by (rewrite ?length_app, ?length_drop; lia).
  rewrite <- !app_assoc, drop_drop, !length_app. done.
Qed.

Lemma serialize_from_fail l pre rest blen :
  blen ≤ Z.of_nat (length (pre ++ rest)) → Z.of_nat (length pre) ≤ blen →
  blen < Z.of_nat (length (pre ++ env_text l)) →
  ∃ b, serialize_from l (pre ++ rest) blen (Z.of_nat (length pre)) = Some (None, b).
Proof.
  revert pre rest. induction l as [|e l IH]; intros pre rest Hb Hp Hfit.
  { change (env_text []) with (@nil Z) in Hfit. rewrite app_nil_r in Hfit. lia. }
  cbn [serialize_from]. change (env_text (e :: l)) with (entry_text e ++ env_text l) in *.
  pose proof (entry_text_length e) as Hlen. rewrite !length_app in *.
  destruct (Z.ltb_spec (Z.of_nat (length (name e)) + 1 + Z.of_nat (length (value e))) (blen - Z.of_nat (length pre))).
  - rewrite format_spec by lia. cbn [mbind option_bind].
    rewrite (proj2 (Z.ltb_ge _ 0)), (proj2 (Z.leb_gt _ _)) by lia. cbn [orb].
    fold (entry_text e). rewrite <- Hlen.
    replace (Z.of_nat (length pre) + _ + 1) with (Z.of_nat (length (pre ++ entry_text e)))
      by (rewrite length_app; lia).
    rewrite app_assoc. apply IH; rewrite ?length_app, ?length_drop; lia.
  - unfold nvram_format_env_entry. rewrite (proj2 (Z.leb_le _ _)) by lia. cbn. by eexists.
Qed.

(** ** Reading the text back *)

Lemma scan_spec stop pre s c post plen pos fuel :
  pos = Z.of_nat (length pre) → Forall (λ x, stop x = false) s → stop c = true →
  pos + Z.of_nat (length s) < plen → (length s < fuel)%nat →
  scan fuel stop (pre ++ s ++ c :: post) plen pos = Some (pos + Z.of_nat (length s)).
Proof.
  intros -> Hs Hc. revert pre fuel. induction Hs as [|x s Hx _ IH]; intros pre fuel Hp Hf;
    (destruct fuel as [|fuel]; [cbn in Hf; lia|]); cbn [scan length] in *.
  - tests. cbn [app]. rewrite arr_get_here by done. cbn [mbind option_bind]. rewrite Hc. f_equal. lia.
  - tests. cbn [app]. rewrite arr_get_here by done. cbn [mbind option_bind]. rewrite Hx. specialize (IH (pre ++ [x]) fuel). rewrite length_app, <- app_assoc in IH. cbn in IH.
    replace (Z.of_nat (length pre) + 1) with (Z.of_nat (length pre + 1)) by lia. rewrite IH by lia. f_equal. lia.
Qed.

Lemma set_fresh n e l :
  env_ok (n <| env := env n ++ e :: l |>) →
  vf_nvram_env_set (Some n) (Some (name e)) (Some (value e)) 0 =
    (0, Some (n <| env := env n ++ [reflag e] |>)).
Proof.
  intros [He Hd Hc]. cbn in *. apply Forall_app in He as [_ He]. apply Forall_cons_1 in He as [[H1 H2 H3 H4] _].
  unfold vf_nvram_env_set, VF_NVRAM_ENV_NAME_MAX, VF_NVRAM_ENV_VALUE_MAX, VF_NVRAM_MAX_ENV.
  rewrite bool_decide_false by done. tests. unfold vf_nvram_env_unset.
  destruct (nvram_find_env n (name e)) as [i|] eqn:E.
  { exfalso. unfold nvram_find_env in E. destruct (list_find _ _) as [[j e']|] eqn:Ef; [|done].
    apply list_find_Some in Ef as (Hj & Hn & _). apply list_elem_of_lookup_2 in Hj.
    rewrite fmap_app, fmap_cons in Hd. apply list.NoDup_app in Hd as (_ & Hd & _).
    apply (Hd (name e)); [rewrite <- Hn; by apply list_elem_of_fmap_2|apply list_elem_of_here]. }
  unfold env_count. rewrite length_app in Hc. cbn [length] in Hc. tests.
  rewrite !copy_str_id by lia. unfold reflag. by destruct e; cbn in *; subst.
Qed.

Lemma env_ok_shift n e l :
  env_ok (n <| env := env n ++ e :: l |>) →
  env_ok ((n <| env := env n ++ [reflag e] |>) <| env := (env n ++ [reflag e]) ++ l |>).
Proof.
  intros [He Hd Hc]. cbn in *. constructor; cbn; rewrite <- app_assoc; cbn [app].
  - apply Forall_app in He as [He1 He2]. apply Forall_app. split; [done|].
    apply Forall_cons_1 in He2 as [[] He2]. constructor; [by constructor|done].
  - by rewrite fmap_app, fmap_cons in *.
  - rewrite length_app in *. cbn [length] in *. lia.
Qed.

Lemma load_env_spec l n pre post plen fuel :
  env_ok (n <| env := env n ++ l |>) → Forall plain l →
  Z.of_nat (length (pre ++ env_text l)) ≤ plen ≤ Z.of_nat (length (pre ++ env_text l ++ post)) →
  (Z.of_nat (length (pre ++ env_text l)) < plen → head post = Some 0) → (length l < fuel)%nat →
  load_env fuel n (pre ++ env_text l ++ post) plen (Z.of_nat (length pre)) =
    Some (0, n <| env := env n ++ (reflag <$> l) |>).
Proof.
  intros Hok Hp. revert n pre fuel Hok. induction Hp as [|e l [Hn Hv] Hp IH]; intros n pre fuel Hok Hle Hz Hf;
    (destruct fuel as [|fuel]; [cbn in Hf; lia|]); cbn [load_env].
  - change (env_text []) with (@nil Z) in *. cbn [app] in *. rewrite app_nil_r in *.
    destruct (Z.of_nat (length pre) <? plen) eqn:E; cbn [negb]; [|by destruct n].
    destruct post as [|c post]; [discriminate Hz; lia|]. assert (c = 0) as -> by (injection Hz; lia).
    rewrite arr_get_here by done. by destruct n.
  - change (env_text (e :: l)) with (entry_text e ++ env_text l) in *.
    assert (Hen : entry_ok e).
    { destruct Hok as [He _ _]. cbn in He. apply Forall_app in He as [_ He].
      by apply Forall_cons_1 in He as [? _]. }
    destruct Hen as [Hne Hnl Hvl _]. pose proof (entry_text_length e) as Hlen.
    rewrite !length_app in Hle. rewrite !length_app in Hz. tests.
    assert (Hd : pre ++ (entry_text e ++ env_text l) ++ post =
      pre ++ name e ++ 0x3d :: (value e ++ 0 :: (env_text l ++ post))).
    { unfold entry_text. by rewrite <- !app_assoc. }
    rewrite Hd. destruct (name e) as [|c nm] eqn:En; [done|]. rewrite <- En in *.
    assert (Hget : arr_get (pre ++ name e ++ 0x3d :: (value e ++ 0 :: (env_text l ++ post)))
      (Z.of_nat (length pre)) = Some c).
    { rewrite En. by apply arr_get_here. }
    rewrite Hget. cbn [mbind option_bind].
    assert (c ≠ 0) as Hc by (rewrite En in Hn; apply Forall_cons_1 in Hn as [[? _] _]; done). tests.
    rewrite (scan_spec _ pre (name e)); [|done| |done|lia|lia].
    2:{ eapply Forall_impl; [|exact Hn]. cbn. intros x [? ?]. lia. }
    cbn [mbind option_bind]. tests.
    rewrite app_assoc, arr_get_here by (rewrite length_app; lia). cbn [mbind option_bind].
    rewrite Z.eqb_refl. cbn [negb].
    replace (pre ++ name e ++ [0x3d]) with ((pre ++ name e) ++ [0x3d]) by by rewrite <- app_assoc.
    rewrite cons_middle, app_assoc. set (pre' := ((pre ++ name e) ++ [61])).
    assert (Hpre' : Z.of_nat (length pre) + Z.of_nat (length (name e)) + 1 = Z.of_nat (length pre'))
      by (subst pre'; rewrite !length_app; cbn [length]; lia).
    rewrite Hpre'. rewrite (scan_spec _ pre' (value e) 0); [|done| |done|lia|lia].
    2:{ eapply Forall_impl; [|exact Hv]. cbn. intros x ?. lia. }
    cbn [mbind option_bind]. unfold VF_NVRAM_ENV_NAME_MAX, VF_NVRAM_ENV_VALUE_MAX. tests.
    assert (Hpre : pre' ++ value e ++ 0 :: (env_text l ++ post) =
      pre ++ name e ++ 0x3d :: (value e ++ 0 :: (env_text l ++ post))).
    { subst pre'. by rewrite <- !app_assoc. }
    rewrite Hpre at 1. rewrite (buf_read_here pre) by lia. cbn [mbind option_bind].
    rewrite (buf_read_here pre') by lia. cbn [mbind option_bind].
    rewrite (set_fresh n e l) by done. cbn [mbind option_bind]. rewrite Z.eqb_refl. cbn [negb].
    specialize (IH (n <| env := env n ++ [reflag e] |>) (pre' ++ value e ++ [0]) fuel (env_ok_shift n e l Hok)).
    assert (Hlen' : length (pre' ++ value e ++ [0]) = (length pre + length (entry_text e))%nat).
    { subst pre'. rewrite !length_app, Hlen. cbn [length]. lia. }
    rewrite !(length_app (pre' ++ value e ++ [0])), Hlen', !length_app in IH.
    rewrite <- !app_assoc in IH. cbn [app] in IH.
    replace (Z.of_nat (length pre') + Z.of_nat (length (value e)) + 1)
      with (Z.of_nat (length pre + length (entry_text e))) by lia.
    rewrite IH; [|lia| |cbn in Hf; lia].
    + cbn. by rewrite <- app_assoc.
    + intros ?. apply Hz. lia.
Qed.

(** ** Headers *)

(** The checksum of a header with these bytes around the checksum byte. *)
Definition header_sum (sg : Z) (tail : bytes) : Z := u8 (Z.land (fold_left chrp_byte tail sg) 0xff).

(** The 16 bytes of a header. *)
Definition header (sg units : Z) (nm : bytes) : bytes :=
  let tail := le16_split (host_to_be16 units) ++ nm in sg :: header_sum sg tail :: tail.

Lemma checksum_at pre sg chk tail rest off :
  off = Z.of_nat (length pre) → length tail = 14%nat →
  vf_nvram_chrp_checksum (pre ++ (sg :: chk :: tail) ++ rest) off = Some (header_sum sg tail).
Proof.
  intros -> Ht. unfold vf_nvram_chrp_checksum. cbn [app]. rewrite arr_get_here by done.
  cbn [mbind option_bind].
  replace (pre ++ sg :: chk :: tail ++ rest) with ((pre ++ [sg; chk]) ++ tail ++ rest) by by rewrite <- app_assoc.
  rewrite buf_read_here; [done|rewrite length_app; cbn [length]; lia|lia].
Qed.

Lemma put_header_spec pre rest sg units nm off :
  off = Z.of_nat (length pre) → (length nm ≤ 12)%nat →
  put_header (pre ++ replicate 16 0 ++ rest) off sg units nm =
    Some (pre ++ header sg units (nm ++ replicate (12 - length nm) 0) ++ rest).
Proof.
  intros -> Hn. unfold put_header. rewrite <- (Z.add_0_r (Z.of_nat (length pre))) at 1.
  rewrite buf_write_mid by (rewrite ?length_replicate; cbn [length]; lia). cbn [mbind option_bind].
  change (take (Z.to_nat 0) (replicate 16 0) ++ [sg] ++ drop (Z.to_nat 0 + length [sg]) (replicate 16 0))
    with (sg :: 0 :: 0 :: 0 :: replicate 12 0).
  unfold header. set (u := le16_split (host_to_be16 units)).
  assert (Hu : ∃ u0 u1, u = [u0; u1]) by by eexists _, _. destruct Hu as (u0 & u1 & ->).
  rewrite buf_write_mid by (cbn [length]; rewrite ?length_replicate; lia). cbn [mbind option_bind].
  change (take (Z.to_nat 2) (sg :: 0 :: 0 :: 0 :: replicate 12 0) ++ [u0; u1] ++
    drop (Z.to_nat 2 + length [u0; u1]) (sg :: 0 :: 0 :: 0 :: replicate 12 0))
    with (sg :: 0 :: u0 :: u1 :: replicate 12 0).
  rewrite buf_write_mid by (cbn [length]; rewrite ?length_replicate; lia). cbn [mbind option_bind].
  replace (take (Z.to_nat 4) (sg :: 0 :: u0 :: u1 :: replicate 12 0) ++ nm ++
    drop (Z.to_nat 4 + length nm) (sg :: 0 :: u0 :: u1 :: replicate 12 0))
    with (sg :: 0 :: ([u0; u1] ++ (nm ++ replicate (12 - length nm) 0))).
  2:{ change (Z.to_nat 4) with 4%nat. cbn [take drop app Nat.add]. by rewrite drop_replicate. }
  set (tail := [u0; u1] ++ _).
  assert (length tail = 14%nat) by (subst tail; rewrite !length_app, length_replicate; cbn [length]; lia).
  rewrite checksum_at by done. cbn [mbind option_bind].
  rewrite buf_write_mid by (cbn [length]; lia). done.
Qed.

Lemma be16_roundtrip v : fits 16 v → be16_to_host (host_to_be16 v) = v.
Proof.
  intros Hv. unfold be16_to_host, host_to_be16, fits in *. rewrite !land_ff, !Z.shiftr_div_pow2, !Z.shiftl_mul_pow2 by lia.
  assert (H1 : ∀ a b, 0 ≤ b < 2 ^ 8 → Z.lor (a * 2 ^ 8) b = a * 2 ^ 8 + b) by (intros a b Hb; apply lor_high_low; [lia|exact Hb]).
  rewrite H1 by dlia. rewrite wrap_id by (unfold fits; dlia).
  rewrite Z.lor_comm, H1 by dlia. dlia.
Qed.

Lemma le16_at_split pre v post off :
  off = Z.of_nat (length pre) → fits 16 v → le16_at (pre ++ le16_split v ++ post) off = Some v.
Proof.
  intros -> Hv. unfold le16_at, le16_split. cbn [app]. rewrite (arr_get_here pre _ _ (Z.of_nat (length pre))) by done. cbn [mbind option_bind].
  replace (pre ++ Z.land v 255 :: Z.land (Z.shiftr v 8) 255 :: post)
    with ((pre ++ [Z.land v 255]) ++ Z.land (Z.shiftr v 8) 255 :: post) by by rewrite <- app_assoc.
  rewrite arr_get_here by (rewrite length_app; cbn [length]; lia). cbn [mbind option_bind]. f_equal.
  rewrite !land_ff, !Z.shiftr_div_pow2, !Z.shiftl_mul_pow2 by lia. unfold fits in Hv.
  rewrite Z.lor_comm, lor_high_low by (lia || (unfold fits; dlia)). dlia.
Qed.

(** ** The partition table *)

Record part_ok (p : vf_nvram_part) : Prop := {
  ok_sig : sig p ≠ VF_NVRAM_CHRP_PART_FREE;
  ok_pname : length (part_name p) = 16%nat;
  ok_pname_end : part_name p !! 15%nat = Some 0;
  ok_not_panic : take 12 (part_name p) ≠ VF_NVRAM_PANIC_PART_NAME;
  ok_data : length (data p) = Z.to_nat VF_NVRAM_COMMON_PART_LEN;
  ok_len : 16 ≤ len p ≤ VF_NVRAM_COMMON_PART_LEN;
  ok_units : len p mod 16 = 0;
}.

Definition contents (p : vf_nvram_part) : bytes := take (Z.to_nat (len p)) (data p).

Definition part_image (p : vf_nvram_part) : bytes :=
  header (sig p) (len p / 16 + 1) (take 12 (part_name p)) ++ contents p.

Definition image (ps : list vf_nvram_part) : bytes := mjoin (part_image <$> ps).

(** The partition that is read back: three bytes of its contents follow the name. *)
Definition reparse (p : vf_nvram_part) : vf_nvram_part := {|
  sig := sig p; part_name := take 12 (part_name p) ++ take 3 (data p) ++ [0]; len := len p;
  data := contents p ++ replicate (Z.to_nat (VF_NVRAM_COMMON_PART_LEN - len p)) 0 |}.

Lemma contents_length p : part_ok p → Z.of_nat (length (contents p)) = len p.
Proof.
  intros [_ _ _ _ Hd Hl _]. unfold contents, VF_NVRAM_COMMON_PART_LEN in *. rewrite length_take, Hd. lia.
Qed.

Lemma header_length sg u nm : length nm = 12%nat → length (header sg u nm) = 16%nat.
Proof. intros H. unfold header, le16_split. cbn. by rewrite H. Qed.

Lemma part_image_length p : part_ok p → Z.of_nat (length (part_image p)) = len p + 16.
Proof.
  intros Hp. pose proof (contents_length p Hp). unfold part_image.
  rewrite length_app, header_length; [lia|]. rewrite length_take, (ok_pname p Hp). done.
Qed.

Lemma prepare_parts_spec ps pre k post blen :
  Forall part_ok ps → blen = Z.of_nat (length pre + k) → (length (image ps) ≤ k)%nat →
  fits 32 blen →
  prepare_parts ps (pre ++ replicate k 0 ++ post) blen (Z.of_nat (length pre)) =
    Some (Some (Z.of_nat (length (pre ++ image ps))),
          pre ++ image ps ++ replicate (k - length (image ps)) 0 ++ post).
Proof.
  intros Hps Hb Hk Hf. revert pre k Hb Hk. induction Hps as [|p ps Hp _ IH]; intros pre k Hb Hk; cbn [prepare_parts].
  { change (image []) with (@nil Z). cbn [app]. by rewrite app_nil_r, Nat.sub_0_r. }
  change (image (p :: ps)) with (part_image p ++ image ps) in *.
  pose proof (part_image_length p Hp) as Hl. pose proof (contents_length p Hp) as Hcl. rewrite length_app in Hk.
  pose proof Hp as [_ Hnm _ _ Hd Hlen Hu]. unfold VF_NVRAM_COMMON_PART_LEN in *.
  tests. assert (Hun : (len p + 16 + 15) / 16 = len p / 16 + 1) by dlia. rewrite Hun.
  rewrite wrap_id by (unfold fits; dlia).
  assert (Htot : (len p / 16 + 1) * 16 = len p + 16) by dlia. rewrite Htot. tests.
  rewrite (buf_read_Some (part_name p)) by lia. change (drop (Z.to_nat 0) (part_name p)) with (part_name p).
  change (Z.to_nat 12) with 12%nat. cbn [mbind option_bind].
  assert (∃ k2, k = (16 + (Z.to_nat (len p) + k2))%nat) as [k2 ->]
    by (exists (k - 16 - Z.to_nat (len p))%nat; lia).
  rewrite replicate_add, <- app_assoc, put_header_spec by (rewrite ?length_take; lia). cbn [mbind option_bind].
  rewrite length_take, Hnm. change (12 - 12 `min` 16)%nat with 0%nat. cbn [replicate]. rewrite app_nil_r.
  rewrite (buf_read_Some (data p)) by lia. change (drop (Z.to_nat 0) (data p)) with (data p). fold (contents p).
  cbn [mbind option_bind]. rewrite replicate_add, <- app_assoc.
  set (h := header _ _ _). assert (Hh : length h = 16%nat) by (apply header_length; rewrite length_take, Hnm; done).
  replace (pre ++ h ++ replicate (Z.to_nat (len p)) 0 ++ replicate k2 0 ++ post)
    with ((pre ++ h) ++ replicate (Z.to_nat (len p)) 0 ++ replicate k2 0 ++ post)
    by by rewrite <- app_assoc.
  replace (Z.of_nat (length pre) + 16) with (Z.of_nat (length (pre ++ h)) + 0) by (rewrite length_app, Hh; lia).
  rewrite buf_write_mid by (rewrite ?length_replicate; lia). cbn [mbind option_bind].
  change (Z.to_nat 0) with 0%nat. rewrite take_0, app_nil_l.
  rewrite (drop_ge (replicate _ _)) by (rewrite length_replicate; lia). rewrite app_nil_r.
  replace ((pre ++ h) ++ contents p ++ replicate k2 0 ++ post)
    with ((pre ++ part_image p) ++ replicate k2 0 ++ post)
    by (unfold part_image; by rewrite <- !app_assoc).
  replace (Z.of_nat (length pre) + (len p + 16)) with (Z.of_nat (length (pre ++ part_image p)))
    by (rewrite length_app; lia).
  rewrite IH by (rewrite ?length_app; lia). rewrite <- !app_assoc.
  do 3 f_equal. rewrite !length_app. do 3 f_equal. f_equal. lia.
Qed.

(** The table ends at the end of the image or at a free header. *)
Definition ends (tail : bytes) (left : Z) : Prop :=
  left < 16 ∨ ∃ u rest, fits 16 u ∧ tail = header VF_NVRAM_CHRP_PART_FREE u (replicate 12 0) ++ rest.

Lemma header_reads pre sg u nm rest off :
  off = Z.of_nat (length pre) → length nm = 12%nat → fits 16 u →
  let buf := pre ++ header sg u nm ++ rest in
  arr_get buf off = Some sg ∧
  (∃ sum, arr_get buf (off + 1) = Some sum ∧ vf_nvram_chrp_checksum buf off = Some sum) ∧
  le16_at buf (off + 2) = Some (host_to_be16 u) ∧ buf_read buf (off + 4) 12 = Some nm.
Proof.
  intros -> Hn Hu buf. subst buf. unfold header. set (t := le16_split (host_to_be16 u) ++ nm).
  assert (Ht : length t = 14%nat) by (subst t; rewrite length_app, Hn; done).
  split; [by apply arr_get_here|]. split; [|split].
  - exists (header_sum sg t). split; [|by apply checksum_at].
    cbn [app]. rewrite cons_middle, app_assoc. apply arr_get_here. rewrite length_app. cbn [length]. lia.
  - replace (pre ++ (sg :: header_sum sg t :: t) ++ rest)
      with ((pre ++ [sg; header_sum sg t]) ++ le16_split (host_to_be16 u) ++ nm ++ rest)
      by (subst t; by rewrite <- !app_assoc).
    apply le16_at_split; [rewrite length_app; cbn [length]; lia|]. unfold host_to_be16. width.
  - replace (pre ++ (sg :: header_sum sg t :: t) ++ rest)
      with ((pre ++ [sg; header_sum sg t] ++ le16_split (host_to_be16 u)) ++ nm ++ rest)
      by (subst t; by rewrite <- !app_assoc).
    apply buf_read_here; [rewrite !length_app; cbn [length le16_split]; lia|lia].
Qed.

Lemma part_eq p q :
  sig p = sig q → part_name p = part_name q → len p = len q → data p = data q → p = q.
Proof. destruct p, q; cbn. by intros -> -> -> ->. Qed.

Lemma parse_parts_spec ps n pre tail blen fuel :
  Forall part_ok ps → (length (parts n) + length ps ≤ 8)%nat → (length ps < fuel)%nat →
  Z.of_nat (length (pre ++ image ps)) ≤ blen ≤ Z.of_nat (length (pre ++ image ps ++ tail)) →
  ends tail (blen - Z.of_nat (length (pre ++ image ps))) →
  parse_parts fuel n (pre ++ image ps ++ tail) blen (Z.of_nat (length pre)) =
    Some (0, n <| parts := parts n ++ (reparse <$> ps) |>).
Proof.
  intros Hps. revert n pre fuel. induction Hps as [|p ps Hp _ IH]; intros n pre fuel Hc Hf Hb He;
    (destruct fuel as [|fuel]; [cbn in Hf; lia|]); cbn [parse_parts].
  - change (image []) with (@nil Z) in *. cbn [app] in *. rewrite app_nil_r in *.
    destruct (Z.of_nat (length pre) + 16 <=? blen) eqn:E; cbn [negb]; [|by destruct n].
    destruct He as [He|(u & rest & Hu & ->)]; [lia|].
    destruct (header_reads pre VF_NVRAM_CHRP_PART_FREE u (replicate 12 0) rest _ eq_refl eq_refl Hu)
      as (Hg & (sum & Hs1 & Hs2) & _). rewrite Hs1, Hs2. cbn [mbind option_bind].
    rewrite Z.eqb_refl. cbn [negb]. rewrite Hg. cbn [mbind option_bind]. rewrite Z.eqb_refl. by destruct n.
  - change (image (p :: ps)) with (part_image p ++ image ps) in *.
    pose proof (part_image_length p Hp) as Hl. pose proof (contents_length p Hp) as Hcl.
    rewrite !length_app in Hb. rewrite !length_app in He. cbn [length] in Hc, Hf.
    pose proof Hp as [Hsig Hnm Hend Hpan Hd Hlen Hu]. unfold VF_NVRAM_COMMON_PART_LEN in *. tests.
    set (nm := take 12 (part_name p)). assert (Hn12 : length nm = 12%nat) by (subst nm; rewrite length_take, Hnm; done).
    set (u := len p / 16 + 1). assert (Hu16 : fits 16 u) by (subst u; unfold fits; dlia).
    assert (Hbuf : pre ++ (part_image p ++ image ps) ++ tail =
      pre ++ header (sig p) u nm ++ (contents p ++ image ps ++ tail)).
    { unfold part_image. fold nm u. by rewrite <- !app_assoc. }
    rewrite Hbuf.
    destruct (header_reads pre (sig p) u nm (contents p ++ image ps ++ tail) (Z.of_nat (length pre)) eq_refl Hn12 Hu16)
      as (Hg & (sum & Hs1 & Hs2) & Hlu & Hrn).
    rewrite Hs1, Hs2, Hg. cbn [mbind option_bind]. rewrite Z.eqb_refl. cbn [negb].
    rewrite (proj2 (Z.eqb_neq _ _) Hsig), Hlu. cbn [mbind option_bind]. rewrite be16_roundtrip by done.
    assert (Hut : u * 16 = len p + 16) by (subst u; dlia). rewrite Hut.
    replace (u <? 1) with false by (subst u; dlia). tests. unfold VF_NVRAM_MAX_PARTS, part_count. tests.
    rewrite Hrn. cbn [mbind option_bind]. rewrite bool_decide_false by done.
    replace (len p + 16 - 16) with (len p) by lia. tests.
    assert (Hc3 : take 3 (contents p) = take 3 (data p)).
    { unfold contents. rewrite take_take. f_equal. lia. }
    assert (Hl3 : length (take 3 (data p)) = 3%nat) by (rewrite length_take; lia).
    assert (H15 : buf_read (pre ++ header (sig p) u nm ++ (contents p ++ image ps ++ tail))
      (Z.of_nat (length pre) + 4) 15 = Some (nm ++ take 3 (data p))).
    { unfold header. set (uu := le16_split (host_to_be16 u)).
      replace (pre ++ _ ++ contents p ++ image ps ++ tail)
        with ((pre ++ [sig p; header_sum (sig p) (uu ++ nm)] ++ uu) ++ (nm ++ take 3 (data p)) ++
              drop 3 (contents p) ++ image ps ++ tail).
      2:{ rewrite <- Hc3, <- !app_assoc. cbn [app]. rewrite (app_assoc (take 3 _)), take_drop.
          by rewrite <- !app_assoc. }
      apply buf_read_here; rewrite !length_app; [subst uu; cbn [length le16_split]; lia|lia]. }
    rewrite H15. cbn [mbind option_bind part_name].
    rewrite (buf_write_Some (replicate 16 0)) by (rewrite ?length_app, ?length_replicate; lia).
    cbn [mbind option_bind].
    rewrite (app_assoc pre), (buf_read_here (pre ++ _)) by (rewrite ?length_app, ?header_length; lia).
    cbn [mbind option_bind data].
    rewrite buf_write_Some by (cbn; rewrite ?length_replicate; lia). cbn [mbind option_bind].
    match goal with |- context [parts n ++ [?q]] => assert (q = reparse p) as -> end.
    { change (Z.to_nat 0) with 0%nat. apply part_eq; cbn.
      - done.
      - rewrite length_app, Hn12, Hl3. change (drop (0 + (12 + 3)) (replicate 16 0)) with [0].
        by rewrite <- app_assoc.
      - done.
      - rewrite drop_replicate, take_0, app_nil_l. do 2 f_equal. unfold VF_NVRAM_COMMON_PART_LEN. lia. }
    replace ((pre ++ header (sig p) u nm) ++ contents p ++ image ps ++ tail)
      with ((pre ++ part_image p) ++ image ps ++ tail)
      by (unfold part_image; fold nm u; by rewrite <- !app_assoc).
    replace (Z.of_nat (length pre) + (len p + 16)) with (Z.of_nat (length (pre ++ part_image p)))
      by (rewrite length_app; lia).
    rewrite IH.
    + cbn. by rewrite <- app_assoc.
    + cbn. rewrite length_app. cbn [length]. lia.
    + lia.
    + rewrite !length_app. lia.
    + rewrite !length_app. by rewrite <- Nat.add_assoc.
Qed.

(** ** The bank image *)

(** The 32 bytes before the partitions. *)
Definition bank_head (gen adler : Z) : bytes :=
  header VF_NVRAM_CHRP_SIG 2 (str_nvram ++ replicate 7 0) ++ le32_split adler ++ le32_split gen ++ replicate 8 0.

(** What follows the partitions: a free header when there is room, and zeros. *)
Definition bank_tail (left : nat) : bytes :=
  if (16 <=? left)%nat
  then header VF_NVRAM_CHRP_PART_FREE (u32 (Z.of_nat left / 16)) (replicate 12 0) ++ replicate (left - 16) 0
  else replicate left 0.

Definition bank (gen : Z) (ps : list vf_nvram_part) (left : nat) : bytes :=
  let body := le32_split gen ++ replicate 8 0 ++ image ps ++ bank_tail left in
  bank_head gen (vf_nvram_adler32 1 body) ++ image ps ++ bank_tail left.

Lemma bank_tail_length left : length (bank_tail left) = left.
Proof.
  unfold bank_tail. destruct (16 <=? left)%nat eqn:E; [|by rewrite length_replicate].
  rewrite length_app, header_length, length_replicate by done. lia.
Qed.

Lemma prepare_bank_spec n b blen :
  Forall part_ok (parts n) → blen ≤ Z.of_nat (length b) → 0x40 ≤ blen → fits 32 blen →
  0x20 + Z.of_nat (length (image (parts n))) ≤ blen →
  nvram_prepare_bank n b blen =
    Some (0, bank (generation n) (parts n) (Z.to_nat blen - 0x20 - length (image (parts n)))
               ++ drop (Z.to_nat blen) b).
Proof.
  intros Hps Hb H40 Hf Hfit. unfold nvram_prepare_bank. tests.
  rewrite (buf_write_Some b) by (rewrite ?length_replicate; lia). cbn [mbind option_bind].
  change (Z.to_nat 0) with 0%nat. rewrite take_0, app_nil_l, length_replicate. cbn [Nat.add].
  set (post := drop (Z.to_nat blen) b). set (k := (Z.to_nat blen - 32)%nat).
  replace (Z.to_nat blen) with (16 + (16 + k))%nat by lia.
  rewrite (replicate_add 16), <- app_assoc.
  pose proof (put_header_spec [] (replicate (16 + k) 0 ++ post) VF_NVRAM_CHRP_SIG 2 (str_nvram ++ [0]) 0 eq_refl) as Hh.
  rewrite app_nil_l in Hh. rewrite Hh by (cbn; lia). clear Hh. cbn [mbind option_bind].
  change ((str_nvram ++ [0]) ++ replicate (12 - length (str_nvram ++ [0])) 0) with (str_nvram ++ replicate 7 0).
  set (h := header _ _ _). assert (Hh : length h = 16%nat) by done.
  rewrite replicate_add, app_nil_l, <- app_assoc.
  replace 0x14 with (Z.of_nat (length h) + 4) at 1 by (rewrite Hh; lia).
  rewrite (buf_write_mid h (replicate 16 0)) by (rewrite ?length_replicate; change (length (le32_split _)) with 4%nat; lia).
  cbn [mbind option_bind].
  change (take (Z.to_nat 4) (replicate 16 0) ++ le32_split (generation n) ++
    drop (Z.to_nat 4 + length (le32_split (generation n))) (replicate 16 0))
    with (replicate 4 0 ++ le32_split (generation n) ++ replicate 8 0).
  set (pre := h ++ replicate 4 0 ++ le32_split (generation n) ++ replicate 8 0).
  assert (Hpre : length pre = 32%nat) by done.
  replace (h ++ (replicate 4 0 ++ le32_split (generation n) ++ replicate 8 0) ++ replicate k 0 ++ post)
    with (pre ++ replicate k 0 ++ post) by (subst pre; by rewrite <- !app_assoc).
  replace 0x20 with (Z.of_nat (length pre)) at 1 by (rewrite Hpre; done).
  rewrite prepare_parts_spec by (rewrite ?Hpre; try done; subst k; lia). cbn [mbind option_bind].
  set (im := image (parts n)) in *. set (left := (k - length im)%nat).
  assert (Hleft : blen - Z.of_nat (length (pre ++ im)) = Z.of_nat left)
    by (rewrite length_app, Hpre; subst left k; lia).
  match goal with |- context [if ?c then ?x else ?y] => assert ((if c then x else y) =
    Some (pre ++ im ++ bank_tail left ++ post)) as -> end.
  { unfold bank_tail. destruct (16 <=? left)%nat eqn:E.
    - rewrite (proj2 (Z.leb_le _ _)) by lia. rewrite Hleft.
      replace left with (16 + (left - 16))%nat at 1 by lia. rewrite replicate_add, <- (app_assoc (replicate 16 0)), (app_assoc pre).
      rewrite put_header_spec by (cbn; lia). by rewrite <- !app_assoc.
    - rewrite (proj2 (Z.leb_gt _ _)) by lia. done. }
  cbn [mbind option_bind]. clear Hfit Hps.
  assert (Htl : length (bank_tail left) = left) by apply bank_tail_length.
  set (body := le32_split (generation n) ++ replicate 8 0 ++ im ++ bank_tail left).
  assert (Hbody : length body = (12 + length im + left)%nat)
    by (subst body; rewrite !length_app, Htl; cbn [length]; change (length (le32_split _)) with 4%nat; rewrite length_replicate; lia).
  replace (pre ++ im ++ bank_tail left ++ post) with ((h ++ replicate 4 0) ++ body ++ post)
    by (subst pre body; by rewrite <- !app_assoc).
  rewrite length_app, Hpre in Hleft.
  rewrite buf_read_here by (rewrite ?length_app, ?Hh, ?length_replicate, ?Hbody; lia). cbn [mbind option_bind].
  rewrite <- app_assoc. replace 0x10 with (Z.of_nat (length h) + 0) by (rewrite Hh; lia).
  rewrite buf_write_mid by (rewrite ?length_replicate; change (length (le32_split _)) with 4%nat; lia).
  cbn [mbind option_bind]. do 2 f_equal.
Qed.

(** ** Finding a partition again *)

Lemma cstr_app a b :
  cstr (a ++ b) = match cstr a with Some s => Some s | None => (λ s, a ++ s) <$> cstr b end.
Proof.
  induction a as [|x a IH]; cbn; [by destruct (cstr b)|]. destruct (x =? 0); [done|].
  rewrite IH. destruct (cstr a); [done|]. by destruct (cstr b).
Qed.

Lemma find_part_ext f ps nm :
  (∀ p, p ∈ ps → ∃ s s', cstr (part_name p) = Some s ∧ cstr (part_name (f p)) = Some s' ∧ (s = nm ↔ s' = nm)) →
  find_part (f <$> ps) nm = find_part ps nm.
Proof.
  induction ps as [|p ps IH]; intros H; [done|].
  destruct (H p) as (s & s' & E & E' & Hs); [apply list_elem_of_here|]. cbn. rewrite E, E'. cbn.
  rewrite (bool_decide_ext _ _ Hs), IH; [done|]. intros q Hq. apply H. by apply list_elem_of_further.
Qed.

Lemma last_zero (a : bytes) k : a !! k = Some 0 → ∃ s, cstr a = Some s.
Proof.
  intros H. rewrite <- (take_drop_middle _ _ _ H), cstr_app. destruct (cstr (take k a)); [by eexists|].
  cbn. by eexists.
Qed.

Lemma reparse_find ps nm :
  Forall part_ok ps → (length nm < 12)%nat → find_part (reparse <$> ps) nm = find_part ps nm.
Proof.
  intros Hps Hn. apply find_part_ext. intros p Hp. eapply list.Forall_forall in Hps; [|exact Hp].
  destruct Hps as [_ Hl Hend _ Hd _ _]. destruct (last_zero _ _ Hend) as [s Hs]. cbn [part_name reparse].
  exists s. rewrite <- (take_drop 12 (part_name p)), cstr_app in Hs. rewrite cstr_app.
  destruct (cstr (take 12 (part_name p))) as [s1|] eqn:E1.
  - exists s1. rewrite <- (take_drop 12 (part_name p)), cstr_app, E1. naive_solver.
  - rewrite cstr_app. assert (∃ s2, match cstr (take 3 (data p)) with Some s2 => Some s2
      | None => (λ s0, take 3 (data p) ++ s0) <$> cstr [0] end = Some s2) as [s2 ->].
    { destruct (cstr (take 3 (data p))); by eexists. }
    exists (take 12 (part_name p) ++ s2). rewrite <- (take_drop 12 (part_name p)) at 1. rewrite cstr_app, E1.
    split; [done|]. split; [done|]. destruct (cstr (drop 12 (part_name p))) as [s3|]; [|done].
    injection Hs as <-. split; intros Hnm; rewrite <- Hnm, length_app, length_take in Hn; lia.
Qed.

Lemma find_part_lookup ps nm i : find_part ps nm = Some (Some i) → ∃ p, ps !! i = Some p.
Proof.
  revert i. induction ps as [|p ps IH]; intros i; cbn; [done|].
  destruct (cstr (part_name p)) as [s|]; cbn; [|done]. case_bool_decide; [intros [= <-]; by eexists|].
  destruct (find_part ps nm) as [[j|]|] eqn:E; cbn; [|done..]. intros [= <-]. by apply IH.
Qed.

(** ** Parsing a bank image *)

Lemma bank_length gen ps left :
  length (bank gen ps left) = (32 + length (image ps) + left)%nat.
Proof.
  unfold bank, bank_head. rewrite !length_app, bank_tail_length, header_length by done.
  change (length (le32_split _)) with 4%nat. change (length (le32_split gen)) with 4%nat.
  rewrite length_replicate. lia.
Qed.

Lemma adler_fits bs : fits 32 (vf_nvram_adler32 1 bs).
Proof.
  unfold vf_nvram_adler32. assert (∀ l s, fits 16 s.1 → fits 16 s.2 →
    fits 16 (fold_left adler_byte l s).1 ∧ fits 16 (fold_left adler_byte l s).2) as H.
  { induction l as [|x l IH]; intros s H1 H2; [done|]. rewrite fold_left_cons. apply IH; unfold adler_byte, fits; cbn; dlia. }
  specialize (H bs (Z.land 1 0xffff, Z.land (Z.shiftr 1 16) 0xffff)).
  destruct (fold_left _ _ _) as [s1 s2]. destruct H as [H1 H2]; [by vm_compute|by vm_compute|]. cbn in *.
  apply fits_lor; [lia|width|]. by apply (fits_weaken 16); [lia|].
Qed.

Lemma bank_split gen ps left post :
  let body := le32_split gen ++ replicate 8 0 ++ image ps ++ bank_tail left in
  bank gen ps left ++ post = header VF_NVRAM_CHRP_SIG 2 (str_nvram ++ replicate 7 0) ++
    le32_split (vf_nvram_adler32 1 body) ++ body ++ post.
Proof. unfold bank, bank_head. by rewrite <- !app_assoc. Qed.

Lemma parse_table gen ps left post n :
  Forall part_ok ps → (length ps ≤ 8)%nat → Z.of_nat (length (bank gen ps left)) ≤ VF_NVRAM_BANK_MAX_LEN → parts n = [] →
  let buf := bank gen ps left ++ post in
  nvram_parse_partitions n buf (Z.of_nat (length (bank gen ps left))) =
    Some (0, n <| parts := reparse <$> ps |>).
Proof.
  intros Hps Hl Hf Hn buf. pose proof (bank_length gen ps left) as Hlen. unfold nvram_parse_partitions. tests.
  set (hd := bank_head gen (vf_nvram_adler32 1 (le32_split gen ++ replicate 8 0 ++ image ps ++ bank_tail left))).
  pose proof (bank_tail_length left) as Htl.
  assert (Hhd : length hd = 32%nat).
  { subst hd. unfold bank_head. rewrite !length_app, header_length by done.
    change (length (le32_split _)) with 4%nat. change (length (le32_split gen)) with 4%nat. by rewrite length_replicate. }
  assert (Hbuf : buf = hd ++ image ps ++ bank_tail left ++ post)
    by (subst buf hd; unfold bank; by rewrite <- !app_assoc).
  rewrite Hbuf. replace 0x20 with (Z.of_nat (length hd)) by (rewrite Hhd; done).
  rewrite parse_parts_spec; [| |cbn; lia|lia| |].
  - by destruct n; cbn in *; subst.
  - done.
  - rewrite !length_app, Hhd, Htl. lia.
  - unfold ends, bank_tail. rewrite !length_app, Hhd. destruct (16 <=? left)%nat eqn:E; [|left; lia].
    right. eexists _, _. split; [|by rewrite <- app_assoc].
    unfold VF_NVRAM_BANK_MAX_LEN in *. rewrite wrap_id by (unfold fits; dlia). unfold fits. dlia.
Qed.

(** A bank image is accepted: its partitions, and the variables of its [common]
    partition. *)
Lemma parse_bank_spec gen ps left post n0 i p :
  Forall part_ok ps → (length ps ≤ 8)%nat → fits 32 gen →
  0x40 ≤ Z.of_nat (length (bank gen ps left)) ≤ VF_NVRAM_BANK_MAX_LEN →
  find_part ps str_common = Some (Some i) → ps !! i = Some p →
  let blen := Z.of_nat (length (bank gen ps left)) in
  let s := {| env := []; parts := reparse <$> ps; bank_len := blen; generation := gen |} in
  vf_nvram_ingest_bank (Some n0) (Some (bank gen ps left ++ post)) blen =
    '(rc, s) ← nvram_load_env_from_common s (reparse p);
    if negb (rc =? 0) then Some (-1, Some cleared) else Some (0, Some s).
Proof.
  intros Hps Hl Hg Hb Hfind Hi blen s. pose proof (proj2 Hb) as Hmax. unfold vf_nvram_ingest_bank. subst blen.
  pose proof (bank_length gen ps left) as Hlen.
  set (blen := Z.of_nat (length (bank gen ps left))) in *. unfold VF_NVRAM_BANK_MAX_LEN in Hb |- *. tests.
  unfold vf_nvram_parse_bank. tests. pose proof (bank_split gen ps left post) as Hs. cbv zeta in Hs.
  set (body := le32_split gen ++ replicate 8 0 ++ image ps ++ bank_tail left) in *.
  set (buf := bank gen ps left ++ post) in *.
  destruct (header_reads [] VF_NVRAM_CHRP_SIG 2 (str_nvram ++ replicate 7 0)
    (le32_split (vf_nvram_adler32 1 body) ++ body ++ post) 0 eq_refl eq_refl) as (_ & (sum & Hs1 & Hs2) & _);
    [unfold fits; lia|]. rewrite app_nil_l in Hs1, Hs2. rewrite <- Hs in Hs1, Hs2. change (0 + 1) with 1 in Hs1.
  rewrite Hs1, Hs2. cbn [mbind option_bind]. rewrite Z.eqb_refl. cbn [negb].
  set (h := header VF_NVRAM_CHRP_SIG 2 (str_nvram ++ replicate 7 0)) in *.
  assert (Hh : length h = 16%nat) by done.
  assert (Hbl : length body = (length (bank gen ps left) - 20)%nat).
  { subst body. rewrite Hlen, !length_app, bank_tail_length, length_replicate. change (length (le32_split _)) with 4%nat. lia. }
  assert (Hrb : buf_read buf 0x14 (blen - 0x14) = Some body).
  { rewrite Hs, app_assoc. apply buf_read_here; [|lia]. rewrite length_app, Hh. done. }
  rewrite Hrb. cbn [mbind option_bind].
  assert (Hra : le32_at buf 0x10 = Some (vf_nvram_adler32 1 body)).
  { rewrite Hs. replace 0x10 with (Z.of_nat (length h)) by (rewrite Hh; done). apply le32_at_split, adler_fits. }
  rewrite Hra. cbn [mbind option_bind]. rewrite Z.eqb_refl. cbn [negb].
  assert (Hrg : le32_at buf 0x14 = Some gen).
  { rewrite Hs. subst body. rewrite <- !app_assoc, app_assoc.
    replace 0x14 with (Z.of_nat (length (h ++ le32_split (vf_nvram_adler32 1
      (le32_split gen ++ replicate 8 0 ++ image ps ++ bank_tail left)))))
      by (rewrite length_app, Hh; change (length (le32_split _)) with 4%nat; done).
    by apply le32_at_split. }
  rewrite Hrg. cbn [mbind option_bind]. subst buf blen. rewrite parse_table; [|exact Hps|exact Hl|exact Hmax|reflexivity].
  cbn [mbind option_bind]. rewrite Z.eqb_refl. cbn [negb].
  match goal with |- context [nvram_find_part ?x _] => change x with s end.
  unfold nvram_find_part. change (parts s) with (reparse <$> ps).
  assert (Hf : find_part (reparse <$> ps) str_common = Some (Some i)).
  { rewrite reparse_find; [exact Hfind|exact Hps|cbn; lia]. }
  rewrite Hf. cbn [mbind option_bind]. rewrite list_lookup_fmap, Hi. reflexivity.
Qed.

(** ** Saving and restoring *)

Lemma env_text_count l : (length l ≤ length (env_text l))%nat.
Proof.
  induction l as [|e l IH]; [done|]. change (env_text (e :: l)) with (entry_text e ++ env_text l).
  rewrite length_app, entry_text_length. cbn [length]. lia.
Qed.

Lemma env_serialize_spec n p :
  part_ok p → Z.of_nat (length (env_text (env n))) ≤ len p →
  ∃ r, nvram_env_serialize n (data p) (len p)
      = Some (Z.of_nat (length (env_text (env n))), env_text (env n) ++ r) ∧
    length (env_text (env n) ++ r) = length (data p) ∧
    (Z.of_nat (length (env_text (env n))) < len p → head r = Some 0).
Proof.
  intros [_ _ _ _ Hd Hl _] Ht. unfold nvram_env_serialize, VF_NVRAM_COMMON_PART_LEN in *.
  set (text := env_text (env n)) in *.
  pose proof (serialize_from_spec (env n) [] (data p) (len p)) as Hs. rewrite !app_nil_l in Hs. fold text in Hs.
  change (Z.of_nat (length (@nil Z))) with 0 in Hs. rewrite Hs by lia. cbn [mbind option_bind].
  set (r := drop (length text) (data p)). assert (Hr : length r = (length (data p) - length text)%nat)
    by (subst r; by rewrite length_drop).
  destruct (Z.of_nat (length text) <? len p) eqn:E.
  - rewrite buf_write_append by (cbn [length]; lia). cbn [mbind option_bind].
    exists ([0] ++ drop 1 r). split; [done|]. split; [|done].
    rewrite !length_app, length_drop. cbn [length]. lia.
  - cbn [mbind option_bind]. exists r. split; [done|]. split; [rewrite length_app; lia|lia].
Qed.

Record nvram_ok (n : vf_nvram_v1) : Prop := {
  ok_env : env_ok n;
  ok_parts : Forall part_ok (parts n);
  ok_part_count : (length (parts n) ≤ 8)%nat;
  ok_gen : fits 32 (generation n);
}.

(** The length of the bank that is built in a buffer of [buf_len] bytes. *)
Definition saved_len (n : vf_nvram_v1) (buf_len : Z) : Z :=
  if (bank_len n =? 0) || (buf_len <? bank_len n) then buf_len else bank_len n.

Lemma find_common_Some n i :
  nvram_find_part n str_common = Some (Some i) → nvram_ensure_common n = Some (Some i, n).
Proof. unfold nvram_ensure_common. by intros ->. Qed.

Lemma with_data_ok p d : part_ok p → length d = length (data p) → part_ok (p <| data := d |>).
Proof. intros [] Hd. constructor; try done. by rewrite <- ok_data0. Qed.

Lemma find_part_insert ps i p d nm :
  ps !! i = Some p → find_part (<[i := p <| data := d |>]> ps) nm = find_part ps nm.
Proof.
  revert i. induction ps as [|q ps IH]; intros [|i] Hi; try done; cbn in *.
  - injection Hi as ->. done.
  - destruct (cstr (part_name q)); [|done]. cbn. by rewrite IH.
Qed.

Lemma image_insert_length ps i p d :
  ps !! i = Some p → length d = length (data p) →
  length (image (<[i := p <| data := d |>]> ps)) = length (image ps).
Proof.
  intros Hi Hd. revert i Hi. induction ps as [|q ps IH]; intros [|i] Hi; try done; cbn in Hi.
  - injection Hi as ->. cbn [insert list_insert]. change (image (?a :: ps)) with (part_image a ++ image ps).
    rewrite !length_app. unfold part_image, contents. cbn. rewrite !length_app, !length_take, Hd. done.
  - cbn [insert list_insert]. change (image (?a :: ?l)) with (part_image a ++ image l).
    rewrite !length_app. by rewrite IH.
Qed.

(** The state a saved bank restores. *)
Definition restored (n n' : vf_nvram_v1) (i : nat) (blen : Z) : Prop :=
  env n' = reflag <$> env n ∧ generation n' = generation n ∧ bank_len n' = blen ∧
  length (parts n') = length (parts n) ∧
  (∀ j q, j ≠ i → parts n !! j = Some q → parts n' !! j = Some (reparse q)).

Lemma save_restore n n0 buf i p :
  nvram_ok n → Forall plain (env n) →
  nvram_find_part n str_common = Some (Some i) → parts n !! i = Some p →
  let blen := saved_len n (Z.of_nat (length buf)) in
  Z.of_nat (length (env_text (env n))) ≤ len p → 0x40 ≤ blen ≤ VF_NVRAM_BANK_MAX_LEN →
  0x20 + Z.of_nat (length (image (parts n))) ≤ blen →
  ∃ img n', vf_nvram_serialize (Some n) (Some buf) (Z.of_nat (length buf))
      = Some (blen, Some (img ++ drop (Z.to_nat blen) buf)) ∧
    Z.of_nat (length img) = blen ∧
    (∀ post, vf_nvram_ingest_bank (Some n0) (Some (img ++ post)) blen = Some (0, Some n')) ∧
    restored n n' i blen.
Proof.
  intros [Hen Hps Hpc Hg] Hpl Hfind Hi blen Ht Hb Hfit.
  assert (Hpi : part_ok p) by (by eapply (list.Forall_lookup_1 part_ok)).
  destruct (env_serialize_spec n p Hpi Ht) as (r & Hser & Hdl & Hr0).
  set (text := env_text (env n)) in *. set (p' := p <| data := text ++ r |>).
  set (ps := <[i := p']> (parts n)). assert (Hp' : part_ok p') by (by apply with_data_ok).
  assert (Hps' : Forall part_ok ps) by (by apply Forall_insert).
  assert (Him : length (image ps) = length (image (parts n))) by (by apply image_insert_length).
  assert (Hble : blen ≤ Z.of_nat (length buf)).
  { subst blen. unfold saved_len. destruct (_ || _) eqn:E; lia. }
  set (left := (Z.to_nat blen - 32 - length (image ps))%nat).
  assert (Hbank : Z.of_nat (length (bank (generation n) ps left)) = blen) by (rewrite bank_length; lia).
  exists (bank (generation n) ps left).
  set (s := {| env := []; parts := reparse <$> ps; bank_len := blen; generation := generation n |}).
  exists (s <| env := reflag <$> env n |>).
  split; [|split; [exact Hbank|split]].
  - unfold vf_nvram_serialize. rewrite (find_common_Some n i Hfind). cbn [mbind option_bind]. tests.
    cbv zeta. assert (Hsc : (if (bank_len n =? 0) || (Z.of_nat (length buf) <? bank_len n)
      then n <| bank_len := Z.of_nat (length buf) |> else n) = n <| bank_len := blen |>).
    { subst blen. unfold saved_len. destruct (_ || _); [done|by destruct n]. }
    rewrite Hsc. change (parts (n <| bank_len := blen |>)) with (parts n).
    change (bank_len (n <| bank_len := blen |>)) with blen. rewrite Hi. cbn [mbind option_bind].
    change (nvram_env_serialize (n <| bank_len := blen |>)) with (nvram_env_serialize n).
    rewrite Hser. cbn [mbind option_bind]. rewrite (proj2 (Z.ltb_ge _ 0)) by lia.
    fold p'. fold ps. rewrite prepare_bank_spec; [|exact Hps'|exact Hble|exact (proj1 Hb)| |].
    + reflexivity.
    + change (fits 32 blen). unfold VF_NVRAM_BANK_MAX_LEN, fits in *. lia.
    + change (0x20 + Z.of_nat (length (image ps)) ≤ blen). lia.
  - intros post. rewrite <- Hbank. rewrite (parse_bank_spec _ _ _ _ _ i p'); [|exact Hps'| |exact Hg| | |].
    + rewrite Hbank. fold s. unfold nvram_load_env_from_common. cbn [len reparse data].
      assert (Hlp : 16 ≤ len p ≤ VF_NVRAM_COMMON_PART_LEN) by apply Hpi. unfold VF_NVRAM_COMMON_PART_LEN in Hlp.
      change (len p') with (len p).
      assert (Hcont : contents p' = text ++ take (Z.to_nat (len p) - length text) r).
      { unfold contents. cbn. rewrite take_app_ge by lia. done. }
      rewrite Hcont, <- app_assoc.
      pose proof (load_env_spec (env n) s [] (take (Z.to_nat (len p) - length text) r ++
        replicate (Z.to_nat (VF_NVRAM_COMMON_PART_LEN - len p)) 0) (len p) (S (Z.to_nat (len p)))) as Hload.
      rewrite !app_nil_l in Hload. change (Z.of_nat (length (@nil Z))) with 0 in Hload. fold text in Hload.
      change (s <| env := [] |>) with s. rewrite Hload; [reflexivity|..].
      * destruct Hen. by constructor.
      * done.
      * rewrite !length_app, length_take, length_replicate. rewrite length_app, (ok_data p Hpi) in Hdl.
        unfold VF_NVRAM_COMMON_PART_LEN in *. lia.
      * intros Hlt. specialize (Hr0 Hlt). destruct r as [|c r]; [done|].
        assert (∃ k, (Z.to_nat (len p) - length text)%nat = S k) as [k ->]
          by (exists (Z.to_nat (len p) - length text - 1)%nat; lia). exact Hr0.
      * pose proof (env_text_count (env n)) as Hcnt. fold text in Hcnt. lia.
    + unfold ps. rewrite length_insert. exact Hpc.
    + rewrite Hbank. exact Hb.
    + exact (eq_trans (find_part_insert _ _ p _ _ Hi) Hfind).
    + unfold ps. apply list_lookup_insert_eq. by apply lookup_lt_Some in Hi.
  - split; [done|]. split; [done|]. split; [done|]. split.
    + cbn. subst ps. by rewrite length_fmap, length_insert.
    + intros j q Hj Hq. cbn. subst ps. rewrite list_lookup_fmap, list_lookup_insert_ne by done. by rewrite Hq.
Qed.

(** A byte array as a backend. *)
Definition array_blk : vf_nvram_blk_backend bytes := {|
  pread := Some (λ b off buf len,
    (0, take (Z.to_nat len) (drop (Z.to_nat off) b) ++ drop (Z.to_nat len) buf, b));
  pwrite := Some (λ b off bs, (0, take (Z.to_nat off) b ++ bs ++ drop (Z.to_nat off + length bs) b));
  getlength := Some (λ b, Z.of_nat (length b)) |}.

Lemma array_stores : stores array_blk id.
Proof.
  split; (eexists; split; [reflexivity|]).
  - intros b buf len _ _. cbv beta. change (Z.to_nat 0) with 0%nat. by rewrite drop_0.
  - intros b bs. eexists. split; [reflexivity|]. cbv beta. change (Z.to_nat 0) with 0%nat. by rewrite take_0.
  - done.
Qed.

Lemma fresh_nvram_ok : nvram_ok fresh.
Proof.
  split; [apply fresh_ok| |cbn; lia|unfold fits; cbn; lia].
  constructor; [|done]. split; try done; cbn; unfold VF_NVRAM_COMMON_PART_LEN; lia.
Qed.

(** A machine with one boot argument, set by hand. *)
Definition booted : vf_nvram_v1 := fresh <| env := [new_entry str_boot_args [0x2d; 0x76] 1] |>.

Lemma booted_ok : nvram_ok booted.
Proof.
  destruct fresh_nvram_ok as [_ H1 H2 H3]. constructor; try done.
  constructor; [|apply NoDup_singleton|cbn; lia]. repeat constructor; cbn; done || lia.
Qed.

(** ** Parsing anything *)

(** What every parsed partition is. *)
Record part_shape (p : vf_nvram_part) : Prop := {
  sh_name : length (part_name p) = 16%nat;
  sh_end : part_name p !! 15%nat = Some 0;
  sh_len : 0 ≤ len p ≤ VF_NVRAM_COMMON_PART_LEN;
  sh_data : length (data p) = Z.to_nat VF_NVRAM_COMMON_PART_LEN;
}.

Lemma scan_total fuel stop d plen pos :
  0 ≤ pos ≤ plen → plen ≤ Z.of_nat (length d) → plen - pos < Z.of_nat fuel →
  ∃ e, scan fuel stop d plen pos = Some e ∧ pos ≤ e ≤ plen.
Proof.
  revert pos. induction fuel as [|fuel IH]; intros pos Hp Hd Hf; [lia|]. cbn [scan].
  destruct (pos <? plen) eqn:E; cbn [negb]; [|exists pos; split; [done|lia]].
  destruct (arr_get_lt d pos) as [c ->]; [lia|]. cbn [mbind option_bind].
  destruct (stop c); [exists pos; split; [done|lia]|].
  destruct (IH (pos + 1)) as (e & -> & He); [lia..|]. exists e. split; [done|lia].
Qed.

Lemma buf_read_total b off n : 0 ≤ off → 0 ≤ n → off + n ≤ Z.of_nat (length b) →
  ∃ l, buf_read b off n = Some l ∧ Z.of_nat (length l) = n.
Proof.
  intros. unfold buf_read. rewrite bool_decide_true by lia. eexists. split; [done|].
  rewrite length_take, length_drop. lia.
Qed.

Lemma load_env_total fuel n d plen cnt :
  env_ok n → 0 ≤ cnt ≤ plen → plen ≤ Z.of_nat (length d) → plen - cnt < Z.of_nat fuel →
  ∃ rc n', load_env fuel n d plen cnt = Some (rc, n') ∧ (rc = 0 ∨ rc = -1) ∧ env_ok n' ∧
    n' = n <| env := env n' |>.
Proof.
  revert n cnt. induction fuel as [|fuel IH]; intros n cnt Hn Hc Hd Hf; [lia|]. cbn [load_env].
  assert (Hstop : ∀ rc, rc = 0 ∨ rc = -1 → ∃ rc' n', Some (rc, n) = Some (rc', n') ∧ (rc' = 0 ∨ rc' = -1) ∧
    env_ok n' ∧ n' = n <| env := env n' |>) by (intros rc ?; exists rc, n; by destruct n).
  destruct (cnt <? plen) eqn:E; cbn [negb]; [|auto].
  destruct (arr_get_lt d cnt) as [c ->]; [lia|]. cbn [mbind option_bind]. destruct (c =? 0); [auto|].
  destruct (scan_total (Z.to_nat (plen - cnt + 1)) (λ c, (c =? 0) || (c =? 0x3d)) d plen cnt) as (e & -> & He);
    [lia..|]. cbn [mbind option_bind]. destruct (plen <=? e) eqn:Ee; [auto|].
  destruct (arr_get_lt d e) as [c' ->]; [lia|]. cbn [mbind option_bind]. destruct (c' =? 0x3d); cbn [negb]; [|auto].
  destruct (scan_total (Z.to_nat (plen - (e + 1) + 1)) (λ c, c =? 0) d plen (e + 1)) as (e' & -> & He');
    [lia..|]. cbn [mbind option_bind]. destruct (plen <=? e') eqn:Ee'; [auto|].
  destruct (_ || _); [auto|].
  destruct (buf_read_total d cnt (e - cnt)) as (nm & -> & _); [lia..|].
  destruct (buf_read_total d (e + 1) (e' - (e + 1))) as (v & -> & _); [lia..|]. cbn [mbind option_bind].
  pose proof (set_spec n nm v 0 Hn) as Hs. destruct (acceptable nm v && _).
  - destruct Hs as (n1 & _ & -> & Hok & _ & Hfr). cbn [mbind option_bind negb Z.eqb].
    destruct (IH _ (e' + 1) Hok) as (rc & n' & -> & Hrc & Hn' & Hfr'); [lia..|].
    exists rc, n'. split_and!; try done. rewrite Hfr', Hfr. by destruct n.
  - rewrite Hs. cbn [mbind option_bind]. exact (Hstop (-1) (or_intror eq_refl)).
Qed.

(** The partition table is read without leaving the buffer when three bytes follow
    the image: the 15-byte name copy reads past the last header. *)
Lemma parse_parts_total fuel n buf blen offset :
  Forall part_shape (parts n) → (length (parts n) ≤ 8)%nat → 0 ≤ offset →
  blen + 3 ≤ Z.of_nat (length buf) → blen - offset < Z.of_nat fuel → 0 < Z.of_nat fuel →
  ∃ rc n', parse_parts fuel n buf blen offset = Some (rc, n') ∧ (rc = 0 ∨ rc = -1) ∧
    (rc = 0 → Forall part_shape (parts n') ∧ (length (parts n') ≤ 8)%nat) ∧ n' = n <| parts := parts n' |>.
Proof.
  revert n offset. induction fuel as [|fuel IH]; intros n offset Hn Hl Ho Hb Hf Hf0; [lia|]. cbn [parse_parts].
  assert (Hok : ∃ rc n', Some (0, n) = Some (rc, n') ∧ (rc = 0 ∨ rc = -1) ∧
    (rc = 0 → Forall part_shape (parts n') ∧ (length (parts n') ≤ 8)%nat) ∧ n' = n <| parts := parts n' |>)
    by (exists 0, n; by destruct n; auto).
  assert (Hbad : ∀ ps, ∃ rc n', Some (-1, n <| parts := ps |>) = Some (rc, n') ∧ (rc = 0 ∨ rc = -1) ∧
    (rc = 0 → Forall part_shape (parts n') ∧ (length (parts n') ≤ 8)%nat) ∧ n' = n <| parts := parts n' |>)
    by (intros ps; exists (-1), (n <| parts := ps |>); split_and!; [done|by right|done|by destruct n]).
  assert (Hbad0 := Hbad (parts n)). replace (n <| parts := parts n |>) with n in Hbad0 by by destruct n.
  destruct (offset + 16 <=? blen) eqn:E; cbn [negb]; [|exact Hok].
  destruct (arr_get_lt buf (offset + 1)) as [ck ->]; [lia|]. unfold vf_nvram_chrp_checksum.
  destruct (arr_get_lt buf offset) as [sg ->]; [lia|].
  destruct (buf_read_total buf (offset + 2) 14) as (h & -> & _); [lia..|]. cbn [mbind option_bind].
  destruct (ck =? _); cbn [negb]; [|exact Hbad0]. destruct (sg =? _); [exact Hok|]. unfold le16_at.
  destruct (arr_get_lt buf (offset + 2)) as [b0 ->]; [lia|].
  destruct (arr_get_lt buf (offset + 2 + 1)) as [b1 ->]; [lia|]. cbn [mbind option_bind].
  set (units := be16_to_host _). destruct ((units <? 1) || (blen <? units * 16 + offset)) eqn:Eu; [exact Hbad0|].
  apply orb_false_iff in Eu as [Eu1 Eu2]. destruct (VF_NVRAM_MAX_PARTS <=? part_count n) eqn:Ec; [exact Hbad0|].
  unfold VF_NVRAM_MAX_PARTS, part_count in Ec.
  destruct (buf_read_total buf (offset + 4) 12) as (nm12 & -> & _); [lia..|]. cbn [mbind option_bind].
  case_bool_decide; [apply IH; try done; lia|].
  destruct (VF_NVRAM_COMMON_PART_LEN <? units * 16 - 16) eqn:Ep; [apply Hbad|].
  unfold VF_NVRAM_COMMON_PART_LEN in *.
  destruct (buf_read_total buf (offset + 4) 15) as (nm & -> & Hnm); [lia..|]. cbn [mbind option_bind part_name].
  rewrite (buf_write_Some (replicate 16 0)) by (rewrite ?length_replicate; lia). cbn [mbind option_bind].
  replace (blen <? offset + 16 + (units * 16 - 16)) with false by lia.
  destruct (buf_read_total buf (offset + 16) (units * 16 - 16)) as (bs & -> & Hbs); [lia..|]. cbn [mbind option_bind data].
  rewrite (buf_write_Some (replicate (Z.to_nat 0x7f0) 0)) by (rewrite ?length_replicate; lia). cbn [mbind option_bind].
  match goal with |- context [parts n ++ [?q]] => assert (Hq : part_shape q); [|set (pt := q) in *] end.
  { change (Z.to_nat 0) with 0%nat. constructor; cbn [part_name data len sig].
    - change (length (take 0 (replicate 16 0) ++ nm ++ drop (0 + length nm) (replicate 16 0)) = 16%nat).
      rewrite !length_app, length_take, length_drop, length_replicate. lia.
    - change ((take 0 (replicate 16 0) ++ nm ++ drop (0 + length nm) (replicate 16 0)) !! 15%nat = Some 0).
      rewrite take_0, app_nil_l, lookup_app_r by lia. replace (length nm) with 15%nat by lia. done.
    - change (0 ≤ units * 16 - 16 ≤ VF_NVRAM_COMMON_PART_LEN). unfold VF_NVRAM_COMMON_PART_LEN. lia.
    - change (length (take 0 (replicate (Z.to_nat 0x7f0) 0) ++ bs ++ drop (0 + length bs) (replicate (Z.to_nat 0x7f0) 0))
        = Z.to_nat VF_NVRAM_COMMON_PART_LEN).
      rewrite !length_app, length_take, length_drop, length_replicate. unfold VF_NVRAM_COMMON_PART_LEN. lia. }
  destruct (IH (n <| parts := parts n ++ [pt] |>) (offset + units * 16)) as (rc & n' & -> & Hrc & Hps & Hfr); try lia.
  - apply Forall_app. auto.
  - cbn. rewrite length_app. cbn [length]. lia.
  - exists rc, n'. split_and!; try done.
Qed.

Lemma find_part_total ps nm : Forall part_shape ps →
  ∃ r, find_part ps nm = Some r ∧ (∀ i, r = Some i → ∃ p, ps !! i = Some p).
Proof.
  intros Hps. assert (∃ r, find_part ps nm = Some r) as [r Hr].
  { induction Hps as [|p ps [_ Hend _ _] _ [r IH]]; cbn; [by eexists|].
    destruct (last_zero _ _ Hend) as [s ->]. cbn. case_bool_decide; [by eexists|]. rewrite IH. by eexists. }
  exists r. split; [done|]. intros i ->. by apply find_part_lookup in Hr.
Qed.

(** ** Properties *)

(** C29. The variables refine a finite map of at most 32 bindings: from
    initialisation, over any sequence of set, unset and the three lookups, every
    answer is that of the map; names of 1 to 63 and values of at most 255 characters
    are accepted while there is room, replacing an old value never fails, and a
    refused call changes nothing. *)
Theorem nvram_env_refines_map n0 os :
  ∃ n n', vf_nvram_init (Some n0) = Some (0, Some n) ∧
    env_run n os = ((map_run ∅ os).1, n') ∧ env_map (env n') = (map_run ∅ os).2 ∧
    (length (env n') ≤ 32)%nat ∧ NoDup (name <$> env n').
Proof.
  pose proof (env_run_refines fresh os fresh_ok) as H. change (env_map (env fresh)) with (∅ : vars) in H.
  destruct (env_run fresh os) as [l n'] eqn:E. destruct H as ([_ Hnd Hc] & Hm & _).
  exists fresh, n'. rewrite Hm. split; [apply (init_fresh n0)|]. split_and!; done.
Qed.

(** C10. Save and restore: variables whose names have no ['='] survive a save to a
    block backend that stores bytes and a load into any object: names, values and
    order are the same (flags are not stored and come back 0), the generation is the
    same, and so are the other partitions' signature, length and contents, provided
    the text fits the [common] partition, the partitions fit the bank, and the bank
    is as long as what the load will read. *)
Theorem nvram_save_load {B} (blk : vf_nvram_blk_backend B) (contents : B → bytes) n n0 buffer b i p :
  stores blk contents → nvram_ok n → Forall plain (env n) →
  nvram_find_part n str_common = Some (Some i) → parts n !! i = Some p →
  Z.of_nat (length buffer) = VF_NVRAM_BANK_MAX_LEN →
  let blen := saved_len n VF_NVRAM_BANK_MAX_LEN in
  Z.of_nat (length (env_text (env n))) ≤ len p → 0x40 ≤ blen →
  0x20 + Z.of_nat (length (image (parts n))) ≤ blen →
  Z.min VF_NVRAM_BANK_MAX_LEN (Z.of_nat (length (contents b))) ≤ blen →
  ∃ b' n', vf_nvram_save_to_blk (Some n) (Some blk) b buffer = Some (0, b') ∧
    vf_nvram_load_from_blk (Some n0) (Some blk) b' = Some (0, Some n', b') ∧ restored n n' i blen.
Proof.
  intros [(rd & Hrd & Hread) (wr & Hwr & Hwrite) (gl & Hgl & Hlen)] Hn Hpl Hfind Hi Hbuf blen Ht Hb Hfit Hmin.
  assert (Hmax : blen ≤ VF_NVRAM_BANK_MAX_LEN).
  { subst blen. unfold saved_len. destruct (_ || _) eqn:E; lia. }
  destruct (save_restore n n0 buffer i p Hn Hpl Hfind Hi) as (img & n1 & Hser & Himg & Hing & Hres);
    rewrite ?Hbuf; try done. rewrite Hbuf in Hser, Hing, Himg, Hres. fold blen in Hser, Hing, Himg, Hres.
  destruct (Hwrite b img) as (b' & Hwb & Hc). exists b', n1. split; [|split; [|exact Hres]].
  - unfold vf_nvram_save_to_blk. rewrite Hwr, Hser. cbn [mbind option_bind]. tests.
    rewrite buf_read_head by lia. cbn [mbind option_bind]. rewrite take_ge by lia. by rewrite Hwb.
  - assert (Hcl : Z.of_nat (length (contents b')) = blen ∨
      blen = VF_NVRAM_BANK_MAX_LEN ∧ blen ≤ Z.of_nat (length (contents b'))).
    { rewrite Hc, length_app, length_drop. lia. }
    unfold vf_nvram_load_from_blk. rewrite Hrd, Hgl, Hlen. tests.
    match goal with |- context [if VF_NVRAM_BANK_MAX_LEN <? ?l then ?x else ?y] =>
      replace (if VF_NVRAM_BANK_MAX_LEN <? l then x else y) with blen
        by (destruct (VF_NVRAM_BANK_MAX_LEN <? l) eqn:?; lia) end.
    rewrite Hread by (rewrite ?length_replicate; lia). cbn [negb Z.eqb].
    rewrite Hc, take_app_le, take_ge by lia. by rewrite Hing.
Qed.

Lemma nvram_save_load_witness :
  ∃ b' n', vf_nvram_save_to_blk (Some booted) (Some array_blk) [] (replicate (Z.to_nat 0x2000) 0) = Some (0, b') ∧
    vf_nvram_load_from_blk (Some fresh) (Some array_blk) b' = Some (0, Some n', b') ∧
    restored booted n' 0 (saved_len booted VF_NVRAM_BANK_MAX_LEN).
Proof.
  apply (nvram_save_load array_blk id booted fresh (replicate (Z.to_nat 0x2000) 0) [] 0%nat common_part array_stores booted_ok).
  - repeat constructor; done.
  - reflexivity.
  - reflexivity.
  - by rewrite length_replicate.
  - vm_compute. discriminate.
  - vm_compute. discriminate.
  - vm_compute. discriminate.
  - vm_compute. discriminate.
Defined.

(** C22. Parsing fails closed: for any bytes, reading a bank image of [blen] bytes
    followed by three readable ones is defined and terminates; it either refuses it and
    leaves the object unchanged or cleared, or accepts it, and then the object has at
    most 32 variables with distinct names of 1 to 63 and values of at most 255
    characters, at most 8 partitions whose names end and whose lengths fit their
    arrays, and a [common] partition. *)
Theorem nvram_parse_fails_closed n0 buf blen :
  Forall is_byte buf → 0 ≤ blen → blen + 3 ≤ Z.of_nat (length buf) →
  ∃ rc n, vf_nvram_ingest_bank (Some n0) (Some buf) blen = Some (rc, Some n) ∧
    (rc = -1 ∧ (n = n0 ∨ n = cleared) ∨
     rc = 0 ∧ env_ok n ∧ Forall part_shape (parts n) ∧ (length (parts n) ≤ 8)%nat ∧
     ∃ i, nvram_find_part n str_common = Some (Some i)).
Proof.
  intros Hbs H0 Hb. unfold vf_nvram_ingest_bank, vf_nvram_parse_bank.
  destruct (_ || _) eqn:E0; [exists (-1), n0; auto|]. destruct (blen <? 0x20) eqn:E1; [exists (-1), n0; auto|].
  unfold vf_nvram_chrp_checksum. destruct (arr_get_lt buf 1) as [ck ->]; [lia|].
  destruct (arr_get_lt buf 0) as [sg ->]; [lia|]. destruct (buf_read_total buf (0 + 2) 14) as (h & -> & _); [lia..|].
  cbn [mbind option_bind]. destruct (ck =? _); cbn [negb]; [|exists (-1), n0; auto].
  destruct (buf_read_total buf 0x14 (blen - 0x14)) as (body & -> & _); [lia..|]. cbn [mbind option_bind].
  destruct (le32_at_Some buf 0x10) as (st & -> & _); [lia..|done|]. cbn [mbind option_bind].
  destruct (_ =? st); cbn [negb]; [|exists (-1), n0; auto].
  destruct (le32_at_Some buf 0x14) as (gen & -> & _); [lia..|done|]. cbn [mbind option_bind].
  unfold nvram_parse_partitions. rewrite E1.
  match goal with |- context [parse_parts ?f ?s _ _ _] =>
    destruct (parse_parts_total f s buf blen 0x20) as (rc & s1 & -> & Hrc & Hps & Hfr) end;
    [done|cbn; lia|lia|lia|lia|lia|]. cbn [mbind option_bind].
  assert (Hen : env_ok s1) by (rewrite Hfr; constructor; [done|apply NoDup_nil_2|cbn; lia]).
  destruct Hrc as [-> | ->]; [cbn [negb Z.eqb]|exists (-1), cleared; auto]. destruct (Hps eq_refl) as [Hsh H8].
  unfold nvram_find_part. destruct (find_part_total (parts s1) str_common Hsh) as (r & Hr & Hi). rewrite Hr.
  cbn [mbind option_bind]. destruct r as [i|].
  - destruct (Hi i eq_refl) as [p Hp]. rewrite Hp. cbn [mbind option_bind]. unfold nvram_load_env_from_common.
    assert (Hpp : part_shape p) by (by eapply (list.Forall_lookup_1 part_shape)). destruct Hpp as [_ _ Hlen Hd].
    destruct (load_env_total (S (Z.to_nat (len p))) (s1 <| env := [] |>) (data p) (len p) 0)
      as (rc & s2 & -> & Hrc & Hs2 & Hfr2); [constructor; [done|apply NoDup_nil_2|cbn; lia]|lia..|].
    cbn [mbind option_bind]. destruct Hrc as [-> | ->]; [cbn [negb Z.eqb]|exists (-1), cleared; auto].
    exists 0, s2. split; [done|]. right. rewrite Hfr2. split_and!; try done; [by rewrite <- Hfr2|by exists i].
  - rewrite init_fresh. exists 0, fresh. split; [done|]. right. split; [done|]. split; [apply fresh_ok|].
    split; [|split; [cbn; lia|by exists 0%nat]]. constructor; [|done].
    split; try done; cbn; unfold VF_NVRAM_COMMON_PART_LEN; lia.
Qed.

Lemma nvram_parse_fails_closed_witness :
  let img := replicate 64 0 in
  Forall is_byte img ∧ ∃ rc n, vf_nvram_ingest_bank (Some booted) (Some img) 61 = Some (rc, Some n) ∧
    (rc = -1 ∧ (n = booted ∨ n = cleared) ∨
     rc = 0 ∧ env_ok n ∧ Forall part_shape (parts n) ∧ (length (parts n) ≤ 8)%nat ∧
     ∃ i, nvram_find_part n str_common = Some (Some i)).
Proof.
  assert (Forall is_byte (replicate 64 0)) as H by (apply Forall_replicate; by vm_compute).
  split; [exact H|]. apply (nvram_parse_fails_closed booted (replicate 64 0) 61 H); [lia|].
  rewrite length_replicate. lia.
Defined.

(** A bank image that ends with a partition of one unit, its header. *)
Definition short_bank : bytes :=
  let body := replicate 12 0 ++ header 0x41 1 (str_common ++ replicate 6 0) in
  header VF_NVRAM_CHRP_SIG 2 (str_nvram ++ replicate 7 0) ++ le32_split (vf_nvram_adler32 1 body) ++ body.

(** The name copy reads 15 bytes of the 12-byte name: parsing a bank image whose
    last partition is one unit leaves the buffer that holds it, and is accepted only
    because three more bytes can be read behind it. *)
Lemma nvram_name_over_read :
  length short_bank = 0x30%nat ∧ vf_nvram_ingest_bank (Some fresh) (Some short_bank) 0x30 = None ∧
  ∃ n, vf_nvram_ingest_bank (Some fresh) (Some (short_bank ++ [0; 0; 0])) 0x30 = Some (0, Some n).
Proof. split; [done|]. split; [by vm_compute|]. eexists. vm_compute. reflexivity. Qed.

(** A name with ['='] is accepted and does not come back. *)
Lemma nvram_equals_lost :
  let n := fresh <| env := [new_entry [0x61; 0x3d; 0x62] [0x63] 0] |> in
  vf_nvram_env_set (Some fresh) (Some [0x61; 0x3d; 0x62]) (Some [0x63]) 0 = (0, Some n) ∧
  ∃ bk n', vf_nvram_serialize (Some n) (Some (replicate 0x2000 0)) 0x2000 = Some (0x2000, Some bk) ∧
    vf_nvram_ingest_bank (Some fresh) (Some bk) 0x2000 = Some (0, Some n') ∧
    env n' = [new_entry [0x61] [0x62; 0x3d; 0x63] 0].
Proof.
  split; [reflexivity|]. eexists _, _. split; [vm_compute; reflexivity|].
  split; [vm_compute; reflexivity|]. reflexivity.
Qed.

End Nvram.
