(* ===== verification/AnsPci.v ===== *)
(** The PCI host of the storage controller, [devices/ans_pci_v1.c] and
    [ans_pci_v1.h].

    State: status, command bits, the enable and pending latches of the three interrupt
    routes (pin, MSI, MSI-X), the prepared message, and the bound sinks.  Operations:
    initialisation, the register reads and writes, the interrupt input, the command
    enable of the mailbox, and binding a message buffer, a message callback and an
    interrupt-line callback.

    The callbacks are the embedder's code: functions of a host state [H].  The message
    buffer is a host array the device only points to, so buffers live in a heap that is
    passed along. *)
From S2P Require Import Prelude.
From S2P Require Import Words.
From S2P Require Import Mmio.
From S2P Require Import Bytes.

Module AnsPci.

Definition VF_ANS_PCI_TIER_HOST := 3.
Definition VF_ANS_PCI_STATUS_ABSENT := 0.
Definition VF_ANS_PCI_STATUS_BOOTSTRAP := 1.
Definition VF_ANS_PCI_STATUS_ACTIVE := 2.
Definition VF_ANS_PCI_FLAG_PRESENT := Z.shiftl 1 0.
Definition VF_ANS_PCI_FLAG_MMIO_CONTAINER := Z.shiftl 1 1.
Definition VF_ANS_PCI_FLAG_IOPORT_CONTAINER := Z.shiftl 1 2.
Definition VF_ANS_PCI_FLAG_MSI_CAPABLE := Z.shiftl 1 3.
Definition VF_ANS_PCI_FLAG_MSIX_CAPABLE := Z.shiftl 1 4.
Definition VF_ANS_PCI_COMMAND_MEMORY := Z.shiftl 1 1.
Definition VF_ANS_PCI_COMMAND_MASTER := Z.shiftl 1 2.
Definition VF_ANS_PCI_COMMAND_ENABLE_MASK := Z.lor VF_ANS_PCI_COMMAND_MEMORY VF_ANS_PCI_COMMAND_MASTER.
Definition VF_ANS_PCI_MSI_ENABLE := Z.shiftl 1 0.
Definition VF_ANS_PCI_MSIX_ENABLE := Z.shiftl 1 0.
Definition VF_ANS_PCI_MSIX_BIR_MASK := 0x7.
Definition VF_ANS_PCI_AIC_STORAGE_IRQ_LINE := 1.
Definition VF_ANS_PCI_IOPORT_SIZE := 64 * 1024.
Definition VF_ANS_PCI_MMCFG_SIZE := Z.shiftl 1 28.
Definition VF_ANS_PCI_MMIO_STATUS := 0x000.
Definition VF_ANS_PCI_MMIO_FLAGS := 0x004.
Definition VF_ANS_PCI_MMIO_TIER := 0x008.
Definition VF_ANS_PCI_MMIO_IOPORT_SIZE := 0x010.
Definition VF_ANS_PCI_MMIO_MMCFG_SIZE := 0x014.
Definition VF_ANS_PCI_MMIO_CONFIG := 0x018.
Definition VF_ANS_PCI_MMIO_MSI_CTRL := 0x020.
Definition VF_ANS_PCI_MMIO_MSI_ADDR := 0x028.
Definition VF_ANS_PCI_MMIO_MSI_DATA := 0x030.
Definition VF_ANS_PCI_MMIO_MSIX_CTRL := 0x038.
Definition VF_ANS_PCI_MMIO_MSIX_TABLE_BIR := 0x03c.
Definition VF_ANS_PCI_MMIO_SIZE := 0x040.
Definition VF_ANS_PCI_MSI_MSG_BYTES := 2.

Section device.
Context {H : Type}.

(** The buffers by address, and the state behind the callbacks. *)
Record world := { heap : gmap Z bytes; host : H }.

(** A callback carries its opaque argument: [msi_message_fn] of (address, data) and
    [aic_fn] of (line, level) answer a return code. *)
Record vf_ans_pci_v1 := {
  status : Z;
  flags : Z;
  command : Z;
  last_config_write : Z;
  config_write_seen : Z;
  intx_pending : Z;
  msi_enabled : Z;
  msi_addr : Z;
  msi_data : Z;
  msi_pending : Z;
  msix_enabled : Z;
  msix_table_bir : Z;
  msix_pending : Z;
  msi_gpa_mem : ptr Z;
  msi_gpa_len : Z;
  msi_gpa_base : Z;
  msi_message_fn : option (H → Z → Z → Z * H);
  msi_message_written : Z;
  last_msi_message_addr : Z;
  last_msi_message_data : Z;
  aic_fn : option (H → Z → Z → Z * H);
  aic_sync_seen : Z;
  aic_line_high : Z;
}.

(** ** Delivery *)

Definition ans_pci_delivery_pending_level (s : vf_ans_pci_v1) : Z :=
  if nz (intx_pending s) || nz (msi_pending s) || nz (msix_pending s) then 1 else 0.

Definition ans_pci_sync_aic (w : world) (s : vf_ans_pci_v1) : Z * world * vf_ans_pci_v1 :=
  let high := ans_pci_delivery_pending_level s in
  match aic_fn s with
  | None => (-1, w, s)
  | Some fn =>
    let '(rc, h) := fn (host w) VF_ANS_PCI_AIC_STORAGE_IRQ_LINE high in
    let w := w <| host := h |> in
    if negb (rc =? 0) then (-1, w, s) else (0, w, s <| aic_sync_seen := 1 |> <| aic_line_high := high |>)
  end.

(** What a delivered message leaves in the device. *)
Definition message_done (s : vf_ans_pci_v1) : vf_ans_pci_v1 :=
  s <| msi_message_written := 1 |> <| last_msi_message_addr := msi_addr s |>
    <| last_msi_message_data := msi_data s |>.

(** [None]: the buffer is not there, or shorter than its bound length. *)
Definition ans_pci_try_msi_message_write (w : world) (s : vf_ans_pci_v1) :
    option (Z * world * vf_ans_pci_v1) :=
  match msi_gpa_mem s with
  | Some mem =>
    if msi_addr s <? msi_gpa_base s then Some (-1, w, s)
    else
      let off := u64 (msi_addr s - msi_gpa_base s) in
      if msi_gpa_len s <? off then Some (-1, w, s)
      else if u64 (msi_gpa_len s - off) <? VF_ANS_PCI_MSI_MSG_BYTES then Some (-1, w, s)
      else
        b ← heap w !! mem;
        b ← arr_set b off (u8 (Z.land (msi_data s) 0xff));
        b ← arr_set b (off + 1) (u8 (Z.land (Z.shiftr (msi_data s) 8) 0xff));
        Some (0, w <| heap := <[mem := b]> (heap w) |>, message_done s)
  | None =>
    match msi_message_fn s with
    | None => Some (-1, w, s)
    | Some fn =>
      let '(rc, h) := fn (host w) (msi_addr s) (msi_data s) in
      let w := w <| host := h |> in
      if negb (rc =? 0) then Some (-1, w, s) else Some (0, w, message_done s)
    end
  end.

Definition ans_pci_apply_msi_enable (w : world) (s : vf_ans_pci_v1) (enable : Z) :
    option (world * vf_ans_pci_v1) :=
  let was := b2z (nz (msi_enabled s)) in
  let now := b2z (nz enable) in
  let s := s <| msi_enabled := now |> in
  if nz (msix_enabled s) then
    let '(_, w, s) := ans_pci_sync_aic w s in Some (w, s)
  else
    '(w, s) ← (
      if negb (nz was) && nz now then
        if nz (intx_pending s) then
          '(_, w, s) ← ans_pci_try_msi_message_write w (s <| msi_pending := 1 |> <| intx_pending := 0 |>);
          Some (w, s)
        else Some (w, s)
      else if nz was && negb (nz now) then
        if nz (msi_pending s) then Some (w, s <| intx_pending := 1 |> <| msi_pending := 0 |>)
        else Some (w, s)
      else Some (w, s));
    let '(_, w, s) := ans_pci_sync_aic w s in Some (w, s).

Definition ans_pci_apply_msix_enable (w : world) (s : vf_ans_pci_v1) (enable : Z) :
    option (world * vf_ans_pci_v1) :=
  let was := b2z (nz (msix_enabled s)) in
  let now := b2z (nz enable) in
  let s := s <| msix_enabled := now |> in
  '(w, s) ← (
    if negb (nz was) && nz now then
      if nz (intx_pending s) || nz (msi_pending s)
      then Some (w, s <| msix_pending := 1 |> <| intx_pending := 0 |> <| msi_pending := 0 |>)
      else Some (w, s)
    else if nz was && negb (nz now) then
      if nz (msix_pending s) then
        let s := s <| msix_pending := 0 |> in
        if nz (msi_enabled s) then
          '(_, w, s) ← ans_pci_try_msi_message_write w (s <| msi_pending := 1 |> <| intx_pending := 0 |>);
          Some (w, s)
        else Some (w, s <| intx_pending := 1 |>)
      else Some (w, s)
    else Some (w, s));
  let '(_, w, s) := ans_pci_sync_aic w s in Some (w, s).

(** ** Operations *)

Definition vf_ans_pci_init (s : ptr vf_ans_pci_v1) : Z * ptr vf_ans_pci_v1 :=
  match s with
  | None => (-1, None)
  | Some _ => (0, Some {|
      status := VF_ANS_PCI_STATUS_BOOTSTRAP;
      flags := Z.lor (Z.lor (Z.lor (Z.lor VF_ANS_PCI_FLAG_PRESENT VF_ANS_PCI_FLAG_MMIO_CONTAINER)
                 VF_ANS_PCI_FLAG_IOPORT_CONTAINER) VF_ANS_PCI_FLAG_MSI_CAPABLE) VF_ANS_PCI_FLAG_MSIX_CAPABLE;
      command := 0; last_config_write := 0; config_write_seen := 0; intx_pending := 0; msi_enabled := 0;
      msi_addr := 0; msi_data := 0; msi_pending := 0; msix_enabled := 0; msix_table_bir := 0; msix_pending := 0;
      msi_gpa_mem := None; msi_gpa_len := 0; msi_gpa_base := 0; msi_message_fn := None; msi_message_written := 0;
      last_msi_message_addr := 0; last_msi_message_data := 0; aic_fn := None; aic_sync_seen := 0;
      aic_line_high := 0 |})
  end.

Definition vf_ans_pci_status (s : ptr vf_ans_pci_v1) : Z :=
  match s with Some s => status s | None => VF_ANS_PCI_STATUS_ABSENT end.
Definition vf_ans_pci_flags (s : ptr vf_ans_pci_v1) : Z :=
  match s with Some s => flags s | None => 0 end.
Definition vf_ans_pci_command (s : ptr vf_ans_pci_v1) : Z :=
  match s with Some s => command s | None => 0 end.
Definition vf_ans_pci_bus_master_enabled (s : ptr vf_ans_pci_v1) : Z :=
  match s with Some s => b2z (nz (Z.land (command s) VF_ANS_PCI_COMMAND_MASTER)) | None => 0 end.

Definition vf_ans_pci_enable_memory_bus_master (s : ptr vf_ans_pci_v1) : Z * ptr vf_ans_pci_v1 :=
  match s with
  | None => (-1, None)
  | Some s => (0, Some (s <| command := u16 (Z.lor (command s) VF_ANS_PCI_COMMAND_ENABLE_MASK) |>))
  end.

Definition vf_ans_pci_config_write_seen (s : ptr vf_ans_pci_v1) : Z :=
  match s with Some s => b2z (nz (config_write_seen s)) | None => 0 end.
Definition vf_ans_pci_last_config_write (s : ptr vf_ans_pci_v1) : Z :=
  match s with Some s => last_config_write s | None => 0 end.

Definition vf_ans_pci_set_irq (w : world) (s : ptr vf_ans_pci_v1) (level : Z) :
    option (Z * world * ptr vf_ans_pci_v1) :=
  match s with
  | None => Some (-1, w, None)
  | Some s =>
    let level := b2z (nz level) in
    '(w, s) ← (
      if nz (msix_enabled s) then
        Some (w, s <| msix_pending := level |> <| intx_pending := 0 |> <| msi_pending := 0 |>)
      else if nz (msi_enabled s) then
        let s := s <| msi_pending := level |> <| intx_pending := 0 |> <| msix_pending := 0 |> in
        if nz level then '(_, w, s) ← ans_pci_try_msi_message_write w s; Some (w, s) else Some (w, s)
      else Some (w, s <| intx_pending := level |> <| msi_pending := 0 |> <| msix_pending := 0 |>));
    let '(_, w, s) := ans_pci_sync_aic w s in
    Some (0, w, Some s)
  end.

Definition vf_ans_pci_irq_pending (s : ptr vf_ans_pci_v1) : Z :=
  match s with Some s => b2z (nz (intx_pending s)) | None => 0 end.
Definition vf_ans_pci_msi_enabled (s : ptr vf_ans_pci_v1) : Z :=
  match s with Some s => b2z (nz (msi_enabled s)) | None => 0 end.
Definition vf_ans_pci_msi_pending (s : ptr vf_ans_pci_v1) : Z :=
  match s with Some s => b2z (nz (msi_pending s)) | None => 0 end.
Definition vf_ans_pci_msix_enabled (s : ptr vf_ans_pci_v1) : Z :=
  match s with Some s => b2z (nz (msix_enabled s)) | None => 0 end.
Definition vf_ans_pci_msix_pending (s : ptr vf_ans_pci_v1) : Z :=
  match s with Some s => b2z (nz (msix_pending s)) | None => 0 end.
Definition vf_ans_pci_msix_table_bir (s : ptr vf_ans_pci_v1) : Z :=
  match s with Some s => msix_table_bir s | None => 0 end.
Definition vf_ans_pci_delivery_pending (s : ptr vf_ans_pci_v1) : Z :=
  match s with Some s => ans_pci_delivery_pending_level s | None => 0 end.
Definition vf_ans_pci_msi_addr (s : ptr vf_ans_pci_v1) : Z :=
  match s with Some s => msi_addr s | None => 0 end.
Definition vf_ans_pci_msi_data (s : ptr vf_ans_pci_v1) : Z :=
  match s with Some s => msi_data s | None => 0 end.

Definition vf_ans_pci_bind_msi_gpa (s : ptr vf_ans_pci_v1) (mem : ptr Z) (len base_gpa : Z) :
    Z * ptr vf_ans_pci_v1 :=
  match s with
  | None => (-1, None)
  | Some d =>
    match mem with
    | None =>
      (0, Some (d <| msi_gpa_mem := None |> <| msi_gpa_len := 0 |> <| msi_gpa_base := 0 |>
                  <| msi_message_written := 0 |>))
    | Some m =>
      if len <? VF_ANS_PCI_MSI_MSG_BYTES then (-1, s)
      else (0, Some (d <| msi_gpa_mem := Some m |> <| msi_gpa_len := len |> <| msi_gpa_base := base_gpa |>))
    end
  end.

Definition vf_ans_pci_msi_gpa_bound (s : ptr vf_ans_pci_v1) : Z :=
  match s with None => -1 | Some s => if msi_gpa_mem s is Some _ then 1 else 0 end.

Definition vf_ans_pci_bind_msi_message (s : ptr vf_ans_pci_v1) (fn : option (H → Z → Z → Z * H)) :
    Z * ptr vf_ans_pci_v1 :=
  match s with
  | None => (-1, None)
  | Some s =>
    let s := s <| msi_message_fn := fn |> in
    (0, Some (match fn, msi_gpa_mem s with
              | None, None => s <| msi_message_written := 0 |>
              | _, _ => s
              end))
  end.

Definition vf_ans_pci_msi_message_written (s : ptr vf_ans_pci_v1) : Z :=
  match s with Some s => b2z (nz (msi_message_written s)) | None => 0 end.
Definition vf_ans_pci_last_msi_message_addr (s : ptr vf_ans_pci_v1) : Z :=
  match s with Some s => last_msi_message_addr s | None => 0 end.
Definition vf_ans_pci_last_msi_message_data (s : ptr vf_ans_pci_v1) : Z :=
  match s with Some s => last_msi_message_data s | None => 0 end.

Definition vf_ans_pci_bind_aic (w : world) (s : ptr vf_ans_pci_v1) (fn : option (H → Z → Z → Z * H)) :
    Z * world * ptr vf_ans_pci_v1 :=
  match s with
  | None => (-1, w, None)
  | Some s =>
    let s := s <| aic_fn := fn |> in
    match fn with
    | None => (0, w, Some (s <| aic_sync_seen := 0 |> <| aic_line_high := 0 |>))
    | Some _ => let '(rc, w, s) := ans_pci_sync_aic w s in (rc, w, Some s)
    end
  end.

Definition vf_ans_pci_aic_sync_seen (s : ptr vf_ans_pci_v1) : Z :=
  match s with Some s => b2z (nz (aic_sync_seen s)) | None => 0 end.
Definition vf_ans_pci_aic_line_high (s : ptr vf_ans_pci_v1) : Z :=
  match s with Some s => b2z (nz (aic_line_high s)) | None => 0 end.

(** The cases of the read: the width a register wants, and its value. *)
Definition read_cases (s : vf_ans_pci_v1) : list (Z * (Z * Z)) := [
  (VF_ANS_PCI_MMIO_STATUS, (32, status s));
  (VF_ANS_PCI_MMIO_FLAGS, (32, flags s));
  (VF_ANS_PCI_MMIO_TIER, (32, VF_ANS_PCI_TIER_HOST));
  (VF_ANS_PCI_MMIO_IOPORT_SIZE, (32, VF_ANS_PCI_IOPORT_SIZE));
  (VF_ANS_PCI_MMIO_MMCFG_SIZE, (32, VF_ANS_PCI_MMCFG_SIZE));
  (VF_ANS_PCI_MMIO_CONFIG, (64, command s));
  (VF_ANS_PCI_MMIO_MSI_CTRL, (32, if nz (msi_enabled s) then VF_ANS_PCI_MSI_ENABLE else 0));
  (VF_ANS_PCI_MMIO_MSI_ADDR, (64, msi_addr s));
  (VF_ANS_PCI_MMIO_MSI_DATA, (32, msi_data s));
  (VF_ANS_PCI_MMIO_MSIX_CTRL, (32, if nz (msix_enabled s) then VF_ANS_PCI_MSIX_ENABLE else 0));
  (VF_ANS_PCI_MMIO_MSIX_TABLE_BIR, (32, msix_table_bir s))].

Definition vf_ans_pci_read (s : ptr vf_ans_pci_v1) (offset width : Z) (value : bool) : rd_result :=
  match s with
  | None => (-1, None)
  | Some s =>
    if negb value || (VF_ANS_PCI_MMIO_SIZE <=? offset) then (-1, None)
    else
      match switch offset (read_cases s) with
      | Some (wd, v) => if negb (width =? wd) then (-1, None) else (0, Some v)
      | None => (-1, None)
      end
  end.

(** The cases of the write: the width a register wants, and the effect. *)
Definition write_cases (w : world) (s : vf_ans_pci_v1) (value : Z) :
    list (Z * (Z * option (world * vf_ans_pci_v1))) := [
  (VF_ANS_PCI_MMIO_CONFIG, (64, Some (w, s <| last_config_write := value |> <| config_write_seen := 1 |>
     <| command := u16 (Z.land value VF_ANS_PCI_COMMAND_ENABLE_MASK) |>)));
  (VF_ANS_PCI_MMIO_MSI_CTRL, (32,
     ans_pci_apply_msi_enable w s (if nz (Z.land value VF_ANS_PCI_MSI_ENABLE) then 1 else 0)));
  (VF_ANS_PCI_MMIO_MSI_ADDR, (64, Some (w, s <| msi_addr := value |>)));
  (VF_ANS_PCI_MMIO_MSI_DATA, (32, Some (w, s <| msi_data := u16 (Z.land value 0xffff) |>)));
  (VF_ANS_PCI_MMIO_MSIX_CTRL, (32,
     ans_pci_apply_msix_enable w s (if nz (Z.land value VF_ANS_PCI_MSIX_ENABLE) then 1 else 0)));
  (VF_ANS_PCI_MMIO_MSIX_TABLE_BIR, (32,
     Some (w, s <| msix_table_bir := u8 (Z.land value VF_ANS_PCI_MSIX_BIR_MASK) |>)))].

Definition vf_ans_pci_write (w : world) (s : ptr vf_ans_pci_v1) (offset width value : Z) :
    option (Z * world * ptr vf_ans_pci_v1) :=
  match s with
  | None => Some (-1, w, None)
  | Some d =>
    match switch offset (write_cases w d value) with
    | None => Some (-1, w, s)
    | Some (wd, r) =>
      if negb (width =? wd) then Some (-1, w, s) else '(w, d) ← r; Some (0, w, Some d)
    end
  end.

(** ** The interrupt source it implements *)

(** One asserted level with two enables: which latch is pending follows. *)
Record port := {
  level : bool;
  msi_on : bool;
  msix_on : bool;
  cmd : Z;
  addr : Z;
  data : Z;
  bir : Z;
}.

Definition cold : port :=
  {| level := false; msi_on := false; msix_on := false; cmd := 0; addr := 0; data := 0; bir := 0 |}.

Record represents (s : vf_ans_pci_v1) (p : port) : Prop := {
  re_status : status s = VF_ANS_PCI_STATUS_BOOTSTRAP;
  re_flags : flags s = 0x1f;
  re_intx : intx_pending s = b2z (level p && negb (msi_on p) && negb (msix_on p));
  re_msi : msi_pending s = b2z (level p && msi_on p && negb (msix_on p));
  re_msix : msix_pending s = b2z (level p && msix_on p);
  re_msi_on : msi_enabled s = b2z (msi_on p);
  re_msix_on : msix_enabled s = b2z (msix_on p);
  re_cmd : command s = cmd p;
  re_addr : msi_addr s = addr p;
  re_data : msi_data s = data p;
  re_bir : msix_table_bir s = bir p;
}.

Inductive pci_op :=
  | Set_irq (l : Z) | Wr (off width v : Z) | Rd (off width : Z) | Enable_master
  | Bind_gpa (mem : ptr Z) (len base : Z) | Bind_msg (fn : option (H → Z → Z → Z * H))
  | Bind_aic (fn : option (H → Z → Z → Z * H)).

(** The answer ([None] where the code returns what a callback answers), and the next
    state. *)
Definition pci_step (w : world) (s : vf_ans_pci_v1) (o : pci_op) :
    option (option rd_result * world * vf_ans_pci_v1) :=
  match o with
  | Set_irq l => '(rc, w, p) ← vf_ans_pci_set_irq w (Some s) l; s ← p; Some (Some (rc, None), w, s)
  | Wr off width v => '(rc, w, p) ← vf_ans_pci_write w (Some s) off width v; s ← p; Some (Some (rc, None), w, s)
  | Rd off width => Some (Some (vf_ans_pci_read (Some s) off width true), w, s)
  | Enable_master =>
    let '(rc, p) := vf_ans_pci_enable_memory_bus_master (Some s) in s ← p; Some (Some (rc, None), w, s)
  | Bind_gpa mem len base =>
    let '(rc, p) := vf_ans_pci_bind_msi_gpa (Some s) mem len base in s ← p; Some (Some (rc, None), w, s)
  | Bind_msg fn => let '(rc, p) := vf_ans_pci_bind_msi_message (Some s) fn in s ← p; Some (Some (rc, None), w, s)
  | Bind_aic fn => let '(_, w, p) := vf_ans_pci_bind_aic w (Some s) fn in s ← p; Some (None, w, s)
  end.

Definition port_read (p : port) (off width : Z) : rd_result :=
  let reg wd v := if width =? wd then (0, Some v) else (-1, None) in
  default (-1, None) (switch off [
    (0x00, reg 32 1); (0x04, reg 32 0x1f); (0x08, reg 32 3); (0x10, reg 32 0x10000); (0x14, reg 32 0x10000000);
    (0x18, reg 64 (cmd p)); (0x20, reg 32 (b2z (msi_on p))); (0x28, reg 64 (addr p)); (0x30, reg 32 (data p));
    (0x38, reg 32 (b2z (msix_on p))); (0x3c, reg 32 (bir p))]).

Definition port_write (p : port) (off width v : Z) : option port :=
  let reg wd p := if width =? wd then Some p else None in
  default None (switch off [
    (0x18, reg 64 (p <| cmd := Z.land v 6 |>)); (0x20, reg 32 (p <| msi_on := Z.odd v |>));
    (0x28, reg 64 (p <| addr := v |>)); (0x30, reg 32 (p <| data := v mod 0x10000 |>));
    (0x38, reg 32 (p <| msix_on := Z.odd v |>)); (0x3c, reg 32 (p <| bir := v mod 8 |>))]).

Definition port_step (p : port) (o : pci_op) : option rd_result * port :=
  match o with
  | Set_irq l => (Some (0, None), p <| level := negb (l =? 0) |>)
  | Wr off width v =>
    match port_write p off width v with Some p' => (Some (0, None), p') | None => (Some (-1, None), p) end
  | Rd off width => (Some (port_read p off width), p)
  | Enable_master => (Some (0, None), p <| cmd := Z.lor (cmd p) 6 |>)
  | Bind_gpa (Some _) len _ => (Some (if len <? 2 then -1 else 0, None), p)
  | Bind_gpa None _ _ | Bind_msg _ => (Some (0, None), p)
  | Bind_aic _ => (None, p)
  end.

(** The bound buffer is there, as long as it was said to be. *)
Definition bound_ok (w : world) (s : vf_ans_pci_v1) : Prop :=
  0 ≤ msi_gpa_len s < 2 ^ 32 ∧
  match msi_gpa_mem s with
  | Some m => ∃ b, heap w !! m = Some b ∧ msi_gpa_len s ≤ Z.of_nat (length b)
  | None => True
  end.

Definition pci_op_ok (w : world) (o : pci_op) : Prop :=
  match o with
  | Wr off width v => fits 64 v
  | Bind_gpa (Some m) len base =>
    fits 32 len ∧ fits 64 base ∧ ∃ b, heap w !! m = Some b ∧ len ≤ Z.of_nat (length b)
  | _ => True
  end.

(** What every operation keeps of the buffers: which there are, and their lengths. *)
Definition same_shape (w w' : world) : Prop := ∀ m, length <$> heap w' !! m = length <$> heap w !! m.

Lemma same_shape_refl w : same_shape w w.
Proof. done. Qed.

Lemma same_shape_trans w1 w2 w3 : same_shape w1 w2 → same_shape w2 w3 → same_shape w1 w3.
Proof. intros H1 H2 m. by rewrite H2, H1. Qed.

Lemma bound_ok_shape w w' s : same_shape w w' → bound_ok w s → bound_ok w' s.
Proof.
  intros Hs [Hl Hb]. split; [done|]. destruct (msi_gpa_mem s) as [m|]; [|done].
  destruct Hb as (b & Hm & Hlen). specialize (Hs m). rewrite Hm in Hs. cbn in Hs.
  destruct (heap w' !! m) as [b'|]; [|done]. injection Hs as Hs. exists b'. split; [done|lia].
Qed.

Lemma op_ok_shape w w' o : same_shape w w' → pci_op_ok w o → pci_op_ok w' o.
Proof.
  intros Hs. destruct o as [|?|?| |[m|]|?|?]; try done. cbn. intros (Hl & Hf & b & Hm & Hlen). split; [done|].
  split; [done|]. specialize (Hs m). rewrite Hm in Hs. cbn in Hs. destruct (heap w' !! m) as [b'|]; [|done].
  injection Hs as Hs. exists b'. split; [done|lia].
Qed.

(** The two helpers change observations only. *)
Definition quiet (w : world) (s : vf_ans_pci_v1) (w' : world) (s' : vf_ans_pci_v1) : Prop :=
  same_shape w w' ∧ (∀ p, represents s p → represents s' p) ∧ msi_gpa_mem s' = msi_gpa_mem s ∧
  msi_gpa_len s' = msi_gpa_len s ∧ msi_gpa_base s' = msi_gpa_base s ∧ aic_fn s' = aic_fn s ∧
  msi_message_fn s' = msi_message_fn s.

Lemma quiet_refl w s : quiet w s w s.
Proof. by split_and!. Qed.

Lemma sync_quiet w s : ∃ rc w' s', ans_pci_sync_aic w s = (rc, w', s') ∧ quiet w s w' s'.
Proof.
  unfold ans_pci_sync_aic. destruct (aic_fn s) as [fn|] eqn:E; [|eauto using quiet_refl].
  destruct (fn _ _ _) as [rc h]. destruct (negb _); eexists _, _, _; (split; [reflexivity|]); split_and!; try done.
  intros p []. by constructor.
Qed.

Lemma try_quiet w s :
  fits 64 (msi_addr s) → fits 64 (msi_gpa_base s) → bound_ok w s →
  ∃ rc w' s', ans_pci_try_msi_message_write w s = Some (rc, w', s') ∧ quiet w s w' s'.
Proof.
  intros Ha Hbase [Hl Hb]. unfold ans_pci_try_msi_message_write.
  assert (∀ rc : Z, ∃ rc' w' s', Some (rc, w, s) = Some (rc', w', s') ∧ quiet w s w' s') as Hno by eauto using quiet_refl.
  destruct (msi_gpa_mem s) as [m|] eqn:Em.
  - destruct Hb as (b & Hm & Hlen). destruct (_ <? _) eqn:E1; [apply Hno|]. unfold fits in *.
    rewrite (wrap_id 64 (_ - _)) by (unfold fits; lia).
    destruct (msi_gpa_len s <? _) eqn:E2; [apply Hno|]. rewrite (wrap_id 64 (_ - _)) by (unfold fits; lia).
    unfold VF_ANS_PCI_MSI_MSG_BYTES. destruct (_ <? 2) eqn:E3; [apply Hno|].
    rewrite Hm. cbn [mbind option_bind]. rewrite arr_set_lt by lia. cbn [mbind option_bind].
    rewrite arr_set_lt by (rewrite length_insert; lia). cbn [mbind option_bind].
    eexists _, _, _. split; [reflexivity|]. split_and!; try done; [|intros p []; by constructor].
    intros k. cbn. destruct (decide (m = k)) as [<-|Hk]; [|by rewrite lookup_insert_ne].
    rewrite lookup_insert_eq, Hm. cbn. by rewrite !length_insert.
  - destruct (msi_message_fn s) as [fn|] eqn:Ef; [|apply Hno]. destruct (fn _ _ _) as [rc h].
    destruct (negb _); eexists _, _, _; (split; [reflexivity|]); split_and!; try done.
    intros p []. by constructor.
Qed.

Record pci_ok (w : world) (s : vf_ans_pci_v1) (p : port) : Prop := {
  po_rep : represents s p;
  po_cmd : fits 16 (cmd p);
  po_addr : fits 64 (addr p);
  po_base : fits 64 (msi_gpa_base s);
  po_bound : bound_ok w s;
}.

Lemma quiet_ok w s p w' s' : quiet w s w' s' → pci_ok w s p → pci_ok w' s' p ∧ same_shape w w'.
Proof.
  intros (Hsh & Hr & Hm & Hl & Hb & _) []. split; [|done]. constructor; [auto|done|done|by rewrite Hb|].
  apply (bound_ok_shape w); [done|]. unfold bound_ok. by rewrite Hm, Hl.
Qed.

Lemma sync_ok w s p : pci_ok w s p →
  ∃ rc w' s', ans_pci_sync_aic w s = (rc, w', s') ∧ pci_ok w' s' p ∧ same_shape w w'.
Proof.
  intros Hok. destruct (sync_quiet w s) as (rc & w' & s' & -> & Hq). exists rc, w', s'. split; [done|].
  by apply (quiet_ok w s).
Qed.

Lemma try_ok w s p : pci_ok w s p →
  ∃ rc w' s', ans_pci_try_msi_message_write w s = Some (rc, w', s') ∧ pci_ok w' s' p ∧ same_shape w w' ∧
    aic_fn s' = aic_fn s ∧ msi_message_fn s' = msi_message_fn s.
Proof.
  intros Hok. destruct (try_quiet w s) as (rc & w' & s' & -> & Hq); [|apply Hok..|].
  - rewrite (re_addr s p) by apply Hok. apply Hok.
  - exists rc, w', s'. split; [done|]. destruct (quiet_ok w s p w' s' Hq Hok). destruct Hq as (_ & _ & _ & _ & _ & ? & ?). done.
Qed.

(** An operation ends by mirroring the latches onto the line. *)
Definition finishes (w : world) (s : vf_ans_pci_v1) (p : port) (w' : world) (s' : vf_ans_pci_v1) : Prop :=
  ∃ w1 s1 rc, ans_pci_sync_aic w1 s1 = (rc, w', s') ∧ pci_ok w1 s1 p ∧ same_shape w w1 ∧
    aic_fn s1 = aic_fn s ∧ msi_message_fn s1 = msi_message_fn s.

Lemma finishes_ok w s p w' s' : finishes w s p w' s' → pci_ok w' s' p ∧ same_shape w w'.
Proof.
  intros (w1 & s1 & rc & Hs & Hok & Hsh & _). destruct (sync_ok w1 s1 p Hok) as (rc' & w2 & s2 & Hs' & H2 & H3).
  rewrite Hs in Hs'. injection Hs' as <- <- <-. split; [done|]. by eapply same_shape_trans.
Qed.

Lemma settle w s w1 s1 p {R} (k : world → vf_ans_pci_v1 → R) :
  pci_ok w1 s1 p → same_shape w w1 → aic_fn s1 = aic_fn s → msi_message_fn s1 = msi_message_fn s →
  ∃ w' s', (let '(_, w, s) := ans_pci_sync_aic w1 s1 in k w s) = k w' s' ∧ finishes w s p w' s'.
Proof.
  intros H1 Hs Ha Hm. destruct (ans_pci_sync_aic w1 s1) as [[rc w'] s'] eqn:E. exists w', s'. split; [done|].
  by exists w1, s1, rc.
Qed.

(** The latch updates, in each mode. *)
Ltac latches Hok := destruct Hok as [[] ? ? ? ?]; constructor; try done; constructor; cbn in *; try done; congruence.

Lemma set_irq_ok w s p l : pci_ok w s p →
  ∃ w' s', vf_ans_pci_set_irq w (Some s) l = Some (0, w', Some s') ∧
    finishes w s (p <| level := negb (l =? 0) |>) w' s'.
Proof.
  intros Hok. unfold vf_ans_pci_set_irq. rewrite (re_msix_on s p), (re_msi_on s p) by apply Hok.
  change (nz l) with (negb (l =? 0)). set (b := negb (l =? 0)).
  pose proof (settle w s) as Hsync.
  destruct p as [lv msi msix c0 a0 d0 b0]. cbn [msi_on msix_on].
  destruct msix; [|destruct msi]; cbn [b2z]; change (nz 1) with true; change (nz 0) with false; cbv iota;
    cbn [mbind option_bind].
  - eapply Hsync; [|done..]. destruct b, msi; latches Hok.
  - destruct b eqn:Eb; cbn [b2z]; [change (nz 1) with true|change (nz 0) with false]; cbv iota.
    + match goal with |- context [ans_pci_try_msi_message_write w ?s1] => destruct (try_ok w s1
        {| level := true; msi_on := true; msix_on := false; cmd := c0; addr := a0; data := d0; bir := b0 |})
        as (rc & w1 & s2 & -> & H1 & Hs1 & Ha1 & Hm1) end; [latches Hok|]. cbn [mbind option_bind].
      by eapply (Hsync w1 s2).
    + cbn [mbind option_bind]. eapply Hsync; [|done..]. latches Hok.
  - eapply Hsync; [|done..]. destruct b; latches Hok.
Qed.

Lemma msi_enable_ok w s p (e : bool) : pci_ok w s p →
  ∃ w' s', ans_pci_apply_msi_enable w s (b2z e) = Some (w', s') ∧
    finishes w s (p <| msi_on := e |>) w' s'.
Proof.
  intros Hok. unfold ans_pci_apply_msi_enable.
  pose proof (settle w s) as Hsync.
  destruct p as [lv msi msix c0 a0 d0 b0].
  pose proof (po_rep _ _ _ Hok) as [_ _ Hx Hm Hmx Ho Hox _ _ _ _]. cbn in Hx, Hm, Hmx, Ho, Hox.
  set (s0 := s <| msi_enabled := _ |>). assert (msix_enabled s0 = msix_enabled s) as -> by done.
  assert (intx_pending s0 = intx_pending s) as -> by done. assert (msi_pending s0 = msi_pending s) as -> by done.
  rewrite Ho, Hox, Hx, Hm. subst s0.
  destruct msix, e, msi, lv; cbn [b2z andb negb]; repeat change (nz 1) with true; repeat change (nz 0) with false;
    cbn [b2z andb negb]; repeat change (nz 1) with true; repeat change (nz 0) with false; cbv iota; cbn [mbind option_bind andb negb];
    try (eapply Hsync; [|done..]; latches Hok).
  match goal with |- context [ans_pci_try_msi_message_write w ?s1] => destruct (try_ok w s1
    {| level := true; msi_on := true; msix_on := false; cmd := c0; addr := a0; data := d0; bir := b0 |})
    as (rc & w1 & s2 & -> & H1 & Hs1 & Ha1 & Hm1) end; [latches Hok|]. cbn [mbind option_bind].
      by eapply (Hsync w1 s2).
Qed.

Lemma msix_enable_ok w s p (e : bool) : pci_ok w s p →
  ∃ w' s', ans_pci_apply_msix_enable w s (b2z e) = Some (w', s') ∧
    finishes w s (p <| msix_on := e |>) w' s'.
Proof.
  intros Hok. unfold ans_pci_apply_msix_enable.
  pose proof (settle w s) as Hsync.
  destruct p as [lv msi msix c0 a0 d0 b0].
  pose proof (po_rep _ _ _ Hok) as [_ _ Hx Hm Hmx Ho Hox _ _ _ _]. cbn in Hx, Hm, Hmx, Ho, Hox.
  set (s0 := s <| msix_enabled := _ |>). assert (msi_enabled (s0 <| msix_pending := 0 |>) = msi_enabled s) as -> by done.
  assert (intx_pending s0 = intx_pending s) as -> by done. assert (msi_pending s0 = msi_pending s) as -> by done.
  assert (msix_pending s0 = msix_pending s) as -> by done.
  rewrite Ho, Hox, Hx, Hm, Hmx. subst s0.
  destruct msix, e, msi, lv; cbn [b2z andb negb]; repeat change (nz 1) with true; repeat change (nz 0) with false;
    cbn [b2z andb negb orb]; repeat change (nz 1) with true; repeat change (nz 0) with false; cbv iota;
    cbn [mbind option_bind andb negb orb]; try (eapply Hsync; [|done..]; latches Hok).
  match goal with |- context [ans_pci_try_msi_message_write w ?s1] => destruct (try_ok w s1
    {| level := true; msi_on := true; msix_on := false; cmd := c0; addr := a0; data := d0; bir := b0 |})
    as (rc & w1 & s2 & -> & H1 & Hs1 & Ha1 & Hm1) end; [latches Hok|]. cbn [mbind option_bind].
      by eapply (Hsync w1 s2).
Qed.

Lemma switch_some {A B} x (l : list (Z * A)) (l' : list (Z * B)) a :
  fst <$> l = fst <$> l' → switch x l = Some a → ∃ b, switch x l' = Some b.
Proof.
  revert l'. induction l as [|[k y] l IH]; intros [|[k' y'] l']; cbn; try done.
  intros [= -> Hk]. destruct (x =? k'); [by eexists|]. by apply IH.
Qed.

Lemma odd_bit v : nz (Z.land v (Z.shiftl 1 0)) = Z.odd v.
Proof. rewrite land_bit_nz by lia. apply Z.bit0_odd. Qed.

(** An operation that mirrors the latches, or leaves the line alone. *)
Definition settles (w : world) (s : vf_ans_pci_v1) (p : port) (w' : world) (s' : vf_ans_pci_v1) : Prop :=
  finishes w s p w' s' ∨
  (pci_ok w' s' p ∧ w' = w ∧ aic_fn s' = aic_fn s ∧ msi_message_fn s' = msi_message_fn s ∧
   aic_line_high s' = aic_line_high s).

Lemma settles_ok w s p w' s' : settles w s p w' s' → pci_ok w' s' p ∧ same_shape w w'.
Proof. intros [H1|(H1 & -> & _)]; [by apply (finishes_ok w s)|done]. Qed.

Lemma pci_write_ok w s p off width v : pci_ok w s p → fits 64 v →
  ∃ w' s', vf_ans_pci_write w (Some s) off width v
      = Some (match port_write p off width v with Some _ => 0 | None => -1 end, w', Some s') ∧
    settles w s (default p (port_write p off width v)) w' s'.
Proof.
  intros Hok Hv. unfold vf_ans_pci_write, port_write.
  unfold write_cases, VF_ANS_PCI_MMIO_CONFIG, VF_ANS_PCI_MMIO_MSI_CTRL, VF_ANS_PCI_MMIO_MSI_ADDR, VF_ANS_PCI_MMIO_MSI_DATA,
    VF_ANS_PCI_MMIO_MSIX_CTRL, VF_ANS_PCI_MMIO_MSIX_TABLE_BIR. cbn [switch].
  unfold VF_ANS_PCI_MSI_ENABLE, VF_ANS_PCI_MSIX_ENABLE. rewrite !odd_bit.
  change (if Z.odd v then 1 else 0) with (b2z (Z.odd v)).
  assert (∃ w1 s1, Some (-1, w, Some s) = Some (-1, w1, Some s1) ∧ settles w s p w1 s1) as Hno
    by (eexists _, _; split; [reflexivity|right; done]).
  assert (∀ s1 p1, pci_ok w s1 p1 → aic_fn s1 = aic_fn s → msi_message_fn s1 = msi_message_fn s →
    aic_line_high s1 = aic_line_high s →
    ∃ w' s', Some (0, w, Some s1) = Some (0, w', Some s') ∧ settles w s p1 w' s') as Hyes
    by (intros s1 p1 ????; exists w, s1; split; [done|by right]).
  split_ifs; cbn [from_option id mbind option_bind negb] in *; try discriminate; try (by apply Hno);
    repeat match goal with E : Some _ = Some _ |- _ => injection E as <- end.
  - apply Hyes; try done. destruct Hok as [[] ? ? ? ?].
    assert (fits 16 (Z.land v 6)) as Hf.
    { apply (fits_weaken 3); [lia|]. apply fits_land_r; [lia|by vm_compute]. }
    constructor; try done. constructor; try done. cbn. change (Z.lor _ _) with 6. by apply wrap_id.
  - destruct (msi_enable_ok w s p (Z.odd v) Hok) as (w' & s' & -> & H1).
    eexists _, _. split; [reflexivity|]. by left.
  - apply Hyes; try done. destruct Hok as [[] ? ? ? ?]. constructor; done.
  - apply Hyes; try done. destruct Hok as [[] ? ? ? ?]. constructor; try done. constructor; try done.
    cbn. change 0xffff with (Z.ones 16). rewrite Z.land_ones by lia. apply wrap_wrap.
  - destruct (msix_enable_ok w s p (Z.odd v) Hok) as (w' & s' & -> & H1).
    eexists _, _. split; [reflexivity|]. by left.
  - apply Hyes; try done. destruct Hok as [[] ? ? ? ?]. constructor; try done. constructor; try done.
    cbn. unfold VF_ANS_PCI_MSIX_BIR_MASK. change 0x7 with (Z.ones 3). rewrite Z.land_ones by lia.
    apply wrap_id. unfold fits. dlia.
Qed.

Lemma read_ok w s p off width : pci_ok w s p → vf_ans_pci_read (Some s) off width true = port_read p off width.
Proof.
  intros [[] _ _ _ _]. unfold vf_ans_pci_read, port_read. cbn [negb orb].
  unfold read_cases, VF_ANS_PCI_MMIO_STATUS, VF_ANS_PCI_MMIO_FLAGS, VF_ANS_PCI_MMIO_TIER, VF_ANS_PCI_MMIO_IOPORT_SIZE,
    VF_ANS_PCI_MMIO_MMCFG_SIZE, VF_ANS_PCI_MMIO_CONFIG, VF_ANS_PCI_MMIO_MSI_CTRL, VF_ANS_PCI_MMIO_MSI_ADDR,
    VF_ANS_PCI_MMIO_MSI_DATA, VF_ANS_PCI_MMIO_MSIX_CTRL, VF_ANS_PCI_MMIO_MSIX_TABLE_BIR, VF_ANS_PCI_MMIO_SIZE. cbn [switch].
  rewrite re_status0, re_flags0, re_cmd0, re_msi_on0, re_addr0, re_data0, re_msix_on0, re_bir0.
  replace (if nz (b2z (msi_on p)) then VF_ANS_PCI_MSI_ENABLE else 0) with (b2z (msi_on p)) by by destruct (msi_on p).
  replace (if nz (b2z (msix_on p)) then VF_ANS_PCI_MSIX_ENABLE else 0) with (b2z (msix_on p)) by by destruct (msix_on p).
  destruct (0x40 <=? off) eqn:E; [|].
  - tests. done.
  - split_ifs; cbn [from_option id]; try done; destruct (width =? _); done.
Qed.

Lemma pci_step_ok w s p o : pci_ok w s p → pci_op_ok w o →
  ∃ w' s', pci_step w s o = Some ((port_step p o).1, w', s') ∧ pci_ok w' s' (port_step p o).2 ∧ same_shape w w'.
Proof.
  intros Hok Ho. destruct o as [l|off width v|off width| |mem len base|fn|fn]; cbn [pci_step port_step pci_op_ok] in *.
  - destruct (set_irq_ok w s p l Hok) as (w' & s' & -> & H1). cbn. eauto using finishes_ok.
  - destruct (pci_write_ok w s p off width v Hok Ho) as (w' & s' & -> & H1). cbn [mbind option_bind].
    destruct (port_write p off width v); cbn in *; eauto using settles_ok.
  - rewrite (read_ok w s p) by done. eauto using same_shape_refl.
  - eexists _, _. split; [reflexivity|]. split; [|done]. destruct Hok as [[] ? ? ? ?]. 
    assert (fits 16 (Z.lor (cmd p) 6)) as Hf by (apply fits_lor; [lia|done|by vm_compute]).
    constructor; try done. constructor; try done. cbn. rewrite re_cmd0. by apply wrap_id.
  - destruct mem as [m|]; cbn [vf_ans_pci_bind_msi_gpa].
    + destruct Ho as (Hl & Hbs & b & Hm & Hlen). unfold VF_ANS_PCI_MSI_MSG_BYTES.
      destruct (len <? 2); eexists _, _; (split; [reflexivity|]); split; try done.
      destruct Hok as [[] ? ? ? ?]. constructor; try done. split; [exact Hl|]. cbn. eauto.
    + eexists _, _. split; [reflexivity|]. split; [|done]. destruct Hok as [[] ? ? ? ?].
      constructor; try done; by constructor.
  - unfold vf_ans_pci_bind_msi_message. destruct Hok as [[] ? ? ? ?].
    destruct fn; [|cbn [msi_gpa_mem]; destruct (msi_gpa_mem (s <| msi_message_fn := None |>))];
      eexists _, _; (split; [reflexivity|]); (split; [|done]); constructor; try done; by constructor.
  - unfold vf_ans_pci_bind_aic. destruct fn as [fn|].
    + destruct (sync_ok w (s <| aic_fn := Some fn |>) p) as (rc & w' & s' & -> & H1 & H2).
      { destruct Hok as [[] ? ? ? ?]. constructor; done. }
      cbn. eauto.
    + eexists _, _. split; [reflexivity|]. split; [|done]. destruct Hok as [[] ? ? ? ?]. constructor; done.
Qed.

Fixpoint pci_run (w : world) (s : vf_ans_pci_v1) (os : list pci_op) :
    option (list (option rd_result) * world * vf_ans_pci_v1) :=
  match os with
  | [] => Some ([], w, s)
  | o :: os =>
    '(r, w, s) ← pci_step w s o; '(rs, w, s) ← pci_run w s os; Some (r :: rs, w, s)
  end.

Fixpoint port_run (p : port) (os : list pci_op) : list (option rd_result) * port :=
  match os with
  | [] => ([], p)
  | o :: os => let '(r, p) := port_step p o in let '(rs, p) := port_run p os in (r :: rs, p)
  end.

Lemma pci_run_ok w s p os : pci_ok w s p → Forall (pci_op_ok w) os →
  ∃ w' s', pci_run w s os = Some ((port_run p os).1, w', s') ∧ pci_ok w' s' (port_run p os).2 ∧ same_shape w w'.
Proof.
  intros Hok Hos. revert w s p Hok Hos. induction os as [|o os IH]; intros w s p Hok Hos; cbn [pci_run port_run].
  { eauto using same_shape_refl. }
  apply Forall_cons_1 in Hos as [Ho Hos]. destruct (pci_step_ok w s p o Hok Ho) as (w1 & s1 & -> & H1 & H2).
  destruct (port_step p o) as [r p1]. cbn [mbind option_bind fst snd] in *.
  destruct (IH w1 s1 p1 H1) as (w2 & s2 & -> & H3 & H4).
  { eapply Forall_impl; [|exact Hos]. intros. by eapply op_ok_shape. }
  destruct (port_run p1 os) as [rs p2]. cbn [mbind option_bind fst snd] in *. exists w2, s2.
  split; [done|]. split; [done|]. by eapply same_shape_trans.
Qed.

Lemma init_ok w s : ∃ s0, vf_ans_pci_init (Some s) = (0, Some s0) ∧ pci_ok w s0 cold.
Proof.
  eexists. split; [reflexivity|]. constructor; try done; try (by vm_compute).
Qed.

(** ** The line *)

Lemma delivery_level s p : represents s p → ans_pci_delivery_pending_level s = b2z (level p).
Proof.
  intros []. unfold ans_pci_delivery_pending_level. rewrite re_intx0, re_msi0, re_msix0.
  by destruct (level p), (msi_on p), (msix_on p).
Qed.

(** What the device relies on: the sink accepts every level, and [line] of the host
    state is the level it was last given; the message callback leaves it alone. *)
Definition sink_ok (line : H → Z) (fn : H → Z → Z → Z * H) : Prop :=
  ∀ h irq v, ∃ h', fn h irq v = (0, h') ∧ line h' = v.
Definition keeps_line (line : H → Z) (fn : option (H → Z → Z → Z * H)) : Prop :=
  match fn with Some f => ∀ h x y, line (f h x y).2 = line h | None => True end.

Record mirrored (line : H → Z) (fn : H → Z → Z → Z * H) (w : world) (s : vf_ans_pci_v1) (p : port) : Prop := {
  mi_ok : pci_ok w s p;
  mi_fn : aic_fn s = Some fn;
  mi_msg : keeps_line line (msi_message_fn s);
  mi_high : aic_line_high s = b2z (level p);
  mi_line : line (host w) = b2z (level p);
}.

Lemma sync_mirrors line fn w s p rc w' s' :
  sink_ok line fn → aic_fn s = Some fn → keeps_line line (msi_message_fn s) → pci_ok w s p →
  ans_pci_sync_aic w s = (rc, w', s') → mirrored line fn w' s' p.
Proof.
  intros Hfn Ha Hm Hok Hs. destruct (sync_ok w s p Hok) as (rc' & w2 & s2 & Hs' & Hok' & _).
  rewrite Hs in Hs'. injection Hs' as <- <- <-. unfold ans_pci_sync_aic in Hs.
  rewrite Ha, (delivery_level s p) in Hs by apply Hok.
  destruct (Hfn (host w) VF_ANS_PCI_AIC_STORAGE_IRQ_LINE (b2z (level p))) as (h & Hf & Hl). rewrite Hf in Hs.
  cbn [negb Z.eqb] in Hs. change (negb (0 =? 0)) with false in Hs. injection Hs as <- <- <-. by constructor.
Qed.

Lemma settles_mirrors line fn w s p p' w' s' :
  sink_ok line fn → mirrored line fn w s p → level p' = level p → settles w s p' w' s' →
  mirrored line fn w' s' p'.
Proof.
  intros Hfn [H1 H2 H3 H4 H5] Hl [(w1 & s1 & rc & Hs & Hok & _ & Ha & Hm)|(Hok & -> & Ha & Hm & Hh)].
  - by apply (sync_mirrors line fn w1 s1 p' rc); [|rewrite Ha|rewrite Hm| |].
  - constructor; try done; [by rewrite Ha|by rewrite Hm|by rewrite Hh, Hl|by rewrite Hl].
Qed.

Lemma step_mirrors line fn w s p o :
  sink_ok line fn → mirrored line fn w s p → pci_op_ok w o →
  match o with Bind_aic _ => False | Bind_msg f => keeps_line line f | _ => True end →
  ∃ w' s', pci_step w s o = Some ((port_step p o).1, w', s') ∧ mirrored line fn w' s' (port_step p o).2.
Proof.
  intros Hfn Hmi Ho Hk. pose proof (mi_ok _ _ _ _ _ Hmi) as Hok.
  destruct (pci_step_ok w s p o Hok Ho) as (w' & s' & Hs & Hok' & _). exists w', s'. split; [exact Hs|].
  destruct o as [l|off width v|off width| |mem len base|f|f]; cbn [pci_step port_step pci_op_ok] in *; try done.
  - destruct (set_irq_ok w s p l Hok) as (w2 & s2 & E & w1 & s1 & rc & Hsy & Hok1 & _ & Ha & Hm).
    rewrite E in Hs. injection Hs as <- <-. destruct Hmi.
    by apply (sync_mirrors line fn w1 s1 _ rc); [|rewrite Ha|rewrite Hm| |].
  - destruct (pci_write_ok w s p off width v Hok Ho) as (w2 & s2 & E & Hst). rewrite E in Hs. cbn in Hs.
    injection Hs as _ <- <-. assert (level (default p (port_write p off width v)) = level p) as Hl.
    { unfold port_write. cbn [switch]. by split_ifs. }
    pose proof (settles_mirrors line fn w s p _ w2 s2 Hfn Hmi Hl Hst) as Hres.
    destruct (port_write p off width v); exact Hres.
  - injection Hs as _ <- <-. done.
  - injection Hs as <- <-. destruct Hmi. by constructor.
  - destruct mem as [m|]; cbn in Hs; [destruct (len <? _); cbn in Hs|]; injection Hs; clear Hs; intros; subst; destruct Hmi; constructor; done.
  - unfold vf_ans_pci_bind_msi_message in Hs. destruct Hmi. destruct f; cbn in Hs;
      [|destruct (msi_gpa_mem s)]; injection Hs as <- <-; by constructor.
Qed.

Lemma run_mirrors line fn w s p os :
  sink_ok line fn → mirrored line fn w s p → Forall (pci_op_ok w) os →
  Forall (λ o, match o with Bind_aic _ => False | Bind_msg f => keeps_line line f | _ => True end) os →
  ∃ w' s', pci_run w s os = Some ((port_run p os).1, w', s') ∧ mirrored line fn w' s' (port_run p os).2.
Proof.
  intros Hfn Hmi Hos Hk. revert w s p Hmi Hos. induction os as [|o os IH]; intros w s p Hmi Hos; cbn [pci_run port_run].
  { eauto. }
  apply Forall_cons_1 in Hos as [Ho Hos]. apply Forall_cons_1 in Hk as [Hk0 Hk].
  destruct (step_mirrors line fn w s p o Hfn Hmi Ho Hk0) as (w1 & s1 & Hs & Hmi1).
  destruct (pci_step_ok w s p o (mi_ok _ _ _ _ _ Hmi) Ho) as (w1' & s1' & Hs' & _ & Hsh). rewrite Hs in Hs'.
  injection Hs' as <- <-. rewrite Hs. destruct (port_step p o) as [r p1]. cbn [mbind option_bind fst snd] in *.
  destruct (IH Hk w1 s1 p1 Hmi1) as (w2 & s2 & -> & H3).
  { eapply Forall_impl; [|exact Hos]. intros. by eapply op_ok_shape. }
  destruct (port_run p1 os) as [rs p2]. cbn. eauto.
Qed.

(** ** Buffers stay bytes *)

Definition byte_heap (w : world) : Prop := map_Forall (λ _, Forall is_byte) (heap w).
Definition byte_result (r : option (world * vf_ans_pci_v1)) : Prop :=
  match r with Some (w, _) => byte_heap w | None => True end.

Lemma sync_bytes w s : byte_heap w → byte_heap (ans_pci_sync_aic w s).1.2.
Proof. unfold ans_pci_sync_aic. destruct (aic_fn s); [|done]. destruct (_ _ _ _). by destruct (negb _). Qed.

Lemma sync_result w s : byte_heap w → byte_result (let '(_, w, s) := ans_pci_sync_aic w s in Some (w, s)).
Proof. intros Hw. pose proof (sync_bytes w s Hw). by destruct (ans_pci_sync_aic w s) as [[]]. Qed.

Lemma try_result w s : byte_heap w → byte_result ('(_, w, s) ← ans_pci_try_msi_message_write w s; Some (w, s)).
Proof.
  intros Hw. unfold ans_pci_try_msi_message_write. destruct (msi_gpa_mem s) as [m|].
  - split_ifs; try done. destruct (heap w !! m) as [b|] eqn:Eb; [|done]. cbn [mbind option_bind].
    destruct (arr_set b _ _) as [b1|] eqn:E1; [|done]. cbn [mbind option_bind].
    destruct (arr_set b1 _ _) as [b2|] eqn:E2; [|done]. apply arr_set_Some in E1 as [_ ->]. apply arr_set_Some in E2 as [_ ->].
    cbn. apply map_Forall_insert_2; [|done]. apply Forall_insert; [|by apply fits_wrap].
    apply Forall_insert; [by apply (Hw m)|by apply fits_wrap].
  - destruct (msi_message_fn s); [|done]. destruct (_ _ _ _). by destruct (negb _).
Qed.

Lemma bind_result r (k : world → vf_ans_pci_v1 → option (world * vf_ans_pci_v1)) :
  byte_result r → (∀ w s, byte_heap w → byte_result (k w s)) → byte_result ('(w, s) ← r; k w s).
Proof. intros Hr Hk. destruct r as [[w s]|]; [by apply Hk|done]. Qed.

Ltac results :=
  repeat first [done | apply sync_result | apply try_result | apply bind_result; [|intros ? ?] | case_match].

Lemma msi_enable_bytes w s e : byte_heap w → byte_result (ans_pci_apply_msi_enable w s e).
Proof. intros Hw. unfold ans_pci_apply_msi_enable. results. Qed.

Lemma msix_enable_bytes w s e : byte_heap w → byte_result (ans_pci_apply_msix_enable w s e).
Proof. intros Hw. unfold ans_pci_apply_msix_enable. results. Qed.

Lemma set_irq_bytes w s l rc w' s' : byte_heap w → vf_ans_pci_set_irq w s l = Some (rc, w', s') → byte_heap w'.
Proof.
  intros Hw. destruct s as [s|]; cbn [vf_ans_pci_set_irq]; [|by intros [= _ <- _]].
  match goal with |- context [mbind _ ?r] => assert (byte_result r) as Hr by results; destruct r as [[w1 s1]|]; [|done] end.
  cbn [mbind option_bind]. pose proof (sync_bytes w1 s1 Hr). destruct (ans_pci_sync_aic w1 s1) as [[]]. by intros [= _ <- _].
Qed.

Lemma step_bytes w s o r w' s' : byte_heap w → pci_step w s o = Some (r, w', s') → byte_heap w'.
Proof.
  intros Hw. destruct o as [l|off width v|off width| |mem len base|fn|fn]; cbn [pci_step].
  - destruct (vf_ans_pci_set_irq w (Some s) l) as [[[rc w1] [s1|]]|] eqn:E; cbn; try done. intros [= _ <- _].
    by apply (set_irq_bytes w (Some s) l rc w1 (Some s1)).
  - unfold vf_ans_pci_write. destruct (switch off (write_cases w s v)) as [[wd res]|] eqn:E; [|cbn; by intros [= _ <- _]].
    destruct (negb _); [cbn; by intros [= _ <- _]|].
    assert (byte_result res) as Hr.
    { revert E. unfold write_cases. cbn [switch]. split_ifs; try done; intros [= _ <-];
        first [done|by apply msi_enable_bytes|by apply msix_enable_bytes]. }
    destruct res as [[w1 s1]|]; [|done]. cbn. by intros [= _ <- _].
  - by intros [= _ <- _].
  - cbn. by intros [= _ <- _].
  - destruct (vf_ans_pci_bind_msi_gpa (Some s) mem len base) as [rc [s1|]]; cbn; [|done]. by intros [= _ <- _].
  - destruct (vf_ans_pci_bind_msi_message (Some s) fn) as [rc [s1|]]; cbn; [|done]. by intros [= _ <- _].
  - unfold vf_ans_pci_bind_aic. destruct fn; [|cbn; by intros [= _ <- _]].
    set (s1 := s <| aic_fn := _ |>). pose proof (sync_bytes w s1 Hw). destruct (ans_pci_sync_aic w s1) as [[]].
    cbn. by intros [= _ <- _].
Qed.

End device.

Arguments world : clear implicits.
Arguments vf_ans_pci_v1 : clear implicits.

(** ** Properties *)

(** C11. The controller refines one interrupt source with three routes: over any
    sequence of interrupt inputs, register accesses and bindings, whatever the
    callbacks answer, the register answers are those of the specification; the asserted
    level is pending on exactly one route (MSI-X when enabled, else MSI when enabled,
    else the pin) and survives every change of route; nothing is written outside the
    bound buffer; and the status never leaves bootstrap. *)
Theorem pci_refines_port {H} (w : world H) garbage os :
  Forall (pci_op_ok w) os →
  ∃ s0 w' s', vf_ans_pci_init (Some garbage) = (0, Some s0) ∧
    pci_run w s0 os = Some ((port_run cold os).1, w', s') ∧ represents s' (port_run cold os).2 ∧ same_shape w w'.
Proof.
  intros Hos. destruct (init_ok w garbage) as (s0 & H0 & Hok). destruct (pci_run_ok w s0 cold os Hok Hos) as (w' & s' & Hr & Hok' & Hsh).
  exists s0, w', s'. split_and!; try done. apply Hok'.
Qed.

(** A host with one buffer, and a sink that keeps the line level. *)
Definition sample_world : world Z := {| heap := {[7 := replicate 16 0]}; host := 0 |}.
Definition level_sink (h irq v : Z) : Z * Z := (0, v).
Definition sample_ops : list (@pci_op Z) :=
  [Bind_gpa (Some 7) 16 0x1000; Wr 0x28 64 0x1004; Wr 0x30 32 0x1234; Set_irq 1; Wr 0x20 32 1; Wr 0x38 32 1].
Definition sample_port : port :=
  {| level := false; msi_on := true; msix_on := false; cmd := 0; addr := 0x1004; data := 0x1234; bir := 0 |}.

(** The device after initialisation. *)
Definition vf_ans_pci_cold (H : Type) : vf_ans_pci_v1 H := {|
  status := 1; flags := 0x1f; command := 0; last_config_write := 0; config_write_seen := 0; intx_pending := 0;
  msi_enabled := 0; msi_addr := 0; msi_data := 0; msi_pending := 0; msix_enabled := 0; msix_table_bir := 0;
  msix_pending := 0; msi_gpa_mem := None; msi_gpa_len := 0; msi_gpa_base := 0; msi_message_fn := None;
  msi_message_written := 0; last_msi_message_addr := 0; last_msi_message_data := 0; aic_fn := None;
  aic_sync_seen := 0; aic_line_high := 0 |}.

Lemma cold_ok {H} (w : world H) : pci_ok w (vf_ans_pci_cold H) cold.
Proof.
  destruct (init_ok w (vf_ans_pci_cold H)) as (s0 & [= <-] & Hok). exact Hok.
Qed.

Definition sample_msi : vf_ans_pci_v1 Z :=
  (vf_ans_pci_cold Z) <| msi_enabled := 1 |> <| msi_addr := 0x1004 |> <| msi_data := 0x1234 |>
    <| msi_gpa_mem := Some 7 |> <| msi_gpa_len := 16 |> <| msi_gpa_base := 0x1000 |>.

Lemma sample_ops_ok : Forall (pci_op_ok sample_world) sample_ops.
Proof.
  repeat constructor; try (by vm_compute). exists (replicate 16 0). split; [done|]. by rewrite length_replicate.
Qed.

Lemma pci_refines_port_witness :
  ∃ s0 w' s', vf_ans_pci_init (Some (vf_ans_pci_cold Z)) = (0, Some s0) ∧
    pci_run sample_world s0 sample_ops = Some ((port_run cold sample_ops).1, w', s') ∧
    represents s' (port_run cold sample_ops).2 ∧ same_shape sample_world w'.
Proof. exact (pci_refines_port sample_world (vf_ans_pci_cold Z) sample_ops sample_ops_ok). Defined.

(** C33. The bound interrupt line follows the interrupt input: from the moment a
    sink that accepts every level is bound, after any further inputs, register
    accesses and bindings of messages, the line the sink last got is the level of the
    last input, which is also what the device reports as pending. *)
Theorem pci_line_follows {H} (line : H → Z) fn (w : world H) s p os :
  sink_ok line fn → pci_ok w s p → keeps_line line (msi_message_fn s) → Forall (pci_op_ok w) os →
  Forall (λ o, match o with Bind_aic _ => False | Bind_msg f => keeps_line line f | _ => True end) os →
  ∃ rs w' s', pci_run w s (Bind_aic (Some fn) :: os) = Some (rs, w', s') ∧
    line (host w') = b2z (level (port_run p os).2) ∧
    vf_ans_pci_delivery_pending (Some s') = line (host w') ∧ vf_ans_pci_aic_line_high (Some s') = line (host w').
Proof.
  intros Hfn Hok Hm Hos Hk. cbn [pci_run pci_step vf_ans_pci_bind_aic].
  destruct (ans_pci_sync_aic w (s <| aic_fn := Some fn |>)) as [[rc w1] s1] eqn:E. cbn [mbind option_bind].
  assert (pci_ok w (s <| aic_fn := Some fn |>) p) as Hok1 by (destruct Hok as [[] ? ? ? ?]; constructor; done).
  pose proof (sync_mirrors line fn w (s <| aic_fn := Some fn |>) p rc w1 s1 Hfn eq_refl Hm Hok1 E) as Hmi.
  destruct (sync_ok w _ p Hok1) as (rc' & w1' & s1' & E' & _ & Hsh). rewrite E in E'. injection E' as <- <- <-.
  destruct (run_mirrors line fn w1 s1 p os Hfn Hmi) as (w' & s' & -> & Hmi').
  { eapply Forall_impl; [|exact Hos]. intros. by eapply op_ok_shape. }
  { exact Hk. }
  cbn [mbind option_bind]. destruct Hmi'. eexists _, _, _. split; [reflexivity|]. split; [done|]. rewrite mi_line0.
  split; [apply delivery_level; apply mi_ok0|]. cbn. rewrite mi_high0. by destruct (level _).
Qed.

Lemma pci_line_follows_witness :
  ∃ rs w' s', pci_run sample_world (vf_ans_pci_cold Z) (Bind_aic (Some level_sink) :: sample_ops) = Some (rs, w', s') ∧
    host w' = b2z (level (port_run cold sample_ops).2) ∧
    vf_ans_pci_delivery_pending (Some s') = host w' ∧ vf_ans_pci_aic_line_high (Some s') = host w'.
Proof.
  apply (pci_line_follows (λ h, h) level_sink sample_world (vf_ans_pci_cold Z) cold sample_ops).
  - intros h irq v. by exists v.
  - apply (cold_ok sample_world).
  - exact I.
  - exact sample_ops_ok.
  - repeat constructor.
Defined.

(** The message write: asserting the input in MSI mode with a buffer bound
    latches it, and stores the two data bytes little-endian at the message address when
    both lie in the bound window; otherwise, and everywhere else, no buffer changes. *)
Theorem pci_message_write {H} (w : world H) s p m b l :
  pci_ok w s p → msi_on p = true → msix_on p = false → msi_gpa_mem s = Some m → heap w !! m = Some b → l ≠ 0 →
  let off := addr p - msi_gpa_base s in
  ∃ w' s', vf_ans_pci_set_irq w (Some s) l = Some (0, w', Some s') ∧ msi_pending s' = 1 ∧
    heap w' = if bool_decide (0 ≤ off ∧ off + 2 ≤ msi_gpa_len s)
              then <[m := <[Z.to_nat (off + 1) := data p / 256 mod 256]> (<[Z.to_nat off := data p mod 256]> b)]> (heap w)
              else heap w.
Proof.
  intros Hok H1 H2 Hm Hb Hl off. destruct (set_irq_ok w s p l Hok) as (w' & s' & Hs & Hfin). exists w', s'. split; [done|].
  pose proof (finishes_ok _ _ _ _ _ Hfin) as [[Hrep' _ _ _ _] _]. split.
  { rewrite (re_msi _ _ Hrep'). cbn. rewrite H1, H2. by rewrite (proj2 (Z.eqb_neq l 0) Hl). }
  revert Hs. unfold vf_ans_pci_set_irq. destruct Hok as [[] _ Ha Hba [Hln Hbd]].
  rewrite re_msix_on0, re_msi_on0, H1, H2. cbn [b2z]. change (nz 0) with false. change (nz 1) with true. cbv iota.
  rewrite (proj2 (nz_true l) Hl). cbn [b2z]. change (nz 1) with true. cbv iota.
  set (s1 := s <| msi_pending := 1 |> <| intx_pending := 0 |> <| msix_pending := 0 |>).
  assert (∃ rc s2, ans_pci_try_msi_message_write w s1 = Some (rc, w <| heap :=
    if bool_decide (0 ≤ off ∧ off + 2 ≤ msi_gpa_len s)
    then <[m := <[Z.to_nat (off + 1) := data p / 256 mod 256]> (<[Z.to_nat off := data p mod 256]> b)]> (heap w)
    else heap w |>, s2)) as (rc & s2 & ->).
  { unfold ans_pci_try_msi_message_write. change (msi_gpa_mem s1) with (msi_gpa_mem s). change (msi_addr s1) with (msi_addr s).
    change (msi_gpa_base s1) with (msi_gpa_base s). change (msi_gpa_len s1) with (msi_gpa_len s).
    change (msi_data s1) with (msi_data s). rewrite Hm, re_addr0, re_data0. unfold fits in *. rewrite Hm in Hbd.
    destruct Hbd as (b' & Hb' & Hlen). rewrite Hb in Hb'. injection Hb' as <-.
    destruct (addr p <? msi_gpa_base s) eqn:E1.
    { rewrite bool_decide_false by lia. eexists _, _. by destruct w. }
    rewrite (wrap_id 64 (_ - _)) by (unfold fits; lia). fold off. destruct (msi_gpa_len s <? off) eqn:E2.
    { rewrite bool_decide_false by lia. eexists _, _. by destruct w. }
    rewrite (wrap_id 64 (_ - _)) by (unfold fits; lia). unfold VF_ANS_PCI_MSI_MSG_BYTES. destruct (_ <? 2) eqn:E3.
    { rewrite bool_decide_false by lia. eexists _, _. by destruct w. }
    rewrite bool_decide_true by lia. rewrite Hb. cbn [mbind option_bind]. rewrite arr_set_lt by lia. cbn [mbind option_bind].
    rewrite arr_set_lt by (rewrite length_insert; lia). cbn [mbind option_bind].
    change 0xff with (Z.ones 8). rewrite !Z.land_ones, Z.shiftr_div_pow2 by lia. unfold wrap.
    rewrite !Zmod_mod. change (2 ^ 8) with 256. eexists _, _. reflexivity. }
  cbn [mbind option_bind]. destruct (ans_pci_sync_aic _ s2) as [[rc2 w2] s3] eqn:Es. intros [= <- <-].
  unfold ans_pci_sync_aic in Es. destruct (aic_fn s2); [|by injection Es as _ <- _].
  destruct (_ _ _ _) as [rc3 h] in Es. destruct (negb _) in Es; injection Es; intros; by subst.
Qed.

Lemma pci_message_write_witness :
  ∃ w' s', vf_ans_pci_set_irq sample_world (Some sample_msi) 1 = Some (0, w', Some s') ∧ msi_pending s' = 1 ∧
    heap w' = if bool_decide (0 ≤ 4 ∧ 4 + 2 ≤ 16)
              then <[7 := <[Z.to_nat 5 := 0x1234 / 256 mod 256]> (<[Z.to_nat 4 := 0x1234 mod 256]> (replicate 16 0))]> (heap sample_world)
              else heap sample_world.
Proof.
  apply (pci_message_write sample_world sample_msi sample_port 7 (replicate 16 0) 1); try reflexivity; [|lia].
  constructor; [constructor; reflexivity|by vm_compute|by vm_compute|by vm_compute|].
  split; [by vm_compute|]. exists (replicate 16 0). split; [reflexivity|]. by vm_compute.
Defined.

End AnsPci.
