(* ===== verification/AnsMbox.v ===== *)
(** The mailbox of the storage controller, [devices/ans_mbox_v1.c] and
    [ans_mbox_v1.h].

    State: the status and flag words, the last incoming and outgoing message, whether
    the outgoing message waits, and an optional link to a PCI host.  Operations:
    initialisation, binding the host, start and wakeup, the queries, and the register
    reads and writes.

    The linked host belongs to somebody else and changes between two operations of the
    mailbox; the hosts are therefore a map from addresses to objects that is passed to
    the operations, and returned by the one that changes it ([start]). *)
From S2P Require Import Prelude.
From S2P Require Import Words.
From S2P Require Import Mmio.
From S2P Require Import Sep.
From S2P Require Import AnsPci.

Module AnsMbox.

Definition VF_ANS_MBOX_TIER_AKF_REGMAP := 0.
Definition VF_ANS_MBOX_STATUS_ABSENT := 0.
Definition VF_ANS_MBOX_STATUS_BOOTSTRAP := 1.
Definition VF_ANS_MBOX_FLAG_PRESENT := Z.shiftl 1 0.
Definition VF_ANS_MBOX_FLAG_STARTED := Z.shiftl 1 1.
Definition VF_ANS_MBOX_FLAG_REPLY_PENDING := Z.shiftl 1 2.
Definition VF_ANS_MBOX_Q_NOT_EMPTY := Z.shiftl 1 16.
Definition VF_ANS_MBOX_Q_EMPTY := Z.shiftl 1 17.
Definition VF_ANS_MBOX_EP_BOOTSTRAP := 255.
Definition VF_ANS_MBOX_BOOTSTRAP_OP_PING := 1.
Definition VF_ANS_MBOX_BOOTSTRAP_OP_GET_STATUS := 2.
Definition VF_ANS_MBOX_BOOTSTRAP_OP_PING_ACK := 101.
Definition VF_ANS_MBOX_BOOTSTRAP_OP_STATUS_REPLY := 102.
Definition VF_ANS_MBOX_BOOTSTRAP_OP_ANNOUNCE := 210.
Definition VF_ANS_MBOX_BOOTSTRAP_OP_L1_REJECT := 0xFE.
Definition VF_ANS_MBOX_MMIO_STATUS := 0x000.
Definition VF_ANS_MBOX_MMIO_FLAGS := 0x004.
Definition VF_ANS_MBOX_MMIO_TIER := 0x008.
Definition VF_ANS_MBOX_MMIO_A2I_QSTAT := 0x010.
Definition VF_ANS_MBOX_MMIO_I2A_QSTAT := 0x014.
Definition VF_ANS_MBOX_MMIO_A2I_MSG := 0x018.
Definition VF_ANS_MBOX_MMIO_I2A_MSG := 0x020.
Definition VF_ANS_MBOX_MMIO_SIZE := 0x028.

Record vf_ans_mbox_msg := { ep : Z; tag : Z; op : Z; param : Z; data : Z }.

(** [pci]: the address of the linked host. *)
Record vf_ans_mbox_v1 := {
  status : Z;
  flags : Z;
  last_a2i_write : Z;
  a2i_write_seen : Z;
  i2a_msg : Z;
  reply_pending : Z;
  pci : ptr Z;
}.

Definition vf_ans_mbox_pack_msg (ep tag op param data : Z) : Z :=
  Z.lor (Z.lor (Z.lor (Z.lor (u8 ep) (Z.shiftl (u8 tag) 8)) (Z.shiftl (u8 op) 16))
    (Z.shiftl (u8 param) 24)) (Z.shiftl (u32 data) 32).

Definition vf_ans_mbox_unpack_msg (raw : Z) : vf_ans_mbox_msg := {|
  ep := u8 (Z.land raw 0xff);
  tag := u8 (Z.land (Z.shiftr raw 8) 0xff);
  op := u8 (Z.land (Z.shiftr raw 16) 0xff);
  param := u8 (Z.land (Z.shiftr raw 24) 0xff);
  data := u32 (Z.shiftr raw 32);
|}.

Definition ans_mbox_post_reply (s : vf_ans_mbox_v1) (msg : Z) : vf_ans_mbox_v1 :=
  s <| i2a_msg := msg |> <| reply_pending := 1 |>
    <| flags := Z.lor (flags s) VF_ANS_MBOX_FLAG_REPLY_PENDING |>.

Definition ans_mbox_handle_endpoint (s : vf_ans_mbox_v1) (raw : Z) : vf_ans_mbox_v1 :=
  let m := vf_ans_mbox_unpack_msg raw in
  if negb (ep m =? VF_ANS_MBOX_EP_BOOTSTRAP) then
    ans_mbox_post_reply s (vf_ans_mbox_pack_msg (ep m) (tag m) VF_ANS_MBOX_BOOTSTRAP_OP_L1_REJECT (op m) 0)
  else
    let reply :=
      default (vf_ans_mbox_pack_msg VF_ANS_MBOX_EP_BOOTSTRAP (tag m) VF_ANS_MBOX_BOOTSTRAP_OP_L1_REJECT (op m) 0)
        (switch (op m) [
          (VF_ANS_MBOX_BOOTSTRAP_OP_PING,
           vf_ans_mbox_pack_msg VF_ANS_MBOX_EP_BOOTSTRAP (tag m) VF_ANS_MBOX_BOOTSTRAP_OP_PING_ACK 0 0);
          (VF_ANS_MBOX_BOOTSTRAP_OP_GET_STATUS,
           vf_ans_mbox_pack_msg VF_ANS_MBOX_EP_BOOTSTRAP (tag m) VF_ANS_MBOX_BOOTSTRAP_OP_STATUS_REPLY 0
             (status s))]) in
    ans_mbox_post_reply s reply.

Definition vf_ans_mbox_init (s : ptr vf_ans_mbox_v1) : Z * ptr vf_ans_mbox_v1 :=
  match s with
  | None => (-1, None)
  | Some _ =>
    (0, Some {| status := VF_ANS_MBOX_STATUS_BOOTSTRAP; flags := VF_ANS_MBOX_FLAG_PRESENT; last_a2i_write := 0;
                a2i_write_seen := 0; i2a_msg := 0; reply_pending := 0; pci := None |})
  end.

Definition vf_ans_mbox_status (s : ptr vf_ans_mbox_v1) : Z :=
  match s with Some s => status s | None => VF_ANS_MBOX_STATUS_ABSENT end.
Definition vf_ans_mbox_a2i_write_seen (s : ptr vf_ans_mbox_v1) : Z :=
  match s with Some s => b2z (nz (a2i_write_seen s)) | None => 0 end.
Definition vf_ans_mbox_last_a2i_write (s : ptr vf_ans_mbox_v1) : Z :=
  match s with Some s => last_a2i_write s | None => 0 end.
Definition vf_ans_mbox_reply_pending (s : ptr vf_ans_mbox_v1) : Z :=
  match s with Some s => b2z (nz (reply_pending s)) | None => 0 end.
Definition vf_ans_mbox_i2a_msg (s : ptr vf_ans_mbox_v1) : Z :=
  match s with Some s => i2a_msg s | None => 0 end.

Section mailbox.
Context {H : Type}.
Abbreviation hosts := (gmap Z (AnsPci.vf_ans_pci_v1 H)).

(** [None]: the link dangles. *)
Definition ans_mbox_reconcile_started (pcis : hosts) (s : vf_ans_mbox_v1) : option vf_ans_mbox_v1 :=
  if negb (nz (Z.land (flags s) VF_ANS_MBOX_FLAG_STARTED)) then Some s
  else
    match pci s with
    | None => Some s
    | Some p =>
      h ← pcis !! p;
      if negb (nz (AnsPci.vf_ans_pci_bus_master_enabled (Some h)))
      then Some (s <| flags := Z.land (flags s) (bnot 32 VF_ANS_MBOX_FLAG_STARTED) |>)
      else Some s
    end.

Definition vf_ans_mbox_flags (pcis : hosts) (s : ptr vf_ans_mbox_v1) : option (Z * ptr vf_ans_mbox_v1) :=
  with_obj 0 s (λ s, s ← ans_mbox_reconcile_started pcis s; Some (flags s, s)).

Definition vf_ans_mbox_bind_pci (pcis : hosts) (s : ptr vf_ans_mbox_v1) (p : ptr Z) :
    option (Z * ptr vf_ans_mbox_v1) :=
  with_obj (-1) s (λ s, s ← ans_mbox_reconcile_started pcis (s <| pci := p |>); Some (0, s)).

Definition vf_ans_mbox_start (pcis : hosts) (s : ptr vf_ans_mbox_v1) :
    option (Z * hosts * ptr vf_ans_mbox_v1) :=
  match s with
  | None => Some (-1, pcis, None)
  | Some d =>
    if negb (status d =? VF_ANS_MBOX_STATUS_BOOTSTRAP) then Some (-1, pcis, s)
    else
      '(rc, pcis) ← match pci d with
        | None => Some (0, pcis)
        | Some p =>
          h ← pcis !! p;
          let '(rc, h) := AnsPci.vf_ans_pci_enable_memory_bus_master (Some h) in
          h ← h;
          let pcis := <[p := h]> pcis in
          if negb (rc =? 0) then Some (-1, pcis)
          else if negb (nz (AnsPci.vf_ans_pci_bus_master_enabled (Some h))) then Some (-1, pcis)
          else Some (0, pcis)
        end;
      if negb (rc =? 0) then Some (-1, pcis, s)
      else
        let d := d <| flags := Z.lor (flags d) VF_ANS_MBOX_FLAG_STARTED |> in
        Some (0, pcis, Some (ans_mbox_post_reply d
          (vf_ans_mbox_pack_msg VF_ANS_MBOX_EP_BOOTSTRAP 0 VF_ANS_MBOX_BOOTSTRAP_OP_ANNOUNCE 0
             VF_ANS_MBOX_STATUS_BOOTSTRAP)))
  end.

Definition vf_ans_mbox_wakeup (pcis : hosts) (s : ptr vf_ans_mbox_v1) :
    option (Z * hosts * ptr vf_ans_mbox_v1) := vf_ans_mbox_start pcis s.

Definition vf_ans_mbox_started (pcis : hosts) (s : ptr vf_ans_mbox_v1) : option (Z * ptr vf_ans_mbox_v1) :=
  with_obj 0 s (λ s,
    s ← ans_mbox_reconcile_started pcis s;
    Some (if nz (Z.land (flags s) VF_ANS_MBOX_FLAG_STARTED) then 1 else 0, s)).

(** The cases of the read: the width a register wants, its value and effect. *)
Definition read_cases (pcis : hosts) (s : vf_ans_mbox_v1) : list (Z * (Z * option (Z * vf_ans_mbox_v1))) := [
  (VF_ANS_MBOX_MMIO_STATUS, (32, Some (status s, s)));
  (VF_ANS_MBOX_MMIO_FLAGS, (32, s ← ans_mbox_reconcile_started pcis s; Some (flags s, s)));
  (VF_ANS_MBOX_MMIO_TIER, (32, Some (VF_ANS_MBOX_TIER_AKF_REGMAP, s)));
  (VF_ANS_MBOX_MMIO_A2I_QSTAT, (32, Some (VF_ANS_MBOX_Q_EMPTY, s)));
  (VF_ANS_MBOX_MMIO_I2A_QSTAT,
    (32, Some (if nz (reply_pending s) then VF_ANS_MBOX_Q_NOT_EMPTY else VF_ANS_MBOX_Q_EMPTY, s)));
  (VF_ANS_MBOX_MMIO_A2I_MSG, (64, Some (0, s)));
  (VF_ANS_MBOX_MMIO_I2A_MSG, (64, Some (i2a_msg s,
     s <| reply_pending := 0 |> <| flags := Z.land (flags s) (bnot 32 VF_ANS_MBOX_FLAG_REPLY_PENDING) |>)))].

Definition vf_ans_mbox_read (pcis : hosts) (s : ptr vf_ans_mbox_v1) (offset width : Z) (value : bool) :
    option (rd_result * ptr vf_ans_mbox_v1) :=
  with_obj (-1, None) s (λ s,
    if negb value then Some ((-1, None), s)
    else if VF_ANS_MBOX_MMIO_SIZE <=? offset then Some ((-1, None), s)
    else
      match switch offset (read_cases pcis s) with
      | None => Some ((-1, None), s)
      | Some (wd, r) =>
        if negb (width =? wd) then Some ((-1, None), s) else '(v, s) ← r; Some ((0, Some v), s)
      end).

Definition vf_ans_mbox_write (pcis : hosts) (s : ptr vf_ans_mbox_v1) (offset width value : Z) :
    option (Z * ptr vf_ans_mbox_v1) :=
  with_obj (-1) s (λ s,
    if negb (offset =? VF_ANS_MBOX_MMIO_A2I_MSG) then Some (-1, s)
    else if negb (width =? 64) then Some (-1, s)
    else
      s ← ans_mbox_reconcile_started pcis (s <| last_a2i_write := value |> <| a2i_write_seen := 1 |>);
      Some (0, if nz (Z.land (flags s) VF_ANS_MBOX_FLAG_STARTED) then ans_mbox_handle_endpoint s value else s)).

(** ** The protocol behind the start gate *)

(** What the mailbox keeps: the outgoing message and whether it waits, whether it was
    started, the last message written to it, and its link.  The messages are those of
    the bootstrap protocol of the SEP mailbox. *)
Record gated := { out : Z; waits : bool; begun : bool; last : option Z; link : ptr Z }.

Definition dormant : gated := {| out := 0; waits := false; begun := false; last := None; link := None |}.

(** A started mailbox whose host stopped mastering the bus is no longer started: it
    finds out when it is next used. *)
Definition settled (masters : gmap Z bool) (g : gated) : gated :=
  match link g with
  | Some p => g <| begun := begun g && default true (masters !! p) |>
  | None => g
  end.

(** [Host p h]: another user of the hosts leaves host [p] as [h]. *)
Inductive mbox_op :=
  | Start | Wakeup | Started | Flags | Bind (p : ptr Z) | Access (c : access) | Host (p : Z) (h : AnsPci.vf_ans_pci_v1 H).

Definition flag_word (g : gated) : Z := 1 + 2 * b2z (begun g) + 4 * b2z (waits g).

Definition mastering (h : AnsPci.vf_ans_pci_v1 H) : bool := Z.testbit (AnsPci.command h) 2.

Definition gated_step (ms : gmap Z bool) (g : gated) (o : mbox_op) : rd_result * gmap Z bool * gated :=
  match o with
  | Start | Wakeup =>
    ((0, None), match link g with Some p => <[p := true]> ms | None => ms end,
     g <| begun := true |> <| out := Sep.announcement |> <| waits := true |>)
  | Started => let g := settled ms g in ((0, Some (b2z (begun g))), ms, g)
  | Flags => let g := settled ms g in ((0, Some (flag_word g)), ms, g)
  | Bind p => ((0, None), ms, settled ms (g <| link := p |>))
  | Access (Wr off width v) =>
    if (off =? 0x18) && (width =? 64) then
      let g := settled ms (g <| last := Some v |>) in
      ((0, None), ms, if begun g then g <| out := Sep.reply_to v |> <| waits := true |> else g)
    else ((-1, None), ms, g)
  | Access (Rd off width) =>
    if width =? 64 then
      if off =? 0x18 then ((0, Some 0), ms, g)
      else if off =? 0x20 then ((0, Some (out g)), ms, g <| waits := false |>)
      else ((-1, None), ms, g)
    else if width =? 32 then
      if off =? 0x04 then let g := settled ms g in ((0, Some (flag_word g)), ms, g)
      else
        match switch off [(0x00, 1); (0x08, 0); (0x10, 2 ^ 17); (0x14, if waits g then 2 ^ 16 else 2 ^ 17)] with
        | Some v => ((0, Some v), ms, g)
        | None => ((-1, None), ms, g)
        end
    else ((-1, None), ms, g)
  | Host p h => ((0, None), <[p := mastering h]> ms, g)
  end.

Fixpoint gated_run (ms : gmap Z bool) (g : gated) (os : list mbox_op) : list rd_result * gmap Z bool * gated :=
  match os with
  | [] => ([], ms, g)
  | o :: os =>
    let '(r, ms, g) := gated_step ms g o in let '(rs, ms, g) := gated_run ms g os in (r :: rs, ms, g)
  end.

(** The mailbox the other way round, on the objects. *)
Definition mbox_step (pcis : hosts) (s : vf_ans_mbox_v1) (o : mbox_op) : option (rd_result * hosts * vf_ans_mbox_v1) :=
  match o with
  | Start => '(rc, pcis, p) ← vf_ans_mbox_start pcis (Some s); s ← p; Some ((rc, None), pcis, s)
  | Wakeup => '(rc, pcis, p) ← vf_ans_mbox_wakeup pcis (Some s); s ← p; Some ((rc, None), pcis, s)
  | Started => '(v, p) ← vf_ans_mbox_started pcis (Some s); s ← p; Some ((0, Some v), pcis, s)
  | Flags => '(v, p) ← vf_ans_mbox_flags pcis (Some s); s ← p; Some ((0, Some v), pcis, s)
  | Bind q => '(rc, p) ← vf_ans_mbox_bind_pci pcis (Some s) q; s ← p; Some ((rc, None), pcis, s)
  | Access (Rd off width) => '(r, p) ← vf_ans_mbox_read pcis (Some s) off width true; s ← p; Some (r, pcis, s)
  | Access (Wr off width v) => '(rc, p) ← vf_ans_mbox_write pcis (Some s) off width v; s ← p; Some ((rc, None), pcis, s)
  | Host p h => Some ((0, None), <[p := h]> pcis, s)
  end.

Fixpoint mbox_run (pcis : hosts) (s : vf_ans_mbox_v1) (os : list mbox_op) :
    option (list rd_result * hosts * vf_ans_mbox_v1) :=
  match os with
  | [] => Some ([], pcis, s)
  | o :: os =>
    '(r, pcis, s) ← mbox_step pcis s o; '(rs, pcis, s) ← mbox_run pcis s os; Some (r :: rs, pcis, s)
  end.

(** The object that stands for a state. *)
Definition object (g : gated) : vf_ans_mbox_v1 := {|
  status := VF_ANS_MBOX_STATUS_BOOTSTRAP; flags := flag_word g; last_a2i_write := default 0 (last g);
  a2i_write_seen := if last g is Some _ then 1 else 0; i2a_msg := out g; reply_pending := b2z (waits g);
  pci := link g |}.

(** Links lead to hosts. *)
Definition linked (ms : gmap Z bool) (p : ptr Z) : Prop :=
  match p with Some p => is_Some (ms !! p) | None => True end.

Fixpoint ops_linked (ms : gmap Z bool) (g : gated) (os : list mbox_op) : Prop :=
  match os with
  | [] => True
  | o :: os =>
    match o with Bind p => linked ms p | _ => True end ∧
    let '(_, ms, g) := gated_step ms g o in ops_linked ms g os
  end.

(** ** Lemmas *)

Lemma mastering_enabled h : nz (AnsPci.vf_ans_pci_bus_master_enabled (Some h)) = mastering h.
Proof.
  unfold AnsPci.vf_ans_pci_bus_master_enabled, AnsPci.VF_ANS_PCI_COMMAND_MASTER, mastering.
  rewrite land_bit_nz by lia. by destruct (Z.testbit _ _).
Qed.

Lemma started_bit g : nz (Z.land (flag_word g) VF_ANS_MBOX_FLAG_STARTED) = begun g.
Proof. unfold flag_word. by destruct (begun g), (waits g). Qed.

Lemma reconcile_object (pcis : hosts) g :
  linked (mastering <$> pcis) (link g) →
  ans_mbox_reconcile_started pcis (object g) = Some (object (settled (mastering <$> pcis) g)).
Proof.
  intros Hl. unfold ans_mbox_reconcile_started, settled. cbn [object flags pci]. rewrite started_bit.
  destruct g as [o w b l [p|]]; cbn [link begun linked] in *; [|by destruct b].
  destruct Hl as [m Hm]. rewrite Hm. rewrite lookup_fmap in Hm. destruct (pcis !! p) as [h|]; [|done].
  injection Hm as <-. cbn [mbind option_bind default]. rewrite mastering_enabled.
  destruct b; cbn [negb andb]; [|done]. destruct (mastering h); [done|]. cbn [negb]. by destruct w.
Qed.

Lemma pack_is_sep e t o p d : vf_ans_mbox_pack_msg e t o p d = Sep.pack_msg e t o p d.
Proof. unfold vf_ans_mbox_pack_msg, Sep.pack_msg. cbn. by rewrite <- !Z.lor_assoc. Qed.

Lemma post_object g m :
  ans_mbox_post_reply (object g) m = object (g <| out := m |> <| waits := true |>).
Proof. by destruct g as [o [] [] l k]. Qed.

Lemma handle_object g v :
  ans_mbox_handle_endpoint (object g) v = object (g <| out := Sep.reply_to v |> <| waits := true |>).
Proof.
  rewrite <- post_object. unfold ans_mbox_handle_endpoint, vf_ans_mbox_unpack_msg. cbn [ep tag op param data].
  pose proof (Sep.land_mask8 v 0 ltac:(lia)) as E0. pose proof (Sep.land_mask8 v 1 ltac:(lia)) as E1.
  pose proof (Sep.land_mask8 v 2 ltac:(lia)) as E2. change (8 * 0) with 0 in E0. rewrite Z.shiftr_0_r in E0.
  change (8 * 1) with 8 in E1. change (8 * 2) with 16 in E2. rewrite E0, E1, E2.
  pose proof (Sep.handle_refines (0, false) v true) as Hs.
  unfold Sep.vf_sep_mailbox_handle_msg, with_obj, Sep.unpack_msg in Hs. cbn [Sep.ep Sep.tag Sep.op Sep.param Sep.data] in Hs.
  rewrite E0, E1, E2 in Hs. cbn [mbind option_bind] in Hs. injection Hs as Hs _.
  rewrite !wrap_id by apply Sep.msg_byte_fits.
  unfold VF_ANS_MBOX_EP_BOOTSTRAP. unfold Sep.VF_SEP_EP_BOOTSTRAP in Hs. rewrite <- Hs.
  destruct (Sep.msg_byte v 0 =? 255); cbn [negb switch default]; [|by rewrite pack_is_sep].
  unfold Sep.VF_SEP_BOOTSTRAP_OP_PING, Sep.VF_SEP_BOOTSTRAP_OP_GET_STATUS, VF_ANS_MBOX_BOOTSTRAP_OP_PING,
    VF_ANS_MBOX_BOOTSTRAP_OP_GET_STATUS.
  destruct (Sep.msg_byte v 2 =? 1); cbn [default]; [by rewrite pack_is_sep|].
  destruct (Sep.msg_byte v 2 =? 2); cbn [default]; by rewrite pack_is_sep.
Qed.

Lemma read_object (pcis : hosts) g off w :
  linked (mastering <$> pcis) (link g) →
  vf_ans_mbox_read pcis (Some (object g)) off w true =
    let '(r, _, g') := gated_step (mastering <$> pcis) g (Access (Rd off w)) in Some (r, Some (object g')).
Proof.
  intros Hl. unfold vf_ans_mbox_read, with_obj. cbn [negb gated_step]. unfold VF_ANS_MBOX_MMIO_SIZE.
  destruct (40 <=? off) eqn:E.
  { cbn [switch]. tests. by split_ifs. }
  unfold read_cases, VF_ANS_MBOX_MMIO_STATUS, VF_ANS_MBOX_MMIO_FLAGS, VF_ANS_MBOX_MMIO_TIER, VF_ANS_MBOX_MMIO_A2I_QSTAT,
    VF_ANS_MBOX_MMIO_I2A_QSTAT, VF_ANS_MBOX_MMIO_A2I_MSG, VF_ANS_MBOX_MMIO_I2A_MSG. cbn [switch].
  rewrite reconcile_object by done. cbn [mbind option_bind].
  destruct (w =? 64) eqn:E64; [apply Z.eqb_eq in E64 as ->|destruct (w =? 32) eqn:E32; [apply Z.eqb_eq in E32 as ->|]];
    cbn [Z.eqb negb]; split_ifs; try lia; try done; cbn [mbind option_bind]; try (by destruct g as [o [] [] l k]).
Qed.

Lemma write_object (pcis : hosts) g off w v :
  linked (mastering <$> pcis) (link g) →
  vf_ans_mbox_write pcis (Some (object g)) off w v =
    let '(r, _, g') := gated_step (mastering <$> pcis) g (Access (Wr off w v)) in Some (r.1, Some (object g')).
Proof.
  intros Hl. unfold vf_ans_mbox_write, with_obj, VF_ANS_MBOX_MMIO_A2I_MSG. cbn [gated_step].
  destruct (off =? 24); cbn [negb andb]; [|done]. destruct (w =? 64); cbn [negb]; [|done].
  set (o := (object g) <| last_a2i_write := v |> <| a2i_write_seen := 1 |>).
  assert (o = object (g <| last := Some v |>)) as -> by (by destruct g). rewrite reconcile_object by (by destruct g).
  cbn [mbind option_bind]. set (g' := settled _ _). rewrite handle_object.
  replace (nz (Z.land (flags (object g')) VF_ANS_MBOX_FLAG_STARTED)) with (begun g') by (symmetry; apply started_bit).
  by destruct (begun g').
Qed.

Lemma start_object (pcis : hosts) g :
  linked (mastering <$> pcis) (link g) →
  ∃ pcis', vf_ans_mbox_start pcis (Some (object g))
      = Some (0, pcis', Some (object (g <| begun := true |> <| out := Sep.announcement |> <| waits := true |>))) ∧
    mastering <$> pcis' = match link g with Some p => <[p := true]> (mastering <$> pcis) | None => mastering <$> pcis end.
Proof.
  intros Hl. unfold vf_ans_mbox_start. change (negb (status (object g) =? _)) with false. cbv iota. cbn [object pci].
  assert (∀ pcis' : hosts,
    Some (0, pcis', Some (ans_mbox_post_reply ((object g) <| flags := Z.lor (flags (object g)) VF_ANS_MBOX_FLAG_STARTED |>)
      (vf_ans_mbox_pack_msg VF_ANS_MBOX_EP_BOOTSTRAP 0 VF_ANS_MBOX_BOOTSTRAP_OP_ANNOUNCE 0 VF_ANS_MBOX_STATUS_BOOTSTRAP)))
    = Some (0, pcis', Some (object (g <| begun := true |> <| out := Sep.announcement |> <| waits := true |>)))) as Hres.
  { intros pcis'. by destruct g as [o [] [] l k]. }
  destruct (link g) as [p|] eqn:El; [|exists pcis; split; [exact (Hres pcis)|done]].
  destruct Hl as [m Hm]. rewrite lookup_fmap in Hm. destruct (pcis !! p) as [h|] eqn:Eh; [|done].
  cbn [mbind option_bind AnsPci.vf_ans_pci_enable_memory_bus_master].
  change (negb (0 =? 0)) with false. cbv iota. rewrite mastering_enabled.
  set (h' := h <| AnsPci.command := _ |>).
  assert (mastering h' = true) as Hm'.
  { unfold mastering, h'. cbn. rewrite wrap_testbit, Z.lor_spec by lia. by rewrite orb_true_r. }
  rewrite Hm'. cbn [mbind option_bind negb]. eexists. split; [exact (Hres _)|]. by rewrite fmap_insert, Hm'.
Qed.

Lemma step_linked ms g o :
  linked ms (link g) → match o with Bind p => linked ms p | _ => True end →
  let '(_, ms', g') := gated_step ms g o in linked ms' (link g').
Proof.
  assert (∀ g' : gated, link (settled ms g') = link g') as Hs.
  { intros g'. unfold settled. by destruct (link g') eqn:E. }
  assert (∀ p b (k : ptr Z), linked ms k → linked (<[p := b]> ms) k) as Hins.
  { intros p b [k|]; cbn; [|done]. intros Hk. apply lookup_insert_is_Some'. by right. }
  intros Hl Ho. destruct o as [| | | |p|[off w|off w v]|p h]; cbn [gated_step]; rewrite ?Hs; try done; auto.
  1,2: destruct (link g) as [q|] eqn:El; cbn; rewrite El; [by apply Hins|done].
  - destruct (switch _ _); split_ifs; cbn [link]; rewrite ?Hs; done.
  - split_ifs; [change (linked ms (link (settled ms (g <| last := Some v |>))))|..]; rewrite ?Hs; done.
Qed.

Lemma mbox_step_object (pcis : hosts) g o :
  linked (mastering <$> pcis) (link g) → match o with Bind p => linked (mastering <$> pcis) p | _ => True end →
  let '(r, ms, g') := gated_step (mastering <$> pcis) g o in
  ∃ pcis', mbox_step pcis (object g) o = Some (r, pcis', object g') ∧ mastering <$> pcis' = ms.
Proof.
  intros Hl Ho.
  destruct o as [| | | |p|[off w|off w v]|p h].
  1,2: cbn [mbox_step gated_step]; unfold vf_ans_mbox_wakeup;
    destruct (start_object pcis g Hl) as (pcis' & -> & Hm); cbn [mbind option_bind]; by exists pcis'.
  - cbn [mbox_step gated_step]. unfold vf_ans_mbox_started, with_obj. rewrite reconcile_object by done. cbn [mbind option_bind].
    exists pcis. split; [|done]. set (g' := settled _ _). change (flags (object g')) with (flag_word g').
    rewrite started_bit. by destruct (begun g').
  - cbn [mbox_step gated_step]. unfold vf_ans_mbox_flags, with_obj. rewrite reconcile_object by done. by exists pcis.
  - cbn [mbox_step gated_step]. unfold vf_ans_mbox_bind_pci, with_obj.
    change ((object g) <| pci := p |>) with (object (g <| link := p |>)). rewrite reconcile_object by done. by exists pcis.
  - cbn [mbox_step]. rewrite read_object by done. destruct (gated_step _ g (Access (Rd off w))) as [[r ms] g'] eqn:E.
    exists pcis. split; [done|]. cbn in E. revert E. split_ifs; try case_match; congruence.
  - cbn [mbox_step]. rewrite write_object by done. destruct (gated_step _ g (Access (Wr off w v))) as [[r ms] g'] eqn:E.
    exists pcis. cbn in E. revert E. split_ifs; intros [= <- <- <-]; done.
  - cbn [mbox_step gated_step]. exists (<[p := h]> pcis). by rewrite fmap_insert.
Qed.

Lemma mbox_run_object (pcis : hosts) g os :
  linked (mastering <$> pcis) (link g) → ops_linked (mastering <$> pcis) g os →
  let '(rs, ms, g') := gated_run (mastering <$> pcis) g os in
  ∃ pcis', mbox_run pcis (object g) os = Some (rs, pcis', object g') ∧ mastering <$> pcis' = ms.
Proof.
  revert pcis g. induction os as [|o os IH]; intros pcis g Hl Hos; cbn [mbox_run gated_run]; [by exists pcis|].
  destruct Hos as [Ho Hos]. pose proof (mbox_step_object pcis g o Hl Ho) as Hs.
  pose proof (step_linked _ g o Hl Ho) as Hl'. destruct (gated_step _ g o) as [[r ms] g1].
  destruct Hs as (pcis1 & -> & <-). cbn [mbind option_bind]. specialize (IH pcis1 g1 Hl' Hos).
  destruct (gated_run _ g1 os) as [[rs ms] g2]. destruct IH as (pcis2 & -> & <-). by exists pcis2.
Qed.

End mailbox.

Arguments mbox_op : clear implicits.

(** ** Properties *)

(** C32. The mailbox refines the bootstrap protocol behind a start gate.  From
    initialisation, for any sequence of starts, queries, bindings and register accesses,
    interleaved with any changes other code makes to the hosts: every answer is that of
    the gate; messages are answered, by the protocol of the SEP mailbox, only while the
    mailbox is started; starting sets bus mastering on the linked host; a linked host
    that stopped mastering ends the started state at the next use; and the status never
    leaves bootstrap. *)
Theorem mbox_refines_gate {H} (pcis : gmap Z (AnsPci.vf_ans_pci_v1 H)) garbage os :
  ops_linked (mastering <$> pcis) dormant os →
  ∃ s0 pcis' s', vf_ans_mbox_init (Some garbage) = (0, Some s0) ∧
    let '(rs, ms, g) := gated_run (mastering <$> pcis) dormant os in
    mbox_run pcis s0 os = Some (rs, pcis', s') ∧ mastering <$> pcis' = ms ∧ s' = object g.
Proof.
  intros Hos. pose proof (mbox_run_object pcis dormant os I Hos) as Hr.
  destruct (gated_run _ dormant os) as [[rs ms] g]. destruct Hr as (pcis' & Hr & Hm).
  by exists (object dormant), pcis', (object g).
Qed.

(** One host; a ping before and after the start, and after the host is reset. *)
Definition sample_hosts : gmap Z (AnsPci.vf_ans_pci_v1 Z) := {[3 := AnsPci.vf_ans_pci_cold Z]}.
Definition sample_mbox_ops : list (mbox_op Z) :=
  [Bind (Some 3); Access (Wr 0x18 64 0x105ff); Start; Access (Rd 0x20 64); Access (Wr 0x18 64 0x105ff);
   Access (Rd 0x20 64); Host 3 (AnsPci.vf_ans_pci_cold Z); Started].

Lemma mbox_refines_gate_witness :
  ∃ s0 pcis' s', vf_ans_mbox_init (Some (object dormant)) = (0, Some s0) ∧
    let '(rs, ms, g) := gated_run (mastering <$> sample_hosts) dormant sample_mbox_ops in
    mbox_run sample_hosts s0 sample_mbox_ops = Some (rs, pcis', s') ∧ mastering <$> pcis' = ms ∧ s' = object g.
Proof.
  apply (mbox_refines_gate sample_hosts (object dormant) sample_mbox_ops). vm_compute. repeat split. by eexists.
Defined.

End AnsMbox.
