(* ===== verification/Ascwrap.v ===== *)
(** The coprocessor wrapper of the storage controller, [devices/ascwrap_v1.c] and
    [ascwrap_v1.h].

    State: the status and flag words, the last write to the core window, and an
    optional link to a mailbox.  The flag [READY] mirrors whether the linked mailbox is
    started, and asking the mailbox can change it; mailboxes and PCI hosts are maps
    from addresses to objects, passed along. *)
From S2P Require Import Prelude.
From S2P Require Import Words.
From S2P Require Import Mmio.
From S2P Require Import AnsPci.
From S2P Require Import AnsMbox.

Module Ascwrap.

Definition VF_ASCWRAP_TIER_CORE_MAP := 1.
Definition VF_ASCWRAP_STATUS_ABSENT := 0.
Definition VF_ASCWRAP_STATUS_BOOTSTRAP := 1.
Definition VF_ASCWRAP_FLAG_PRESENT := Z.shiftl 1 0.
Definition VF_ASCWRAP_FLAG_READY := Z.shiftl 1 1.
Definition VF_ASCWRAP_MMIO_STATUS := 0x000.
Definition VF_ASCWRAP_MMIO_FLAGS := 0x004.
Definition VF_ASCWRAP_MMIO_TIER := 0x008.
Definition VF_ASCWRAP_MMIO_CORE := 0x010.
Definition VF_ASCWRAP_MMIO_SIZE := 0x018.

Record vf_ascwrap_v1 := {
  status : Z;
  flags : Z;
  last_core_write : Z;
  core_write_seen : Z;
  mbox : ptr Z;
}.

Definition vf_ascwrap_init (s : ptr vf_ascwrap_v1) : Z * ptr vf_ascwrap_v1 :=
  match s with
  | None => (-1, None)
  | Some _ =>
    (0, Some {| status := VF_ASCWRAP_STATUS_BOOTSTRAP; flags := VF_ASCWRAP_FLAG_PRESENT; last_core_write := 0;
                core_write_seen := 0; mbox := None |})
  end.

Definition vf_ascwrap_status (s : ptr vf_ascwrap_v1) : Z :=
  match s with Some s => status s | None => VF_ASCWRAP_STATUS_ABSENT end.
Definition vf_ascwrap_core_write_seen (s : ptr vf_ascwrap_v1) : Z :=
  match s with Some s => b2z (nz (core_write_seen s)) | None => 0 end.
Definition vf_ascwrap_last_core_write (s : ptr vf_ascwrap_v1) : Z :=
  match s with Some s => last_core_write s | None => 0 end.

Definition vf_ascwrap_write (s : ptr vf_ascwrap_v1) (offset width value : Z) : Z * ptr vf_ascwrap_v1 :=
  match s with
  | None => (-1, None)
  | Some d =>
    if negb (offset =? VF_ASCWRAP_MMIO_CORE) then (-1, s)
    else if negb (width =? 64) then (-1, s)
    else (0, Some (d <| last_core_write := value |> <| core_write_seen := 1 |>))
  end.

Section wrapper.
Context {H : Type}.
Abbreviation hosts := (gmap Z (AnsPci.vf_ans_pci_v1 H)).
Abbreviation mailboxes := (gmap Z AnsMbox.vf_ans_mbox_v1).

(** [None]: a link dangles. *)
Definition ascwrap_reconcile_ready (pcis : hosts) (mboxes : mailboxes) (s : vf_ascwrap_v1) :
    option (mailboxes * vf_ascwrap_v1) :=
  match mbox s with
  | None => Some (mboxes, s <| flags := Z.land (flags s) (bnot 32 VF_ASCWRAP_FLAG_READY) |>)
  | Some x =>
    b ← mboxes !! x;
    '(started, b) ← AnsMbox.vf_ans_mbox_started pcis (Some b);
    b ← b;
    let mboxes := <[x := b]> mboxes in
    if nz started then Some (mboxes, s <| flags := Z.lor (flags s) VF_ASCWRAP_FLAG_READY |>)
    else Some (mboxes, s <| flags := Z.land (flags s) (bnot 32 VF_ASCWRAP_FLAG_READY) |>)
  end.

Definition vf_ascwrap_flags (pcis : hosts) (mboxes : mailboxes) (s : ptr vf_ascwrap_v1) :
    option (Z * mailboxes * ptr vf_ascwrap_v1) :=
  match s with
  | None => Some (0, mboxes, None)
  | Some s => '(mboxes, s) ← ascwrap_reconcile_ready pcis mboxes s; Some (flags s, mboxes, Some s)
  end.

Definition vf_ascwrap_bind_mbox (pcis : hosts) (mboxes : mailboxes) (s : ptr vf_ascwrap_v1) (x : ptr Z) :
    option (Z * mailboxes * ptr vf_ascwrap_v1) :=
  match s with
  | None => Some (-1, mboxes, None)
  | Some s => '(mboxes, s) ← ascwrap_reconcile_ready pcis mboxes (s <| mbox := x |>); Some (0, mboxes, Some s)
  end.

Definition vf_ascwrap_ready (pcis : hosts) (mboxes : mailboxes) (s : ptr vf_ascwrap_v1) :
    option (Z * mailboxes * ptr vf_ascwrap_v1) :=
  match s with
  | None => Some (0, mboxes, None)
  | Some s =>
    '(mboxes, s) ← ascwrap_reconcile_ready pcis mboxes s;
    Some (if nz (Z.land (flags s) VF_ASCWRAP_FLAG_READY) then 1 else 0, mboxes, Some s)
  end.

(** The cases of the read: the width a register wants, its value and effect. *)
Definition read_cases (pcis : hosts) (mboxes : mailboxes) (s : vf_ascwrap_v1) :
    list (Z * (Z * option (Z * mailboxes * vf_ascwrap_v1))) := [
  (VF_ASCWRAP_MMIO_STATUS, (32, Some (status s, mboxes, s)));
  (VF_ASCWRAP_MMIO_FLAGS,
    (32, '(mboxes, s) ← ascwrap_reconcile_ready pcis mboxes s; Some (flags s, mboxes, s)));
  (VF_ASCWRAP_MMIO_TIER, (32, Some (VF_ASCWRAP_TIER_CORE_MAP, mboxes, s)));
  (VF_ASCWRAP_MMIO_CORE, (64, Some (0, mboxes, s)))].

Definition vf_ascwrap_read (pcis : hosts) (mboxes : mailboxes) (s : ptr vf_ascwrap_v1) (offset width : Z)
    (value : bool) : option (rd_result * mailboxes * ptr vf_ascwrap_v1) :=
  match s with
  | None => Some ((-1, None), mboxes, None)
  | Some d =>
    if negb value then Some ((-1, None), mboxes, s)
    else if VF_ASCWRAP_MMIO_SIZE <=? offset then Some ((-1, None), mboxes, s)
    else
      match switch offset (read_cases pcis mboxes d) with
      | None => Some ((-1, None), mboxes, s)
      | Some (wd, r) =>
        if negb (width =? wd) then Some ((-1, None), mboxes, s)
        else '(v, mboxes, d) ← r; Some ((0, Some v), mboxes, Some d)
      end
  end.

(** ** Readiness *)

(** Whether mailbox [x] is started, and its host, if it has one, masters the bus. *)
Definition mbox_live (pcis : hosts) (b : AnsMbox.vf_ans_mbox_v1) : bool :=
  Z.testbit (AnsMbox.flags b) 1 &&
  match AnsMbox.pci b with
  | Some p => match pcis !! p with Some h => AnsMbox.mastering h | None => false end
  | None => true
  end.

Definition wrap_live (pcis : hosts) (mboxes : mailboxes) (s : vf_ascwrap_v1) : bool :=
  match mbox s with
  | Some x => match mboxes !! x with Some b => mbox_live pcis b | None => false end
  | None => false
  end.

(** No link dangles. *)
Definition mbox_closed (pcis : hosts) (b : AnsMbox.vf_ans_mbox_v1) : Prop :=
  match AnsMbox.pci b with Some p => is_Some (pcis !! p) | None => True end.
Definition mboxes_closed (pcis : hosts) (mboxes : mailboxes) : Prop := map_Forall (λ _, mbox_closed pcis) mboxes.
Definition wrap_closed (mboxes : mailboxes) (s : vf_ascwrap_v1) : Prop :=
  match mbox s with Some x => is_Some (mboxes !! x) | None => True end.

(** Setting or clearing flag [n] to [v]. *)
Definition flag_put (n : Z) (v : bool) (w : Z) : Z :=
  if v then Z.lor w (Z.shiftl 1 n) else Z.land w (bnot 32 (Z.shiftl 1 n)).

Lemma flag_put_bit n v w : 0 ≤ n < 32 → nz (Z.land (flag_put n v w) (Z.shiftl 1 n)) = v.
Proof.
  intros Hn. rewrite land_bit_nz by lia. destruct v; cbn [flag_put].
  - by rewrite lor_bit_testbit, bool_decide_true, orb_true_r by lia.
  - rewrite Z.land_spec, bnot_testbit, bit_testbit, !bool_decide_true by lia. apply andb_false_r.
Qed.

(** What a mailbox is after it was asked. *)
Definition asked (pcis : hosts) (b : AnsMbox.vf_ans_mbox_v1) : AnsMbox.vf_ans_mbox_v1 :=
  if Z.testbit (AnsMbox.flags b) 1 && negb (mbox_live pcis b)
  then b <| AnsMbox.flags := flag_put 1 false (AnsMbox.flags b) |> else b.

Lemma started_asked (pcis : hosts) b :
  mbox_closed pcis b → AnsMbox.vf_ans_mbox_started pcis (Some b) = Some (b2z (mbox_live pcis b), Some (asked pcis b)).
Proof.
  intros Hb. unfold AnsMbox.vf_ans_mbox_started, with_obj, AnsMbox.ans_mbox_reconcile_started, asked, mbox_live,
    AnsMbox.VF_ANS_MBOX_FLAG_STARTED.
  rewrite land_bit_nz by lia. destruct (Z.testbit (AnsMbox.flags b) 1) eqn:E; cbn [negb andb].
  - unfold mbox_closed in Hb. destruct (AnsMbox.pci b) as [p|].
    + destruct Hb as [h Hh]. rewrite Hh. cbn [mbind option_bind]. rewrite AnsMbox.mastering_enabled.
      destruct (AnsMbox.mastering h); cbn [negb mbind option_bind].
      * rewrite land_bit_nz by lia. by rewrite E.
      * change (Z.land (AnsMbox.flags b) (bnot 32 (Z.shiftl 1 1))) with (flag_put 1 false (AnsMbox.flags b)).
        set (b' := b <| AnsMbox.flags := _ |>). change (AnsMbox.flags b') with (flag_put 1 false (AnsMbox.flags b)).
        by rewrite flag_put_bit by lia.
    + cbn [mbind option_bind]. rewrite land_bit_nz by lia. by rewrite E.
  - cbn [mbind option_bind]. rewrite land_bit_nz by lia. by rewrite E.
Qed.

Lemma asked_closed (pcis : hosts) b : mbox_closed pcis b → mbox_closed pcis (asked pcis b).
Proof. unfold asked. by destruct (_ && _). Qed.

Lemma asked_live (pcis : hosts) b : mbox_live pcis (asked pcis b) = mbox_live pcis b.
Proof.
  unfold asked. destruct (_ && _) eqn:E; [|done]. apply andb_true_iff in E as [_ E].
  apply negb_true_iff in E. rewrite E. unfold mbox_live at 1. apply andb_false_iff. left.
  rewrite <- land_bit_nz by lia. apply (flag_put_bit 1 false). lia.
Qed.

(** Asking any mailbox changes no answer. *)
Lemma asked_wrap_live (pcis : hosts) (mboxes : mailboxes) x b s :
  mboxes !! x = Some b → wrap_live pcis (<[x := asked pcis b]> mboxes) s = wrap_live pcis mboxes s.
Proof.
  intros Hx. unfold wrap_live. destruct (mbox s) as [y|]; [|done].
  destruct (decide (x = y)) as [<-|Hne]; [|by rewrite lookup_insert_ne].
  by rewrite lookup_insert_eq, Hx, asked_live.
Qed.

Lemma asked_mboxes_closed (pcis : hosts) (mboxes : mailboxes) x b :
  mboxes_closed pcis mboxes → mboxes !! x = Some b → mboxes_closed pcis (<[x := asked pcis b]> mboxes).
Proof. intros Hc Hx. apply map_Forall_insert_2; [|done]. by apply asked_closed, (Hc x). Qed.

Lemma reconcile_ready_ok (pcis : hosts) (mboxes : mailboxes) s :
  mboxes_closed pcis mboxes → wrap_closed mboxes s →
  ∃ mboxes', ascwrap_reconcile_ready pcis mboxes s
      = Some (mboxes', s <| flags := flag_put 1 (wrap_live pcis mboxes s) (flags s) |>) ∧
    mboxes_closed pcis mboxes' ∧ (∀ y, is_Some (mboxes' !! y) ↔ is_Some (mboxes !! y)) ∧
    ∀ s', wrap_live pcis mboxes' s' = wrap_live pcis mboxes s'.
Proof.
  intros Hc Hs. unfold ascwrap_reconcile_ready, wrap_closed, VF_ASCWRAP_FLAG_READY in *.
  destruct (mbox s) as [x|] eqn:Ex.
  - destruct Hs as [b Hb]. rewrite Hb. cbn [mbind option_bind]. rewrite started_asked by (by apply (Hc x)).
    cbn [mbind option_bind]. assert (wrap_live pcis mboxes s = mbox_live pcis b) as -> by (unfold wrap_live; by rewrite Ex, Hb).
    exists (<[x := asked pcis b]> mboxes). split; [by destruct (mbox_live pcis b)|].
    split; [by apply asked_mboxes_closed|]. split; [|intros s'; by apply asked_wrap_live].
    intros y. rewrite lookup_insert_is_Some'. split; [|by right]. by intros [<-|].
  - exists mboxes. unfold wrap_live at 1. by rewrite Ex.
Qed.

Lemma ready_ok (pcis : hosts) (mboxes : mailboxes) s :
  mboxes_closed pcis mboxes → wrap_closed mboxes s →
  ∃ mboxes', vf_ascwrap_ready pcis mboxes (Some s)
      = Some (b2z (wrap_live pcis mboxes s), mboxes', Some (s <| flags := flag_put 1 (wrap_live pcis mboxes s) (flags s) |>)) ∧
    mboxes_closed pcis mboxes' ∧ (∀ y, is_Some (mboxes' !! y) ↔ is_Some (mboxes !! y)) ∧
    ∀ s', wrap_live pcis mboxes' s' = wrap_live pcis mboxes s'.
Proof.
  intros Hc Hs. destruct (reconcile_ready_ok pcis mboxes s Hc Hs) as (mboxes' & Hr & H'). exists mboxes'. split; [|done].
  unfold vf_ascwrap_ready. rewrite Hr. cbn [mbind option_bind]. set (s' := s <| flags := _ |>).
  change (flags s') with (flag_put 1 (wrap_live pcis mboxes s) (flags s)). unfold VF_ASCWRAP_FLAG_READY.
  by rewrite flag_put_bit by lia.
Qed.

End wrapper.

End Ascwrap.
