(* ===== verification/AnsAutoboot.v ===== *)
(** The bootstrap window of the storage controller, [devices/ans_autoboot_v1.c] and
    [ans_autoboot_v1.h].

    State: the status and flag words, the last write to the window, and an optional
    link to a wrapper.  The flag [ARMED] mirrors the readiness of the wrapper, which
    mirrors the mailbox, which depends on the PCI host: asking walks the chain, and
    brings every flag on it up to date.  The objects are maps from addresses, passed
    along. *)
From S2P Require Import Prelude.
From S2P Require Import Words.
From S2P Require Import Mmio.
From S2P Require Import AnsPci.
From S2P Require Import AnsMbox.
From S2P Require Import Ascwrap.

Module AnsAutoboot.

Definition VF_ANS_AUTOBOOT_TIER_REGMAP := 2.
Definition VF_ANS_AUTOBOOT_STATUS_ABSENT := 0.
Definition VF_ANS_AUTOBOOT_STATUS_BOOTSTRAP := 1.
Definition VF_ANS_AUTOBOOT_FLAG_PRESENT := Z.shiftl 1 0.
Definition VF_ANS_AUTOBOOT_FLAG_ARMED := Z.shiftl 1 1.
Definition VF_ANS_AUTOBOOT_MMIO_STATUS := 0x000.
Definition VF_ANS_AUTOBOOT_MMIO_FLAGS := 0x004.
Definition VF_ANS_AUTOBOOT_MMIO_TIER := 0x008.
Definition VF_ANS_AUTOBOOT_MMIO_MAP := 0x010.
Definition VF_ANS_AUTOBOOT_MMIO_SIZE := 0x018.

Record vf_ans_autoboot_v1 := {
  status : Z;
  flags : Z;
  last_autoboot_write : Z;
  autoboot_write_seen : Z;
  ascwrap : ptr Z;
}.

Definition vf_ans_autoboot_init (s : ptr vf_ans_autoboot_v1) : Z * ptr vf_ans_autoboot_v1 :=
  match s with
  | None => (-1, None)
  | Some _ =>
    (0, Some {| status := VF_ANS_AUTOBOOT_STATUS_BOOTSTRAP; flags := VF_ANS_AUTOBOOT_FLAG_PRESENT;
                last_autoboot_write := 0; autoboot_write_seen := 0; ascwrap := None |})
  end.

Definition vf_ans_autoboot_status (s : ptr vf_ans_autoboot_v1) : Z :=
  match s with Some s => status s | None => VF_ANS_AUTOBOOT_STATUS_ABSENT end.
Definition vf_ans_autoboot_write_seen (s : ptr vf_ans_autoboot_v1) : Z :=
  match s with Some s => b2z (nz (autoboot_write_seen s)) | None => 0 end.
Definition vf_ans_autoboot_last_write (s : ptr vf_ans_autoboot_v1) : Z :=
  match s with Some s => last_autoboot_write s | None => 0 end.

(** The objects a bootstrap window can reach. *)
Record chain {H : Type} := {
  pcis : gmap Z (AnsPci.vf_ans_pci_v1 H);
  mboxes : gmap Z AnsMbox.vf_ans_mbox_v1;
  wraps : gmap Z Ascwrap.vf_ascwrap_v1;
}.
Arguments chain : clear implicits.

Section window.
Context {H : Type}.

(** [None]: a link dangles. *)
Definition ans_autoboot_reconcile_armed (c : chain H) (s : vf_ans_autoboot_v1) :
    option (chain H * vf_ans_autoboot_v1) :=
  match ascwrap s with
  | None => Some (c, s <| flags := Z.land (flags s) (bnot 32 VF_ANS_AUTOBOOT_FLAG_ARMED) |>)
  | Some x =>
    a ← wraps c !! x;
    '(ready, mboxes, a) ← Ascwrap.vf_ascwrap_ready (pcis c) (mboxes c) (Some a);
    a ← a;
    let c := c <| AnsAutoboot.mboxes := mboxes |> <| wraps := <[x := a]> (wraps c) |> in
    if nz ready then Some (c, s <| flags := Z.lor (flags s) VF_ANS_AUTOBOOT_FLAG_ARMED |>)
    else Some (c, s <| flags := Z.land (flags s) (bnot 32 VF_ANS_AUTOBOOT_FLAG_ARMED) |>)
  end.

Definition vf_ans_autoboot_flags (c : chain H) (s : ptr vf_ans_autoboot_v1) :
    option (Z * chain H * ptr vf_ans_autoboot_v1) :=
  match s with
  | None => Some (0, c, None)
  | Some s => '(c, s) ← ans_autoboot_reconcile_armed c s; Some (flags s, c, Some s)
  end.

Definition vf_ans_autoboot_bind_ascwrap (c : chain H) (s : ptr vf_ans_autoboot_v1) (x : ptr Z) :
    option (Z * chain H * ptr vf_ans_autoboot_v1) :=
  match s with
  | None => Some (-1, c, None)
  | Some s => '(c, s) ← ans_autoboot_reconcile_armed c (s <| ascwrap := x |>); Some (0, c, Some s)
  end.

Definition vf_ans_autoboot_armed (c : chain H) (s : ptr vf_ans_autoboot_v1) :
    option (Z * chain H * ptr vf_ans_autoboot_v1) :=
  match s with
  | None => Some (0, c, None)
  | Some s =>
    '(c, s) ← ans_autoboot_reconcile_armed c s;
    Some (if nz (Z.land (flags s) VF_ANS_AUTOBOOT_FLAG_ARMED) then 1 else 0, c, Some s)
  end.

(** The cases of the read: the width a register wants, its value and effect. *)
Definition read_cases (c : chain H) (s : vf_ans_autoboot_v1) :
    list (Z * (Z * option (Z * chain H * vf_ans_autoboot_v1))) := [
  (VF_ANS_AUTOBOOT_MMIO_STATUS, (32, Some (status s, c, s)));
  (VF_ANS_AUTOBOOT_MMIO_FLAGS, (32, '(c, s) ← ans_autoboot_reconcile_armed c s; Some (flags s, c, s)));
  (VF_ANS_AUTOBOOT_MMIO_TIER, (32, Some (VF_ANS_AUTOBOOT_TIER_REGMAP, c, s)));
  (VF_ANS_AUTOBOOT_MMIO_MAP, (64, Some (0, c, s)))].

Definition vf_ans_autoboot_read (c : chain H) (s : ptr vf_ans_autoboot_v1) (offset width : Z) (value : bool) :
    option (rd_result * chain H * ptr vf_ans_autoboot_v1) :=
  match s with
  | None => Some ((-1, None), c, None)
  | Some d =>
    if negb value then Some ((-1, None), c, s)
    else if VF_ANS_AUTOBOOT_MMIO_SIZE <=? offset then Some ((-1, None), c, s)
    else
      match switch offset (read_cases c d) with
      | None => Some ((-1, None), c, s)
      | Some (wd, r) =>
        if negb (width =? wd) then Some ((-1, None), c, s)
        else '(v, c, d) ← r; Some ((0, Some v), c, Some d)
      end
  end.

Definition vf_ans_autoboot_write (c : chain H) (s : ptr vf_ans_autoboot_v1) (offset width value : Z) :
    option (Z * chain H * ptr vf_ans_autoboot_v1) :=
  match s with
  | None => Some (-1, c, None)
  | Some d =>
    if negb (offset =? VF_ANS_AUTOBOOT_MMIO_MAP) then Some (-1, c, s)
    else if negb (width =? 64) then Some (-1, c, s)
    else
      '(ok, c, d) ← match ascwrap d with
        | Some _ =>
          '(c, d) ← ans_autoboot_reconcile_armed c d;
          Some (nz (Z.land (flags d) VF_ANS_AUTOBOOT_FLAG_ARMED), c, d)
        | None => Some (true, c, d)
        end;
      if negb ok then Some (-1, c, Some d)
      else Some (0, c, Some (d <| last_autoboot_write := value |> <| autoboot_write_seen := 1 |>))
  end.

(** ** Arming *)

Definition boot_live (c : chain H) (s : vf_ans_autoboot_v1) : bool :=
  match ascwrap s with
  | Some x => match wraps c !! x with Some a => Ascwrap.wrap_live (pcis c) (mboxes c) a | None => false end
  | None => false
  end.

Definition boot_closed (c : chain H) (s : vf_ans_autoboot_v1) : Prop :=
  match ascwrap s with Some x => is_Some (wraps c !! x) | None => True end.

(** No link dangles. *)
Record chain_closed (c : chain H) : Prop := {
  cc_mboxes : Ascwrap.mboxes_closed (pcis c) (mboxes c);
  cc_wraps : map_Forall (λ _, Ascwrap.wrap_closed (mboxes c)) (wraps c);
}.

(** What asking a part may leave of the objects: the hosts, which links there are, and
    every answer. *)
Record chain_same (c c' : chain H) : Prop := {
  cs_pcis : pcis c' = pcis c;
  cs_mboxes x : is_Some (mboxes c' !! x) ↔ is_Some (mboxes c !! x);
  cs_wraps x : is_Some (wraps c' !! x) ↔ is_Some (wraps c !! x);
  cs_boot s : boot_live c' s = boot_live c s;
  cs_wrap a : Ascwrap.wrap_live (pcis c') (mboxes c') a = Ascwrap.wrap_live (pcis c) (mboxes c) a;
}.

Lemma chain_same_refl c : chain_same c c.
Proof. done. Qed.

Lemma chain_same_trans c1 c2 c3 : chain_same c1 c2 → chain_same c2 c3 → chain_same c1 c3.
Proof.
  intros [P1 M1 W1 B1 A1] [P2 M2 W2 B2 A2]. constructor; intros; first [by rewrite P2|by rewrite M2|by rewrite W2|
    by rewrite B2|by rewrite A2].
Qed.

(** Replacing a wrapper by itself with another flag word. *)
Lemma wrap_flags_same c x a w mboxes' :
  chain_closed c → wraps c !! x = Some a → Ascwrap.mboxes_closed (pcis c) mboxes' →
  (∀ y, is_Some (mboxes' !! y) ↔ is_Some (mboxes c !! y)) →
  (∀ s', Ascwrap.wrap_live (pcis c) mboxes' s' = Ascwrap.wrap_live (pcis c) (mboxes c) s') →
  let c' := c <| mboxes := mboxes' |> <| wraps := <[x := a <| Ascwrap.flags := w |>]> (wraps c) |> in
  chain_closed c' ∧ chain_same c c'.
Proof.
  intros [Hm Hw] Hx Hc Hdom Hlive c'. split; constructor; try done.
  - apply map_Forall_insert_2.
    + specialize (Hw x a Hx). unfold Ascwrap.wrap_closed in *. cbn. destruct (Ascwrap.mbox a); [|done].
      change (is_Some (mboxes' !! z)). by rewrite Hdom.
    + intros y b Hy. specialize (Hw y b Hy). unfold Ascwrap.wrap_closed in *. destruct (Ascwrap.mbox b); [|done].
      change (is_Some (mboxes' !! z)). by rewrite Hdom.
  - intros y. cbn. rewrite lookup_insert_is_Some'. split; [|by right]. by intros [<-|].
  - intros s. unfold boot_live. destruct (ascwrap s) as [y|]; [|done]. cbn.
    destruct (decide (x = y)) as [<-|Hne].
    + rewrite lookup_insert_eq, Hx. cbn. rewrite <- Hlive. done.
    + rewrite lookup_insert_ne by done. destruct (wraps c !! y); [|done]. apply Hlive.
Qed.

Lemma reconcile_armed_ok c s :
  chain_closed c → boot_closed c s →
  ∃ c', ans_autoboot_reconcile_armed c s
      = Some (c', s <| flags := Ascwrap.flag_put 1 (boot_live c s) (flags s) |>) ∧ chain_closed c' ∧ chain_same c c'.
Proof.
  intros Hc Hs. unfold ans_autoboot_reconcile_armed, boot_closed, VF_ANS_AUTOBOOT_FLAG_ARMED in *.
  destruct (ascwrap s) as [x|] eqn:Ex.
  - destruct Hs as [a Ha]. rewrite Ha. cbn [mbind option_bind].
    destruct (Ascwrap.ready_ok (pcis c) (mboxes c) a) as (mboxes' & -> & Hm & Hdom & Hlive);
      [apply Hc|by apply (cc_wraps c Hc x)|].
    cbn [mbind option_bind]. assert (boot_live c s = Ascwrap.wrap_live (pcis c) (mboxes c) a) as ->
      by (unfold boot_live; by rewrite Ex, Ha).
    pose proof (wrap_flags_same c x a (Ascwrap.flag_put 1 (Ascwrap.wrap_live (pcis c) (mboxes c) a) (Ascwrap.flags a)) mboxes' Hc Ha Hm Hdom Hlive) as [Hcl Hsame].
    eexists. split; [|by split]. by destruct (Ascwrap.wrap_live _ _ a).
  - exists c. unfold boot_live. by rewrite Ex.
Qed.

Lemma armed_bit s v :
  (if nz (Z.land (flags (s <| flags := Ascwrap.flag_put 1 v (flags s) |>)) VF_ANS_AUTOBOOT_FLAG_ARMED) then 1 else 0) = b2z v.
Proof.
  change (flags _) with (Ascwrap.flag_put 1 v (flags s)). unfold VF_ANS_AUTOBOOT_FLAG_ARMED.
  rewrite Ascwrap.flag_put_bit by lia. done.
Qed.

Lemma armed_ok c s :
  chain_closed c → boot_closed c s →
  ∃ c', vf_ans_autoboot_armed c (Some s)
      = Some (b2z (boot_live c s), c', Some (s <| flags := Ascwrap.flag_put 1 (boot_live c s) (flags s) |>)) ∧
    chain_closed c' ∧ chain_same c c'.
Proof.
  intros Hc Hs. destruct (reconcile_armed_ok c s Hc Hs) as (c' & Hr & H'). exists c'. split; [|done].
  unfold vf_ans_autoboot_armed. rewrite Hr. cbn [mbind option_bind]. by rewrite armed_bit.
Qed.

End window.

(** ** Properties *)

(** The start gate reaches through the whole chain: the window accepts a write
    exactly when it is not bound, or when it is bound to a wrapper bound to a mailbox
    that is started and whose PCI host, if it has one, masters the bus.  An accepted
    write is recorded; a refused one leaves the record; either way the hosts are
    untouched and no answer of the chain changes. *)
Theorem autoboot_gate {H} (c : chain H) s v :
  chain_closed c → boot_closed c s →
  let live := match ascwrap s with
    | Some x => ∃ a y b, wraps c !! x = Some a ∧ Ascwrap.mbox a = Some y ∧ mboxes c !! y = Some b ∧
        Z.testbit (AnsMbox.flags b) 1 = true ∧
        (∀ p, AnsMbox.pci b = Some p → ∃ h, pcis c !! p = Some h ∧ Z.testbit (AnsPci.command h) 2 = true)
    | None => True
    end in
  ∃ rc c' s', vf_ans_autoboot_write c (Some s) VF_ANS_AUTOBOOT_MMIO_MAP 64 v = Some (rc, c', Some s') ∧
    (rc = 0 ∨ rc = -1) ∧ (rc = 0 ↔ live) ∧ chain_same c c' ∧
    last_autoboot_write s' = (if rc =? 0 then v else last_autoboot_write s) ∧
    autoboot_write_seen s' = (if rc =? 0 then 1 else autoboot_write_seen s).
Proof.
  intros Hc Hs live. unfold vf_ans_autoboot_write. change (negb (_ =? VF_ANS_AUTOBOOT_MMIO_MAP)) with false.
  change (negb (64 =? 64)) with false. cbv iota.
  destruct (ascwrap s) as [x|] eqn:Ex; cbn [mbind option_bind].
  - destruct (reconcile_armed_ok c s Hc Hs) as (c' & -> & Hc' & Hsame). cbn [mbind option_bind].
    pose proof (armed_bit s (boot_live c s)) as Hb. set (s' := s <| flags := _ |>) in *.
    assert (nz (Z.land (flags s') VF_ANS_AUTOBOOT_FLAG_ARMED) = boot_live c s) as -> by
      (revert Hb; destruct (nz _), (boot_live c s); cbn; done).
    assert (boot_live c s = true ↔ live) as Hl.
    { subst live. unfold boot_live. rewrite Ex. split.
      - destruct (wraps c !! x) as [a|] eqn:Ea; [|done]. unfold Ascwrap.wrap_live.
        destruct (Ascwrap.mbox a) as [y|] eqn:Ey; [|done]. destruct (mboxes c !! y) as [b|] eqn:Eb; [|done].
        unfold Ascwrap.mbox_live. rewrite andb_true_iff. intros [H1 H2]. exists a, y, b. split_and!; try done.
        intros p Hp. rewrite Hp in H2. destruct (pcis c !! p) as [h|]; [|done]. by exists h.
      - intros (a & y & b & -> & Ey & Eb & H1 & H2). unfold Ascwrap.wrap_live. rewrite Ey, Eb. unfold Ascwrap.mbox_live.
        rewrite H1. destruct (AnsMbox.pci b) as [p|]; [|done]. destruct (H2 p eq_refl) as (h & -> & Hh). exact Hh. }
    destruct (boot_live c s); cbn [negb]; eexists _, _, _; (split; [reflexivity|]); split_and!; try done;
      try (by left); try (by right); rewrite <- Hl; done.
  - eexists _, _, _. split; [reflexivity|]. split_and!; try done; by left.
Qed.

(** The whole chain, started. *)
Definition sample_chain : chain Z := {|
  pcis := {[3 := (AnsPci.vf_ans_pci_cold Z) <| AnsPci.command := 6 |>]};
  mboxes := {[4 := {| AnsMbox.status := 1; AnsMbox.flags := 3; AnsMbox.last_a2i_write := 0; AnsMbox.a2i_write_seen := 0;
                      AnsMbox.i2a_msg := 0; AnsMbox.reply_pending := 0; AnsMbox.pci := Some 3 |}]};
  wraps := {[5 := {| Ascwrap.status := 1; Ascwrap.flags := 1; Ascwrap.last_core_write := 0;
                     Ascwrap.core_write_seen := 0; Ascwrap.mbox := Some 4 |}]} |}.
Definition sample_boot : vf_ans_autoboot_v1 :=
  {| status := 1; flags := 1; last_autoboot_write := 0; autoboot_write_seen := 0; ascwrap := Some 5 |}.

Lemma sample_closed : chain_closed sample_chain.
Proof. constructor; apply map_Forall_singleton; by eexists. Qed.

Lemma autoboot_gate_witness :
  ∃ rc c' s', vf_ans_autoboot_write sample_chain (Some sample_boot) VF_ANS_AUTOBOOT_MMIO_MAP 64 7 = Some (rc, c', Some s') ∧
    (rc = 0 ∨ rc = -1) ∧
    (rc = 0 ↔ ∃ a y b, wraps sample_chain !! 5 = Some a ∧ Ascwrap.mbox a = Some y ∧ mboxes sample_chain !! y = Some b ∧
        Z.testbit (AnsMbox.flags b) 1 = true ∧
        (∀ p, AnsMbox.pci b = Some p → ∃ h, pcis sample_chain !! p = Some h ∧ Z.testbit (AnsPci.command h) 2 = true)) ∧
    chain_same sample_chain c' ∧
    last_autoboot_write s' = (if rc =? 0 then 7 else 0) ∧ autoboot_write_seen s' = (if rc =? 0 then 1 else 0).
Proof. apply (autoboot_gate sample_chain sample_boot 7 sample_closed). by eexists. Defined.

End AnsAutoboot.
