(* ===== verification/Ans.v ===== *)
(** The storage controller, [devices/ans_v1.c] and [ans_v1.h]: the register window of
    an NVMe controller with vendor registers, and one administrative command, Identify,
    which a host arms and the guest triggers by its doorbell.

    State: the controller registers, 128 doorbells, a bounded table of vendor
    registers, the interrupt mask and status, the armed command, the pages bound for
    the queues and the data, and links to the PCI host, the mailbox, the wrapper and
    the bootstrap window.  The linked objects and the buffers belong to others; they are
    a store ([parts]) that is passed to the operations and returned by them.  A pointer
    to bytes is the address of a buffer of the heap. *)
From S2P Require Import Prelude.
From S2P Require Import Words.
From S2P Require Import Mmio.
From S2P Require Import Bytes.
From S2P Require Import AnsPci.
From S2P Require Import AnsMbox.
From S2P Require Import Ascwrap.
From S2P Require Import AnsAutoboot.

Module Ans.

Definition VF_ANS_VENDOR_SIZE := 0x60000.
Definition VF_ANS_NVME_ALIAS_SIZE := 0x1200.
Definition VF_ANS_IRQ_ADMIN_CQ := Z.shiftl 1 0.
Definition VF_ANS_REG_CAP_LO := 0x0000.
Definition VF_ANS_REG_CAP_HI := 0x0004.
Definition VF_ANS_REG_VS := 0x0008.
Definition VF_ANS_REG_INTMS := 0x000C.
Definition VF_ANS_REG_INTMC := 0x0010.
Definition VF_ANS_REG_CC := 0x0014.
Definition VF_ANS_REG_CSTS := 0x001C.
Definition VF_ANS_REG_AQA := 0x0024.
Definition VF_ANS_REG_ASQ_LO := 0x0028.
Definition VF_ANS_REG_ASQ_HI := 0x002C.
Definition VF_ANS_REG_ACQ_LO := 0x0030.
Definition VF_ANS_REG_ACQ_HI := 0x0034.
Definition VF_ANS_DB_BASE := 0x1000.
Definition VF_ANS_DB_END := VF_ANS_NVME_ALIAS_SIZE.
Definition VF_ANS_DB_COUNT := (VF_ANS_DB_END - VF_ANS_DB_BASE) / 4.
Definition VF_ANS_REG_SQTDBL_ADMIN := 0x1000.
Definition VF_ANS_REG_CQHDBL_ADMIN := 0x1004.
Definition VF_ANS_CAP_LO_VAL := 0x0f0107ff.
Definition VF_ANS_CAP_HI_VAL := 0x00401820.
Definition VF_ANS_VS_VAL := 0x00010400.
Definition VF_ANS_CC_EN := Z.shiftl 1 0.
Definition VF_ANS_CSTS_RDY := Z.shiftl 1 0.
Definition VF_ANS_DB_VALUE_MASK := 0xffff.
Definition VF_ANS_ID_CNS_NS := 0x00.
Definition VF_ANS_ID_CNS_CTRL := 0x01.
Definition VF_ANS_OPC_IDENTIFY := 0x06.
Definition VF_ANS_ID_CTRL_SIZE := 4096.
Definition VF_ANS_ID_NS_SIZE := 4096.
Definition VF_ANS_ID_OFF_MDTS := 77.
Definition VF_ANS_ID_OFF_VER := 80.
Definition VF_ANS_ID_OFF_CNTRLTYPE := 111.
Definition VF_ANS_ID_OFF_SQES := 512.
Definition VF_ANS_ID_OFF_CQES := 513.
Definition VF_ANS_ID_OFF_NN := 516.
Definition VF_ANS_ID_NS_OFF_NSZE := 0.
Definition VF_ANS_ID_NS_OFF_NCAP := 8.
Definition VF_ANS_ID_NS_OFF_NUSE := 16.
Definition VF_ANS_ID_NS_OFF_NLBAF := 25.
Definition VF_ANS_ID_NS_OFF_FLBAS := 26.
Definition VF_ANS_ID_SQES_APPLE := Z.lor (Z.shiftl 0x7 4) 0x6.
Definition VF_ANS_ID_SQES_STD := Z.lor (Z.shiftl 0x6 4) 0x6.
Definition VF_ANS_ID_CQES := Z.lor (Z.shiftl 0x4 4) 0x4.
Definition VF_ANS_ID_MDTS_APPLE := 8.
Definition VF_ANS_ID_MDTS_STD := 7.
Definition VF_ANS_ID_NN := 16.
Definition VF_ANS_ID_CNTRLTYPE := 0x1.
Definition VF_ANS_ID_VER := VF_ANS_VS_VAL.
Definition VF_ANS_ID_NS_STUB_NSID := 1.
Definition VF_ANS_SQE_SIZE := 64.
Definition VF_ANS_SQE_OFF_CDW0 := 0.
Definition VF_ANS_SQE_OFF_NSID := 4.
Definition VF_ANS_SQE_OFF_PRP1 := 24.
Definition VF_ANS_SQE_OFF_PRP2 := 32.
Definition VF_ANS_SQE_OFF_CDW10 := 40.
Definition VF_ANS_SQE_PSDT_SHIFT := 14.
Definition VF_ANS_SQE_PSDT_MASK := 0x3.
Definition VF_ANS_PRP_PAGE_SIZE := 0x1000.
Definition VF_ANS_PRP_PAGE_MASK := VF_ANS_PRP_PAGE_SIZE - 1.
Definition VF_ANS_CQE_SIZE := 16.
Definition VF_ANS_CQE_OFF_DW2 := 8.
Definition VF_ANS_CQE_OFF_DW3 := 12.
Definition VF_ANS_CQE_PHASE_SHIFT := 16.
Definition VF_ANS_REG_MAX_PEND := 0x1210.
Definition VF_ANS_REG_BOOT_STATUS := 0x1300.
Definition VF_ANS_REG_MODESEL := 0x1304.
Definition VF_ANS_REG_BASE_CMD_ID := 0x1308.
Definition VF_ANS_REG_LINEAR_SQ := 0x24908.
Definition VF_ANS_MAX_PEND_VAL := Z.lor (Z.shiftl 64 16) 64.
Definition VF_ANS_BOOT_STATUS_OK := 0xde71ce55.
Definition VF_ANS_BASE_CMD_ID_VAL := 0x6000.
Definition VF_ANS_VENDOR_SPARSE_CAP := 48.

Record vf_ans_vendor_slot := { off : Z; val : Z }.

Record vf_ans_v1 := {
  modesel : Z;
  linear_sq : Z;
  base_cmd_id : Z;
  cc : Z;
  csts : Z;
  intm : Z;
  irq_status : Z;
  aqa : Z;
  asq_lo : Z;
  asq_hi : Z;
  acq_lo : Z;
  acq_hi : Z;
  doorbell : list Z;
  vendor_sparse : list vf_ans_vendor_slot;
  vendor_sparse_used : Z;
  is_apple_ans : Z;
  pci : ptr Z;
  mbox : ptr Z;
  ascwrap : ptr Z;
  autoboot : ptr Z;
  admin_id_armed : Z;
  admin_id_opcode : Z;
  admin_id_cns : Z;
  admin_id_buf : ptr Z;
  admin_id_len : Z;
  admin_id_cq_buf : ptr Z;
  admin_id_cq_len : Z;
  admin_asq_mem : ptr Z;
  admin_asq_len : Z;
  admin_acq_mem : ptr Z;
  admin_acq_len : Z;
  admin_id_prp1_mem : ptr Z;
  admin_id_prp1_len : Z;
  admin_id_prp2_mem : ptr Z;
  admin_id_prp2_len : Z;
  admin_cq_tail : Z;
  admin_cq_phase : Z;
}.

Record vf_ans_id_ctrl_meta := {
  cm_cns : Z; cm_sqes : Z; cm_cqes : Z; cm_mdts : Z; cm_cntrltype : Z; cm_nn : Z; cm_ver : Z;
}.
Record vf_ans_id_ns_meta := {
  nm_cns : Z; nm_nsid : Z; nm_nsze : Z; nm_ncap : Z; nm_nuse : Z; nm_nlbaf : Z; nm_flbas : Z;
}.

(** The objects of others: the buffers and the host, the chain of linked objects, and
    the bootstrap windows. *)
Record parts {H : Type} := {
  io : AnsPci.world H;
  links : AnsAutoboot.chain H;
  boots : gmap Z AnsAutoboot.vf_ans_autoboot_v1;
}.
Arguments parts : clear implicits.

(** ** Registers of the object alone *)

Definition ans_bounds (off width : Z) : Z :=
  if negb (width =? 4) || nz (Z.land off 3) then -1
  else if VF_ANS_VENDOR_SIZE <=? off then -1 else 0.

Definition ans_db_index (off : Z) : Z :=
  if (off <? VF_ANS_DB_BASE) || (VF_ANS_DB_END <=? off) || nz (Z.land off 3) then -1
  else (off - VF_ANS_DB_BASE) / 4.

(** The loop of [ans_sparse_find], at index [i] with [n] rounds to go. *)
Fixpoint sparse_find_from (slots : list vf_ans_vendor_slot) (o i : Z) (n : nat) : option Z :=
  match n with
  | O => Some (-1)
  | S n => s ← arr_get slots i; if off s =? o then Some i else sparse_find_from slots o (i + 1) n
  end.

Definition ans_sparse_find (a : vf_ans_v1) (o : Z) : option Z :=
  sparse_find_from (vendor_sparse a) o 0 (Z.to_nat (vendor_sparse_used a)).

Definition ans_sparse_store (a : vf_ans_v1) (o value : Z) : option (Z * vf_ans_v1) :=
  idx ← ans_sparse_find a o;
  if 0 <=? idx then
    s ← arr_get (vendor_sparse a) idx;
    slots ← arr_set (vendor_sparse a) idx (s <| val := value |>);
    Some (0, a <| vendor_sparse := slots |>)
  else if VF_ANS_VENDOR_SPARSE_CAP <=? vendor_sparse_used a then Some (-1, a)
  else
    slots ← arr_set (vendor_sparse a) (vendor_sparse_used a) {| off := o; val := value |};
    Some (0, a <| vendor_sparse := slots |> <| vendor_sparse_used := u32 (vendor_sparse_used a + 1) |>).

Definition ans_sparse_load (a : vf_ans_v1) (o : Z) : option Z :=
  idx ← ans_sparse_find a o;
  if 0 <=? idx then s ← arr_get (vendor_sparse a) idx; Some (val s) else Some 0.

Definition ans_clear_admin_identify (a : vf_ans_v1) : vf_ans_v1 :=
  a <| admin_id_armed := 0 |> <| admin_id_opcode := 0 |> <| admin_id_cns := 0 |> <| admin_id_buf := None |>
    <| admin_id_len := 0 |> <| admin_id_cq_buf := None |> <| admin_id_cq_len := 0 |>.

Definition ans_check_admin_acq_slot (a : vf_ans_v1) : Z :=
  match admin_acq_mem a with
  | None => 0
  | Some _ =>
    if Z.lor (acq_lo a) (acq_hi a) =? 0 then -1
    else if admin_acq_len a <? u32 (u32 (admin_cq_tail a * VF_ANS_CQE_SIZE) + VF_ANS_CQE_SIZE) then -1 else 0
  end.

Definition vf_ans_init (a : ptr vf_ans_v1) : Z * ptr vf_ans_v1 :=
  match a with
  | None => (-1, None)
  | Some _ =>
    (0, Some {|
      modesel := 0; linear_sq := 0; base_cmd_id := VF_ANS_BASE_CMD_ID_VAL; cc := 0; csts := 0; intm := 0;
      irq_status := 0; aqa := 0; asq_lo := 0; asq_hi := 0; acq_lo := 0; acq_hi := 0;
      doorbell := replicate (Z.to_nat VF_ANS_DB_COUNT) 0;
      vendor_sparse := replicate (Z.to_nat VF_ANS_VENDOR_SPARSE_CAP) {| off := 0; val := 0 |};
      vendor_sparse_used := 0; is_apple_ans := 1; pci := None; mbox := None; ascwrap := None; autoboot := None;
      admin_id_armed := 0; admin_id_opcode := 0; admin_id_cns := 0; admin_id_buf := None; admin_id_len := 0;
      admin_id_cq_buf := None; admin_id_cq_len := 0; admin_asq_mem := None; admin_asq_len := 0;
      admin_acq_mem := None; admin_acq_len := 0; admin_id_prp1_mem := None; admin_id_prp1_len := 0;
      admin_id_prp2_mem := None; admin_id_prp2_len := 0; admin_cq_tail := 0; admin_cq_phase := 1 |})
  end.

Definition vf_ans_bind_mbox (a : ptr vf_ans_v1) (x : ptr Z) : Z * ptr vf_ans_v1 :=
  match a with None => (-1, None) | Some a => (0, Some (a <| mbox := x |>)) end.
Definition vf_ans_bind_ascwrap (a : ptr vf_ans_v1) (x : ptr Z) : Z * ptr vf_ans_v1 :=
  match a with None => (-1, None) | Some a => (0, Some (a <| ascwrap := x |>)) end.
Definition vf_ans_bind_autoboot (a : ptr vf_ans_v1) (x : ptr Z) : Z * ptr vf_ans_v1 :=
  match a with None => (-1, None) | Some a => (0, Some (a <| autoboot := x |>)) end.

Definition vf_ans_set_is_apple_ans (a : ptr vf_ans_v1) (enabled : Z) : Z * ptr vf_ans_v1 :=
  match a with None => (-1, None) | Some a => (0, Some (a <| is_apple_ans := b2z (nz enabled) |>)) end.
Definition vf_ans_get_is_apple_ans (a : ptr vf_ans_v1) : Z :=
  match a with None => -1 | Some a => b2z (nz (is_apple_ans a)) end.

(** [out]: whether the out-pointer is given. *)
Definition vf_ans_identify_sqes (a : ptr vf_ans_v1) (out : bool) : Z * option Z :=
  match a with
  | None => (-1, None)
  | Some a =>
    if negb out then (-1, None)
    else (0, Some (if nz (is_apple_ans a) then u8 VF_ANS_ID_SQES_APPLE else u8 VF_ANS_ID_SQES_STD))
  end.
Definition vf_ans_identify_cqes (a : ptr vf_ans_v1) (out : bool) : Z * option Z :=
  match a with
  | None => (-1, None)
  | Some _ => if negb out then (-1, None) else (0, Some (u8 VF_ANS_ID_CQES))
  end.
Definition vf_ans_identify_cns_supported (cns : Z) : Z :=
  if (cns =? VF_ANS_ID_CNS_CTRL) || (cns =? VF_ANS_ID_CNS_NS) then 0 else -1.

Definition vf_ans_identify_cns_ctrl (a : ptr vf_ans_v1) (out : bool) : Z * option vf_ans_id_ctrl_meta :=
  match a with
  | None => (-1, None)
  | Some a =>
    if negb out then (-1, None)
    else (0, Some {|
      cm_cns := u8 VF_ANS_ID_CNS_CTRL;
      cm_sqes := if nz (is_apple_ans a) then u8 VF_ANS_ID_SQES_APPLE else u8 VF_ANS_ID_SQES_STD;
      cm_cqes := u8 VF_ANS_ID_CQES;
      cm_mdts := if nz (is_apple_ans a) then u8 VF_ANS_ID_MDTS_APPLE else u8 VF_ANS_ID_MDTS_STD;
      cm_cntrltype := u8 VF_ANS_ID_CNTRLTYPE; cm_nn := VF_ANS_ID_NN; cm_ver := VF_ANS_ID_VER |})
  end.

Definition vf_ans_identify_cns_ns (a : ptr vf_ans_v1) (out : bool) : Z * option vf_ans_id_ns_meta :=
  match a with
  | None => (-1, None)
  | Some _ =>
    if negb out then (-1, None)
    else (0, Some {| nm_cns := u8 VF_ANS_ID_CNS_NS; nm_nsid := VF_ANS_ID_NS_STUB_NSID; nm_nsze := 0; nm_ncap := 0;
                     nm_nuse := 0; nm_nlbaf := 0; nm_flbas := 0 |})
  end.

Definition vf_ans_arm_admin_identify (a : ptr vf_ans_v1) (opcode cns : Z) (buf : ptr Z) (len : Z) (cq_buf : ptr Z)
    (cq_len : Z) : Z * ptr vf_ans_v1 :=
  match a, buf, cq_buf with
  | Some d, Some _, Some _ =>
    if len <? VF_ANS_ID_CTRL_SIZE then (-1, a)
    else if cq_len <? VF_ANS_CQE_SIZE then (-1, a)
    else if negb (opcode =? VF_ANS_OPC_IDENTIFY) then (-1, a)
    else if negb (cns =? VF_ANS_ID_CNS_CTRL) && negb (cns =? VF_ANS_ID_CNS_NS) then (-1, a)
    else (0, Some (d <| admin_id_opcode := opcode |> <| admin_id_cns := cns |> <| admin_id_buf := buf |>
                     <| admin_id_len := len |> <| admin_id_cq_buf := cq_buf |> <| admin_id_cq_len := cq_len |>
                     <| admin_id_armed := 1 |>))
  | _, _, _ => (-1, a)
  end.

Definition vf_ans_admin_identify_armed (a : ptr vf_ans_v1) : Z :=
  match a with None => -1 | Some a => b2z (nz (admin_id_armed a)) end.
Definition vf_ans_disarm_admin_identify (a : ptr vf_ans_v1) : Z * ptr vf_ans_v1 :=
  match a with None => (-1, None) | Some a => (0, Some (ans_clear_admin_identify a)) end.

Definition vf_ans_bind_admin_asq (a : ptr vf_ans_v1) (mem : ptr Z) (len : Z) : Z * ptr vf_ans_v1 :=
  match a, mem with
  | None, _ => (-1, None)
  | Some d, None => (0, Some (d <| admin_asq_mem := None |> <| admin_asq_len := 0 |>))
  | Some d, Some _ =>
    if len <? VF_ANS_SQE_SIZE then (-1, a)
    else (0, Some (d <| admin_asq_mem := mem |> <| admin_asq_len := len |>))
  end.
Definition vf_ans_admin_asq_bound (a : ptr vf_ans_v1) : Z :=
  match a with None => -1 | Some a => if admin_asq_mem a is Some _ then 1 else 0 end.

Definition vf_ans_bind_admin_acq (a : ptr vf_ans_v1) (mem : ptr Z) (len : Z) : Z * ptr vf_ans_v1 :=
  match a, mem with
  | None, _ => (-1, None)
  | Some d, None => (0, Some (d <| admin_acq_mem := None |> <| admin_acq_len := 0 |>))
  | Some d, Some _ =>
    if len <? VF_ANS_CQE_SIZE then (-1, a)
    else (0, Some (d <| admin_acq_mem := mem |> <| admin_acq_len := len |>))
  end.
Definition vf_ans_admin_acq_bound (a : ptr vf_ans_v1) : Z :=
  match a with None => -1 | Some a => if admin_acq_mem a is Some _ then 1 else 0 end.

Definition vf_ans_bind_identify_prp1 (a : ptr vf_ans_v1) (mem : ptr Z) (len : Z) : Z * ptr vf_ans_v1 :=
  match a, mem with
  | None, _ => (-1, None)
  | Some d, None => (0, Some (d <| admin_id_prp1_mem := None |> <| admin_id_prp1_len := 0 |>))
  | Some d, Some _ =>
    if len <? VF_ANS_ID_CTRL_SIZE then (-1, a)
    else (0, Some (d <| admin_id_prp1_mem := mem |> <| admin_id_prp1_len := len |>))
  end.
Definition vf_ans_identify_prp1_bound (a : ptr vf_ans_v1) : Z :=
  match a with None => -1 | Some a => if admin_id_prp1_mem a is Some _ then 1 else 0 end.

Definition vf_ans_bind_identify_prp2 (a : ptr vf_ans_v1) (mem : ptr Z) (len : Z) : Z * ptr vf_ans_v1 :=
  match a, mem with
  | None, _ => (-1, None)
  | Some d, None => (0, Some (d <| admin_id_prp2_mem := None |> <| admin_id_prp2_len := 0 |>))
  | Some d, Some _ =>
    if len <? VF_ANS_ID_CTRL_SIZE then (-1, a)
    else (0, Some (d <| admin_id_prp2_mem := mem |> <| admin_id_prp2_len := len |>))
  end.
Definition vf_ans_identify_prp2_bound (a : ptr vf_ans_v1) : Z :=
  match a with None => -1 | Some a => if admin_id_prp2_mem a is Some _ then 1 else 0 end.

Definition vf_ans_admin_cq_tail (a : ptr vf_ans_v1) : Z :=
  match a with None => -1 | Some a => admin_cq_tail a end.

(** The difference of the tail and the head the guest wrote. *)
Definition cq_distance (a : vf_ans_v1) : option Z :=
  d1 ← arr_get (doorbell a) 1;
  let cqh := u16 (Z.land d1 VF_ANS_DB_VALUE_MASK) in
  Some (u16 (Z.land (admin_cq_tail a - cqh) VF_ANS_DB_VALUE_MASK)).

Definition vf_ans_admin_cq_pending (a : ptr vf_ans_v1) : option Z :=
  match a with None => Some (-1) | Some a => cq_distance a end.

Definition irq_level (a : vf_ans_v1) : Z :=
  if nz (Z.land (Z.land (irq_status a) (bnot 32 (intm a))) VF_ANS_IRQ_ADMIN_CQ) then 1 else 0.

Definition vf_ans_irq_check (a : ptr vf_ans_v1) : Z :=
  match a with None => -1 | Some a => irq_level a end.

(** The cases of the read. *)
Definition read_cases (a : vf_ans_v1) : list (Z * Z) := [
  (VF_ANS_REG_CAP_LO, VF_ANS_CAP_LO_VAL);
  (VF_ANS_REG_CAP_HI, VF_ANS_CAP_HI_VAL);
  (VF_ANS_REG_VS, VF_ANS_VS_VAL);
  (VF_ANS_REG_INTMS, intm a);
  (VF_ANS_REG_INTMC, intm a);
  (VF_ANS_REG_CC, cc a);
  (VF_ANS_REG_CSTS, csts a);
  (VF_ANS_REG_AQA, aqa a);
  (VF_ANS_REG_ASQ_LO, asq_lo a);
  (VF_ANS_REG_ASQ_HI, asq_hi a);
  (VF_ANS_REG_ACQ_LO, acq_lo a);
  (VF_ANS_REG_ACQ_HI, acq_hi a);
  (VF_ANS_REG_MAX_PEND, VF_ANS_MAX_PEND_VAL);
  (VF_ANS_REG_BOOT_STATUS, VF_ANS_BOOT_STATUS_OK);
  (VF_ANS_REG_MODESEL, modesel a);
  (VF_ANS_REG_BASE_CMD_ID, VF_ANS_BASE_CMD_ID_VAL);
  (VF_ANS_REG_LINEAR_SQ, linear_sq a)].

Definition vf_ans_read (a : ptr vf_ans_v1) (off width : Z) (value : bool) : option rd_result :=
  match a with
  | None => Some (-1, None)
  | Some a =>
    if negb value || nz (ans_bounds off width) then Some (-1, None)
    else
      let dbi := ans_db_index off in
      if 0 <=? dbi then v ← arr_get (doorbell a) dbi; Some (0, Some v)
      else
        match switch off (read_cases a) with
        | Some v => Some (0, Some v)
        | None =>
          if VF_ANS_NVME_ALIAS_SIZE <=? off then v ← ans_sparse_load a off; Some (0, Some v) else Some (0, Some 0)
        end
  end.

(** ** Operations that reach other objects *)

Section controller.
Context {H : Type}.

(** Stores and copies of bytes; [None] outside a buffer, or where the source and the
    target of a copy overlap. *)
Definition mem_load (m : parts H) (p o n : Z) : option bytes :=
  b ← AnsPci.heap (io m) !! p; buf_read b o n.
Definition mem_store (m : parts H) (p o : Z) (bs : bytes) : option (parts H) :=
  b ← AnsPci.heap (io m) !! p; b ← buf_write b o bs;
  Some (m <| io := (io m) <| AnsPci.heap := <[p := b]> (AnsPci.heap (io m)) |> |>).
Definition mem_copy (m : parts H) (dst doff src soff n : Z) : option (parts H) :=
  if (dst =? src) && (doff <? soff + n) && (soff <? doff + n) then None
  else bs ← mem_load m src soff n; mem_store m dst doff bs.

Definition ans_store_le32 (m : parts H) (p o v : Z) : option (parts H) :=
  mem_store m p o [u8 v; u8 (Z.shiftr v 8); u8 (Z.shiftr v 16); u8 (Z.shiftr v 24)].
Definition ans_store_le64 (m : parts H) (p o v : Z) : option (parts H) :=
  mem_store m p o [u8 v; u8 (Z.shiftr v 8); u8 (Z.shiftr v 16); u8 (Z.shiftr v 24);
                   u8 (Z.shiftr v 32); u8 (Z.shiftr v 40); u8 (Z.shiftr v 48); u8 (Z.shiftr v 56)].

Definition ans_load_le32 (b : bytes) (o : Z) : option Z :=
  b0 ← arr_get b o; b1 ← arr_get b (o + 1); b2 ← arr_get b (o + 2); b3 ← arr_get b (o + 3);
  Some (Z.lor (Z.lor (Z.lor b0 (shl 32 b1 8)) (shl 32 b2 16)) (shl 32 b3 24)).
Definition ans_load_le64 (b : bytes) (o : Z) : option Z :=
  b0 ← arr_get b o; b1 ← arr_get b (o + 1); b2 ← arr_get b (o + 2); b3 ← arr_get b (o + 3);
  b4 ← arr_get b (o + 4); b5 ← arr_get b (o + 5); b6 ← arr_get b (o + 6); b7 ← arr_get b (o + 7);
  Some (Z.lor (Z.lor (Z.lor (Z.lor (Z.lor (Z.lor (Z.lor b0 (shl 64 b1 8)) (shl 64 b2 16)) (shl 64 b3 24))
    (shl 64 b4 32)) (shl 64 b5 40)) (shl 64 b6 48)) (shl 64 b7 56)).

Definition ans_write_admin_acq_cqe (m : parts H) (a : vf_ans_v1) (cqe : Z) : option (parts H) :=
  match admin_acq_mem a with
  | None => Some m
  | Some mem => mem_copy m mem (u32 (admin_cq_tail a * VF_ANS_CQE_SIZE)) cqe 0 VF_ANS_CQE_SIZE
  end.

(** The host input of the linked PCI host. *)
Definition pci_set (m : parts H) (p level : Z) : option (parts H) :=
  h ← AnsAutoboot.pcis (links m) !! p;
  '(_, w, h) ← AnsPci.vf_ans_pci_set_irq (io m) (Some h) level;
  h ← h;
  Some (m <| io := w |> <| links := (links m) <| AnsAutoboot.pcis := <[p := h]> (AnsAutoboot.pcis (links m)) |> |>).

Definition ans_sync_pci_irq (m : parts H) (a : vf_ans_v1) : option (parts H) :=
  match pci a with
  | None => Some m
  | Some p => pci_set m p (irq_level a)
  end.

Definition ans_post_admin_identify_cqe (m : parts H) (a : vf_ans_v1) (cq_buf : Z) : option (parts H * vf_ans_v1) :=
  m ← mem_store m cq_buf 0 (replicate (Z.to_nat VF_ANS_CQE_SIZE) 0);
  d0 ← arr_get (doorbell a) 0;
  let sqhd := u16 (Z.land d0 VF_ANS_DB_VALUE_MASK) in
  let dw3 := shl 32 (Z.land (admin_cq_phase a) 1) VF_ANS_CQE_PHASE_SHIFT in
  m ← ans_store_le32 m cq_buf VF_ANS_CQE_OFF_DW2 sqhd;
  m ← ans_store_le32 m cq_buf VF_ANS_CQE_OFF_DW3 dw3;
  m ← ans_write_admin_acq_cqe m a cq_buf;
  let a := a <| admin_cq_phase := Z.lxor (admin_cq_phase a) 1 |>
             <| admin_cq_tail := u16 (Z.land (admin_cq_tail a + 1) VF_ANS_DB_VALUE_MASK) |>
             <| irq_status := Z.lor (irq_status a) VF_ANS_IRQ_ADMIN_CQ |> in
  m ← ans_sync_pci_irq m a;
  Some (m, a).

Definition ans_refresh_admin_cq_irq (m : parts H) (a : vf_ans_v1) : option (parts H * vf_ans_v1) :=
  pending ← cq_distance a;
  let a := if pending =? 0 then a <| irq_status := Z.land (irq_status a) (bnot 32 VF_ANS_IRQ_ADMIN_CQ) |> else a in
  m ← ans_sync_pci_irq m a;
  Some (m, a).

(** The answer: the code, and the first data pointer of the entry. *)
Definition ans_fetch_admin_asq_identify (m : parts H) (a : vf_ans_v1) (old_sq_tail expect_opcode expect_cns : Z) :
    option (Z * Z) :=
  match admin_asq_mem a with
  | None => Some (0, 0)
  | Some mem =>
    if Z.lor (asq_lo a) (asq_hi a) =? 0 then Some (-1, 0)
    else
      let o := u32 (old_sq_tail * VF_ANS_SQE_SIZE) in
      if admin_asq_len a <? u32 (o + VF_ANS_SQE_SIZE) then Some (-1, 0)
      else
        sqe ← mem_load m mem o VF_ANS_SQE_SIZE;
        cdw0 ← ans_load_le32 sqe VF_ANS_SQE_OFF_CDW0;
        let opcode := u8 (Z.land cdw0 0xff) in
        let psdt := u8 (Z.land (Z.shiftr cdw0 VF_ANS_SQE_PSDT_SHIFT) VF_ANS_SQE_PSDT_MASK) in
        cns ← arr_get sqe VF_ANS_SQE_OFF_CDW10;
        nsid ← ans_load_le32 sqe VF_ANS_SQE_OFF_NSID;
        prp1 ← ans_load_le64 sqe VF_ANS_SQE_OFF_PRP1;
        prp2 ← ans_load_le64 sqe VF_ANS_SQE_OFF_PRP2;
        if negb (opcode =? expect_opcode) || negb (cns =? expect_cns) then Some (-1, 0)
        else if negb (psdt =? 0) then Some (-1, 0)
        else if prp1 =? 0 then Some (-1, 0)
        else if (expect_cns =? VF_ANS_ID_CNS_NS) && negb (nsid =? VF_ANS_ID_NS_STUB_NSID) then Some (-1, 0)
        else
          match admin_id_prp1_mem a with
          | None => Some (0, prp1)
          | Some _ =>
            if admin_id_prp1_len a <? VF_ANS_ID_CTRL_SIZE then Some (-1, 0)
            else if u32 (Z.land prp1 VF_ANS_PRP_PAGE_MASK) =? 0 then
              if negb (prp2 =? 0) then Some (-1, 0) else Some (0, prp1)
            else
              match admin_id_prp2_mem a with
              | None => Some (-1, 0)
              | Some _ =>
                if admin_id_prp2_len a <? VF_ANS_ID_CTRL_SIZE then Some (-1, 0)
                else if prp2 =? 0 then Some (-1, 0)
                else if negb (Z.land prp2 VF_ANS_PRP_PAGE_MASK =? 0) then Some (-1, 0)
                else Some (0, prp1)
              end
          end
  end.

Definition ans_write_identify_prp (m : parts H) (a : vf_ans_v1) (buf prp1 : Z) : option (parts H) :=
  match admin_id_prp1_mem a with
  | None => Some m
  | Some page =>
    if admin_id_prp1_len a <? VF_ANS_ID_CTRL_SIZE then Some m
    else
      let prp_off := u32 (Z.land prp1 VF_ANS_PRP_PAGE_MASK) in
      if prp_off =? 0 then mem_copy m page 0 buf 0 VF_ANS_ID_CTRL_SIZE
      else
        match admin_id_prp2_mem a with
        | None => Some m
        | Some page2 =>
          if admin_id_prp2_len a <? VF_ANS_ID_CTRL_SIZE then Some m
          else
            let first := u32 (VF_ANS_PRP_PAGE_SIZE - prp_off) in
            if VF_ANS_ID_CTRL_SIZE <=? first then Some m
            else
              m ← mem_copy m page prp_off buf 0 first;
              mem_copy m page2 0 buf first (u32 (VF_ANS_ID_CTRL_SIZE - first))
        end
  end.

(** The conditions in front of every data fill, in the order of the code: asking a
    linked object brings it up to date. *)
Definition dma_gates (m : parts H) (a : vf_ans_v1) : option (bool * parts H) :=
  if negb (nz (Z.land (cc a) VF_ANS_CC_EN)) || negb (nz (Z.land (csts a) VF_ANS_CSTS_RDY)) then Some (false, m)
  else
    master ← match pci a with
      | None => Some true
      | Some p => h ← AnsAutoboot.pcis (links m) !! p; Some (nz (AnsPci.vf_ans_pci_bus_master_enabled (Some h)))
      end;
    if negb master then Some (false, m)
    else
      '(started, m) ← match mbox a with
        | None => Some (true, m)
        | Some x =>
          b ← AnsAutoboot.mboxes (links m) !! x;
          '(rc, b) ← AnsMbox.vf_ans_mbox_started (AnsAutoboot.pcis (links m)) (Some b);
          b ← b;
          Some (nz rc, m <| links := (links m) <| AnsAutoboot.mboxes := <[x := b]> (AnsAutoboot.mboxes (links m)) |> |>)
        end;
      if negb started then Some (false, m)
      else
        '(ready, m) ← match ascwrap a with
          | None => Some (true, m)
          | Some x =>
            w ← AnsAutoboot.wraps (links m) !! x;
            '(rc, mb, w) ← Ascwrap.vf_ascwrap_ready (AnsAutoboot.pcis (links m)) (AnsAutoboot.mboxes (links m)) (Some w);
            w ← w;
            Some (nz rc, m <| links := (links m) <| AnsAutoboot.mboxes := mb |>
                             <| AnsAutoboot.wraps := <[x := w]> (AnsAutoboot.wraps (links m)) |> |>)
          end;
        if negb ready then Some (false, m)
        else
          match autoboot a with
          | None => Some (true, m)
          | Some x =>
            s ← boots m !! x;
            '(rc, c, s) ← AnsAutoboot.vf_ans_autoboot_armed (links m) (Some s);
            s ← s;
            Some (nz rc, m <| links := c |> <| boots := <[x := s]> (boots m) |>)
          end.

Definition vf_ans_identify_cns_ctrl_dma (m : parts H) (a : ptr vf_ans_v1) (cns : Z) (buf : ptr Z) (len : Z) :
    option (Z * parts H) :=
  match a, buf with
  | Some d, Some buf =>
    if len <? VF_ANS_ID_CTRL_SIZE then Some (-1, m)
    else if negb (cns =? VF_ANS_ID_CNS_CTRL) then Some (-1, m)
    else
      '(open, m) ← dma_gates m d;
      if negb open then Some (-1, m)
      else
        meta ← (vf_ans_identify_cns_ctrl (Some d) true).2;
        m ← mem_store m buf 0 (replicate (Z.to_nat VF_ANS_ID_CTRL_SIZE) 0);
        m ← mem_store m buf VF_ANS_ID_OFF_MDTS [cm_mdts meta];
        m ← ans_store_le32 m buf VF_ANS_ID_OFF_VER (cm_ver meta);
        m ← mem_store m buf VF_ANS_ID_OFF_CNTRLTYPE [cm_cntrltype meta];
        m ← mem_store m buf VF_ANS_ID_OFF_SQES [cm_sqes meta];
        m ← mem_store m buf VF_ANS_ID_OFF_CQES [cm_cqes meta];
        m ← ans_store_le32 m buf VF_ANS_ID_OFF_NN (cm_nn meta);
        Some (0, m)
  | _, _ => Some (-1, m)
  end.

Definition vf_ans_identify_cns_ns_dma (m : parts H) (a : ptr vf_ans_v1) (cns : Z) (buf : ptr Z) (len : Z) :
    option (Z * parts H) :=
  match a, buf with
  | Some d, Some buf =>
    if len <? VF_ANS_ID_NS_SIZE then Some (-1, m)
    else if negb (cns =? VF_ANS_ID_CNS_NS) then Some (-1, m)
    else
      '(open, m) ← dma_gates m d;
      if negb open then Some (-1, m)
      else
        meta ← (vf_ans_identify_cns_ns (Some d) true).2;
        m ← mem_store m buf 0 (replicate (Z.to_nat VF_ANS_ID_NS_SIZE) 0);
        m ← ans_store_le64 m buf VF_ANS_ID_NS_OFF_NSZE (nm_nsze meta);
        m ← ans_store_le64 m buf VF_ANS_ID_NS_OFF_NCAP (nm_ncap meta);
        m ← ans_store_le64 m buf VF_ANS_ID_NS_OFF_NUSE (nm_nuse meta);
        m ← mem_store m buf VF_ANS_ID_NS_OFF_NLBAF [nm_nlbaf meta];
        m ← mem_store m buf VF_ANS_ID_NS_OFF_FLBAS [nm_flbas meta];
        Some (0, m)
  | _, _ => Some (-1, m)
  end.

Definition ans_try_admin_identify_on_doorbell (m : parts H) (a : vf_ans_v1) (old_sq_tail : Z) :
    option (parts H * vf_ans_v1) :=
  if negb (nz (admin_id_armed a)) then Some (m, a)
  else
    let buf := admin_id_buf a in
    let len := admin_id_len a in
    let cq_buf := admin_id_cq_buf a in
    let cq_len := admin_id_cq_len a in
    let cns := admin_id_cns a in
    let opcode := admin_id_opcode a in
    let a := ans_clear_admin_identify a in
    if negb (opcode =? VF_ANS_OPC_IDENTIFY) then Some (m, a)
    else if negb (cns =? VF_ANS_ID_CNS_CTRL) && negb (cns =? VF_ANS_ID_CNS_NS) then Some (m, a)
    else
      match buf, cq_buf with
      | Some b, Some cq =>
        if cq_len <? VF_ANS_CQE_SIZE then Some (m, a)
        else
          '(rc, prp1) ← ans_fetch_admin_asq_identify m a old_sq_tail opcode cns;
          if negb (rc =? 0) then Some (m, a)
          else if negb (ans_check_admin_acq_slot a =? 0) then Some (m, a)
          else
            '(dma_rc, m) ← (if cns =? VF_ANS_ID_CNS_CTRL then vf_ans_identify_cns_ctrl_dma m (Some a) cns buf len
                            else vf_ans_identify_cns_ns_dma m (Some a) cns buf len);
            if negb (dma_rc =? 0) then Some (m, a)
            else
              m ← ans_write_identify_prp m a b prp1;
              ans_post_admin_identify_cqe m a cq
      | _, _ => Some (m, a)
      end.

Definition ans_apply_cc_enable (m : parts H) (a : vf_ans_v1) (v : Z) : option (parts H * vf_ans_v1) :=
  let a := a <| cc := v |> in
  let a :=
    if nz (Z.land v VF_ANS_CC_EN) then a <| csts := Z.lor (csts a) VF_ANS_CSTS_RDY |>
    else
      ans_clear_admin_identify
        (a <| csts := Z.land (csts a) (bnot 32 VF_ANS_CSTS_RDY) |>
           <| doorbell := replicate (Z.to_nat VF_ANS_DB_COUNT) 0 |> <| intm := 0 |> <| irq_status := 0 |>
           <| admin_cq_tail := 0 |> <| admin_cq_phase := 1 |>) in
  m ← ans_sync_pci_irq m a;
  Some (m, a).

Definition vf_ans_bind_pci (m : parts H) (a : ptr vf_ans_v1) (p : ptr Z) : option (Z * parts H * ptr vf_ans_v1) :=
  match a with
  | None => Some (-1, m, None)
  | Some d =>
    m ← match pci d with
      | Some old => if bool_decide (p = Some old) then Some m else pci_set m old 0
      | None => Some m
      end;
    let d := d <| pci := p |> in
    m ← match p with Some _ => ans_sync_pci_irq m d | None => Some m end;
    Some (0, m, Some d)
  end.

(** The cases of the write. *)
Definition write_cases (m : parts H) (a : vf_ans_v1) (off value : Z) :
    list (Z * option (Z * parts H * vf_ans_v1)) :=
  let quiet a := Some (0, m, a) in
  let vendor := '(rc, a) ← ans_sparse_store a off value; Some (rc, m, a) in [
  (VF_ANS_REG_INTMS, let a := a <| intm := Z.lor (intm a) value |> in m ← ans_sync_pci_irq m a; Some (0, m, a));
  (VF_ANS_REG_INTMC,
    let a := a <| intm := Z.land (intm a) (bnot 32 value) |> in m ← ans_sync_pci_irq m a; Some (0, m, a));
  (VF_ANS_REG_CC, '(m, a) ← ans_apply_cc_enable m a value; Some (0, m, a));
  (VF_ANS_REG_CSTS, quiet a);
  (VF_ANS_REG_AQA, quiet (a <| aqa := value |>));
  (VF_ANS_REG_ASQ_LO, quiet (a <| asq_lo := value |>));
  (VF_ANS_REG_ASQ_HI, quiet (a <| asq_hi := value |>));
  (VF_ANS_REG_ACQ_LO, quiet (a <| acq_lo := value |>));
  (VF_ANS_REG_ACQ_HI, quiet (a <| acq_hi := value |>));
  (VF_ANS_REG_MODESEL, quiet (a <| modesel := value |>));
  (VF_ANS_REG_BASE_CMD_ID, quiet (a <| base_cmd_id := value |>));
  (VF_ANS_REG_LINEAR_SQ, quiet (a <| linear_sq := value |>));
  (VF_ANS_REG_CAP_LO, quiet a);
  (VF_ANS_REG_CAP_HI, quiet a);
  (VF_ANS_REG_VS, quiet a);
  (VF_ANS_REG_MAX_PEND, vendor);
  (VF_ANS_REG_BOOT_STATUS, vendor)].

(** A store to doorbell [dbi]. *)
Definition write_doorbell (m : parts H) (a : vf_ans_v1) (dbi value : Z) : option (parts H * vf_ans_v1) :=
  let newv := Z.land value VF_ANS_DB_VALUE_MASK in
  oldv ← arr_get (doorbell a) dbi;
  bells ← arr_set (doorbell a) dbi newv;
  let a := a <| doorbell := bells |> in
  if (dbi =? 0) && negb (newv =? oldv) && nz (admin_id_armed a) then
    ans_try_admin_identify_on_doorbell m a (u16 (Z.land oldv VF_ANS_DB_VALUE_MASK))
  else if dbi =? 1 then ans_refresh_admin_cq_irq m a
  else Some (m, a).

Definition vf_ans_write (m : parts H) (a : ptr vf_ans_v1) (off width value : Z) :
    option (Z * parts H * ptr vf_ans_v1) :=
  match a with
  | None => Some (-1, m, None)
  | Some d =>
    if nz (ans_bounds off width) then Some (-1, m, a)
    else
      let dbi := ans_db_index off in
      if 0 <=? dbi then '(m, d) ← write_doorbell m d dbi value; Some (0, m, Some d)
      else
        match switch off (write_cases m d off value) with
        | Some r => '(rc, m, d) ← r; Some (rc, m, Some d)
        | None =>
          if VF_ANS_NVME_ALIAS_SIZE <=? off then
            '(rc, d) ← ans_sparse_store d off value; Some (rc, m, Some d)
          else Some (0, m, a)
        end
  end.

End controller.

End Ans.
