(* ===== verification/AnsIdentify.v ===== *)
(** The Identify command of the storage controller (file Ans): what a doorbell does
    when a command is armed.

    The file gives the command an abstract reading, independent of the code: which
    submission entries are acceptable ([acceptable]), which linked objects let data
    through ([gates_open]), and which bytes go where ([fill], [completion_entry]); and
    proves that the doorbell handler does exactly that, on every branch. *)
From S2P Require Import Prelude.
From S2P Require Import Words.
From S2P Require Import Mmio.
From S2P Require Import Bytes.
From S2P Require Import AnsPci.
From S2P Require Import AnsMbox.
From S2P Require Import Ascwrap.
From S2P Require Import AnsAutoboot.
From S2P Require Import Ans.

Module AnsIdentify.
Import Ans.

(** ** Writing into buffers *)

(** [bs] in place of the bytes of [b] from [o] on. *)
Definition splice (b : bytes) (o : Z) (bs : bytes) : bytes :=
  take (Z.to_nat o) b ++ bs ++ drop (Z.to_nat o + length bs) b.

Lemma length_splice b o bs :
  0 ≤ o → o + Z.of_nat (length bs) ≤ Z.of_nat (length b) → length (splice b o bs) = length b.
Proof. intros. unfold splice. rewrite !length_app, length_take, length_drop. lia. Qed.

Lemma splice_head b pg : splice b 0 pg = pg ++ drop (length pg) b.
Proof. done. Qed.

Lemma splice_splice b pg o bs :
  0 ≤ o → o + Z.of_nat (length bs) ≤ Z.of_nat (length pg) →
  splice (splice b 0 pg) o bs = splice b 0 (splice pg o bs).
Proof.
  intros Ho Hl. rewrite !splice_head. unfold splice at 1. rewrite take_app_le, drop_app_le by lia.
  rewrite length_splice by lia. unfold splice. by rewrite <- !app_assoc.
Qed.

Section identify.
Context {H : Type}.
Implicit Types m : parts H.

Definition put (m : parts H) (p o : Z) (bs : bytes) : parts H :=
  m <| io := (io m) <| AnsPci.heap := alter (λ b, splice b o bs) p (AnsPci.heap (io m)) |> |>.

(** A buffer of at least [n] bytes at [p]. *)
Definition room (m : parts H) (p n : Z) : Prop :=
  ∃ b, AnsPci.heap (io m) !! p = Some b ∧ n ≤ Z.of_nat (length b).

Lemma room_le m p n n' : n' ≤ n → room m p n → room m p n'.
Proof. intros Hle (b & Hb & Hl). exists b. split; [done|lia]. Qed.

Lemma room_shape m m' p n : AnsPci.same_shape (io m) (io m') → room m p n → room m' p n.
Proof.
  intros Hs (b & Hb & Hl). specialize (Hs p). rewrite Hb in Hs. cbn in Hs.
  destruct (AnsPci.heap (io m') !! p) as [b'|] eqn:E; [|done]. injection Hs as Hs. exists b'. split; [done|lia].
Qed.

Lemma put_shape m p o bs n :
  room m p n → 0 ≤ o → o + Z.of_nat (length bs) ≤ n → AnsPci.same_shape (io m) (io (put m p o bs)).
Proof.
  intros (b & Hb & Hl) Ho Hn q. cbn. destruct (decide (p = q)) as [<-|Hne].
  - rewrite lookup_alter_eq, Hb. cbn. by rewrite length_splice by lia.
  - by rewrite lookup_alter_ne.
Qed.

Lemma store_put m p o bs n :
  room m p n → 0 ≤ o → o + Z.of_nat (length bs) ≤ n → mem_store m p o bs = Some (put m p o bs).
Proof.
  intros (b & Hb & Hl) Ho Hn. unfold mem_store. rewrite Hb. cbn [mbind option_bind].
  rewrite buf_write_Some by lia. cbn [mbind option_bind]. unfold put.
  assert (alter (λ b, splice b o bs) p (AnsPci.heap (io m)) = <[p := splice b o bs]> (AnsPci.heap (io m))) as ->; [|done].
  apply map_eq. intros q. destruct (decide (p = q)) as [<-|Hne].
  - by rewrite lookup_insert_eq, lookup_alter_eq, Hb.
  - by rewrite lookup_insert_ne, lookup_alter_ne.
Qed.

Lemma put_put m p pg o bs n :
  room m p n → Z.of_nat (length pg) ≤ n → 0 ≤ o → o + Z.of_nat (length bs) ≤ Z.of_nat (length pg) →
  put (put m p 0 pg) p o bs = put m p 0 (splice pg o bs).
Proof.
  intros (b & Hb & Hl) Hpg Ho Hle. unfold put. destruct m as [[hp host] lk bt]. cbn in *.
  assert (alter (λ b, splice b o bs) p (alter (λ b, splice b 0 pg) p hp) = alter (λ b, splice b 0 (splice pg o bs)) p hp)
    as ->; [|done].
  apply map_eq. intros q. destruct (decide (p = q)) as [<-|Hne].
  - rewrite !lookup_alter_eq, Hb. cbn. f_equal. by apply splice_splice.
  - by rewrite !lookup_alter_ne.
Qed.

(** A store into the page just written. *)
Lemma store_again m p pg o bs n :
  room m p n → Z.of_nat (length pg) ≤ n → 0 ≤ o → o + Z.of_nat (length bs) ≤ Z.of_nat (length pg) →
  mem_store (put m p 0 pg) p o bs = Some (put m p 0 (splice pg o bs)).
Proof.
  intros Hr Hpg Ho Hle. rewrite (store_put _ _ _ _ n) by (lia || (eapply room_shape; [|exact Hr]; eapply put_shape; [exact Hr|lia..])).
  by rewrite (put_put _ _ _ _ _ n).
Qed.

Lemma load_put m p pg o k n :
  room m p n → Z.of_nat (length pg) ≤ n → 0 ≤ o → 0 ≤ k → o + k ≤ Z.of_nat (length pg) →
  mem_load (put m p 0 pg) p o k = Some (take (Z.to_nat k) (drop (Z.to_nat o) pg)).
Proof.
  intros (b & Hb & Hl) Hpg Ho Hk Hle. unfold mem_load, put. cbn. rewrite lookup_alter_eq, Hb. cbn.
  rewrite splice_head. pose proof (buf_read_mid [] pg (drop (length pg) b) o k) as Hr. cbn in Hr.
  change (Z.of_nat 0 + o) with (0 + o) in Hr. rewrite Z.add_0_l in Hr. by apply Hr.
Qed.

Lemma load_put_ne m p q o bs o' k : p ≠ q → mem_load (put m p o bs) q o' k = mem_load m q o' k.
Proof. intros Hne. unfold mem_load, put. cbn. by rewrite lookup_alter_ne. Qed.

Lemma copy_ne m dst doff src soff n :
  dst ≠ src → mem_copy m dst doff src soff n = (bs ← mem_load m src soff n; mem_store m dst doff bs).
Proof. intros Hne. unfold mem_copy. by rewrite (proj2 (Z.eqb_neq dst src) Hne). Qed.

End identify.

(** ** The data *)

(** Identify Controller: the bytes that are not zero.  Identify Namespace: a namespace
    of no capacity, all zero. *)
Definition identify_byte (apple : bool) (i : Z) : Z :=
  default 0 (switch i [(77, if apple then 8 else 7); (81, 4); (82, 1); (111, 1);
    (512, if apple then 0x76 else 0x66); (513, 0x44); (516, 16)]).

Definition identify_page (apple : bool) (cns : Z) : bytes :=
  if cns =? 1 then identify_byte apple <$> seqZ 0 4096 else replicate (Z.to_nat 4096) 0.

Arguments identify_page : simpl never.

(** A completion: the queue head the controller saw, and the phase. *)
Definition completion_entry (head phase : Z) : bytes :=
  replicate 8 0 ++ [head mod 256; head / 256; 0; 0; 0; 0; phase; 0].

Definition ctrl_fields (apple : bool) : list (Z * bytes) :=
  [(77, [if apple then 8 else 7]); (80, [0; 4; 1; 0]); (111, [1]); (512, [if apple then 0x76 else 0x66]);
   (513, [0x44]); (516, [16; 0; 0; 0])].
Definition ns_fields : list (Z * bytes) :=
  [(0, replicate 8 0); (8, replicate 8 0); (16, replicate 8 0); (25, [0]); (26, [0])].

Definition splices (pg : bytes) (fs : list (Z * bytes)) : bytes :=
  fold_left (λ pg '(o, bs), splice pg o bs) fs pg.

Lemma ctrl_page apple : splices (replicate (Z.to_nat 4096) 0) (ctrl_fields apple) = identify_page apple 1.
Proof. destruct apple; vm_compute; reflexivity. Qed.

Lemma ns_page apple : splices (replicate (Z.to_nat 4096) 0) ns_fields = identify_page apple 0.
Proof. vm_compute. reflexivity. Qed.

Lemma length_identify_page apple cns : length (identify_page apple cns) = 4096%nat.
Proof.
  unfold identify_page. destruct (cns =? 1); [by rewrite length_fmap, length_seqZ|by rewrite length_replicate].
Qed.

Section fill.
Context {H : Type}.
Implicit Types m : parts H.

(** Stores of fields into the page just cleared. *)
Lemma stores_again {R} (k : parts H → option R) m p pg fs n :
  room m p n → Z.of_nat (length pg) ≤ n →
  Forall (λ '(o, bs), 0 ≤ o ∧ o + Z.of_nat (length bs) ≤ Z.of_nat (length pg)) fs →
  foldr (λ '(o, bs) k m, m' ← mem_store m p o bs; k m') k fs (put m p 0 pg) = k (put m p 0 (splices pg fs)).
Proof.
  intros Hr Hpg Hfs. revert pg Hpg Hfs. induction fs as [|[o bs] fs IH]; intros pg Hpg Hfs; cbn [foldr splices fold_left]; [done|].
  apply Forall_cons_1 in Hfs as [[Ho Hb] Hfs]. rewrite (store_again m p pg o bs n) by done. cbn [mbind option_bind].
  change (fold_left _ fs (splice pg o bs)) with (splices (splice pg o bs) fs).
  apply IH; rewrite length_splice by lia; done.
Qed.

Lemma ctrl_fill m (a : vf_ans_v1) b :
  room m b 4096 →
  (meta ← (vf_ans_identify_cns_ctrl (Some a) true).2;
   m ← mem_store m b 0 (replicate (Z.to_nat VF_ANS_ID_CTRL_SIZE) 0);
   m ← mem_store m b VF_ANS_ID_OFF_MDTS [cm_mdts meta];
   m ← ans_store_le32 m b VF_ANS_ID_OFF_VER (cm_ver meta);
   m ← mem_store m b VF_ANS_ID_OFF_CNTRLTYPE [cm_cntrltype meta];
   m ← mem_store m b VF_ANS_ID_OFF_SQES [cm_sqes meta];
   m ← mem_store m b VF_ANS_ID_OFF_CQES [cm_cqes meta];
   m ← ans_store_le32 m b VF_ANS_ID_OFF_NN (cm_nn meta);
   Some (0, m))
  = Some (0, put m b 0 (identify_page (nz (is_apple_ans a)) 1)).
Proof.
  intros Hr. cbn [vf_ans_identify_cns_ctrl snd negb mbind option_bind cm_mdts cm_ver cm_cntrltype cm_sqes cm_cqes cm_nn].
  change VF_ANS_ID_CTRL_SIZE with 4096. rewrite (store_put m b 0 _ 4096) by (rewrite ?length_replicate; done || lia).
  cbn [mbind option_bind]. set (apple := nz (is_apple_ans a)).
  unfold ans_store_le32.
  assert ((if apple then u8 VF_ANS_ID_MDTS_APPLE else u8 VF_ANS_ID_MDTS_STD) = if apple then 8 else 7) as -> by (by destruct apple).
  assert ((if apple then u8 VF_ANS_ID_SQES_APPLE else u8 VF_ANS_ID_SQES_STD) = if apple then 0x76 else 0x66) as -> by (by destruct apple).
  change [u8 VF_ANS_ID_VER; u8 (Z.shiftr VF_ANS_ID_VER 8); u8 (Z.shiftr VF_ANS_ID_VER 16); u8 (Z.shiftr VF_ANS_ID_VER 24)] with [0; 4; 1; 0].
  change [u8 VF_ANS_ID_NN; u8 (Z.shiftr VF_ANS_ID_NN 8); u8 (Z.shiftr VF_ANS_ID_NN 16); u8 (Z.shiftr VF_ANS_ID_NN 24)] with [16; 0; 0; 0].
  change (u8 VF_ANS_ID_CNTRLTYPE) with 1. change (u8 VF_ANS_ID_CQES) with 0x44.
  unfold VF_ANS_ID_OFF_MDTS, VF_ANS_ID_OFF_VER, VF_ANS_ID_OFF_CNTRLTYPE, VF_ANS_ID_OFF_SQES, VF_ANS_ID_OFF_CQES, VF_ANS_ID_OFF_NN.
  rewrite <- ctrl_page.
  apply (stores_again (λ m, Some (0, m)) m b (replicate (Z.to_nat 4096) 0) (ctrl_fields apple) 4096 Hr);
    rewrite length_replicate; [lia|]. unfold ctrl_fields. foralls; destruct apple; cbn [length]; lia.
Qed.

Lemma ns_fill m (a : vf_ans_v1) b :
  room m b 4096 →
  (meta ← (vf_ans_identify_cns_ns (Some a) true).2;
   m ← mem_store m b 0 (replicate (Z.to_nat VF_ANS_ID_NS_SIZE) 0);
   m ← ans_store_le64 m b VF_ANS_ID_NS_OFF_NSZE (nm_nsze meta);
   m ← ans_store_le64 m b VF_ANS_ID_NS_OFF_NCAP (nm_ncap meta);
   m ← ans_store_le64 m b VF_ANS_ID_NS_OFF_NUSE (nm_nuse meta);
   m ← mem_store m b VF_ANS_ID_NS_OFF_NLBAF [nm_nlbaf meta];
   m ← mem_store m b VF_ANS_ID_NS_OFF_FLBAS [nm_flbas meta];
   Some (0, m))
  = Some (0, put m b 0 (identify_page (nz (is_apple_ans a)) 0)).
Proof.
  intros Hr. cbn [vf_ans_identify_cns_ns snd negb mbind option_bind nm_nsze nm_ncap nm_nuse nm_nlbaf nm_flbas].
  change VF_ANS_ID_NS_SIZE with 4096. rewrite (store_put m b 0 _ 4096) by (rewrite ?length_replicate; done || lia).
  cbn [mbind option_bind]. rewrite <- ns_page.
  apply (stores_again (λ m, Some (0, m)) m b (replicate (Z.to_nat 4096) 0) ns_fields 4096 Hr);
    rewrite length_replicate; [lia|]. unfold ns_fields. foralls; rewrite ?length_replicate; cbn [length]; lia.
Qed.

(** ** The gates *)

Definition optional {A} (p : ptr Z) (objects : gmap Z A) (ok : A → bool) : bool :=
  match p with Some x => match objects !! x with Some o => ok o | None => false end | None => true end.

(** The controller is enabled and ready, and every linked object lets data through. *)
Definition gates_open (m : parts H) (a : vf_ans_v1) : bool :=
  let c := links m in
  Z.odd (cc a) && Z.odd (csts a)
  && optional (pci a) (AnsAutoboot.pcis c) AnsMbox.mastering
  && optional (mbox a) (AnsAutoboot.mboxes c) (Ascwrap.mbox_live (AnsAutoboot.pcis c))
  && optional (ascwrap a) (AnsAutoboot.wraps c) (Ascwrap.wrap_live (AnsAutoboot.pcis c) (AnsAutoboot.mboxes c))
  && optional (autoboot a) (boots m) (AnsAutoboot.boot_live c).

Definition leads {A} (p : ptr Z) (objects : gmap Z A) : Prop :=
  match p with Some x => is_Some (objects !! x) | None => True end.

(** No link dangles, of the controller and of the objects it reaches. *)
Record closed (m : parts H) (a : vf_ans_v1) : Prop := {
  cl_pci : leads (pci a) (AnsAutoboot.pcis (links m));
  cl_mbox : leads (mbox a) (AnsAutoboot.mboxes (links m));
  cl_wrap : leads (ascwrap a) (AnsAutoboot.wraps (links m));
  cl_boot : leads (autoboot a) (boots m);
  cl_chain : AnsAutoboot.chain_closed (links m);
  cl_boots : map_Forall (λ _, AnsAutoboot.boot_closed (links m)) (boots m);
}.

(** What the gates may leave of the objects: flags brought up to date. *)
Record parts_same (m m' : parts H) : Prop := {
  ps_io : io m' = io m;
  ps_links : AnsAutoboot.chain_same (links m) (links m');
  ps_boots x : is_Some (boots m' !! x) ↔ is_Some (boots m !! x);
}.

Lemma parts_same_refl m : parts_same m m.
Proof. done. Qed.

Lemma parts_same_trans m1 m2 m3 : parts_same m1 m2 → parts_same m2 m3 → parts_same m1 m3.
Proof.
  intros [I1 L1 B1] [I2 L2 B2]. constructor; [by rewrite I2|by eapply AnsAutoboot.chain_same_trans|].
  intros x. by rewrite B2.
Qed.

Lemma leads_iff {A} p (o1 o2 : gmap Z A) :
  (∀ x, is_Some (o2 !! x) ↔ is_Some (o1 !! x)) → leads p o1 → leads p o2.
Proof. intros Hx. destruct p as [x|]; [|done]. cbn. by rewrite Hx. Qed.

(** Changing the chain within [chain_same]. *)
Lemma closed_links m a c :
  closed m a → AnsAutoboot.chain_closed c → AnsAutoboot.chain_same (links m) c → closed (m <| links := c |>) a.
Proof.
  intros [] Hc [Hp Hm Hw Hb Ha]. constructor; cbn; try done.
  - by rewrite Hp.
  - by eapply leads_iff.
  - by eapply leads_iff.
  - intros x s Hs. specialize (cl_boots0 x s Hs). unfold AnsAutoboot.boot_closed in *.
    destruct (AnsAutoboot.ascwrap s); [|done]. by rewrite Hw.
Qed.

Lemma mbox_asked m a x b :
  closed m a → AnsAutoboot.mboxes (links m) !! x = Some b →
  let c := (links m) <| AnsAutoboot.mboxes := <[x := Ascwrap.asked (AnsAutoboot.pcis (links m)) b]> (AnsAutoboot.mboxes (links m)) |> in
  AnsAutoboot.chain_closed c ∧ AnsAutoboot.chain_same (links m) c.
Proof.
  intros Hc Hb c. pose proof (cl_chain m a Hc) as [Hm Hw].
  assert (∀ y, is_Some (AnsAutoboot.mboxes c !! y) ↔ is_Some (AnsAutoboot.mboxes (links m) !! y)) as Hdom.
  { intros y. cbn. rewrite lookup_insert_is_Some'. split; [|by right]. by intros [<-|]. }
  assert (∀ w, Ascwrap.wrap_live (AnsAutoboot.pcis c) (AnsAutoboot.mboxes c) w
    = Ascwrap.wrap_live (AnsAutoboot.pcis (links m)) (AnsAutoboot.mboxes (links m)) w) as Hlive.
  { intros w. by apply Ascwrap.asked_wrap_live. }
  split; constructor; try done.
  - by apply Ascwrap.asked_mboxes_closed.
  - intros y w Hy. specialize (Hw y w Hy). unfold Ascwrap.wrap_closed in *. destruct (Ascwrap.mbox w); [|done]. by rewrite Hdom.
  - intros s. unfold AnsAutoboot.boot_live. destruct (AnsAutoboot.ascwrap s) as [y|]; [|done].
    change (AnsAutoboot.wraps c) with (AnsAutoboot.wraps (links m)). destruct (_ !! y); [|done]. apply Hlive.
Qed.

(** Replacing a bootstrap window by itself with another flag word. *)
Lemma boot_asked m a x s w :
  closed m a → boots m !! x = Some s →
  closed (m <| boots := <[x := s <| AnsAutoboot.flags := w |>]> (boots m) |>) a ∧
  parts_same m (m <| boots := <[x := s <| AnsAutoboot.flags := w |>]> (boots m) |>).
Proof.
  intros [] Hs.
  assert (∀ y, is_Some (<[x := s <| AnsAutoboot.flags := w |>]> (boots m) !! y) ↔ is_Some (boots m !! y)) as Hdom.
  { intros y. rewrite lookup_insert_is_Some'. split; [|by right]. by intros [<-|]. }
  split; constructor; try done.
  - by eapply leads_iff.
  - apply map_Forall_insert_2; [|done]. exact (cl_boots0 x s Hs).
Qed.

Lemma mbox_stage m a :
  closed m a →
  ∃ m', match mbox a with
    | None => Some (true, m)
    | Some x =>
      b ← AnsAutoboot.mboxes (links m) !! x;
      '(rc, b) ← AnsMbox.vf_ans_mbox_started (AnsAutoboot.pcis (links m)) (Some b);
      b ← b;
      Some (nz rc, m <| links := (links m) <| AnsAutoboot.mboxes := <[x := b]> (AnsAutoboot.mboxes (links m)) |> |>)
    end = Some (optional (mbox a) (AnsAutoboot.mboxes (links m)) (Ascwrap.mbox_live (AnsAutoboot.pcis (links m))), m') ∧
    closed m' a ∧ parts_same m m' ∧ boots m' = boots m.
Proof.
  intros Hc. pose proof (cl_mbox m a Hc) as Hl. destruct (mbox a) as [x|]; [|by exists m].
  destruct Hl as [b Hb]. rewrite Hb. cbn [mbind option_bind optional]. rewrite Hb.
  rewrite Ascwrap.started_asked by (by apply (AnsAutoboot.cc_mboxes _ (cl_chain m a Hc) x)).
  cbn [mbind option_bind]. destruct (mbox_asked m a x b Hc Hb) as [Hcc Hsame].
  rewrite nz_b2z. eexists. split; [reflexivity|]. split; [by apply closed_links|split; [by constructor|done]].
Qed.

Lemma wrap_stage m a :
  closed m a →
  ∃ m', match ascwrap a with
    | None => Some (true, m)
    | Some x =>
      w ← AnsAutoboot.wraps (links m) !! x;
      '(rc, mb, w) ← Ascwrap.vf_ascwrap_ready (AnsAutoboot.pcis (links m)) (AnsAutoboot.mboxes (links m)) (Some w);
      w ← w;
      Some (nz rc, m <| links := (links m) <| AnsAutoboot.mboxes := mb |>
                       <| AnsAutoboot.wraps := <[x := w]> (AnsAutoboot.wraps (links m)) |> |>)
    end = Some (optional (ascwrap a) (AnsAutoboot.wraps (links m))
                  (Ascwrap.wrap_live (AnsAutoboot.pcis (links m)) (AnsAutoboot.mboxes (links m))), m') ∧
    closed m' a ∧ parts_same m m' ∧ boots m' = boots m.
Proof.
  intros Hc. pose proof (cl_wrap m a Hc) as Hl. pose proof (cl_chain m a Hc) as Hcc.
  destruct (ascwrap a) as [x|]; [|by exists m].
  destruct Hl as [w Hw]. rewrite Hw. cbn [mbind option_bind optional]. rewrite Hw.
  destruct (Ascwrap.ready_ok (AnsAutoboot.pcis (links m)) (AnsAutoboot.mboxes (links m)) w) as (mb & -> & Hm & Hdom & Hlive);
    [apply Hcc|by apply (AnsAutoboot.cc_wraps _ Hcc x)|].
  cbn [mbind option_bind].
  destruct (AnsAutoboot.wrap_flags_same (links m) x w (Ascwrap.flag_put 1 (Ascwrap.wrap_live (AnsAutoboot.pcis (links m))
    (AnsAutoboot.mboxes (links m)) w) (Ascwrap.flags w)) mb Hcc Hw Hm Hdom Hlive) as [Hcl Hsame].
  rewrite nz_b2z. eexists. split; [reflexivity|]. split; [by apply closed_links|split; [by constructor|done]].
Qed.

Lemma boot_stage m a :
  closed m a →
  ∃ m', match autoboot a with
    | None => Some (true, m)
    | Some x =>
      s ← boots m !! x;
      '(rc, c, s) ← AnsAutoboot.vf_ans_autoboot_armed (links m) (Some s);
      s ← s;
      Some (nz rc, m <| links := c |> <| boots := <[x := s]> (boots m) |>)
    end = Some (optional (autoboot a) (boots m) (AnsAutoboot.boot_live (links m)), m') ∧
    closed m' a ∧ parts_same m m'.
Proof.
  intros Hc. pose proof (cl_boot m a Hc) as Hl. destruct (autoboot a) as [x|]; [|by exists m].
  destruct Hl as [s Hs]. rewrite Hs. cbn [mbind option_bind optional]. rewrite Hs.
  destruct (AnsAutoboot.armed_ok (links m) s) as (c & -> & Hcc & Hsame); [apply Hc|by apply (cl_boots m a Hc x)|].
  cbn [mbind option_bind].
  pose proof (closed_links m a c Hc Hcc Hsame) as Hc1.
  destruct (boot_asked (m <| links := c |>) a x s (Ascwrap.flag_put 1 (AnsAutoboot.boot_live (links m) s) (AnsAutoboot.flags s)) Hc1 Hs)
    as [Hc2 Hsame2].
  rewrite nz_b2z. eexists. split; [reflexivity|]. split; [exact Hc2|].
  eapply parts_same_trans; [|exact Hsame2]. by constructor.
Qed.

Lemma optional_wraps (c c' : AnsAutoboot.chain H) p :
  AnsAutoboot.chain_same c c' →
  optional p (AnsAutoboot.wraps c') (Ascwrap.wrap_live (AnsAutoboot.pcis c') (AnsAutoboot.mboxes c'))
  = optional p (AnsAutoboot.wraps c) (Ascwrap.wrap_live (AnsAutoboot.pcis c) (AnsAutoboot.mboxes c)).
Proof.
  intros Hs. destruct p as [x|]; [|done].
  exact (AnsAutoboot.cs_boot _ _ Hs {| AnsAutoboot.status := 0; AnsAutoboot.flags := 0; AnsAutoboot.last_autoboot_write := 0;
    AnsAutoboot.autoboot_write_seen := 0; AnsAutoboot.ascwrap := Some x |}).
Qed.

Lemma optional_boots m m' p :
  AnsAutoboot.chain_same (links m) (links m') → boots m' = boots m →
  optional p (boots m') (AnsAutoboot.boot_live (links m')) = optional p (boots m) (AnsAutoboot.boot_live (links m)).
Proof.
  intros Hs ->. destruct p as [x|]; [|done]. cbn. destruct (boots m !! x); [|done]. apply (AnsAutoboot.cs_boot _ _ Hs).
Qed.

(** The gates answer whether everything is open, and only bring flags up to date. *)
Lemma gates_ok m a :
  closed m a → ∃ m', dma_gates m a = Some (gates_open m a, m') ∧ closed m' a ∧ parts_same m m'.
Proof.
  intros Hc. unfold dma_gates, gates_open, VF_ANS_CC_EN, VF_ANS_CSTS_RDY. rewrite !land_bit_nz by lia.
  rewrite !Z.bit0_odd. destruct (Z.odd (cc a)); cbn [negb orb andb]; [|by exists m].
  destruct (Z.odd (csts a)); cbn [negb orb andb]; [|by exists m].
  assert ((match pci a with
    | None => Some true
    | Some p => h ← AnsAutoboot.pcis (links m) !! p; Some (nz (AnsPci.vf_ans_pci_bus_master_enabled (Some h)))
    end) = Some (optional (pci a) (AnsAutoboot.pcis (links m)) AnsMbox.mastering)) as ->.
  { pose proof (cl_pci m a Hc) as Hl. destruct (pci a) as [p|]; [|done]. destruct Hl as [h Hh].
    cbn [optional]. rewrite Hh. cbn [mbind option_bind]. by rewrite AnsMbox.mastering_enabled. }
  cbn [mbind option_bind]. destruct (optional (pci a) _ _); cbn [negb andb]; [|by exists m].
  destruct (mbox_stage m a Hc) as (m1 & -> & Hc1 & Hs1 & Hb1). cbn [mbind option_bind].
  destruct (optional (mbox a) _ _); cbn [negb andb]; [|by exists m1].
  destruct (wrap_stage m1 a Hc1) as (m2 & -> & Hc2 & Hs2 & Hb2). cbn [mbind option_bind].
  rewrite (optional_wraps _ _ _ (ps_links _ _ Hs1)). pose proof (parts_same_trans _ _ _ Hs1 Hs2) as Hs12.
  destruct (optional (ascwrap a) _ _); cbn [negb andb]; [|by exists m2].
  destruct (boot_stage m2 a Hc2) as (m3 & -> & Hc3 & Hs3).
  rewrite (optional_boots m m2) by (by apply Hs12 || by rewrite Hb2).
  exists m3. split; [done|]. split; [done|]. by eapply parts_same_trans.
Qed.

End fill.

(** ** Submission entries *)

(** A little-endian field of [n] bytes. *)
Definition field (e : bytes) (o : Z) (n : nat) : Z := foldr (λ b acc, b + 256 * acc) 0 (take n (drop (Z.to_nat o) e)).

Arguments field : simpl never.

Lemma arr_get_drop {A} (l : list A) o k : 0 ≤ o → 0 ≤ k → arr_get l (o + k) = arr_get (drop (Z.to_nat o) l) k.
Proof. intros. unfold arr_get. rewrite !bool_decide_true by lia. rewrite lookup_drop. f_equal. lia. Qed.

(** The bytes of a field. *)
Lemma field_bytes e o n :
  0 ≤ o → o + Z.of_nat n ≤ Z.of_nat (length e) → Forall is_byte e →
  ∃ l, length l = n ∧ Forall is_byte l ∧ field e o n = foldr (λ b acc, b + 256 * acc) 0 l ∧
    ∀ k, 0 ≤ k < Z.of_nat n → arr_get e (o + k) = arr_get l k.
Proof.
  intros Ho Hn He. exists (take n (drop (Z.to_nat o) e)). rewrite length_take, length_drop.
  split; [lia|]. split; [by apply Forall_take, Forall_drop|]. split; [done|]. intros k Hk.
  rewrite arr_get_drop by lia. unfold arr_get. rewrite !bool_decide_true by lia. by rewrite lookup_take_lt by lia.
Qed.

Lemma load8_field e o :
  0 ≤ o → o + 1 ≤ Z.of_nat (length e) → Forall is_byte e → arr_get e o = Some (field e o 1).
Proof.
  intros Ho Hl He. destruct (field_bytes e o 1) as (l & Hlen & Hb & -> & Hget); [lia..|done|].
  destruct l as [|b [|]]; try done. rewrite <- (Z.add_0_r o) at 1. rewrite Hget by lia.
  cbn. change (arr_get [b] 0) with (Some b). f_equal. lia.
Qed.

Lemma load32_field e o :
  0 ≤ o → o + 4 ≤ Z.of_nat (length e) → Forall is_byte e → ans_load_le32 e o = Some (field e o 4).
Proof.
  intros Ho Hl He. destruct (field_bytes e o 4) as (l & Hlen & Hb & -> & Hget); [lia..|done|].
  destruct l as [|b0 [|b1 [|b2 [|b3 [|]]]]]; try done. foralls. unfold ans_load_le32.
  rewrite <- (Z.add_0_r o) at 1. rewrite !Hget by lia. cbn [foldr].
  transitivity (Some (le32_join b0 b1 b2 b3)); [reflexivity|]. rewrite le32_join_sum by done. f_equal. lia.
Qed.

Lemma load64_field e o :
  0 ≤ o → o + 8 ≤ Z.of_nat (length e) → Forall is_byte e → ans_load_le64 e o = Some (field e o 8).
Proof.
  intros Ho Hl He. destruct (field_bytes e o 8) as (l & Hlen & Hb & -> & Hget); [lia..|done|].
  destruct l as [|b0 [|b1 [|b2 [|b3 [|b4 [|b5 [|b6 [|b7 [|]]]]]]]]]; try done. foralls. unfold ans_load_le64.
  rewrite <- (Z.add_0_r o) at 1. rewrite !Hget by lia. cbn [foldr].
  transitivity (Some (Z.lor (Z.lor (Z.lor (Z.lor (Z.lor (Z.lor (Z.lor b0 (shl 64 b1 8)) (shl 64 b2 16)) (shl 64 b3 24))
    (shl 64 b4 32)) (shl 64 b5 40)) (shl 64 b6 48)) (shl 64 b7 56))); [reflexivity|].
  unfold fits in *. unfold shl. rewrite !Z.shiftl_mul_pow2 by lia. rewrite !(wrap_id 64) by (unfold fits; lia).
  rewrite (Z.lor_comm b0), (lor_high_low 8) by (unfold fits; lia).
  rewrite (Z.lor_comm _ (b2 * _)), (lor_high_low 16) by (unfold fits; lia).
  rewrite (Z.lor_comm _ (b3 * _)), (lor_high_low 24) by (unfold fits; lia).
  rewrite (Z.lor_comm _ (b4 * _)), (lor_high_low 32) by (unfold fits; lia).
  rewrite (Z.lor_comm _ (b5 * _)), (lor_high_low 40) by (unfold fits; lia).
  rewrite (Z.lor_comm _ (b6 * _)), (lor_high_low 48) by (unfold fits; lia).
  rewrite (Z.lor_comm _ (b7 * _)), (lor_high_low 56) by (unfold fits; lia). f_equal. lia.
Qed.

Lemma field_fits e o n : Forall is_byte e → fits (8 * Z.of_nat n) (field e o n).
Proof.
  intros He. unfold field. assert (Forall is_byte (take n (drop (Z.to_nat o) e))) as Hl by (by apply Forall_take, Forall_drop).
  assert (length (take n (drop (Z.to_nat o) e)) ≤ n)%nat as Hlen by (rewrite length_take; lia).
  revert n Hl Hlen. generalize (drop (Z.to_nat o) e). intros l n. generalize (take n l). clear l. intros l. revert n.
  induction l as [|b l IH]; intros n Hl Hlen; cbn [foldr].
  - unfold fits. lia.
  - apply Forall_cons_1 in Hl as [Hb Hl]. destruct n as [|n]; [cbn in Hlen; lia|].
    specialize (IH n Hl ltac:(cbn in Hlen; lia)). unfold fits in *.
    replace (8 * Z.of_nat (S n)) with (8 * Z.of_nat n + 8) by lia. rewrite Z.pow_add_r by lia. lia.
Qed.

(** ** The command *)

(** An entry the controller accepts for an Identify of kind [cns]: the opcode and kind,
    no scatter-gather list, a data address, the one namespace, and data pages the bound
    pages can stand for: a page address and no second one, or an address inside a page
    and the address of a second page. *)
Definition entry_ok (a : vf_ans_v1) (cns : Z) (e : bytes) : bool :=
  let prp1 := field e 24 8 in
  let prp2 := field e 32 8 in
  (field e 0 4 mod 256 =? 6) && (field e 40 1 =? cns) && (field e 0 4 / 2 ^ 14 mod 4 =? 0) && negb (prp1 =? 0)
  && ((cns =? 1) || (field e 4 4 =? 1))
  && match admin_id_prp1_mem a, admin_id_prp2_mem a with
     | None, _ => true
     | Some _, None => (prp1 mod 4096 =? 0) && (prp2 =? 0)
     | Some _, Some _ => if prp1 mod 4096 =? 0 then prp2 =? 0 else negb (prp2 =? 0) && (prp2 mod 4096 =? 0)
     end.

Section command.
Context {H : Type}.
Implicit Types m : parts H.

(** Entry [i] of the bound submission page. *)
Definition entry_at (m : parts H) (mem i : Z) : bytes :=
  take 64 (drop (Z.to_nat (64 * i)) (default [] (AnsPci.heap (io m) !! mem))).

Definition acceptable (m : parts H) (a : vf_ans_v1) (cns i : Z) : bool :=
  match admin_asq_mem a with
  | None => true
  | Some mem =>
    negb ((asq_lo a =? 0) && (asq_hi a =? 0)) && (64 * i + 64 <=? admin_asq_len a) && entry_ok a cns (entry_at m mem i)
  end.

Definition data_pointer (m : parts H) (a : vf_ans_v1) (i : Z) : Z :=
  match admin_asq_mem a with None => 0 | Some mem => field (entry_at m mem i) 24 8 end.

(** Room for a completion in the bound completion page. *)
Definition has_slot (a : vf_ans_v1) : bool :=
  match admin_acq_mem a with
  | None => true
  | Some _ => negb ((acq_lo a =? 0) && (acq_hi a =? 0)) && (16 * admin_cq_tail a + 16 <=? admin_acq_len a)
  end.

(** The data, in the armed buffer and in the bound pages. *)
Definition fill (m : parts H) (a : vf_ans_v1) (b cns prp1 : Z) : parts H :=
  let page := identify_page (nz (is_apple_ans a)) cns in
  let m := put m b 0 page in
  let o := prp1 mod 4096 in
  match admin_id_prp1_mem a, admin_id_prp2_mem a with
  | None, _ => m
  | Some q, Some q2 =>
    if o =? 0 then put m q 0 page
    else put (put m q o (take (Z.to_nat (4096 - o)) page)) q2 0 (drop (Z.to_nat (4096 - o)) page)
  | Some q, None => if o =? 0 then put m q 0 page else m
  end.

(** The completion, in the armed buffer and in the bound page. *)
Definition complete (m : parts H) (a : vf_ans_v1) (cq head : Z) : parts H :=
  let e := completion_entry head (admin_cq_phase a) in
  let m := put m cq 0 e in
  match admin_acq_mem a with Some q => put m q (16 * admin_cq_tail a) e | None => m end.

(** The controller after a completion: the other phase, one more entry, the interrupt. *)
Definition completed (a : vf_ans_v1) : vf_ans_v1 :=
  a <| admin_cq_phase := Z.lxor (admin_cq_phase a) 1 |> <| admin_cq_tail := (admin_cq_tail a + 1) mod 2 ^ 16 |>
    <| irq_status := Z.lor (irq_status a) VF_ANS_IRQ_ADMIN_CQ |>.

(** ** What the handler relies on *)

(** A bound page is there, and is one of [pages]; host buffers are not. *)
Definition page_ok (pages : gset Z) (m : parts H) (p : ptr Z) (len least : Z) : Prop :=
  match p with Some q => q ∈ pages ∧ least ≤ len ∧ fits 32 len ∧ room m q len | None => True end.

Definition armed_ok (pages : gset Z) (m : parts H) (a : vf_ans_v1) : Prop :=
  nz (admin_id_armed a) = true →
  ∃ b cq, admin_id_buf a = Some b ∧ admin_id_cq_buf a = Some cq ∧ admin_id_opcode a = 6 ∧
    (admin_id_cns a = 0 ∨ admin_id_cns a = 1) ∧ 4096 ≤ admin_id_len a ∧ 16 ≤ admin_id_cq_len a ∧
    (b ∉ pages) ∧ (cq ∉ pages) ∧ room m b 4096 ∧ room m cq 16.

Record bufs_ok (pages : gset Z) (m : parts H) (a : vf_ans_v1) : Prop := {
  bo_asq : page_ok pages m (admin_asq_mem a) (admin_asq_len a) 64;
  bo_acq : page_ok pages m (admin_acq_mem a) (admin_acq_len a) 16;
  bo_prp1 : page_ok pages m (admin_id_prp1_mem a) (admin_id_prp1_len a) 4096;
  bo_prp2 : page_ok pages m (admin_id_prp2_mem a) (admin_id_prp2_len a) 4096;
  bo_armed : armed_ok pages m a;
}.

Lemma page_ok_shape pages m m' p len least :
  AnsPci.same_shape (io m) (io m') → page_ok pages m p len least → page_ok pages m' p len least.
Proof. intros Hs. destruct p as [q|]; [|done]. intros (? & ? & ? & ?). split_and!; try done. by eapply room_shape. Qed.

Lemma bufs_ok_shape pages m m' a : AnsPci.same_shape (io m) (io m') → bufs_ok pages m a → bufs_ok pages m' a.
Proof.
  intros Hs []. constructor; try (by eapply page_ok_shape). intros Ha.
  destruct (bo_armed0 Ha) as (b & cq & ? & ? & ? & ? & ? & ? & ? & ? & Hb & Hq). exists b, cq.
  split_and!; try done; by eapply room_shape.
Qed.

(** ** Lemmas *)

Lemma land_ff_zero x y : (Z.lor x y =? 0) = (x =? 0) && (y =? 0).
Proof.
  apply Bool.eq_iff_eq_true. rewrite andb_true_iff, !Z.eqb_eq. apply Z.lor_eq_0_iff.
Qed.

Lemma prp_mask x : Z.land x VF_ANS_PRP_PAGE_MASK = x mod 4096.
Proof. change VF_ANS_PRP_PAGE_MASK with (Z.ones 12). by rewrite Z.land_ones. Qed.

Lemma u32_small x : 0 ≤ x < 2 ^ 32 → u32 x = x.
Proof. intros. by apply wrap_id. Qed.

Lemma fetch_ok pages m a i cns :
  bufs_ok pages m a → fits 16 i → (cns = 0 ∨ cns = 1) →
  (∀ mem, admin_asq_mem a = Some mem → Forall is_byte (default [] (AnsPci.heap (io m) !! mem))) →
  ans_fetch_admin_asq_identify m a i VF_ANS_OPC_IDENTIFY cns
  = Some (if acceptable m a cns i then (0, data_pointer m a i) else (-1, 0)).
Proof.
  intros Hok Hi Hcns Hbytes. unfold ans_fetch_admin_asq_identify, acceptable, data_pointer.
  pose proof (bo_asq _ _ _ Hok) as Hasq. destruct (admin_asq_mem a) as [mem|]; [|done].
  destruct Hasq as (_ & Hmin & Hfit & b & Hb & Hlen). unfold fits in *. rewrite land_ff_zero.
  destruct ((asq_lo a =? 0) && (asq_hi a =? 0)); cbn [negb andb]; [done|].
  unfold VF_ANS_SQE_SIZE. rewrite !u32_small by (rewrite ?u32_small; lia).
  replace (admin_asq_len a <? i * 64 + 64) with (negb (64 * i + 64 <=? admin_asq_len a)) by lia.
  destruct (64 * i + 64 <=? admin_asq_len a) eqn:Efit; cbn [negb andb]; [|done].
  unfold mem_load. rewrite Hb. cbn [mbind option_bind]. rewrite buf_read_Some by lia. cbn [mbind option_bind].
  unfold entry_at. rewrite Hb. change (default [] (Some b)) with b. replace (i * 64) with (64 * i) by lia.
  change (Z.to_nat 64) with 64%nat.
  set (e := take 64 (drop (Z.to_nat (64 * i)) b)).
  assert (Forall is_byte e) as He.
  { specialize (Hbytes mem eq_refl). rewrite Hb in Hbytes. by apply Forall_take, Forall_drop. }
  assert (Z.of_nat (length e) = 64) as Hle by (unfold e; rewrite length_take, length_drop; lia).
  unfold VF_ANS_SQE_OFF_CDW0, VF_ANS_SQE_OFF_NSID, VF_ANS_SQE_OFF_PRP1, VF_ANS_SQE_OFF_PRP2, VF_ANS_SQE_OFF_CDW10,
    VF_ANS_SQE_PSDT_SHIFT, VF_ANS_SQE_PSDT_MASK.
  rewrite !load32_field, load8_field, !load64_field by (done || lia). cbn [mbind option_bind].
  pose proof (field_fits e 24 8 He) as H1. pose proof (field_fits e 32 8 He) as H2. cbn in H1, H2.
  change (8 * Z.of_nat 8) with 64 in H1, H2. unfold fits in H1, H2.
  rewrite land_ff, land_3_mod, Z.shiftr_div_pow2, !prp_mask by lia.
  rewrite !(wrap_id 8) by (unfold fits; dlia). rewrite u32_small by dlia.
  unfold entry_ok, VF_ANS_OPC_IDENTIFY, VF_ANS_ID_CNS_NS, VF_ANS_ID_NS_STUB_NSID.
  destruct (field e 0 4 mod 256 =? 6); cbn [negb orb andb]; [|done].
  destruct (field e 40 1 =? cns); cbn [negb orb andb]; [|done].
  destruct (field e 0 4 / 2 ^ 14 mod 4 =? 0); cbn [negb orb andb]; [|done].
  destruct (field e 24 8 =? 0); cbn [negb orb andb]; [done|].
  assert ((cns =? 0) = negb (cns =? 1)) as -> by (destruct Hcns as [-> | ->]; done).
  rewrite <- negb_orb. pose proof (bo_prp1 _ _ _ Hok) as H3. pose proof (bo_prp2 _ _ _ Hok) as H4.
  change VF_ANS_ID_CTRL_SIZE with 4096.
  destruct ((cns =? 1) || (field e 4 4 =? 1)); cbn [negb andb]; [|done].
  destruct (admin_id_prp1_mem a), (admin_id_prp2_mem a); cbn [page_ok] in *; tests;
    destruct (field e 24 8 mod 4096 =? 0), (field e 32 8 =? 0), (field e 32 8 mod 4096 =? 0); done.
Qed.

Lemma slot_ok pages m a :
  bufs_ok pages m a → fits 16 (admin_cq_tail a) → ans_check_admin_acq_slot a = if has_slot a then 0 else -1.
Proof.
  intros Hok Ht. unfold ans_check_admin_acq_slot, has_slot, VF_ANS_CQE_SIZE. unfold fits in Ht.
  destruct (admin_acq_mem a); [|done]. rewrite land_ff_zero. destruct (_ && _); cbn [negb andb]; [done|].
  rewrite !u32_small by (rewrite ?u32_small; lia). destruct (16 * admin_cq_tail a + 16 <=? _) eqn:E; by tests.
Qed.

Lemma copy_put m q o b pg k n nq :
  q ≠ b → room m b n → room m q nq → Z.of_nat (length pg) ≤ n → 0 ≤ o → 0 ≤ k ≤ Z.of_nat (length pg) → o + k ≤ nq →
  mem_copy (put m b 0 pg) q o b 0 k = Some (put (put m b 0 pg) q o (take (Z.to_nat k) pg)).
Proof.
  intros Hne Hb Hq Hpg Ho Hk Hn. rewrite copy_ne by done. rewrite (load_put _ _ _ _ _ n) by (done || lia).
  cbn [mbind option_bind]. change (Z.to_nat 0) with 0%nat. rewrite drop_0.
  apply (store_put _ _ _ _ nq); [|lia|rewrite length_take; lia].
  eapply room_shape; [|exact Hq]. eapply put_shape; [exact Hb|lia..].
Qed.

Lemma page_room pages m p len q : page_ok pages m p len 4096 → p = Some q → room m q 4096 ∧ q ∈ pages ∧ 4096 ≤ len.
Proof. intros Hp ->. destruct Hp as (? & ? & ? & ?). split_and!; try done. by eapply room_le. Qed.

Lemma fill_shape pages m a b cns prp1 :
  bufs_ok pages m a → room m b 4096 → AnsPci.same_shape (io m) (io (fill m a b cns prp1)).
Proof.
  intros Hok Hb. unfold fill. set (pg := identify_page _ cns). pose proof (length_identify_page (nz (is_apple_ans a)) cns) as Hl.
  fold pg in Hl. assert (AnsPci.same_shape (io m) (io (put m b 0 pg))) as H0 by (eapply put_shape; [exact Hb|lia..]).
  destruct (admin_id_prp1_mem a) as [q|] eqn:E1; [|done].
  destruct (page_room _ _ _ _ q (bo_prp1 _ _ _ Hok) E1) as (Hq & _).
  assert (∀ o bs, 0 ≤ o → o + Z.of_nat (length bs) ≤ 4096 → AnsPci.same_shape (io m) (io (put (put m b 0 pg) q o bs))) as H1.
  { intros o bs Ho Hbs. eapply AnsPci.same_shape_trans; [exact H0|]. eapply put_shape; [eapply room_shape; [exact H0|exact Hq]|lia..]. }
  destruct (admin_id_prp2_mem a) as [q2|] eqn:E2; split_ifs; try done; try (by apply H1; lia).
  destruct (page_room _ _ _ _ q2 (bo_prp2 _ _ _ Hok) E2) as (Hq2 & _).
  assert (0 ≤ prp1 mod 4096 < 4096) by dlia.
  assert (AnsPci.same_shape (io m) (io (put (put m b 0 pg) q (prp1 mod 4096) (take (Z.to_nat (4096 - prp1 mod 4096)) pg)))) as Hs2
    by (apply H1; [lia|rewrite length_take; lia]).
  eapply AnsPci.same_shape_trans; [exact Hs2|]. eapply put_shape; [eapply room_shape; [exact Hs2|exact Hq2]|lia|].
  rewrite length_drop. lia.
Qed.

Lemma prp_ok pages m a b cns prp1 :
  bufs_ok pages m a → b ∉ pages → room m b 4096 →
  ans_write_identify_prp (put m b 0 (identify_page (nz (is_apple_ans a)) cns)) a b prp1 = Some (fill m a b cns prp1).
Proof.
  intros Hok Hnb Hb. unfold ans_write_identify_prp, fill. set (pg := identify_page _ cns).
  pose proof (length_identify_page (nz (is_apple_ans a)) cns) as Hl. fold pg in Hl.
  assert (0 ≤ prp1 mod 4096 < 4096) as Hmod by dlia.
  destruct (admin_id_prp1_mem a) as [q|] eqn:E1; [|done].
  destruct (page_room _ _ _ _ q (bo_prp1 _ _ _ Hok) E1) as (Hq & Hqp & Hql). assert (q ≠ b) by congruence.
  change VF_ANS_ID_CTRL_SIZE with 4096. change VF_ANS_PRP_PAGE_SIZE with 4096.
  rewrite prp_mask, (u32_small (prp1 mod 4096)) by lia. tests.
  destruct (prp1 mod 4096 =? 0) eqn:E0.
  { rewrite (copy_put _ _ _ _ _ _ 4096 4096) by (done || lia). rewrite take_ge by lia. by destruct (admin_id_prp2_mem a). }
  destruct (admin_id_prp2_mem a) as [q2|] eqn:E2; [|done].
  destruct (page_room _ _ _ _ q2 (bo_prp2 _ _ _ Hok) E2) as (Hq2 & Hq2p & Hq2l). assert (q2 ≠ b) by congruence.
  rewrite !u32_small by (rewrite ?u32_small; lia). tests.
  rewrite (copy_put _ _ _ _ _ _ 4096 4096) by (done || lia). cbn [mbind option_bind].
  rewrite copy_ne by done. rewrite load_put_ne by done. rewrite (load_put _ _ _ _ _ 4096) by (done || lia).
  cbn [mbind option_bind]. rewrite (take_ge (drop _ pg)) by (rewrite length_drop; lia).
  apply (store_put _ _ _ _ 4096); [|lia|rewrite length_drop; lia].
  eapply room_shape; [|eapply room_shape; [|exact Hq2]].
  - eapply (put_shape _ _ _ _ 4096); [eapply room_shape; [|exact Hq]|lia|rewrite length_take; lia].
    eapply put_shape; [exact Hb|lia..].
  - eapply put_shape; [exact Hb|lia..].
Qed.

Lemma complete_shape pages m a cq head :
  bufs_ok pages m a → fits 16 (admin_cq_tail a) → has_slot a = true → room m cq 16 →
  AnsPci.same_shape (io m) (io (complete m a cq head)).
Proof.
  intros Hok Ht Hslot Hcq. unfold complete. set (e := completion_entry _ _). assert (length e = 16%nat) as Hl by done.
  assert (AnsPci.same_shape (io m) (io (put m cq 0 e))) as H0 by (eapply put_shape; [exact Hcq|lia..]).
  pose proof (bo_acq _ _ _ Hok) as Ha. unfold has_slot in Hslot. destruct (admin_acq_mem a) as [q|]; [|done].
  destruct Ha as (_ & _ & _ & Hq). apply andb_true_iff in Hslot as [_ Hs]. unfold fits in Ht.
  eapply AnsPci.same_shape_trans; [exact H0|].
  eapply put_shape; [eapply room_shape; [exact H0|exact Hq]|lia..].
Qed.

Lemma entry_bytes head phase :
  fits 16 head → (phase = 0 ∨ phase = 1) →
  splice (splice (replicate (Z.to_nat 16) 0) 8 [u8 head; u8 (Z.shiftr head 8); u8 (Z.shiftr head 16); u8 (Z.shiftr head 24)]) 12
    (let d := shl 32 (Z.land phase 1) 16 in [u8 d; u8 (Z.shiftr d 8); u8 (Z.shiftr d 16); u8 (Z.shiftr d 24)])
  = completion_entry head phase.
Proof.
  intros Hh Hp. unfold fits in Hh. rewrite !Z.shiftr_div_pow2 by lia. unfold wrap.
  replace (head / 2 ^ 8 mod 2 ^ 8) with (head / 256) by dlia. replace (head / 2 ^ 16 mod 2 ^ 8) with 0 by dlia.
  replace (head / 2 ^ 24 mod 2 ^ 8) with 0 by dlia. change (2 ^ 8) with 256.
  by destruct Hp as [-> | ->].
Qed.

(** The completion, up to the interrupt. *)
Lemma post_ok pages m a cq head :
  bufs_ok pages m a → fits 16 (admin_cq_tail a) → has_slot a = true → room m cq 16 → cq ∉ pages →
  arr_get (doorbell a) 0 = Some head → fits 16 head → (admin_cq_phase a = 0 ∨ admin_cq_phase a = 1) →
  ans_post_admin_identify_cqe m a cq
  = (m' ← ans_sync_pci_irq (complete m a cq head) (completed a); Some (m', completed a)).
Proof.
  intros Hok Ht Hslot Hcq Hncq Hhead Hf Hphase. unfold ans_post_admin_identify_cqe.
  change VF_ANS_CQE_SIZE with 16. rewrite (store_put _ _ _ _ 16) by (done || lia). cbn [mbind option_bind].
  rewrite Hhead. cbn [mbind option_bind]. change VF_ANS_DB_VALUE_MASK with (Z.ones 16). rewrite !Z.land_ones by lia.
  rewrite (wrap_id 16 (head mod _)) by (unfold fits in *; dlia). rewrite (Z.mod_small head) by done.
  unfold ans_store_le32, VF_ANS_CQE_OFF_DW2, VF_ANS_CQE_OFF_DW3, VF_ANS_CQE_PHASE_SHIFT.
  rewrite (store_again _ _ _ _ _ 16) by (done || (cbn [length]; rewrite ?length_replicate; lia)). cbn [mbind option_bind].
  rewrite (store_again _ _ _ _ _ 16) by (done || (cbn [length]; rewrite ?length_splice; cbn [length]; rewrite ?length_replicate; lia)).
  cbn [mbind option_bind]. rewrite entry_bytes by done. set (e := completion_entry _ _). assert (length e = 16%nat) as Hl by done.
  assert (ans_write_admin_acq_cqe (put m cq 0 e) a cq = Some (complete m a cq head)) as ->.
  { unfold ans_write_admin_acq_cqe, complete. fold e. pose proof (bo_acq _ _ _ Hok) as Ha. unfold has_slot in Hslot.
    destruct (admin_acq_mem a) as [q|]; [|done]. destruct Ha as (Hqp & _ & _ & Hq).
    apply andb_true_iff in Hslot as [_ Hs]. unfold VF_ANS_CQE_SIZE, fits in *. rewrite u32_small by lia.
    rewrite (copy_put _ _ _ _ _ _ 16 (admin_acq_len a)) by (done || lia || congruence).
    rewrite take_ge by lia. by rewrite Z.mul_comm. }
  cbn [mbind option_bind]. rewrite (wrap_id 16 (_ mod _)) by (unfold fits in *; dlia). done.
Qed.

(** The bound submission page holds bytes. *)
Definition asq_bytes (m : parts H) (a : vf_ans_v1) : Prop :=
  ∀ mem, admin_asq_mem a = Some mem → Forall is_byte (default [] (AnsPci.heap (io m) !! mem)).

(** The doorbells and the completion counters are in range. *)
Record counters_ok (a : vf_ans_v1) : Prop := {
  co_bells : length (doorbell a) = 128%nat;
  co_fits : Forall (fits 16) (doorbell a);
  co_tail : fits 16 (admin_cq_tail a);
  co_phase : admin_cq_phase a = 0 ∨ admin_cq_phase a = 1;
}.

(** The command goes through. *)
Definition goes (m : parts H) (a : vf_ans_v1) (i : Z) : bool :=
  acceptable m a (admin_id_cns a) i && has_slot a && gates_open m a.

(** What the command leaves, given the objects the gates left. *)
Definition outcome (m m1 : parts H) (a : vf_ans_v1) (i : Z) : option (parts H * vf_ans_v1) :=
  let a0 := ans_clear_admin_identify a in
  match admin_id_buf a, admin_id_cq_buf a with
  | Some b, Some cq =>
    if goes m a i then
      m2 ← ans_sync_pci_irq (complete (fill m1 a b (admin_id_cns a) (data_pointer m a i)) a cq (default 0 (arr_get (doorbell a) 0)))
             (completed a0);
      Some (m2, completed a0)
    else Some (m1, a0)
  | _, _ => Some (m1, a0)
  end.

Lemma dma_ok m a b cns len :
  closed m a → room m b 4096 → 4096 ≤ len → (cns = 0 ∨ cns = 1) →
  ∃ m1, (if cns =? VF_ANS_ID_CNS_CTRL then vf_ans_identify_cns_ctrl_dma m (Some a) cns (Some b) len
         else vf_ans_identify_cns_ns_dma m (Some a) cns (Some b) len)
    = Some (if gates_open m a then (0, put m1 b 0 (identify_page (nz (is_apple_ans a)) cns)) else (-1, m1)) ∧
    closed m1 a ∧ parts_same m m1.
Proof.
  intros Hc Hb Hlen Hcns. destruct (gates_ok m a Hc) as (m1 & Hg & Hc1 & Hs). exists m1. split; [|done].
  assert (room m1 b 4096) as Hb1 by (eapply room_shape; [|exact Hb]; by rewrite (ps_io _ _ Hs)).
  pose proof (ctrl_fill m1 a b Hb1) as Hctrl. pose proof (ns_fill m1 a b Hb1) as Hns.
  unfold vf_ans_identify_cns_ctrl_dma, vf_ans_identify_cns_ns_dma. change VF_ANS_ID_CTRL_SIZE with 4096 in *.
  change VF_ANS_ID_NS_SIZE with 4096 in *. tests. rewrite Hg. cbn [mbind option_bind].
  destruct Hcns as [-> | ->].
  - change (0 =? VF_ANS_ID_CNS_CTRL) with false. change (negb (0 =? VF_ANS_ID_CNS_NS)) with false. cbv iota.
    destruct (gates_open m a); cbn [negb]; [exact Hns|done].
  - change (1 =? VF_ANS_ID_CNS_CTRL) with true. cbn [negb]. cbv iota.
    destruct (gates_open m a); cbn [negb]; [exact Hctrl|done].
Qed.

Lemma identify_try_ok pages m a i :
  nz (admin_id_armed a) = true → bufs_ok pages m a → closed m a → counters_ok a → asq_bytes m a → fits 16 i →
  ∃ m1, ans_try_admin_identify_on_doorbell m a i = outcome m m1 a i ∧ closed m1 a ∧ parts_same m m1.
Proof.
  intros Harm Hok Hc [Hbl Hbf Ht Hph] Hby Hi. destruct (bo_armed _ _ _ Hok Harm) as (b & cq & Eb & Ecq & Eop & Hcns & Hlen & Hcl & Hnb & Hnq & Hb & Hq).
  unfold ans_try_admin_identify_on_doorbell, outcome. rewrite Harm, Eb, Ecq, Eop. cbn [negb].
  set (a0 := ans_clear_admin_identify a). set (cns := admin_id_cns a) in *.
  change (negb (6 =? VF_ANS_OPC_IDENTIFY)) with false. cbv iota.
  assert (negb (cns =? VF_ANS_ID_CNS_CTRL) && negb (cns =? VF_ANS_ID_CNS_NS) = false) as -> by (destruct Hcns as [-> | ->]; done).
  change VF_ANS_CQE_SIZE with 16. tests.
  assert (bufs_ok pages m a0) as Hok0 by (destruct Hok; constructor; done).
  assert (closed m a0) as Hc0 by (destruct Hc; constructor; done).
  pose proof (fetch_ok pages m a0 i cns Hok0 Hi Hcns Hby) as Hf. change VF_ANS_OPC_IDENTIFY with 6 in Hf. rewrite Hf. cbn [mbind option_bind]. unfold goes. fold cns.
  change (acceptable m a0 cns i) with (acceptable m a cns i). change (data_pointer m a0 i) with (data_pointer m a i).
  destruct (acceptable m a cns i); cbn [andb]; change (negb (0 =? 0)) with false; change (negb (-1 =? 0)) with true; cbv iota;
    [|by exists m].
  rewrite (slot_ok pages m a0) by done. change (has_slot a0) with (has_slot a).
  destruct (has_slot a) eqn:Eslot; cbn [andb]; change (negb (0 =? 0)) with false; change (negb (-1 =? 0)) with true; cbv iota;
    [|by exists m].
  destruct (dma_ok m a0 b cns (admin_id_len a) Hc0 Hb Hlen Hcns) as (m1 & -> & Hc1 & Hs1).
  change (gates_open m a0) with (gates_open m a). change (is_apple_ans a0) with (is_apple_ans a).
  exists m1. split; [|split; [by destruct Hc1; constructor|done]].
  destruct (gates_open m a); cbn [mbind option_bind]; change (negb (0 =? 0)) with false; change (negb (-1 =? 0)) with true;
    cbv iota; [|done].
  assert (AnsPci.same_shape (io m) (io m1)) as Hsh1 by (by rewrite (ps_io _ _ Hs1)).
  assert (bufs_ok pages m1 a0) as Hok1 by (by eapply bufs_ok_shape).
  assert (room m1 b 4096) as Hb1 by (by eapply room_shape).
  rewrite (prp_ok pages m1 a0 b cns) by done. cbn [mbind option_bind].
  pose proof (fill_shape pages m1 a0 b cns (data_pointer m a i) Hok1 Hb1) as Hsh2.
  destruct (arr_get_lt (doorbell a) 0) as [head Hhead]; [rewrite Hbl; lia|]. rewrite Hhead. cbn [default].
  rewrite (post_ok pages _ a0 cq head); try done.
  - by eapply bufs_ok_shape.
  - eapply room_shape; [exact Hsh2|]. by eapply room_shape.
  - by eapply arr_get_Forall.
Qed.

(** ** The interrupt *)

(** The linked host, if any, is a PCI host in order. *)
Definition host_ok (m : parts H) (a : vf_ans_v1) : Prop :=
  ∀ p, pci a = Some p → ∃ h pt, AnsAutoboot.pcis (links m) !! p = Some h ∧ AnsPci.pci_ok (io m) h pt.

Lemma pci_ok_shape (w w' : AnsPci.world H) s p : AnsPci.same_shape w w' → AnsPci.pci_ok w s p → AnsPci.pci_ok w' s p.
Proof. intros Hs []. constructor; try done. by eapply AnsPci.bound_ok_shape. Qed.

Lemma host_ok_shape m m' a :
  AnsPci.same_shape (io m) (io m') → AnsAutoboot.pcis (links m') = AnsAutoboot.pcis (links m) → host_ok m a → host_ok m' a.
Proof.
  intros Hs Hp Hh p Hpa. destruct (Hh p Hpa) as (h & pt & Hl & Hok). exists h, pt. rewrite Hp. split; [done|].
  by eapply pci_ok_shape.
Qed.

Lemma pci_set_ok m p l h pt :
  AnsAutoboot.pcis (links m) !! p = Some h → AnsPci.pci_ok (io m) h pt →
  ∃ w h', AnsPci.vf_ans_pci_set_irq (io m) (Some h) l = Some (0, w, Some h') ∧
    AnsPci.finishes (io m) h (pt <| AnsPci.level := negb (l =? 0) |>) w h' ∧
    pci_set m p l = Some (m <| io := w |>
      <| links := (links m) <| AnsAutoboot.pcis := <[p := h']> (AnsAutoboot.pcis (links m)) |> |>).
Proof.
  intros Hp Hok. destruct (AnsPci.set_irq_ok (io m) h pt l Hok) as (w & h' & Hs & Hf). exists w, h'.
  split; [done|]. split; [done|]. unfold pci_set. rewrite Hp. cbn [mbind option_bind]. by rewrite Hs.
Qed.

Lemma sync_total m a : host_ok m a → ∃ m', ans_sync_pci_irq m a = Some m'.
Proof.
  intros Hh. unfold ans_sync_pci_irq. destruct (pci a) as [p|] eqn:Ep; [|by exists m].
  destruct (Hh p Ep) as (h & pt & Hl & Hok). destruct (pci_set_ok m p (irq_level a) h pt Hl Hok) as (w & h' & _ & _ & ->).
  by eexists.
Qed.

(** The parts that a command changes keep their shape, and the hosts. *)
Lemma command_shape pages m m1 a b cq cns prp1 head :
  bufs_ok pages m a → counters_ok a → has_slot a = true → room m b 4096 → room m cq 16 → parts_same m m1 →
  AnsPci.same_shape (io m) (io (complete (fill m1 a b cns prp1) a cq head)) ∧
  links (complete (fill m1 a b cns prp1) a cq head) = links m1 ∧ boots (complete (fill m1 a b cns prp1) a cq head) = boots m1.
Proof.
  intros Hok Hco Hslot Hb Hq Hs. assert (AnsPci.same_shape (io m) (io m1)) as Hsh by (by rewrite (ps_io _ _ Hs)).
  assert (bufs_ok pages m1 a) as Hok1 by (by eapply bufs_ok_shape).
  pose proof (fill_shape pages m1 a b cns prp1 Hok1 (room_shape _ _ _ _ Hsh Hb)) as Hf.
  split; [|unfold complete, fill; destruct (admin_acq_mem a), (admin_id_prp1_mem a), (admin_id_prp2_mem a);
    destruct (prp1 mod 4096 =? 0); done].
  eapply AnsPci.same_shape_trans; [exact Hsh|]. eapply AnsPci.same_shape_trans; [exact Hf|].
  eapply complete_shape; [by eapply bufs_ok_shape|apply Hco|done|].
  eapply room_shape; [exact Hf|]. by eapply room_shape.
Qed.

Lemma doorbell_write m a v :
  counters_ok a → nz (admin_id_armed a) = true → arr_get (doorbell a) 0 ≠ Some (v mod 2 ^ 16) →
  vf_ans_write m (Some a) 0x1000 4 v =
    ('(m', a') ← ans_try_admin_identify_on_doorbell m (a <| doorbell := <[0%nat := v mod 2 ^ 16]> (doorbell a) |>)
      (default 0 (arr_get (doorbell a) 0)); Some (0, m', Some a')).
Proof.
  intros [Hbl Hbf _ _] Harm Hne. unfold vf_ans_write. change (nz (ans_bounds 0x1000 4)) with false. cbv iota.
  change (0 <=? ans_db_index 0x1000) with true. change (ans_db_index 0x1000) with 0. cbv iota. unfold write_doorbell.
  destruct (arr_get_lt (doorbell a) 0) as [old Hold]; [rewrite Hbl; lia|]. rewrite Hold in *. cbn [mbind option_bind default].
  rewrite arr_set_lt by (rewrite Hbl; lia). cbn [mbind option_bind].
  change VF_ANS_DB_VALUE_MASK with (Z.ones 16). rewrite !Z.land_ones by lia.
  assert (fits 16 old) as Hf by (by eapply arr_get_Forall). unfold fits in Hf.
  rewrite (Z.mod_small old), wrap_id by done. change (0 =? 0) with true.
  assert ((v mod 2 ^ 16 =? old) = false) as -> by (apply Z.eqb_neq; congruence). cbn [andb negb].
  set (a1 := a <| doorbell := _ |>). change (admin_id_armed a1) with (admin_id_armed a). by rewrite Harm.
Qed.

End command.

(** ** Properties *)

(** C6. What ringing the submission doorbell does while an Identify is armed.  The
    command is consumed in any case.  It goes through exactly when the bound submission
    entry is acceptable, the bound completion page has room, the controller is enabled
    and every linked object lets data through.  Then the page of the asked kind is in
    the armed buffer and in the bound data pages, split where the data address says;
    the completion with the new tail and the current phase is in the armed buffer and
    in the next slot of the bound page; the phase flips, the completion tail advances,
    the interrupt is pending, and the linked PCI host is told.  Otherwise no buffer
    changes and nothing completes: the linked objects only brought flags up to date. *)
Theorem identify_on_doorbell {H} (m : parts H) pages a b cq old v :
  nz (admin_id_armed a) = true → admin_id_buf a = Some b → admin_id_cq_buf a = Some cq →
  bufs_ok pages m a → closed m a → counters_ok a → asq_bytes m a → host_ok m a →
  arr_get (doorbell a) 0 = Some old → v mod 2 ^ 16 ≠ old →
  let rung := (ans_clear_admin_identify a) <| doorbell := <[0%nat := v mod 2 ^ 16]> (doorbell a) |> in
  let cns := admin_id_cns a in
  ∃ m1 m2 a2, parts_same m m1 ∧ vf_ans_write m (Some a) VF_ANS_REG_SQTDBL_ADMIN 4 v = Some (0, m2, Some a2) ∧
    if acceptable m a cns old && has_slot a && gates_open m a then
      a2 = completed rung ∧
      ans_sync_pci_irq (complete (fill m1 a b cns (data_pointer m a old)) a cq (v mod 2 ^ 16)) a2 = Some m2
    else a2 = rung ∧ m2 = m1.
Proof.
  intros Harm Eb Ecq Hok Hc Hco Hby Hh Hold Hne rung cns.
  change VF_ANS_REG_SQTDBL_ADMIN with 0x1000. rewrite doorbell_write by (done || congruence). rewrite Hold.
  change (default 0 (Some old)) with old.
  set (a1 := a <| doorbell := _ |>).
  pose proof Hco as [Hbl Hbf Ht Hph]. assert (fits 16 old) as Hfo by (by eapply arr_get_Forall).
  assert (bufs_ok pages m a1) as Hok1 by (destruct Hok; constructor; done).
  assert (closed m a1) as Hc1 by (destruct Hc; constructor; done).
  assert (counters_ok a1) as Hco1.
  { constructor; cbn; try done; [by rewrite length_insert|]. apply Forall_insert; [done|]. apply Z.mod_pos_bound. lia. }
  destruct (identify_try_ok pages m a1 old Harm Hok1 Hc1 Hco1 Hby Hfo) as (m1 & -> & Hc2 & Hs). unfold outcome.
  change (admin_id_buf a1) with (admin_id_buf a). change (admin_id_cq_buf a1) with (admin_id_cq_buf a). rewrite Eb, Ecq.
  change (goes m a1 old) with (acceptable m a cns old && has_slot a && gates_open m a).
  destruct (acceptable m a cns old && has_slot a && gates_open m a) eqn:E; [|by exists m1, m1, rung].
  apply andb_true_iff in E as [[_ Hslot]%andb_true_iff _].
  assert (arr_get (doorbell a1) 0 = Some (v mod 2 ^ 16)) as -> by (apply (arr_get_insert_eq _ 0); rewrite Hbl; lia).
  destruct (bo_armed _ _ _ Hok Harm) as (b' & cq' & Eb' & Ecq' & _ & _ & _ & _ & _ & _ & Hrb & Hrq).
  rewrite Eb in Eb'. rewrite Ecq in Ecq'. injection Eb' as <-. injection Ecq' as <-.
  destruct (command_shape pages m m1 a b cq cns (data_pointer m a old) (v mod 2 ^ 16) Hok Hco Hslot Hrb Hrq Hs) as (Hsh & Hl & _).
  destruct (sync_total (complete (fill m1 a b cns (data_pointer m a old)) a cq (v mod 2 ^ 16)) (completed rung)) as (m2 & Hm2).
  { eapply host_ok_shape; [exact Hsh|by rewrite Hl, (AnsAutoboot.cs_pcis _ _ (ps_links _ _ Hs))|exact Hh]. }
  exists m1, m2, (completed rung). split; [done|]. split; [|done].
  change (ans_clear_admin_identify a1) with rung. change (complete _ a1 cq) with (complete (fill m1 a b cns (data_pointer m a old)) a cq).
  change (default 0 (Some (v mod 2 ^ 16))) with (v mod 2 ^ 16). change (admin_id_cns a1) with (admin_id_cns a).
  match goal with |- context [ans_sync_pci_irq ?x ?y] => change (ans_sync_pci_irq x y) with
    (ans_sync_pci_irq (complete (fill m1 a b cns (data_pointer m a old)) a cq (v mod 2 ^ 16)) (completed rung)) end.
  by rewrite Hm2.
Qed.

(** An enabled controller with a mastering host; the armed Identify Controller has its
    entry in a bound page, and data pages that split the data in the middle. *)
Definition vf_ans_cold : vf_ans_v1 := {|
  modesel := 0; linear_sq := 0; base_cmd_id := 0x6000; cc := 0; csts := 0; intm := 0; irq_status := 0; aqa := 0;
  asq_lo := 0; asq_hi := 0; acq_lo := 0; acq_hi := 0; doorbell := replicate 128 0;
  vendor_sparse := replicate 48 {| off := 0; val := 0 |}; vendor_sparse_used := 0; is_apple_ans := 1; pci := None;
  mbox := None; ascwrap := None; autoboot := None; admin_id_armed := 0; admin_id_opcode := 0; admin_id_cns := 0;
  admin_id_buf := None; admin_id_len := 0; admin_id_cq_buf := None; admin_id_cq_len := 0; admin_asq_mem := None;
  admin_asq_len := 0; admin_acq_mem := None; admin_acq_len := 0; admin_id_prp1_mem := None; admin_id_prp1_len := 0;
  admin_id_prp2_mem := None; admin_id_prp2_len := 0; admin_cq_tail := 0; admin_cq_phase := 1 |}.

Definition sample_entry : bytes :=
  [6] ++ replicate 24 0 ++ [8] ++ replicate 7 0 ++ [0x10] ++ replicate 6 0 ++ [1] ++ replicate 23 0.

Definition sample_host : AnsPci.vf_ans_pci_v1 Z := (AnsPci.vf_ans_pci_cold Z) <| AnsPci.command := 6 |>.

Definition sample_parts : parts Z := {|
  io := {| AnsPci.heap := <[1 := replicate 4096 0]> (<[2 := replicate 16 0]> (<[7 := sample_entry]>
             (<[8 := replicate 4096 0]> {[9 := replicate 4096 0]}))); AnsPci.host := 0 |};
  links := {| AnsAutoboot.pcis := {[3 := sample_host]}; AnsAutoboot.mboxes := ∅; AnsAutoboot.wraps := ∅ |};
  boots := ∅ |}.

Definition sample_ans : vf_ans_v1 :=
  vf_ans_cold <| cc := 1 |> <| csts := 1 |> <| asq_lo := 0x8000 |> <| pci := Some 3 |>
    <| admin_id_armed := 1 |> <| admin_id_opcode := 6 |> <| admin_id_cns := 1 |>
    <| admin_id_buf := Some 1 |> <| admin_id_len := 4096 |> <| admin_id_cq_buf := Some 2 |> <| admin_id_cq_len := 16 |>
    <| admin_asq_mem := Some 7 |> <| admin_asq_len := 64 |>
    <| admin_id_prp1_mem := Some 8 |> <| admin_id_prp1_len := 4096 |>
    <| admin_id_prp2_mem := Some 9 |> <| admin_id_prp2_len := 4096 |>.

Definition sample_pages : gset Z := {[7; 8; 9]}.

Lemma sample_room p b n : AnsPci.heap (io sample_parts) !! p = Some b → n ≤ Z.of_nat (length b) → room sample_parts p n.
Proof. intros Hb Hl. by exists b. Qed.

Lemma sample_bufs_ok : bufs_ok sample_pages sample_parts sample_ans.
Proof.
  constructor; try exact I.
  1,2,3: split; [set_solver|]; split; [by vm_compute|]; split; [by vm_compute|];
    eapply sample_room; [reflexivity|]; by rewrite ?length_replicate.
  intros _. exists 1, 2. split_and!; try done; [by right|set_solver..| |];
    (eapply sample_room; [reflexivity|]); by rewrite ?length_replicate.
Qed.

Lemma sample_closed_parts : closed sample_parts sample_ans.
Proof.
  constructor; try exact I; [by eexists|constructor; apply map_Forall_empty|apply map_Forall_empty].
Qed.

Lemma sample_host_ok : host_ok sample_parts sample_ans.
Proof.
  intros p [= <-]. exists sample_host, (AnsPci.cold <| AnsPci.cmd := 6 |>). split; [done|].
  destruct (AnsPci.cold_ok (io sample_parts)) as [[] ? ? ? ?]. by constructor.
Qed.

Lemma identify_on_doorbell_witness :
  goes sample_parts sample_ans 0 = true ∧
  let rung := (ans_clear_admin_identify sample_ans) <| doorbell := <[0%nat := 1 mod 2 ^ 16]> (doorbell sample_ans) |> in
  ∃ m1 m2 a2, parts_same sample_parts m1 ∧
    vf_ans_write sample_parts (Some sample_ans) VF_ANS_REG_SQTDBL_ADMIN 4 1 = Some (0, m2, Some a2) ∧
    if acceptable sample_parts sample_ans 1 0 && has_slot sample_ans && gates_open sample_parts sample_ans then
      a2 = completed rung ∧
      ans_sync_pci_irq (complete (fill m1 sample_ans 1 1 (data_pointer sample_parts sample_ans 0)) sample_ans 2 (1 mod 2 ^ 16)) a2
      = Some m2
    else a2 = rung ∧ m2 = m1.
Proof.
  split; [vm_compute; reflexivity|].
  apply (identify_on_doorbell sample_parts sample_pages sample_ans 1 2 0 1); try reflexivity; try lia.
  - exact sample_bufs_ok.
  - exact sample_closed_parts.
  - constructor; [reflexivity|change (doorbell sample_ans) with (replicate 128 0); apply Forall_replicate; by vm_compute|by vm_compute|by right].
  - intros mem [= <-]. cbn. repeat (constructor; [by vm_compute|]). constructor.
  - exact sample_host_ok.
  - by vm_compute.
Defined.

End AnsIdentify.
