(* ===== verification/AnsController.v ===== *)
(** The contract of the storage controller (file Ans): a register file, a bounded table
    of vendor registers, and an interrupt that follows completions.

    The controller is a transition relation on an abstract state ([ctrl_step]); one
    transition, ringing the submission doorbell of an armed controller, may or may not
    complete the command (file AnsIdentify says when).  What the controller relies on
    in the linked PCI host is the class [HostLaws]; it has two instances, the bare host
    and the host with its interrupt line bound to a sink, so that one simulation gives
    the refinement and the composition with the line. *)
From S2P Require Import Prelude.
From S2P Require Import Words.
From S2P Require Import Mmio.
From S2P Require Import Bytes.
From S2P Require Import AnsPci.
From S2P Require Import AnsMbox.
From S2P Require Import Ascwrap.
From S2P Require Import AnsAutoboot.
From S2P Require Import Ans.
From S2P Require Import AnsIdentify.

Module AnsController.
Import Ans.
Import AnsIdentify.

(** ** The abstract controller *)

Record ctrl := {
  cells : gmap Z Z;   (* plain registers *)
  bells : gmap Z Z;   (* doorbells *)
  vendor : gmap Z Z;  (* vendor registers *)
  mask : Z;
  pend : bool;
  tail : Z;
  armed : bool;
}.

Definition reset : ctrl :=
  {| cells := ∅; bells := ∅; vendor := ∅; mask := 0; pend := false; tail := 0; armed := false |}.

Definition get (cs : gmap Z Z) (o : Z) : Z := default 0 (cs !! o).

Definition legal (o w : Z) : bool := (w =? 4) && (o mod 4 =? 0) && (o <? 0x60000).
Definition is_bell (o : Z) : bool := (0x1000 <=? o) && (o <? 0x1200).

(** The plain registers: configuration, queue attributes and addresses, mode, linear
    queue enable. *)
Definition plain (o : Z) : bool :=
  existsb (Z.eqb o) [0x14; 0x24; 0x28; 0x2c; 0x30; 0x34; 0x1304; 0x24908].

(** What a register reads as: constants, the mask at both its addresses, readiness
    following the enable bit, stored values; the rest of the standard window is zero. *)
Definition ctrl_get (c : ctrl) (o : Z) : Z :=
  match switch o [(0x0, 0x0f0107ff); (0x4, 0x00401820); (0x8, 0x00010400); (0x1210, 0x00400040);
    (0x1300, 0xde71ce55); (0x1308, 0x6000); (0xc, mask c); (0x10, mask c); (0x1c, get (cells c) 0x14 mod 2)] with
  | Some v => v
  | None =>
    if plain o then get (cells c) o
    else if is_bell o then get (bells c) o
    else if 0x1200 <=? o then get (vendor c) o else 0
  end.

(** The vendor table takes 48 registers. *)
Definition vendor_put (c : ctrl) (o v : Z) : option ctrl :=
  if bool_decide (is_Some (vendor c !! o)) || (Z.of_nat (size (vendor c)) <? 48)
  then Some (c <| vendor := <[o := v]> (vendor c) |>) else None.

(** The effect of a write; [None] when it is refused. *)
Definition ctrl_put (c : ctrl) (o v : Z) : option ctrl :=
  if is_bell o then
    let new := v mod 2 ^ 16 in
    let c' := c <| bells := <[o := new]> (bells c) |> in
    Some (if o =? 0x1000 then c' <| armed := armed c && (new =? get (bells c) o) |>
          else if o =? 0x1004 then c' <| pend := pend c && negb (new =? tail c) |> else c')
  else if o =? 0x0c then Some (c <| mask := Z.lor (mask c) v |>)
  else if o =? 0x10 then Some (c <| mask := Z.ldiff (mask c) v |>)
  else if o =? 0x14 then
    Some (if Z.odd v then c <| cells := <[o := v]> (cells c) |>
          else reset <| cells := <[o := v]> (cells c) |> <| vendor := vendor c |>)
  else if plain o then Some (c <| cells := <[o := v]> (cells c) |>)
  else if o =? 0x1308 then Some c
  else if 0x1200 <=? o then vendor_put c o v else Some c.

Definition irq (c : ctrl) : bool := pend c && negb (Z.testbit (mask c) 0).

Section controller.
Context {H : Type}.

(** The operations of the guest and of the host; [Pci] is an operation on the linked
    PCI host, [Objects] is whatever its owners did to the other linked objects, and
    [Page] what the guest did to a buffer. *)
Inductive ans_op :=
  | Access (c : access)
  | Arm (opcode cns : Z) (buf : ptr Z) (len : Z) (cq : ptr Z) (cq_len : Z)
  | Disarm
  | Bind_asq (mem : ptr Z) (len : Z) | Bind_acq (mem : ptr Z) (len : Z)
  | Bind_prp1 (mem : ptr Z) (len : Z) | Bind_prp2 (mem : ptr Z) (len : Z)
  | Apple (e : Z)
  | Link_mbox (x : ptr Z) | Link_wrap (x : ptr Z) | Link_boot (x : ptr Z)
  | Pci (o : AnsPci.pci_op (H := H))
  | Objects (mb : gmap Z AnsMbox.vf_ans_mbox_v1) (wr : gmap Z Ascwrap.vf_ascwrap_v1)
      (bt : gmap Z AnsAutoboot.vf_ans_autoboot_v1)
  | Page (p : Z) (b : bytes).

Definition bind_result (mem : ptr Z) (len least : Z) : Z :=
  match mem with Some _ => if len <? least then -1 else 0 | None => 0 end.

Definition arms (opcode cns : Z) (buf : ptr Z) (len : Z) (cq : ptr Z) (cq_len : Z) : bool :=
  match buf, cq with
  | Some _, Some _ => (4096 <=? len) && (16 <=? cq_len) && (opcode =? 6) && ((cns =? 0) || (cns =? 1))
  | _, _ => false
  end.

(** The answer and the next state, when no command completes. *)
Definition ctrl_next (c : ctrl) (o : ans_op) : rd_result * ctrl :=
  match o with
  | Access (Rd o w) => (if legal o w then (0, Some (ctrl_get c o)) else (-1, None), c)
  | Access (Wr o w v) =>
    if legal o w then match ctrl_put c o v with Some c' => ((0, None), c') | None => ((-1, None), c) end
    else ((-1, None), c)
  | Arm opcode cns buf len cq cq_len =>
    if arms opcode cns buf len cq cq_len then ((0, None), c <| armed := true |>) else ((-1, None), c)
  | Disarm => ((0, None), c <| armed := false |>)
  | Bind_asq mem len => ((bind_result mem len 64, None), c)
  | Bind_acq mem len => ((bind_result mem len 16, None), c)
  | Bind_prp1 mem len | Bind_prp2 mem len => ((bind_result mem len 4096, None), c)
  | Apple _ | Link_mbox _ | Link_wrap _ | Link_boot _ | Pci _ | Objects _ _ _ | Page _ _ => ((0, None), c)
  end.

(** Ringing the doorbell of an armed controller may complete the command. *)
Inductive ctrl_step (c : ctrl) : ans_op → rd_result → ctrl → Prop :=
  | step_next o r c' : ctrl_next c o = (r, c') → ctrl_step c o r c'
  | step_complete v c' :
      armed c = true → v mod 2 ^ 16 ≠ get (bells c) 0x1000 → ctrl_put c 0x1000 v = Some c' →
      ctrl_step c (Access (Wr 0x1000 4 v)) (0, None) (c' <| pend := true |> <| tail := (tail c + 1) mod 2 ^ 16 |>).

Inductive ctrl_run : ctrl → list ans_op → list rd_result → ctrl → Prop :=
  | run_nil c : ctrl_run c [] [] c
  | run_cons c o r c1 os rs c2 : ctrl_step c o r c1 → ctrl_run c1 os rs c2 → ctrl_run c (o :: os) (r :: rs) c2.

(** The operations on the objects. *)
Definition on_object (m : parts H) (r : Z * ptr vf_ans_v1) : option (rd_result * parts H * vf_ans_v1) :=
  a ← r.2; Some ((r.1, None), m, a).

Definition ans_step (m : parts H) (a : vf_ans_v1) (o : ans_op) : option (rd_result * parts H * vf_ans_v1) :=
  match o with
  | Access (Rd o w) => r ← vf_ans_read (Some a) o w true; Some (r, m, a)
  | Access (Wr o w v) => '(rc, m, p) ← vf_ans_write m (Some a) o w v; a ← p; Some ((rc, None), m, a)
  | Arm opcode cns buf len cq cq_len => on_object m (vf_ans_arm_admin_identify (Some a) opcode cns buf len cq cq_len)
  | Disarm => on_object m (vf_ans_disarm_admin_identify (Some a))
  | Bind_asq mem len => on_object m (vf_ans_bind_admin_asq (Some a) mem len)
  | Bind_acq mem len => on_object m (vf_ans_bind_admin_acq (Some a) mem len)
  | Bind_prp1 mem len => on_object m (vf_ans_bind_identify_prp1 (Some a) mem len)
  | Bind_prp2 mem len => on_object m (vf_ans_bind_identify_prp2 (Some a) mem len)
  | Apple e => on_object m (vf_ans_set_is_apple_ans (Some a) e)
  | Link_mbox x => on_object m (vf_ans_bind_mbox (Some a) x)
  | Link_wrap x => on_object m (vf_ans_bind_ascwrap (Some a) x)
  | Link_boot x => on_object m (vf_ans_bind_autoboot (Some a) x)
  | Pci o =>
    match pci a with
    | None => Some ((0, None), m, a)
    | Some p =>
      h ← AnsAutoboot.pcis (links m) !! p;
      '(_, w, h) ← AnsPci.pci_step (io m) h o;
      Some ((0, None), m <| io := w |>
        <| links := (links m) <| AnsAutoboot.pcis := <[p := h]> (AnsAutoboot.pcis (links m)) |> |>, a)
    end
  | Objects mb wr bt =>
    Some ((0, None), m <| links := (links m) <| AnsAutoboot.mboxes := mb |> <| AnsAutoboot.wraps := wr |> |>
                       <| boots := bt |>, a)
  | Page p b => Some ((0, None), m <| io := (io m) <| AnsPci.heap := <[p := b]> (AnsPci.heap (io m)) |> |>, a)
  end.

Fixpoint ans_run (m : parts H) (a : vf_ans_v1) (os : list ans_op) : option (list rd_result * parts H * vf_ans_v1) :=
  match os with
  | [] => Some ([], m, a)
  | o :: os => '(r, m, a) ← ans_step m a o; '(rs, m, a) ← ans_run m a os; Some (r :: rs, m, a)
  end.

End controller.

Arguments ans_op : clear implicits.

(** ** The object of a state *)

(** The vendor table: distinct offsets in the used places. *)
Record vendor_rep (slots : list vf_ans_vendor_slot) (used : Z) (V : gmap Z Z) : Prop := {
  vr_length : length slots = 48%nat;
  vr_used : 0 ≤ used ≤ 48;
  vr_distinct i j s t : 0 ≤ i < used → 0 ≤ j < used → arr_get slots i = Some s → arr_get slots j = Some t →
    off s = off t → i = j;
  vr_lookup o v : V !! o = Some v ↔ ∃ i, 0 ≤ i < used ∧ arr_get slots i = Some {| off := o; val := v |};
  vr_size : Z.of_nat (size V) = used;
}.

Record rep (a : vf_ans_v1) (c : ctrl) : Prop := {
  rp_cc : cc a = get (cells c) 0x14;
  rp_aqa : aqa a = get (cells c) 0x24;
  rp_asq_lo : asq_lo a = get (cells c) 0x28;
  rp_asq_hi : asq_hi a = get (cells c) 0x2c;
  rp_acq_lo : acq_lo a = get (cells c) 0x30;
  rp_acq_hi : acq_hi a = get (cells c) 0x34;
  rp_modesel : modesel a = get (cells c) 0x1304;
  rp_linear : linear_sq a = get (cells c) 0x24908;
  rp_csts : csts a = cc a mod 2;
  rp_bell i : 0 ≤ i < 128 → arr_get (doorbell a) i = Some (get (bells c) (0x1000 + 4 * i));
  rp_vendor : vendor_rep (vendor_sparse a) (vendor_sparse_used a) (vendor c);
  rp_mask : intm a = mask c;
  rp_mask_fits : fits 32 (mask c);
  rp_pend : irq_status a = b2z (pend c);
  rp_tail : admin_cq_tail a = tail c;
  rp_armed : nz (admin_id_armed a) = armed c;
}.

(** *** The vendor table *)

Lemma sparse_find_spec slots o i n :
  0 ≤ i → i + Z.of_nat n ≤ Z.of_nat (length slots) →
  ∃ r, sparse_find_from slots o i n = Some r ∧
    ((r = -1 ∧ ∀ j s, i ≤ j < i + Z.of_nat n → arr_get slots j = Some s → off s ≠ o) ∨
     (i ≤ r < i + Z.of_nat n ∧ ∃ s, arr_get slots r = Some s ∧ off s = o)).
Proof.
  revert i. induction n as [|n IH]; intros i Hi Hlen; cbn [sparse_find_from].
  { exists (-1). split; [done|]. left. split; [done|]. intros j s Hj. lia. }
  destruct (arr_get_lt slots i) as [s Hs]; [lia|]. rewrite Hs. cbn [mbind option_bind].
  destruct (Z.eqb_spec (off s) o) as [Ho|Ho].
  { exists i. split; [done|]. right. split; [lia|]. by exists s. }
  destruct (IH (i + 1)) as (r & -> & Hr); [lia..|]. exists r. split; [done|].
  destruct Hr as [[-> Hno]|[Hr Hs']]; [left|right; split; [lia|done]]. split; [done|].
  intros j t Hj Ht. destruct (decide (j = i)) as [->|]; [congruence|]. apply (Hno j); [lia|done].
Qed.

Lemma find_rep a V o :
  vendor_rep (vendor_sparse a) (vendor_sparse_used a) V →
  ∃ r, ans_sparse_find a o = Some r ∧
    match V !! o with
    | Some v => 0 ≤ r < vendor_sparse_used a ∧ arr_get (vendor_sparse a) r = Some {| off := o; val := v |}
    | None => r = -1
    end.
Proof.
  intros [Hl Hu Hd Hlk Hsz]. unfold ans_sparse_find.
  destruct (sparse_find_spec (vendor_sparse a) o 0 (Z.to_nat (vendor_sparse_used a))) as (r & -> & Hr); [lia..|].
  exists r. split; [done|]. rewrite Z.add_0_l, Z2Nat.id in Hr by lia. destruct Hr as [[-> Hno]|[Hr (s & Hs & Ho)]].
  - destruct (V !! o) as [v|] eqn:E; [|done]. apply Hlk in E as (i & Hi & Hs). by destruct (Hno i _ Hi Hs).
  - assert (V !! o = Some (val s)) as ->; [|split; [lia|]; rewrite Hs; destruct s; cbn in *; congruence].
    apply Hlk. exists r. split; [lia|]. rewrite Hs. destruct s; cbn in *; congruence.
Qed.

Lemma load_rep a V o :
  vendor_rep (vendor_sparse a) (vendor_sparse_used a) V → ans_sparse_load a o = Some (get V o).
Proof.
  intros Hv. destruct (find_rep a V o Hv) as (r & Hf & Hr). unfold ans_sparse_load, get. rewrite Hf. cbn [mbind option_bind].
  destruct (V !! o) as [v|]; [|by subst]. destruct Hr as [Hr ->]. by tests.
Qed.

Lemma slot_set a i s o v :
  0 ≤ i < 48 → length (vendor_sparse a) = 48%nat →
  arr_get (<[Z.to_nat i := {| off := o; val := v |}]> (vendor_sparse a)) i = Some {| off := o; val := v |} ∧
  (s ≠ i → arr_get (<[Z.to_nat i := {| off := o; val := v |}]> (vendor_sparse a)) s = arr_get (vendor_sparse a) s).
Proof.
  intros Hi Hl. split; [apply arr_get_insert_eq; lia|]. intros Hne. apply arr_get_insert_ne; lia.
Qed.

(** Rewriting a known register. *)
Lemma store_known a V o v r w :
  vendor_rep (vendor_sparse a) (vendor_sparse_used a) V → V !! o = Some w → 0 ≤ r < vendor_sparse_used a →
  arr_get (vendor_sparse a) r = Some {| off := o; val := w |} →
  vendor_rep (<[Z.to_nat r := {| off := o; val := v |}]> (vendor_sparse a)) (vendor_sparse_used a) (<[o := v]> V).
Proof.
  intros [Hl Hu Hd Hlk Hsz] Hw Hr Hget.
  assert (∀ s, arr_get (<[Z.to_nat r := {| off := o; val := v |}]> (vendor_sparse a)) s
    = if decide (s = r) then Some {| off := o; val := v |} else arr_get (vendor_sparse a) s) as Hset.
  { intros s. destruct (slot_set a r s o v) as [He Hn]; [lia|done|]. destruct (decide (s = r)) as [->|]; auto. }
  constructor; try done; [by rewrite length_insert| | |].
  - intros i j s t Hi Hj. rewrite !Hset. destruct (decide (i = r)) as [->|], (decide (j = r)) as [->|]; intros Hs Ht Hst; try done.
    + injection Hs as <-. apply (Hd r j {| off := o; val := w |} t); done.
    + injection Ht as <-. apply (Hd i r s {| off := o; val := w |}); done.
    + by apply (Hd i j s t).
  - intros o' v'. destruct (decide (o = o')) as [<-|Hne].
    + rewrite lookup_insert_eq. split.
      * intros [= <-]. exists r. split; [done|]. rewrite Hset. by rewrite decide_True.
      * intros (i & Hi & Hs). rewrite Hset in Hs. destruct (decide (i = r)) as [->|Hir]; [congruence|].
        by destruct Hir; apply (Hd i r _ _ Hi Hr Hs Hget).
    + rewrite lookup_insert_ne by done. rewrite Hlk. split; intros (i & Hi & Hs); exists i; (split; [done|]);
        rewrite Hset in *; destruct (decide (i = r)) as [->|]; congruence.
  - rewrite map_size_insert_Some by (by eexists). done.
Qed.

(** A new register in the next place. *)
Lemma store_new a V o v :
  vendor_rep (vendor_sparse a) (vendor_sparse_used a) V → V !! o = None → vendor_sparse_used a < 48 →
  vendor_rep (<[Z.to_nat (vendor_sparse_used a) := {| off := o; val := v |}]> (vendor_sparse a)) (vendor_sparse_used a + 1) (<[o := v]> V).
Proof.
  intros [Hl Hu Hd Hlk Hsz] Hw Hlt. set (r := vendor_sparse_used a) in *.
  assert (∀ s, arr_get (<[Z.to_nat r := {| off := o; val := v |}]> (vendor_sparse a)) s
    = if decide (s = r) then Some {| off := o; val := v |} else arr_get (vendor_sparse a) s) as Hset.
  { intros s. destruct (slot_set a r s o v) as [He Hn]; [lia|done|]. destruct (decide (s = r)) as [->|]; auto. }
  assert (∀ i s, 0 ≤ i < r → arr_get (vendor_sparse a) i = Some s → off s ≠ o) as Hfresh.
  { intros i s Hi Hs Ho. assert (V !! o = Some (val s)) as E; [|congruence]. apply Hlk. exists i. split; [done|].
    rewrite Hs. destruct s; cbn in *; congruence. }
  constructor; [by rewrite length_insert|lia| | |].
  - intros i j s t Hi Hj. rewrite !Hset. destruct (decide (i = r)) as [->|], (decide (j = r)) as [->|]; intros Hs Ht Hst; try done.
    + injection Hs as <-. cbn in Hst. exfalso. apply (Hfresh j t); [lia|done|done].
    + injection Ht as <-. cbn in Hst. exfalso. apply (Hfresh i s); [lia|done|done].
    + apply (Hd i j s t); (done || lia).
  - intros o' v'. destruct (decide (o = o')) as [<-|Hne].
    + rewrite lookup_insert_eq. split.
      * intros [= <-]. exists r. split; [lia|]. rewrite Hset. by rewrite decide_True.
      * intros (i & Hi & Hs). rewrite Hset in Hs. destruct (decide (i = r)) as [->|Hir]; [congruence|].
        exfalso. by apply (Hfresh i {| off := o; val := v' |}); [lia| |].
    + rewrite lookup_insert_ne by done. rewrite Hlk. split; intros (i & Hi & Hs); exists i.
      * split; [lia|]. rewrite Hset. rewrite decide_False by lia. done.
      * rewrite Hset in Hs. destruct (decide (i = r)) as [->|]; [congruence|]. split; [lia|done].
  - rewrite map_size_insert_None by done. lia.
Qed.

Lemma store_rep a c o v :
  vendor_rep (vendor_sparse a) (vendor_sparse_used a) (vendor c) →
  ∃ slots used, ans_sparse_store a o v = Some (match vendor_put c o v with Some _ => 0 | None => -1 end,
      a <| vendor_sparse := slots |> <| vendor_sparse_used := used |>) ∧
    vendor_rep slots used (vendor (default c (vendor_put c o v))).
Proof.
  intros Hv. destruct (find_rep a (vendor c) o Hv) as (r & Hf & Hr). unfold ans_sparse_store, vendor_put. rewrite Hf.
  cbn [mbind option_bind]. pose proof Hv as [Hl Hu _ _ Hsz]. destruct (vendor c !! o) as [w|] eqn:Ew.
  - destruct Hr as [Hr Hget]. rewrite bool_decide_true by (by eexists). cbn [orb]. tests. rewrite Hget. cbn [mbind option_bind].
    rewrite arr_set_lt by lia. cbn [mbind option_bind].
    eexists _, _. split; [|by eapply (store_known a (vendor c) o v r w)]. by destruct a.
  - subst r. rewrite bool_decide_false by (by intros []). cbn [orb]. change (0 <=? -1) with false. cbv iota.
    unfold VF_ANS_VENDOR_SPARSE_CAP. rewrite Hsz. destruct (vendor_sparse_used a <? 48) eqn:E; tests.
    + rewrite arr_set_lt by lia. cbn [mbind option_bind]. rewrite wrap_id by (unfold fits; lia).
      eexists _, _. split; [reflexivity|]. apply (store_new a (vendor c) o v); (done || lia).
    + exists (vendor_sparse a), (vendor_sparse_used a). split; [by destruct a|done].
Qed.

(** *** Bells *)

Lemma bells_length a c : rep a c → counters_ok a → length (doorbell a) = 128%nat.
Proof. by intros _ []. Qed.

(** An offset of the doorbell window. *)
Lemma bell_index o : legal o 4 = true → is_bell o = true →
  ans_db_index o = (o - 0x1000) / 4 ∧ 0 ≤ (o - 0x1000) / 4 < 128 ∧ 0x1000 + 4 * ((o - 0x1000) / 4) = o.
Proof.
  unfold legal, is_bell, ans_db_index, VF_ANS_DB_BASE, VF_ANS_DB_END, VF_ANS_NVME_ALIAS_SIZE. rewrite land_3_mod.
  intros Hl Hb. change (nz ?x) with (negb (x =? 0)). assert (o mod 4 = 0) by lia. tests. split; [done|]. dlia.
Qed.

Lemma no_bell_index o : legal o 4 = true → is_bell o = false → ans_db_index o = -1.
Proof.
  unfold legal, is_bell, ans_db_index, VF_ANS_DB_BASE, VF_ANS_DB_END, VF_ANS_NVME_ALIAS_SIZE. rewrite land_3_mod.
  intros Hl Hb. change (nz ?x) with (negb (x =? 0)). by split_ifs; try lia.
Qed.

Lemma bounds_legal o w : 0 ≤ o → nz (ans_bounds o w) = negb (legal o w).
Proof.
  intros Ho. unfold ans_bounds, legal, VF_ANS_VENDOR_SIZE. rewrite land_3_mod. change (nz (o mod 4)) with (negb (o mod 4 =? 0)).
  destruct (w =? 4), (o mod 4 =? 0); cbn [negb orb andb]; try done. destruct (0x60000 <=? o) eqn:E; tests; done.
Qed.

Lemma legal_width o w : legal o w = true → w = 4.
Proof. unfold legal. lia. Qed.

(** *** Reads *)

Lemma read_rep a c o w : rep a c → fits 32 o →
  vf_ans_read (Some a) o w true = Some (if legal o w then (0, Some (ctrl_get c o)) else (-1, None)).
Proof.
  intros Hr Ho. unfold vf_ans_read. rewrite bounds_legal by apply Ho. cbn [negb orb].
  destruct (legal o w) eqn:El; cbn [negb]; [|done]. pose proof (legal_width o w El) as ->.
  destruct (is_bell o) eqn:Eb.
  - destruct (bell_index o El Eb) as (-> & Hi & Ho'). tests. rewrite (rp_bell a c Hr) by done. cbn [mbind option_bind].
    rewrite Ho'. unfold is_bell in Eb. unfold ctrl_get. cbn [switch]. tests. unfold plain. cbn [existsb]. tests. unfold is_bell. by tests.
  - rewrite no_bell_index by done. change (0 <=? -1) with false. cbv iota. unfold ctrl_get. rewrite Eb.
    unfold read_cases, VF_ANS_REG_CAP_LO, VF_ANS_REG_CAP_HI, VF_ANS_REG_VS, VF_ANS_REG_INTMS, VF_ANS_REG_INTMC,
      VF_ANS_REG_CC, VF_ANS_REG_CSTS, VF_ANS_REG_AQA, VF_ANS_REG_ASQ_LO, VF_ANS_REG_ASQ_HI, VF_ANS_REG_ACQ_LO, VF_ANS_REG_ACQ_HI,
      VF_ANS_REG_MAX_PEND, VF_ANS_REG_BOOT_STATUS, VF_ANS_REG_MODESEL, VF_ANS_REG_BASE_CMD_ID, VF_ANS_REG_LINEAR_SQ.
    rewrite (load_rep a (vendor c)) by apply Hr. cbn [switch]. unfold plain. cbn [existsb]. unfold VF_ANS_NVME_ALIAS_SIZE.
    destruct Hr as [Hcc]. rewrite rp_mask0, rp_csts0, Hcc, rp_aqa0, rp_asq_lo0, rp_asq_hi0, rp_acq_lo0, rp_acq_hi0, rp_modesel0, rp_linear0.
    cbn [mbind option_bind].
    split_ifs; try lia; try done; repeat match goal with E : (o =? _) = true |- _ => apply Z.eqb_eq in E as -> end; try done; lia.
Qed.

(** ** What the controller relies on in the linked host *)

(** [K w s p]: in the world [w], host [s] is the interrupt source [p] and keeps its
    promise, for good as long as only [allowed] operations come in between. *)
Class HostLaws {H} (K : AnsPci.world H → AnsPci.vf_ans_pci_v1 H → AnsPci.port → Prop)
    (allowed : AnsPci.pci_op (H := H) → Prop) : Prop := {
  host_pci_ok w s p : K w s p → AnsPci.pci_ok w s p;
  host_buffers w w' s p : AnsPci.same_shape w w' → AnsPci.host w' = AnsPci.host w → K w s p → K w' s p;
  host_irq w s p l w' s' : K w s p → AnsPci.vf_ans_pci_set_irq w (Some s) l = Some (0, w', Some s') →
    K w' s' (p <| AnsPci.level := negb (l =? 0) |>);
  host_step w s p o : K w s p → AnsPci.pci_op_ok w o → allowed o →
    ∃ r w' s', AnsPci.pci_step w s o = Some (r, w', s') ∧ K w' s' (AnsPci.port_step p o).2 ∧ AnsPci.same_shape w w';
}.

(** The bare host promises nothing more. *)
#[export] Instance bare_host {H} : HostLaws (H := H) AnsPci.pci_ok (λ _, True).
Proof.
  split; [done|..].
  - intros w w' s p Hs _. by apply pci_ok_shape.
  - intros w s p l w' s' Hok Hset. destruct (AnsPci.set_irq_ok w s p l Hok) as (w2 & s2 & Hset' & Hf).
    rewrite Hset in Hset'. injection Hset' as <- <-. by apply (AnsPci.finishes_ok _ _ _ _ _ Hf).
  - intros w s p o Hok Ho _. destruct (AnsPci.pci_step_ok w s p o Hok Ho) as (w' & s' & -> & ? & ?). by eexists _, _, _.
Qed.

(** With a sink bound that accepts every level, it promises that the line of the sink
    is its level. *)
Definition keeps_sink {H} (line : H → Z) (o : AnsPci.pci_op (H := H)) : Prop :=
  match o with AnsPci.Bind_aic _ => False | AnsPci.Bind_msg f => AnsPci.keeps_line line f | _ => True end.

Lemma mirrored_host {H} (line : H → Z) fn :
  AnsPci.sink_ok line fn → HostLaws (AnsPci.mirrored line fn) (keeps_sink line).
Proof.
  intros Hfn. split.
  - by intros w s p [].
  - intros w w' s p Hs Hh []. constructor; try done; [by eapply pci_ok_shape|by rewrite Hh].
  - intros w s p l w' s' Hmi Hset.
    destruct (AnsPci.step_mirrors line fn w s p (AnsPci.Set_irq l) Hfn Hmi I I) as (w2 & s2 & Hs & Hmi').
    cbn [AnsPci.pci_step] in Hs. rewrite Hset in Hs. cbn in Hs. by injection Hs as <- <-.
  - intros w s p o Hmi Ho Hal. destruct (AnsPci.step_mirrors line fn w s p o Hfn Hmi Ho Hal) as (w' & s' & Hs & Hmi').
    destruct (AnsPci.pci_step_ok w s p o (AnsPci.mi_ok _ _ _ _ _ Hmi) Ho) as (w2 & s2 & Hs' & _ & Hsh).
    rewrite Hs in Hs'. injection Hs' as <- <-. by eexists _, _, _.
Qed.

(** ** The invariant *)

Section simulation.
Context {H : Type} {K : AnsPci.world H → AnsPci.vf_ans_pci_v1 H → AnsPci.port → Prop}.
Context {allowed : AnsPci.pci_op (H := H) → Prop} `{!HostLaws K allowed}.
Context (pages : gset Z).

Record core (m : parts H) (a : vf_ans_v1) (c : ctrl) : Prop := {
  ic_rep : rep a c;
  ic_counters : counters_ok a;
  ic_bufs : bufs_ok pages m a;
  ic_closed : closed m a;
  ic_bytes : AnsPci.byte_heap (io m);
}.

(** The linked host has the level [l]. *)
Definition host_at (m : parts H) (a : vf_ans_v1) (l : bool) : Prop :=
  ∀ p, pci a = Some p →
    ∃ h pt, AnsAutoboot.pcis (links m) !! p = Some h ∧ K (io m) h pt ∧ AnsPci.level pt = l.

(** The host is told what the controller signals. *)
Definition inv (m : parts H) (a : vf_ans_v1) (c : ctrl) : Prop := core m a c ∧ host_at m a (irq c).

(** What the operations keep of the store: which objects there are, and the lengths of
    the buffers. *)
Record parts_shape (m m' : parts H) : Prop := {
  sh_io : AnsPci.same_shape (io m) (io m');
  sh_pcis x : is_Some (AnsAutoboot.pcis (links m') !! x) ↔ is_Some (AnsAutoboot.pcis (links m) !! x);
  sh_mboxes x : is_Some (AnsAutoboot.mboxes (links m') !! x) ↔ is_Some (AnsAutoboot.mboxes (links m) !! x);
  sh_wraps x : is_Some (AnsAutoboot.wraps (links m') !! x) ↔ is_Some (AnsAutoboot.wraps (links m) !! x);
  sh_boots x : is_Some (boots m' !! x) ↔ is_Some (boots m !! x);
}.

Lemma parts_shape_refl m : parts_shape m m.
Proof. done. Qed.

Lemma parts_shape_trans m1 m2 m3 : parts_shape m1 m2 → parts_shape m2 m3 → parts_shape m1 m3.
Proof.
  intros [A1 B1 C1 D1 E1] [A2 B2 C2 D2 E2]. constructor; [by eapply AnsPci.same_shape_trans|..]; intros x;
    first [by rewrite B2|by rewrite C2|by rewrite D2|by rewrite E2].
Qed.

Lemma same_parts_shape m m' : parts_same m m' → parts_shape m m'.
Proof. intros [Hio [Hp Hm Hw _ _] Hb]. constructor; try done; [by rewrite Hio|intros x; by rewrite Hp]. Qed.

Lemma host_at_ok m a l : host_at m a l → host_ok m a.
Proof. intros Hh p Hp. destruct (Hh p Hp) as (h & pt & Hl & Hk & _). exists h, pt. split; [done|]. by apply host_pci_ok. Qed.

Lemma bytes_asq (m : parts H) a : AnsPci.byte_heap (io m) → asq_bytes m a.
Proof.
  intros Hb mem _. destruct (AnsPci.heap (io m) !! mem) as [b|] eqn:E; [|constructor]. by apply (Hb mem).
Qed.

(** The closing conditions are about which objects there are. *)
Lemma closed_hosts (m : parts H) a w pcis' :
  (∀ x, is_Some (pcis' !! x) ↔ is_Some (AnsAutoboot.pcis (links m) !! x)) → closed m a →
  closed (m <| io := w |> <| links := (links m) <| AnsAutoboot.pcis := pcis' |> |>) a.
Proof.
  intros Hdom [H1 H2 H3 H4 [H5 H6] H7]. constructor; try done; [by eapply leads_iff|]. constructor; [|done].
  intros x b Hx. specialize (H5 x b Hx). unfold Ascwrap.mbox_closed in *. destruct (AnsMbox.pci b); [|done].
  cbn. by rewrite Hdom.
Qed.

Lemma insert_dom {A} (o : gmap Z A) p (h h' : A) x : o !! p = Some h → is_Some (<[p := h']> o !! x) ↔ is_Some (o !! x).
Proof. intros Hp. rewrite lookup_insert_is_Some'. split; [|by right]. by intros [<-|]. Qed.

(** One host changes, within its promise. *)
Lemma host_changed m a c p h h' w pt' :
  core m a c → pci a = Some p → AnsAutoboot.pcis (links m) !! p = Some h → K w h' pt' →
  AnsPci.same_shape (io m) w → AnsPci.byte_heap w →
  let m' := m <| io := w |> <| links := (links m) <| AnsAutoboot.pcis := <[p := h']> (AnsAutoboot.pcis (links m)) |> |> in
  core m' a c ∧ host_at m' a (AnsPci.level pt') ∧ parts_shape m m'.
Proof.
  intros [H1 H2 H3 H4 H5] Hp Hh HK Hsh Hby m'. split; [|split].
  - constructor; try done; [by eapply bufs_ok_shape|]. apply closed_hosts; [|done]. intros x. by eapply insert_dom.
  - intros q Hq. rewrite Hp in Hq. injection Hq as <-. exists h', pt'. split; [apply lookup_insert_eq|done].
  - constructor; try done. intros x. by eapply insert_dom.
Qed.

Lemma irq_level_rep a c : rep a c → irq_level a = b2z (irq c).
Proof.
  intros []. unfold irq_level, irq, VF_ANS_IRQ_ADMIN_CQ. rewrite rp_pend0, rp_mask0, land_bit_nz, Z.land_spec, bnot_testbit by lia.
  rewrite bool_decide_true by lia. by destruct (pend c).
Qed.

(** Telling the host, whatever it was told before. *)
Lemma told_ok m a c l :
  core m a c → host_at m a l →
  ∃ m', ans_sync_pci_irq m a = Some m' ∧ inv m' a c ∧ parts_shape m m'.
Proof.
  intros Hc Hh. unfold ans_sync_pci_irq. destruct (pci a) as [p|] eqn:Ep.
  - destruct (Hh p Ep) as (h & pt & Hl & HK & _). rewrite (irq_level_rep a c) by apply Hc.
    destruct (pci_set_ok m p (b2z (irq c)) h pt Hl (host_pci_ok _ _ _ HK)) as (w & h' & Hset & Hf & ->).
    pose proof (host_irq _ _ _ _ _ _ HK Hset) as HK'. destruct (AnsPci.finishes_ok _ _ _ _ _ Hf) as [_ Hsh].
    destruct (host_changed m a c p h h' w _ Hc Ep Hl HK' Hsh) as (Hc' & Hh' & Hs).
    { eapply AnsPci.set_irq_bytes; [apply Hc|exact Hset]. }
    eexists. split; [reflexivity|]. split; [split; [exact Hc'|]|exact Hs]. cbn in Hh'.
    assert (negb (b2z (irq c) =? 0) = irq c) as E by (by destruct (irq c)). by rewrite E in Hh'.
  - exists m. split; [done|]. split; [|done]. split; [done|]. intros p Hp. congruence.
Qed.

(** *** Writes *)

Lemma get_insert cs k v k' : get (<[k := v]> cs) k' = if k =? k' then v else get cs k'.
Proof. unfold get. destruct (Z.eqb_spec k k') as [<-|Hne]; [by rewrite lookup_insert_eq|by rewrite lookup_insert_ne]. Qed.

(** A change of registers only. *)
Lemma core_registers m a a' c c' :
  core m a c → rep a' c' → counters_ok a' →
  (∀ pg, bufs_ok pg m a → bufs_ok pg m a') → (closed m a → closed m a') → core m a' c'.
Proof. intros [] Hr Hco Hb Hcl. constructor; auto. Qed.

(** Goals about an object with the same pages, links and counters. *)
Ltac same_object :=
  solve [ intros []; constructor; done | intros ? []; constructor; done
        | match goal with C : core _ _ _ |- counters_ok _ => destruct (ic_counters _ _ _ C); constructor; done end ].

(** The outcome of a write: code, store and object, related again. *)
Definition writes (m : parts H) (r : option (Z * parts H * vf_ans_v1)) (c : ctrl) (put : option ctrl) : Prop :=
  ∃ m' a', r = Some (match put with Some _ => 0 | None => -1 end, m', a') ∧ inv m' a' (default c put) ∧ parts_shape m m'.

Lemma writes_quiet m a a' c c' :
  core m a' c' → host_at m a (irq c) → pci a' = pci a → irq c' = irq c → writes m (Some (0, m, a')) c (Some c').
Proof.
  intros Hc Hh Hp Hi. exists m, a'. split; [done|]. split; [|done]. split; [done|]. intros p Hp'. rewrite Hp in Hp'.
  cbn. change (default c (Some c')) with c'. rewrite Hi. by apply Hh.
Qed.

Lemma writes_sync m a c c' l :
  core m a c' → host_at m a l → writes m (m' ← ans_sync_pci_irq m a; Some (0, m', a)) c (Some c').
Proof.
  intros Hc Hh. destruct (told_ok m a c' l Hc Hh) as (m' & -> & Hi & Hs). by exists m', a.
Qed.

Lemma writes_vendor m a c o v :
  inv m a c → writes m ('(rc, a') ← ans_sparse_store a o v; Some (rc, m, a')) c (vendor_put c o v).
Proof.
  intros [Hc Hh]. destruct (store_rep a c o v (rp_vendor a c (ic_rep _ _ _ Hc))) as (slots & used & -> & Hv).
  cbn [mbind option_bind]. eexists m, _. split; [reflexivity|]. split; [|done].
  set (c' := default c (vendor_put c o v)) in *.
  assert (cells c' = cells c ∧ bells c' = bells c ∧ mask c' = mask c ∧ pend c' = pend c ∧ tail c' = tail c ∧ armed c' = armed c)
    as (E1 & E2 & E3 & E4 & E5 & E6).
  { subst c'. unfold vendor_put. by destruct (_ || _). }
  split; [|intros p Hp; unfold irq; rewrite E3, E4; by apply Hh].
  apply (core_registers m a _ c); try done; try same_object.
  destruct (ic_rep _ _ _ Hc). constructor; cbn; rewrite ?E1, ?E2, ?E3, ?E4, ?E5, ?E6; done.
Qed.

(** Storing a plain register. *)
Ltac stored Hr := destruct Hr; constructor; cbn; rewrite ?get_insert; done.

Lemma writes_plain m a c o v (a' : vf_ans_v1) :
  inv m a c → rep a' (c <| cells := <[o := v]> (cells c) |>) →
  counters_ok a' → (∀ pg, bufs_ok pg m a → bufs_ok pg m a') → (closed m a → closed m a') → pci a' = pci a →
  writes m (Some (0, m, a')) c (Some (c <| cells := <[o := v]> (cells c) |>)).
Proof.
  intros [Hc Hh] Hr Hco Hb Hcl Hp. apply (writes_quiet m a); try done. by apply (core_registers m a _ c).
Qed.

Lemma odd_mod v : v mod 2 = b2z (Z.odd v).
Proof. rewrite Zmod_odd. by destruct (Z.odd v). Qed.

(** Enabling or disabling. *)
Lemma writes_cc m a c v :
  inv m a c → writes m ('(m', a') ← ans_apply_cc_enable m a v; Some (0, m', a')) c (ctrl_put c 0x14 v).
Proof.
  intros [Hc Hh]. unfold ans_apply_cc_enable, VF_ANS_CC_EN, VF_ANS_CSTS_RDY. rewrite land_bit_nz, Z.bit0_odd by lia.
  change (ctrl_put c 0x14 v) with (Some (if Z.odd v then c <| cells := <[0x14 := v]> (cells c) |>
    else reset <| cells := <[0x14 := v]> (cells c) |> <| vendor := vendor c |>)).
  pose proof (ic_rep _ _ _ Hc) as Hr. pose proof (rp_csts a c Hr) as Hcs. rewrite odd_mod in Hcs.
  match goal with |- context [ans_sync_pci_irq m ?x] => set (a' := x) end.
  assert (core m a' (if Z.odd v then c <| cells := <[0x14 := v]> (cells c) |>
    else reset <| cells := <[0x14 := v]> (cells c) |> <| vendor := vendor c |>)) as Hc'.
  { subst a'. destruct (Z.odd v) eqn:Ev; apply (core_registers m a _ c); try done; try same_object.
    - destruct Hr. constructor; cbn; rewrite ?get_insert; try done. rewrite odd_mod, Ev. change (csts (a <| cc := v |>)) with (csts a). rewrite Hcs. by destruct (Z.odd (cc a)).
    - destruct Hr. constructor; cbn; rewrite ?get_insert; try done.
      + rewrite odd_mod, Ev. change (csts (a <| cc := v |>)) with (csts a). rewrite Hcs. by destruct (Z.odd (cc a)).
      + intros i Hi. unfold get. rewrite lookup_empty. unfold arr_get. rewrite bool_decide_true by lia.
        apply lookup_replicate_2. change (Z.to_nat VF_ANS_DB_COUNT) with 128%nat. lia.
    - constructor; cbn; [done|apply Forall_replicate; by vm_compute|by vm_compute|by right]. }
  assert (host_at m a' (irq c)) as Hh'.
  { intros p Hp. apply Hh. subst a'. by destruct (Z.odd v). }
  pose proof (writes_sync m a' c _ _ Hc' Hh') as Hw. destruct (ans_sync_pci_irq m a'); exact Hw.
Qed.

Lemma writes_mask (m : parts H) (a : vf_ans_v1) (c : ctrl) (f : Z → Z → Z) (v : Z) :
  inv m a c → fits 32 (f (mask c) v) →
  writes m (m' ← ans_sync_pci_irq m (a <| intm := f (intm a) v |>); Some (0, m', (a <| intm := f (intm a) v |>))) c
    (Some (c <| mask := f (mask c) v |>)).
Proof.
  intros [Hc Hh] Hf. apply (writes_sync m _ c _ (irq c)); [|exact Hh].
  apply (core_registers m a _ c); try done; try same_object.
  destruct (ic_rep _ _ _ Hc). constructor; cbn; try done. by rewrite rp_mask0.
Qed.

Lemma write_rep m a c o v :
  inv m a c → fits 32 o → legal o 4 = true → is_bell o = false → fits 32 v →
  writes m ('(rc, m', p) ← vf_ans_write m (Some a) o 4 v; a' ← p; Some (rc, m', a')) c (ctrl_put c o v).
Proof.
  intros Hi Ho Hl Hb Hv. pose proof Hi as [Hc Hh]. pose proof (ic_rep _ _ _ Hc) as Hr. unfold vf_ans_write.
  rewrite bounds_legal by apply Ho. rewrite Hl. cbn [negb].
  rewrite no_bell_index by done. change (0 <=? -1) with false. cbv iota. unfold write_cases.
  assert (∀ r put, writes m r c put →
    writes m ('(rc, m', p) ← ('(rc, m', d) ← r; Some (rc, m', Some d)); a' ← p; Some (rc, m', a')) c put) as Hwrap.
  { intros [[[rc m1] a1]|] put Hw; exact Hw. }
  cbn [switch].
  unfold VF_ANS_REG_CAP_LO, VF_ANS_REG_CAP_HI, VF_ANS_REG_VS, VF_ANS_REG_INTMS, VF_ANS_REG_INTMC,
      VF_ANS_REG_CC, VF_ANS_REG_CSTS, VF_ANS_REG_AQA, VF_ANS_REG_ASQ_LO, VF_ANS_REG_ASQ_HI, VF_ANS_REG_ACQ_LO, VF_ANS_REG_ACQ_HI,
      VF_ANS_REG_MAX_PEND, VF_ANS_REG_BOOT_STATUS, VF_ANS_REG_MODESEL, VF_ANS_REG_BASE_CMD_ID, VF_ANS_REG_LINEAR_SQ.
  split_ifs; try (match goal with E : (o =? _) = true |- _ => apply Z.eqb_eq in E as -> end).
  - apply Hwrap. apply (writes_mask m a c Z.lor v Hi). apply fits_lor; [lia|apply Hr|done].
  - apply Hwrap. rewrite land_bnot by (lia || (rewrite (rp_mask a c Hr); apply Hr)).
    apply (writes_mask m a c Z.ldiff v Hi). apply fits_ldiff; [lia|apply Hr].
  - apply Hwrap. by apply writes_cc.
  - by apply (writes_quiet m a a c c).
  - cbn [mbind option_bind]. apply (writes_plain m a c 0x24 v); try done; try same_object. stored Hr.
  - cbn [mbind option_bind]. apply (writes_plain m a c 0x28 v); try done; try same_object. stored Hr.
  - cbn [mbind option_bind]. apply (writes_plain m a c 0x2c v); try done; try same_object. stored Hr.
  - cbn [mbind option_bind]. apply (writes_plain m a c 0x30 v); try done; try same_object. stored Hr.
  - cbn [mbind option_bind]. apply (writes_plain m a c 0x34 v); try done; try same_object. stored Hr.
  - cbn [mbind option_bind]. apply (writes_plain m a c 0x1304 v); try done; try same_object. stored Hr.
  - apply (writes_quiet m a _ c c); try done. apply (core_registers m a _ c); try done; try same_object. destruct Hr; by constructor.
  - cbn [mbind option_bind]. apply (writes_plain m a c 0x24908 v); try done; try same_object. stored Hr.
  - by apply (writes_quiet m a a c c).
  - by apply (writes_quiet m a a c c).
  - by apply (writes_quiet m a a c c).
  - apply Hwrap. by apply writes_vendor.
  - apply Hwrap. by apply writes_vendor.
  - assert (ctrl_put c o v = vendor_put c o v) as ->.
    { unfold ctrl_put. rewrite Hb. unfold plain, VF_ANS_NVME_ALIAS_SIZE in *. cbn [existsb]. by tests. }
    pose proof (writes_vendor m a c o v Hi) as Hw. destruct (ans_sparse_store a o v) as [[rc a1]|]; exact Hw.
  - assert (ctrl_put c o v = Some c) as ->.
    { unfold ctrl_put. rewrite Hb. unfold plain, VF_ANS_NVME_ALIAS_SIZE in *. cbn [existsb]. by tests. }
    by apply (writes_quiet m a a c c).
Qed.

(** *** Bytes *)

Lemma put_bytes (m : parts H) p o bs : AnsPci.byte_heap (io m) → Forall is_byte bs → AnsPci.byte_heap (io (put m p o bs)).
Proof.
  intros Hb Hbs q b Hq. cbn in Hq. destruct (decide (p = q)) as [<-|Hne].
  - rewrite lookup_alter_eq in Hq. destruct (AnsPci.heap (io m) !! p) as [b0|] eqn:E; [|done]. injection Hq as <-.
    pose proof (Hb p b0 E) as Hb0. unfold splice. apply Forall_app; split; [by apply Forall_take|].
    apply Forall_app; split; [done|by apply Forall_drop].
  - rewrite lookup_alter_ne in Hq by done. by apply (Hb q).
Qed.

Lemma page_bytes apple cns : Forall is_byte (identify_page apple cns).
Proof.
  unfold identify_page. destruct (cns =? 1); [|by apply Forall_replicate; vm_compute].
  apply Forall_fmap, Forall_true. intros i. unfold identify_byte, compose. cbn [switch].
  split_ifs; cbn; by vm_compute.
Qed.

Lemma entry_is_bytes head phase : fits 16 head → phase = 0 ∨ phase = 1 → Forall is_byte (completion_entry head phase).
Proof.
  intros Hh Hp. unfold completion_entry, fits in *. apply Forall_app. split; [apply Forall_replicate; by vm_compute|].
  foralls; destruct Hp as [-> | ->]; dlia.
Qed.

Lemma fill_bytes (m : parts H) a b cns prp1 :
  AnsPci.byte_heap (io m) →
  AnsPci.byte_heap (io (fill m a b cns prp1)) ∧ AnsPci.host (io (fill m a b cns prp1)) = AnsPci.host (io m).
Proof.
  intros Hb. pose proof (page_bytes (nz (is_apple_ans a)) cns) as Hp. unfold fill.
  destruct (admin_id_prp1_mem a), (admin_id_prp2_mem a); split_ifs; (split; [|done]);
    repeat apply put_bytes; try done; by first [apply Forall_take|apply Forall_drop].
Qed.

Lemma complete_bytes (m : parts H) a cq head :
  AnsPci.byte_heap (io m) → fits 16 head → (admin_cq_phase a = 0 ∨ admin_cq_phase a = 1) →
  AnsPci.byte_heap (io (complete m a cq head)) ∧ AnsPci.host (io (complete m a cq head)) = AnsPci.host (io m).
Proof.
  intros Hb Hh Hp. pose proof (entry_is_bytes head _ Hh Hp) as He. unfold complete.
  destruct (admin_acq_mem a); (split; [|done]); by repeat apply put_bytes.
Qed.

(** *** Doorbells *)

(** Doorbell [o] is stored. *)
Lemma bell_stored m a c o v :
  core m a c → legal o 4 = true → is_bell o = true → fits 16 v →
  core m (a <| doorbell := <[Z.to_nat ((o - 0x1000) / 4) := v]> (doorbell a) |>) (c <| bells := <[o := v]> (bells c) |>).
Proof.
  intros Hc Hl Hb Hv. destruct (bell_index o Hl Hb) as (_ & Hi & Ho). pose proof (ic_counters _ _ _ Hc) as [Hlen Hf Ht Hp].
  apply (core_registers m a _ c); try done; try same_object.
  - destruct (ic_rep _ _ _ Hc). constructor; try done. intros i Hi'. cbn. rewrite get_insert.
    destruct (decide (i = (o - 0x1000) / 4)) as [->|Hne].
    + rewrite arr_get_insert_eq by lia. by rewrite Ho, Z.eqb_refl.
    + rewrite arr_get_insert_ne by lia. rewrite rp_bell0 by done. assert ((o =? 0x1000 + 4 * i) = false) as -> by lia. done.
  - constructor; cbn; try done; [by rewrite length_insert|by apply Forall_insert].
Qed.

Lemma tail_distance a c v :
  rep a c → fits 16 (tail c) → fits 16 v → arr_get (doorbell a) 1 = Some v →
  ∃ d, cq_distance a = Some d ∧ (d =? 0) = (v =? tail c).
Proof.
  intros Hr Ht Hv H1. unfold cq_distance. rewrite H1. cbn [mbind option_bind]. eexists. split; [reflexivity|].
  rewrite (rp_tail a c Hr). change VF_ANS_DB_VALUE_MASK with (Z.ones 16). rewrite !Z.land_ones by lia.
  unfold wrap, fits in *. rewrite !Zmod_mod, (Z.mod_small v) by lia. dlia.
Qed.

Lemma refresh_ok m a c v :
  core m a c → host_at m a (irq c) → arr_get (doorbell a) 1 = Some v → fits 16 v →
  ∃ m' a', ans_refresh_admin_cq_irq m a = Some (m', a') ∧ inv m' a' (c <| pend := pend c && negb (v =? tail c) |>) ∧ parts_shape m m'.
Proof.
  intros Hc Hh H1 Hv. pose proof (ic_rep _ _ _ Hc) as Hr. pose proof (ic_counters _ _ _ Hc) as [_ _ Ht _].
  rewrite (rp_tail a c Hr) in Ht. destruct (tail_distance a c v Hr Ht Hv H1) as (d & Hd & Hz).
  unfold ans_refresh_admin_cq_irq. rewrite Hd. cbn [mbind option_bind]. rewrite Hz.
  match goal with |- context [ans_sync_pci_irq m ?x] => set (a' := x) end.
  assert (core m a' (c <| pend := pend c && negb (v =? tail c) |>)) as Hc'.
  { subst a'. destruct (v =? tail c); apply (core_registers m a _ c); try done; try same_object;
      destruct Hr; constructor; cbn; try done; rewrite rp_pend0; by destruct (pend c). }
  assert (host_at m a' (irq c)) as Hh' by (intros p Hp; apply Hh; subst a'; by destruct (v =? tail c)).
  destruct (told_ok m a' _ _ Hc' Hh') as (m' & -> & Hi & Hs). by exists m', a'.
Qed.

(** *** The command *)

Lemma closed_same (m m' : parts H) a : links m' = links m → boots m' = boots m → closed m a → closed m' a.
Proof. intros Hl Hb []. constructor; rewrite ?Hl, ?Hb; done. Qed.

(** The promise of the host outlives changes of the buffers. *)
Lemma host_at_buffers (m m' : parts H) a a' l :
  AnsPci.same_shape (io m) (io m') → AnsPci.host (io m') = AnsPci.host (io m) →
  AnsAutoboot.pcis (links m') = AnsAutoboot.pcis (links m) → pci a' = pci a → host_at m a l → host_at m' a' l.
Proof.
  intros Hsh Hh Hp Hpa Ha p Hap. rewrite Hpa in Hap. destruct (Ha p Hap) as (h & pt & Hl & HK & Hlv). exists h, pt.
  rewrite Hp. split; [done|]. split; [|done]. by apply (host_buffers (io m)).
Qed.

(** The command is consumed: the linked objects may be brought up to date. *)
Lemma consumed_core m m1 a c :
  core m a c → closed m1 a → parts_same m m1 → core m1 (ans_clear_admin_identify a) (c <| armed := false |>).
Proof.
  intros [Hr Hco Hbu _ Hby] Hcl Hs. pose proof (ps_io _ _ Hs) as Hio. constructor.
  - destruct Hr. by constructor.
  - destruct Hco. by constructor.
  - apply (bufs_ok_shape pages m m1) in Hbu; [|by rewrite Hio]. destruct Hbu. by constructor.
  - destruct Hcl. by constructor.
  - by rewrite Hio.
Qed.

(** It completes: the registers, and the counters. *)
Lemma completed_rep a c :
  rep a c → rep (completed a) (c <| pend := true |> <| tail := (tail c + 1) mod 2 ^ 16 |>).
Proof.
  intros Hr. destruct Hr. constructor; [assumption..| |rewrite <- rp_tail0; reflexivity|assumption].
  cbn [irq_status pend]. change (irq_status (completed a)) with (Z.lor (irq_status a) VF_ANS_IRQ_ADMIN_CQ).
  rewrite rp_pend0. by destruct (pend c).
Qed.

Lemma completed_counters a : counters_ok a → counters_ok (completed a).
Proof.
  intros []. constructor; [assumption..| |].
  - change (admin_cq_tail (completed a)) with ((admin_cq_tail a + 1) mod 2 ^ 16). apply Z.mod_pos_bound. lia.
  - change (admin_cq_phase (completed a)) with (Z.lxor (admin_cq_phase a) 1). by destruct co_phase0 as [-> | ->]; [right|left].
Qed.

Lemma completed_bufs (m : parts H) a : bufs_ok pages m a → bufs_ok pages m (completed a).
Proof. intros [E1 E2 E3 E4 E5]. constructor; [exact E1|exact E2|exact E3|exact E4|exact E5]. Qed.

Lemma completed_closed (m : parts H) a : closed m a → closed m (completed a).
Proof. intros [E1 E2 E3 E4 E5 E6]. constructor; [exact E1|exact E2|exact E3|exact E4|exact E5|exact E6]. Qed.

Lemma completed_core m m1 a c b cq head prp1 :
  core m a c → closed m1 a → parts_same m m1 → has_slot a = true → nz (admin_id_armed a) = true →
  admin_id_buf a = Some b → admin_id_cq_buf a = Some cq → fits 16 head →
  let m2 := complete (fill m1 a b (admin_id_cns a) prp1) a cq head in
  core m2 (completed (ans_clear_admin_identify a))
    (c <| armed := false |> <| pend := true |> <| tail := (tail c + 1) mod 2 ^ 16 |>) ∧
  AnsPci.same_shape (io m) (io m2) ∧ AnsPci.host (io m2) = AnsPci.host (io m) ∧ links m2 = links m1 ∧ boots m2 = boots m1.
Proof.
  intros Hc Hcl Hs Hslot Harm Eb Ecq Hhead m2. pose proof (consumed_core m m1 a c Hc Hcl Hs) as Hc1.
  destruct (bo_armed _ _ _ (ic_bufs _ _ _ Hc) Harm) as (b' & cq' & Eb' & Ecq' & _ & _ & _ & _ & _ & _ & Hrb & Hrq).
  rewrite Eb in Eb'. rewrite Ecq in Ecq'. injection Eb' as <-. injection Ecq' as <-.
  pose proof (ic_counters _ _ _ Hc) as Hco.
  destruct (command_shape pages m m1 a b cq (admin_id_cns a) prp1 head (ic_bufs _ _ _ Hc) Hco Hslot Hrb Hrq Hs) as (Hsh & Hl & Hb).
  destruct (fill_bytes m1 a b (admin_id_cns a) prp1 (ic_bytes _ _ _ Hc1)) as [Hby1 Hh1].
  destruct (complete_bytes _ a cq head Hby1 Hhead (co_phase _ Hco)) as [Hby2 Hh2].
  assert (AnsPci.host (io m2) = AnsPci.host (io m)) as Hho by (etrans; [exact Hh2|rewrite Hh1, (ps_io _ _ Hs); reflexivity]).
  change (AnsPci.same_shape (io m) (io m2)) in Hsh. change (links m2 = links m1) in Hl. change (boots m2 = boots m1) in Hb.
  change (AnsPci.byte_heap (io m2)) in Hby2. clear Hh2. clearbody m2.
  split; [|auto]. destruct Hc1 as [Hr1 Hco1 Hbu1 Hcl1 _]. constructor; [exact (completed_rep _ _ Hr1)|exact (completed_counters _ Hco1)|..|done].
  - assert (AnsPci.same_shape (io m1) (io m2)) as Hsh' by (by rewrite (ps_io _ _ Hs)).
    exact (completed_bufs _ _ (bufs_ok_shape pages m1 m2 _ Hsh' Hbu1)).
  - apply completed_closed. by apply (closed_same m1 m2).
Qed.

Lemma command_ok m a c i :
  core m a c → host_at m a (irq c) → nz (admin_id_armed a) = true → fits 16 i →
  ∃ (through : bool) m' a', ans_try_admin_identify_on_doorbell m a i = Some (m', a') ∧
    inv m' a' (if through then c <| armed := false |> <| pend := true |> <| tail := (tail c + 1) mod 2 ^ 16 |>
               else c <| armed := false |>) ∧ parts_shape m m'.
Proof.
  intros Hc Hh Harm Hi. pose proof Hc as [Hr Hco Hbu Hcl Hby].
  destruct (identify_try_ok pages m a i Harm Hbu Hcl Hco (bytes_asq m a Hby) Hi) as (m1 & -> & Hcl1 & Hs). unfold outcome.
  destruct (bo_armed _ _ _ Hbu Harm) as (b & cq & Eb & Ecq & _). rewrite Eb, Ecq.
  pose proof (AnsAutoboot.cs_pcis _ _ (ps_links _ _ Hs)) as Hpcis.
  destruct (goes m a i) eqn:Eg.
  - unfold goes in Eg. apply andb_true_iff in Eg as [[_ Hslot]%andb_true_iff _].
    destruct (arr_get_lt (doorbell a) 0) as [head Hhead]; [rewrite (co_bells _ Hco); lia|]. rewrite Hhead.
    change (default 0 (Some head)) with head.
    assert (fits 16 head) as Hf by (eapply arr_get_Forall; [apply Hco|exact Hhead]).
    destruct (completed_core m m1 a c b cq head (data_pointer m a i) Hc Hcl1 Hs Hslot Harm Eb Ecq Hf) as (Hc2 & Hsh & Hho & Hl & Hb).
    match type of Hc2 with core ?x ?y _ => set (m2 := x) in *; set (a2 := y) in * end.
    assert (host_at m2 a2 (irq c)) as Hh2.
    { by apply (host_at_buffers m m2 a a2); [| |rewrite Hl| |]. }
    destruct (told_ok m2 a2 _ _ Hc2 Hh2) as (m3 & -> & Hi3 & Hs3). exists true, m3, a2. split; [done|]. split; [done|].
    eapply parts_shape_trans; [|exact Hs3]. destruct (same_parts_shape _ _ Hs). constructor; rewrite ?Hl, ?Hb; done.
  - exists false, m1, (ans_clear_admin_identify a). split; [done|]. split; [|by apply same_parts_shape].
    split; [by apply (consumed_core m)|]. apply (host_at_buffers m m1 a _); rewrite ?(ps_io _ _ Hs); done.
Qed.

(** *** One operation *)

(** The outcome of an operation of the controller. *)
Definition steps (m : parts H) (a : vf_ans_v1) (c : ctrl) (o : ans_op H) : Prop :=
  ∃ r m' a' c', ans_step m a o = Some (r, m', a') ∧ ctrl_step c o r c' ∧ inv m' a' c' ∧ parts_shape m m'.

Lemma ctrl_bells_armed c o v : c <| bells := <[o := v]> (bells c) |> <| armed := armed c |> = c <| bells := <[o := v]> (bells c) |>.
Proof. by destruct c. Qed.

Lemma step_completes c o v c' :
  o = 0x1000 → armed c = true → v mod 2 ^ 16 ≠ get (bells c) o → ctrl_put c o v = Some c' →
  ctrl_step (H := H) c (Access (Wr o 4 v)) (0, None) (c' <| pend := true |> <| tail := (tail c + 1) mod 2 ^ 16 |>).
Proof. intros ->. apply step_complete. Qed.

Lemma bell_step m a c o v :
  inv m a c → legal o 4 = true → is_bell o = true → fits 32 v → steps m a c (Access (Wr o 4 v)).
Proof.
  intros [Hc Hh] Hl Hb Hv. destruct (bell_index o Hl Hb) as (Hix & Hi & Ho).
  set (i := (o - 0x1000) / 4) in *. set (new := v mod 2 ^ 16).
  assert (0 ≤ o) as Ho0 by lia. assert (fits 16 new) as Hn by (unfold fits, new; apply Z.mod_pos_bound; lia).
  pose proof (bell_stored m a c o new Hc Hl Hb Hn) as Hc1. fold i in Hc1.
  match type of Hc1 with core _ ?x ?y => set (a1 := x) in *; set (c1 := y) in * end.
  assert (host_at m a1 (irq c1)) as Hh1 by exact Hh.
  pose proof (ic_counters _ _ _ Hc) as Hco. pose proof (rp_bell a c (ic_rep _ _ _ Hc) i Hi) as Hold. rewrite Ho in Hold.
  set (old := get (bells c) o) in *.
  assert (steps m a c (Access (Wr o 4 v)) ↔ ∃ m' a' c', write_doorbell m a i v = Some (m', a') ∧
    ctrl_step (H := H) c (Access (Wr o 4 v)) (0, None) c' ∧ inv m' a' c' ∧ parts_shape m m') as ->.
  { unfold steps. cbn [ans_step]. unfold vf_ans_write. rewrite bounds_legal, Hl, Hix by done. cbn [negb].
    assert ((0 <=? i) = true) as -> by lia. split.
    - intros (r & m' & a' & c' & Hw & Hr). destruct (write_doorbell m a i v) as [[m1 a2]|]; [|done].
      injection Hw as <- <- <-. by exists m1, a2, c'.
    - intros (m' & a' & c' & -> & Hr). by exists (0, None), m', a', c'. }
  unfold write_doorbell. rewrite Hold. cbn [mbind option_bind]. unfold arr_set.
  change VF_ANS_DB_VALUE_MASK with (Z.ones 16). rewrite !Z.land_ones by lia. fold new.
  rewrite bool_decide_true by (rewrite (co_bells _ Hco); lia). cbn [mbind option_bind]. fold a1.
  assert (∀ c', ctrl_put c o v = Some c' → ctrl_step (H := H) c (Access (Wr o 4 v)) (0, None) c') as Hstep.
  { intros c' Hp. apply step_next. cbn [ctrl_next]. by rewrite Hl, Hp. }
  change (nz (admin_id_armed a1)) with (nz (admin_id_armed a)). rewrite (rp_armed a c (ic_rep _ _ _ Hc)).
  unfold ctrl_put in Hstep. rewrite Hb in Hstep. fold new old c1 in Hstep.
  destruct (Z.eqb_spec i 0) as [Hi0|Hi0]; [|destruct (Z.eqb_spec i 1) as [Hi1|Hi1]].
  - assert (o = 0x1000) as Eo by lia. assert ((o =? 0x1000) = true) as Eo1 by lia. rewrite Eo1 in Hstep. cbn [andb].
    destruct (Z.eqb_spec new old) as [En|En], (armed c) eqn:Earm; cbn [negb andb] in *.
    1, 2, 4: exists m, a1, c1; (rewrite ?(proj2 (Z.eqb_neq i 1)) by lia); (split; [done|]); (split; [|done]);
      apply Hstep; unfold c1; rewrite <- ctrl_bells_armed, Earm; done.
    destruct (command_ok m a1 c1 (u16 (old mod 2 ^ 16)) Hc1 Hh1) as (through & m' & a' & Hcmd & Hi' & Hs).
    { change (nz (admin_id_armed a1)) with (nz (admin_id_armed a)). by rewrite (rp_armed a c (ic_rep _ _ _ Hc)). }
    { by apply fits_wrap. }
    match type of Hi' with inv _ _ ?c' => exists m', a', c' end. split; [exact Hcmd|]. split; [|exact (conj Hi' Hs)]. destruct through; [|by apply Hstep].
    apply (step_completes c o v (c1 <| armed := false |>)); [done|done|done|]. unfold ctrl_put. fold new old c1.
    by rewrite Hb, Eo1, Earm, (proj2 (Z.eqb_neq _ _) En).
  - assert ((o =? 0x1000) = false) as Eo1 by lia. assert ((o =? 0x1004) = true) as Eo2 by lia. rewrite Eo1, Eo2 in Hstep. cbn [andb].
    destruct (refresh_ok m a1 c1 new Hc1 Hh1) as (m' & a' & Hr & Hi' & Hs); [|done|].
    { unfold a1. cbn. rewrite Hi1. apply arr_get_insert_eq. rewrite (co_bells _ Hco). lia. }
    match type of Hi' with inv _ _ ?c' => exists m', a', c' end. split; [exact Hr|]. split; [by apply Hstep|done].
  - exists m, a1, c1. cbn [andb]. split; [done|]. split; [|done]. apply Hstep.
    assert ((o =? 0x1000) = false) as -> by lia. assert ((o =? 0x1004) = false) as -> by lia. done.
Qed.

Lemma write_step m a c o w v : inv m a c → fits 32 o → fits 32 v → steps m a c (Access (Wr o w v)).
Proof.
  intros Hi Ho Hv. destruct (legal o w) eqn:Hl.
  - pose proof (legal_width o w Hl) as ->. destruct (is_bell o) eqn:Hb; [by apply bell_step|].
    destruct (write_rep m a c o v Hi Ho Hl Hb Hv) as (m' & a' & Hw & Hi' & Hs).
    exists (match ctrl_put c o v with Some _ => 0 | None => -1 end, None), m', a', (default c (ctrl_put c o v)).
    cbn [ans_step]. split.
    + destruct (vf_ans_write m (Some a) o 4 v) as [[[rc m1] [a1|]]|]; cbn in Hw |- *; by inversion Hw.
    + split; [|done]. apply step_next. cbn [ctrl_next]. rewrite Hl. by destruct (ctrl_put c o v).
  - exists (-1, None), m, a, c. split; [cbn [ans_step]; unfold vf_ans_write; rewrite bounds_legal, Hl by apply Ho; done|].
    split; [|done]. apply step_next. cbn [ctrl_next]. by rewrite Hl.
Qed.

(** An operation of the controller that leaves the other objects alone. *)
Lemma quiet_step m a c o r a' c' :
  inv m a c → ans_step m a o = Some (r, m, a') → ctrl_next c o = (r, c') → core m a' c' → pci a' = pci a → irq c' = irq c →
  steps m a c o.
Proof.
  intros [Hc Hh] Hs Hn Hc' Hp Hi. exists r, m, a', c'. split; [done|]. split; [by apply step_next|]. split; [|done].
  split; [done|]. rewrite Hi. intros p Hp'. rewrite Hp in Hp'. by apply Hh.
Qed.

(** What a buffer must be: a page, when it is the guest's; not one, when it is the
    host's. *)
Definition guest_page (m : parts H) (p : ptr Z) (len : Z) : Prop :=
  match p with Some q => q ∈ pages ∧ fits 32 len ∧ room m q len | None => True end.
Definition host_buffer (m : parts H) (p : ptr Z) (len : Z) : Prop :=
  match p with Some q => (q ∉ pages) ∧ room m q len | None => True end.

(** The operations considered. *)
Definition op_ok (m : parts H) (o : ans_op H) : Prop :=
  match o with
  | Access (Rd o w) => fits 32 o
  | Access (Wr o w v) => fits 32 o ∧ fits 32 v
  | Arm opcode cns buf len cq cq_len => host_buffer m buf len ∧ host_buffer m cq cq_len
  | Disarm | Apple _ => True
  | Bind_asq mem len | Bind_acq mem len | Bind_prp1 mem len | Bind_prp2 mem len => guest_page m mem len
  | Link_mbox x => leads x (AnsAutoboot.mboxes (links m))
  | Link_wrap x => leads x (AnsAutoboot.wraps (links m))
  | Link_boot x => leads x (boots m)
  | Pci (AnsPci.Set_irq _) => False
  | Pci o => AnsPci.pci_op_ok (io m) o ∧ allowed o
  | Objects mb wr bt =>
    (∀ x, is_Some (mb !! x) ↔ is_Some (AnsAutoboot.mboxes (links m) !! x)) ∧
    (∀ x, is_Some (wr !! x) ↔ is_Some (AnsAutoboot.wraps (links m) !! x)) ∧
    (∀ x, is_Some (bt !! x) ↔ is_Some (boots m !! x)) ∧
    (∀ x s, mb !! x = Some s → leads (AnsMbox.pci s) (AnsAutoboot.pcis (links m))) ∧
    (∀ x s, wr !! x = Some s → leads (Ascwrap.mbox s) mb) ∧ (∀ x s, bt !! x = Some s → leads (AnsAutoboot.ascwrap s) wr)
  | Page p b => Forall is_byte b ∧ length <$> (AnsPci.heap (io m) !! p) = Some (length b)
  end.

Lemma op_ok_kept m m' o : parts_shape m m' → op_ok m o → op_ok m' o.
Proof.
  intros [Hio Hp Hm Hw Hb].
  assert (∀ p len, guest_page m p len → guest_page m' p len) as Hg.
  { intros [q|] len; [|done]. intros (? & ? & ?). split_and!; try done. by eapply room_shape. }
  assert (∀ p len, host_buffer m p len → host_buffer m' p len) as Hu.
  { intros [q|] len; [|done]. intros (? & ?). split; try done. by eapply room_shape. }
  destruct o as [[]|?| |?|?|?|?|?|x|x|x|o|mb wr bt|p b]; cbn [op_ok]; auto.
  - intros []; auto.
  - by apply leads_iff.
  - by apply leads_iff.
  - by apply leads_iff.
  - destruct o; try done; intros [? ?]; (split; [|done]); by apply (AnsPci.op_ok_shape (io m)).
  - intros (H1 & H2 & H3 & H4 & H5 & H6). split_and!; try done.
    + intros x. by rewrite Hm.
    + intros x. by rewrite Hw.
    + intros x. by rewrite Hb.
    + intros x s Hx. eapply leads_iff; [|by eapply H4]. done.
  - intros [? ?]. split; [done|]. by rewrite Hio.
Qed.

(** A change of buffers. *)
Lemma core_buffers m a a' c c' :
  core m a c → rep a' c' → counters_ok a' → bufs_ok pages m a' → (closed m a → closed m a') → core m a' c'.
Proof. intros [] Hr Hco Hb Hcl. constructor; auto. Qed.

Lemma arm_taken a opcode cns b len q cq_len :
  vf_ans_arm_admin_identify (Some a) opcode cns (Some b) len (Some q) cq_len =
  if arms opcode cns (Some b) len (Some q) cq_len
  then (0, Some (a <| admin_id_opcode := opcode |> <| admin_id_cns := cns |> <| admin_id_buf := Some b |>
                   <| admin_id_len := len |> <| admin_id_cq_buf := Some q |> <| admin_id_cq_len := cq_len |>
                   <| admin_id_armed := 1 |>))
  else (-1, Some a).
Proof.
  unfold vf_ans_arm_admin_identify, arms, VF_ANS_ID_CTRL_SIZE, VF_ANS_CQE_SIZE, VF_ANS_OPC_IDENTIFY,
    VF_ANS_ID_CNS_CTRL, VF_ANS_ID_CNS_NS. by split_ifs; try lia.
Qed.

Lemma arms_inv opcode cns b len q cq_len : arms opcode cns (Some b) len (Some q) cq_len = true →
  4096 ≤ len ∧ 16 ≤ cq_len ∧ opcode = 6 ∧ (cns = 0 ∨ cns = 1).
Proof. unfold arms. intros Ha. lia. Qed.

Lemma arm_step m a c opcode cns buf len cq cq_len :
  inv m a c → host_buffer m buf len → host_buffer m cq cq_len → steps m a c (Arm opcode cns buf len cq cq_len).
Proof.
  intros Hi Hb Hq. pose proof Hi as [Hc _]. pose proof (ic_rep _ _ _ Hc) as Hr.
  destruct (arms opcode cns buf len cq cq_len) eqn:Ea.
  - destruct buf as [b|], cq as [q|]; try done. destruct Hb as [Hb1 Hb2], Hq as [Hq1 Hq2].
    destruct (arms_inv opcode cns b len q cq_len Ea) as (H1 & H2 & H3 & H4).
    eapply (quiet_step m a c _ (0, None)); [done|..].
    + cbn [ans_step]. rewrite arm_taken, Ea. cbn [on_object fst snd mbind option_bind]. reflexivity.
    + cbn [ctrl_next]. rewrite Ea. reflexivity.
    + apply (core_buffers m a _ c); try done; [destruct Hr; by constructor|same_object| |intros []; constructor; done].
      destruct (ic_bufs _ _ _ Hc) as [E1 E2 E3 E4 _]. constructor; [exact E1|exact E2|exact E3|exact E4|]. intros _. exists b, q.
      split_and!; try done; by eapply room_le.
    + done.
    + done.
  - apply (quiet_step m a c _ (-1, None) a c); try done.
    + cbn [ans_step]. destruct buf as [b|]; [|done]. destruct cq as [q|]; [|done]. by rewrite arm_taken, Ea.
    + cbn [ctrl_next]. by rewrite Ea.
Qed.

(** A page is bound, or it is too short. *)
Lemma bind_step (m : parts H) a c (o : ans_op H) (mem : ptr Z) len least a' :
  inv m a c → ctrl_next c o = ((bind_result mem len least, None), c) →
  ans_step m a o = Some ((bind_result mem len least, None), m, if bool_decide (bind_result mem len least = 0) then a' else a) →
  rep a' c → counters_ok a' → (bind_result mem len least = 0 → bufs_ok pages m a') → (closed m a → closed m a') → pci a' = pci a →
  steps m a c o.
Proof.
  intros Hi Hn Hs Hr Hco Hb Hcl Hp. eapply (quiet_step m a c o); [done|exact Hs|exact Hn| | |done].
  - destruct (bool_decide_reflect (bind_result mem len least = 0)); [|apply Hi].
    by apply (core_buffers m a _ c); [apply Hi|..|apply Hb|].
  - by case_bool_decide.
Qed.

Lemma page_bound (m : parts H) mem len least : guest_page m mem len → bind_result mem len least = 0 →
  page_ok pages m mem (if mem is Some _ then len else 0) least.
Proof.
  destruct mem as [q|]; [|done]. cbn. intros (? & ? & ?). destruct (Z.ltb_spec len least); [done|]. done.
Qed.

(** A goal of [bind_step] for one binding: its code, or the page in its place. *)
Ltac binds Hi :=
  match goal with
  | |- ans_step _ _ _ = _ =>
    cbn [ans_step];
    unfold vf_ans_bind_admin_asq, vf_ans_bind_admin_acq, vf_ans_bind_identify_prp1, vf_ans_bind_identify_prp2,
      VF_ANS_SQE_SIZE, VF_ANS_CQE_SIZE, VF_ANS_ID_CTRL_SIZE;
    match goal with |- context [bind_result ?p ?l ?b] => destruct p; cbn [bind_result]; [by destruct (l <? b)|done] end
  | |- rep _ _ => destruct (ic_rep _ _ _ (proj1 Hi)); by constructor
  | |- counters_ok _ => destruct (ic_counters _ _ _ (proj1 Hi)); by constructor
  | |- _ → bufs_ok _ _ _ =>
    intros Hz; destruct (ic_bufs _ _ _ (proj1 Hi)) as [E1 E2 E3 E4 E5];
    constructor; first [exact E1|exact E2|exact E3|exact E4|exact E5|by apply page_bound]
  | |- closed _ _ → _ => intros []; by constructor
  | _ => done
  end.

Lemma bind_asq_step m a c mem len : inv m a c → guest_page m mem len → steps m a c (Bind_asq mem len).
Proof.
  intros Hi Hg.
  apply (bind_step m a c _ mem len 64 (a <| admin_asq_mem := mem |> <| admin_asq_len := if mem is Some _ then len else 0 |>)).
  all: binds Hi.
Qed.

Lemma bind_acq_step m a c mem len : inv m a c → guest_page m mem len → steps m a c (Bind_acq mem len).
Proof.
  intros Hi Hg.
  apply (bind_step m a c _ mem len 16 (a <| admin_acq_mem := mem |> <| admin_acq_len := if mem is Some _ then len else 0 |>)).
  all: binds Hi.
Qed.

Lemma bind_prp1_step m a c mem len : inv m a c → guest_page m mem len → steps m a c (Bind_prp1 mem len).
Proof.
  intros Hi Hg.
  apply (bind_step m a c _ mem len 4096 (a <| admin_id_prp1_mem := mem |> <| admin_id_prp1_len := if mem is Some _ then len else 0 |>)).
  all: binds Hi.
Qed.

Lemma bind_prp2_step m a c mem len : inv m a c → guest_page m mem len → steps m a c (Bind_prp2 mem len).
Proof.
  intros Hi Hg.
  apply (bind_step m a c _ mem len 4096 (a <| admin_id_prp2_mem := mem |> <| admin_id_prp2_len := if mem is Some _ then len else 0 |>)).
  all: binds Hi.
Qed.

Lemma disarm_step m a c : inv m a c → steps m a c Disarm.
Proof.
  intros Hi. apply (quiet_step m a c _ (0, None) (ans_clear_admin_identify a) (c <| armed := false |>)); try done.
  by apply (consumed_core m); [apply Hi|apply Hi|].
Qed.

(** A change of links. *)
Lemma link_step (m : parts H) a c (o : ans_op H) a' :
  inv m a c → ctrl_next c o = ((0, None), c) → ans_step m a o = Some ((0, None), m, a') →
  (rep a c → rep a' c) → (counters_ok a → counters_ok a') → (bufs_ok pages m a → bufs_ok pages m a') →
  (closed m a → closed m a') → pci a' = pci a → steps m a c o.
Proof.
  intros Hi Hn Hs Hr Hco Hb Hcl Hp. apply (quiet_step m a c o (0, None) a' c); try done. destruct Hi as [[] _]. constructor; auto.
Qed.

Lemma link_steps m a c o :
  inv m a c → op_ok m o →
  match o with Apple _ | Link_mbox _ | Link_wrap _ | Link_boot _ => steps m a c o | _ => True end.
Proof.
  intros Hi Ho. destruct o as [| | | | | | |e|x|x|x| | |]; try done; cbn [op_ok] in Ho.
  - apply (link_step m a c _ (a <| is_apple_ans := b2z (nz e) |>)); try done; intros []; by constructor.
  - apply (link_step m a c _ (a <| mbox := x |>)); try done; intros []; by constructor.
  - apply (link_step m a c _ (a <| ascwrap := x |>)); try done; intros []; by constructor.
  - apply (link_step m a c _ (a <| autoboot := x |>)); try done; intros []; by constructor.
Qed.

(** No operation but [Set_irq] moves the level. *)
Lemma pci_op_inv m o : op_ok m (Pci o) →
  AnsPci.pci_op_ok (io m) o ∧ allowed o ∧ ∀ pt, AnsPci.level (AnsPci.port_step pt o).2 = AnsPci.level pt.
Proof.
  cbn [op_ok]. destruct o as [l|o w v|o w| |[q|] len base|f|f]; try done; intros [? ?]; (split; [done|]); (split; [done|]); try done.
  intros pt. cbn [AnsPci.port_step]. unfold AnsPci.port_write. cbn [switch]. by split_ifs.
Qed.

Lemma pci_step m a c o : inv m a c → op_ok m (Pci o) → steps m a c (Pci o).
Proof.
  intros [Hc Hh] Ho. unfold steps. cbn [ans_step]. destruct (pci a) as [p|] eqn:Ep.
  - destruct (Hh p Ep) as (h & pt & Hl & HK & Hlv). rewrite Hl. cbn [mbind option_bind].
    destruct (pci_op_inv m o Ho) as (Hok & Hal & Hkeep). pose proof (Hkeep pt) as Hlv'. rewrite Hlv in Hlv'.
    destruct (host_step (io m) h pt o HK Hok Hal) as (r & w & h' & Hs & HK' & Hsh). rewrite Hs. cbn [mbind option_bind].
    destruct (host_changed m a c p h h' w _ Hc Ep Hl HK' Hsh) as (Hc' & Hh' & Hp').
    { eapply AnsPci.step_bytes; [apply Hc|exact Hs]. }
    rewrite Hlv' in Hh'. eexists _, _, _, c. split; [reflexivity|]. split; [by apply step_next|]. by split.
  - exists (0, None), m, a, c. split; [done|]. split; [by apply step_next|]. split; [|done]. split; [done|]. intros p Hp. congruence.
Qed.

Lemma objects_step m a c mb wr bt : inv m a c → op_ok m (Objects mb wr bt) → steps m a c (Objects mb wr bt).
Proof.
  intros [Hc Hh] (Hm & Hw & Hb & Hmp & Hwm & Hbw). eexists _, _, a, c. split; [reflexivity|].
  split; [by apply step_next|]. split; [split; [|exact Hh]|done].
  destruct Hc as [H1 H2 H3 [C1 C2 C3 C4 C5 C6] H5]. constructor; [done|done|by apply (bufs_ok_shape pages m)| |done].
  constructor; [exact C1|exact (leads_iff _ _ _ Hm C2)|exact (leads_iff _ _ _ Hw C3)|exact (leads_iff _ _ _ Hb C4)| |exact Hbw].
  constructor; [exact Hmp|exact Hwm].
Qed.

Lemma page_step m a c p b : inv m a c → op_ok m (Page p b) → steps m a c (Page p b).
Proof.
  intros [Hc Hh] [Hb Hlen]. eexists _, _, a, c. split; [reflexivity|]. split; [by apply step_next|].
  match goal with |- inv ?m' _ _ ∧ _ => assert (AnsPci.same_shape (io m) (io m')) as Hsh end.
  { intros q. cbn. destruct (decide (p = q)) as [<-|]; [by rewrite lookup_insert_eq, Hlen|by rewrite lookup_insert_ne]. }
  split; [|done]. split.
  - destruct Hc as [H1 H2 H3 H4 H5]. constructor; try done; [by eapply bufs_ok_shape| |].
    + destruct H4. by constructor.
    + by apply map_Forall_insert_2.
  - by apply (host_at_buffers m _ a a).
Qed.

Lemma step_ok m a c o : inv m a c → op_ok m o → steps m a c o.
Proof.
  intros Hi Ho. destruct o as [[o w|o w v]|opcode cns buf len cq cq_len| |p l|p l|p l|p l|e|x|x|x|o|mb wr bt|p b].
  - apply (quiet_step m a c _ (if legal o w then (0, Some (ctrl_get c o)) else (-1, None)) a c); try done; [|apply Hi].
    cbn [ans_step]. by rewrite (read_rep a c) by (done || apply Hi).
  - destruct Ho. by apply write_step.
  - destruct Ho. by apply arm_step.
  - by apply disarm_step.
  - by apply bind_asq_step.
  - by apply bind_acq_step.
  - by apply bind_prp1_step.
  - by apply bind_prp2_step.
  - by apply (link_steps m a c (Apple e)).
  - by apply (link_steps m a c (Link_mbox x)).
  - by apply (link_steps m a c (Link_wrap x)).
  - by apply (link_steps m a c (Link_boot x)).
  - by apply pci_step.
  - by apply objects_step.
  - by apply page_step.
Qed.

Lemma run_ok m a c os :
  inv m a c → Forall (op_ok m) os →
  ∃ rs m' a' c', ans_run m a os = Some (rs, m', a') ∧ ctrl_run c os rs c' ∧ inv m' a' c'.
Proof.
  intros Hi Hos. revert m a c Hi Hos. induction os as [|o os IH]; intros m a c Hi Hos; cbn [ans_run].
  - exists [], m, a, c. split; [done|]. split; [constructor|done].
  - apply Forall_cons_1 in Hos as [Ho Hos]. destruct (step_ok m a c o Hi Ho) as (r & m1 & a1 & c1 & -> & Hst & Hi1 & Hs).
    cbn [mbind option_bind]. destruct (IH m1 a1 c1 Hi1) as (rs & m2 & a2 & c2 & -> & Hrun & Hi2).
    { eapply Forall_impl; [|exact Hos]. intros o'. by apply op_ok_kept. }
    exists (r :: rs), m2, a2, c2. split; [done|]. split; [by econstructor|done].
Qed.

(** *** From power-up *)

(** The objects around a new controller whose host is [p]. *)
Record start_ok (m : parts H) (p : Z) : Prop := {
  so_chain : AnsAutoboot.chain_closed (links m);
  so_boots : map_Forall (λ _, AnsAutoboot.boot_closed (links m)) (boots m);
  so_bytes : AnsPci.byte_heap (io m);
  so_host : ∃ h pt, AnsAutoboot.pcis (links m) !! p = Some h ∧ K (io m) h pt;
}.

Lemma init_rep a0 : ∃ a, vf_ans_init (Some a0) = (0, Some a) ∧ pci a = None ∧ ∀ x, rep (a <| pci := x |>) reset.
Proof.
  eexists. split; [reflexivity|]. split; [done|]. intros x. constructor; try done.
  - intros i Hi. cbn. unfold get. rewrite lookup_empty. unfold arr_get. rewrite bool_decide_true by lia.
    apply lookup_replicate_2. change (Z.to_nat VF_ANS_DB_COUNT) with 128%nat. lia.
  - constructor; cbn; try done; [lia|]. intros o v. rewrite lookup_empty. split; [done|]. intros (i & Hi & _). lia.
Qed.

Lemma start_inv m p a0 :
  start_ok m p →
  ∃ a m1 a1, vf_ans_init (Some a0) = (0, Some a) ∧ vf_ans_bind_pci m (Some a) (Some p) = Some (0, m1, Some a1) ∧
    inv m1 a1 reset ∧ parts_shape m m1 ∧ pci a1 = Some p.
Proof.
  intros [Hch Hbt Hby (h & pt & Hh & HK)]. destruct (init_rep a0) as (a & Hinit & Hnone & Hrep).
  assert (core m (a <| pci := Some p |>) reset) as Hc.
  { injection Hinit as <-. constructor; try done.
    - constructor; cbn; [done|apply Forall_replicate; by vm_compute|by vm_compute|by right].
    - constructor; try done. by eexists. }
  assert (host_at m (a <| pci := Some p |>) (AnsPci.level pt)) as Hat.
  { intros q Hq. injection Hq as <-. by exists h, pt. }
  destruct (told_ok m _ _ _ Hc Hat) as (m1 & Hm1 & Hi & Hs). exists a, m1, (a <| pci := Some p |>). split; [done|].
  split; [|done]. unfold vf_ans_bind_pci. rewrite Hnone. cbn [mbind option_bind]. by rewrite Hm1.
Qed.

(** The link to the host stays. *)
Ltac open_run H :=
  repeat first
    [ progress (cbn [mbind option_bind] in H)
    | discriminate H
    | match type of H with
      | mbind _ ?r = Some _ => destruct r as [?|] eqn:?
      | (let (_, _) := ?x in _) = Some _ => destruct x
      | (if ?b then _ else _) = Some _ => destruct b eqn:?
      | (match ?x with _ => _ end) = Some _ => destruct x eqn:?
      end ].

Lemma post_pci (m : parts H) a cq m' a' : ans_post_admin_identify_cqe m a cq = Some (m', a') → pci a' = pci a.
Proof. unfold ans_post_admin_identify_cqe. intros Hp. open_run Hp; by injection Hp as _ <-. Qed.

Lemma try_pci (m : parts H) a old m' a' : ans_try_admin_identify_on_doorbell m a old = Some (m', a') → pci a' = pci a.
Proof.
  unfold ans_try_admin_identify_on_doorbell. intros Hp. open_run Hp; first [by apply post_pci in Hp|by injection Hp as _ <-].
Qed.

Lemma store_pci a o v rc a' : ans_sparse_store a o v = Some (rc, a') → pci a' = pci a.
Proof. unfold ans_sparse_store. intros Hs. open_run Hs; by injection Hs as _ <-. Qed.

Lemma cc_pci (m : parts H) a v m' a' : ans_apply_cc_enable m a v = Some (m', a') → pci a' = pci a.
Proof. unfold ans_apply_cc_enable. intros Hs. open_run Hs; injection Hs as _ <-; by destruct (nz _). Qed.

Lemma doorbell_pci (m : parts H) a i v m' a' : write_doorbell m a i v = Some (m', a') → pci a' = pci a.
Proof.
  unfold write_doorbell, ans_refresh_admin_cq_irq. intros Hs. open_run Hs; first
    [by apply try_pci in Hs|injection Hs as _ <-; by repeat case_match].
Qed.

Lemma cases_pci (m : parts H) a o v r rc m' a' :
  switch o (write_cases m a o v) = Some r → r = Some (rc, m', a') → pci a' = pci a.
Proof.
  unfold write_cases. cbn [switch]. split_ifs; intros [= <-] Hr; try done; open_run Hr; injection Hr as _ _ <-; try done.
  all: first [by eapply cc_pci|by eapply store_pci].
Qed.

Lemma write_pci (m : parts H) a o w v rc m' a' : vf_ans_write m (Some a) o w v = Some (rc, m', Some a') → pci a' = pci a.
Proof.
  unfold vf_ans_write. intros Hw. destruct (nz _); [by injection Hw as _ _ <-|]. destruct (0 <=? _).
  - destruct (write_doorbell m a _ v) as [[m1 a1]|] eqn:E; [|done]. injection Hw as _ _ <-. by eapply doorbell_pci.
  - destruct (switch o _) as [[[[rc1 m1] a1]|]|] eqn:E; [| |]; cbn in Hw; try done.
    + injection Hw as _ _ <-. by eapply cases_pci.
    + destruct (_ <=? o); [|by injection Hw as _ _ <-].
      destruct (ans_sparse_store a o v) as [[rc1 a1]|] eqn:E1; [|done]. injection Hw as _ _ <-. by eapply store_pci.
Qed.

Lemma step_pci (m : parts H) a o r m' a' : ans_step m a o = Some (r, m', a') → pci a' = pci a.
Proof.
  destruct o as [[o w|o w v]|opcode cns buf len cq cq_len| |p l|p l|p l|p l|e|x|x|x|o|mb wr bt|p b]; cbn [ans_step]; intros Hs.
  2: { open_run Hs. injection Hs as _ _ <-. subst. by eapply write_pci. }
  all: unfold on_object, vf_ans_arm_admin_identify, vf_ans_bind_admin_asq, vf_ans_bind_admin_acq, vf_ans_bind_identify_prp1,
    vf_ans_bind_identify_prp2 in Hs.
  all: open_run Hs; injection Hs as _ _ <-; try done.
  all: repeat case_match; cbn in *; simplify_eq; done.
Qed.

Lemma run_pci (m : parts H) a os rs m' a' : ans_run m a os = Some (rs, m', a') → pci a' = pci a.
Proof.
  revert m a rs. induction os as [|o os IH]; intros m a rs; cbn [ans_run]; [by intros [= _ _ <-]|].
  destruct (ans_step m a o) as [[[r m1] a1]|] eqn:Es; [|done]. cbn [mbind option_bind].
  destruct (ans_run m1 a1 os) as [[[rs1 m2] a2]|] eqn:Er; [|done]. intros [= _ <- <-].
  rewrite (IH m1 a1 rs1 Er). by eapply step_pci.
Qed.

(** The runs of a controller from power-up, and its host at the end. *)
Lemma start_run m p a0 :
  start_ok m p →
  ∃ a m1 a1, vf_ans_init (Some a0) = (0, Some a) ∧ vf_ans_bind_pci m (Some a) (Some p) = Some (0, m1, Some a1) ∧
  ∀ os, Forall (op_ok m) os →
    ∃ rs m' a' c' h pt, ans_run m1 a1 os = Some (rs, m', a') ∧ ctrl_run reset os rs c' ∧
      vf_ans_irq_check (Some a') = b2z (irq c') ∧
      AnsAutoboot.pcis (links m') !! p = Some h ∧ K (io m') h pt ∧ AnsPci.level pt = irq c'.
Proof.
  intros Hst. destruct (start_inv m p a0 Hst) as (a & m1 & a1 & Hinit & Hbind & Hi & Hs & Hp). exists a, m1, a1.
  split; [done|]. split; [done|]. intros os Hos.
  assert (Forall (op_ok m1) os) as Hos1 by (eapply Forall_impl; [|exact Hos]; intros o; by apply op_ok_kept).
  destruct (run_ok m1 a1 reset os Hi Hos1) as (rs & m' & a' & c' & Hrun & Hcr & [Hc' Hh']).
  rewrite <- (run_pci m1 a1 os rs m' a' Hrun) in Hp. destruct (Hh' p Hp) as (h & pt & Hl & HK & Hlv). exists rs, m', a', c', h, pt.
  split_and!; try done. cbn. by apply irq_level_rep, Hc'.
Qed.

End simulation.

(** *** A sample run *)

Definition sample_ops : list (ans_op Z) := [
  Bind_asq (Some 7) 64; Bind_prp1 (Some 8) 4096; Bind_prp2 (Some 9) 4096;
  Access (Wr 0x14 4 1); Access (Wr 0x28 4 0x8000); Arm 6 1 (Some 1) 4096 (Some 2) 16; Pci AnsPci.Enable_master;
  Access (Wr 0x1000 4 1); Access (Rd 0x1000 4); Access (Rd 0x1c 4); Access (Wr 0x1200 4 5); Access (Wr 0x1202 4 5)].

Lemma sample_pages_bytes (w : AnsPci.world Z) : AnsPci.heap w = AnsPci.heap (io sample_parts) → AnsPci.byte_heap w.
Proof.
  intros Hw. unfold AnsPci.byte_heap. rewrite Hw. cbn [io AnsPci.heap sample_parts].
  repeat apply map_Forall_insert_2; try (apply Forall_replicate; by vm_compute).
  - repeat (constructor; [by vm_compute|]). constructor.
  - apply map_Forall_empty.
Qed.

Lemma sample_run_ok (allowed : AnsPci.pci_op (H := Z) → Prop) (m : parts Z) :
  (∀ p n, room sample_parts p n → room m p n) → allowed AnsPci.Enable_master → Forall (op_ok (allowed := allowed) sample_pages m) sample_ops.
Proof.
  intros Hr Ha. pose proof (sample_room 7 sample_entry 64 eq_refl) as H7.
  pose proof (sample_room 8 (replicate 4096 0) 4096 eq_refl) as H8. pose proof (sample_room 9 (replicate 4096 0) 4096 eq_refl) as H9.
  pose proof (sample_room 1 (replicate 4096 0) 4096 eq_refl) as H1. pose proof (sample_room 2 (replicate 16 0) 16 eq_refl) as H2.
  rewrite !length_replicate in *. unfold sample_ops.
  repeat (apply Forall_cons_2); [..|apply Forall_nil_2]; cbn [op_ok guest_page host_buffer]; try (by vm_compute).
  - split; [set_solver|]. split; [by vm_compute|]. apply Hr, H7. by vm_compute.
  - split; [set_solver|]. split; [by vm_compute|]. apply Hr, H8. lia.
  - split; [set_solver|]. split; [by vm_compute|]. apply Hr, H9. lia.
  - split; (split; [set_solver|]); apply Hr; [apply H1|apply H2]; lia.
Qed.

Lemma sample_start {K : AnsPci.world Z → AnsPci.vf_ans_pci_v1 Z → AnsPci.port → Prop} (m : parts Z) h pt :
  links m = {| AnsAutoboot.pcis := {[3 := h]}; AnsAutoboot.mboxes := ∅; AnsAutoboot.wraps := ∅ |} → boots m = ∅ →
  AnsPci.heap (io m) = AnsPci.heap (io sample_parts) → K (io m) h pt → start_ok (K := K) m 3.
Proof.
  intros Hl Hb Hh HK. constructor.
  - rewrite Hl. constructor; apply map_Forall_empty.
  - rewrite Hb. apply map_Forall_empty.
  - by apply sample_pages_bytes.
  - exists h, pt. by rewrite Hl.
Qed.

(** The run completes the command: the interrupt is signalled. *)
Example sample_completes :
  match vf_ans_bind_pci sample_parts (vf_ans_init (Some sample_ans)).2 (Some 3) with
  | Some (_, m, Some a) =>
    (λ '(rs, _, a), (rs, vf_ans_irq_check (Some a), admin_cq_tail a)) <$> ans_run m a sample_ops
  | _ => None
  end = Some ([(0, None); (0, None); (0, None); (0, None); (0, None); (0, None); (0, None); (0, None); (0, Some 1); (0, Some 1);
               (0, None); (-1, None)], 1, 1).
Proof. vm_compute. reflexivity. Qed.

(** ** Properties *)

(** C5. The storage controller refines the abstract one: once initialised and linked
    to a PCI host, it answers any register accesses of the guest and any operations of
    the host (arming, binding pages, relinking objects, changing the other objects and
    the buffers) as the abstract controller does; none is undefined or out of bounds;
    and the host is asserted exactly while a completion is pending and unmasked. *)
Theorem ans_refines_controller {H} (pages : gset Z) (m : parts H) (p : Z) (a0 : vf_ans_v1) :
  start_ok (K := AnsPci.pci_ok) m p →
  ∃ a m1 a1, vf_ans_init (Some a0) = (0, Some a) ∧ vf_ans_bind_pci m (Some a) (Some p) = Some (0, m1, Some a1) ∧
  ∀ os, Forall (op_ok (allowed := λ _, True) pages m) os →
    ∃ rs m' a' c' h, ans_run m1 a1 os = Some (rs, m', a') ∧ ctrl_run reset os rs c' ∧
      vf_ans_irq_check (Some a') = b2z (irq c') ∧
      AnsAutoboot.pcis (links m') !! p = Some h ∧ AnsPci.vf_ans_pci_delivery_pending (Some h) = b2z (irq c').
Proof.
  intros Hst. destruct (start_run pages m p a0 Hst) as (a & m1 & a1 & Hinit & Hbind & Hrun). exists a, m1, a1.
  split; [done|]. split; [done|]. intros os Hos. destruct (Hrun os Hos) as (rs & m' & a' & c' & h & pt & H1 & H2 & H3 & H4 & H5 & H6).
  exists rs, m', a', c', h. split_and!; try done. rewrite <- H6. cbn. apply AnsPci.delivery_level, (host_pci_ok _ _ _ H5).
Qed.

Lemma ans_refines_controller_witness :
  start_ok (K := AnsPci.pci_ok) sample_parts 3 ∧
  ∃ a m1 a1, vf_ans_init (Some sample_ans) = (0, Some a) ∧ vf_ans_bind_pci sample_parts (Some a) (Some 3) = Some (0, m1, Some a1) ∧
    ∃ rs m' a' c' h, ans_run m1 a1 sample_ops = Some (rs, m', a') ∧ ctrl_run reset sample_ops rs c' ∧
      vf_ans_irq_check (Some a') = b2z (irq c') ∧
      AnsAutoboot.pcis (links m') !! 3 = Some h ∧ AnsPci.vf_ans_pci_delivery_pending (Some h) = b2z (irq c').
Proof.
  assert (start_ok (K := AnsPci.pci_ok) sample_parts 3) as Hst.
  { destruct (sample_host_ok 3 eq_refl) as (h & pt & Hh & HK). injection Hh as <-.
    by apply (sample_start sample_parts sample_host pt). }
  split; [exact Hst|]. destruct (ans_refines_controller sample_pages sample_parts 3 sample_ans Hst) as (a & m1 & a1 & Hi & Hb & Hrun).
  exists a, m1, a1. split; [exact Hi|]. split; [exact Hb|]. apply Hrun. by apply sample_run_ok.
Defined.

(** C31. Composition: the line of the interrupt controller follows the completions.  With
    a sink that accepts every level bound to the PCI host, the line the sink last got is,
    after any operations of guest and host, what the controller says it signals. *)
Theorem completion_line {H} (line : H → Z) fn (pages : gset Z) (m : parts H) (p : Z) (a0 : vf_ans_v1) :
  AnsPci.sink_ok line fn → start_ok (K := AnsPci.mirrored line fn) m p →
  ∃ a m1 a1, vf_ans_init (Some a0) = (0, Some a) ∧ vf_ans_bind_pci m (Some a) (Some p) = Some (0, m1, Some a1) ∧
  ∀ os, Forall (op_ok (allowed := keeps_sink line) pages m) os →
    ∃ rs m' a', ans_run m1 a1 os = Some (rs, m', a') ∧ vf_ans_irq_check (Some a') = line (AnsPci.host (io m')).
Proof.
  intros Hfn Hst. pose proof (mirrored_host line fn Hfn) as Hlaws.
  destruct (start_run pages m p a0 Hst) as (a & m1 & a1 & Hinit & Hbind & Hrun). exists a, m1, a1.
  split; [done|]. split; [done|]. intros os Hos. destruct (Hrun os Hos) as (rs & m' & a' & c' & h & pt & H1 & H2 & H3 & H4 & H5 & H6).
  exists rs, m', a'. split; [done|]. rewrite H3, (AnsPci.mi_line _ _ _ _ _ H5). by rewrite H6.
Qed.

Definition lined_host : AnsPci.vf_ans_pci_v1 Z := sample_host <| AnsPci.aic_fn := Some AnsPci.level_sink |>.
Definition lined_parts : parts Z :=
  sample_parts <| links := {| AnsAutoboot.pcis := {[3 := lined_host]}; AnsAutoboot.mboxes := ∅; AnsAutoboot.wraps := ∅ |} |>.

Lemma lined_mirrored : AnsPci.mirrored (λ h, h) AnsPci.level_sink (io lined_parts) lined_host (AnsPci.cold <| AnsPci.cmd := 6 |>).
Proof.
  destruct (AnsPci.cold_ok (io sample_parts)) as [[] ? ? ? ?]. constructor; try done.
Qed.

Lemma completion_line_witness :
  ∃ a m1 a1, vf_ans_init (Some sample_ans) = (0, Some a) ∧ vf_ans_bind_pci lined_parts (Some a) (Some 3) = Some (0, m1, Some a1) ∧
    ∃ rs m' a', ans_run m1 a1 sample_ops = Some (rs, m', a') ∧ vf_ans_irq_check (Some a') = AnsPci.host (io m').
Proof.
  destruct (completion_line (λ h, h) AnsPci.level_sink sample_pages lined_parts 3 sample_ans) as (a & m1 & a1 & Hi & Hb & Hrun).
  - intros h irq v. by exists v.
  - apply (sample_start lined_parts lined_host (AnsPci.cold <| AnsPci.cmd := 6 |>)); try reflexivity. exact lined_mirrored.
  - exists a, m1, a1. split; [exact Hi|]. split; [exact Hb|]. apply Hrun. by apply sample_run_ok.
Defined.

End AnsController.
