(* ===== verification/Cpu.v ===== *)
(** The architectural state of the emulated processor, [runtime/arch.c] with its
    declarations in [jit.h] and [platform_abi.h].

    State: the processor structure with its per-level banks, the pending-exception
    record, the timers and the interrupt lines.  Operations: reset, change of
    exception level, raising and taking an exception, recording the status of a
    translated run, reading and writing system registers, advancing the counters,
    the platform override, and polling for interrupts.  [None] is undefined behaviour:
    an index outside a four-element bank, or an uninitialised variable. *)
From S2P Require Import Prelude.
From S2P Require Import Words.
From S2P Require Import Mmio.

Module Cpu.

Definition VF_NEXT := 0.
Definition VF_HALT := 1.
Definition VF_BAD_INSTRUCTION := 2.
Definition VF_FETCH_FAULT := 3.
Definition VF_DATA_FAULT := 4.
Definition VF_BUDGET := 5.
Definition VF_CODE_FULL := 6.
Definition VF_PROTECTION := 7.
Definition VF_UNDEFINED_INSTRUCTION := 8.
Definition VF_PRIVILEGE_FAULT := 9.
Definition VF_TRANSLATION_FAULT := 10.
Definition VF_PERMISSION_FAULT := 11.
Definition VF_ALIGNMENT_FAULT := 12.
Definition VF_SYSTEM_REGISTER_TRAP := 13.
Definition VF_TIMER_INTERRUPT := 14.
Definition VF_EXTERNAL_INTERRUPT := 15.
Definition VF_INSTRUCTION_ABORT := 16.
Definition VF_DATA_ABORT := 17.
Definition VF_FIQ_INTERRUPT := 18.
Definition VF_SP_ALIGNMENT_FAULT := 19.
Definition VF_IMPLEMENTATION_GAP := 20.
Definition VF_FP_ACCESS_TRAP := 21.
Definition VF_EXCEPTION_NONE := 0.
Definition VF_EXCEPTION_UNDEFINED_INSTRUCTION := 1.
Definition VF_EXCEPTION_PRIVILEGED_INSTRUCTION := 2.
Definition VF_EXCEPTION_INSTRUCTION_ABORT := 3.
Definition VF_EXCEPTION_DATA_ABORT := 4.
Definition VF_EXCEPTION_TRANSLATION_FAULT := 5.
Definition VF_EXCEPTION_PERMISSION_FAULT := 6.
Definition VF_EXCEPTION_ALIGNMENT_FAULT := 7.
Definition VF_EXCEPTION_SYSTEM_REGISTER_TRAP := 8.
Definition VF_EXCEPTION_TIMER_INTERRUPT := 9.
Definition VF_EXCEPTION_EXTERNAL_INTERRUPT := 10.
Definition VF_EXCEPTION_FIQ_INTERRUPT := 13.
Definition VF_EXCEPTION_SP_ALIGNMENT_FAULT := 14.
Definition VF_EXCEPTION_FP_ACCESS := 15.
Definition VF_EL0 := 0.
Definition VF_EL1 := 1.
Definition VF_EL2 := 2.
Definition VF_EL3 := 3.
Definition VF_SYSREG_OK := 0.
Definition VF_SYSREG_UNKNOWN := (-1).
Definition VF_SYSREG_PRIVILEGE := (-2).
Definition VF_SYSREG_READ_ONLY := (-3).
Definition VF_SYSREG_INVALID_VALUE := (-4).
Definition VF_SYSREG_UNDEFINED := (-5).
Definition VF_ESR_EC_UNKNOWN := 0x00.
Definition VF_ESR_EC_WFX_TRAP := 0x01.
Definition VF_ESR_EC_SYSREG := 0x18.
Definition VF_ESR_EC_FP_ACCESS := 0x07.
Definition VF_ESR_EC_IABT_LOWER := 0x20.
Definition VF_ESR_EC_IABT_SAME := 0x21.
Definition VF_ESR_EC_DABT_LOWER := 0x24.
Definition VF_ESR_EC_DABT_SAME := 0x25.
Definition VF_ESR_EC_PC_ALIGNMENT := 0x22.
Definition VF_ESR_FSC_TRANSLATION_L3 := 0x07.
Definition VF_ESR_FSC_PERMISSION_L3 := 0x0d.
Definition VF_ESR_FSC_ALIGNMENT := 0x21.
Definition VF_TIMER_CTL_ENABLE := 0x1.
Definition VF_TIMER_CTL_IMASK := 0x2.
Definition VF_TIMER_CTL_ISTATUS := 0x4.
Definition VF_PSTATE_MODE_MASK := 0x0f.
Definition VF_PSTATE_DAIF_MASK := 0x3c0.
Definition VF_SYSREG_KEY_CNTFRQ_EL0 := 0x5f00.
Definition VF_SYSREG_KEY_CNTPCT_EL0 := 0x5f01.
Definition VF_SYSREG_KEY_CNTVCT_EL0 := 0x5f02.
Definition VF_SYSREG_KEY_CNTP_TVAL_EL0 := 0x5f10.
Definition VF_SYSREG_KEY_CNTP_CTL_EL0 := 0x5f11.
Definition VF_SYSREG_KEY_CNTP_CVAL_EL0 := 0x5f12.
Definition VF_SYSREG_KEY_CNTV_CTL_EL0 := 0x5f19.
Definition VF_SYSREG_KEY_CNTV_CVAL_EL0 := 0x5f1a.
Definition VF_SYSREG_KEY_CURRENT_EL := 0x4212.
Definition VF_SYSREG_KEY_TPIDR_EL0 := 0x5e82.
Definition VF_SYSREG_KEY_TPIDRRO_EL0 := 0x5e83.
Definition VF_SYSREG_KEY_TPIDR_EL1 := 0x4684.
Definition VF_SYSREG_KEY_ID_AA64ISAR1_EL1 := 0x4031.
Definition VF_SYSREG_KEY_ID_AA64ISAR3_EL1 := 0x4033.
Definition VF_SYSREG_KEY_ID_AA64PFR0_EL1 := 0x4020.
Definition VF_SYSREG_KEY_ID_AA64PFR1_EL1 := 0x4021.
Definition VF_SYSREG_KEY_ID_AA64PFR2_EL1 := 0x4022.
Definition VF_SYSREG_KEY_FPCR := 0x5a20.
Definition VF_SYSREG_KEY_CPACR_EL1 := 0x4082.
Definition VF_FP_EXECUTION_ABSENT := 0.
Definition VF_FP_EXECUTION_PARTIAL := 1.
Definition VF_PFR0_FP_RESEARCH := 0x00000011.
Definition VF_SYSREG_KEY_FPSR := 0x5a21.
Definition VF_PFR0_SCALAR_PROFILE := 0x00ff0011.
Definition VF_SYSREG_KEY_ID_AA64MMFR0_EL1 := 0x4038.
Definition VF_SYSREG_KEY_ID_AA64MMFR1_EL1 := 0x4039.
Definition VF_SYSREG_KEY_ID_AA64MMFR2_EL1 := 0x403a.
Definition VF_SYSREG_KEY_SCTLR_EL1 := 0x4080.
Definition VF_SYSREG_KEY_TTBR0_EL1 := 0x4100.
Definition VF_SYSREG_KEY_TTBR1_EL1 := 0x4101.
Definition VF_SYSREG_KEY_TCR_EL1 := 0x4102.
Definition VF_SYSREG_KEY_SPSR_EL1 := 0x4200.
Definition VF_SYSREG_KEY_ELR_EL1 := 0x4201.
Definition VF_SYSREG_KEY_ESR_EL1 := 0x4290.
Definition VF_SYSREG_KEY_FAR_EL1 := 0x4300.
Definition VF_SYSREG_KEY_MAIR_EL1 := 0x4510.
Definition VF_SYSREG_KEY_VBAR_EL1 := 0x4600.
Definition VF_SYSREG_KEY_HCR_EL2 := 0x6088.
Definition VF_SYSREG_KEY_CNTHCTL_EL2 := 0x6708.
Definition VF_SYSREG_KEY_SPSR_EL2 := 0x6200.
Definition VF_SYSREG_KEY_ELR_EL2 := 0x6201.
Definition VF_SYSREG_KEY_ESR_EL2 := 0x6290.
Definition VF_SYSREG_KEY_FAR_EL2 := 0x6300.
Definition VF_SYSREG_KEY_VBAR_EL2 := 0x6600.
Definition VF_SYSREG_KEY_SCR_EL3 := 0x7088.
Definition VF_SYSREG_KEY_SPSR_EL3 := 0x7200.
Definition VF_SYSREG_KEY_ELR_EL3 := 0x7201.
Definition VF_SYSREG_KEY_ESR_EL3 := 0x7290.
Definition VF_SYSREG_KEY_FAR_EL3 := 0x7300.
Definition VF_SYSREG_KEY_VBAR_EL3 := 0x7600.
Definition VF_PLATFORM_NONE := 0.
Definition VF_PLATFORM_IRQ_COMPAT_V1 := 1.
Definition VF_PLATFORM_OVERRIDE_KEY := 0x6fa8.
Definition VF_PLATFORM_OVERRIDE_MASK := 0x00f00000.

(** ** State *)

(** The scalar fields of [vf_cpu]; an array field takes the index.  Not listed:
    the authentication callback and the floating-point bank, which of the operations
    here only the reset touches, clearing them. *)
Module F.
Inductive field :=
  | x (i : Z) | sp | pc | pstate | sctlr | ttbr0 | ttbr1 | tcr | mair
  | vbar | esr | far | elr
  | sp_el (i : Z) | spsr_el (i : Z) | vbar_el (i : Z) | esr_el (i : Z) | far_el (i : Z) | elr_el (i : Z)
  | exception_syndrome | exception_far | exception_pc | exception_vector
  | cntfrq | cntpct | cntp_ctl | cntp_cval | id_aa64mmfr0 | id_aa64isar1
  | cntvct | cntv_ctl | cntv_cval | cntp_tval
  | hcr_el2 | cnthctl_el2 | scr_el3
  | retired | tlb_tag | tlb_pa | tlb_generation
  | current_el | exception_pending | exception_target_el | exception_from_lower_el
  | instruction | status
  | guest_ram_base | compiled_blocks | pauth_keys (i j : Z)
  | tpidr_el0 | tpidrro_el0 | tpidr_el1 | platform_override
  | platform_profile | irq_level | fiq_level
  | cpacr_el1 | fp_execution_profile | fp_execution_reserved.

(** A number per field name, and its indices. *)
Definition code (f : field) : positive * list Z :=
  match f with
  | x i => (1%positive, [i]) | sp => (2%positive, []) | pc => (3%positive, []) | pstate => (4%positive, []) | sctlr => (5%positive, [])
  | ttbr0 => (6%positive, []) | ttbr1 => (7%positive, []) | tcr => (8%positive, []) | mair => (9%positive, [])
  | vbar => (10%positive, []) | esr => (11%positive, []) | far => (12%positive, []) | elr => (13%positive, [])
  | sp_el i => (14%positive, [i]) | spsr_el i => (15%positive, [i]) | vbar_el i => (16%positive, [i])
  | esr_el i => (17%positive, [i]) | far_el i => (18%positive, [i]) | elr_el i => (19%positive, [i])
  | exception_syndrome => (20%positive, []) | exception_far => (21%positive, []) | exception_pc => (22%positive, [])
  | exception_vector => (23%positive, []) | cntfrq => (24%positive, []) | cntpct => (25%positive, [])
  | cntp_ctl => (26%positive, []) | cntp_cval => (27%positive, []) | id_aa64mmfr0 => (28%positive, [])
  | id_aa64isar1 => (29%positive, []) | cntvct => (30%positive, []) | cntv_ctl => (31%positive, [])
  | cntv_cval => (32%positive, []) | cntp_tval => (33%positive, []) | hcr_el2 => (34%positive, [])
  | cnthctl_el2 => (35%positive, []) | scr_el3 => (36%positive, []) | retired => (37%positive, [])
  | tlb_tag => (38%positive, []) | tlb_pa => (39%positive, []) | tlb_generation => (40%positive, [])
  | current_el => (41%positive, []) | exception_pending => (42%positive, []) | exception_target_el => (43%positive, [])
  | exception_from_lower_el => (44%positive, []) | instruction => (45%positive, []) | status => (46%positive, [])
  | guest_ram_base => (47%positive, []) | compiled_blocks => (48%positive, []) | pauth_keys i j => (49%positive, [i; j])
  | tpidr_el0 => (50%positive, []) | tpidrro_el0 => (51%positive, []) | tpidr_el1 => (52%positive, [])
  | platform_override => (53%positive, []) | platform_profile => (54%positive, []) | irq_level => (55%positive, [])
  | fiq_level => (56%positive, []) | cpacr_el1 => (57%positive, []) | fp_execution_profile => (58%positive, [])
  | fp_execution_reserved => (59%positive, [])
  end.

Fixpoint same (l l' : list Z) : bool :=
  match l, l' with
  | [], [] => true
  | i :: l, j :: l' => (i =? j) && same l l'
  | _, _ => false
  end.

Definition eqb (f g : field) : bool := Pos.eqb (code f).1 (code g).1 && same (code f).2 (code g).2.

(** Bits of a field. *)
Definition width (f : field) : Z :=
  match f with
  | current_el | exception_pending | exception_target_el | exception_from_lower_el
  | instruction | status | platform_profile | irq_level | fiq_level
  | fp_execution_profile | fp_execution_reserved => 32
  | _ => 64
  end.
End F.
Import F.

(** The structure is the function from its fields to their values, so that "every
    other field keeps its value" can be said. *)
Definition vf_cpu := field → Z.

Definition upd (c : vf_cpu) (f : field) (v : Z) : vf_cpu := λ g, if F.eqb f g then v else c g.

(** [cpu->f = v] *)
Notation "c .[ f := v ]" := (upd c f v) (at level 1, left associativity, f at level 69,
  format "c .[ f  :=  v ]").

(** The arrays indexed by exception level have four elements. *)
Definition el_get (c : vf_cpu) (a : Z → field) (i : Z) : option Z :=
  if bool_decide (0 ≤ i < 4) then Some (c (a i)) else None.
Definition el_set (c : vf_cpu) (a : Z → field) (i v : Z) : option vf_cpu :=
  if bool_decide (0 ≤ i < 4) then Some (upd c (a i) v) else None.

(** ** Helpers *)

Definition sysreg_min_el (key : Z) : Z :=
  default (-1) (switch key [
    (VF_SYSREG_KEY_TPIDR_EL0, VF_EL0); (VF_SYSREG_KEY_TPIDRRO_EL0, VF_EL0);
    (VF_SYSREG_KEY_CNTFRQ_EL0, VF_EL0); (VF_SYSREG_KEY_CNTPCT_EL0, VF_EL0);
    (VF_SYSREG_KEY_CNTVCT_EL0, VF_EL0); (VF_SYSREG_KEY_CNTP_TVAL_EL0, VF_EL0);
    (VF_SYSREG_KEY_CNTP_CTL_EL0, VF_EL0); (VF_SYSREG_KEY_CNTP_CVAL_EL0, VF_EL0);
    (VF_SYSREG_KEY_CNTV_CTL_EL0, VF_EL0); (VF_SYSREG_KEY_CNTV_CVAL_EL0, VF_EL0);
    (VF_SYSREG_KEY_CURRENT_EL, VF_EL0);
    (VF_SYSREG_KEY_ID_AA64ISAR1_EL1, VF_EL1); (VF_SYSREG_KEY_CPACR_EL1, VF_EL1);
    (VF_SYSREG_KEY_ID_AA64PFR0_EL1, VF_EL1); (VF_SYSREG_KEY_ID_AA64PFR1_EL1, VF_EL1);
    (VF_SYSREG_KEY_ID_AA64PFR2_EL1, VF_EL1); (VF_SYSREG_KEY_TPIDR_EL1, VF_EL1);
    (VF_SYSREG_KEY_ID_AA64MMFR0_EL1, VF_EL1); (VF_SYSREG_KEY_ID_AA64MMFR2_EL1, VF_EL1);
    (VF_SYSREG_KEY_SCTLR_EL1, VF_EL1); (VF_SYSREG_KEY_TTBR0_EL1, VF_EL1);
    (VF_SYSREG_KEY_TTBR1_EL1, VF_EL1); (VF_SYSREG_KEY_TCR_EL1, VF_EL1);
    (VF_SYSREG_KEY_SPSR_EL1, VF_EL1); (VF_SYSREG_KEY_ELR_EL1, VF_EL1);
    (VF_SYSREG_KEY_ESR_EL1, VF_EL1); (VF_SYSREG_KEY_FAR_EL1, VF_EL1);
    (VF_SYSREG_KEY_MAIR_EL1, VF_EL1); (VF_SYSREG_KEY_VBAR_EL1, VF_EL1);
    (VF_SYSREG_KEY_HCR_EL2, VF_EL2); (VF_SYSREG_KEY_CNTHCTL_EL2, VF_EL2);
    (VF_SYSREG_KEY_SPSR_EL2, VF_EL2); (VF_SYSREG_KEY_ELR_EL2, VF_EL2);
    (VF_SYSREG_KEY_ESR_EL2, VF_EL2); (VF_SYSREG_KEY_FAR_EL2, VF_EL2);
    (VF_SYSREG_KEY_VBAR_EL2, VF_EL2);
    (VF_SYSREG_KEY_SCR_EL3, VF_EL3); (VF_SYSREG_KEY_SPSR_EL3, VF_EL3);
    (VF_SYSREG_KEY_ELR_EL3, VF_EL3); (VF_SYSREG_KEY_ESR_EL3, VF_EL3);
    (VF_SYSREG_KEY_FAR_EL3, VF_EL3); (VF_SYSREG_KEY_VBAR_EL3, VF_EL3)]).

Definition update_timer_status (c : vf_cpu) : vf_cpu :=
  let c :=
    if nz (Z.land (c cntp_ctl) VF_TIMER_CTL_ENABLE) && negb (nz (Z.land (c cntp_ctl) VF_TIMER_CTL_IMASK))
       && (c cntp_cval <=? c cntpct)
    then c.[cntp_ctl := Z.lor (c cntp_ctl) VF_TIMER_CTL_ISTATUS]
    else c.[cntp_ctl := Z.land (c cntp_ctl) (bnot 64 VF_TIMER_CTL_ISTATUS)] in
  let c :=
    if nz (Z.land (c cntv_ctl) VF_TIMER_CTL_ENABLE) && negb (nz (Z.land (c cntv_ctl) VF_TIMER_CTL_IMASK))
       && (c cntv_cval <=? c cntvct)
    then c.[cntv_ctl := Z.lor (c cntv_ctl) VF_TIMER_CTL_ISTATUS]
    else c.[cntv_ctl := Z.land (c cntv_ctl) (bnot 64 VF_TIMER_CTL_ISTATUS)] in
  c.[cntp_tval := if c cntpct <=? c cntp_cval then c cntp_cval - c cntpct else 0].

Definition valid_exception_kind (kind : Z) : bool :=
  ((VF_EXCEPTION_UNDEFINED_INSTRUCTION <=? kind) && (kind <=? VF_EXCEPTION_EXTERNAL_INTERRUPT))
  || (kind =? VF_EXCEPTION_FIQ_INTERRUPT) || (kind =? VF_EXCEPTION_SP_ALIGNMENT_FAULT)
  || (kind =? VF_EXCEPTION_FP_ACCESS).

Definition mode_for_el (el : Z) : Z :=
  default 0 (switch el [(VF_EL0, 0); (VF_EL1, 5); (VF_EL2, 9); (VF_EL3, 13)]).

Definition active_sp_index (c : vf_cpu) : Z :=
  if (c current_el =? VF_EL0) || negb (nz (Z.land (c pstate) 1)) then VF_EL0 else c current_el.

Definition save_active_sp (c : vf_cpu) : option vf_cpu :=
  if c current_el <=? VF_EL3 then el_set c sp_el (active_sp_index c) (c sp) else Some c.

Definition target_el (c : vf_cpu) : Z := if c current_el =? VF_EL0 then VF_EL1 else c current_el.

(** [instruction] is a load or store pair, or an integer scalar load or store. *)
Definition is_pair (instruction : Z) : bool := Z.land instruction 0x3e000000 =? 0x28000000.
Definition is_scalar (instruction : Z) : bool :=
  ((Z.land instruction 0x3f000000 =? 0x39000000) || (Z.land instruction 0x3f200c00 =? 0x38000000)
   || (Z.land instruction 0x3f200400 =? 0x38000400)
   || ((Z.land instruction 0x3f200c00 =? 0x38200800) && nz (Z.land instruction (Z.shiftl 1 14))))
  && ((Z.shiftr instruction 30 <? 3) || (Z.land (Z.shiftr instruction 22) 3 <? 2))
  && negb ((Z.shiftr instruction 30 =? 2) && (Z.land (Z.shiftr instruction 22) 3 =? 3)).

(** [None]: a kind outside the enumeration leaves [ec] uninitialised. *)
Definition exception_syndrome (kind current_el pc instruction : Z) : option Z :=
  let fault ec fsc :=
    let aborts := (kind =? VF_EXCEPTION_DATA_ABORT) || (kind =? VF_EXCEPTION_ALIGNMENT_FAULT) in
    let extra := 0 in
    let extra :=
      if aborts && is_pair instruction then
        Z.lor (Z.shiftl 1 25) (if negb (nz (Z.land instruction 0x00400000)) then Z.shiftl 1 6 else 0)
      else extra in
    let extra :=
      if aborts && is_scalar instruction then
        Z.lor (Z.shiftl 1 25) (if negb (nz (Z.land instruction 0x00c00000)) then Z.shiftl 1 6 else 0)
      else extra in
    Z.lor (Z.lor (shl 32 ec 26) extra) fsc in
  let dabt := if current_el =? VF_EL0 then VF_ESR_EC_DABT_LOWER else VF_ESR_EC_DABT_SAME in
  let iabt := if current_el =? VF_EL0 then VF_ESR_EC_IABT_LOWER else VF_ESR_EC_IABT_SAME in
  let unknown := Z.lor (shl 32 VF_ESR_EC_UNKNOWN 26) (Z.shiftl 1 25) in
  switch kind [
    (VF_EXCEPTION_FP_ACCESS, Z.lor (Z.lor (shl 32 VF_ESR_EC_FP_ACCESS 26) (Z.shiftl 1 25)) (Z.shiftl 0x1e 20));
    (VF_EXCEPTION_SYSTEM_REGISTER_TRAP, Z.lor (shl 32 VF_ESR_EC_SYSREG 26) (Z.land instruction 0x01ffffff));
    (VF_EXCEPTION_INSTRUCTION_ABORT,
      if nz (Z.land pc 3) then shl 32 VF_ESR_EC_PC_ALIGNMENT 26 else fault iabt VF_ESR_FSC_TRANSLATION_L3);
    (VF_EXCEPTION_DATA_ABORT, fault dabt VF_ESR_FSC_TRANSLATION_L3);
    (VF_EXCEPTION_TRANSLATION_FAULT, fault dabt VF_ESR_FSC_TRANSLATION_L3);
    (VF_EXCEPTION_PERMISSION_FAULT, fault dabt VF_ESR_FSC_PERMISSION_L3);
    (VF_EXCEPTION_ALIGNMENT_FAULT, fault dabt VF_ESR_FSC_ALIGNMENT);
    (VF_EXCEPTION_SP_ALIGNMENT_FAULT, Z.lor (Z.shiftl 0x26 26) (Z.shiftl 1 25));
    (VF_EXCEPTION_UNDEFINED_INSTRUCTION, unknown);
    (VF_EXCEPTION_PRIVILEGED_INSTRUCTION, unknown);
    (VF_EXCEPTION_TIMER_INTERRUPT, 0);
    (VF_EXCEPTION_EXTERNAL_INTERRUPT, 0);
    (VF_EXCEPTION_FIQ_INTERRUPT, 0);
    (VF_EXCEPTION_NONE, 0)].

(** ** Exception state *)

Definition vf_cpu_reset (p : ptr vf_cpu) (initial_el : Z) : ptr vf_cpu :=
  match p with
  | None => None
  | Some _ =>
    let c : vf_cpu := λ _, 0 in
    let initial_el := if VF_EL3 <? initial_el then VF_EL0 else initial_el in
    let c := c.[current_el := initial_el] in
    let c := c.[pstate := mode_for_el initial_el] in
    let c := c.[cntfrq := 24000000] in
    let c := c.[id_aa64mmfr0 := 0x0f100005] in
    let c := c.[id_aa64isar1 := 0] in
    let c := c.[tcr := 16] in
    Some (c.[status := VF_NEXT])
  end.

Definition vf_cpu_state_valid (p : ptr vf_cpu) : bool :=
  match p with
  | None => false
  | Some c =>
    if (VF_EL3 <? c current_el) || (VF_FP_EXECUTION_PARTIAL <? c fp_execution_profile)
       || nz (c fp_execution_reserved) || nz (Z.land (c cpacr_el1) (bnot 64 0x00300000))
       || ((c fp_execution_profile =? VF_FP_EXECUTION_ABSENT) && nz (c cpacr_el1))
       || (negb (c exception_pending =? VF_EXCEPTION_NONE) && negb (valid_exception_kind (c exception_pending)))
       || (VF_EL3 <? c exception_target_el) || (1 <? c exception_from_lower_el) then false
    else
      let mode := Z.land (c pstate) VF_PSTATE_MODE_MASK in
      default false (switch (c current_el) [
        (VF_EL0, mode =? 0);
        (VF_EL1, (mode =? 4) || (mode =? 5));
        (VF_EL2, (mode =? 8) || (mode =? 9));
        (VF_EL3, (mode =? 12) || (mode =? 13))])
  end.

Definition vf_cpu_set_current_el (p : ptr vf_cpu) (el : Z) : option (Z * ptr vf_cpu) :=
  match p with
  | None => Some (-1, None)
  | Some c =>
    if (VF_EL3 <? el) || negb (vf_cpu_state_valid p) then Some (-1, p)
    else
      c ← save_active_sp c;
      let c := c.[current_el := el] in
      let c := c.[pstate := Z.lor (Z.land (c pstate) (bnot 64 VF_PSTATE_MODE_MASK)) (mode_for_el el)] in
      v ← el_get c sp_el el;
      Some (0, Some (c.[sp := v]))
  end.

Definition vf_cpu_clear_exception (p : ptr vf_cpu) : ptr vf_cpu :=
  match p with
  | None => None
  | Some c =>
    let c := c.[exception_pending := VF_EXCEPTION_NONE] in
    let c := c.[exception_target_el := VF_EL0] in
    let c := c.[exception_from_lower_el := 0] in
    let c := c.[F.exception_syndrome := 0] in
    let c := c.[exception_far := 0] in
    Some (c.[exception_pc := 0])
  end.

Definition is_async (kind : Z) : bool :=
  (kind =? VF_EXCEPTION_TIMER_INTERRUPT) || (kind =? VF_EXCEPTION_EXTERNAL_INTERRUPT)
  || (kind =? VF_EXCEPTION_FIQ_INTERRUPT).

Definition vf_cpu_raise_exception (p : ptr vf_cpu) (kind pc_ far_ syndrome insn : Z) :
    option (Z * ptr vf_cpu) :=
  match p with
  | None => Some (-1, None)
  | Some c =>
    if negb (vf_cpu_state_valid p) || negb (valid_exception_kind kind)
       || negb (c exception_pending =? VF_EXCEPTION_NONE) then Some (-1, p)
    else
      let target := target_el c in
      syndrome ← (if syndrome =? 0 then exception_syndrome kind (c current_el) pc_ insn else Some syndrome);
      c ← save_active_sp c;
      let c := c.[exception_pending := kind] in
      let c := c.[exception_target_el := target] in
      let c := c.[exception_from_lower_el := b2z (c current_el <? target)] in
      let c := c.[F.exception_syndrome := syndrome] in
      let c := c.[exception_far := far_] in
      let c := c.[exception_pc := pc_] in
      let c := c.[instruction := insn] in
      c ← el_set c spsr_el target (c pstate);
      c ← el_set c elr_el target pc_;
      c ← (if negb (is_async kind) then c ← el_set c esr_el target syndrome; el_set c far_el target far_
           else Some c);
      v ← el_get c vbar_el target;
      let c := c.[vbar := v] in
      v ← el_get c esr_el target;
      let c := c.[esr := v] in
      v ← el_get c far_el target;
      let c := c.[far := v] in
      Some (0, Some (c.[elr := pc_]))
  end.

Definition vf_cpu_take_exception (p : ptr vf_cpu) : option (Z * ptr vf_cpu) :=
  match p with
  | None => Some (-1, None)
  | Some c =>
    if negb (vf_cpu_state_valid p) || (c exception_pending =? VF_EXCEPTION_NONE)
       || (VF_EL3 <? c exception_target_el) then Some (-1, p)
    else
      let target := c exception_target_el in
      vb ← el_get c vbar_el target;
      let base := Z.land vb (bnot 64 0x7ff) in
      saved ← el_get c spsr_el target;
      let offset := if nz (c exception_from_lower_el) then 0x400
                    else if nz (Z.land saved 1) then 0x200 else 0 in
      let offset :=
        if (c exception_pending =? VF_EXCEPTION_TIMER_INTERRUPT)
           || (c exception_pending =? VF_EXCEPTION_EXTERNAL_INTERRUPT) then u64 (offset + 0x80)
        else if c exception_pending =? VF_EXCEPTION_FIQ_INTERRUPT then u64 (offset + 0x100) else offset in
      if UINT64_MAX - offset <? base then Some (-1, p)
      else
        let vector := u64 (base + offset) in
        let c := c.[current_el := target] in
        let c := c.[pstate := Z.lor (Z.lor (Z.land saved (bnot 64 VF_PSTATE_MODE_MASK)) (mode_for_el target))
                                    VF_PSTATE_DAIF_MASK] in
        v ← el_get c sp_el target;
        let c := c.[sp := v] in
        let c := c.[pc := vector] in
        let c := c.[exception_vector := vector] in
        let c := c.[vbar := base] in
        v ← el_get c esr_el target;
        let c := c.[esr := v] in
        v ← el_get c far_el target;
        let c := c.[far := v] in
        v ← el_get c elr_el target;
        let c := c.[elr := v] in
        Some (0, vf_cpu_clear_exception (Some c))
  end.

(** The exception a terminal status stands for, with its fault address and
    instruction. *)
Definition commit_kind (c : vf_cpu) (st : Z) : option (Z * Z * Z) :=
  let plain kind := (kind, c far, c instruction) in
  let fetch := (VF_EXCEPTION_INSTRUCTION_ABORT, c pc, 0) in
  switch st [
    (VF_FP_ACCESS_TRAP, (VF_EXCEPTION_FP_ACCESS, 0, c instruction));
    (VF_BAD_INSTRUCTION, plain VF_EXCEPTION_UNDEFINED_INSTRUCTION);
    (VF_UNDEFINED_INSTRUCTION, plain VF_EXCEPTION_UNDEFINED_INSTRUCTION);
    (VF_FETCH_FAULT, fetch);
    (VF_INSTRUCTION_ABORT, fetch);
    (VF_DATA_FAULT, plain VF_EXCEPTION_DATA_ABORT);
    (VF_DATA_ABORT, plain VF_EXCEPTION_DATA_ABORT);
    (VF_TRANSLATION_FAULT, plain VF_EXCEPTION_TRANSLATION_FAULT);
    (VF_PERMISSION_FAULT, plain VF_EXCEPTION_PERMISSION_FAULT);
    (VF_ALIGNMENT_FAULT, plain VF_EXCEPTION_ALIGNMENT_FAULT);
    (VF_SP_ALIGNMENT_FAULT, plain VF_EXCEPTION_SP_ALIGNMENT_FAULT);
    (VF_PRIVILEGE_FAULT, plain VF_EXCEPTION_PRIVILEGED_INSTRUCTION);
    (VF_SYSTEM_REGISTER_TRAP, plain VF_EXCEPTION_SYSTEM_REGISTER_TRAP);
    (VF_TIMER_INTERRUPT, plain VF_EXCEPTION_TIMER_INTERRUPT);
    (VF_EXTERNAL_INTERRUPT, plain VF_EXCEPTION_EXTERNAL_INTERRUPT);
    (VF_FIQ_INTERRUPT, plain VF_EXCEPTION_FIQ_INTERRUPT)].

Definition vf_cpu_commit_status (p : ptr vf_cpu) (st : Z) : option (Z * ptr vf_cpu) :=
  match p with
  | None => Some (-1, None)
  | Some c =>
    let c := c.[status := u32 st] in
    match commit_kind c st with
    | None => Some (0, Some c)
    | Some (kind, far_, insn) => vf_cpu_raise_exception (Some c) kind (c pc) far_ 0 insn
    end
  end.

(** ** System registers *)

Definition id_keys : list Z := [
  VF_SYSREG_KEY_ID_AA64PFR0_EL1; VF_SYSREG_KEY_ID_AA64PFR1_EL1; VF_SYSREG_KEY_ID_AA64PFR2_EL1;
  0x4024; 0x4030; 0x4032; VF_SYSREG_KEY_ID_AA64ISAR3_EL1; 0x4038; VF_SYSREG_KEY_ID_AA64MMFR1_EL1;
  VF_SYSREG_KEY_ID_AA64MMFR2_EL1].

(** [cpu->current_el!=VF_EL1 || cpu->hcr_el2 || cpu->scr_el3] *)
Definition not_plain_el1 (c : vf_cpu) : bool :=
  negb (c current_el =? VF_EL1) || nz (c hcr_el2) || nz (c scr_el3).

Definition read_cases (c : vf_cpu) : list (Z * Z) := [
  (VF_SYSREG_KEY_TPIDR_EL0, c tpidr_el0);
  (VF_SYSREG_KEY_TPIDRRO_EL0, c tpidrro_el0);
  (VF_SYSREG_KEY_TPIDR_EL1, c tpidr_el1);
  (VF_SYSREG_KEY_CNTFRQ_EL0, c cntfrq);
  (VF_SYSREG_KEY_CNTPCT_EL0, c cntpct);
  (VF_SYSREG_KEY_CNTVCT_EL0, c cntvct);
  (VF_SYSREG_KEY_CNTP_TVAL_EL0, c cntp_tval);
  (VF_SYSREG_KEY_CNTP_CTL_EL0, c cntp_ctl);
  (VF_SYSREG_KEY_CNTP_CVAL_EL0, c cntp_cval);
  (VF_SYSREG_KEY_CNTV_CTL_EL0, c cntv_ctl);
  (VF_SYSREG_KEY_CNTV_CVAL_EL0, c cntv_cval);
  (VF_SYSREG_KEY_CURRENT_EL, shl 64 (c current_el) 2);
  (VF_SYSREG_KEY_ID_AA64MMFR0_EL1, c id_aa64mmfr0);
  (VF_SYSREG_KEY_ID_AA64ISAR1_EL1, c id_aa64isar1);
  (VF_SYSREG_KEY_SCTLR_EL1, c sctlr);
  (VF_SYSREG_KEY_TTBR0_EL1, c ttbr0);
  (VF_SYSREG_KEY_TTBR1_EL1, c ttbr1);
  (VF_SYSREG_KEY_TCR_EL1, c tcr);
  (VF_SYSREG_KEY_SPSR_EL1, c (spsr_el VF_EL1));
  (VF_SYSREG_KEY_ELR_EL1, c (elr_el VF_EL1));
  (VF_SYSREG_KEY_ESR_EL1, c (esr_el VF_EL1));
  (VF_SYSREG_KEY_FAR_EL1, c (far_el VF_EL1));
  (VF_SYSREG_KEY_MAIR_EL1, c mair);
  (VF_SYSREG_KEY_VBAR_EL1, c (vbar_el VF_EL1));
  (VF_SYSREG_KEY_HCR_EL2, c hcr_el2);
  (VF_SYSREG_KEY_CNTHCTL_EL2, c cnthctl_el2);
  (VF_SYSREG_KEY_SPSR_EL2, c (spsr_el VF_EL2));
  (VF_SYSREG_KEY_ELR_EL2, c (elr_el VF_EL2));
  (VF_SYSREG_KEY_ESR_EL2, c (esr_el VF_EL2));
  (VF_SYSREG_KEY_FAR_EL2, c (far_el VF_EL2));
  (VF_SYSREG_KEY_VBAR_EL2, c (vbar_el VF_EL2));
  (VF_SYSREG_KEY_SCR_EL3, c scr_el3);
  (VF_SYSREG_KEY_SPSR_EL3, c (spsr_el VF_EL3));
  (VF_SYSREG_KEY_ELR_EL3, c (elr_el VF_EL3));
  (VF_SYSREG_KEY_ESR_EL3, c (esr_el VF_EL3));
  (VF_SYSREG_KEY_FAR_EL3, c (far_el VF_EL3));
  (VF_SYSREG_KEY_VBAR_EL3, c (vbar_el VF_EL3))].

(** [value] says whether the out-pointer is given. *)
Definition vf_cpu_read_sysreg (p : ptr vf_cpu) (key : Z) (value : bool) : rd_result :=
  match p with
  | None => (VF_SYSREG_INVALID_VALUE, None)
  | Some c =>
    if negb value || negb (vf_cpu_state_valid p) then (VF_SYSREG_INVALID_VALUE, None)
    else if (key =? VF_SYSREG_KEY_FPCR) || (key =? VF_SYSREG_KEY_FPSR) then (VF_SYSREG_UNDEFINED, None)
    else if key =? VF_SYSREG_KEY_CPACR_EL1 then
      if negb (c fp_execution_profile =? VF_FP_EXECUTION_PARTIAL) then (VF_SYSREG_UNKNOWN, None)
      else if c current_el =? VF_EL0 then (VF_SYSREG_UNDEFINED, None)
      else if not_plain_el1 c then (VF_SYSREG_UNKNOWN, None)
      else (VF_SYSREG_OK, Some (c cpacr_el1))
    else if key =? VF_PLATFORM_OVERRIDE_KEY then
      if negb (c platform_profile =? VF_PLATFORM_IRQ_COMPAT_V1) || not_plain_el1 c
      then (VF_SYSREG_UNKNOWN, None)
      else (VF_SYSREG_OK, Some (c platform_override))
    else if existsb (Z.eqb key) id_keys then
      if not_plain_el1 c then (VF_SYSREG_UNKNOWN, None)
      else (VF_SYSREG_OK, Some (
        if key =? 0x4038 then 0x0f100005
        else if key =? VF_SYSREG_KEY_ID_AA64PFR0_EL1 then
          if c fp_execution_profile =? VF_FP_EXECUTION_PARTIAL then VF_PFR0_FP_RESEARCH
          else VF_PFR0_SCALAR_PROFILE
        else 0))
    else
      let minimum := sysreg_min_el key in
      if minimum <? 0 then (VF_SYSREG_UNKNOWN, None)
      else if c current_el <? minimum then
        (if key =? VF_SYSREG_KEY_TPIDR_EL1 then VF_SYSREG_UNDEFINED else VF_SYSREG_PRIVILEGE, None)
      else
        match switch key (read_cases c) with
        | Some v => (VF_SYSREG_OK, Some v)
        | None => (VF_SYSREG_UNKNOWN, None)
        end
  end.

Definition vf_cpu_invalidate_tlb (p : ptr vf_cpu) : ptr vf_cpu :=
  match p with
  | None => None
  | Some c =>
    let c := c.[tlb_tag := 0] in
    let c := c.[tlb_pa := 0] in
    Some (c.[tlb_generation := u64 (c tlb_generation + 1)])
  end.

Definition vf_cpu_configure_platform (p : ptr vf_cpu) (profile value : Z) : Z * ptr vf_cpu :=
  match p with
  | None => (VF_SYSREG_INVALID_VALUE, None)
  | Some c =>
    let irq := Z.land (Z.shiftr value 22) 3 in
    let fiq := Z.land (Z.shiftr value 20) 3 in
    if (VF_PLATFORM_IRQ_COMPAT_V1 <? profile) || ((profile =? VF_PLATFORM_NONE) && nz value)
       || nz (Z.land value (bnot 64 VF_PLATFORM_OVERRIDE_MASK))
       || (negb (fiq =? 0) && negb (fiq =? 2)) || (negb (irq =? 0) && negb (irq =? 2))
    then (VF_SYSREG_INVALID_VALUE, p)
    else (VF_SYSREG_OK, Some (c.[platform_profile := profile].[platform_override := value]))
  end.

(** [inl rc]: the case returns [rc]; [inr c]: it breaks with state [c]. *)
Definition write_cases (c : vf_cpu) (value : Z) : list (Z * (Z + vf_cpu)) :=
  let flushed c := default c (vf_cpu_invalidate_tlb (Some c)) in
  let vbar_of v := Z.land v (bnot 64 0x7ff) in [
  (VF_SYSREG_KEY_TPIDR_EL0, inr (c.[tpidr_el0 := value]));
  (VF_SYSREG_KEY_TPIDRRO_EL0,
    if c current_el =? VF_EL0 then inl VF_SYSREG_UNDEFINED else inr (c.[tpidrro_el0 := value]));
  (VF_SYSREG_KEY_TPIDR_EL1, inr (c.[tpidr_el1 := value]));
  (VF_SYSREG_KEY_CNTFRQ_EL0, inl VF_SYSREG_READ_ONLY);
  (VF_SYSREG_KEY_CNTPCT_EL0, inl VF_SYSREG_READ_ONLY);
  (VF_SYSREG_KEY_CNTVCT_EL0, inl VF_SYSREG_READ_ONLY);
  (VF_SYSREG_KEY_CURRENT_EL, inl VF_SYSREG_READ_ONLY);
  (VF_SYSREG_KEY_ID_AA64MMFR0_EL1, inl VF_SYSREG_READ_ONLY);
  (VF_SYSREG_KEY_ID_AA64PFR0_EL1, inl VF_SYSREG_READ_ONLY);
  (VF_SYSREG_KEY_ID_AA64PFR1_EL1, inl VF_SYSREG_READ_ONLY);
  (VF_SYSREG_KEY_ID_AA64PFR2_EL1, inl VF_SYSREG_READ_ONLY);
  (VF_SYSREG_KEY_ID_AA64MMFR2_EL1, inl VF_SYSREG_READ_ONLY);
  (VF_SYSREG_KEY_ID_AA64ISAR1_EL1, inl VF_SYSREG_READ_ONLY);
  (VF_SYSREG_KEY_CNTP_TVAL_EL0, inr (c.[cntp_cval := u64 (c cntpct + value)].[cntp_tval := value]));
  (VF_SYSREG_KEY_CNTP_CTL_EL0,
    inr (c.[cntp_ctl := Z.land value (Z.lor VF_TIMER_CTL_ENABLE VF_TIMER_CTL_IMASK)]));
  (VF_SYSREG_KEY_CNTP_CVAL_EL0, inr (c.[cntp_cval := value]));
  (VF_SYSREG_KEY_CNTV_CTL_EL0,
    inr (c.[cntv_ctl := Z.land value (Z.lor VF_TIMER_CTL_ENABLE VF_TIMER_CTL_IMASK)]));
  (VF_SYSREG_KEY_CNTV_CVAL_EL0, inr (c.[cntv_cval := value]));
  (VF_SYSREG_KEY_SCTLR_EL1, inr (c.[sctlr := value]));
  (VF_SYSREG_KEY_TTBR0_EL1,
    if nz (Z.land value 0xfff) then inl VF_SYSREG_INVALID_VALUE else inr (flushed (c.[ttbr0 := value])));
  (VF_SYSREG_KEY_TTBR1_EL1,
    if nz (Z.land value 0xfff) then inl VF_SYSREG_INVALID_VALUE else inr (flushed (c.[ttbr1 := value])));
  (VF_SYSREG_KEY_TCR_EL1,
    if nz (Z.land value (Z.shiftl 0xf 39)) then inl VF_SYSREG_INVALID_VALUE
    else inr (flushed (c.[tcr := value])));
  (VF_SYSREG_KEY_SPSR_EL1, inr (c.[spsr_el VF_EL1 := value]));
  (VF_SYSREG_KEY_ELR_EL1, inr (c.[elr_el VF_EL1 := value]));
  (VF_SYSREG_KEY_ESR_EL1, inr (c.[esr_el VF_EL1 := value]));
  (VF_SYSREG_KEY_FAR_EL1, inr (c.[far_el VF_EL1 := value]));
  (VF_SYSREG_KEY_MAIR_EL1, inr (c.[mair := value]));
  (VF_SYSREG_KEY_VBAR_EL1, inr (c.[vbar_el VF_EL1 := vbar_of value]));
  (VF_SYSREG_KEY_HCR_EL2, inr (c.[hcr_el2 := value]));
  (VF_SYSREG_KEY_CNTHCTL_EL2, inr (c.[cnthctl_el2 := value]));
  (VF_SYSREG_KEY_SPSR_EL2, inr (c.[spsr_el VF_EL2 := value]));
  (VF_SYSREG_KEY_ELR_EL2, inr (c.[elr_el VF_EL2 := value]));
  (VF_SYSREG_KEY_ESR_EL2, inr (c.[esr_el VF_EL2 := value]));
  (VF_SYSREG_KEY_FAR_EL2, inr (c.[far_el VF_EL2 := value]));
  (VF_SYSREG_KEY_VBAR_EL2, inr (c.[vbar_el VF_EL2 := vbar_of value]));
  (VF_SYSREG_KEY_SCR_EL3, inr (c.[scr_el3 := value]));
  (VF_SYSREG_KEY_SPSR_EL3, inr (c.[spsr_el VF_EL3 := value]));
  (VF_SYSREG_KEY_ELR_EL3, inr (c.[elr_el VF_EL3 := value]));
  (VF_SYSREG_KEY_ESR_EL3, inr (c.[esr_el VF_EL3 := value]));
  (VF_SYSREG_KEY_FAR_EL3, inr (c.[far_el VF_EL3 := value]));
  (VF_SYSREG_KEY_VBAR_EL3, inr (c.[vbar_el VF_EL3 := vbar_of value]))].

Definition vf_cpu_write_sysreg (p : ptr vf_cpu) (key value : Z) : Z * ptr vf_cpu :=
  match p with
  | None => (VF_SYSREG_INVALID_VALUE, None)
  | Some c =>
    if negb (vf_cpu_state_valid p) then (VF_SYSREG_INVALID_VALUE, p)
    else if (key =? VF_SYSREG_KEY_FPCR) || (key =? VF_SYSREG_KEY_FPSR) then (VF_SYSREG_UNDEFINED, p)
    else if key =? VF_SYSREG_KEY_CPACR_EL1 then
      if negb (c fp_execution_profile =? VF_FP_EXECUTION_PARTIAL) then (VF_SYSREG_UNKNOWN, p)
      else if c current_el =? VF_EL0 then (VF_SYSREG_UNDEFINED, p)
      else if not_plain_el1 c then (VF_SYSREG_UNKNOWN, p)
      else if nz (Z.land value (bnot 64 0x00300000)) then (VF_SYSREG_INVALID_VALUE, p)
      else (VF_SYSREG_OK, Some (c.[cpacr_el1 := value]))
    else if key =? VF_PLATFORM_OVERRIDE_KEY then
      if negb (c platform_profile =? VF_PLATFORM_IRQ_COMPAT_V1) || not_plain_el1 c
      then (VF_SYSREG_UNKNOWN, p)
      else vf_cpu_configure_platform p (c platform_profile) value
    else
      let minimum := sysreg_min_el key in
      if minimum <? 0 then (VF_SYSREG_UNKNOWN, p)
      else if c current_el <? minimum then
        (if key =? VF_SYSREG_KEY_TPIDR_EL1 then VF_SYSREG_UNDEFINED else VF_SYSREG_PRIVILEGE, p)
      else
        match switch key (write_cases c value) with
        | None => (VF_SYSREG_UNKNOWN, p)
        | Some (inl rc) => (rc, p)
        | Some (inr c) => (VF_SYSREG_OK, Some (update_timer_status c))
        end
  end.

(** ** Counters and interrupts *)

Definition vf_cpu_advance_counter (p : ptr vf_cpu) (ticks : Z) : ptr vf_cpu :=
  match p with
  | None => None
  | Some c =>
    let c := c.[cntpct := u64 (c cntpct + ticks)] in
    let c := c.[cntvct := u64 (c cntvct + ticks)] in
    Some (update_timer_status c)
  end.

Definition vf_cpu_timer_pending (p : ptr vf_cpu) : bool :=
  match p with
  | None => false
  | Some c => nz (Z.land (c cntp_ctl) VF_TIMER_CTL_ISTATUS) || nz (Z.land (c cntv_ctl) VF_TIMER_CTL_ISTATUS)
  end.

Definition vf_cpu_set_interrupt_lines (p : ptr vf_cpu) (irq fiq : Z) : Z * ptr vf_cpu :=
  match p with
  | None => (-1, None)
  | Some c =>
    if (1 <? irq) || (1 <? fiq) then (-1, p) else (0, Some (c.[irq_level := irq].[fiq_level := fiq]))
  end.

(** The interrupt to deliver, when there is one: status and exception kind. *)
Definition select_interrupt (c : vf_cpu) : option (Z * Z) :=
  let ov := if c platform_profile =? VF_PLATFORM_IRQ_COMPAT_V1 then c platform_override else 0 in
  if nz (c fiq_level) && negb (nz (Z.land (c pstate) (Z.shiftl 1 6)))
     && negb (Z.land (Z.shiftr ov 20) 3 =? 2)
  then Some (VF_FIQ_INTERRUPT, VF_EXCEPTION_FIQ_INTERRUPT)
  else if negb (nz (Z.land (c pstate) (Z.shiftl 1 7))) && negb (Z.land (Z.shiftr ov 22) 3 =? 2) then
    if vf_cpu_timer_pending (Some c) then Some (VF_TIMER_INTERRUPT, VF_EXCEPTION_TIMER_INTERRUPT)
    else if nz (c irq_level) then Some (VF_EXTERNAL_INTERRUPT, VF_EXCEPTION_EXTERNAL_INTERRUPT)
    else None
  else None.

Definition vf_cpu_poll_interrupt (p : ptr vf_cpu) : option (Z * ptr vf_cpu) :=
  match p with
  | None => Some (VF_NEXT, None)
  | Some c =>
    if negb (vf_cpu_state_valid p) || nz (c exception_pending) then Some (VF_NEXT, p)
    else if (nz (c irq_level) || nz (c fiq_level) || vf_cpu_timer_pending p)
         && ((VF_EL1 <? c current_el) || nz (Z.land (c hcr_el2) 0x18) || nz (Z.land (c scr_el3) 6)) then
      let c := c.[instruction := 0] in
      '(_, p) ← vf_cpu_raise_exception (Some c) VF_EXCEPTION_SYSTEM_REGISTER_TRAP (c pc) 0 0 0;
      c ← p;
      Some (VF_SYSTEM_REGISTER_TRAP, Some (c.[status := VF_SYSTEM_REGISTER_TRAP]))
    else
      match select_interrupt c with
      | None => Some (VF_NEXT, p)
      | Some (st, kind) =>
        '(rc, p) ← vf_cpu_raise_exception p kind (c pc) 0 0 0;
        if nz rc then Some (VF_DATA_FAULT, p)
        else
          '(rc, p) ← vf_cpu_take_exception p;
          if nz rc then Some (VF_DATA_FAULT, p)
          else
            c ← p;
            Some (st, Some (c.[status := st]))
      end
  end.

(** ** Fields *)

Arguments upd _ _ _ _ /.

Lemma eqb_refl f : F.eqb f f = true.
Proof. unfold F.eqb. rewrite Pos.eqb_refl. destruct f; cbn; rewrite ?Z.eqb_refl; done. Qed.

Lemma eqb_eq f g : F.eqb f g = true → f = g.
Proof.
  unfold F.eqb. intros [Hc Hi]%andb_true_iff.
  destruct f, g; try discriminate Hc; cbn in Hi; rewrite ?andb_true_iff, ?Z.eqb_eq in Hi;
    first [done|destruct Hi as [-> _]; done|destruct Hi as (-> & -> & _); done].
Qed.

Lemma upd_same c f v : upd c f v f = v.
Proof. cbn. by rewrite eqb_refl. Qed.

(** Reads a field of an updated state. *)
Ltac fields := cbn [upd F.eqb F.code F.same Pos.eqb fst snd andb]; rewrite ?Z.eqb_refl; cbn [andb].

Definition typed (c : vf_cpu) : Prop := ∀ f, fits (F.width f) (c f).

Lemma typed_upd c f v : typed c → fits (F.width f) v → typed (upd c f v).
Proof. intros Hc Hv g. cbn. destruct (F.eqb f g) eqn:E; [|apply Hc]. by apply eqb_eq in E as <-. Qed.

Create HintDb cpu.
#[export] Hint Resolve typed_upd : cpu.

Lemma el_get_in c a i : 0 ≤ i ≤ 3 → el_get c a i = Some (c (a i)).
Proof. intros. unfold el_get. by rewrite bool_decide_true by lia. Qed.

Lemma el_set_in c a i v : 0 ≤ i ≤ 3 → el_set c a i v = Some (upd c (a i) v).
Proof. intros. unfold el_set. by rewrite bool_decide_true by lia. Qed.

Lemma switch_in {A} x (l : list (Z * A)) a : switch x l = Some a → (x, a) ∈ l.
Proof.
  induction l as [|[k b] l IH]; cbn; [done|]. destruct (x =? k) eqn:E.
  - intros [= ->]. apply Z.eqb_eq in E as ->. apply list_elem_of_here.
  - intros. apply list_elem_of_further. by apply IH.
Qed.

(** ** Validity *)

(** The mode field of PSTATE names the current level. *)
Definition mode_ok (el mode : Z) : Prop :=
  el = 0 ∧ mode = 0 ∨ el = 1 ∧ (mode = 4 ∨ mode = 5) ∨ el = 2 ∧ (mode = 8 ∨ mode = 9) ∨
  el = 3 ∧ (mode = 12 ∨ mode = 13).

Record valid (c : vf_cpu) : Prop := {
  v_el : 0 ≤ c current_el ≤ 3;
  v_mode : mode_ok (c current_el) (Z.land (c pstate) VF_PSTATE_MODE_MASK);
  v_profile : c fp_execution_profile ≤ 1;
  v_reserved : c fp_execution_reserved = 0;
  v_cpacr : Z.land (c cpacr_el1) (bnot 64 0x00300000) = 0;
  v_absent : c fp_execution_profile = 0 → c cpacr_el1 = 0;
  v_pending : c exception_pending = 0 ∨ valid_exception_kind (c exception_pending) = true;
  v_target : 0 ≤ c exception_target_el ≤ 3;
  v_lower : c exception_from_lower_el ≤ 1;
}.

Lemma mode_switch el mode :
  default false (switch el [(VF_EL0, mode =? 0); (VF_EL1, (mode =? 4) || (mode =? 5));
    (VF_EL2, (mode =? 8) || (mode =? 9)); (VF_EL3, (mode =? 12) || (mode =? 13))]) = true ↔ mode_ok el mode.
Proof.
  unfold mode_ok. cbn [switch]. unfold VF_EL0, VF_EL1, VF_EL2, VF_EL3.
  split_ifs; cbn [from_option id]; rewrite ?orb_true_iff, ?Z.eqb_eq in *; lia.
Qed.

Lemma valid_spec c : typed c → vf_cpu_state_valid (Some c) = true ↔ valid c.
Proof.
  intros Hc. pose proof (Hc current_el) as H1. pose proof (Hc exception_target_el) as H2.
  cbn [F.width] in H1, H2. unfold fits in H1, H2. unfold vf_cpu_state_valid.
  unfold VF_EL3 at 1 2, VF_FP_EXECUTION_PARTIAL, VF_FP_EXECUTION_ABSENT, VF_EXCEPTION_NONE.
  destruct (_ || _) eqn:E.
  - split; [done|]. intros [? ? ? ? H5 H6 H7 ? ?]. exfalso.
    rewrite !orb_true_iff, !andb_true_iff, !negb_true_iff, !nz_true in E.
    destruct H7 as [H7|H7]; [|rewrite H7 in E]; lia.
  - rewrite !orb_false_iff, !andb_false_iff, !negb_false_iff, !nz_false in E. cbv zeta. rewrite mode_switch.
    split.
    + intros Hm. constructor; try done; try lia.
    + by intros [].
Qed.

Definition cpu_ok (c : vf_cpu) : Prop := typed c ∧ vf_cpu_state_valid (Some c) = true.

Lemma cpu_ok_valid c : cpu_ok c → valid c.
Proof. intros [Ht Hv]. by apply valid_spec. Qed.

Lemma cpu_ok_intro c : typed c → valid c → cpu_ok c.
Proof. intros Ht Hv. split; [done|]. by apply valid_spec. Qed.

(** ** Raising and entering an exception *)

(** The state after raising, field by field. *)
Definition raised (c : vf_cpu) (kind pc_ far_ syn insn : Z) : vf_cpu := λ f,
  let t := target_el c in
  let syn_t := if is_async kind then c (esr_el t) else syn in
  let far_t := if is_async kind then c (far_el t) else far_ in
  match f with
  | exception_pending => kind
  | exception_target_el => t
  | exception_from_lower_el => b2z (c current_el <? t)
  | F.exception_syndrome => syn
  | exception_far => far_
  | exception_pc => pc_
  | instruction => insn
  | sp_el i => if i =? active_sp_index c then c sp else c (sp_el i)
  | spsr_el i => if i =? t then c pstate else c (spsr_el i)
  | elr_el i => if i =? t then pc_ else c (elr_el i)
  | esr_el i => if i =? t then syn_t else c (esr_el i)
  | far_el i => if i =? t then far_t else c (far_el i)
  | vbar => c (vbar_el t)
  | esr => syn_t
  | far => far_t
  | elr => pc_
  | _ => c f
  end.

(** The offset of the vector in its table. *)
Definition vector_offset (kind : Z) (lower h : bool) : Z :=
  (if lower then 0x400 else if h then 0x200 else 0) +
  (if (kind =? VF_EXCEPTION_TIMER_INTERRUPT) || (kind =? VF_EXCEPTION_EXTERNAL_INTERRUPT) then 0x80
   else if kind =? VF_EXCEPTION_FIQ_INTERRUPT then 0x100 else 0).

Definition table_base (v : Z) : Z := 0x800 * (v / 0x800).

(** The state after entering the vector of the pending exception. *)
Definition taken (c : vf_cpu) : vf_cpu := λ f,
  let t := c exception_target_el in
  let vector := table_base (c (vbar_el t)) +
    vector_offset (c exception_pending) (negb (c exception_from_lower_el =? 0)) (Z.odd (c (spsr_el t))) in
  match f with
  | current_el => t
  | pstate => Z.lor (Z.lor (Z.land (c (spsr_el t)) (bnot 64 0xf)) (mode_for_el t)) 0x3c0
  | sp => c (sp_el t)
  | pc | exception_vector => vector
  | vbar => table_base (c (vbar_el t))
  | esr => c (esr_el t)
  | far => c (far_el t)
  | elr => c (elr_el t)
  | exception_pending | exception_target_el | exception_from_lower_el | F.exception_syndrome
  | exception_far | exception_pc => 0
  | _ => c f
  end.

Lemma target_range c : valid c → 0 ≤ target_el c ≤ 3 ∧ c current_el ≤ target_el c.
Proof.
  intros [? _ _ _ _ _ _ _ _]. unfold target_el, VF_EL0, VF_EL1. destruct (c current_el =? 0) eqn:E; lia.
Qed.

Lemma active_range c : valid c → 0 ≤ active_sp_index c ≤ 3.
Proof. intros [? _ _ _ _ _ _ _ _]. unfold active_sp_index, VF_EL0. destruct (_ || _); lia. Qed.

Lemma save_sp_spec c : valid c → save_active_sp c = Some (upd c (sp_el (active_sp_index c)) (c sp)).
Proof.
  intros Hv. pose proof (active_range c Hv). destruct Hv as [? _ _ _ _ _ _ _ _].
  unfold save_active_sp, VF_EL3. tests. by apply el_set_in.
Qed.

Lemma valid_kind_range k : valid_exception_kind k = true →
  k ∈ [1; 2; 3; 4; 5; 6; 7; 8; 9; 10; 13; 14; 15].
Proof.
  unfold valid_exception_kind, VF_EXCEPTION_UNDEFINED_INSTRUCTION, VF_EXCEPTION_EXTERNAL_INTERRUPT,
    VF_EXCEPTION_FIQ_INTERRUPT, VF_EXCEPTION_SP_ALIGNMENT_FAULT, VF_EXCEPTION_FP_ACCESS.
  intros H. rewrite !elem_of_cons. lia.
Qed.

Lemma syndrome_defined k el pc_ insn : valid_exception_kind k = true →
  ∃ v, exception_syndrome k el pc_ insn = Some v.
Proof.
  intros H%valid_kind_range. rewrite !elem_of_cons in H.
  destruct_or!; subst; try (eexists; reflexivity). by apply elem_of_nil in H.
Qed.

Lemma raise_spec c kind pc_ far_ syn insn :
  cpu_ok c → valid_exception_kind kind = true → c exception_pending = 0 →
  ∃ syn' c', vf_cpu_raise_exception (Some c) kind pc_ far_ syn insn = Some (0, Some c') ∧
    (if syn =? 0 then exception_syndrome kind (c current_el) pc_ insn else Some syn) = Some syn' ∧
    ∀ f, c' f = raised c kind pc_ far_ syn' insn f.
Proof.
  intros Hok Hk Hp. pose proof (cpu_ok_valid c Hok) as Hv. pose proof (target_range c Hv) as [Ht _].
  destruct Hok as [_ Hsv]. unfold vf_cpu_raise_exception. rewrite Hsv, Hk, Hp. cbn [negb orb].
  change (0 =? VF_EXCEPTION_NONE) with true. cbn [negb].
  assert (∃ v, (if syn =? 0 then exception_syndrome kind (c current_el) pc_ insn else Some syn) = Some v) as [v Hs].
  { destruct (syn =? 0); [by apply syndrome_defined|by eexists]. }
  exists v. rewrite Hs, (save_sp_spec c Hv). cbn [mbind option_bind]. set (a := active_sp_index c). set (t := target_el c) in *.
  repeat (rewrite ?el_set_in, ?el_get_in by done; cbn [mbind option_bind]).
  destruct (is_async kind) eqn:Ea; cbn [negb];
    repeat (rewrite ?el_set_in, ?el_get_in by done; cbn [mbind option_bind]);
    (eexists; split; [reflexivity|]; split; [done|]; intros f; unfold raised; rewrite ?Ea; fold t a;
     destruct f; fields; rewrite ?(Z.eqb_sym t), ?(Z.eqb_sym a), ?andb_true_r; try done;
     (destruct (i =? t) eqn:E; [apply Z.eqb_eq in E as ->|]; done)).
Qed.

Lemma raise_refused c kind pc_ far_ syn insn :
  vf_cpu_state_valid (Some c) = false ∨ valid_exception_kind kind = false ∨ c exception_pending ≠ 0 →
  vf_cpu_raise_exception (Some c) kind pc_ far_ syn insn = Some (-1, Some c).
Proof.
  intros H. unfold vf_cpu_raise_exception, VF_EXCEPTION_NONE.
  replace (_ || _ || _) with true; [done|]. symmetry. rewrite !orb_true_iff, !negb_true_iff. lia.
Qed.

Lemma base_spec v : fits 64 v → Z.land v (bnot 64 0x7ff) = table_base v.
Proof.
  intros Hv. change 0x7ff with (Z.ones 11). rewrite land_bnot_ones by (done || lia). unfold table_base. change (2 ^ 11) with 0x800. dlia.
Qed.

Lemma offset_range k l h : 0 ≤ vector_offset k l h < 0x800.
Proof. unfold vector_offset. split_ifs; lia. Qed.

Lemma base_range v : fits 64 v → 0 ≤ table_base v ≤ 2 ^ 64 - 0x800.
Proof. unfold fits, table_base. change (2 ^ 64) with (0x800 * 0x20000000000000). intros. dlia. Qed.

Lemma take_spec c :
  cpu_ok c → c exception_pending ≠ 0 →
  ∃ c', vf_cpu_take_exception (Some c) = Some (0, Some c') ∧ ∀ f, c' f = taken c f.
Proof.
  intros Hok Hp. pose proof (cpu_ok_valid c Hok) as Hv. destruct Hv as [_ _ _ _ _ _ _ Ht _].
  destruct Hok as [Hty Hsv]. unfold vf_cpu_take_exception. rewrite Hsv. unfold VF_EXCEPTION_NONE, VF_EL3. tests.
  rewrite !el_get_in by done. cbn [mbind option_bind]. set (t := c exception_target_el) in *.
  rewrite base_spec by apply (Hty (vbar_el t)). pose proof (base_range _ (Hty (vbar_el t))) as Hb.
  match goal with |- context [UINT64_MAX - ?o <? _] =>
    assert (o = vector_offset (c exception_pending) (negb (c exception_from_lower_el =? 0)) (Z.odd (c (spsr_el t)))) as -> end.
  { unfold vector_offset, nz. rewrite <- Z.bit0_odd, <- (land_bit_nz _ 0) by lia. change (Z.shiftl 1 0) with 1.
    unfold nz. destruct (negb (c exception_from_lower_el =? 0)), (negb (Z.land (c (spsr_el t)) 1 =? 0));
      split_ifs; reflexivity. }
  pose proof (offset_range (c exception_pending) (negb (c exception_from_lower_el =? 0)) (Z.odd (c (spsr_el t)))) as Ho.
  rewrite (proj2 (Z.ltb_ge _ _)) by lia. rewrite (wrap_id 64 (_ + _)) by (unfold fits; lia).
  repeat (rewrite ?el_get_in by done; cbn [mbind option_bind]).
  eexists. split; [reflexivity|]. intros f. unfold taken. fold t. destruct f; fields; done.
Qed.

(** ** Operations keep the state valid *)

Lemma valid_ext c c' : (∀ f, c' f = c f) → valid c → valid c'.
Proof. intros H []. constructor; rewrite !H in *; done. Qed.

Lemma cpu_ok_ext c c' : (∀ f, c' f = c f) → cpu_ok c → cpu_ok c'.
Proof.
  intros H Hc. apply cpu_ok_intro; [intros f; rewrite H; apply Hc|].
  apply (valid_ext c); [done|]. by apply cpu_ok_valid.
Qed.

(** Only these fields matter to validity. *)
Lemma valid_frame c c' :
  valid c → (∀ f, f ∈ [current_el; pstate; fp_execution_profile; fp_execution_reserved; cpacr_el1;
    exception_pending; exception_target_el; exception_from_lower_el] → c' f = c f) → valid c'.
Proof.
  intros [] H. constructor; rewrite ?H; try done; rewrite !elem_of_cons; tauto.
Qed.

Lemma mode_of el : 0 ≤ el ≤ 3 → mode_ok el (mode_for_el el) ∧ fits 4 (mode_for_el el).
Proof.
  intros H. assert (el = 0 ∨ el = 1 ∨ el = 2 ∨ el = 3) as [-> | [-> | [-> | ->]]] by lia;
    (split; [vm_compute; tauto|by vm_compute]).
Qed.

(** The mode field after it is set. *)
Lemma mode_set x m d : fits 4 m → Z.land d 0xf = 0 →
  Z.land (Z.lor (Z.lor (Z.land x (bnot 64 0xf)) m) d) 0xf = m.
Proof.
  intros Hm Hd. rewrite !Z.land_lor_distr_l, Hd, Z.lor_0_r, <- Z.land_assoc.
  replace (Z.land (bnot 64 0xf) 0xf) with 0 by by vm_compute. rewrite Z.land_0_r, Z.lor_0_l.
  change 0xf with (Z.ones 4). rewrite Z.land_ones by lia. by apply Z.mod_small.
Qed.

Lemma raised_ok c kind pc_ far_ syn insn :
  cpu_ok c → valid_exception_kind kind = true → fits 32 kind → fits 64 pc_ → fits 64 far_ → fits 64 syn → fits 32 insn →
  cpu_ok (raised c kind pc_ far_ syn insn).
Proof.
  intros Hok Hk Hkf Hp Hf Hs Hi. pose proof (cpu_ok_valid c Hok) as Hv. pose proof (target_range c Hv) as [Ht _].
  destruct Hok as [Hty _]. apply cpu_ok_intro.
  - assert (fits 32 (target_el c)) by (unfold fits; lia).
    intros f. pose proof (Hty f) as Hcf. unfold raised. destruct f; cbn [F.width] in *; split_ifs; try done;
      try apply (Hty (vbar_el _)); try apply (Hty (esr_el _)); try apply (Hty (far_el _));
      try apply (Hty sp); try apply (Hty pstate). by apply fits_b2z.
  - destruct Hv. constructor; unfold raised; try done; [by right|].
    destruct (_ <? _); cbn; lia.
Qed.

Lemma taken_ok c : cpu_ok c → cpu_ok (taken c).
Proof.
  intros Hok. pose proof (cpu_ok_valid c Hok) as Hv. pose proof (v_target c Hv) as Ht. destruct Hok as [Hty _].
  pose proof (offset_range (c exception_pending) (negb (c exception_from_lower_el =? 0))
    (Z.odd (c (spsr_el (c exception_target_el))))) as Ho.
  pose proof (base_range _ (Hty (vbar_el (c exception_target_el)))) as Hb.
  destruct (mode_of _ Ht) as [Hm Hm4]. apply cpu_ok_intro.
  - intros f. pose proof (Hty f) as Hcf. unfold taken. destruct f; cbn [F.width] in *; try done;
      try apply (Hty (sp_el _)); try apply (Hty (esr_el _)); try apply (Hty (far_el _)); try apply (Hty (elr_el _));
      try (unfold fits; lia).
    apply fits_lor; [lia| |by vm_compute]. apply fits_lor; [lia|width|]. by apply (fits_weaken 4); [lia|].
  - destruct Hv. constructor; unfold taken; try done; [|by left].
    unfold VF_PSTATE_MODE_MASK. change 0x0f with 0xf. by rewrite mode_set.
Qed.

Lemma syndrome_fits k el pc_ insn v : fits 32 insn → exception_syndrome k el pc_ insn = Some v → fits 32 v.
Proof.
  intros Hi Hs%switch_in. rewrite !elem_of_cons in Hs.
  destruct_or!; try (by apply elem_of_nil in Hs); injection Hs as -> ->.
  2: apply fits_lor; [lia|by vm_compute|by apply fits_land_r].
  all: cbv zeta beta; repeat case_match; by vm_compute.
Qed.

(** Both outcomes of raising. *)
Lemma raise_total c kind pc_ far_ syn insn :
  cpu_ok c → fits 64 pc_ → fits 64 far_ → fits 32 syn → fits 32 insn →
  ∃ rc c', vf_cpu_raise_exception (Some c) kind pc_ far_ syn insn = Some (rc, Some c') ∧ cpu_ok c' ∧
    (rc = 0 ∧ c exception_pending = 0 ∧ (∃ syn', ∀ f, c' f = raised c kind pc_ far_ syn' insn f) ∨ rc = -1 ∧ c' = c).
Proof.
  intros Hok Hp Hf Hs Hi.
  destruct (valid_exception_kind kind) eqn:Hk; [|exists (-1), c; rewrite raise_refused; tauto].
  destruct (decide (c exception_pending = 0)) as [H0|H0]; [|exists (-1), c; rewrite raise_refused; tauto].
  destruct (raise_spec c kind pc_ far_ syn insn Hok Hk H0) as (syn' & c' & -> & Hsyn & Hc').
  exists 0, c'. split; [done|]. split; [|left; eauto].
  apply (cpu_ok_ext _ _ Hc'). apply raised_ok; try done.
  - apply valid_kind_range in Hk. rewrite !elem_of_cons in Hk. unfold fits.
    destruct_or!; subst; try lia. by apply elem_of_nil in Hk.
  - apply (fits_weaken 32); [lia|]. destruct (syn =? 0); [by eapply syndrome_fits|by injection Hsyn as <-].
Qed.

Lemma take_total c :
  cpu_ok c →
  ∃ rc c', vf_cpu_take_exception (Some c) = Some (rc, Some c') ∧ cpu_ok c' ∧
    (rc = 0 ∧ c exception_pending ≠ 0 ∧ (∀ f, c' f = taken c f) ∨ rc = -1 ∧ c exception_pending = 0 ∧ c' = c).
Proof.
  intros Hok. destruct (decide (c exception_pending = 0)) as [H0|H0].
  - exists (-1), c. unfold vf_cpu_take_exception. rewrite H0.
    change (0 =? VF_EXCEPTION_NONE) with true. rewrite orb_true_r. cbn [orb]. auto 6.
  - destruct (take_spec c Hok H0) as (c' & -> & Hc'). exists 0, c'. split; [done|]. split; [|auto].
    apply (cpu_ok_ext _ _ Hc'). by apply taken_ok.
Qed.

(** ** Delivering an interrupt *)

(** The masks of PSTATE and the platform override, by bits. *)
Definition overridden (c : vf_cpu) (bit : Z) : bool :=
  (c platform_profile =? VF_PLATFORM_IRQ_COMPAT_V1) && (Z.land (Z.shiftr (c platform_override) bit) 3 =? 2).
Definition fiq_ready (c : vf_cpu) : bool :=
  negb (c fiq_level =? 0) && negb (Z.testbit (c pstate) 6) && negb (overridden c 20).
Definition timer_asserted (c : vf_cpu) : bool := Z.testbit (c cntp_ctl) 2 || Z.testbit (c cntv_ctl) 2.
Definition irq_open (c : vf_cpu) : bool := negb (Z.testbit (c pstate) 7) && negb (overridden c 22).

(** An interrupt that this model does not route: a level above EL1, or routing
    controls set. *)
Definition unroutable (c : vf_cpu) : bool :=
  (1 <? c current_el) || nz (Z.land (c hcr_el2) 0x18) || nz (Z.land (c scr_el3) 6).

(** The interrupt that is due, highest priority first. *)
Definition due (c : vf_cpu) : option (Z * Z) :=
  if fiq_ready c then Some (VF_FIQ_INTERRUPT, VF_EXCEPTION_FIQ_INTERRUPT)
  else if irq_open c && timer_asserted c then Some (VF_TIMER_INTERRUPT, VF_EXCEPTION_TIMER_INTERRUPT)
  else if irq_open c && negb (c irq_level =? 0) then Some (VF_EXTERNAL_INTERRUPT, VF_EXCEPTION_EXTERNAL_INTERRUPT)
  else None.

Lemma due_select c : select_interrupt c = due c.
Proof.
  unfold select_interrupt, due, fiq_ready, irq_open, timer_asserted, overridden, vf_cpu_timer_pending.
  rewrite !land_bit_nz by lia. change VF_TIMER_CTL_ISTATUS with (Z.shiftl 1 2). rewrite !land_bit_nz by lia.
  unfold nz. destruct (c platform_profile =? _); cbn [andb].
  - destruct (negb (c fiq_level =? 0) && _ && _); [done|].
    destruct (negb (Z.testbit _ 7) && _); cbn [andb]; [|done]. by destruct (_ || _), (c irq_level =? 0).
  - change (Z.land (Z.shiftr 0 20) 3 =? 2) with false. change (Z.land (Z.shiftr 0 22) 3 =? 2) with false.
    cbn [negb]. rewrite !andb_true_r. destruct (negb (c fiq_level =? 0) && _); [done|].
    destruct (negb (Z.testbit _ 7)); cbn [andb]; [|done]. by destruct (_ || _), (c irq_level =? 0).
Qed.

(** The state in the handler, field by field: the return address and PSTATE are banked
    at the target, ESR and FAR too unless the exception is an interrupt, the active
    stack pointer is saved, and no exception is pending. *)
Definition entered (c : vf_cpu) (kind pc_ far_ syn insn : Z) : vf_cpu := λ f,
  let t := target_el c in
  let vector := table_base (c (vbar_el t)) +
    vector_offset kind (c current_el <? t) (Z.odd (c pstate)) in
  let esr_t := if is_async kind then c (esr_el t) else syn in
  let far_t := if is_async kind then c (far_el t) else far_ in
  match f with
  | current_el => t
  | pstate => Z.lor (Z.lor (Z.land (c pstate) (bnot 64 0xf)) (mode_for_el t)) 0x3c0
  | pc | exception_vector => vector
  | sp => if t =? active_sp_index c then c sp else c (sp_el t)
  | sp_el i => if i =? active_sp_index c then c sp else c (sp_el i)
  | spsr_el i => if i =? t then c pstate else c (spsr_el i)
  | elr_el i => if i =? t then pc_ else c (elr_el i)
  | esr_el i => if i =? t then esr_t else c (esr_el i)
  | far_el i => if i =? t then far_t else c (far_el i)
  | vbar => table_base (c (vbar_el t))
  | esr => esr_t
  | far => far_t
  | elr => pc_
  | instruction => insn
  | exception_pending | exception_target_el | exception_from_lower_el | F.exception_syndrome
  | exception_far | exception_pc => 0
  | _ => c f
  end.

Lemma raise_take c kind pc_ far_ syn insn :
  cpu_ok c → c exception_pending = 0 → valid_exception_kind kind = true →
  fits 64 pc_ → fits 64 far_ → fits 32 syn → fits 32 insn →
  ∃ syn' c1 c2, vf_cpu_raise_exception (Some c) kind pc_ far_ syn insn = Some (0, Some c1) ∧
    vf_cpu_take_exception (Some c1) = Some (0, Some c2) ∧
    (if syn =? 0 then exception_syndrome kind (c current_el) pc_ insn else Some syn) = Some syn' ∧
    ∀ f, c2 f = entered c kind pc_ far_ syn' insn f.
Proof.
  intros Hok Hp Hv Hpc Hfar Hs Hi. assert (kind ≠ 0) as Hk by by intros ->.
  destruct (raise_spec c kind pc_ far_ syn insn Hok Hv Hp) as (syn' & c1 & Hr & Hsyn & Hc1).
  destruct (raise_total c kind pc_ far_ syn insn Hok Hpc Hfar Hs Hi) as (rc & c1' & Hr' & Hok1 & _).
  rewrite Hr in Hr'. injection Hr' as <- <-.
  destruct (take_spec c1 Hok1) as (c2 & Ht & Hc2); [by rewrite Hc1|].
  exists syn', c1, c2. split_and!; try done. intros f. rewrite Hc2.
  assert (Htg : c1 exception_target_el = target_el c) by by rewrite Hc1.
  assert (Hb : negb (b2z (c current_el <? target_el c) =? 0) = (c current_el <? target_el c)) by by destruct (_ <? _).
  unfold taken. rewrite Htg.
  destruct f; rewrite ?Hc1; unfold raised, entered; rewrite ?Hb, ?Z.eqb_refl; done.
Qed.

(** ** Sequences of operations *)

Inductive cpu_op :=
  | Set_el (el : Z) | Clear | Raise (kind pc_ far_ syn insn : Z) | Take | Commit (st : Z)
  | Write (key v : Z) | Read (key : Z) | Advance (ticks : Z) | Configure (profile v : Z) | Lines (irq fiq : Z)
  | Poll | Invalidate.

Definition cpu_op_ok (o : cpu_op) : Prop :=
  match o with
  | Set_el el => fits 32 el
  | Raise kind pc_ far_ syn insn => fits 64 pc_ ∧ fits 64 far_ ∧ fits 32 syn ∧ fits 32 insn
  | Write key v => fits 64 v
  | Advance t => fits 64 t
  | Configure p v => fits 32 p ∧ fits 64 v
  | Lines i f => fits 32 i ∧ fits 32 f
  | _ => True
  end.

(** The return code (0 for procedures) and the next state. *)
Definition cpu_step (c : vf_cpu) (o : cpu_op) : option (Z * ptr vf_cpu) :=
  let p := Some c in
  match o with
  | Set_el el => vf_cpu_set_current_el p el
  | Clear => Some (0, vf_cpu_clear_exception p)
  | Raise kind pc_ far_ syn insn => vf_cpu_raise_exception p kind pc_ far_ syn insn
  | Take => vf_cpu_take_exception p
  | Commit st => vf_cpu_commit_status p st
  | Write key v => Some (vf_cpu_write_sysreg p key v)
  | Read key => Some ((vf_cpu_read_sysreg p key true).1, p)
  | Advance t => Some (0, vf_cpu_advance_counter p t)
  | Configure pr v => Some (vf_cpu_configure_platform p pr v)
  | Lines i f => Some (vf_cpu_set_interrupt_lines p i f)
  | Poll => vf_cpu_poll_interrupt p
  | Invalidate => Some (0, vf_cpu_invalidate_tlb p)
  end.

Fixpoint cpu_run (c : vf_cpu) (os : list cpu_op) : option (list Z * vf_cpu) :=
  match os with
  | [] => Some ([], c)
  | o :: os =>
    '(rc, p) ← cpu_step c o; c ← p; '(l, c) ← cpu_run c os; Some (rc :: l, c)
  end.

(** An update of a field validity does not look at. *)
Definition inert (f : field) : bool :=
  match f with
  | current_el | pstate | fp_execution_profile | fp_execution_reserved | cpacr_el1
  | exception_pending | exception_target_el | exception_from_lower_el => false
  | _ => true
  end.

Lemma inert_ok c f v : cpu_ok c → inert f = true → fits (F.width f) v → cpu_ok (upd c f v).
Proof.
  intros Hok Hf Hv. apply cpu_ok_intro; [apply typed_upd; [apply Hok|done]|].
  apply (valid_frame c); [by apply cpu_ok_valid|]. intros g Hg. cbn.
  destruct (F.eqb f g) eqn:E; [|done]. apply eqb_eq in E as <-. rewrite !elem_of_cons in Hg.
  destruct_or!; subst; try done. by apply elem_of_nil in Hg.
Qed.

#[export] Hint Resolve inert_ok : cpu.

Lemma status_bit_ok c f (b : bool) :
  cpu_ok c → inert f = true → F.width f = 64 →
  cpu_ok (if b then c.[f := Z.lor (c f) VF_TIMER_CTL_ISTATUS]
          else c.[f := Z.land (c f) (bnot 64 VF_TIMER_CTL_ISTATUS)]).
Proof.
  intros Hok Hf Hw. pose proof (proj1 Hok f) as H. rewrite Hw in H.
  destruct b; apply inert_ok; try done; rewrite Hw; [apply fits_lor; [lia|done|by vm_compute]|width].
Qed.

Lemma timer_status_ok c : cpu_ok c → cpu_ok (update_timer_status c).
Proof.
  intros Hok. unfold update_timer_status. cbv zeta.
  match goal with |- context [if ?b then c.[cntp_ctl := _] else _] =>
    pose proof (status_bit_ok c cntp_ctl b Hok eq_refl eq_refl) as H1 end.
  match type of H1 with cpu_ok ?e => set (c1 := e) in * end. clearbody c1. clear c Hok.
  match goal with |- context [if ?b then c1.[cntv_ctl := _] else _] =>
    pose proof (status_bit_ok c1 cntv_ctl b H1 eq_refl eq_refl) as Hok end.
  match type of Hok with cpu_ok ?e => set (c := e) in * end. clearbody c.
  apply inert_ok; [done..|]. cbn [F.width]. pose proof (proj1 Hok cntpct) as Ha. pose proof (proj1 Hok cntp_cval) as Hb.
  cbn [F.width] in Ha, Hb. unfold fits in *. destruct (_ <=? _) eqn:E; lia.
Qed.

Lemma clear_ok c : cpu_ok c → ∃ c', vf_cpu_clear_exception (Some c) = Some c' ∧ cpu_ok c'.
Proof.
  intros Hok. eexists. split; [reflexivity|]. apply cpu_ok_intro.
  - cbv zeta. repeat (apply typed_upd; [|by vm_compute]). apply Hok.
  - destruct (cpu_ok_valid c Hok). constructor; fields; try done; by left.
Qed.

Lemma set_el_ok c el : cpu_ok c → fits 32 el →
  ∃ rc c', vf_cpu_set_current_el (Some c) el = Some (rc, Some c') ∧ cpu_ok c' ∧ (rc = 0 ∨ rc = -1 ∧ c' = c).
Proof.
  intros Hok Hel. pose proof (cpu_ok_valid c Hok) as Hv. unfold vf_cpu_set_current_el. rewrite (proj2 Hok).
  cbn [negb]. rewrite orb_false_r. unfold VF_EL3. destruct (3 <? el) eqn:E; [by exists (-1), c; auto|].
  rewrite save_sp_spec by done. cbn [mbind option_bind]. unfold fits in Hel.
  rewrite el_get_in by lia. cbn [mbind option_bind]. eexists 0, _. split; [reflexivity|].
  split; [|by left]. destruct (mode_of el) as [Hm Hm4]; [lia|].
  assert (∀ i, fits 64 (c (sp_el i))) as Hsp by (intros i; apply (proj1 Hok)).
  pose proof (proj1 Hok sp) as Hs. pose proof (proj1 Hok pstate) as Hps. cbn [F.width] in Hs, Hps.
  assert (fits 64 (Z.lor (Z.land (c pstate) (bnot 64 VF_PSTATE_MODE_MASK)) (mode_for_el el))) as Hnew.
  { apply fits_lor; [lia|width|]. by apply (fits_weaken 4); [lia|]. }
  apply cpu_ok_intro.
  - repeat apply typed_upd; try done; [apply Hok|]. cbn [F.width]. fields. destruct (_ && _); done.
  - destruct Hv. constructor; fields; try done; [lia|].
    rewrite <- (Z.lor_0_r (Z.lor _ _)).
    unfold VF_PSTATE_MODE_MASK. change 0x0f with 0xf. by rewrite mode_set.
Qed.

Lemma commit_kind_ok c st k f i : typed c → commit_kind c st = Some (k, f, i) → fits 64 f ∧ fits 32 i.
Proof.
  intros Hty Hs%switch_in. pose proof (Hty pc). pose proof (Hty far). pose proof (Hty instruction).
  rewrite !elem_of_cons in Hs. destruct_or!; try (by apply elem_of_nil in Hs); injection Hs as -> -> -> ->; done.
Qed.

Lemma commit_ok c st : cpu_ok c → ∃ rc c', vf_cpu_commit_status (Some c) st = Some (rc, Some c') ∧ cpu_ok c'.
Proof.
  intros Hok. unfold vf_cpu_commit_status. assert (cpu_ok c.[status := u32 st]) as H1 by (apply inert_ok; [done..|width]).
  destruct (commit_kind _ st) as [[[k f] i]|] eqn:E; [|eauto].
  apply commit_kind_ok in E as [? ?]; [|apply H1].
  destruct (raise_total _ k (c.[status := u32 st] pc) f 0 i H1 (proj1 H1 pc)) as (rc & c' & Hr & Hok' & _); [done..|].
  eauto.
Qed.

Lemma configure_ok c pr v : cpu_ok c → fits 32 pr → fits 64 v →
  ∃ rc c', vf_cpu_configure_platform (Some c) pr v = (rc, Some c') ∧ cpu_ok c' ∧ (rc ≠ 0 → c' = c).
Proof.
  intros Hok Hp Hv. unfold vf_cpu_configure_platform. destruct (_ || _); eexists _, _; (split; [reflexivity|]).
  - done.
  - split; [|done]. repeat apply inert_ok; done.
Qed.

(** A chain of updates of inert fields. *)
Ltac inert_chain :=
  repeat (apply inert_ok; [|reflexivity|cbn [F.width]; first [assumption|width]]); try assumption.

Lemma write_case_ok c v key c' :
  cpu_ok c → fits 64 v → switch key (write_cases c v) = Some (inr c') → cpu_ok c'.
Proof.
  intros Hok Hv Hs%switch_in. assert (fits 64 (Z.land v (bnot 64 0x7ff))) by width.
  assert (fits 64 (Z.land v (Z.lor VF_TIMER_CTL_ENABLE VF_TIMER_CTL_IMASK))) by width.
  unfold write_cases in Hs. rewrite !elem_of_cons in Hs.
  destruct_or!; try (by apply elem_of_nil in Hs); apply pair_eq in Hs as [_ Hs];
    repeat case_match; try discriminate Hs; injection Hs as ->; cbn [from_option id vf_cpu_invalidate_tlb]; inert_chain.
Qed.

Lemma cpu_write_ok c key v : cpu_ok c → fits 64 v →
  ∃ rc c', vf_cpu_write_sysreg (Some c) key v = (rc, Some c') ∧ cpu_ok c' ∧ (rc ≠ 0 → c' = c).
Proof.
  intros Hok Hv. unfold vf_cpu_write_sysreg. rewrite (proj2 Hok). cbn [negb].
  assert (∀ rc, ∃ rc' c', (rc, Some c) = (rc', Some c') ∧ cpu_ok c' ∧ (rc' ≠ 0 → c' = c)) as Hno by eauto 6.
  destruct (_ || _); [apply Hno|]. destruct (key =? VF_SYSREG_KEY_CPACR_EL1).
  { destruct (negb (c fp_execution_profile =? _)) eqn:Ep; [apply Hno|]. destruct (_ =? VF_EL0); [apply Hno|].
    destruct (not_plain_el1 c); [apply Hno|]. destruct (nz _) eqn:E; [apply Hno|].
    eexists _, _. split; [reflexivity|]. split; [|done]. apply nz_false in E.
    apply cpu_ok_intro; [apply typed_upd; [apply Hok|done]|]. unfold VF_FP_EXECUTION_PARTIAL in Ep.
    destruct (cpu_ok_valid c Hok). constructor; fields; try done. lia. }
  destruct (key =? VF_PLATFORM_OVERRIDE_KEY).
  { destruct (_ || _); [apply Hno|]. apply configure_ok; try done. apply (proj1 Hok platform_profile). }
  destruct (_ <? 0); [apply Hno|]. destruct (_ <? _); [apply Hno|].
  destruct (switch key (write_cases c v)) as [[rc|c']|] eqn:E; [apply Hno| |apply Hno].
  eexists _, _. split; [reflexivity|]. split; [|done]. apply timer_status_ok. by eapply write_case_ok.
Qed.

Lemma poll_ok c : cpu_ok c → ∃ rc c', vf_cpu_poll_interrupt (Some c) = Some (rc, Some c') ∧ cpu_ok c'.
Proof.
  intros Hok. unfold vf_cpu_poll_interrupt. rewrite (proj2 Hok). cbn [negb orb].
  destruct (nz (c exception_pending)) eqn:Ep; [eauto|]. apply nz_false in Ep. destruct (_ && _).
  - assert (cpu_ok c.[instruction := 0]) as H1 by (by apply inert_ok).
    destruct (raise_total _ VF_EXCEPTION_SYSTEM_REGISTER_TRAP (c.[instruction := 0] pc) 0 0 0 H1 (proj1 H1 pc))
      as (rc & c' & -> & Hok' & _); [done..|]. cbn [mbind option_bind].
    eexists _, _. split; [reflexivity|]. by apply inert_ok.
  - rewrite due_select. destruct (due c) as [[st k]|] eqn:E; [|eauto].
    assert (k ∈ [VF_EXCEPTION_TIMER_INTERRUPT; VF_EXCEPTION_EXTERNAL_INTERRUPT; VF_EXCEPTION_FIQ_INTERRUPT] ∧ fits 32 st)
      as [Hk Hst].
    { unfold due in E. rewrite !elem_of_cons. repeat case_match; try discriminate E; injection E as <- <-;
        (split; [tauto|by vm_compute]). }
    destruct (raise_take c k (c pc) 0 0 0 Hok Ep) as (syn & c1 & c2 & Hr & Ht & _); try done; [|apply (proj1 Hok pc)|].
    { rewrite !elem_of_cons in Hk. destruct_or!; subst; try done. by apply elem_of_nil in Hk. }
    destruct (raise_total c k (c pc) 0 0 0 Hok (proj1 Hok pc)) as (rc & c1' & Hr' & Hok1 & _); [done..|].
    rewrite Hr in Hr'. injection Hr' as <- <-.
    destruct (take_total c1 Hok1) as (rc & c2' & Ht' & Hok2 & _). rewrite Ht in Ht'. injection Ht' as <- <-.
    rewrite Hr. cbn [mbind option_bind nz]. change (nz 0) with false. cbv iota. rewrite Ht. cbn [mbind option_bind].
    change (nz 0) with false. cbv iota. eexists _, _. split; [reflexivity|]. by apply inert_ok.
Qed.

Lemma cpu_step_ok c o : cpu_ok c → cpu_op_ok o → ∃ rc c', cpu_step c o = Some (rc, Some c') ∧ cpu_ok c'.
Proof.
  intros Hok Ho. destruct o; cbn [cpu_step cpu_op_ok] in *.
  - destruct (set_el_ok c el Hok Ho) as (rc & c' & H & H' & _). eauto.
  - destruct (clear_ok c Hok) as (c' & -> & H'). eauto.
  - destruct Ho as (?&?&?&?). destruct (raise_total c kind pc_ far_ syn insn Hok) as (rc & c' & H' & H'' & _); eauto.
  - destruct (take_total c Hok) as (rc & c' & H & H' & _). eauto.
  - by apply commit_ok.
  - destruct (cpu_write_ok c key v Hok Ho) as (rc & c' & -> & H' & _). eauto.
  - eauto.
  - eexists _, _. split; [reflexivity|]. apply timer_status_ok. repeat apply inert_ok; try done; cbn [F.width]; width.
  - destruct Ho. destruct (configure_ok c profile v Hok) as (rc & c' & -> & H' & _); eauto.
  - unfold vf_cpu_set_interrupt_lines. destruct (_ || _); eexists _, _; (split; [reflexivity|]); [done|].
    destruct Ho. by repeat apply inert_ok.
  - by apply poll_ok.
  - eexists _, _. split; [reflexivity|]. repeat apply inert_ok; try done; cbn [F.width]; width.
Qed.

Lemma cpu_run_ok c os : cpu_ok c → Forall cpu_op_ok os → ∃ l c', cpu_run c os = Some (l, c') ∧ cpu_ok c'.
Proof.
  intros Hok Hos. revert c Hok. induction Hos as [|o os Ho _ IH]; intros c Hok; cbn [cpu_run]; [eauto|].
  destruct (cpu_step_ok c o Hok Ho) as (rc & c' & -> & Hok'). cbn [mbind option_bind].
  destruct (IH c' Hok') as (l & c2 & -> & H2). cbn. eauto.
Qed.

Lemma cpu_reset_ok c el : fits 32 el → ∃ c', vf_cpu_reset (Some c) el = Some c' ∧ cpu_ok c'.
Proof.
  intros Hel. eexists. split; [reflexivity|]. cbv zeta. set (e := if _ <? el then _ else el).
  assert (0 ≤ e ≤ 3) as He by (subst e; unfold VF_EL3, VF_EL0, fits in *; destruct (3 <? el) eqn:E; lia).
  destruct (mode_of e He) as [Hm Hm4]. apply cpu_ok_intro.
  - repeat apply typed_upd; try done; cbn [F.width]; try (unfold fits; lia); [intros f; by destruct f|].
    by apply (fits_weaken 4); [lia|].
  - constructor; fields; try done; [|by left].
    replace (Z.land (mode_for_el e) VF_PSTATE_MODE_MASK) with (mode_for_el e); [done|].
    change VF_PSTATE_MODE_MASK with (Z.ones 4). rewrite Z.land_ones by lia. symmetry. by apply Z.mod_small.
Qed.

(** ** System registers by field *)

(** The field behind a key. *)
Definition key_fields : list (Z * field) := [
  (VF_SYSREG_KEY_TPIDR_EL0, tpidr_el0); (VF_SYSREG_KEY_TPIDRRO_EL0, tpidrro_el0);
  (VF_SYSREG_KEY_TPIDR_EL1, tpidr_el1); (VF_SYSREG_KEY_CNTFRQ_EL0, cntfrq);
  (VF_SYSREG_KEY_CNTPCT_EL0, cntpct); (VF_SYSREG_KEY_CNTVCT_EL0, cntvct);
  (VF_SYSREG_KEY_CNTP_TVAL_EL0, cntp_tval); (VF_SYSREG_KEY_CNTP_CTL_EL0, cntp_ctl);
  (VF_SYSREG_KEY_CNTP_CVAL_EL0, cntp_cval); (VF_SYSREG_KEY_CNTV_CTL_EL0, cntv_ctl);
  (VF_SYSREG_KEY_CNTV_CVAL_EL0, cntv_cval); (VF_SYSREG_KEY_CURRENT_EL, current_el);
  (VF_SYSREG_KEY_ID_AA64MMFR0_EL1, id_aa64mmfr0); (VF_SYSREG_KEY_ID_AA64ISAR1_EL1, id_aa64isar1);
  (VF_SYSREG_KEY_SCTLR_EL1, sctlr); (VF_SYSREG_KEY_TTBR0_EL1, ttbr0); (VF_SYSREG_KEY_TTBR1_EL1, ttbr1);
  (VF_SYSREG_KEY_TCR_EL1, tcr); (VF_SYSREG_KEY_SPSR_EL1, spsr_el VF_EL1); (VF_SYSREG_KEY_ELR_EL1, elr_el VF_EL1);
  (VF_SYSREG_KEY_ESR_EL1, esr_el VF_EL1); (VF_SYSREG_KEY_FAR_EL1, far_el VF_EL1); (VF_SYSREG_KEY_MAIR_EL1, mair);
  (VF_SYSREG_KEY_VBAR_EL1, vbar_el VF_EL1); (VF_SYSREG_KEY_HCR_EL2, hcr_el2); (VF_SYSREG_KEY_CNTHCTL_EL2, cnthctl_el2);
  (VF_SYSREG_KEY_SPSR_EL2, spsr_el VF_EL2); (VF_SYSREG_KEY_ELR_EL2, elr_el VF_EL2);
  (VF_SYSREG_KEY_ESR_EL2, esr_el VF_EL2); (VF_SYSREG_KEY_FAR_EL2, far_el VF_EL2);
  (VF_SYSREG_KEY_VBAR_EL2, vbar_el VF_EL2); (VF_SYSREG_KEY_SCR_EL3, scr_el3); (VF_SYSREG_KEY_SPSR_EL3, spsr_el VF_EL3);
  (VF_SYSREG_KEY_ELR_EL3, elr_el VF_EL3); (VF_SYSREG_KEY_ESR_EL3, esr_el VF_EL3);
  (VF_SYSREG_KEY_FAR_EL3, far_el VF_EL3); (VF_SYSREG_KEY_VBAR_EL3, vbar_el VF_EL3)].

Definition val (c : vf_cpu) (f : field) : Z :=
  match f with current_el => shl 64 (c current_el) 2 | _ => c f end.

(** Fields that a write of another register may move: the timer status and what a
    table base write invalidates. *)
Definition volatile (f : field) : bool :=
  match f with cntp_ctl | cntp_tval | cntv_ctl | tlb_tag | tlb_pa | tlb_generation => true | _ => false end.

Definition timer_key (key : Z) : bool :=
  existsb (Z.eqb key) [VF_SYSREG_KEY_CNTP_TVAL_EL0; VF_SYSREG_KEY_CNTP_CTL_EL0; VF_SYSREG_KEY_CNTP_CVAL_EL0;
    VF_SYSREG_KEY_CNTV_CTL_EL0].

(** What a register keeps of a written value. *)
Definition stored (key v : Z) : Z :=
  if existsb (Z.eqb key) [VF_SYSREG_KEY_VBAR_EL1; VF_SYSREG_KEY_VBAR_EL2; VF_SYSREG_KEY_VBAR_EL3]
  then table_base v else v.

Lemma switch_fmap {A B} (f : A → B) x l : switch x ((λ '(k, a), (k, f a)) <$> l) = f <$> switch x l.
Proof. induction l as [|[k a] l IH]; cbn; [done|]. destruct (x =? k); [done|apply IH]. Qed.

Lemma read_switch c key : switch key (read_cases c) = val c <$> switch key key_fields.
Proof. rewrite <- switch_fmap. reflexivity. Qed.

Lemma eqb_ne f g : g ≠ f → F.eqb f g = false.
Proof. intros H. destruct (F.eqb f g) eqn:E; [|done]. by apply eqb_eq in E as <-. Qed.

Lemma volatile_ne f g : volatile f = true → volatile g = false → F.eqb f g = false.
Proof. intros Hf Hg. destruct (F.eqb f g) eqn:E; [|done]. apply eqb_eq in E as <-. congruence. Qed.

Lemma timer_status_frame c g : volatile g = false → update_timer_status c g = c g.
Proof.
  intros Hg. unfold update_timer_status. repeat case_match; cbn [upd]; by rewrite !volatile_ne.
Qed.

(** A successful register write, by the field of its key. *)
Lemma write_case_effect c v key c' :
  fits 64 v → switch key (write_cases c v) = Some (inr c') →
  ∃ f, switch key key_fields = Some f ∧ f ≠ current_el ∧ existsb (Z.eqb key) id_keys = false ∧
    (volatile f = false → c' f = stored key v) ∧
    ∀ g, F.eqb f g = false → volatile g = false → (timer_key key = true → g ≠ cntp_cval) → c' g = c g.
Proof.
  intros Hv Hs%switch_in. unfold write_cases in Hs. rewrite !elem_of_cons in Hs.
  destruct_or!; try (by apply elem_of_nil in Hs); apply pair_eq in Hs as [-> Hs];
    repeat case_match; try discriminate Hs; injection Hs as ->; cbn [from_option id vf_cpu_invalidate_tlb];
    (eexists; split; [reflexivity|]; split; [done|]; split; [reflexivity|]; split;
     [intros Hf; try discriminate Hf; unfold stored; fields; first [reflexivity|exact (base_spec v Hv)]
     |intros g Hg Hvg Hcv; cbn [upd]; rewrite ?Hg, ?volatile_ne by done; try reflexivity;
      by rewrite eqb_ne by (by apply Hcv)]).
Qed.

(** Every successful write, by kind of key. *)
Lemma write_effect c key v c' :
  fits 64 v → vf_cpu_write_sysreg (Some c) key v = (VF_SYSREG_OK, Some c') →
  vf_cpu_state_valid (Some c) = true ∧ ((key =? VF_SYSREG_KEY_FPCR) || (key =? VF_SYSREG_KEY_FPSR)) = false ∧
  (key = VF_SYSREG_KEY_CPACR_EL1 ∧ c fp_execution_profile = VF_FP_EXECUTION_PARTIAL ∧
     c current_el ≠ VF_EL0 ∧ not_plain_el1 c = false ∧ c' = c.[cpacr_el1 := v] ∨
   key = VF_PLATFORM_OVERRIDE_KEY ∧ c platform_profile = VF_PLATFORM_IRQ_COMPAT_V1 ∧ not_plain_el1 c = false ∧
     c' = c.[platform_profile := c platform_profile].[platform_override := v] ∨
   key ≠ VF_SYSREG_KEY_CPACR_EL1 ∧ key ≠ VF_PLATFORM_OVERRIDE_KEY ∧ 0 ≤ sysreg_min_el key ≤ c current_el ∧
   ∃ c1 f, switch key (write_cases c v) = Some (inr c1) ∧ c' = update_timer_status c1 ∧
     switch key key_fields = Some f ∧ f ≠ current_el ∧ existsb (Z.eqb key) id_keys = false ∧
     (volatile f = false → c' f = stored key v) ∧
     ∀ g, F.eqb f g = false → volatile g = false → (timer_key key = true → g ≠ cntp_cval) → c' g = c g).
Proof.
  intros Hv. unfold vf_cpu_write_sysreg. destruct (vf_cpu_state_valid (Some c)); cbn [negb]; [|done].
  destruct (_ || _); [done|]. intros H. split; [done|]. split; [done|]. revert H.
  destruct (key =? VF_SYSREG_KEY_CPACR_EL1) eqn:E1.
  { destruct (negb _) eqn:E2; [done|]. destruct (c current_el =? _) eqn:E3; [done|].
    destruct (not_plain_el1 c); [done|]. destruct (nz _); [done|]. intros [= <-]. left. split_and!; try done; lia. }
  destruct (key =? VF_PLATFORM_OVERRIDE_KEY) eqn:E2.
  { destruct (negb _ || _) eqn:E3; [done|]. apply orb_false_iff in E3 as [E3 E4].
    unfold vf_cpu_configure_platform. destruct (_ || _ || _); [done|]. intros [= <-]. right. left.
    split_and!; try done; lia. }
  destruct (sysreg_min_el key <? 0) eqn:E3; [done|]. destruct (c current_el <? _) eqn:E4; [by case_match|].
  destruct (switch key _) as [[rc|c1]|] eqn:Es; [|intros [= <-]|done].
  - intros [= ->]. exfalso. apply switch_in in Es. unfold write_cases in Es. rewrite !elem_of_cons in Es.
    destruct_or!; try (by apply elem_of_nil in Es); apply pair_eq in Es as [_ Es]; by repeat case_match.
  - right. right. split; [lia|]. split; [lia|]. split; [lia|].
    destruct (write_case_effect c v key c1 Hv Es) as (f & Hf & Hne & Hid & Hst & Hfr).
    exists c1, f. split_and!; try done.
    + intros Hvf. rewrite timer_status_frame by done. by apply Hst.
    + intros g Hg Hvg Hcv. rewrite timer_status_frame by done. by apply Hfr.
Qed.

Lemma read_as_field c key f :
  vf_cpu_state_valid (Some c) = true → ((key =? VF_SYSREG_KEY_FPCR) || (key =? VF_SYSREG_KEY_FPSR)) = false →
  key ≠ VF_SYSREG_KEY_CPACR_EL1 → key ≠ VF_PLATFORM_OVERRIDE_KEY → existsb (Z.eqb key) id_keys = false →
  0 ≤ sysreg_min_el key ≤ c current_el → switch key key_fields = Some f →
  vf_cpu_read_sysreg (Some c) key true = (VF_SYSREG_OK, Some (val c f)).
Proof.
  intros Hv Hfp H1 H2 Hid Hm Hf. unfold vf_cpu_read_sysreg. rewrite Hv, Hfp, Hid. cbn [negb orb]. tests.
  by rewrite read_switch, Hf.
Qed.

Lemma read_ext c c' key :
  vf_cpu_state_valid (Some c') = vf_cpu_state_valid (Some c) →
  c' fp_execution_profile = c fp_execution_profile → c' current_el = c current_el →
  c' platform_profile = c platform_profile → not_plain_el1 c' = not_plain_el1 c →
  (key = VF_SYSREG_KEY_CPACR_EL1 → c' cpacr_el1 = c cpacr_el1) →
  (key = VF_PLATFORM_OVERRIDE_KEY → c' platform_override = c platform_override) →
  (∀ f, switch key key_fields = Some f → c' f = c f) →
  vf_cpu_read_sysreg (Some c') key true = vf_cpu_read_sysreg (Some c) key true.
Proof.
  intros H1 H2 H3 H4 H5 H6 H7 H8. unfold vf_cpu_read_sysreg. rewrite H1, H2, H3, H4, H5.
  destruct (key =? VF_SYSREG_KEY_CPACR_EL1) eqn:E1; [rewrite H6 by lia; done|].
  destruct (key =? VF_PLATFORM_OVERRIDE_KEY) eqn:E2; [rewrite H7 by lia; done|].
  rewrite !read_switch. destruct (switch key key_fields) as [f|]; [|done]. cbn.
  replace (val c' f) with (val c f); [done|]. unfold val. rewrite H3. pose proof (H8 f eq_refl). by destruct f.
Qed.

(** The table as a whole: a field names its key, and the fields a write of another
    register may move have timer keys. *)
Definition key_of (f : field) : Z :=
  default (-1) (snd <$> list.last (filter (λ p : field * Z, F.eqb p.1 f = true) ((λ p : Z * field, (p.2, p.1)) <$> key_fields))).

Lemma key_fields_inv key f : switch key key_fields = Some f →
  key_of f = key ∧ (volatile f = true → timer_key key = true) ∧ (f = cntp_cval → timer_key key = true).
Proof.
  intros Hs%switch_in. unfold key_fields in Hs. rewrite !elem_of_cons in Hs.
  destruct_or!; try (by apply elem_of_nil in Hs); injection Hs as -> ->; by split_and!.
Qed.

Lemma key_fields_other key f : switch key key_fields = Some f →
  Forall (λ g, F.eqb f g = false)
    [fp_execution_profile; platform_profile; platform_override; cpacr_el1; exception_pending; exception_target_el;
     exception_from_lower_el; F.exception_syndrome; exception_far; exception_pc] ∧
  (2 ≤ sysreg_min_el key ∨ F.eqb f hcr_el2 = false ∧ F.eqb f scr_el3 = false).
Proof.
  intros Hs%switch_in. unfold key_fields in Hs. rewrite !elem_of_cons in Hs.
  destruct_or!; try (by apply elem_of_nil in Hs); injection Hs as -> ->;
    (split; [repeat constructor|first [by right|by left]]).
Qed.

Lemma plain_frame c c' :
  c' current_el = c current_el → (2 ≤ c current_el ∨ c' hcr_el2 = c hcr_el2 ∧ c' scr_el3 = c scr_el3) →
  not_plain_el1 c' = not_plain_el1 c.
Proof.
  intros H1 H2. unfold not_plain_el1, VF_EL1. rewrite H1. destruct H2 as [H2|[-> ->]]; [|done]. by tests.
Qed.

(** What a successful write leaves alone. *)
Lemma write_frame c key v c' :
  fits 64 v → vf_cpu_write_sysreg (Some c) key v = (VF_SYSREG_OK, Some c') →
  c' current_el = c current_el ∧ c' fp_execution_profile = c fp_execution_profile ∧
  c' platform_profile = c platform_profile ∧ not_plain_el1 c' = not_plain_el1 c ∧
  (key ≠ VF_SYSREG_KEY_CPACR_EL1 → c' cpacr_el1 = c cpacr_el1) ∧
  (key ≠ VF_PLATFORM_OVERRIDE_KEY → c' platform_override = c platform_override).
Proof.
  intros Hv Hw. destruct (write_effect c key v c' Hv Hw) as (_ & _ & [(-> & _ & _ & _ & ->)|[(-> & _ & _ & ->)|
    (H1 & H2 & Hm & c1 & f & _ & _ & Hf & Hne & _ & _ & Hfr)]]); [done..|].
  destruct (key_fields_other key f Hf) as [Ho Hh]. foralls.
  assert (Hce : c' current_el = c current_el) by (by apply Hfr; [apply eqb_ne| |]).
  split_and!; try done; try (intros; by apply Hfr).
  apply plain_frame; [done|]. destruct Hh as [?|[? ?]]; [left; lia|right]. split; by apply Hfr.
Qed.

Lemma sysreg_read_back c key v c' :
  cpu_ok c → fits 64 v → vf_cpu_write_sysreg (Some c) key v = (VF_SYSREG_OK, Some c') →
  timer_key key = false ∨ key = VF_SYSREG_KEY_CNTP_CVAL_EL0 →
  vf_cpu_read_sysreg (Some c') key true = (VF_SYSREG_OK, Some (stored key v)).
Proof.
  intros Hok Hv Hw Hk. destruct (cpu_write_ok c key v Hok Hv) as (rc & c2 & Hw2 & [_ Hsv'] & _).
  rewrite Hw in Hw2. injection Hw2 as <- <-. pose proof (write_frame c key v c' Hv Hw) as (Hce & Hfp & Hpl & Hnp & _).
  destruct (write_effect c key v c' Hv Hw) as (Hsv & Hkey & [(-> & Hp & H0 & Hn & ->)|[(-> & Hp & Hn & ->)|
    (H1 & H2 & Hm & c1 & f & _ & _ & Hf & Hne & Hid & Hst & Hfr)]]).
  - unfold vf_cpu_read_sysreg. rewrite Hsv', Hfp, Hce, Hp, Hnp, Hn. cbn [negb orb]. change (_ =? VF_SYSREG_KEY_FPCR) with false.
    by rewrite (proj2 (Z.eqb_neq _ _) H0).
  - unfold vf_cpu_read_sysreg. rewrite Hsv', Hpl, Hnp, Hn, Hp. done.
  - rewrite (read_as_field c' key f) by (done || lia). f_equal. f_equal.
    destruct (key_fields_inv key f Hf) as (Hkf & Hvol & Hcv).
    assert (volatile f = false) as Hvf.
    { destruct (volatile f) eqn:E; [|done]. exfalso. destruct Hk as [Hk|Hk]; [by rewrite Hvol in Hk|].
      subst key. injection Hf as <-. done. }
    rewrite <- Hst by done. unfold val. by destruct f.
Qed.

Lemma sysreg_read_other c key v c' key' :
  cpu_ok c → fits 64 v → vf_cpu_write_sysreg (Some c) key v = (VF_SYSREG_OK, Some c') →
  key' ≠ key → timer_key key' = false →
  vf_cpu_read_sysreg (Some c') key' true = vf_cpu_read_sysreg (Some c) key' true.
Proof.
  intros Hok Hv Hw Hne Ht. destruct (cpu_write_ok c key v Hok Hv) as (rc & c2 & Hw2 & [_ Hsv'] & _).
  rewrite Hw in Hw2. injection Hw2 as <- <-. pose proof (write_frame c key v c' Hv Hw) as (Hce & Hfp & Hpl & Hnp & Hca & Hov).
  apply read_ext; try done; [by rewrite Hsv', (proj2 Hok)|intros ->; apply Hca; congruence|intros ->; apply Hov; congruence|].
  intros g Hg. destruct (key_fields_inv key' g Hg) as (Hkg & Hvol & Hcv).
  assert (volatile g = false) as Hvg by (destruct (volatile g); [by rewrite Hvol in Ht|done]).
  destruct (key_fields_other key' g Hg) as [Ho _]. foralls.
  destruct (write_effect c key v c' Hv Hw) as (_ & _ & [(-> & _ & _ & _ & ->)|[(-> & _ & _ & ->)|
    (_ & _ & _ & c1 & f & _ & _ & Hf & _ & _ & _ & Hfr)]]).
  - cbn [upd]. rewrite eqb_ne; [done|]. intros ->. done.
  - cbn [upd]. rewrite !eqb_ne; [done|intros ->; done..].
  - apply Hfr; [|done|intros _ ->; by rewrite Hcv in Ht].
    destruct (F.eqb f g) eqn:E; [|done]. apply eqb_eq in E as ->. destruct (key_fields_inv key g Hf) as [Hkf _]. congruence.
Qed.

(** ** What stays put *)

(** The pending-exception record. *)
Definition record_fields : list field :=
  [exception_pending; exception_target_el; exception_from_lower_el; F.exception_syndrome; exception_far; exception_pc].

Definition keeps_record (o : cpu_op) : bool := match o with Take | Clear => false | _ => true end.

Lemma step_record c o rc c' :
  cpu_ok c → c exception_pending ≠ 0 → cpu_op_ok o → keeps_record o = true →
  cpu_step c o = Some (rc, Some c') → Forall (λ f, c' f = c f) record_fields.
Proof.
  intros Hok Hp Ho Hk. unfold record_fields. destruct o; try discriminate Hk; cbn [cpu_step cpu_op_ok] in *.
  - unfold vf_cpu_set_current_el. destruct (_ || _); [intros [= <- <-]; by foralls|].
    rewrite save_sp_spec by by apply cpu_ok_valid. cbn [mbind option_bind]. unfold el_get.
    case_bool_decide; cbn [mbind option_bind]; [|done]. intros [= <- <-]. by foralls.
  - rewrite raise_refused by tauto. intros [= <- <-]. by foralls.
  - unfold vf_cpu_commit_status. destruct (commit_kind _ st) as [[[k f] i]|]; [|intros [= <- <-]; by foralls].
    rewrite raise_refused by (right; right; done). intros [= <- <-]. by foralls.
  - destruct (cpu_write_ok c key v Hok Ho) as (rc' & c2 & Hw & _ & Hne). rewrite Hw. intros [= -> ->].
    destruct (decide (rc = 0)) as [->|?]; [|rewrite Hne by done; by foralls].
    destruct (write_effect c key v c' Ho Hw) as (_ & _ & [(_ & _ & _ & _ & ->)|[(_ & _ & _ & ->)|
      (_ & _ & _ & c1 & f & _ & _ & Hf & _ & _ & _ & Hfr)]]); [by foralls..|].
    destruct (key_fields_other key f Hf) as [Hx _]. foralls; by apply Hfr.
  - intros [= <- <-]. by foralls.
  - intros [= <- <-]. foralls; by rewrite timer_status_frame.
  - unfold vf_cpu_configure_platform. destruct (_ || _); intros [= <- <-]; by foralls.
  - unfold vf_cpu_set_interrupt_lines. destruct (_ || _); intros [= <- <-]; by foralls.
  - unfold vf_cpu_poll_interrupt. rewrite (proj2 (nz_true _) Hp), orb_true_r. intros [= <- <-]. by foralls.
  - intros [= <- <-]. by foralls.
Qed.

(** The fields the least privileged level may write. *)
Definition el0_fields : list field := [tpidr_el0; cntp_ctl; cntp_cval; cntp_tval; cntv_ctl; cntv_cval].

Lemma el0_write_case c v key c1 :
  c current_el = 0 → sysreg_min_el key ≤ 0 → switch key (write_cases c v) = Some (inr c1) →
  ∀ g, (g ∉ el0_fields) → update_timer_status c1 g = c g.
Proof.
  intros H0 Hm Hs%switch_in g Hg. unfold el0_fields in Hg.
  assert (F.eqb tpidr_el0 g = false ∧ F.eqb cntp_ctl g = false ∧ F.eqb cntp_cval g = false ∧
    F.eqb cntp_tval g = false ∧ F.eqb cntv_ctl g = false ∧ F.eqb cntv_cval g = false) as (E1 & E2 & E3 & E4 & E5 & E6).
  { split_and!; apply eqb_ne; intros ->; apply Hg; rewrite !elem_of_cons; tauto. }
  assert (update_timer_status c1 g = c1 g) as ->.
  { unfold update_timer_status. repeat case_match; cbn [upd]; by rewrite ?E2, ?E4, ?E5. }
  unfold write_cases in Hs. rewrite H0, !elem_of_cons in Hs.
  destruct_or!; try (by apply elem_of_nil in Hs); apply pair_eq in Hs as [-> Hs]; try (vm_compute in Hm; by destruct Hm);
    repeat case_match; try discriminate; injection Hs as ->; cbn [upd]; by rewrite ?E1, ?E2, ?E3, ?E4, ?E5, ?E6.
Qed.

(** A processor after reset, for the instances. *)
Definition reset_at (el : Z) : vf_cpu := default (λ _, 0) (vf_cpu_reset (Some (λ _, 0)) el).
Abbreviation reset_el1 := (reset_at 1).

Lemma reset_at_ok el : fits 32 el → cpu_ok (reset_at el).
Proof.
  intros Hel. destruct (cpu_reset_ok (λ _, 0) el Hel) as (c & Hc & Hok).
  assert (Some c = Some (reset_at el)) as E by exact (eq_sym Hc). by injection E as ->.
Qed.

Lemma reset_el1_ok : cpu_ok reset_el1.
Proof. apply reset_at_ok. by vm_compute. Qed.

(** ** Properties *)

(** C3. From reset at any level, over any sequence of the operations (level changes,
    exceptions raised and taken, statuses recorded, registers read and written,
    counters advanced, platform and lines configured, interrupts polled) no bank is
    indexed out of range, the validity check of the code holds throughout, so PSTATE
    names the current level, and every field fits its width. *)
Theorem cpu_stays_valid garbage el os :
  fits 32 el → Forall cpu_op_ok os →
  ∃ c0 l c, vf_cpu_reset (Some garbage) el = Some c0 ∧ cpu_run c0 os = Some (l, c) ∧
    vf_cpu_state_valid (Some c) = true ∧ mode_ok (c current_el) (Z.land (c pstate) VF_PSTATE_MODE_MASK) ∧
    ∀ f, fits (F.width f) (c f).
Proof.
  intros Hel Hos. destruct (cpu_reset_ok garbage el Hel) as (c0 & H0 & Hok0).
  destruct (cpu_run_ok c0 os Hok0 Hos) as (l & c & Hr & Hok). exists c0, l, c. split_and!; try done; [apply Hok| |apply Hok].
  apply v_mode. by apply cpu_ok_valid.
Qed.

Lemma cpu_stays_valid_witness :
  Forall cpu_op_ok [Write 0x4600 0x8fff; Raise 4 0x1000 0x2000 0 0xf9400000; Take] ∧
  ∃ c0 l c, vf_cpu_reset (Some (λ _, 7)) 0 = Some c0 ∧
    cpu_run c0 [Write 0x4600 0x8fff; Raise 4 0x1000 0x2000 0 0xf9400000; Take] = Some (l, c) ∧
    vf_cpu_state_valid (Some c) = true ∧ mode_ok (c current_el) (Z.land (c pstate) VF_PSTATE_MODE_MASK) ∧
    ∀ f, fits (F.width f) (c f).
Proof.
  assert (Forall cpu_op_ok [Write 0x4600 0x8fff; Raise 4 0x1000 0x2000 0 0xf9400000; Take]) as H
    by (repeat constructor; by vm_compute).
  split; [exact H|]. apply (cpu_stays_valid (λ _, 7) 0 _); [by vm_compute|exact H].
Defined.

(** C14. Exception entry: an exception raised on a valid processor with none pending
    is accepted, and taking it leads to the handler of the level that receives it: every
    field of the state is given; the syndrome is the one passed, or the one computed
    for its kind when that is 0; ESR and FAR of an interrupt keep their banks; the
    overflow refusal of the vector address is never reached. *)
Theorem exception_entry c kind pc_ far_ syn insn :
  cpu_ok c → c exception_pending = 0 → valid_exception_kind kind = true →
  fits 64 pc_ → fits 64 far_ → fits 32 syn → fits 32 insn →
  ∃ syn' c1 c2, vf_cpu_raise_exception (Some c) kind pc_ far_ syn insn = Some (0, Some c1) ∧
    vf_cpu_take_exception (Some c1) = Some (0, Some c2) ∧
    (if syn =? 0 then exception_syndrome kind (c current_el) pc_ insn else Some syn) = Some syn' ∧
    ∀ f, c2 f = entered c kind pc_ far_ syn' insn f.
Proof. apply raise_take. Qed.

Lemma exception_entry_witness :
  ∃ syn' c1 c2, vf_cpu_raise_exception (Some reset_el1) 4 0x1000 0x2000 0 0xf9400000 = Some (0, Some c1) ∧
    vf_cpu_take_exception (Some c1) = Some (0, Some c2) ∧
    (if 0 =? 0 then exception_syndrome 4 (reset_el1 current_el) 0x1000 0xf9400000 else Some 0) = Some syn' ∧
    ∀ f, c2 f = entered reset_el1 4 0x1000 0x2000 syn' 0xf9400000 f.
Proof. apply (exception_entry reset_el1 4 0x1000 0x2000 0 0xf9400000 reset_el1_ok); by vm_compute. Defined.

(** C15. Polling for interrupts: nothing while an exception is pending; an asserted
    interrupt this model cannot route is recorded as a trap and not entered; otherwise
    the one that is due (FIQ before timer before IRQ, by the PSTATE masks and the
    platform override) is entered at once, and when none is due nothing changes. *)
Theorem interrupt_poll c :
  cpu_ok c →
  let asserted := negb (c irq_level =? 0) || negb (c fiq_level =? 0) || timer_asserted c in
  if negb (c exception_pending =? 0) then vf_cpu_poll_interrupt (Some c) = Some (VF_NEXT, Some c)
  else if asserted && unroutable c then
    ∃ c', vf_cpu_poll_interrupt (Some c) = Some (VF_SYSTEM_REGISTER_TRAP, Some c') ∧
      c' exception_pending = VF_EXCEPTION_SYSTEM_REGISTER_TRAP ∧ c' pc = c pc ∧ c' current_el = c current_el
  else
    match due c with
    | None => vf_cpu_poll_interrupt (Some c) = Some (VF_NEXT, Some c)
    | Some (st, kind) => ∃ syn c', vf_cpu_poll_interrupt (Some c) = Some (st, Some c') ∧
        ∀ f, c' f = (entered c kind (c pc) 0 syn 0).[status := st] f
    end.
Proof.
  intros Hok asserted. unfold vf_cpu_poll_interrupt. rewrite (proj2 Hok). cbn [negb orb]. fold (nz (c exception_pending)).
  destruct (nz (c exception_pending)) eqn:Ep; [done|]. apply nz_false in Ep.
  assert (nz (c irq_level) || nz (c fiq_level) || vf_cpu_timer_pending (Some c) = asserted) as ->.
  { unfold vf_cpu_timer_pending. change VF_TIMER_CTL_ISTATUS with (Z.shiftl 1 2). by rewrite !land_bit_nz by lia. }
  change ((VF_EL1 <? c current_el) || nz (Z.land (c hcr_el2) 0x18) || nz (Z.land (c scr_el3) 6)) with (unroutable c).
  destruct (asserted && unroutable c) eqn:E.
  - assert (cpu_ok c.[instruction := 0]) as H1 by (by apply inert_ok).
    destruct (raise_spec _ VF_EXCEPTION_SYSTEM_REGISTER_TRAP (c.[instruction := 0] pc) 0 0 0 H1 eq_refl Ep)
      as (syn & c' & -> & _ & Hc'). cbn [mbind option_bind]. eexists. split; [reflexivity|]. fields. by rewrite !Hc'.
  - rewrite due_select. destruct (due c) as [[st k]|] eqn:Ed; [|done].
    assert (valid_exception_kind k = true) as Hk.
    { unfold due in Ed. repeat case_match; try discriminate Ed; by injection Ed as <- <-. }
    destruct (raise_take c k (c pc) 0 0 0 Hok Ep Hk) as (syn & c1 & c2 & Hr & Ht & _ & Hc2); try done; [apply (proj1 Hok pc)|].
    rewrite Hr. cbn [mbind option_bind]. change (nz 0) with false. cbv iota. rewrite Ht. cbn [mbind option_bind].
    change (nz 0) with false. cbv iota. exists syn. eexists. split; [reflexivity|]. intros f. cbn [upd]. by rewrite Hc2.
Qed.

Lemma interrupt_poll_witness :
  let c := reset_el1.[irq_level := 1] in
  due c = Some (VF_EXTERNAL_INTERRUPT, VF_EXCEPTION_EXTERNAL_INTERRUPT) ∧
  ∃ syn c', vf_cpu_poll_interrupt (Some c) = Some (VF_EXTERNAL_INTERRUPT, Some c') ∧
    ∀ f, c' f = (entered c VF_EXCEPTION_EXTERNAL_INTERRUPT (c pc) 0 syn 0).[status := VF_EXTERNAL_INTERRUPT] f.
Proof.
  split; [reflexivity|].
  exact (interrupt_poll (reset_el1.[irq_level := 1]) (inert_ok _ irq_level 1 reset_el1_ok eq_refl (conj (Z.le_0_1) eq_refl))).
Defined.

(** C23. System registers: after a successful write the register reads as what it
    keeps of the value (vector bases drop their low eleven bits), and, apart from the
    registers whose status the timers derive, every other register reads as before. *)
Theorem sysreg_write_read c key v c' :
  cpu_ok c → fits 64 v → vf_cpu_write_sysreg (Some c) key v = (VF_SYSREG_OK, Some c') →
  (timer_key key = false ∨ key = VF_SYSREG_KEY_CNTP_CVAL_EL0 →
     vf_cpu_read_sysreg (Some c') key true = (VF_SYSREG_OK, Some (stored key v))) ∧
  ∀ key', key' ≠ key → timer_key key' = false →
    vf_cpu_read_sysreg (Some c') key' true = vf_cpu_read_sysreg (Some c) key' true.
Proof.
  intros Hok Hv Hw. split; [by apply (sysreg_read_back c)|]. intros. by apply (sysreg_read_other c key v).
Qed.

Lemma sysreg_write_read_witness :
  ∃ c', vf_cpu_write_sysreg (Some reset_el1) VF_SYSREG_KEY_VBAR_EL1 0x12345fff = (VF_SYSREG_OK, Some c') ∧
    (timer_key VF_SYSREG_KEY_VBAR_EL1 = false ∨ VF_SYSREG_KEY_VBAR_EL1 = VF_SYSREG_KEY_CNTP_CVAL_EL0 →
      vf_cpu_read_sysreg (Some c') VF_SYSREG_KEY_VBAR_EL1 true =
        (VF_SYSREG_OK, Some (stored VF_SYSREG_KEY_VBAR_EL1 0x12345fff))) ∧
    ∀ key', key' ≠ VF_SYSREG_KEY_VBAR_EL1 → timer_key key' = false →
      vf_cpu_read_sysreg (Some c') key' true = vf_cpu_read_sysreg (Some reset_el1) key' true.
Proof.
  eexists. split; [reflexivity|]. apply (sysreg_write_read reset_el1 _ _ _ reset_el1_ok); [by vm_compute|reflexivity].
Defined.

(** C34. The least privileged level is confined: whatever registers a program at EL0
    reads and writes, only its thread pointer and the timer controls can change. *)
Theorem el0_confined c os l c' :
  cpu_ok c → c current_el = 0 →
  Forall (λ o, cpu_op_ok o ∧ match o with Write _ _ | Read _ => True | _ => False end) os →
  cpu_run c os = Some (l, c') →
  ∀ f, (f ∉ el0_fields) → c' f = c f.
Proof.
  intros Hok H0 Hos. revert c l Hok H0. induction Hos as [|o os [Ho Hk] _ IH]; intros c l Hok H0; cbn [cpu_run].
  { by intros [= <- <-]. }
  assert (∃ rc c1, cpu_step c o = Some (rc, Some c1) ∧ cpu_ok c1 ∧ ∀ f, (f ∉ el0_fields) → c1 f = c f) as (rc & c1 & -> & Hok1 & Hf1).
  { destruct o as [| | | | |key v|key| | | | |]; try done; cbn [cpu_step cpu_op_ok] in *; [|by eexists _, _].
    destruct (cpu_write_ok c key v Hok Ho) as (rc & c1 & Hw & Hok1 & Hne). exists rc, c1. rewrite Hw. split; [done|].
    split; [done|]. intros f Hf. destruct (decide (rc = 0)) as [->|?]; [|by rewrite Hne].
    destruct (write_effect c key v c1 Ho Hw) as (_ & _ & [(_ & _ & He & _)|[(_ & _ & Hn & _)|
      (_ & _ & Hm & c2 & g & Hs & -> & _)]]).
    - by rewrite H0 in He.
    - unfold not_plain_el1 in Hn. by rewrite H0 in Hn.
    - apply (el0_write_case c v key c2 H0); [lia|done|done]. }
  cbn [mbind option_bind]. destruct (cpu_run c1 os) as [[l1 c2]|] eqn:Hr; [|done]. intros [= <- <-] f Hf.
  assert (c1 current_el = 0) as H1.
  { rewrite Hf1; [done|]. unfold el0_fields. rewrite !elem_of_cons. intros H. destruct_or!; try done.
    by apply elem_of_nil in H. }
  rewrite (IH c1 l1 Hok1 H1 Hr f Hf). by apply Hf1.
Qed.

Lemma el0_confined_witness :
  let c := reset_at 0 in
  ∃ l c', cpu_run c [Write VF_SYSREG_KEY_TPIDR_EL0 5; Write VF_SYSREG_KEY_SCTLR_EL1 1; Read VF_SYSREG_KEY_ESR_EL1]
      = Some (l, c') ∧ l = [0; VF_SYSREG_PRIVILEGE; VF_SYSREG_PRIVILEGE] ∧
    ∀ f, (f ∉ el0_fields) → c' f = c f.
Proof.
  intros c. assert (cpu_ok c) as Hok by (apply reset_at_ok; by vm_compute).
  eexists _, _. split; [reflexivity|]. split; [reflexivity|].
  eapply (el0_confined c [Write VF_SYSREG_KEY_TPIDR_EL0 5; Write VF_SYSREG_KEY_SCTLR_EL1 1; Read VF_SYSREG_KEY_ESR_EL1]);
    [exact Hok|reflexivity| |reflexivity]. repeat constructor; by vm_compute.
Defined.

(** A pending exception is not lost: until it is taken or cleared, no operation
    changes its record (kind, target, syndrome, fault address and program counter);
    a second exception is refused and polling delivers nothing. *)
Theorem pending_exception_kept c os l c' :
  cpu_ok c → c exception_pending ≠ 0 → Forall cpu_op_ok os → forallb keeps_record os = true →
  cpu_run c os = Some (l, c') → Forall (λ f, c' f = c f) record_fields.
Proof.
  intros Hok Hp Hos Hk. revert c l Hok Hp Hk. induction Hos as [|o os Ho _ IH]; intros c l Hok Hp Hk; cbn [cpu_run].
  { intros [= <- <-]. by repeat constructor. }
  cbn [forallb] in Hk. apply andb_true_iff in Hk as [Hk1 Hk2].
  destruct (cpu_step_ok c o Hok Ho) as (rc & c1 & Hs & Hok1). pose proof (step_record c o rc c1 Hok Hp Ho Hk1 Hs) as H1.
  rewrite Hs. cbn [mbind option_bind]. destruct (cpu_run c1 os) as [[l1 c2]|] eqn:Hr; [|done]. intros [= <- <-].
  assert (c1 exception_pending ≠ 0) as Hp1 by (unfold record_fields in H1; apply Forall_cons_1 in H1 as [-> _]; done).
  pose proof (IH c1 l1 Hok1 Hp1 Hk2 Hr) as H2. unfold record_fields in *. foralls; congruence.
Qed.

Lemma pending_exception_kept_witness :
  let c := reset_el1.[exception_pending := VF_EXCEPTION_DATA_ABORT] in
  ∃ l c', cpu_run c [Raise 1 0 0 0 0; Poll; Commit VF_DATA_FAULT] = Some (l, c') ∧
    Forall (λ f, c' f = c f) record_fields.
Proof.
  intros c. assert (cpu_ok c) as Hok.
  { apply cpu_ok_intro; [apply typed_upd; [apply reset_el1_ok|by vm_compute]|].
    destruct (cpu_ok_valid _ reset_el1_ok). constructor; try done. by right. }
  eexists _, _. split; [reflexivity|].
  eapply (pending_exception_kept c [Raise 1 0 0 0 0; Poll; Commit VF_DATA_FAULT]);
    [exact Hok|done| |reflexivity|reflexivity]. repeat constructor; by vm_compute.
Defined.

End Cpu.
