(* ===== verification/Insn.v ===== *)
(** Decoding of A64 words ([runtime/jit.c]).

    An instruction is a word of 32 bits.  This file classifies and decodes it: the
    bitmask immediates, the system-register encodings, and the loads and stores (a
    [memory_shape]).  The steps that act on a decoded instruction are in files Steps,
    LoadStore and Provider. *)
From S2P Require Import Prelude.
From S2P Require Import Words.
From S2P Require Import Mmio.
From S2P Require Import Cpu.

Module Insn.
Import Cpu.
Import Cpu.F.

(** ** Words *)

(** [(int64_t)(int32_t)(x << (32 - bits)) >> (32 - bits)], the shift on 32 bits. *)
Definition s32 (v : Z) : Z := let v := u32 v in if v <? 2 ^ 31 then v else v - 2 ^ 32.
Definition sext (v bits : Z) : Z := Z.shiftr (s32 (shl 32 (u32 v) (32 - bits))) (32 - bits).

(** [while (tag > 1) { tag >>= 1; len++; }] *)
Fixpoint tag_length (fuel : nat) (tag len : Z) : option Z :=
  if 1 <? tag then
    match fuel with O => None | S fuel => tag_length fuel (Z.shiftr tag 1) (len + 1) end
  else Some len.

(** [for (at = 0; at < width; at += size) *mask |= element << at;] *)
Fixpoint spread (rounds : nat) (size at_ element mask : Z) : Z :=
  match rounds with
  | O => mask
  | S rounds => spread rounds size (at_ + size) element (Z.lor mask (shl 64 element at_))
  end.

(** The immediate of a logical instruction; [None] when the encoding is reserved. *)
Definition logical_mask (w : Z) : option Z :=
  let width := if nz (Z.shiftr w 31) then 64 else 32 in
  let n := Z.land (Z.shiftr w 22) 1 in
  let s := Z.land (Z.shiftr w 10) 63 in
  let r := Z.land (Z.shiftr w 16) 63 in
  if (width =? 32) && nz n then None
  else
    let tag := Z.lor (Z.shiftl n 6) (Z.land (bnot 32 s) 63) in
    len ← tag_length 7 tag 0;
    if len <? 1 then None
    else
      let size := Z.shiftl 1 len in
      let levels := size - 1 in
      if (width <? size) || (Z.land s levels =? levels) then None
      else
        let s := Z.land s levels in
        let r := Z.land r levels in
        let element := shl 64 1 (s + 1) - 1 in
        let element := if nz r then Z.lor (Z.shiftr element r) (shl 64 element (size - r)) else element in
        let element := if size <? 64 then Z.land element (shl 64 1 size - 1) else element in
        Some (spread (Z.to_nat (width / size)) size 0 element 0).

Definition sysreg_key (w : Z) : Z := Z.land (Z.shiftr w 5) 0x7fff.
Definition is_system_encoding (w : Z) : bool := Z.land w 0xffc00000 =? 0xd5000000.
Definition is_exception_return (w : Z) : bool := (w =? 0xd69f03e0) || (w =? 0xd69f0be0) || (w =? 0xd69f0fe0).

Definition sysreg_el0_visible (key : Z) : bool :=
  existsb (Z.eqb key) [
    0x5801; 0x5802; 0x5a20; 0x5a21; VF_SYSREG_KEY_TPIDR_EL0; VF_SYSREG_KEY_TPIDRRO_EL0; VF_SYSREG_KEY_CNTFRQ_EL0;
    VF_SYSREG_KEY_CNTPCT_EL0; VF_SYSREG_KEY_CNTVCT_EL0; VF_SYSREG_KEY_CNTP_TVAL_EL0; VF_SYSREG_KEY_CNTP_CTL_EL0;
    VF_SYSREG_KEY_CNTP_CVAL_EL0; VF_SYSREG_KEY_CNTV_CTL_EL0; VF_SYSREG_KEY_CNTV_CVAL_EL0; VF_SYSREG_KEY_CURRENT_EL].

Definition sysreg_el1_only (key : Z) : bool :=
  existsb (Z.eqb key) [
    VF_SYSREG_KEY_ID_AA64PFR0_EL1; VF_SYSREG_KEY_ID_AA64PFR1_EL1; VF_SYSREG_KEY_ID_AA64PFR2_EL1;
    VF_SYSREG_KEY_ID_AA64MMFR0_EL1; VF_SYSREG_KEY_ID_AA64MMFR1_EL1; VF_SYSREG_KEY_ID_AA64MMFR2_EL1;
    VF_SYSREG_KEY_ID_AA64ISAR1_EL1; VF_SYSREG_KEY_SCTLR_EL1; VF_SYSREG_KEY_TTBR0_EL1; VF_SYSREG_KEY_TTBR1_EL1;
    VF_SYSREG_KEY_TCR_EL1; VF_SYSREG_KEY_MAIR_EL1; VF_SYSREG_KEY_VBAR_EL1; VF_SYSREG_KEY_ESR_EL1;
    VF_SYSREG_KEY_FAR_EL1; VF_SYSREG_KEY_ELR_EL1; VF_SYSREG_KEY_SPSR_EL1].

Definition is_mrs_msr (w : Z) : bool :=
  (Z.land w 0xffe00000 =? 0xd5200000) || (Z.land w 0xffe00000 =? 0xd5000000).

Definition known_privileged (w el : Z) : bool :=
  if is_exception_return w then el =? VF_EL0
  else if (w =? 0xd503207f) || (w =? 0xd503205f) || (Z.land w 0xffe0001f =? 0xd4000002)
          || (Z.land w 0xffe0001f =? 0xd4000003) then el =? VF_EL0
  else if (Z.land w 0xfffff0ff =? 0xd50340df) || (Z.land w 0xfffff0ff =? 0xd50340ff)
          || (Z.land w 0xfffffeff =? 0xd50040bf) then el =? VF_EL0
  else is_mrs_msr w && (el =? VF_EL0) && negb (sysreg_el0_visible (sysreg_key w)) && sysreg_el1_only (sysreg_key w).

Definition system_boundary (w el : Z) : Z :=
  if is_exception_return w then VF_SYSTEM_REGISTER_TRAP
  else if negb (is_system_encoding w) then 0
  else if w =? 0xd503201f then 0
  else if known_privileged w el then VF_PRIVILEGE_FAULT
  else VF_SYSTEM_REGISTER_TRAP.

(** ** Loads and stores *)

Record memory_shape := {
  width : Z; count : Z; read : bool; signed_load : bool; result64 : bool; mode : Z; rn : Z; rt : Z; rt2 : Z;
  displacement : Z; register_offset : bool; rm : Z; option_ : Z; shift : Z;
}.

Definition register_offset_family (w : Z) : bool := Z.land w 0x3b200c00 =? 0x38200800.
Definition unscaled_offset_family (w : Z) : bool := Z.land w 0x3b200c00 =? 0x38000000.
Definition scalar_writeback_family (w : Z) : bool := Z.land w 0x3b200400 =? 0x38000400.
Definition memory_family (w : Z) : bool :=
  (Z.land w 0x3a000000 =? 0x28000000) || (Z.land w 0x3b000000 =? 0x39000000) || register_offset_family w
  || unscaled_offset_family w || scalar_writeback_family w.

(** Pairs. *)
Definition decode_pair (w : Z) : option memory_shape :=
  let rn := Z.land (Z.shiftr w 5) 31 in
  let rt := Z.land w 31 in
  let opc := Z.shiftr w 30 in
  let mode := Z.land (Z.shiftr w 23) 3 in
  let read := nz (Z.land (Z.shiftr w 22) 1) in
  let rt2 := Z.land (Z.shiftr w 10) 31 in
  if nz (Z.land w (Z.shiftl 1 26)) || (negb (opc =? 0) && negb (opc =? 2)) || (mode =? 0)
     || (negb (mode =? 2) && negb (rn =? 31) && ((rn =? rt) || (rn =? rt2)))
     || (read && (rt =? rt2)) then None
  else
    let width := if opc =? 2 then 8 else 4 in
    Some {| width := width; count := 2; read := read; signed_load := false; result64 := opc =? 2; mode := mode;
            rn := rn; rt := rt; rt2 := rt2; displacement := s32 (sext (Z.land (Z.shiftr w 15) 127) 7 * width);
            register_offset := false; rm := 0; option_ := 0; shift := 0 |}.

(** Single registers. *)
Definition decode_single (w : Z) : option memory_shape :=
  let rn := Z.land (Z.shiftr w 5) 31 in
  let rt := Z.land w 31 in
  let size := Z.shiftr w 30 in
  let opc := Z.land (Z.shiftr w 22) 3 in
  let by_register := register_offset_family w in
  let rm := if by_register then Z.land (Z.shiftr w 16) 31 else 0 in
  let option_ := if by_register then Z.land (Z.shiftr w 13) 7 else 0 in
  let shift := if by_register && nz (Z.land w (Z.shiftl 1 12)) then size else 0 in
  if by_register && negb (nz (Z.land option_ 2)) then None
  else if nz (Z.land w (Z.shiftl 1 26)) || ((2 <=? opc) && ((size =? 3) || ((opc =? 3) && (size =? 2)))) then None
  else
    let width := Z.shiftl 1 size in
    let writeback := scalar_writeback_family w in
    let mode := if writeback then Z.land (Z.shiftr w 10) 3 else 2 in
    if writeback && negb (rn =? 31) && (rn =? rt) then None
    else
      let displacement :=
        if unscaled_offset_family w || writeback then s32 (sext (Z.land (Z.shiftr w 12) 511) 9)
        else if negb by_register then s32 (Z.land (Z.shiftr w 10) 4095 * width) else 0 in
      Some {| width := width; count := 1; read := negb (opc =? 0); signed_load := 2 <=? opc;
              result64 := (opc =? 2) || (size =? 3); mode := mode; rn := rn; rt := rt; rt2 := 0;
              displacement := displacement; register_offset := by_register; rm := rm; option_ := option_; shift := shift |}.

Definition decode_memory (w : Z) : option memory_shape :=
  if Z.land w 0x3a000000 =? 0x28000000 then decode_pair w
  else if (Z.land w 0x3b000000 =? 0x39000000) || register_offset_family w || unscaled_offset_family w
          || scalar_writeback_family w then decode_single w
  else None.

(** The operands. *)
Definition memory_register (c : vf_cpu) (reg : Z) (sp_ : bool) : Z :=
  if reg =? 31 then (if sp_ then c sp else 0) else c (x reg).
Definition memory_save (c : vf_cpu) (reg value : Z) (wide : bool) : vf_cpu :=
  if reg =? 31 then c else c.[x reg := if wide then value else u32 value].

Definition memory_offset (c : vf_cpu) (s : memory_shape) : Z :=
  if negb (register_offset s) then u64 (displacement s)
  else
    let value := memory_register c (rm s) false in
    let value :=
      if negb (nz (Z.land (option_ s) 1)) then
        let value := u32 value in
        if (option_ s =? 6) && nz (Z.land value (Z.shiftl 1 31)) then Z.lor value 0xffffffff00000000 else value
      else value in
    shl 64 value (shift s).

(** ** Bitmask immediates *)

(** Bit [i] of the mask that the fields [len], [s] and [r] describe: elements of
    [2 ^ len] bits, each [s + 1] ones rotated right by [r], repeated over the width. *)
Definition mask_bit (width len s r i : Z) : bool :=
  (i <? width) && ((i mod 2 ^ len + r) mod 2 ^ len <=? s).

(** The loop terminates, and computes the logarithm. *)
Lemma tag_length_spec fuel tag len :
  0 ≤ tag < 2 ^ Z.of_nat (S fuel) → tag_length fuel tag len = Some (len + Z.log2 tag).
Proof.
  revert tag len. induction fuel as [|fuel IH]; intros tag len Ht; cbn [tag_length].
  - change (2 ^ Z.of_nat 1) with 2 in Ht. assert ((1 <? tag) = false) as -> by lia. rewrite (proj2 (Z.log2_null tag)) by lia. by rewrite Z.add_0_r.
  - destruct (Z.ltb_spec 1 tag) as [H1|H1].
    + rewrite IH.
      * f_equal. rewrite Z.shiftr_div_pow2 by lia. change (2 ^ 1) with 2.
        assert (Z.log2 (2 * (tag / 2)) = Z.succ (Z.log2 (tag / 2))) as Hl by (apply Z.log2_double; dlia).
        assert (Z.log2 tag = Z.log2 (2 * (tag / 2))) as ->; [|lia].
        rewrite (Z.div_mod tag 2) at 1 by lia. pose proof (Z.mod_pos_bound tag 2).
        assert (tag mod 2 = 0 ∨ tag mod 2 = 1) as [-> | ->] by lia; [by rewrite Z.add_0_r|].
        rewrite Z.log2_succ_double, Z.log2_double by dlia. done.
      * rewrite Z.shiftr_div_pow2 by lia. change (2 ^ 1) with 2.
        replace (Z.of_nat (S (S fuel))) with (Z.succ (Z.of_nat (S fuel))) in Ht by lia. rewrite Z.pow_succ_r in Ht by lia. dlia.
    + rewrite (proj2 (Z.log2_null tag)) by lia. by rewrite Z.add_0_r.
Qed.

Lemma spread_spec n size at_ e mask i :
  0 < size → 0 ≤ at_ → at_ + Z.of_nat n * size ≤ 64 → fits size e → 0 ≤ i →
  Z.testbit (spread n size at_ e mask) i =
  Z.testbit mask i || (at_ <=? i) && (i <? at_ + Z.of_nat n * size) && Z.testbit e ((i - at_) mod size).
Proof.
  intros Hs Ha Hn He Hi. revert at_ mask Ha Hn. induction n as [|n IH]; intros at_ mask Ha Hn; cbn [spread].
  - assert ((at_ <=? i) && (i <? at_ + Z.of_nat 0 * size) = false) as -> by lia. by rewrite orb_false_r.
  - rewrite IH by lia. rewrite Z.lor_spec. unfold shl. rewrite wrap_testbit by lia.
    rewrite Z.shiftl_spec by lia. rewrite <- orb_assoc. f_equal.
    destruct (Z.leb_spec at_ i) as [H1|H1]; [|rewrite (Z.testbit_neg_r e) by lia; assert ((at_ + size <=? i) = false) as -> by lia; by rewrite andb_false_r].
    assert (Z.of_nat (S n) * size = Z.of_nat n * size + size) as Hsn by lia. assert (0 ≤ Z.of_nat n * size) by (apply Z.mul_nonneg_nonneg; lia).
    rewrite Hsn in *. destruct (Z.ltb_spec i (at_ + size)) as [H2|H2].
    + rewrite bool_decide_true by lia. assert ((at_ + size <=? i) = false) as -> by lia.
      assert ((i <? at_ + (Z.of_nat n * size + size)) = true) as -> by lia. cbn [andb]. by rewrite orb_false_r, Z.mod_small by lia.
    + rewrite (fits_testbit_high size e (i - at_)) by (done || lia). rewrite andb_false_r. cbn [orb].
      assert ((at_ + size <=? i) = true) as -> by lia. cbn [andb].
      replace (at_ + size + Z.of_nat n * size) with (at_ + (Z.of_nat n * size + size)) by lia. f_equal.
      replace (i - at_) with (i - (at_ + size) + 1 * size) by lia. by rewrite Z_mod_plus_full.
Qed.

Lemma spread_nonneg n size at_ e mask : 0 ≤ mask → 0 ≤ spread n size at_ e mask.
Proof.
  revert at_ mask. induction n as [|n IH]; intros at_ mask Hm; cbn [spread]; [done|]. apply IH, Z.lor_nonneg.
  split; [done|]. by apply (fits_shl 64 e at_).
Qed.

(** The element before and after the rotation. *)
Lemma ones_element s : 0 ≤ s < 63 → shl 64 1 (s + 1) - 1 = Z.ones (s + 1).
Proof.
  intros Hs. unfold shl. rewrite Z.shiftl_1_l, Z.ones_equiv, wrap_id; [lia|].
  split; [lia|]. apply Z.pow_lt_mono_r; lia.
Qed.

Lemma rotate_spec size s r i :
  0 < size ≤ 64 → 0 ≤ s < size - 1 → 0 ≤ r < size → 0 ≤ i < size →
  let e := Z.ones (s + 1) in
  let e := if nz r then Z.lor (Z.shiftr e r) (shl 64 e (size - r)) else e in
  Z.testbit e i = ((i + r) mod size <=? s).
Proof.
  intros Hsz Hs Hr Hi e e'. subst e e'. unfold nz. destruct (Z.eqb_spec r 0) as [->|Hr0]; cbn [negb].
  - rewrite ones_testbit, Z.add_0_r, Z.mod_small by lia. lia.
  - rewrite Z.lor_spec, Z.shiftr_spec by lia. unfold shl. rewrite wrap_testbit, bool_decide_true, Z.shiftl_spec by lia.
    rewrite ones_testbit by lia. cbn [andb]. destruct (Z.ltb_spec (i + r) size).
    + rewrite Z.mod_small, (Z.testbit_neg_r _ (i - (size - r))) by lia. lia.
    + rewrite ones_testbit by lia. replace ((i + r) mod size) with (i + r - size); [lia|].
      symmetry. rewrite <- (Z.mod_small (i + r - size) size) by lia. rewrite <- (Z_mod_plus_full (i + r - size) 1 size). f_equal. lia.
Qed.

(** Cutting to the element size. *)
Lemma cut_spec size e : 0 < size ≤ 64 → fits 64 e →
  let e' := if size <? 64 then Z.land e (shl 64 1 size - 1) else e in
  fits size e' ∧ ∀ i, 0 ≤ i < size → Z.testbit e' i = Z.testbit e i.
Proof.
  intros Hs He e'. subst e'. destruct (Z.ltb_spec size 64).
  - replace (shl 64 1 size - 1) with (Z.ones size).
    + rewrite Z.land_ones by lia. split; [apply fits_wrap; lia|]. intros i Hi. by rewrite Z.mod_pow2_bits_low by lia.
    + unfold shl. rewrite Z.shiftl_1_l, Z.ones_equiv, wrap_id; [lia|]. split; [lia|]. apply Z.pow_lt_mono_r; lia.
  - assert (size = 64) as -> by lia. by split.
Qed.

(** The fields of a bitmask immediate. *)
Record mask_fields (w width len s r : Z) : Prop := {
  mf_width : width = if Z.testbit w 31 then 64 else 32;
  mf_tag : len = Z.log2 (64 * b2z (Z.testbit w 22) + (63 - Z.shiftr w 10 mod 64));
  mf_len : 1 ≤ len ∧ 2 ^ len ≤ width;
  mf_s : s = Z.shiftr w 10 mod 2 ^ len ∧ s < 2 ^ len - 1;
  mf_r : r = Z.shiftr w 16 mod 2 ^ len;
}.

Lemma top_bit w : fits 32 w → nz (Z.shiftr w 31) = Z.testbit w 31.
Proof.
  intros Hw. unfold fits in Hw. rewrite Z.testbit_odd. rewrite Z.shiftr_div_pow2 by lia.
  assert (w / 2 ^ 31 = 0 ∨ w / 2 ^ 31 = 1) as [-> | ->] by (change (2 ^ 31) with 2147483648; dlia); done.
Qed.

Lemma element_fits s r size : 0 < size ≤ 64 → 0 ≤ s < size - 1 → 0 ≤ r < size →
  fits 64 (if nz r then Z.lor (Z.shiftr (Z.ones (s + 1)) r) (shl 64 (Z.ones (s + 1)) (size - r)) else Z.ones (s + 1)).
Proof.
  intros. assert (fits 64 (Z.ones (s + 1))) by (eapply (fits_weaken (s + 1)); [lia|apply fits_ones; lia]).
  destruct (nz r); [|done]. apply fits_lor; [lia|apply fits_shiftr; try lia; done|apply fits_shl; lia].
Qed.

(** A test of all the numbers below a bound. *)
Lemma all_below (n : nat) (P : Z → bool) : forallb P (seqZ 0 (Z.of_nat n)) = true → ∀ v, 0 ≤ v < Z.of_nat n → P v = true.
Proof. intros Hall v Hv. rewrite forallb_forall in Hall. apply Hall, list_elem_of_In, elem_of_seqZ. lia. Qed.

Lemma tag_value n s : n = 0 ∨ n = 1 → 0 ≤ s < 64 → Z.lor (Z.shiftl n 6) (Z.land (bnot 32 s) 63) = 64 * n + (63 - s).
Proof.
  intros Hn Hs. apply Z.eqb_eq.
  apply (all_below 64 (λ s, Z.lor (Z.shiftl n 6) (Z.land (bnot 32 s) 63) =? 64 * n + (63 - s))); [|lia].
  by destruct Hn as [-> | ->]; vm_compute.
Qed.

(** The mask of valid fields. *)
Lemma spread_mask w width len s r :
  mask_fields w width len s r →
  let size := 2 ^ len in
  let e := Z.ones (s + 1) in
  let e := if nz r then Z.lor (Z.shiftr e r) (shl 64 e (size - r)) else e in
  let e := if size <? 64 then Z.land e (shl 64 1 size - 1) else e in
  let m := spread (Z.to_nat (width / size)) size 0 e 0 in
  fits 64 m ∧ ∀ i, 0 ≤ i < 64 → Z.testbit m i = mask_bit width len s r i.
Proof.
  intros [Hw _ [Hl1 Hl2] [Hs1 Hs2] Hr] size e e1 e2 m.
  assert (0 < size) as Hpos by (apply Z.pow_pos_nonneg; lia).
  assert (width = 32 ∨ width = 64) as Hw' by (rewrite Hw; destruct (Z.testbit w 31); auto).
  assert (size ≤ 64) as Hsz by (unfold size; lia).
  assert (0 ≤ s < size - 1) as Hs by (unfold size in *; subst s; pose proof (Z.mod_pos_bound (Z.shiftr w 10) (2 ^ len)); lia).
  assert (0 ≤ r < size) as Hr' by (unfold size in *; subst r; apply Z.mod_pos_bound; lia).
  assert (width / size * size = width) as Hdiv.
  { assert (∃ k, 0 ≤ k ∧ width = 2 ^ k ∧ len ≤ k) as (k & Hk & -> & Hle).
    { destruct Hw' as [-> | ->]; [exists 5|exists 6]; (split; [lia|]; split; [done|]; apply (Z.pow_le_mono_r_iff 2); lia). }
    unfold size. rewrite <- Z.pow_sub_r by lia. rewrite <- Z.pow_add_r by lia. f_equal. lia. }
  destruct (cut_spec size e1) as [Hf2 Hb2]; [lia|by apply element_fits|]. fold e2 in Hf2, Hb2.
  assert (∀ i, 0 ≤ i → Z.testbit m i = (i <? width) && ((i mod size + r) mod size <=? s)) as Hbits.
  { intros i Hi. unfold m. rewrite spread_spec by (try done; rewrite ?Z2Nat.id by (apply Z.div_pos; lia); lia).
    rewrite Z2Nat.id by (apply Z.div_pos; lia). rewrite Z.bits_0, Z.add_0_l, Z.sub_0_r, Hdiv. cbn [orb].
    assert ((0 <=? i) = true) as -> by lia. cbn [andb]. f_equal. rewrite Hb2 by (by apply Z.mod_pos_bound).
    unfold e1, e. apply rotate_spec; try done; try lia. by apply Z.mod_pos_bound. }
  split.
  - apply fits_bits; [lia|]. split; [by apply spread_nonneg|]. intros i Hi. rewrite Hbits by lia. assert ((i <? width) = false) as -> by lia. done.
  - intros i Hi. rewrite Hbits by lia. done.
Qed.

Lemma land_low v len : 0 ≤ len → Z.land v (2 ^ len - 1) = v mod 2 ^ len.
Proof. intros Hl. rewrite <- Z.land_ones by done. f_equal. rewrite Z.ones_equiv. lia. Qed.

Lemma low_low v len : 0 ≤ len ≤ 6 → (v mod 2 ^ 6) mod 2 ^ len = v mod 2 ^ len.
Proof.
  intros Hl. apply Z.mod_mod_divide. exists (2 ^ (6 - len)). rewrite <- Z.pow_add_r by lia. f_equal. lia.
Qed.

(** The decoder on the fields. *)
Lemma logical_mask_fields w :
  fits 32 w →
  match logical_mask w with
  | Some m => ∃ width len s r, mask_fields w width len s r ∧ fits 64 m ∧ ∀ i, 0 ≤ i < 64 → Z.testbit m i = mask_bit width len s r i
  | None => ∀ width len s r, ¬ mask_fields w width len s r
  end.
Proof.
  intros Hw. unfold logical_mask. rewrite top_bit by done.
  assert (∀ v, Z.land v 63 = v mod 2 ^ 6) as H63 by (intros v; by apply (land_low v 6)).
  rewrite (H63 (Z.shiftr w 10)), (H63 (Z.shiftr w 16)), (land_low _ 1) by lia.
  set (n := Z.shiftr w 22 mod 2 ^ 1). set (s := Z.shiftr w 10 mod 2 ^ 6). set (width := if Z.testbit w 31 then 64 else 32).
  assert (n = b2z (Z.testbit w 22)) as Hn.
  { unfold n. rewrite Z.testbit_odd, Zmod_odd. by destruct (Z.odd _). }
  assert (0 ≤ s < 64) as Hs by (apply Z.mod_pos_bound; lia).
  assert (n = 0 ∨ n = 1) as Hn' by (rewrite Hn; destruct (Z.testbit w 22); auto).
  set (len := Z.log2 (64 * n + (63 - s))).
  assert (0 ≤ len ≤ 6) as Hlen.
  { split; [apply Z.log2_nonneg|]. apply (Z.log2_le_mono (64 * n + (63 - s)) 127). lia. }
  assert (∀ width' len' s' r', mask_fields w width' len' s' r' →
    width' = width ∧ len' = len ∧ s' = s mod 2 ^ len ∧ r' = Z.shiftr w 16 mod 2 ^ len ∧ 1 ≤ len ∧ 2 ^ len ≤ width ∧ s' < 2 ^ len - 1) as Hf.
  { intros width' len' s' r' [-> Ht [H1 H2] [H3 H4] H5]. rewrite <- Hn in Ht. change (len' = len) in Ht. subst len'.
    unfold s. rewrite low_low by done. done. }
  destruct ((width =? 32) && nz n) eqn:E1.
  { intros width' len' s' r' Hm. destruct (Hf _ _ _ _ Hm) as (_ & _ & _ & _ & _ & Hle & _).
    apply andb_true_iff in E1 as [E1 E2%nz_true]. assert (n = 1) as -> by lia.
    assert (len = 6) as E6 by (unfold len; apply Z.log2_unique; lia). rewrite E6 in Hle. lia. }
  rewrite tag_value by done. rewrite tag_length_spec by (change (2 ^ Z.of_nat 8) with 256; lia).
  cbn [mbind option_bind]. rewrite Z.add_0_l. fold len. rewrite !Z.shiftl_1_l, !land_low, low_low by lia.
  destruct (Z.ltb_spec len 1) as [L1|L1]; [intros width' len' s' r' Hm; destruct (Hf _ _ _ _ Hm); lia|].
  destruct (_ || _) eqn:E2.
  { intros width' len' s' r' Hm. destruct (Hf _ _ _ _ Hm) as (_ & _ & -> & _ & _ & Hle & Hlt). lia. }
  assert (0 < 2 ^ len) as Hpos by (apply Z.pow_pos_nonneg; lia). pose proof (Z.mod_pos_bound s (2 ^ len) Hpos) as Hsm.
  assert (mask_fields w width len (s mod 2 ^ len) (Z.shiftr w 16 mod 2 ^ len)) as Hm.
  { constructor; [done|unfold len; by rewrite Hn|lia| |done]. split; [unfold s; by rewrite low_low|lia]. }
  assert (2 ^ len ≤ 64) by (destruct Hm; unfold width in *; destruct (Z.testbit w 31); lia).
  rewrite ones_element by lia. exists width, len, (s mod 2 ^ len), (Z.shiftr w 16 mod 2 ^ len). split; [exact Hm|].
  apply (spread_mask w width len _ _ Hm).
Qed.

Lemma logical_mask_fits w m : fits 32 w → logical_mask w = Some m → fits (if Z.testbit w 31 then 64 else 32) m.
Proof.
  intros Hw Hm. pose proof (logical_mask_fields w Hw) as H. rewrite Hm in H. destruct H as (width & len & s & r & Hf & Hfit & Hbits).
  rewrite <- (mf_width _ _ _ _ _ Hf). assert (0 ≤ width) as Hn by (rewrite (mf_width _ _ _ _ _ Hf); by destruct (Z.testbit w 31)).
  apply fits_bits; [done|]. split; [unfold fits in Hfit; lia|]. intros i Hi. destruct (Z_lt_le_dec i 64).
  - rewrite Hbits by lia. unfold mask_bit. by rewrite (proj2 (Z.ltb_ge _ _)) by lia.
  - apply (fits_testbit_high 64); done || lia.
Qed.

(** C17. The bitmask immediates: the decoder accepts exactly the encodings whose fields
    describe a mask, its loop terminates, and bit [i] of the mask is the one the
    architecture gives: elements of [2 ^ len] bits, [s + 1] ones rotated right by [r],
    repeated over the register width. *)
Theorem logical_mask_spec w :
  fits 32 w →
  match logical_mask w with
  | Some m => ∃ width len s r, mask_fields w width len s r ∧ fits 64 m ∧ ∀ i, 0 ≤ i < 64 → Z.testbit m i = mask_bit width len s r i
  | None => ∀ width len s r, ¬ mask_fields w width len s r
  end.
Proof. exact (logical_mask_fields w). Qed.

Lemma logical_mask_spec_witness :
  fits 32 0x92401000 ∧
  match logical_mask 0x92401000 with
  | Some m => ∃ width len s r, mask_fields 0x92401000 width len s r ∧ fits 64 m ∧
      ∀ i, 0 ≤ i < 64 → Z.testbit m i = mask_bit width len s r i
  | None => ∀ width len s r, ¬ mask_fields 0x92401000 width len s r
  end.
Proof. assert (fits 32 0x92401000) as Hw by (by vm_compute). split; [exact Hw|]. exact (logical_mask_spec 0x92401000 Hw). Defined.

(** Masks: one bit, a run, two repeated patterns, and a reserved encoding. *)
Example masks :
  (logical_mask 0x92400000, logical_mask 0x92401000, logical_mask 0x9200c000, logical_mask 0x9201f000, logical_mask 0x1241fc00)
  = (Some 1, Some 0x1f, Some 0x0101010101010101, Some 0xaaaaaaaaaaaaaaaa, None).
Proof. vm_compute. reflexivity. Qed.

(** ** The loads and stores *)

Definition shape_ok (d : memory_shape) : Prop :=
  (width d = 1 ∨ width d = 2 ∨ width d = 4 ∨ width d = 8) ∧
  (count d = 1 ∨ count d = 2 ∧ 4 ≤ width d) ∧ 0 ≤ rn d < 32 ∧ 0 ≤ rt d < 32 ∧ 0 ≤ rt2 d < 32 ∧ 0 ≤ rm d < 32 ∧
  (mode d = 1 ∨ mode d = 2 ∨ mode d = 3) ∧
  (mode d ≠ 2 → rn d ≠ 31 → rn d ≠ rt d ∧ (count d = 2 → rn d ≠ rt2 d)) ∧
  (read d = true → count d = 2 → rt d ≠ rt2 d) ∧
  -512 ≤ displacement d < 4096 * width d ∧
  (signed_load d = true → read d = true ∧ count d = 1 ∧ width d ≠ 8 ∧ (width d = 4 → result64 d = true)) ∧
  (shift d = 0 ∨ 2 ^ shift d = width d) ∧ (register_offset d = true → Z.testbit (option_ d) 1 = true).

Lemma masked v n : 0 ≤ n → fits n (Z.land v (2 ^ n - 1)).
Proof. intros Hn. rewrite land_low by done. by apply fits_wrap. Qed.

(** The signed displacements, for the two field widths used. *)
Lemma sext7_range v : 0 ≤ v < 128 → -64 ≤ sext v 7 < 64.
Proof.
  intros Hv. assert ((-64 <=? sext v 7) && (sext v 7 <? 64) = true); [|lia].
  apply (all_below 128 (λ v, (-64 <=? sext v 7) && (sext v 7 <? 64))); [by vm_compute|done].
Qed.

Lemma sext9_range v : 0 ≤ v < 512 → -256 ≤ sext v 9 < 256.
Proof.
  intros Hv. assert ((-256 <=? sext v 9) && (sext v 9 <? 256) = true); [|lia].
  apply (all_below 512 (λ v, (-256 <=? sext v 9) && (sext v 9 <? 256))); [by vm_compute|done].
Qed.

Lemma s32_small v : - 2 ^ 31 ≤ v < 2 ^ 31 → s32 v = v.
Proof.
  intros Hv. unfold s32. change (u32 v) with (v mod 2 ^ 32).
  destruct (Z.ltb_spec v 0).
  - assert (v mod 2 ^ 32 = v + 2 ^ 32) as -> by (symmetry; apply (Z.mod_unique v _ (-1)); lia).
    assert ((v + 2 ^ 32 <? 2 ^ 31) = false) as -> by lia. lia.
  - rewrite Z.mod_small by lia. assert ((v <? 2 ^ 31) = true) as -> by lia. done.
Qed.

(** A field of an instruction. *)
Lemma field_range v n m : 0 ≤ n → m = 2 ^ n - 1 → 0 ≤ Z.land v m < 2 ^ n.
Proof. intros Hn ->. by apply masked. Qed.

Lemma decode_pair_ok w d : decode_pair w = Some d → shape_ok d.
Proof.
  unfold decode_pair. pose proof (field_range (Z.shiftr w 5) 5 31 ltac:(lia) eq_refl) as H1.
  pose proof (field_range w 5 31 ltac:(lia) eq_refl) as H2. pose proof (field_range (Z.shiftr w 10) 5 31 ltac:(lia) eq_refl) as H3.
  pose proof (field_range (Z.shiftr w 23) 2 3 ltac:(lia) eq_refl) as H4.
  pose proof (sext7_range _ (field_range (Z.shiftr w 15) 7 127 ltac:(lia) eq_refl)) as H5.
  revert H1 H2 H3 H4 H5. generalize (Z.land (Z.shiftr w 5) 31) (Z.land w 31) (Z.land (Z.shiftr w 10) 31)
    (Z.land (Z.shiftr w 23) 3) (sext (Z.land (Z.shiftr w 15) 127) 7) (nz (Z.land (Z.shiftr w 22) 1))
    (nz (Z.land w (Z.shiftl 1 26))) (Z.shiftr w 30).
  intros rn0 rt0 rt20 md dsp rd v26 opc H1 H2 H3 H4 H5. destruct (_ || _) eqn:E; [done|]. intros [= <-].
  rewrite !orb_false_iff, !andb_false_iff, !negb_false_iff, !orb_false_iff in E.
  destruct E as ((((_ & Eo) & Em) & Ew) & Er).
  assert (∀ k, k = 4 ∨ k = 8 → -512 ≤ s32 (dsp * k) < 4096 * k) as Hd.
  { intros k Hk. rewrite s32_small by (destruct Hk as [-> | ->]; lia). destruct Hk as [-> | ->]; lia. }
  unfold shape_ok. cbn. split_and!; try done; try (destruct (opc =? 2); lia); try lia.
  all: destruct (opc =? 2); apply Hd; lia.
Qed.

Lemma size_width v : 0 ≤ v < 4 → let width := Z.shiftl 1 v in
  (width = 1 ∨ width = 2 ∨ width = 4 ∨ width = 8) ∧ width = 2 ^ v ∧ (width = 4 → v = 2) ∧ (width = 8 → v = 3).
Proof. intros Hv. assert (v = 0 ∨ v = 1 ∨ v = 2 ∨ v = 3) as [-> | [-> | [-> | ->]]] by lia; vm_compute; intuition discriminate. Qed.

Lemma land_testbit w m v n : Z.land w m = v → Z.testbit m n = true → Z.testbit w n = Z.testbit v n.
Proof. intros <- Hm. by rewrite Z.land_spec, Hm, andb_true_r. Qed.

Lemma writeback_mode w : scalar_writeback_family w = true → Z.land (Z.shiftr w 10) 3 = 1 ∨ Z.land (Z.shiftr w 10) 3 = 3.
Proof.
  intros Hf%Z.eqb_eq. pose proof (land_testbit _ _ _ 10 Hf eq_refl) as Hb. change (Z.testbit w 10 = true) in Hb.
  rewrite Z.testbit_odd, (Zodd_mod (Z.shiftr w 10)) in Hb. apply Z.eqb_eq in Hb. rewrite land_3_mod. dlia.
Qed.

Lemma decode_single_ok w d : fits 32 w → decode_single w = Some d → shape_ok d.
Proof.
  intros Hw. unfold decode_single. pose proof (field_range (Z.shiftr w 5) 5 31 ltac:(lia) eq_refl) as H1.
  pose proof (field_range w 5 31 ltac:(lia) eq_refl) as H2. pose proof (field_range (Z.shiftr w 16) 5 31 ltac:(lia) eq_refl) as H3.
  pose proof (field_range (Z.shiftr w 10) 12 4095 ltac:(lia) eq_refl) as H4.
  pose proof (sext9_range _ (field_range (Z.shiftr w 12) 9 511 ltac:(lia) eq_refl)) as H5.
  pose proof (field_range (Z.shiftr w 22) 2 3 ltac:(lia) eq_refl) as H6.
  assert (0 ≤ Z.shiftr w 30 < 4) as H7.
  { unfold fits in Hw. rewrite Z.shiftr_div_pow2 by lia. split; [apply Z.div_pos; lia|apply Z.div_lt_upper_bound; lia]. }
  pose proof (size_width _ H7) as (Hw1 & Hw2 & Hw3 & Hw4).
  assert (scalar_writeback_family w = true → Z.land (Z.shiftr w 10) 3 = 1 ∨ Z.land (Z.shiftr w 10) 3 = 3) as Hm by apply writeback_mode.
  assert (∀ v, nz (Z.land v 2) = Z.testbit v 1) as Ho by (intros v; by apply (land_bit_nz v 1)).
  rewrite Ho. clear Hw Ho.
  revert H1 H2 H3 H4 H5 H6 H7 Hw1 Hw2 Hw3 Hw4 Hm. generalize (Z.land (Z.shiftr w 5) 31) (Z.land w 31) (Z.land (Z.shiftr w 16) 31)
    (Z.land (Z.shiftr w 10) 4095) (sext (Z.land (Z.shiftr w 12) 511) 9) (Z.land (Z.shiftr w 22) 3) (Z.shiftr w 30)
    (Z.land (Z.shiftr w 13) 7) (Z.land (Z.shiftr w 10) 3) (register_offset_family w) (unscaled_offset_family w)
    (scalar_writeback_family w) (nz (Z.land w (Z.shiftl 1 26))) (nz (Z.land w (Z.shiftl 1 12))).
  intros rn0 rt0 rm0 imm dsp opc size opt md byreg unsc wb v26 v12 H1 H2 H3 H4 H5 H6 H7 Hw1 Hw2 Hw3 Hw4 Hm.
  cbv zeta in Hw1, Hw2, Hw3, Hw4. set (wd := Z.shiftl 1 size) in *. clearbody wd.
  destruct (byreg && negb _) eqn:E1; [done|]. destruct (_ || _) eqn:E2; [done|].
  destruct (wb && _ && _) eqn:E3; [done|]. intros [= <-].
  assert (-512 ≤ s32 dsp < 4096 * wd) as Hd1 by (rewrite s32_small; lia).
  assert (-512 ≤ s32 (imm * wd) < 4096 * wd) as Hd2.
  { rewrite s32_small; destruct Hw1 as [-> | [-> | [-> | ->]]]; lia. }
  unfold shape_ok. cbn. split_and!; try done; try lia.
  - by destruct (unsc || wb), byreg; cbn [negb]; lia.
  - by destruct (unsc || wb), byreg; cbn [negb]; lia.
  - by destruct (byreg && v12); auto.
Qed.

Lemma decode_ok w d : fits 32 w → decode_memory w = Some d → shape_ok d.
Proof.
  intros Hw. unfold decode_memory. destruct (_ =? 0x28000000); [by apply decode_pair_ok|].
  destruct (_ || _); [by apply decode_single_ok|done].
Qed.

(** ** Two decoders of one instruction set *)

(** The bits that tell the loads and stores apart. *)
Definition class_bits := 0xffe07c00.

(** What the decoder here accepts is what the recorder of exceptions takes for a load or
    store of the same class and direction. *)
Definition same_class (w : Z) : bool :=
  let pair := Z.land w 0x3a000000 =? 0x28000000 in
  let single := (Z.land w 0x3b000000 =? 0x39000000) || register_offset_family w || unscaled_offset_family w
                || scalar_writeback_family w in
  let vector := nz (Z.land w (Z.shiftl 1 26)) in
  let opc := Z.land (Z.shiftr w 22) 3 in
  let size := Z.shiftr w 30 in
  implb (pair && negb vector)
    (is_pair w && negb (is_scalar w) && Bool.eqb (nz (Z.land w 0x400000)) (nz (Z.land (Z.shiftr w 22) 1))) &&
  implb (negb pair && single && negb vector && implb (register_offset_family w) (nz (Z.land (Z.land (Z.shiftr w 13) 7) 2))
         && negb ((2 <=? opc) && ((size =? 3) || (opc =? 3) && (size =? 2))))
    (is_scalar w && negb (is_pair w) && Bool.eqb (nz (Z.land w 0xc00000)) (negb (opc =? 0))).

Lemma class_land w m : Z.land class_bits m = m → Z.land (Z.land w class_bits) m = Z.land w m.
Proof. intros Hm. by rewrite <- Z.land_assoc, Hm. Qed.

Lemma class_shiftr w n m : 0 ≤ n → Z.land (Z.shiftr class_bits n) m = m →
  Z.land (Z.shiftr (Z.land w class_bits) n) m = Z.land (Z.shiftr w n) m.
Proof. intros Hn Hm. by rewrite Z.shiftr_land, <- Z.land_assoc, Hm. Qed.

Lemma class_size w : fits 32 w → Z.shiftr (Z.land w class_bits) 30 = Z.shiftr w 30.
Proof.
  intros Hw. rewrite Z.shiftr_land. change (Z.shiftr class_bits 30) with (2 ^ 2 - 1). rewrite land_low by lia.
  apply Z.mod_small. unfold fits in Hw. rewrite Z.shiftr_div_pow2 by lia.
  split; [apply Z.div_pos; lia|apply Z.div_lt_upper_bound; lia].
Qed.

Lemma same_class_bits w : fits 32 w → same_class w = same_class (Z.land w class_bits).
Proof.
  intros Hw. unfold same_class, is_pair, is_scalar, register_offset_family, unscaled_offset_family, scalar_writeback_family.
  rewrite <- !(Z.land_assoc _ 7 2). change (Z.land 7 2) with 2.
  rewrite !class_size by done. repeat (rewrite class_land by reflexivity). repeat (rewrite class_shiftr by (lia || reflexivity)). done.
Qed.

(** Sixteen bits: all of them are tried. *)
Lemma class_word w : fits 32 w →
  Z.land w class_bits = Z.shiftr w 21 * 2 ^ 21 + Z.shiftr w 10 mod 2 ^ 5 * 2 ^ 10.
Proof.
  intros Hw. change class_bits with (Z.lor (Z.shiftl (Z.ones 11) 21) (Z.shiftl (Z.ones 5) 10)).
  apply Z.bits_inj'. intros i Hi. rewrite <- Z.land_ones by lia. rewrite <- !Z.shiftl_mul_pow2 by lia.
  rewrite <- lor_add.
  - rewrite Z.land_lor_distr_r, !Z.lor_spec, !Z.land_spec, !Z.shiftl_spec, Z.land_spec by lia.
    f_equal.
    + destruct (decide (i < 21)); [by rewrite !(Z.testbit_neg_r _ (i - 21)) by lia; rewrite andb_false_r|].
      rewrite Z.shiftr_spec, ones_testbit by lia. replace (i - 21 + 21) with i by lia. destruct (Z.ltb_spec (i - 21) 11); [by rewrite andb_true_r|].
      by rewrite (fits_testbit_high 32 w i) by (done || lia).
    + destruct (decide (i < 10)); [by rewrite !(Z.testbit_neg_r _ (i - 10)) by lia; rewrite andb_false_r|].
      rewrite Z.shiftr_spec by lia. by replace (i - 10 + 10) with i by lia.
  - apply Z.bits_inj'. intros j Hj. rewrite Z.land_spec, Z.bits_0, !Z.shiftl_spec, Z.land_spec by lia.
    destruct (decide (j < 21)); [by rewrite (Z.testbit_neg_r _ (j - 21)) by lia|].
    rewrite (ones_testbit 5) by lia. assert ((j - 10 <? 5) = false) as -> by lia. by rewrite !andb_false_r.
Qed.

Lemma same_class_all w : fits 32 w → same_class w = true.
Proof.
  intros Hw. rewrite same_class_bits, class_word by done.
  assert (0 ≤ Z.shiftr w 21 < 2048) as Hh.
  { unfold fits in Hw. rewrite Z.shiftr_div_pow2 by lia. split; [apply Z.div_pos; lia|apply Z.div_lt_upper_bound; lia]. }
  assert (0 ≤ Z.shiftr w 10 mod 2 ^ 5 < 32) as Hl by (apply Z.mod_pos_bound; lia).
  revert Hl Hh. generalize (Z.shiftr w 10 mod 2 ^ 5) (Z.shiftr w 21). intros l h Hl Hh.
  apply (all_below 32 (λ l, same_class (h * 2 ^ 21 + l * 2 ^ 10))); [|done].
  apply (all_below 2048 (λ h, forallb (λ l, same_class (h * 2 ^ 21 + l * 2 ^ 10)) (seqZ 0 (Z.of_nat 32)))); [|done].
  by vm_compute.
Qed.

(** What the decoder found, in the terms of [same_class]. *)
Lemma read_of (s d : memory_shape) : Some s = Some d → read s = read d.
Proof. intros Hs. by injection Hs as <-. Qed.

Lemma decoded_class w d : fits 32 w → decode_memory w = Some d →
  (is_pair w = true ∧ is_scalar w = false ∧ nz (Z.land w 0x400000) = read d) ∨
  (is_pair w = false ∧ is_scalar w = true ∧ nz (Z.land w 0xc00000) = read d).
Proof.
  intros Hw Hd. pose proof (same_class_all w Hw) as Hc. unfold same_class in Hc. unfold decode_memory in Hd.
  apply andb_true_iff in Hc as [Hp Hs]. destruct (Z.land w 0x3a000000 =? 0x28000000) eqn:Epair.
  - left. clear Hs. revert Hp Hd. unfold decode_pair. destruct (nz (Z.land w (Z.shiftl 1 26))); cbn [andb negb implb orb]; [done|].
    rewrite !andb_true_iff, negb_true_iff. intros [[H1 H2] H3%Bool.eqb_prop] Hd. split; [done|]. split; [done|]. rewrite H3.
    revert Hd. destruct (_ || _); [done|]. apply read_of.
  - right. clear Hp. revert Hs Hd. destruct (_ || scalar_writeback_family w); cbn [andb negb implb]; [|done].
    unfold decode_single. destruct (nz (Z.land w (Z.shiftl 1 26))); cbn [andb negb implb orb]; [by destruct (_ && negb _)|].
    destruct (register_offset_family w); cbn [andb negb implb].
    + destruct (nz (Z.land (Z.land (Z.shiftr w 13) 7) 2)); cbn [negb implb]; [|done].
      destruct (_ && (_ || _)); cbn [andb negb implb]; [done|]. rewrite !andb_true_iff, negb_true_iff.
      intros [[H1 H2] H3%Bool.eqb_prop] Hd. split; [done|]. split; [done|]. rewrite H3. revert Hd. destruct (_ && _); [done|]. apply read_of.
    + destruct (_ && (_ || _)); cbn [andb negb implb]; [done|]. rewrite !andb_true_iff, negb_true_iff.
      intros [[H1 H2] H3%Bool.eqb_prop] Hd. split; [done|]. split; [done|]. rewrite H3. revert Hd. destruct (_ && _); [done|]. apply read_of.
Qed.

(** The two decoders agree: for every word that decodes as a load or store, the
    syndrome the exception recorder computes from the word for a data abort or an
    alignment fault names the class by level, has IL set, and its WnR bit says whether
    the decoded operation writes. *)
Theorem syndrome_matches_decoder w d kind el pc_ :
  fits 32 w → decode_memory w = Some d →
  kind = VF_EXCEPTION_DATA_ABORT ∨ kind = VF_EXCEPTION_ALIGNMENT_FAULT →
  Cpu.exception_syndrome kind el pc_ w =
  Some ((if el =? 0 then 0x24 else 0x25) * 2 ^ 26 + 2 ^ 25 + (if read d then 0 else 64)
        + (if kind =? VF_EXCEPTION_ALIGNMENT_FAULT then 0x21 else 7)).
Proof.
  intros Hw Hd Hk. unfold Cpu.exception_syndrome.
  destruct (decoded_class w d Hw Hd) as [(-> & -> & ->)|(-> & -> & ->)]; destruct Hk as [-> | ->]; cbn [switch];
    change VF_EL0 with 0; destruct (el =? 0), (read d); vm_compute; done.
Qed.

(** [str w3, [x8, #-4]!] *)
Definition sample_shape : memory_shape :=
  {| width := 4; count := 1; read := false; signed_load := false; result64 := false; mode := 3; rn := 8; rt := 3; rt2 := 0;
     displacement := -4; register_offset := false; rm := 0; option_ := 0; shift := 0 |}.

Lemma syndrome_matches_decoder_witness :
  decode_memory 0xb81fcd03 = Some sample_shape ∧
  Cpu.exception_syndrome VF_EXCEPTION_DATA_ABORT 1 0x1000 0xb81fcd03 = Some (0x25 * 2 ^ 26 + 2 ^ 25 + 64 + 7).
Proof.
  assert (decode_memory 0xb81fcd03 = Some sample_shape) as Hd by (vm_compute; reflexivity). split; [exact Hd|].
  apply (syndrome_matches_decoder 0xb81fcd03 sample_shape VF_EXCEPTION_DATA_ABORT 1 0x1000); [by vm_compute|exact Hd|by left].
Defined.

(** C40. Decoded loads and stores are well formed: the access size and count are
    supported, the registers exist, the base is not written back over a transferred
    register, the displacement is in range of the encoding. *)
Theorem decode_memory_shape w d : fits 32 w → decode_memory w = Some d → shape_ok d.
Proof. exact (decode_ok w d). Qed.

Lemma decode_memory_shape_witness : decode_memory 0xb81fcd03 = Some sample_shape ∧ shape_ok sample_shape.
Proof.
  assert (decode_memory 0xb81fcd03 = Some sample_shape) as Hd by (vm_compute; reflexivity). split; [exact Hd|].
  apply (decode_memory_shape 0xb81fcd03); [by vm_compute|exact Hd].
Defined.

End Insn.
