(* ===== verification/Steps.v ===== *)
(** The instructions the dispatcher interprets itself ([runtime/jit.c],
    [runtime/memory_stage1.inc]): system-register moves, the interrupt mask and stack
    selection, and pointer authentication through a callback.

    A step answers whether it took the instruction.  [None] is an index outside a bank of
    the processor state.  The callback is an argument; it works on a copy of the
    registers. *)
From S2P Require Import Prelude.
From S2P Require Import Words.
From S2P Require Import Mmio.
From S2P Require Import Cpu.
From S2P Require Import Insn.

Module Steps.
Import Cpu.
Import Cpu.F.
Import Insn.

(** [cpu->pc += 4; cpu->retired++; vf_cpu_advance_counter(cpu, 1);] *)
Definition count_one (c : vf_cpu) : vf_cpu :=
  let c := c.[retired := u64 (c retired + 1)] in
  default c (vf_cpu_advance_counter (Some c) 1).
Definition retire (c : vf_cpu) : vf_cpu := count_one (c.[pc := u64 (c pc + 4)]).

(** ** System registers *)

Definition system_register_slow_step (c : vf_cpu) : bool * vf_cpu :=
  let w := c instruction in
  if negb (is_mrs_msr w) then (false, c)
  else
    let key := sysreg_key w in
    let rt := Z.land w 31 in
    if nz (Z.land w 0x00200000) then
      match vf_cpu_read_sysreg (Some c) key true with
      | (0, Some value) => (true, retire (if rt =? 31 then c else c.[x rt := value]))
      | _ => (false, c)
      end
    else
      match vf_cpu_write_sysreg (Some c) key (if rt =? 31 then 0 else c (x rt)) with
      | (0, Some c) => (true, retire c)
      | (_, p) => (false, default c p)
      end.

Definition system_register_read_slow_step (c : vf_cpu) : bool * vf_cpu :=
  if negb (is_mrs_msr (c instruction)) || negb (nz (Z.land (c instruction) 0x00200000)) then (false, c)
  else system_register_slow_step c.

Definition platform_override_write_slow_step (c : vf_cpu) : bool * vf_cpu :=
  if negb (is_mrs_msr (c instruction)) || nz (Z.land (c instruction) 0x00200000)
     || negb (sysreg_key (c instruction) =? VF_PLATFORM_OVERRIDE_KEY) then (false, c)
  else system_register_slow_step c.

Definition fp_access_control_write_slow_step (c : vf_cpu) : bool * vf_cpu :=
  if negb (is_mrs_msr (c instruction)) || nz (Z.land (c instruction) 0x00200000)
     || negb (sysreg_key (c instruction) =? VF_SYSREG_KEY_CPACR_EL1) then (false, c)
  else system_register_slow_step c.

Definition research_system_register_failure (c : vf_cpu) (st : Z) : Z :=
  if (st =? VF_SYSTEM_REGISTER_TRAP) && (c fp_execution_profile =? VF_FP_EXECUTION_PARTIAL)
     && (c current_el =? VF_EL1) && is_mrs_msr (c instruction)
     && (sysreg_key (c instruction) =? VF_SYSREG_KEY_CPACR_EL1)
  then VF_IMPLEMENTATION_GAP else st.

Definition memory_control_read_v2 (c : vf_cpu) : bool * vf_cpu :=
  let w := c instruction in
  if negb (is_mrs_msr w) || negb (nz (Z.land w 0x00200000)) then (false, c)
  else
    let key := sysreg_key w in
    if negb (key =? VF_SYSREG_KEY_SCTLR_EL1) && negb (key =? VF_SYSREG_KEY_TTBR0_EL1)
       && negb (key =? VF_SYSREG_KEY_TTBR1_EL1) && negb (key =? VF_SYSREG_KEY_TCR_EL1)
       && negb (key =? VF_SYSREG_KEY_MAIR_EL1) then (false, c)
    else
      match vf_cpu_read_sysreg (Some c) key true with
      | (0, Some value) => (true, retire (if Z.land w 31 =? 31 then c else c.[x (Z.land w 31) := value]))
      | _ => (false, c)
      end.

(** ** The interrupt mask and the stack pointer *)

(** [MSR SPSel, #imm]: the stack pointer in use is put away in its bank, the other one
    taken out. *)
Definition select_stack (c : vf_cpu) (own word : Z) : option vf_cpu :=
  let old := if nz (Z.land (c pstate) 1) then own else VF_EL0 in
  c ← el_set c sp_el old (c sp);
  let c := c.[pstate := Z.lor (Z.land (c pstate) (bnot 64 1)) (Z.land (Z.shiftr word 8) 1)] in
  v ← el_get c sp_el (if nz (Z.land (c pstate) 1) then own else VF_EL0);
  Some (c.[sp := v]).

Definition pstate_slow_step (c : vf_cpu) : option (bool * vf_cpu) :=
  let w := c instruction in
  if (c current_el =? VF_EL0) || nz (Z.land (c sctlr) 1) then Some (false, c)
  else if (Z.land w 0xfffff0ff =? 0xd50340df) || (Z.land w 0xfffff0ff =? 0xd50340ff) then
    let mask := Z.shiftl (Z.land (Z.shiftr w 8) 15) 6 in
    Some (true, retire (c.[pstate := if Z.land w 255 =? 0xdf then Z.lor (c pstate) mask
                                     else Z.land (c pstate) (bnot 64 mask)]))
  else if Z.land w 0xfffffeff =? 0xd50040bf then
    c ← select_stack c (c current_el) w; Some (true, retire c)
  else Some (false, c).

Definition stack_select_immutable_step (c : vf_cpu) : option (bool * vf_cpu) :=
  let w := c instruction in
  if negb (c current_el =? VF_EL1) || negb (Z.land w 0xfffffeff =? 0xd50040bf) then Some (false, c)
  else c ← select_stack c VF_EL1 w; Some (true, retire c).

(** ** Pointer authentication *)

Record vf_pauth_context := {
  p_x : list Z; p_sp : Z; p_pc : Z; p_sctlr : Z; p_tcr : Z; p_keys : list (list Z); p_current_el : Z; p_reserved : Z;
}.
Definition vf_pauth_step := vf_pauth_context → Z → Z * vf_pauth_context.

Definition pauth_context (c : vf_cpu) : vf_pauth_context :=
  {| p_x := (λ i, c (x i)) <$> seqZ 0 31; p_sp := c sp; p_pc := c pc; p_sctlr := c sctlr; p_tcr := c tcr;
     p_keys := (λ i, (λ j, c (pauth_keys i j)) <$> seqZ 0 2) <$> seqZ 0 5; p_current_el := c current_el; p_reserved := 0 |}.

(** [for (i = 0; i < 31; i++) cpu->x[i] = context.x[i];] and the same for the keys. *)
Fixpoint put_x (c : vf_cpu) (i : Z) (vs : list Z) : vf_cpu :=
  match vs with [] => c | v :: vs => put_x (c.[x i := v]) (i + 1) vs end.
Fixpoint put_key (c : vf_cpu) (i j : Z) (vs : list Z) : vf_cpu :=
  match vs with [] => c | v :: vs => put_key (c.[pauth_keys i j := v]) i (j + 1) vs end.
Fixpoint put_keys (c : vf_cpu) (i : Z) (ks : list (list Z)) : vf_cpu :=
  match ks with [] => c | k :: ks => put_keys (put_key c i 0 k) (i + 1) ks end.

Definition pauth_slow_step (step : option vf_pauth_step) (c : vf_cpu) : bool * vf_cpu :=
  match step with
  | None => (false, c)
  | Some step =>
    if (VF_EL1 <? c current_el) || nz (Z.land (c sctlr) 1) || nz (c hcr_el2) || nz (c scr_el3) then (false, c)
    else
      let '(rc, k) := step (pauth_context c) (c instruction) in
      if nz rc then (false, c)
      else
        let c := put_keys (put_x c 0 (p_x k)) 0 (p_keys k) in
        let c := c.[sp := p_sp k].[pc := p_pc k].[sctlr := p_sctlr k].[tcr := p_tcr k] in
        (true, count_one c)
  end.

Definition pauth_immutable_step (step : option vf_pauth_step) (c : vf_cpu) : bool * vf_cpu :=
  match step with
  | None => (false, c)
  | Some step =>
    if negb (c current_el =? VF_EL1) then (false, c)
    else
      let '(rc, k) := step (pauth_context c) (c instruction) in
      if nz rc || negb (p_sctlr k =? c sctlr) || negb (p_tcr k =? c tcr) || negb (p_current_el k =? c current_el)
         || nz (p_reserved k) then (false, c)
      else
        let c := put_keys (put_x c 0 (p_x k)) 0 (p_keys k) in
        let c := c.[sp := p_sp k].[pc := p_pc k] in
        (true, count_one c)
  end.

(** ** Lemmas *)

Lemma advance_ok c t : cpu_ok c → fits 64 t → ∃ c', vf_cpu_advance_counter (Some c) t = Some c' ∧ cpu_ok c'.
Proof.
  intros Hc Ht. destruct (cpu_step_ok c (Advance t) Hc Ht) as (rc & c' & Hs & Hok).
  exists c'. split; [|done]. exact (f_equal (λ o, (default (0, None) o).2) Hs).
Qed.

Lemma count_one_ok c : cpu_ok c → cpu_ok (count_one c).
Proof.
  intros Hc. unfold count_one. set (c1 := c.[retired := u64 (c retired + 1)]).
  assert (cpu_ok c1) as H1 by (apply inert_ok; try done; by apply fits_wrap).
  destruct (advance_ok c1 1 H1) as (c' & -> & Hok); [by vm_compute|done].
Qed.

Lemma retire_ok c : cpu_ok c → cpu_ok (retire c).
Proof. intros Hc. unfold retire. apply count_one_ok, inert_ok; try done. by apply fits_wrap. Qed.

(** The fields that counting a retired instruction moves. *)
Definition counters (f : field) : bool :=
  match f with retired | cntpct | cntvct | cntp_ctl | cntv_ctl | cntp_tval => true | _ => false end.

Lemma counters_ne f g : counters f = true → counters g = false → F.eqb f g = false.
Proof. intros Hf Hg. destruct (F.eqb f g) eqn:E; [|done]. apply eqb_eq in E as <-. congruence. Qed.

Lemma count_one_frame c f : counters f = false → count_one c f = c f.
Proof.
  intros Hf. unfold count_one. cbn [vf_cpu_advance_counter default from_option id]. unfold update_timer_status.
  repeat case_match; cbn [upd]; by rewrite !counters_ne.
Qed.

Lemma count_one_retired c : count_one c retired = u64 (c retired + 1).
Proof.
  unfold count_one. cbn [vf_cpu_advance_counter default from_option id]. unfold update_timer_status. by repeat case_match.
Qed.

Lemma retire_frame c f : counters f = false → F.eqb pc f = false → retire c f = c f.
Proof. intros Hf Hp. unfold retire. rewrite count_one_frame by done. cbn [upd]. by rewrite Hp. Qed.

(** A retired instruction: counted, and the next one is up. *)
Definition retires (c c' : vf_cpu) : Prop := c' retired = u64 (c retired + 1) ∧ c' pc = u64 (c pc + 4).

Lemma retire_retires c c1 : c1 retired = c retired → c1 pc = c pc → retires c (retire c1).
Proof.
  intros Hr Hp. unfold retire. split; [rewrite count_one_retired; fields; by rewrite Hr|].
  rewrite count_one_frame by done. fields. by rewrite Hp.
Qed.

(** The outcome of a step that retires one instruction or none. *)
Definition interprets (c : vf_cpu) (took : bool) (c' : vf_cpu) : Prop :=
  cpu_ok c' ∧ if took then retires c c' else c' = c.

Lemma save_x_ok c i v : cpu_ok c → fits 64 v → cpu_ok (if i =? 31 then c else c.[x i := v]).
Proof. intros Hc Hv. destruct (i =? 31); [done|]. by apply inert_ok. Qed.

Lemma x_fits c i (sp_ : bool) : cpu_ok c → fits 64 (memory_register c i sp_).
Proof. intros [Ht _]. unfold memory_register. destruct (i =? 31), sp_; [apply (Ht sp)|done|apply (Ht (x i))..]. Qed.

Lemma read_fits c key v : cpu_ok c → vf_cpu_read_sysreg (Some c) key true = (0, Some v) → fits 64 v.
Proof.
  intros Hc. assert (∀ f, fits (F.width f) (c f)) as Ht by apply Hc. unfold vf_cpu_read_sysreg.
  destruct (_ || negb _); [done|]. destruct (_ || _); [done|].
  destruct (key =? _).
  { destruct (negb _); [done|]. destruct (_ =? VF_EL0); [done|]. destruct (not_plain_el1 c); [done|]. intros [= <-]. apply (Ht cpacr_el1). }
  destruct (key =? _).
  { destruct (_ || _); [done|]. intros [= <-]. apply (Ht platform_override). }
  destruct (existsb _ _).
  { destruct (not_plain_el1 c); [done|]. intros [= <-]. by split_ifs. }
  destruct (_ <? 0); [done|]. destruct (_ <? _); [by destruct (_ =? _)|].
  destruct (switch key (read_cases c)) as [v'|] eqn:E; intros [= <-]. apply switch_in in E. unfold read_cases in E.
  rewrite !elem_of_cons in E. destruct_or!; try (by apply elem_of_nil in E); injection E as _ ->;
    first [apply fits_shl; lia|match goal with |- fits 64 (c ?f) => apply (Ht f) end].
Qed.

(** *** System registers *)

(** What a register move leaves alone. *)
Lemma write_pc c key v c' : fits 64 v → vf_cpu_write_sysreg (Some c) key v = (0, Some c') → c' retired = c retired ∧ c' pc = c pc.
Proof.
  intros Hv Hw. destruct (write_effect c key v c' Hv Hw) as (_ & _ & [(_ & _ & _ & _ & ->)|[(_ & _ & _ & ->)|
    (_ & _ & _ & c1 & f & _ & _ & Hf & _ & _ & _ & Hfr)]]); [done..|].
  apply switch_in in Hf. unfold key_fields in Hf. rewrite !elem_of_cons in Hf.
  destruct_or!; try (by apply elem_of_nil in Hf); injection Hf as -> ->; split; by apply Hfr.
Qed.

Lemma sysreg_step_ok c : cpu_ok c → let '(took, c') := system_register_slow_step c in interprets c took c'.
Proof.
  intros Hc. unfold system_register_slow_step. destruct (negb _); [done|]. destruct (nz _).
  - destruct (vf_cpu_read_sysreg (Some c) _ true) as [[|p|p] [v|]] eqn:E; try done.
    assert (cpu_ok (if Z.land (c instruction) 31 =? 31 then c else c.[x (Z.land (c instruction) 31) := v])) as Hok.
    { apply save_x_ok; [done|]. by eapply read_fits. }
    split; [by apply retire_ok|]. apply retire_retires; by destruct (_ =? 31).
  - set (v := if _ =? 31 then 0 else c _). assert (fits 64 v) as Hv by apply (x_fits c (Z.land (c instruction) 31) false Hc).
    destruct (cpu_write_ok c (sysreg_key (c instruction)) v Hc Hv) as (rc & c' & Hw & Hok & Hne). rewrite Hw.
    destruct rc as [|p|p]; [|by rewrite Hne..]. destruct (write_pc c _ v c' Hv Hw).
    split; [by apply retire_ok|]. by apply retire_retires.
Qed.

Lemma sysreg_read_step_ok c : cpu_ok c → let '(took, c') := system_register_read_slow_step c in interprets c took c'.
Proof. intros Hc. unfold system_register_read_slow_step. destruct (_ || _); [done|]. by apply sysreg_step_ok. Qed.

Lemma override_step_ok c : cpu_ok c → let '(took, c') := platform_override_write_slow_step c in interprets c took c'.
Proof. intros Hc. unfold platform_override_write_slow_step. destruct (_ || _); [done|]. by apply sysreg_step_ok. Qed.

Lemma fp_access_step_ok c : cpu_ok c → let '(took, c') := fp_access_control_write_slow_step c in interprets c took c'.
Proof. intros Hc. unfold fp_access_control_write_slow_step. destruct (_ || _); [done|]. by apply sysreg_step_ok. Qed.

Lemma control_read_ok c : cpu_ok c → let '(took, c') := memory_control_read_v2 c in interprets c took c'.
Proof.
  intros Hc. unfold memory_control_read_v2. destruct (negb _ || _); [done|]. destruct (_ && _); [done|].
  destruct (vf_cpu_read_sysreg (Some c) _ true) as [[|p|p] [v|]] eqn:E; try done.
  split; [apply retire_ok, save_x_ok; [done|by eapply read_fits]|]. apply retire_retires; by destruct (_ =? 31).
Qed.

(** *** The stack pointer *)

Lemma low_bit v : nz (Z.land v 1) = Z.odd v.
Proof. rewrite <- Z.bit0_odd. by apply (land_bit_nz v 0). Qed.

(** The mode keeps its level. *)
Lemma mode_select el v b : fits 64 v → 1 ≤ el → mode_ok el (Z.land v 0xf) → b = 0 ∨ b = 1 →
  mode_ok el (Z.land (Z.lor (Z.land v (bnot 64 1)) b) 0xf).
Proof.
  intros Hv Hel Hm Hb. assert (Z.land (Z.lor (Z.land v (bnot 64 1)) b) 0xf = Z.lor (Z.land (Z.land v 0xf) 0xe) b) as ->.
  { rewrite Z.land_lor_distr_l. f_equal; [|by destruct Hb as [-> | ->]]. rewrite land_bnot by (lia || done).
    rewrite <- Z.land_assoc. change (Z.land 15 14) with 14. apply Z.bits_inj'. intros i Hi.
    rewrite !Z.land_spec, Z.ldiff_spec. destruct (Z.testbit v i); [|done].
    destruct (decide (i < 4)); [|by rewrite !(fits_testbit_high 4 _ i) by (lia || by vm_compute); rewrite andb_false_r].
    assert (i = 0 ∨ i = 1 ∨ i = 2 ∨ i = 3) as Hi4 by lia. by destruct Hi4 as [-> | [-> | [-> | ->]]]. }
  unfold mode_ok in *. destruct Hb as [-> | ->];
    destruct Hm as [[-> _]|[[-> [-> | ->]]|[[-> [-> | ->]]|[-> [-> | ->]]]]]; vm_compute; lia.
Qed.

(** The state after selecting stack [b] (0 the shared one, 1 the own one), field by field. *)
Definition selected (c : vf_cpu) (own b : Z) : vf_cpu := λ f,
  let old := if Z.odd (c pstate) then own else 0 in
  let new := if b =? 0 then 0 else own in
  match f with
  | pstate => Z.lor (Z.land (c pstate) (bnot 64 1)) b
  | sp => if new =? old then c sp else c (sp_el new)
  | sp_el i => if i =? old then c sp else c (sp_el i)
  | _ => c f
  end.

Lemma low_bit_set v b : fits 64 v → b = 0 ∨ b = 1 → Z.odd (Z.lor (Z.land v (bnot 64 1)) b) = negb (b =? 0).
Proof.
  intros Hv Hb. rewrite <- Z.bit0_odd, Z.lor_spec, Z.land_spec, bnot_testbit by lia.
  change (Z.testbit 1 0) with true. cbn [negb]. rewrite !andb_false_r. by destruct Hb as [-> | ->].
Qed.

Lemma select_stack_spec c own word :
  cpu_ok c → own = c current_el → 1 ≤ own →
  ∃ c', select_stack c own word = Some c' ∧ cpu_ok c' ∧ ∀ f, c' f = selected c own (Z.land (Z.shiftr word 8) 1) f.
Proof.
  intros Hc Ho Hpos. pose proof (cpu_ok_valid c Hc) as Hv. pose proof (v_el c Hv) as He. pose proof (proj1 Hc pstate) as Hp. change (fits 64 (c pstate)) in Hp.
  set (b := Z.land (Z.shiftr word 8) 1). assert (b = 0 ∨ b = 1) as Hb.
  { pose proof (field_range (Z.shiftr word 8) 1 1 ltac:(lia) eq_refl). unfold b. lia. }
  unfold select_stack. rewrite low_bit. set (old := if Z.odd (c pstate) then own else VF_EL0).
  assert (0 ≤ old ≤ 3) as Hold by (unfold old, VF_EL0; destruct (Z.odd _); lia).
  rewrite el_set_in by done. cbn [mbind option_bind]. fields. fold b. rewrite low_bit, low_bit_set by done.
  set (new := if negb (b =? 0) then own else VF_EL0).
  assert (0 ≤ new ≤ 3) as Hnew by (unfold new, VF_EL0; destruct (negb _); lia). rewrite el_get_in by done. cbn [mbind option_bind].
  set (c1 := (c.[sp_el old := c sp]).[pstate := Z.lor (Z.land (c pstate) (bnot 64 1)) b]).
  assert (cpu_ok (c.[sp_el old := c sp])) as Hc0 by (apply inert_ok; try done; apply (proj1 Hc sp)).
  assert (cpu_ok c1) as Hc1.
  { apply cpu_ok_intro; [apply typed_upd; [apply Hc0|]|].
    - cbn [F.width]. apply fits_lor; [lia|apply fits_land_l; [lia|done]|by destruct Hb as [-> | ->]].
    - pose proof (mode_select (c current_el) (c pstate) b Hp ltac:(lia) (v_mode c Hv) Hb) as Hmode. by destruct Hv. }
  eexists. split; [reflexivity|]. split; [apply inert_ok; try done; apply (proj1 Hc1 (sp_el new))|].
  intros f. unfold selected. fold b. unfold c1. change (if Z.odd (c pstate) then own else 0) with old.
  assert ((if b =? 0 then 0 else own) = new) as -> by (unfold new; by destruct (b =? 0)).
  destruct f; fields; rewrite ?(Z.eqb_sym old), ?andb_true_r; try done.
Qed.

Lemma select_step_ok c own : cpu_ok c → own = c current_el → 1 ≤ own →
  ∃ c1, select_stack c own (c instruction) = Some c1 ∧ interprets c true (retire c1).
Proof.
  intros Hc Ho Hpos. destruct (select_stack_spec c own (c instruction) Hc Ho Hpos) as (c1 & -> & Hok & Hf).
  exists c1. split; [done|]. split; [by apply retire_ok|]. apply retire_retires; by rewrite Hf.
Qed.

(** Masking interrupts leaves the mode alone. *)
Lemma mask_ok c (v : Z) : cpu_ok c → fits 64 v → Z.land v 0xf = Z.land (c pstate) 0xf → cpu_ok (c.[pstate := v]).
Proof.
  intros Hc Hv Hm. apply cpu_ok_intro; [apply typed_upd; [apply Hc|done]|]. destruct (cpu_ok_valid c Hc). constructor; try done.
  fields. unfold VF_PSTATE_MODE_MASK in *. by rewrite Hm.
Qed.

Lemma pstate_step_ok c : cpu_ok c → ∃ took c', pstate_slow_step c = Some (took, c') ∧ interprets c took c'.
Proof.
  intros Hc. unfold pstate_slow_step. pose proof (v_el c (cpu_ok_valid c Hc)). pose proof (proj1 Hc pstate) as Hp. change (fits 64 (c pstate)) in Hp.
  destruct (_ || nz _) eqn:E0; [by exists false, c|]. apply orb_false_iff in E0 as [E0 _].
  destruct (_ || _).
  - eexists true, _. split; [reflexivity|]. pose proof (field_range (Z.shiftr (c instruction) 8) 4 15 ltac:(lia) eq_refl) as Hr.
    set (m := Z.land (Z.shiftr (c instruction) 8) 15) in *.
    assert (fits 64 (Z.shiftl m 6) ∧ Z.land (Z.shiftl m 6) 0xf = 0) as [Hm1 Hm2].
    { split; [unfold fits; rewrite Z.shiftl_mul_pow2 by lia; lia|]. apply Z.bits_inj'. intros i Hi.
      rewrite Z.land_spec, Z.shiftl_spec, Z.bits_0 by lia. destruct (decide (i < 6)); [by rewrite Z.testbit_neg_r by lia|].
      rewrite (fits_testbit_high 4 15 i) by (lia || by vm_compute). apply andb_false_r. }
    split; [apply retire_ok, mask_ok; try done|by apply retire_retires].
    + destruct (_ =? 0xdf); [by apply fits_lor|by apply fits_land_l].
    + destruct (_ =? 0xdf); [by rewrite Z.land_lor_distr_l, Hm2, Z.lor_0_r|].
      rewrite land_bnot by (lia || done). apply Z.bits_inj'. intros i Hi. rewrite !Z.land_spec, Z.ldiff_spec.
      apply (f_equal (λ z, Z.testbit z i)) in Hm2. rewrite Z.land_spec, Z.bits_0 in Hm2.
      destruct (Z.testbit 15 i); [|by rewrite !andb_false_r]. rewrite andb_true_r in Hm2. rewrite Hm2. by rewrite !andb_true_r.
  - destruct (_ =? 0xd50040bf); [|by exists false, c].
    destruct (select_step_ok c (c current_el) Hc eq_refl) as (c1 & -> & Hi); [unfold VF_EL0 in E0; lia|].
    by exists true, (retire c1).
Qed.

Lemma stack_select_ok c : cpu_ok c → ∃ took c', stack_select_immutable_step c = Some (took, c') ∧ interprets c took c'.
Proof.
  intros Hc. unfold stack_select_immutable_step. destruct (_ || _) eqn:E; [by exists false, c|].
  apply orb_false_iff in E as [E _]. unfold VF_EL1 in E.
  destruct (select_step_ok c VF_EL1 Hc) as (c1 & -> & Hi); [unfold VF_EL1; lia|done|]. by exists true, (retire c1).
Qed.

(** *** Pointer authentication *)

(** What the type of the callback promises: arrays of the declared lengths, words. *)
Record context_ok (k : vf_pauth_context) : Prop := {
  co_x : length (p_x k) = 31%nat ∧ Forall (fits 64) (p_x k);
  co_keys : length (p_keys k) = 5%nat ∧ Forall (λ l, length l = 2%nat ∧ Forall (fits 64) l) (p_keys k);
  co_words : fits 64 (p_sp k) ∧ fits 64 (p_pc k) ∧ fits 64 (p_sctlr k) ∧ fits 64 (p_tcr k);
}.
Definition callback_ok (step : option vf_pauth_step) : Prop :=
  match step with Some f => ∀ k w, context_ok k → context_ok (f k w).2 | None => True end.

Lemma context_fits c : cpu_ok c → context_ok (pauth_context c).
Proof.
  intros [Ht _]. constructor; cbn.
  - split; [by rewrite length_fmap|]. apply Forall_fmap, Forall_true. intros i. apply (Ht (x i)).
  - split; [done|]. repeat constructor; first [done|apply (Ht (pauth_keys _ _))].
  - split_and!; [apply (Ht sp)|apply (Ht pc)|apply (Ht sctlr)|apply (Ht tcr)].
Qed.

Lemma put_x_ok c i vs : cpu_ok c → Forall (fits 64) vs → cpu_ok (put_x c i vs).
Proof.
  intros Hc Hvs. revert c i Hc. induction Hvs as [|v vs Hv _ IH]; intros c i Hc; [done|]. cbn [put_x]. by apply IH, inert_ok.
Qed.

Lemma put_key_ok c i j vs : cpu_ok c → Forall (fits 64) vs → cpu_ok (put_key c i j vs).
Proof.
  intros Hc Hvs. revert c j Hc. induction Hvs as [|v vs Hv _ IH]; intros c j Hc; [done|]. cbn [put_key]. by apply IH, inert_ok.
Qed.

Lemma put_keys_ok c i ks : cpu_ok c → Forall (λ l, length l = 2%nat ∧ Forall (fits 64) l) ks → cpu_ok (put_keys c i ks).
Proof.
  intros Hc Hks. revert c i Hc. induction Hks as [|k ks [_ Hk] _ IH]; intros c i Hc; [done|]. cbn [put_keys].
  by apply IH, put_key_ok.
Qed.

(** The fields a callback may set. *)
Definition authenticated (f : field) : bool :=
  match f with x _ | pauth_keys _ _ | sp | pc => true | _ => false end.

Lemma put_x_frame c i vs f : authenticated f = false → put_x c i vs f = c f.
Proof.
  intros Hf. revert c i. induction vs as [|v vs IH]; intros c i; [done|]. cbn [put_x]. rewrite IH. cbn [upd].
  by rewrite eqb_ne by (by intros ->).
Qed.

Lemma put_key_frame c i j vs f : authenticated f = false → put_key c i j vs f = c f.
Proof.
  intros Hf. revert c j. induction vs as [|v vs IH]; intros c j; [done|]. cbn [put_key]. rewrite IH. cbn [upd].
  by rewrite eqb_ne by (by intros ->).
Qed.

Lemma put_keys_frame c i ks f : authenticated f = false → put_keys c i ks f = c f.
Proof.
  intros Hf. revert c i. induction ks as [|k ks IH]; intros c i; [done|]. cbn [put_keys]. rewrite IH. by apply put_key_frame.
Qed.

(** The copy goes back where it came from. *)
Lemma put_x_out c i vs n : n < i ∨ i + Z.of_nat (length vs) ≤ n → put_x c i vs (x n) = c (x n).
Proof.
  revert c i. induction vs as [|v vs IH]; intros c i Hn; [done|]. cbn [put_x]. cbn [length] in Hn. rewrite IH by lia. cbn [upd].
  rewrite eqb_ne; [done|]. intros [= ->]. lia.
Qed.

Lemma put_x_in c i vs n v : vs !! n = Some v → put_x c i vs (x (i + Z.of_nat n)) = v.
Proof.
  revert c i vs. induction n as [|n IH]; intros c i [|v' vs] Hn; try done; cbn [put_x].
  - injection Hn as ->. rewrite Z.add_0_r, put_x_out by lia. apply upd_same.
  - replace (i + Z.of_nat (S n)) with (i + 1 + Z.of_nat n) by lia. by apply IH.
Qed.

Lemma put_key_x c i j vs n : put_key c i j vs (x n) = c (x n).
Proof. revert c j. induction vs as [|v vs IH]; intros c j; [done|]. cbn [put_key]. by rewrite IH. Qed.

Lemma put_keys_x c i ks n : put_keys c i ks (x n) = c (x n).
Proof. revert c i. induction ks as [|k ks IH]; intros c i; [done|]. cbn [put_keys]. by rewrite IH, put_key_x. Qed.

Lemma pauth_slow_ok step c : callback_ok step → cpu_ok c →
  let '(took, c') := pauth_slow_step step c in
  cpu_ok c' ∧ if took then c' retired = u64 (c retired + 1) else c' = c.
Proof.
  intros Hs Hc. unfold pauth_slow_step. destruct step as [f|]; [|done]. destruct (_ || _); [done|].
  destruct (f _ _) as [rc k] eqn:E. destruct (nz rc); [done|]. pose proof (Hs (pauth_context c) (c instruction) (context_fits c Hc)) as Hk. rewrite E in Hk.
  destruct Hk as [[_ Hx] [_ Hkeys] (H1 & H2 & H3 & H4)]. split.
  - apply count_one_ok. repeat (apply inert_ok; [|done|done]). apply put_keys_ok; [|done]. by apply put_x_ok.
  - rewrite count_one_retired. fields. by rewrite put_keys_frame, put_x_frame.
Qed.

Lemma pauth_immutable_ok step c : callback_ok step → cpu_ok c →
  let '(took, c') := pauth_immutable_step step c in
  cpu_ok c' ∧ if took then c' retired = u64 (c retired + 1) else c' = c.
Proof.
  intros Hs Hc. unfold pauth_immutable_step. destruct step as [f|]; [|done]. destruct (negb _); [done|].
  destruct (f _ _) as [rc k] eqn:E. destruct (_ || _); [done|]. pose proof (Hs (pauth_context c) (c instruction) (context_fits c Hc)) as Hk. rewrite E in Hk.
  destruct Hk as [[_ Hx] [_ Hkeys] (H1 & H2 & H3 & H4)]. split.
  - apply count_one_ok. repeat (apply inert_ok; [|done|done]). apply put_keys_ok; [|done]. by apply put_x_ok.
  - rewrite count_one_retired. fields. by rewrite put_keys_frame, put_x_frame.
Qed.

(** *** The dispatcher's own steps, together *)

Inductive slow_op := Sysreg | Sysreg_read | Override | Fp_access | Control_read | Pstate | Stack_select | Pauth | Pauth_immutable.

Definition slow_step (step : option vf_pauth_step) (o : slow_op) (c : vf_cpu) : option (bool * vf_cpu) :=
  match o with
  | Sysreg => Some (system_register_slow_step c)
  | Sysreg_read => Some (system_register_read_slow_step c)
  | Override => Some (platform_override_write_slow_step c)
  | Fp_access => Some (fp_access_control_write_slow_step c)
  | Control_read => Some (memory_control_read_v2 c)
  | Pstate => pstate_slow_step c
  | Stack_select => stack_select_immutable_step c
  | Pauth => Some (pauth_slow_step step c)
  | Pauth_immutable => Some (pauth_immutable_step step c)
  end.

(** C21. Every step the dispatcher interprets itself is defined on a valid processor and
    keeps it valid, whatever the authentication callback answers.  A step that does not
    take the instruction changes nothing; one that does retires exactly one instruction,
    and goes on to the next word unless the callback chose the address. *)
Theorem slow_steps_sound step o c :
  callback_ok step → cpu_ok c →
  ∃ took c', slow_step step o c = Some (took, c') ∧ cpu_ok c' ∧
    if took then c' retired = u64 (c retired + 1) ∧ (match o with Pauth | Pauth_immutable => True | _ => c' pc = u64 (c pc + 4) end)
    else c' = c.
Proof.
  intros Hs Hc.
  assert (∀ r, (let '(took, c') := r in interprets c took c') → ∃ took c', Some r = Some (took, c') ∧ cpu_ok c' ∧
    if took then c' retired = u64 (c retired + 1) ∧ c' pc = u64 (c pc + 4) else c' = c) as Hplain.
  { intros [took c'] [Hok Hr]. exists took, c'. split; [done|]. split; [done|]. by destruct took. }
  destruct o; cbn [slow_step].
  - apply Hplain, sysreg_step_ok, Hc.
  - apply Hplain, sysreg_read_step_ok, Hc.
  - apply Hplain, override_step_ok, Hc.
  - apply Hplain, fp_access_step_ok, Hc.
  - apply Hplain, control_read_ok, Hc.
  - destruct (pstate_step_ok c Hc) as (took & c' & -> & Hi). by apply (Hplain (took, c')).
  - destruct (stack_select_ok c Hc) as (took & c' & -> & Hi). by apply (Hplain (took, c')).
  - pose proof (pauth_slow_ok step c Hs Hc) as Hp. destruct (pauth_slow_step step c) as [took c'].
    exists took, c'. split; [done|]. destruct Hp. split; [done|]. by destruct took.
  - pose proof (pauth_immutable_ok step c Hs Hc) as Hp. destruct (pauth_immutable_step step c) as [took c'].
    exists took, c'. split; [done|]. destruct Hp. split; [done|]. by destruct took.
Qed.

(** A callback that signs the link register, by setting its top byte. *)
Definition sample_sign : vf_pauth_step := λ k w,
  (if w =? 0xd503233f then 0 else -1,
   k <| p_x := <[30%nat := Z.lor (u64 (default 0 (p_x k !! 30%nat))) 0xff00000000000000]> (p_x k) |> <| p_pc := u64 (p_pc k + 4) |>).

Definition signing : vf_cpu := reset_el1.[instruction := 0xd503233f].

Lemma signing_ok : cpu_ok signing.
Proof. apply inert_ok; [exact reset_el1_ok|done|by vm_compute]. Qed.

Lemma sample_sign_ok : callback_ok (Some sample_sign).
Proof.
  intros k w [[H1 H2] H3 (H4 & H5 & H6 & H7)]. constructor; cbn; [|done|].
  - split; [by rewrite length_insert|]. apply Forall_insert; [done|]. apply fits_lor; [lia|by apply fits_wrap|by vm_compute].
  - split_and!; try done. by apply fits_wrap.
Qed.

Lemma slow_steps_sound_witness :
  ∃ took c', slow_step (Some sample_sign) Pauth_immutable signing = Some (took, c') ∧ cpu_ok c' ∧
    if took then c' retired = u64 (signing retired + 1) ∧ True else c' = signing.
Proof. exact (slow_steps_sound (Some sample_sign) Pauth_immutable signing sample_sign_ok signing_ok). Defined.

(** Pointer authentication under immutable memory controls is confined: whatever the
    callback does, a step that takes the instruction stores the registers and keys it
    returned and changes nothing else but the stack pointer, the program counter and
    the counters; in particular a callback that touches a translation control is
    refused. *)
Theorem pauth_confined f c c' :
  pauth_immutable_step (Some f) c = (true, c') →
  let k := (f (pauth_context c) (c instruction)).2 in
  (f (pauth_context c) (c instruction)).1 = 0 ∧ p_sctlr k = c sctlr ∧ p_tcr k = c tcr ∧ p_current_el k = c current_el ∧
  (∀ g, authenticated g = false → counters g = false → c' g = c g) ∧
  (∀ n v, p_x k !! n = Some v → c' (x (Z.of_nat n)) = v) ∧ c' sp = p_sp k ∧ c' pc = p_pc k.
Proof.
  unfold pauth_immutable_step. destruct (negb _); [done|]. destruct (f _ _) as [rc k] eqn:E. destruct (_ || _) eqn:Eg; [done|].
  rewrite !orb_false_iff, !negb_false_iff, !Z.eqb_eq, nz_false in Eg. destruct Eg as ((((E1 & E2) & E3) & E4) & _). intros Hc.
  assert (c' = count_one ((put_keys (put_x c 0 (p_x k)) 0 (p_keys k)).[sp := p_sp k].[pc := p_pc k])) as -> by congruence.
  clear Hc. cbn [fst snd]. split_and!; try done.
  - intros g Hg Hcg. rewrite count_one_frame by done. cbn [upd]. rewrite !eqb_ne by (by intros ->).
    by rewrite put_keys_frame, put_x_frame.
  - intros n v Hn. rewrite count_one_frame by done. fields. rewrite put_keys_x. rewrite <- (Z.add_0_l (Z.of_nat n)). by apply put_x_in.
  - by rewrite count_one_frame.
  - by rewrite count_one_frame.
Qed.

Lemma pauth_confined_witness :
  ∃ c', pauth_immutable_step (Some sample_sign) signing = (true, c') ∧
  let k := (sample_sign (pauth_context signing) 0xd503233f).2 in
  (sample_sign (pauth_context signing) 0xd503233f).1 = 0 ∧ p_sctlr k = signing sctlr ∧ p_tcr k = signing tcr ∧
  p_current_el k = signing current_el ∧ (∀ g, authenticated g = false → counters g = false → c' g = signing g) ∧
  (∀ n v, p_x k !! n = Some v → c' (x (Z.of_nat n)) = v) ∧ c' sp = p_sp k ∧ c' pc = p_pc k.
Proof. eexists. split; [reflexivity|]. apply (pauth_confined sample_sign signing). reflexivity. Defined.

End Steps.
