(* ===== verification/LoadStore.v ===== *)
(** Loads and stores on the registers ([runtime/jit.c], [memory_stage1.inc]).

    The part of a data step that both versions of the provider interface share: the stack
    alignment check, the address, and the registers stored once the memory has answered.
    The second half is what an access means: an abstract machine of registers and a memory
    of bytes. *)
From S2P Require Import Prelude.
From S2P Require Import Words.
From S2P Require Import Mmio.
From S2P Require Import Cpu.
From S2P Require Import Insn.
From S2P Require Import Steps.

Module LoadStore.
Import Cpu.
Import Cpu.F.
Import Insn.
Import Steps.

(** [width == 8 ? UINT64_MAX : (UINT64_C(1) << (width * 8)) - 1] *)
Definition width_mask (w : Z) : Z := if w =? 8 then UINT64_MAX else u64 (shl 64 1 (u32 (w * 8)) - 1).

(** [(void)vf_cpu_commit_status(cpu, status); return status;] *)
Definition commit (c : vf_cpu) (st : Z) : option (Z * vf_cpu) :=
  '(_, p) ← vf_cpu_commit_status (Some c) st; c ← p; Some (st, c).

(** [shape.rn==31 && (cpu->sctlr&(cpu->current_el==VF_EL0?16u:8u)) && (base&15)] *)
Definition stack_misaligned (c : vf_cpu) (d : memory_shape) (base : Z) : bool :=
  (rn d =? 31) && nz (Z.land (c sctlr) (if c current_el =? VF_EL0 then 16 else 8)) && nz (Z.land base 15).

(** What is stored after the reply: the loaded registers, then the base register. *)
Definition store_registers (c : vf_cpu) (d : memory_shape) (updated value0 value1 : Z) : vf_cpu :=
  let c :=
    if read d then
      let value := if signed_load d then u64 (sext value0 (width d * 8)) else value0 in
      let c := memory_save c (rt d) value (result64 d) in
      if count d =? 2 then memory_save c (rt2 d) value1 (result64 d) else c
    else c in
  if negb (mode d =? 2) then if rn d =? 31 then c.[sp := updated] else c.[x (rn d) := updated] else c.

(** ** The meaning of an access *)

Definition access_width (w : Z) : Prop := w = 1 ∨ w = 2 ∨ w = 4 ∨ w = 8.

(** The first test of the goal. *)
Ltac test E := match goal with |- context [if ?b then _ else _] => destruct b eqn:E end.

(** The index added to the base register. *)
Definition index (c : vf_cpu) (d : memory_shape) : Z :=
  if register_offset d then
    let v := memory_register c (rm d) false in
    (if Z.odd (option_ d) then v else if option_ d =? 6 then s32 v else u32 v) * 2 ^ shift d
  else displacement d.

Definition updated_base (c : vf_cpu) (d : memory_shape) : Z := u64 (memory_register c (rn d) true + index c d).
Definition accessed (c : vf_cpu) (d : memory_shape) : Z :=
  if mode d =? 1 then memory_register c (rn d) true else updated_base c d.

(** A value of the memory, extended to the register. *)
Definition loaded (d : memory_shape) (v : Z) : Z :=
  (if signed_load d && (2 ^ (8 * width d - 1) <=? v) then v - 2 ^ (8 * width d) else v)
    mod 2 ^ (if result64 d then 64 else 32).

(** The registers after the access. *)
Definition performed (c : vf_cpu) (d : memory_shape) (v0 v1 : Z) : vf_cpu := λ f,
  match f with
  | x i =>
    if negb (mode d =? 2) && negb (rn d =? 31) && (i =? rn d) then updated_base c d
    else if read d && (count d =? 2) && negb (i =? 31) && (i =? rt2 d) then loaded d v1
    else if read d && negb (i =? 31) && (i =? rt d) then loaded d v0
    else c (x i)
  | sp => if negb (mode d =? 2) && (rn d =? 31) then updated_base c d else c sp
  | pc => u64 (c pc + 4)
  | retired => u64 (c retired + 1)
  | f => c f
  end.

(** ** Lemmas *)

Lemma width_mask_ones w : access_width w → width_mask w = Z.ones (8 * w).
Proof. by intros [-> | [-> | [-> | ->]]]. Qed.

Lemma in_mask w v : access_width w → fits 64 v → nz (Z.land v (bnot 64 (width_mask w))) = false ↔ fits (8 * w) v.
Proof.
  intros Hw Hv. assert (0 < 2 ^ (8 * w)) by (apply Z.pow_pos_nonneg; destruct Hw; lia).
  rewrite nz_false, width_mask_ones, land_bnot_ones by (done || destruct Hw; lia). unfold fits in *. split; intros H'.
  - assert (v = v mod 2 ^ (8 * w)) as -> by lia. by apply Z.mod_pos_bound.
  - rewrite Z.mod_small by done. lia.
Qed.

Lemma offset_in_width w v : access_width w → Z.land v (u32 (w - 1)) = v mod w.
Proof.
  intros [-> | [-> | [-> | ->]]]; [|exact (land_ones_mod v 1 ltac:(lia))|exact (land_ones_mod v 2 ltac:(lia))|exact (land_ones_mod v 3 ltac:(lia))].
  change (u32 (1 - 1)) with 0. by rewrite Z.land_0_r, Z.mod_1_r.
Qed.

Lemma sext_value n v : 0 < n ≤ 32 → fits n v → sext v n = if 2 ^ (n - 1) <=? v then v - 2 ^ n else v.
Proof.
  intros Hn Hv. unfold sext. assert (fits 32 v) as Hv32 by (by apply (fits_weaken n); [lia|]).
  rewrite (wrap_id 32 v) by done. unfold shl, s32. rewrite wrap_wrap, Z.shiftl_mul_pow2 by lia.
  set (k := 32 - n). assert (2 ^ n * 2 ^ k = 2 ^ 32) as Hnk by (rewrite <- Z.pow_add_r by lia; f_equal; lia).
  assert (2 * 2 ^ (n - 1) = 2 ^ n) as Hhalf by (rewrite <- Z.pow_succ_r by lia; f_equal; lia).
  assert (0 < 2 ^ k) by (apply Z.pow_pos_nonneg; lia). unfold fits in Hv.
  rewrite wrap_id by (split; nia). rewrite Z.shiftr_div_pow2 by lia.
  destruct (Z.ltb_spec (v * 2 ^ k) (2 ^ 31)) as [Hlt|Hge], (Z.leb_spec (2 ^ (n - 1)) v) as [H'|H']; try nia.
  - by rewrite Z.div_mul by lia.
  - replace (v * 2 ^ k - 2 ^ 32) with ((v - 2 ^ n) * 2 ^ k) by nia. by rewrite Z.div_mul by lia.
Qed.

Lemma mod_mod_pow v a b : 0 ≤ b ≤ a → (v mod 2 ^ a) mod 2 ^ b = v mod 2 ^ b.
Proof.
  intros Hb. apply Z.mod_mod_divide. exists (2 ^ (a - b)). rewrite <- Z.pow_add_r by lia. f_equal. lia.
Qed.

Lemma loaded_word d v : shape_ok d → fits (8 * width d) v →
  (let value := if signed_load d then u64 (sext v (width d * 8)) else v in
   if result64 d then value else u32 value) = loaded d v.
Proof.
  intros (Hw & _ & _ & _ & _ & _ & _ & _ & _ & _ & Hs & _) Hv. cbv zeta. unfold loaded.
  rewrite (Z.mul_comm (width d)). assert (fits 64 v) as H64 by (apply (fits_weaken (8 * width d)); [lia|done]).
  assert (∀ u, (if result64 d then u64 u else u32 (u64 u)) = u mod 2 ^ (if result64 d then 64 else 32)) as Hu.
  { intros u. destruct (result64 d); [done|]. apply (mod_mod_pow u 64 32). lia. }
  rewrite <- Hu. destruct (signed_load d) eqn:Es; cbn [andb].
  - destruct (Hs eq_refl) as (_ & _ & H8 & _). rewrite sext_value by (done || lia).
    destruct (_ <=? v); destruct (result64 d); done.
  - by rewrite (wrap_id 64 v).
Qed.

(** The address of the code is the base plus the index, modulo 2^64. *)
Lemma sign_extend_word v : fits 32 v → (if nz (Z.land v (Z.shiftl 1 31)) then Z.lor v 0xffffffff00000000 else v) = u64 (s32 v).
Proof.
  intros Hv. rewrite land_bit_nz by lia. unfold s32. rewrite (wrap_id 32 v) by done.
  rewrite Z.testbit_odd, Z.shiftr_div_pow2 by lia. unfold fits in Hv.
  destruct (Z.ltb_spec v (2 ^ 31)) as [Hlt|Hge].
  - rewrite Z.div_small by lia. cbn [Z.odd]. symmetry. apply wrap_id. unfold fits. lia.
  - assert (v / 2 ^ 31 = 1) as -> by dlia. cbn [Z.odd]. rewrite Z.lor_comm. change 0xffffffff00000000 with (0xffffffff * 2 ^ 32).
    rewrite lor_high_low by (lia || done). change (u64 (v - 2 ^ 32)) with ((v - 2 ^ 32) mod 2 ^ 64).
    apply (Z.mod_unique _ _ (-1)); lia.
Qed.

Lemma index_offset c d : shape_ok d → cpu_ok c → u64 (memory_offset c d) = u64 (index c d).
Proof.
  intros Hd Hc. unfold memory_offset, index. destruct (register_offset d); cbn [negb]; [|apply wrap_wrap].
  assert (0 ≤ shift d) as Hs.
  { destruct Hd as (Hw & _ & _ & _ & _ & _ & _ & _ & _ & _ & _ & Hs & _). destruct (decide (0 ≤ shift d)); [done|].
    destruct Hs as [-> |Hs]; [done|]. rewrite Z.pow_neg_r in Hs by lia. lia. }
  pose proof (x_fits c (rm d) false Hc) as Hv. set (v := memory_register c (rm d) false) in *.
  unfold shl. rewrite wrap_wrap, Z.shiftl_mul_pow2 by done. assert (∀ a b k, u64 a = u64 b → u64 (a * k) = u64 (b * k)) as Hmul.
  { intros a b k Hab. change (u64 ?x) with (x mod 2 ^ 64) in *. by rewrite Z.mul_mod, Hab, <- Z.mul_mod. }
  apply Hmul. assert (nz (Z.land (option_ d) 1) = Z.odd (option_ d)) as -> by apply low_bit.
  destruct (Z.odd (option_ d)); cbn [negb]; [done|]. destruct (option_ d =? 6); cbn [andb]; [|done].
  rewrite sign_extend_word by (by apply fits_wrap). rewrite wrap_wrap. unfold s32. by rewrite wrap_wrap.
Qed.

Lemma updated_spec c d : shape_ok d → cpu_ok c → u64 (memory_register c (rn d) true + memory_offset c d) = updated_base c d.
Proof.
  intros Hd Hc. unfold updated_base. pose proof (index_offset c d Hd Hc) as Hi. change (u64 ?x) with (x mod 2 ^ 64) in *.
  by rewrite Z.add_mod, Hi, <- Z.add_mod.
Qed.

Lemma accessed_fits c d : cpu_ok c → fits 64 (accessed c d).
Proof. intros Hc. unfold accessed. destruct (_ =? 1); [by apply x_fits|by apply fits_wrap]. Qed.

Lemma save_spec c reg v wide f : memory_save c reg v wide f =
  match f with x i => if negb (i =? 31) && (i =? reg) then (if wide then v else u32 v) else c f | _ => c f end.
Proof.
  unfold memory_save. destruct (reg =? 31) eqn:E.
  - destruct f; try done. by destruct (i =? 31) eqn:Ei, (i =? reg) eqn:Er; try done; lia.
  - destruct f; try done. fields. rewrite andb_true_r, (Z.eqb_sym reg). destruct (i =? reg) eqn:Er; [|by rewrite andb_false_r].
    assert ((i =? 31) = false) as -> by lia. done.
Qed.

Lemma memory_save_ok c reg v wide : cpu_ok c → fits 64 v → cpu_ok (memory_save c reg v wide).
Proof.
  intros Hc Hv. unfold memory_save. destruct (_ =? 31); [done|]. apply inert_ok; [done..|]. cbn [F.width].
  destruct wide; [done|]. apply (fits_weaken 32); [lia|]. by apply fits_wrap.
Qed.

Lemma store_registers_ok c d u v0 v1 : cpu_ok c → fits 64 u → fits 64 v0 → fits 64 v1 → cpu_ok (store_registers c d u v0 v1).
Proof.
  intros Hc Hu H0 H1. unfold store_registers.
  assert (cpu_ok (if read d then
      let c1 := memory_save c (rt d) (if signed_load d then u64 (sext v0 (width d * 8)) else v0) (result64 d) in
      if count d =? 2 then memory_save c1 (rt2 d) v1 (result64 d) else c1 else c)) as Hc1.
  { destruct (read d); [|done]. assert (fits 64 (if signed_load d then u64 (sext v0 (width d * 8)) else v0)) as Hs.
    { destruct (signed_load d); [by apply fits_wrap|done]. }
    cbv zeta. destruct (count d =? 2); repeat (apply memory_save_ok; [|done]); done. }
  cbv zeta in Hc1 |- *. destruct (negb _); [|done]. destruct (rn d =? 31); by apply inert_ok.
Qed.

(** The base register, and the loaded ones. *)
Lemma write_back_spec c d u f :
  (if negb (mode d =? 2) then if rn d =? 31 then c.[sp := u] else c.[x (rn d) := u] else c) f =
  match f with
  | x i => if negb (mode d =? 2) && negb (rn d =? 31) && (i =? rn d) then u else c f
  | sp => if negb (mode d =? 2) && (rn d =? 31) then u else c f
  | _ => c f
  end.
Proof.
  destruct (mode d =? 2); cbn [negb andb]; [by destruct f|]. destruct (rn d =? 31); cbn [negb andb]; destruct f; try done.
  fields. by rewrite andb_true_r, Z.eqb_sym.
Qed.

Lemma load_spec c d v0 v1 f :
  shape_ok d → read d = true → fits (8 * width d) v0 → fits (8 * width d) v1 →
  (let value := if signed_load d then u64 (sext v0 (width d * 8)) else v0 in
   let c := memory_save c (rt d) value (result64 d) in
   if count d =? 2 then memory_save c (rt2 d) v1 (result64 d) else c) f =
  match f with
  | x i => if (count d =? 2) && negb (i =? 31) && (i =? rt2 d) then loaded d v1
           else if negb (i =? 31) && (i =? rt d) then loaded d v0 else c f
  | _ => c f
  end.
Proof.
  intros Hd Hr H0 H1. pose proof (loaded_word d v0 Hd H0) as Hl0. pose proof (loaded_word d v1 Hd H1) as Hl1.
  destruct Hd as (_ & _ & _ & _ & _ & _ & _ & _ & _ & _ & Hs & _). cbv zeta in *.
  destruct (Z.eqb_spec (count d) 2) as [E2|E2]; cbn [andb]; rewrite !save_spec; destruct f; try done; rewrite ?save_spec, Hl0; [|done].
  destruct (signed_load d); [destruct (Hs eq_refl); lia|]. by rewrite Hl1.
Qed.

(** What a completed access does to the registers. *)
Lemma store_registers_spec c d v0 v1 f :
  shape_ok d → fits (8 * width d) v0 → fits (8 * width d) v1 → counters f = false → F.eqb pc f = false →
  store_registers c d (updated_base c d) v0 v1 f = performed c d v0 v1 f.
Proof.
  intros Hd H0 H1 Hf Hp. unfold store_registers. cbv zeta. rewrite write_back_spec. unfold performed.
  destruct (read d) eqn:Er; cbn [andb]; [|by destruct f].
  pose proof (λ g, load_spec c d v0 v1 g Hd Er H0 H1) as Hl. cbv zeta in Hl. destruct f; rewrite ?Hl; done.
Qed.

Lemma retire_performed c d v0 v1 f :
  shape_ok d → fits (8 * width d) v0 → fits (8 * width d) v1 → counters f = false ∨ f = retired →
  retire (store_registers c d (updated_base c d) v0 v1) f = performed c d v0 v1 f.
Proof.
  intros Hd H0 H1 Hf. set (c1 := store_registers c d _ v0 v1).
  assert (∀ g, F.eqb pc g = false → counters g = false → c1 g = performed c d v0 v1 g) as Hc1.
  { intros g Hp Hg. by apply store_registers_spec. }
  assert (c1 pc = c pc ∧ c1 retired = c retired) as [Hpc Hr].
  { unfold c1, store_registers. cbv zeta. rewrite !write_back_spec. destruct (read d); [|done].
    pose proof (λ g, load_spec c d v0 v1 g Hd) as Hl. by destruct (count d =? 2); rewrite !save_spec. }
  destruct Hf as [Hf | ->].
  - destruct (F.eqb pc f) eqn:Ep; [apply eqb_eq in Ep as <-|by rewrite retire_frame, Hc1].
    unfold retire. rewrite count_one_frame by done. fields. by rewrite Hpc.
  - unfold retire. rewrite count_one_retired. fields. by rewrite Hr.
Qed.

Lemma performed_one c d v0 v1 v1' f : count d ≠ 2 ∨ read d = false → performed c d v0 v1 f = performed c d v0 v1' f.
Proof.
  intros H. unfold performed. destruct f; try done. destruct (read d); [|done]. destruct H as [H|]; [|done].
  by assert ((count d =? 2) = false) as -> by lia.
Qed.

Lemma performed_store c d v0 v0' v1 v1' f : read d = false → performed c d v0 v1 f = performed c d v0' v1' f.
Proof. intros H. unfold performed. by rewrite H. Qed.

Lemma land_width w v : access_width w → Z.land v (width_mask w) = v mod 2 ^ (8 * w).
Proof. intros Hw. rewrite width_mask_ones, Z.land_ones by (done || destruct Hw; lia). done. Qed.

(** ** The memory *)

(** A memory of bytes, a little-endian word of it, and the memory with that word stored. *)
Definition memory := Z → Z.
Fixpoint word_at (m : memory) (a : Z) (n : nat) : Z :=
  match n with O => 0 | S n => m (u64 a) mod 256 + 256 * word_at m (a + 1) n end.
Definition with_word (m : memory) (a n v : Z) : memory :=
  λ b, let i := u64 (b - a) in if i <? n then (v / 256 ^ i) mod 256 else m b.

(** The memory after the access, and the values read from it. *)
Definition value_at (m : memory) (c : vf_cpu) (d : memory_shape) (k : Z) : Z :=
  word_at m (accessed c d + k * width d) (Z.to_nat (width d)).
Definition stored (m : memory) (c : vf_cpu) (d : memory_shape) : memory :=
  if read d then m
  else
    let m := with_word m (accessed c d) (width d) (memory_register c (rt d) false) in
    if count d =? 2 then with_word m (accessed c d + width d) (width d) (memory_register c (rt2 d) false) else m.

Lemma word_at_range m a n : 0 ≤ word_at m a n < 256 ^ Z.of_nat n.
Proof.
  revert a. induction n as [|n IH]; intros a; [by vm_compute|]. cbn [word_at]. pose proof (IH (a + 1)).
  pose proof (Z.mod_pos_bound (m (u64 a)) 256 ltac:(lia)). rewrite Nat2Z.inj_succ, Z.pow_succ_r by lia. lia.
Qed.

(** What was stored is read back. *)
Lemma word_at_same m a n v k i : 0 ≤ v → 0 ≤ i → i + Z.of_nat k = n → n ≤ 2 ^ 64 →
  word_at (with_word m a n v) (a + i) k = v / 256 ^ i mod 256 ^ Z.of_nat k.
Proof.
  intros Hv. revert i. induction k as [|k IH]; intros i Hi Hn H64; [by rewrite Z.mod_1_r|].
  cbn [word_at]. replace (a + i + 1) with (a + (i + 1)) by lia. rewrite IH by lia.
  unfold with_word. assert (u64 (u64 (a + i) - a) = i) as ->.
  { unfold wrap. rewrite Zminus_mod_idemp_l. replace (a + i - a) with i by lia. apply Z.mod_small. lia. }
  assert ((i <? n) = true) as -> by lia. rewrite Zmod_mod, Nat2Z.inj_succ, Z.pow_succ_r, Z.pow_add_r by lia.
  change (256 ^ 1) with 256. assert (0 < 256 ^ i) by (apply Z.pow_pos_nonneg; lia).
  rewrite <- Z.div_div by lia. rewrite Z.rem_mul_r by (try apply Z.pow_nonzero; lia). done.
Qed.

(** Only the bytes that fit matter. *)
Lemma with_word_mask m a w v b : 0 ≤ w → with_word m a w (v mod 2 ^ (8 * w)) b = with_word m a w v b.
Proof.
  intros Hw. unfold with_word. destruct (Z.ltb_spec (u64 (b - a)) w) as [Hi|]; [|done].
  assert (0 ≤ u64 (b - a)) as H0 by (apply (fits_wrap 64); lia). set (i := u64 (b - a)) in *.
  change 256 with (2 ^ 8). rewrite <- !Z.pow_mul_r by lia. rewrite <- !Z.shiftr_div_pow2, <- !Z.land_ones by lia.
  apply Z.bits_inj'. intros n Hn. rewrite !Z.land_spec, !Z.shiftr_spec, Z.land_spec, !ones_testbit by lia.
  destruct (Z.ltb_spec n 8); [|by rewrite !andb_false_r]. assert ((n + 8 * i <? 8 * w) = true) as -> by lia. by rewrite !andb_true_r.
Qed.

(** *** Steps that end in an exception *)

(** What reporting an exception sets; everything else of the processor stays. *)
Definition reported (f : field) : bool :=
  match f with
  | exception_pending | exception_target_el | exception_from_lower_el | F.exception_syndrome | exception_far | exception_pc
  | instruction | sp_el _ | spsr_el _ | elr_el _ | esr_el _ | far_el _ | vbar | esr | far | elr | status => true
  | _ => false
  end.

Definition keeps_registers (c c' : vf_cpu) : Prop := ∀ f, reported f = false → c' f = c f.

Lemma raised_keeps c kind pc_ far_ syn insn : keeps_registers c (raised c kind pc_ far_ syn insn).
Proof. intros f Hf. by destruct f. Qed.

Lemma commit_keeps c st : cpu_ok c → ∃ c', commit c st = Some (st, c') ∧ cpu_ok c' ∧ keeps_registers c c'.
Proof.
  intros Hc. unfold commit, vf_cpu_commit_status. set (c1 := c.[status := u32 st]).
  assert (cpu_ok c1) as H1 by (apply inert_ok; [done..|by apply fits_wrap]).
  assert (keeps_registers c c1) as Hk. { intros f Hf. unfold c1. cbn [upd]. rewrite eqb_ne; [done|]. by intros ->. }
  destruct (commit_kind c1 st) as [[[k far_] insn]|] eqn:E; [|exists c1; cbn; auto].
  apply commit_kind_ok in E as [? ?]; [|apply H1].
  destruct (raise_total c1 k (c1 pc) far_ 0 insn H1 (proj1 H1 pc)) as (rc & c' & -> & Hok & Hcase); [done..|].
  exists c'. cbn. split_and!; try done. destruct Hcase as [(_ & _ & syn' & Hc')|[_ ->]]; [|done].
  intros f Hf. rewrite Hc', raised_keeps by done. by apply Hk.
Qed.

End LoadStore.
