(* ===== verification/Provider.v ===== *)
(** Guest memory through a callback ([runtime/jit.c], [memory_abi.h], [memory_boot.h],
    [boot_jit.h]).

    Loads, stores and fetches are requests to a provider; the processor checks the reply
    before it believes it.  The callback is an argument, with a state of its own (the
    owner object).  A step returns a status; [None] is an index outside a bank of the
    processor state. *)
From S2P Require Import Prelude.
From S2P Require Import Words.
From S2P Require Import Mmio.
From S2P Require Import Cpu.
From S2P Require Import Insn.
From S2P Require Import Steps.
From S2P Require Import LoadStore.

Module Provider.
Import Cpu.
Import Cpu.F.
Import Insn.
Import Steps.
Import LoadStore.

Definition VF_MEMORY_FETCH := 1.
Definition VF_MEMORY_LOAD := 2.
Definition VF_MEMORY_STORE := 3.
Definition VF_MEMORY_OK := 0.
Definition VF_MEMORY_GUEST_FAULT := 1.
Definition VF_MEMORY_UNSUPPORTED := 2.
Definition VF_MEMORY_INVALID_REQUEST := 3.
Definition VF_MEMORY_NO_FAULT := 0.
Definition VF_MEMORY_PC_ALIGNMENT := 1.
Definition VF_MEMORY_DATA_ALIGNMENT := 2.
Definition VF_PROVIDER_OK := 0.
Definition VF_PROVIDER_UNSUPPORTED := 1.
Definition VF_PROVIDER_INVALID_REQUEST := 2.
Definition VF_PROVIDER_INVALID_REPLY := 3.
Definition VF_PROVIDER_CALLBACK_FAILURE := 4.

Record vf_memory_request_v1 := {
  q_abi_version : Z; q_struct_size : Z; q_operation : Z; q_flags : Z;
  q_pc : Z; q_address : Z; q_value0 : Z; q_value1 : Z; q_sctlr : Z; q_epoch : Z;
  q_width : Z; q_count : Z; q_current_el : Z; q_reserved : Z;
}.
Record vf_memory_reply_v1 := {
  r_abi_version : Z; r_struct_size : Z; r_result : Z; r_fault : Z;
  r_value0 : Z; r_value1 : Z; r_address : Z; r_esr : Z; r_epoch : Z; r_reserved : Z * Z * Z;
}.

Record vf_boot_result := {
  b_status : Z; b_fault_instruction : Z; b_retired : Z; b_pc : Z; b_x0 : Z; b_x1 : Z; b_x2 : Z; b_x3 : Z;
  b_compiled_blocks : Z;
}.
Record vf_boot_result_v2 := {
  b_base : vf_boot_result; b_platform_override : Z; b_pending_lines : Z; b_platform_profile : Z;
  b_elr : Z; b_spsr : Z; b_exception_vector : Z; b_esr : Z; b_pstate : Z; b_sp : Z;
}.
Record vf_memory_run_result_v1 := {
  m_abi_version : Z; m_struct_size : Z; m_provider_status : Z; m_reserved0 : Z;
  m_execution : vf_boot_result_v2;
  m_guest_far : Z; m_last_address : Z; m_fetch_requests : Z; m_data_requests : Z;
  m_completed_data_operations : Z; m_reserved1 : Z;
}.

(** The callback fills a zeroed reply. *)
Definition vf_memory_callback_v1 (S : Type) := S → vf_memory_request_v1 → Z * vf_memory_reply_v1 * S.

Definition provider_error (m : vf_memory_run_result_v1) (reason : Z) : Z * vf_memory_run_result_v1 :=
  (VF_DATA_FAULT, m <| m_provider_status := reason |>).

(** ** One exchange *)

Section Exchange.
Context {S : Type} (callback : vf_memory_callback_v1 S).

Definition memory_exchange (c : vf_cpu) (owner : S) (q : vf_memory_request_v1) (m : vf_memory_run_result_v1) :
    option (Z * vf_cpu * S * vf_memory_reply_v1 * vf_memory_run_result_v1) :=
  let m := m <| m_last_address := q_address q |> in
  let m := if q_operation q =? VF_MEMORY_FETCH then m <| m_fetch_requests := u64 (m_fetch_requests m + 1) |>
           else m <| m_data_requests := u64 (m_data_requests m + 1) |> in
  let '(rc, r, owner) := callback owner q in
  let error m reason := let '(st, m) := provider_error m reason in Some (st, c, owner, r, m) in
  if nz rc then error m VF_PROVIDER_CALLBACK_FAILURE
  else if negb (r_abi_version r =? 1) || negb (r_struct_size r =? 80) || nz (r_epoch r)
     || nz (r_reserved r).1.1 || nz (r_reserved r).1.2 || nz (r_reserved r).2
     || (VF_MEMORY_INVALID_REQUEST <? r_result r) then error m VF_PROVIDER_INVALID_REPLY
  else
    let mask := width_mask (q_width q) in
    if r_result r =? VF_MEMORY_OK then
      if nz (r_fault r) || nz (r_address r) || nz (r_esr r) || nz (Z.land (r_value0 r) (bnot 64 mask))
         || nz (Z.land (r_value1 r) (bnot 64 mask)) || ((q_count q =? 1) && nz (r_value1 r))
         || ((q_operation q =? VF_MEMORY_STORE) && (nz (r_value0 r) || nz (r_value1 r)))
      then error m VF_PROVIDER_INVALID_REPLY
      else Some (VF_NEXT, c, owner, r, m)
    else if nz (r_value0 r) || nz (r_value1 r) then error m VF_PROVIDER_INVALID_REPLY
    else if r_result r =? VF_MEMORY_INVALID_REQUEST then
      if nz (r_fault r) || nz (r_address r) || nz (r_esr r) then error m VF_PROVIDER_INVALID_REPLY
      else error m VF_PROVIDER_INVALID_REQUEST
    else if r_result r =? VF_MEMORY_UNSUPPORTED then
      if nz (r_fault r) || nz (r_esr r)
         || (negb (r_address r =? q_address q)
             && negb ((q_count q =? 2) && (r_address r =? u64 (q_address q + q_width q))))
      then error m VF_PROVIDER_INVALID_REPLY
      else error (m <| m_last_address := r_address r |>) VF_PROVIDER_UNSUPPORTED
    else
      let fetch := q_operation q =? VF_MEMORY_FETCH in
      let kind := if fetch then VF_EXCEPTION_INSTRUCTION_ABORT else VF_EXCEPTION_ALIGNMENT_FAULT in
      let status := if fetch then VF_INSTRUCTION_ABORT else VF_ALIGNMENT_FAULT in
      let expected :=
        if fetch then 0x8a000000
        else Z.lor (Z.lor (Z.lor (shl 64 (0x24 + q_current_el q) 26) (Z.shiftl 1 25)) 0x21)
               (if q_operation q =? VF_MEMORY_STORE then 64 else 0) in
      if (if fetch then negb (r_fault r =? VF_MEMORY_PC_ALIGNMENT) || negb (nz (Z.land (q_pc q) 3))
          else negb (r_fault r =? VF_MEMORY_DATA_ALIGNMENT)
               || negb (nz (Z.land (q_address q) (u32 (q_width q - 1)))))
      then error m VF_PROVIDER_INVALID_REPLY
      else if negb (r_address r =? q_address q) || negb (r_esr r =? expected)
      then error m VF_PROVIDER_INVALID_REPLY
      else
        '(rc, p) ← vf_cpu_raise_exception (Some c) kind (c pc) (r_address r) (u32 expected)
                     (if fetch then 0 else c instruction);
        c ← p;
        if nz rc then let '(st, m) := provider_error m VF_PROVIDER_INVALID_REPLY in Some (st, c, owner, r, m)
        else Some (status, c, owner, r, m <| m_last_address := r_address r |>).

End Exchange.

(** ** One load or store *)

Definition memory_data_step {S} (callback : vf_memory_callback_v1 S) (c : vf_cpu) (owner : S)
    (m : vf_memory_run_result_v1) : option (Z * vf_cpu * S * vf_memory_run_result_v1) :=
  match decode_memory (c instruction) with
  | None => '(st, c) ← commit c VF_UNDEFINED_INSTRUCTION; Some (st, c, owner, m)
  | Some d =>
    let base := memory_register c (rn d) true in
    if stack_misaligned c d base then
      '(st, c) ← commit (c.[far := base]) VF_SP_ALIGNMENT_FAULT; Some (st, c, owner, m)
    else
      let updated := u64 (base + memory_offset c d) in
      let address := if mode d =? 1 then base else updated in
      let mask := width_mask (width d) in
      let q := {|
        q_abi_version := 1; q_struct_size := 80;
        q_operation := if read d then VF_MEMORY_LOAD else VF_MEMORY_STORE; q_flags := 0;
        q_pc := c pc; q_address := address;
        q_value0 := if negb (read d) then Z.land (memory_register c (rt d) false) mask else 0;
        q_value1 := if negb (read d) && (count d =? 2) then Z.land (memory_register c (rt2 d) false) mask else 0;
        q_sctlr := c sctlr; q_epoch := 0; q_width := width d; q_count := count d;
        q_current_el := c current_el; q_reserved := 0 |} in
      '(st, c, owner, r, m) ← memory_exchange callback c owner q m;
      if negb (st =? VF_NEXT) then Some (st, c, owner, m)
      else
        let c := retire (store_registers c d updated (r_value0 r) (r_value1 r)) in
        Some (VF_NEXT, c, owner,
              m <| m_completed_data_operations := u64 (m_completed_data_operations m + 1) |>)
  end.

(** ** What a reply may say *)

Record reply_fits (r : vf_memory_reply_v1) : Prop := {
  rf_value0 : fits 64 (r_value0 r); rf_value1 : fits 64 (r_value1 r); rf_result : fits 32 (r_result r);
  rf_address : fits 64 (r_address r);
}.
Definition provider_typed {S} (callback : vf_memory_callback_v1 S) : Prop :=
  ∀ s q, reply_fits (callback s q).1.2.

Record request_ok (q : vf_memory_request_v1) : Prop := {
  qo_operation : q_operation q = 1 ∨ q_operation q = 2 ∨ q_operation q = 3;
  qo_width : access_width (q_width q);
  qo_el : 0 ≤ q_current_el q ≤ 3;
}.

(** The syndrome of a data abort. *)
Definition abort_syndrome (el fsc : Z) (store : bool) : Z :=
  (0x24 + el) * 2 ^ 26 + 2 ^ 25 + fsc + (if store then 64 else 0).

Definition header_ok (r : vf_memory_reply_v1) : Prop :=
  r_abi_version r = 1 ∧ r_struct_size r = 80 ∧ r_epoch r = 0 ∧ r_reserved r = (0, 0, 0).

(** Success: the values requested, no more, and nothing else. *)
Definition ok_reply (q : vf_memory_request_v1) (r : vf_memory_reply_v1) : Prop :=
  header_ok r ∧ r_result r = VF_MEMORY_OK ∧ r_fault r = 0 ∧ r_address r = 0 ∧ r_esr r = 0 ∧
  fits (8 * q_width q) (r_value0 r) ∧ fits (8 * q_width q) (r_value1 r) ∧
  (q_count q = 1 → r_value1 r = 0) ∧ (q_operation q = VF_MEMORY_STORE → r_value0 r = 0 ∧ r_value1 r = 0).

(** An alignment fault, when the access is misaligned, with the syndrome of that access. *)
Definition fault_reply (q : vf_memory_request_v1) (r : vf_memory_reply_v1) : Prop :=
  header_ok r ∧ r_result r = VF_MEMORY_GUEST_FAULT ∧ r_value0 r = 0 ∧ r_value1 r = 0 ∧ r_address r = q_address q ∧
  if q_operation q =? VF_MEMORY_FETCH then
    r_fault r = VF_MEMORY_PC_ALIGNMENT ∧ q_pc q mod 4 ≠ 0 ∧ r_esr r = 0x8a000000
  else
    r_fault r = VF_MEMORY_DATA_ALIGNMENT ∧ q_address q mod q_width q ≠ 0 ∧
    r_esr r = abort_syndrome (q_current_el q) 0x21 (q_operation q =? VF_MEMORY_STORE).

#[export] Instance header_ok_dec r : Decision (header_ok r).
Proof. unfold header_ok. apply _. Defined.
#[export] Instance ok_reply_dec q r : Decision (ok_reply q r).
Proof. unfold ok_reply. apply _. Defined.
#[export] Instance fault_reply_dec q r : Decision (fault_reply q r).
Proof. unfold fault_reply. destruct (_ =? _); apply _. Defined.

(** The exception a fault raises. *)
Definition faulted (c : vf_cpu) (q : vf_memory_request_v1) (r : vf_memory_reply_v1) : Z * vf_cpu :=
  if q_operation q =? VF_MEMORY_FETCH then
    (VF_INSTRUCTION_ABORT, raised c VF_EXCEPTION_INSTRUCTION_ABORT (c pc) (r_address r) (r_esr r) 0)
  else
    (VF_ALIGNMENT_FAULT, raised c VF_EXCEPTION_ALIGNMENT_FAULT (c pc) (r_address r) (r_esr r) (c instruction)).

(** ** Lemmas *)

Lemma syndrome_sum el store : 0 ≤ el ≤ 3 →
  Z.lor (Z.lor (Z.lor (shl 64 (0x24 + el) 26) (Z.shiftl 1 25)) 0x21) (if (store : bool) then 64 else 0)
  = abort_syndrome el 0x21 store.
Proof. intros He. assert (el = 0 ∨ el = 1 ∨ el = 2 ∨ el = 3) as [-> | [-> | [-> | ->]]] by lia; by destruct store. Qed.

Lemma syndrome_word el fsc store : 0 ≤ el ≤ 3 → 0 ≤ fsc < 64 →
  fits 32 (abort_syndrome el fsc store) ∧ abort_syndrome el fsc store ≠ 0.
Proof. unfold abort_syndrome, fits. destruct store; lia. Qed.

(** Raising with a given syndrome. *)
Lemma raise_exact c kind far_ syn insn :
  cpu_ok c → kind = VF_EXCEPTION_INSTRUCTION_ABORT ∨ kind = VF_EXCEPTION_ALIGNMENT_FAULT ∨ kind = VF_EXCEPTION_DATA_ABORT →
  fits 64 far_ → fits 32 syn → syn ≠ 0 → fits 32 insn →
  ∃ rc c', vf_cpu_raise_exception (Some c) kind (c pc) far_ syn insn = Some (rc, Some c') ∧ cpu_ok c' ∧
    if decide (c exception_pending = 0) then rc = 0 ∧ ∀ f, c' f = raised c kind (c pc) far_ syn insn f
    else nz rc = true ∧ c' = c.
Proof.
  intros Hc Hk Hf Hs Hs0 Hi. assert (valid_exception_kind kind = true) as Hv by (by destruct Hk as [-> | [-> | ->]]).
  case_decide as Hp.
  - destruct (raise_spec c kind (c pc) far_ syn insn Hc Hv Hp) as (syn' & c' & -> & Hsyn & Hc').
    assert (syn' = syn) as ->. { destruct (syn =? 0) eqn:E; [lia|]. by injection Hsyn. }
    exists 0, c'. split_and!; try done. apply (cpu_ok_ext _ _ Hc'), raised_ok; try done.
    + destruct Hk as [-> | [-> | ->]]; by vm_compute.
    + apply (proj1 Hc pc).
    + by apply (fits_weaken 32).
  - exists (-1), c. rewrite raise_refused by auto. done.
Qed.

(** ** The exchange *)

Section Exchange_spec.
Context {S : Type} (callback : vf_memory_callback_v1 S).

(** The counters of the run that an exchange moves. *)
Definition counted (q : vf_memory_request_v1) (m m' : vf_memory_run_result_v1) : Prop :=
  (if q_operation q =? VF_MEMORY_FETCH
   then m_fetch_requests m' = u64 (m_fetch_requests m + 1) ∧ m_data_requests m' = m_data_requests m
   else m_fetch_requests m' = m_fetch_requests m ∧ m_data_requests m' = u64 (m_data_requests m + 1)) ∧
  m_completed_data_operations m' = m_completed_data_operations m ∧ m_execution m' = m_execution m.

(** The three outcomes. *)
Definition exchanged (c : vf_cpu) (q : vf_memory_request_v1) (m : vf_memory_run_result_v1) (rc : Z) (r : vf_memory_reply_v1)
    (st : Z) (c' : vf_cpu) (m' : vf_memory_run_result_v1) : Prop :=
  if decide (rc = 0 ∧ ok_reply q r) then st = VF_NEXT ∧ c' = c ∧ m_provider_status m' = m_provider_status m
  else if decide (rc = 0 ∧ fault_reply q r ∧ c exception_pending = 0) then
    st = (faulted c q r).1 ∧ (∀ f, c' f = (faulted c q r).2 f) ∧ m_provider_status m' = m_provider_status m
  else st = VF_DATA_FAULT ∧ c' = c ∧ 1 ≤ m_provider_status m' ≤ 4 ∧ (m_provider_status m' = VF_PROVIDER_CALLBACK_FAILURE ↔ rc ≠ 0).

Lemma exchanged_refused c q m rc r m' :
  ¬ (rc = 0 ∧ ok_reply q r) → ¬ (rc = 0 ∧ fault_reply q r ∧ c exception_pending = 0) →
  1 ≤ m_provider_status m' ≤ 4 → (m_provider_status m' = VF_PROVIDER_CALLBACK_FAILURE ↔ rc ≠ 0) →
  exchanged c q m rc r VF_DATA_FAULT c m'.
Proof. intros. unfold exchanged. by rewrite !decide_False. Qed.

(** The replies as the tests of the code read them. *)
Lemma ok_reply_tests q r : request_ok q → reply_fits r →
  ok_reply q r ↔ header_ok r ∧ r_result r = 0 ∧ r_fault r = 0 ∧ r_address r = 0 ∧ r_esr r = 0 ∧
    Z.land (r_value0 r) (bnot 64 (width_mask (q_width q))) = 0 ∧ Z.land (r_value1 r) (bnot 64 (width_mask (q_width q))) = 0 ∧
    (q_count q = 1 → r_value1 r = 0) ∧ (q_operation q = 3 → r_value0 r = 0 ∧ r_value1 r = 0).
Proof.
  intros [_ Hw _] [H0 H1 _ _]. unfold ok_reply, VF_MEMORY_OK, VF_MEMORY_STORE.
  rewrite <- (in_mask _ _ Hw H0), <- (in_mask _ _ Hw H1), !nz_false. done.
Qed.

Lemma header_tests r :
  negb (r_abi_version r =? 1) || negb (r_struct_size r =? 80) || nz (r_epoch r)
     || nz (r_reserved r).1.1 || nz (r_reserved r).1.2 || nz (r_reserved r).2 = negb (bool_decide (header_ok r)).
Proof.
  apply eq_true_iff_eq. rewrite negb_true_iff, bool_decide_eq_false. unfold header_ok, nz.
  destruct (r_reserved r) as [[a b] c]. cbn [fst snd]. rewrite !pair_eq. lia.
Qed.

Ltac refuse :=
  eexists _, _, _; split; [reflexivity|]; split; [done|]; split; [assumption|];
  apply exchanged_refused;
    [rewrite ok_reply_tests by done| |cbn; by vm_compute|cbn];
  unfold nz, VF_MEMORY_STORE, VF_PROVIDER_CALLBACK_FAILURE, VF_PROVIDER_INVALID_REPLY, VF_PROVIDER_INVALID_REQUEST,
    VF_PROVIDER_UNSUPPORTED in *;
  try intros Hcontra; first [tauto|lia|unfold fault_reply, VF_MEMORY_GUEST_FAULT in *; first [tauto|destruct_and?; lia]].

(** The last case: a fault is checked against the access and raised. *)
Lemma fault_reply_tests q r : request_ok q → header_ok r → r_result r = 1 → nz (r_value0 r) || nz (r_value1 r) = false →
  let fetch := q_operation q =? VF_MEMORY_FETCH in
  let expected := if fetch then 0x8a000000 else abort_syndrome (q_current_el q) 0x21 (q_operation q =? VF_MEMORY_STORE) in
  ((if fetch then negb (r_fault r =? VF_MEMORY_PC_ALIGNMENT) || negb (nz (Z.land (q_pc q) 3))
    else negb (r_fault r =? VF_MEMORY_DATA_ALIGNMENT) || negb (nz (Z.land (q_address q) (u32 (q_width q - 1)))))
   || (negb (r_address r =? q_address q) || negb (r_esr r =? expected))) = negb (bool_decide (fault_reply q r)).
Proof.
  intros [_ Hw _] Hh E1 Ev. cbv zeta. rewrite offset_in_width, land_3_mod by done.
  apply eq_true_iff_eq. rewrite negb_true_iff, bool_decide_eq_false. unfold fault_reply, VF_MEMORY_GUEST_FAULT.
  unfold nz in *. destruct (q_operation q =? VF_MEMORY_FETCH); (split; [intros H' (_ & _ & _ & _ & H1 & H2); lia|]);
    intros H'; apply not_false_iff_true; intros Hb; apply H'; split_and!; try done; lia.
Qed.

Lemma exchange_spec c s q m rc r s' :
  cpu_ok c → request_ok q → reply_fits r → callback s q = (rc, r, s') →
  ∃ st c' m', memory_exchange callback c s q m = Some (st, c', s', r, m') ∧ cpu_ok c' ∧ counted q m m' ∧
    exchanged c q m rc r st c' m'.
Proof.
  intros Hc Hq Hr Hcb. unfold memory_exchange. rewrite Hcb. cbn [provider_error]. rewrite header_tests.
  set (m1 := if q_operation q =? VF_MEMORY_FETCH then _ <| m_fetch_requests := _ |> else _).
  assert (counted q m m1 ∧ m_provider_status m1 = m_provider_status m) as [Hm1 Hs1].
  { unfold counted, m1. by destruct (q_operation q =? VF_MEMORY_FETCH). }
  clearbody m1.
  destruct (nz rc) eqn:Erc; [refuse|]. apply nz_false in Erc as ->.
  case_bool_decide as Hh; cbn [negb orb]; [|refuse].
  destruct (_ <? r_result r) eqn:Er; unfold VF_MEMORY_INVALID_REQUEST in Er; [refuse|].
  unfold VF_MEMORY_OK. destruct (r_result r =? 0) eqn:E0.
  { destruct (_ || _) eqn:Ev; [refuse|].
    assert (ok_reply q r).
    { apply ok_reply_tests; [done..|]. unfold nz, VF_MEMORY_STORE in Ev. split; [done|]. lia. }
    eexists _, _, _. split; [reflexivity|]. split; [done|]. split; [exact Hm1|].
    unfold exchanged. rewrite decide_True by done. by split_and!. }
  destruct (nz (r_value0 r) || nz (r_value1 r)) eqn:Ev; [refuse|].
  destruct (r_result r =? VF_MEMORY_INVALID_REQUEST) eqn:E3; unfold VF_MEMORY_INVALID_REQUEST in E3.
  { test Eu; refuse. }
  destruct (r_result r =? VF_MEMORY_UNSUPPORTED) eqn:E2; unfold VF_MEMORY_UNSUPPORTED in E2.
  { test Eu; refuse. }
  assert (r_result r = 1) as E1 by (pose proof (rf_result r Hr) as [? _]; lia).
  rewrite syndrome_sum by apply Hq. pose proof (fault_reply_tests q r Hq Hh E1 Ev) as Ht. cbv zeta in Ht.
  symmetry in Ht. set (fetch := q_operation q =? VF_MEMORY_FETCH) in *.
  set (syn := if fetch then 0x8a000000 else _) in *.
  case_bool_decide as Hf; cbn [negb] in Ht; symmetry in Ht;
    [apply orb_false_iff in Ht as [-> ->]|test EA; [refuse|]; test EB; [refuse|discriminate]].
  assert (fits 32 syn ∧ syn ≠ 0) as [Hs Hs0].
  { unfold syn. destruct fetch; [by split|]. by apply syndrome_word; [apply Hq|]. }
  rewrite (wrap_id 32) by done.
  set (kind := if fetch then VF_EXCEPTION_INSTRUCTION_ABORT else _). set (insn := if fetch then 0 else c instruction).
  destruct (raise_exact c kind (r_address r) syn insn) as (rc & c' & -> & Hok & Hcase); try done.
  { unfold kind. destruct fetch; auto. }
  { apply Hr. }
  { unfold insn. destruct fetch; [done|apply (proj1 Hc instruction)]. }
  cbn [mbind option_bind]. case_decide as Hp.
  - destruct Hcase as [-> Hc']. cbn [nz Z.eqb negb]. eexists _, _, _. split; [reflexivity|].
    split; [done|]. split; [exact Hm1|]. unfold exchanged. rewrite decide_False, decide_True; [|done|].
    + unfold faulted. fold fetch. destruct Hf as (_ & _ & _ & _ & _ & He). fold fetch in He. split_and!.
      * by destruct fetch.
      * intros f. rewrite Hc'. assert (syn = r_esr r) as -> by (unfold syn; destruct fetch; symmetry; apply He). unfold kind, insn. by destruct fetch.
      * done.
    + intros [_ (_ & H0 & _)]. by rewrite H0 in E1.
  - destruct Hcase as [-> ->]. eexists _, _, _. split; [reflexivity|].
    split; [done|]. split; [exact Hm1|]. apply exchanged_refused; [|tauto|by vm_compute|done].
    intros [_ (_ & H0 & _)]. by rewrite H0 in E1.
Qed.

End Exchange_spec.

(** ** The data step *)

(** What a provider of memory promises: an accepted request reads or writes the bytes it
    names, a refused one changes nothing. *)
Class MemoryService {S : Type} (callback : vf_memory_callback_v1 S) := {
  bytes : S → memory;
  service_typed : provider_typed callback;
  service_accepts : ∀ s q rc r s', request_ok q → callback s q = (rc, r, s') → rc = 0 ∧ ok_reply q r →
    let read_ k := word_at (bytes s) (q_address q + k * q_width q) (Z.to_nat (q_width q)) in
    let write_ m k v := with_word m (q_address q + k * q_width q) (q_width q) v in
    if q_operation q =? VF_MEMORY_STORE then
      ∀ a, bytes s' a =
        (let m := write_ (bytes s) 0 (q_value0 q) in if q_count q =? 2 then write_ m 1 (q_value1 q) else m) a
    else r_value0 r = read_ 0 ∧ (q_count q = 2 → r_value1 r = read_ 1) ∧ ∀ a, bytes s' a = bytes s a;
  service_refuses : ∀ s q rc r s', request_ok q → callback s q = (rc, r, s') → ¬ (rc = 0 ∧ ok_reply q r) →
    ∀ a, bytes s' a = bytes s a;
}.

Section Data_step.
Context {S : Type} (callback : vf_memory_callback_v1 S) `{!MemoryService callback}.

(** The request of the step. *)
Definition request_of (c : vf_cpu) (d : memory_shape) : vf_memory_request_v1 := {|
  q_abi_version := 1; q_struct_size := 80;
  q_operation := if read d then VF_MEMORY_LOAD else VF_MEMORY_STORE; q_flags := 0;
  q_pc := c pc; q_address := accessed c d;
  q_value0 := if negb (read d) then Z.land (memory_register c (rt d) false) (width_mask (width d)) else 0;
  q_value1 := if negb (read d) && (count d =? 2) then Z.land (memory_register c (rt2 d) false) (width_mask (width d)) else 0;
  q_sctlr := c sctlr; q_epoch := 0; q_width := width d; q_count := count d;
  q_current_el := c current_el; q_reserved := 0 |}.

Lemma request_of_ok c d : cpu_ok c → shape_ok d → request_ok (request_of c d).
Proof.
  intros Hc Hd. pose proof (v_el c (cpu_ok_valid c Hc)). constructor; cbn; [by destruct (read d); auto|apply Hd|lia].
Qed.

(** The outcome of a step, over the registers and the bytes of the memory. *)
Definition stepped (c : vf_cpu) (s : S) (m : vf_memory_run_result_v1) (st : Z) (c' : vf_cpu) (s' : S)
    (m' : vf_memory_run_result_v1) : Prop :=
  cpu_ok c' ∧
  if decide (st = VF_NEXT) then
    ∃ d, decode_memory (c instruction) = Some d ∧
      (∀ f, counters f = false ∨ f = retired →
        c' f = performed c d (value_at (bytes s) c d 0) (value_at (bytes s) c d 1) f) ∧
      (∀ a, bytes s' a = stored (bytes s) c d a) ∧
      m_completed_data_operations m' = u64 (m_completed_data_operations m + 1)
  else
    keeps_registers c c' ∧ (∀ a, bytes s' a = bytes s a) ∧
    m_completed_data_operations m' = m_completed_data_operations m.

(** The values an accepted reply carries are the words of the memory. *)
Lemma reply_values c d s r s' f :
  cpu_ok c → shape_ok d → callback s (request_of c d) = (0, r, s') → ok_reply (request_of c d) r →
  performed c d (r_value0 r) (r_value1 r) f = performed c d (value_at (bytes s) c d 0) (value_at (bytes s) c d 1) f.
Proof.
  intros Hc Hd Hcb Hr. pose proof (service_accepts s _ 0 r s' (request_of_ok c d Hc Hd) Hcb (conj eq_refl Hr)) as Ha.
  cbn in Ha. destruct (read d) eqn:Er; [|by apply performed_store]. cbn in Ha. destruct Ha as (-> & H1 & _).
  destruct (decide (count d = 2)) as [E|E]; [by rewrite H1|]. apply performed_one. by left.
Qed.

(** So is the memory it leaves. *)
Lemma reply_bytes c d s r s' a :
  cpu_ok c → shape_ok d → callback s (request_of c d) = (0, r, s') → ok_reply (request_of c d) r →
  bytes s' a = stored (bytes s) c d a.
Proof.
  intros Hc Hd Hcb Hr. pose proof (service_accepts s _ 0 r s' (request_of_ok c d Hc Hd) Hcb (conj eq_refl Hr)) as Ha.
  cbn in Ha. unfold stored. destruct (read d); cbn in Ha; [apply Ha|]. rewrite Ha. clear Ha.
  destruct Hd as [Hw _].
  rewrite Z.mul_0_l, Z.add_0_r, Z.mul_1_l, !land_width by done. destruct (count d =? 2); cbn [andb]; [|by apply with_word_mask; lia].
  rewrite with_word_mask by lia. unfold with_word at 1 3. destruct (_ <? _); [done|]. apply with_word_mask. lia.
Qed.

Lemma data_step_spec c s m :
  cpu_ok c → ∃ st c' s' m', memory_data_step callback c s m = Some (st, c', s', m') ∧ stepped c s m st c' s' m'.
Proof.
  intros Hc. unfold memory_data_step. assert (fits 32 (c instruction)) as Hi by apply (proj1 Hc instruction).
  destruct (decode_memory (c instruction)) as [d|] eqn:Ed.
  2: { destruct (commit_keeps c VF_UNDEFINED_INSTRUCTION Hc) as (c' & -> & Hok & Hk).
    eexists _, _, _, _. split; [reflexivity|]. split; [done|]. cbn. done. }
  pose proof (decode_ok _ _ Hi Ed) as Hd. destruct (stack_misaligned _ _ _) eqn:Es.
  { destruct (commit_keeps (c.[far := memory_register c (rn d) true]) VF_SP_ALIGNMENT_FAULT) as (c' & -> & Hok & Hk).
    { apply inert_ok; [done..|by apply x_fits]. }
    eexists _, _, _, _. split; [reflexivity|]. split; [done|]. cbn. split_and!; [|done|done]. intros f Hf. rewrite Hk by done.
    cbn [upd]. rewrite eqb_ne; [done|]. by intros ->. }
  cbv zeta. rewrite updated_spec by done. fold (accessed c d). fold (request_of c d).
  destruct (callback s (request_of c d)) as [[rc r] s'] eqn:Hcb.
  pose proof (service_typed s (request_of c d)) as Hty. rewrite Hcb in Hty.
  destruct (exchange_spec callback c s (request_of c d) m rc r s' Hc (request_of_ok c d Hc Hd) Hty Hcb)
    as (st & c' & m' & -> & Hok & (_ & Hcount & _) & Hx).
  cbn [mbind option_bind]. unfold exchanged in Hx. case_decide as H1.
  { destruct Hx as (-> & -> & _). destruct H1 as [-> Hr]. cbn [VF_NEXT Z.eqb negb]. eexists _, _, _, _. split; [reflexivity|].
    assert (fits (8 * width d) (r_value0 r) ∧ fits (8 * width d) (r_value1 r)) as [Hv0 Hv1] by (split; apply Hr).
    split; [apply retire_ok, store_registers_ok; try done; [by apply fits_wrap|apply Hty|apply Hty]|].
    rewrite decide_True by done. exists d. split; [done|]. split_and!.
    - intros f Hf. rewrite retire_performed by done. by eapply reply_values.
    - intros a. by eapply reply_bytes.
    - cbn. by rewrite Hcount. }
  assert (∀ a, bytes s' a = bytes s a) as Hb by exact (service_refuses s _ rc r s' (request_of_ok c d Hc Hd) Hcb H1).
  assert (st ≠ VF_NEXT ∧ keeps_registers c c') as [Hst Hk].
  { case_decide as H2.
    - destruct Hx as (-> & Hf & _). unfold faulted in *. split; [by destruct (_ =? VF_MEMORY_FETCH)|].
      intros f Hr. rewrite Hf. destruct (_ =? VF_MEMORY_FETCH); by apply raised_keeps.
    - by destruct Hx as (-> & -> & _). }
  assert ((st =? VF_NEXT) = false) as -> by lia. cbn [negb]. eexists _, _, _, _. split; [reflexivity|].
  split; [done|]. rewrite decide_False by done. done.
Qed.

End Data_step.

(** A provider over an array of bytes that faults misaligned accesses. *)
Definition array_reply (result fault v0 v1 address esr : Z) : vf_memory_reply_v1 := {|
  r_abi_version := 1; r_struct_size := 80; r_result := result; r_fault := fault; r_value0 := u64 v0; r_value1 := u64 v1;
  r_address := u64 address; r_esr := esr; r_epoch := 0; r_reserved := (0, 0, 0) |}.

Definition array_provider : vf_memory_callback_v1 memory := λ m q,
  let read_ k := word_at m (q_address q + k * q_width q) (Z.to_nat (q_width q)) in
  let write_ m k v := with_word m (q_address q + k * q_width q) (q_width q) v in
  if q_operation q =? VF_MEMORY_FETCH then
    if q_pc q mod 4 =? 0 then (0, array_reply 0 0 (read_ 0) (if q_count q =? 2 then read_ 1 else 0) 0 0, m)
    else (0, array_reply 1 1 0 0 (q_address q) 0x8a000000, m)
  else if negb (q_address q mod q_width q =? 0) then
    (0, array_reply 1 2 0 0 (q_address q) (abort_syndrome (q_current_el q) 0x21 (q_operation q =? VF_MEMORY_STORE)), m)
  else if q_operation q =? VF_MEMORY_STORE then
    (0, array_reply 0 0 0 0 0 0,
     let m := write_ m 0 (q_value0 q) in if q_count q =? 2 then write_ m 1 (q_value1 q) else m)
  else (0, array_reply 0 0 (read_ 0) (if q_count q =? 2 then read_ 1 else 0) 0 0, m).

Lemma word_u64 m a w : access_width w → u64 (word_at m a (Z.to_nat w)) = word_at m a (Z.to_nat w).
Proof.
  intros Hw. apply wrap_id. pose proof (word_at_range m a (Z.to_nat w)) as Hr. unfold fits.
  assert (256 ^ Z.of_nat (Z.to_nat w) ≤ 2 ^ 64) by (by destruct Hw as [-> | [-> | [-> | ->]]]; vm_compute). lia.
Qed.

#[export] Instance array_service : MemoryService array_provider.
Proof.
  refine {| bytes := λ m, m |}.
  - intros m q. unfold array_provider. repeat case_match; by constructor; cbn; try apply fits_wrap.
  - intros m q rc r m' Hq Hcb Hok. cbv zeta. unfold array_provider in Hcb. unfold VF_MEMORY_FETCH, VF_MEMORY_STORE in *.
    destruct (q_operation q =? 1) eqn:E1.
    { assert ((q_operation q =? 3) = false) as -> by lia. destruct (_ =? 0); injection Hcb as <- <- <-; [|by destruct Hok as [_ (_ & ? & _)]].
      cbn. rewrite word_u64 by apply Hq. split_and!; [done| |done]. intros ->. cbn. apply word_u64, Hq. }
    destruct (negb _); [injection Hcb as <- <- <-; by destruct Hok as [_ (_ & ? & _)]|].
    destruct (q_operation q =? 3) eqn:E3; injection Hcb as <- <- <-; [done|]. cbn. rewrite word_u64 by apply Hq.
    split_and!; [done| |done]. intros ->. cbn. apply word_u64, Hq.
  - intros m q rc r m' Hq Hcb Hok a. unfold array_provider in Hcb. cbv zeta in Hcb.
    destruct (q_operation q =? VF_MEMORY_FETCH); [destruct (_ =? 0); by injection Hcb as <- <- <-|].
    destruct (negb _); [by injection Hcb as <- <- <-|]. destruct (q_operation q =? VF_MEMORY_STORE); injection Hcb as <- <- <-; [|done].
    destruct Hok. split; [done|]. assert (0 < 2 ^ (8 * q_width q)).
    { apply Z.pow_pos_nonneg; [lia|]. destruct (qo_width q Hq); lia. }
    repeat split; cbn; try (change (u64 0) with 0; lia).
Defined.

(** ** Properties *)

(** C19. Whatever a provider answers, an exchange has one of three outcomes.  The reply is
    a well-formed success (the values fit the access, a store returns none, every other
    field is zero): the processor is not touched.  It is the alignment fault this access
    really has, with its syndrome: exactly that exception is raised.  Anything else is
    refused, with the processor as before and the reason in the result; the reason is
    the callback's failure just when it failed. *)
Theorem exchange_decides {S} (callback : vf_memory_callback_v1 S) c s q m rc r s' :
  cpu_ok c → request_ok q → reply_fits r → callback s q = (rc, r, s') →
  ∃ st c' m', memory_exchange callback c s q m = Some (st, c', s', r, m') ∧ cpu_ok c' ∧ counted q m m' ∧
    if decide (rc = 0 ∧ ok_reply q r) then st = VF_NEXT ∧ c' = c ∧ m_provider_status m' = m_provider_status m
    else if decide (rc = 0 ∧ fault_reply q r ∧ c exception_pending = 0) then
      st = (faulted c q r).1 ∧ (∀ f, c' f = (faulted c q r).2 f) ∧ m_provider_status m' = m_provider_status m
    else st = VF_DATA_FAULT ∧ c' = c ∧ 1 ≤ m_provider_status m' ≤ 4 ∧ (m_provider_status m' = VF_PROVIDER_CALLBACK_FAILURE ↔ rc ≠ 0).
Proof. apply exchange_spec. Qed.

(** [STR W3, [X0, #-4]!] at EL1, from a misaligned and from an aligned base. *)
Definition storing (base : Z) : vf_cpu := ((reset_el1.[instruction := 0xb81fcc03]).[x 0 := base]).[x 3 := 0x11223344].
Lemma storing_ok base : fits 64 base → cpu_ok (storing base).
Proof. intros Hb. do 3 (apply inert_ok; [|done|done || by vm_compute]). exact reset_el1_ok. Qed.

Definition zero_result : vf_memory_run_result_v1 := {|
  m_abi_version := 1; m_struct_size := 192; m_provider_status := 0; m_reserved0 := 0;
  m_execution := {| b_base := {| b_status := 0; b_fault_instruction := 0; b_retired := 0; b_pc := 0; b_x0 := 0; b_x1 := 0;
      b_x2 := 0; b_x3 := 0; b_compiled_blocks := 0 |};
    b_platform_override := 0; b_pending_lines := 0; b_platform_profile := 0; b_elr := 0; b_spsr := 0;
    b_exception_vector := 0; b_esr := 0; b_pstate := 0; b_sp := 0 |};
  m_guest_far := 0; m_last_address := 0; m_fetch_requests := 0; m_data_requests := 0;
  m_completed_data_operations := 0; m_reserved1 := 0 |}.

Definition sample_store : memory_shape := {|
  width := 4; count := 1; read := false; signed_load := false; result64 := false; mode := 3; rn := 0; rt := 3; rt2 := 0;
  displacement := -4; register_offset := false; rm := 0; option_ := 0; shift := 0 |}.

Lemma exchange_decides_witness :
  let c := storing 0x1006 in let q := request_of c sample_store in let '(rc, r, s') := array_provider (λ _, 0) q in
  ∃ st c' m', memory_exchange array_provider c (λ _, 0) q zero_result = Some (st, c', s', r, m') ∧ cpu_ok c' ∧
    counted q zero_result m' ∧
    if decide (rc = 0 ∧ ok_reply q r) then st = VF_NEXT ∧ c' = c ∧ m_provider_status m' = 0
    else if decide (rc = 0 ∧ fault_reply q r ∧ c exception_pending = 0) then
      st = (faulted c q r).1 ∧ (∀ f, c' f = (faulted c q r).2 f) ∧ m_provider_status m' = 0
    else st = VF_DATA_FAULT ∧ c' = c ∧ 1 ≤ m_provider_status m' ≤ 4 ∧ (m_provider_status m' = VF_PROVIDER_CALLBACK_FAILURE ↔ rc ≠ 0).
Proof.
  cbv zeta. destruct (array_provider _ _) as [[rc r] s'] eqn:E.
  apply (exchange_decides array_provider (storing 0x1006) (λ _, 0)); [by apply storing_ok|apply request_of_ok; [by apply storing_ok|by apply (decode_ok 0xb81fcc03)]| |done].
  pose proof (service_typed (callback := array_provider) (λ _, 0) (request_of (storing 0x1006) sample_store)) as H. by rewrite E in H.
Defined.

(** C20. Loads and stores through a provider of memory do what the instruction means.  The
    step is defined on every valid processor and keeps it valid.  When it succeeds, the
    registers are those of the abstract access (the words at the effective address,
    extended to the register; the base register updated; the next word up) and the
    memory holds the stored words.  When it does not, no general register, stack
    pointer or program counter has moved, and no byte of the memory. *)
Theorem data_step_refines {S} (callback : vf_memory_callback_v1 S) `{!MemoryService callback} c s m :
  cpu_ok c →
  ∃ st c' s' m', memory_data_step callback c s m = Some (st, c', s', m') ∧ cpu_ok c' ∧
  if decide (st = VF_NEXT) then
    ∃ d, decode_memory (c instruction) = Some d ∧
      (∀ f, counters f = false ∨ f = retired →
        c' f = performed c d (value_at (bytes s) c d 0) (value_at (bytes s) c d 1) f) ∧
      (∀ a, bytes s' a = stored (bytes s) c d a) ∧
      m_completed_data_operations m' = u64 (m_completed_data_operations m + 1)
  else
    keeps_registers c c' ∧ (∀ a, bytes s' a = bytes s a) ∧
    m_completed_data_operations m' = m_completed_data_operations m.
Proof. apply data_step_spec. Qed.

Lemma data_step_refines_witness :
  ∃ st c' s' m', memory_data_step array_provider (storing 0x1008) (λ _, 0) zero_result = Some (st, c', s', m') ∧ cpu_ok c' ∧
  if decide (st = VF_NEXT) then
    ∃ d, decode_memory 0xb81fcc03 = Some d ∧
      (∀ f, counters f = false ∨ f = retired →
        c' f = performed (storing 0x1008) d (value_at (λ _, 0) (storing 0x1008) d 0) (value_at (λ _, 0) (storing 0x1008) d 1) f) ∧
      (∀ a, s' a = stored (λ _, 0) (storing 0x1008) d a) ∧ m_completed_data_operations m' = 1
  else keeps_registers (storing 0x1008) c' ∧ (∀ a, s' a = 0) ∧ m_completed_data_operations m' = 0.
Proof. exact (data_step_refines array_provider (storing 0x1008) (λ _, 0) zero_result (storing_ok 0x1008 ltac:(by vm_compute))). Defined.

End Provider.
