(* ===== verification/StageOne.v ===== *)
(** Guest memory under address translation ([runtime/memory_stage1.inc],
    [memory_abi_v2.h], [memory_boot_v2.h]).

    The second version of the provider interface: the request carries the translation
    controls, and a fault names the stage of the table walk it comes from.  The processor
    recomputes the syndrome from that provenance and refuses a reply that does not fit
    the controls.  The callback is an argument, with a state of its own; [None] is an
    index outside an array of the processor state or outside the table of address
    sizes. *)
From S2P Require Import Prelude.
From S2P Require Import Words.
From S2P Require Import Mmio.
From S2P Require Import Cpu.
From S2P Require Import Insn.
From S2P Require Import Steps.
From S2P Require Import LoadStore.
From S2P Require Import Provider.

Module StageOne.
Import Cpu.
Import Cpu.F.
Import Insn.
Import Steps.
Import LoadStore.
Import Provider(VF_MEMORY_FETCH, VF_MEMORY_LOAD, VF_MEMORY_STORE, VF_PROVIDER_UNSUPPORTED,
  VF_PROVIDER_INVALID_REQUEST, VF_PROVIDER_INVALID_REPLY, VF_PROVIDER_CALLBACK_FAILURE,
  vf_memory_run_result_v1, Build_vf_memory_run_result_v1,
  m_abi_version, m_struct_size, m_provider_status, m_reserved0, m_execution, m_guest_far, m_last_address,
  m_fetch_requests, m_data_requests, m_completed_data_operations, m_reserved1, provider_error,
  abort_syndrome, raise_exact, syndrome_word).

Definition VF_MEMORY_V2_VERSION := 2.
Definition VF_MEMORY_V2_FIXED_NC := 1.
Definition VF_MEMORY_V2_FIXED_NC_UNALIGNED := 3.
Definition VF_MEMORY_V2_OK := 0.
Definition VF_MEMORY_V2_GUEST_FAULT := 1.
Definition VF_MEMORY_V2_UNSUPPORTED := 2.
Definition VF_MEMORY_V2_UNAVAILABLE := 3.
Definition VF_MEMORY_V2_INVALID_REQUEST := 4.
Definition VF_MEMORY_V2_PC_ALIGNMENT := 1.
Definition VF_MEMORY_V2_DATA_ALIGNMENT := 2.
Definition VF_MEMORY_V2_ADDRESS_SIZE := 3.
Definition VF_MEMORY_V2_TRANSLATION := 4.
Definition VF_MEMORY_V2_PERMISSION := 5.
Definition VF_MEMORY_V2_ACCESS_FLAG := 6.
Definition VF_MEMORY_V2_NO_LEVEL := UINT32_MAX.
Definition VF_MEMORY_V2_INPUT := 1.
Definition VF_MEMORY_V2_WALK := 2.
Definition VF_MEMORY_V2_LEAF := 3.
Definition VF_MEMORY_V2_CACHED_LEAF := 4.
Definition VF_MEMORY_V2_HAS_DESCRIPTOR := 1.
Definition VF_MEMORY_V2_HAS_OUTPUT := 2.
Definition VF_PROVIDER_UNAVAILABLE_V2 := 5.

Record vf_memory_controls_v2 := {
  k_abi_version : Z; k_struct_size : Z; k_profile : Z; k_reserved : Z;
  k_sctlr : Z; k_ttbr0 : Z; k_ttbr1 : Z; k_tcr : Z; k_mair : Z; k_hcr : Z; k_scr : Z; k_epoch : Z;
}.
Record vf_memory_request_v2 := {
  q_abi_version : Z; q_struct_size : Z; q_operation : Z; q_flags : Z; q_width : Z; q_count : Z; q_current_el : Z;
  q_reserved0 : Z; q_pc : Z; q_address : Z; q_value0 : Z; q_value1 : Z; q_pstate : Z;
  q_controls : vf_memory_controls_v2; q_reserved1 : Z;
}.
Record vf_memory_reply_v2 := {
  r_abi_version : Z; r_struct_size : Z; r_result : Z; r_fault : Z; r_level : Z; r_context : Z; r_fsc : Z;
  r_metadata_flags : Z; r_value0 : Z; r_value1 : Z; r_address : Z; r_esr : Z; r_epoch : Z; r_descriptor_pa : Z;
  r_output_pa : Z; r_reserved : list Z;
}.
Record vf_memory_run_result_v2 := { m_base : vf_memory_run_result_v1; m_last_reply : vf_memory_reply_v2 }.

Definition vf_memory_callback_v2 (S : Type) := S → vf_memory_request_v2 → Z * vf_memory_reply_v2 * S.

(** ** Controls *)

Definition vf_memory_controls_valid_v2 (p : ptr vf_memory_controls_v2) : bool :=
  let mask := Z.lor (Z.lor (Z.lor (Z.lor (Z.lor (Z.lor (Z.lor 0x3f (Z.shiftl 1 7)) (Z.shiftl 3 14))
    (Z.shiftl 0x3f 16)) (Z.shiftl 1 22)) (Z.shiftl 1 23)) (Z.shiftl 3 30)) (Z.shiftl 7 32) in
  match p with
  | None => false
  | Some c =>
    match (if k_profile c =? VF_MEMORY_V2_FIXED_NC then Some 0x30d00803
           else if k_profile c =? VF_MEMORY_V2_FIXED_NC_UNALIGNED then Some 0x30d00801 else None) with
    | None => false
    | Some sctlr_ =>
      if negb (k_abi_version c =? 2) || negb (k_struct_size c =? 80) || nz (k_reserved c) || negb (k_epoch c =? 1)
         || negb (k_mair c =? 0x44) || nz (k_hcr c) || nz (k_scr c)
         || negb (Z.land (k_sctlr c) (bnot 64 0x18) =? sctlr_) || nz (Z.land (k_tcr c) (bnot 64 mask))
         || (5 <? Z.land (Z.shiftr (k_tcr c) 32) 7) then false
      else
        let tg0 := Z.land (Z.shiftr (k_tcr c) 14) 3 in
        let tg1 := Z.land (Z.shiftr (k_tcr c) 30) 3 in
        let t0 := Z.land (k_tcr c) 63 in
        let t1 := Z.land (Z.shiftr (k_tcr c) 16) 63 in
        match (if (tg0 =? 0) && (tg1 =? 2) then Some (16, 39, 0x1000)
               else if (tg0 =? 2) && (tg1 =? 1) then Some (17, 47, 0x4000) else None) with
        | None => false
        | Some (min_, max_, alignment) =>
          if (t0 <? min_) || (max_ <? t0) || (t1 <? min_) || (max_ <? t1) then false
          else
            let allowed := Z.lor (Z.land 0x0000ffffffffffff (bnot 64 (alignment - 1))) 0x00ff000000000000 in
            negb (nz (Z.land (k_ttbr0 c) (bnot 64 allowed))) && negb (nz (Z.land (k_ttbr1 c) (bnot 64 allowed)))
        end
    end
  end.

Definition v2_error (m : vf_memory_run_result_v2) (reason : Z) : Z * vf_memory_run_result_v2 :=
  let '(st, base) := provider_error (m_base m) reason in (st, m <| m_base := base |>).

Definition v2_controls_match (c : vf_cpu) (k : vf_memory_controls_v2) : bool :=
  (c sctlr =? k_sctlr k) && (c ttbr0 =? k_ttbr0 k) && (c ttbr1 =? k_ttbr1 k) && (c tcr =? k_tcr k)
  && (c mair =? k_mair k) && (c hcr_el2 =? k_hcr k) && (c scr_el3 =? k_scr k)
  && (c current_el <=? VF_EL1) && negb (nz (Z.land (c pstate) (bnot 64 0xf00003cf))).

(** ** Replies *)

Definition v2_provenance_valid (r : vf_memory_reply_v2) : bool :=
  let descriptor := nz (Z.land (r_metadata_flags r) 1) in
  let output := nz (Z.land (r_metadata_flags r) 2) in
  if nz (Z.land (r_metadata_flags r) (bnot 32 3)) || (negb descriptor && nz (r_descriptor_pa r))
     || (negb output && nz (r_output_pa r))
     || (descriptor && (nz (Z.land (r_descriptor_pa r) 7) || nz (Z.shiftr (r_descriptor_pa r) 48)))
     || (output && nz (Z.shiftr (r_output_pa r) 48)) || (4 <? r_context r) then false
  else if r_context r =? 0 then (r_level r =? UINT32_MAX) && negb descriptor
  else if r_context r =? VF_MEMORY_V2_INPUT then
    negb descriptor && ((r_level r =? 0) || (r_level r =? UINT32_MAX))
  else (r_level r <=? 3) && descriptor.

Definition v2_alignment_required (q : vf_memory_request_v2) : bool :=
  nz (Z.land (q_address q) (u32 (q_width q - 1)))
  && ((q_operation q =? VF_MEMORY_FETCH) || nz (Z.land (k_sctlr (q_controls q)) 2)).

Definition physical_bits : list Z := [32; 36; 40; 42; 44; 48].

(** The level, descriptor and output of a fault of the walk do not fit the controls. *)
Definition v2_stage_refused (q : vf_memory_request_v2) (r : vf_memory_reply_v2) (physical_mask : Z) : bool :=
  let tcr_ := k_tcr (q_controls q) in
  let sixteen := Z.land (Z.shiftr tcr_ 14) 3 =? 2 in
  let beyond := nz (Z.land (r_output_pa r) (bnot 64 physical_mask)) in
  let unreachable := u64 (physical_mask - 7) <? r_descriptor_pa r in
  if r_context r =? VF_MEMORY_V2_INPUT then
    if nz (r_level r) then true
    else if r_fault r =? VF_MEMORY_V2_TRANSLATION then nz (r_metadata_flags r)
    else if r_fault r =? VF_MEMORY_V2_ADDRESS_SIZE then negb (r_metadata_flags r =? 2) || negb beyond
    else true
  else
    let tsz := if nz (Z.shiftr (r_address r) 63) then Z.land (Z.shiftr tcr_ 16) 63 else Z.land tcr_ 63 in
    let page := if sixteen then 14 else 12 in
    let bits := if sixteen then 11 else 9 in
    let levels := u32 (64 - tsz - page + bits - 1) / bits in
    let start := u32 (4 - levels) in
    if r_level r <? start then true
    else if r_context r =? VF_MEMORY_V2_WALK then
      if r_fault r =? VF_MEMORY_V2_TRANSLATION then negb (r_metadata_flags r =? 1) || unreachable
      else if r_fault r =? VF_MEMORY_V2_ADDRESS_SIZE then
        negb (nz (Z.land (r_metadata_flags r) 1))
        || (negb unreachable && (negb (nz (Z.land (r_metadata_flags r) 2)) || negb beyond))
      else true
    else if (r_level r <? (if sixteen then 2 else 1)) || negb (r_metadata_flags r =? 3) || unreachable then true
    else if (if r_context r =? VF_MEMORY_V2_CACHED_LEAF then negb (r_fault r =? VF_MEMORY_V2_PERMISSION)
             else negb (r_context r =? VF_MEMORY_V2_LEAF)
                  || (negb (r_fault r =? VF_MEMORY_V2_PERMISSION) && negb (r_fault r =? VF_MEMORY_V2_ACCESS_FLAG)
                      && negb (r_fault r =? VF_MEMORY_V2_ADDRESS_SIZE))) then true
    else if beyond then negb (r_fault r =? VF_MEMORY_V2_ADDRESS_SIZE) else r_fault r =? VF_MEMORY_V2_ADDRESS_SIZE.

(** The syndrome of a fault reply that fits the request, [None] inside when it does not. *)
Definition v2_fault_valid (q : vf_memory_request_v2) (r : vf_memory_reply_v2) : option (option Z) :=
  let fetch := q_operation q =? VF_MEMORY_FETCH in
  let store := if q_operation q =? VF_MEMORY_STORE then 64 else 0 in
  if v2_alignment_required q
     && negb (r_fault r =? (if fetch then VF_MEMORY_V2_PC_ALIGNMENT else VF_MEMORY_V2_DATA_ALIGNMENT))
  then Some None
  else if (r_fault r =? VF_MEMORY_V2_PC_ALIGNMENT) || (r_fault r =? VF_MEMORY_V2_DATA_ALIGNMENT) then
    if negb (r_address r =? q_address q) || negb (r_level r =? UINT32_MAX)
       || negb (r_context r =? VF_MEMORY_V2_INPUT) || nz (r_metadata_flags r) then Some None
    else if r_fault r =? VF_MEMORY_V2_PC_ALIGNMENT then
      if negb fetch || negb (nz (Z.land (q_pc q) 3)) || nz (r_fsc r) then Some None else Some (Some 0x8a000000)
    else if fetch || negb (v2_alignment_required q) || negb (r_fsc r =? 0x21) then Some None
    else Some (Some (Z.lor (Z.lor (Z.lor (shl 64 (0x24 + q_current_el q) 26) (Z.shiftl 1 25)) 0x21) store))
  else if (3 <? r_level r) || (r_fault r <? VF_MEMORY_V2_ADDRESS_SIZE) || (VF_MEMORY_V2_ACCESS_FLAG <? r_fault r)
     || ((fetch || nz (Z.land (k_sctlr (q_controls q)) 2)) && nz (u64 (r_address r - q_address q) mod q_width q))
  then Some None
  else
    let fsc :=
      if r_fault r =? VF_MEMORY_V2_ADDRESS_SIZE then r_level r
      else if r_fault r =? VF_MEMORY_V2_TRANSLATION then u32 (4 + r_level r)
      else if r_fault r =? VF_MEMORY_V2_PERMISSION then u32 (12 + r_level r)
      else u32 (8 + r_level r) in
    if negb (fsc =? r_fsc r) || negb (nz (r_context r)) then Some None
    else
      bits_ ← arr_get physical_bits (Z.land (Z.shiftr (k_tcr (q_controls q)) 32) 7);
      if v2_stage_refused q r (u64 (shl 64 1 bits_ - 1)) then Some None
      else
        Some (Some (Z.lor (Z.lor (Z.lor (shl 64 (u32 ((if fetch then 0x20 else 0x24) + q_current_el q)) 26)
                                        (Z.shiftl 1 25)) fsc) store)).

(** ** One exchange *)

Definition empty_reply (version epoch : Z) : vf_memory_reply_v2 := {|
  r_abi_version := version; r_struct_size := 128; r_result := 0; r_fault := 0; r_level := UINT32_MAX; r_context := 0;
  r_fsc := 0; r_metadata_flags := 0; r_value0 := 0; r_value1 := 0; r_address := 0; r_esr := 0; r_epoch := epoch;
  r_descriptor_pa := 0; r_output_pa := 0; r_reserved := [0; 0; 0; 0; 0] |}.

Section Exchange.
Context {S : Type} (callback : vf_memory_callback_v2 S).

Definition memory_exchange_version (c : vf_cpu) (owner : S) (q : vf_memory_request_v2) (m : vf_memory_run_result_v2)
    (version : Z) : option (Z * vf_cpu * S * vf_memory_reply_v2 * vf_memory_run_result_v2) :=
  let m := m <| m_last_reply := empty_reply version (k_epoch (q_controls q)) |> in
  let base := (m_base m) <| m_last_address := q_address q |> in
  let base :=
    if q_operation q =? VF_MEMORY_FETCH then base <| m_fetch_requests := u64 (m_fetch_requests base + 1) |>
    else base <| m_data_requests := u64 (m_data_requests base + 1) |> in
  let m := m <| m_base := base |> in
  let '(rc, r, owner) := callback owner q in
  let error m reason := let '(st, m) := v2_error m reason in Some (st, c, owner, r, m) in
  if nz rc then error m VF_PROVIDER_CALLBACK_FAILURE
  else if negb (r_abi_version r =? version) || negb (r_struct_size r =? 128)
     || negb (r_epoch r =? k_epoch (q_controls q)) || (4 <? r_result r) || existsb nz (r_reserved r)
     || negb (v2_provenance_valid r) then error m VF_PROVIDER_INVALID_REPLY
  else
    let mask := width_mask (q_width q) in
    let bytes := u32 (q_width q * q_count q) in
    let wrapping := UINT64_MAX - u32 (bytes - 1) <? q_address q in
    let physical_dynamic := (version =? 3) && negb (nz (Z.land (k_sctlr (q_controls q)) 1)) in
    if r_result r =? VF_MEMORY_V2_OK then
      if wrapping
         || (physical_dynamic && ((2 ^ 48 <=? q_address q) || (u64 (2 ^ 48 - q_address q) <? bytes)))
         || v2_alignment_required q || nz (r_fault r) || nz (r_fsc r) || nz (r_esr r) || nz (r_address r)
         || nz (r_context r) || negb (r_level r =? UINT32_MAX) || nz (r_metadata_flags r)
         || nz (Z.land (r_value0 r) (bnot 64 mask)) || nz (Z.land (r_value1 r) (bnot 64 mask))
         || ((q_count q =? 1) && nz (r_value1 r))
         || ((q_operation q =? VF_MEMORY_STORE) && (nz (r_value0 r) || nz (r_value1 r)))
      then error m VF_PROVIDER_INVALID_REPLY
      else Some (VF_NEXT, c, owner, r, m <| m_last_reply := r |>)
    else if nz (r_value0 r) || nz (r_value1 r) then error m VF_PROVIDER_INVALID_REPLY
    else if r_result r =? VF_MEMORY_V2_INVALID_REQUEST then
      if nz (r_fault r) || nz (r_fsc r) || nz (r_esr r) || nz (r_address r) || nz (r_context r)
         || negb (r_level r =? UINT32_MAX) || nz (r_metadata_flags r)
      then error m VF_PROVIDER_INVALID_REPLY
      else error (m <| m_last_reply := r |>) VF_PROVIDER_INVALID_REQUEST
    else if (r_address r <? q_address q) || (bytes <=? u64 (r_address r - q_address q))
    then error m VF_PROVIDER_INVALID_REPLY
    else if (r_result r =? VF_MEMORY_V2_UNSUPPORTED) || (r_result r =? VF_MEMORY_V2_UNAVAILABLE) then
      if nz (r_fault r) || nz (r_fsc r) || nz (r_esr r) then error m VF_PROVIDER_INVALID_REPLY
      else if physical_dynamic
         && (nz (r_context r) || negb (r_level r =? UINT32_MAX)
             || (if r_result r =? VF_MEMORY_V2_UNSUPPORTED then nz (r_metadata_flags r)
                 else negb (r_metadata_flags r =? 2) || negb (r_output_pa r =? r_address r)))
      then error m VF_PROVIDER_INVALID_REPLY
      else
        let m := m <| m_last_reply := r |> in
        error (m <| m_base := (m_base m) <| m_last_address := r_address r |> |>)
          (if r_result r =? VF_MEMORY_V2_UNAVAILABLE then VF_PROVIDER_UNAVAILABLE_V2 else VF_PROVIDER_UNSUPPORTED)
    else if wrapping && negb (v2_alignment_required q) then error m VF_PROVIDER_INVALID_REPLY
    else if physical_dynamic && negb (r_fault r =? VF_MEMORY_V2_PC_ALIGNMENT)
            && negb (r_fault r =? VF_MEMORY_V2_DATA_ALIGNMENT) then error m VF_PROVIDER_INVALID_REPLY
    else
      syn ← v2_fault_valid q r;
      match syn with
      | None => error m VF_PROVIDER_INVALID_REPLY
      | Some syn =>
        if negb (r_esr r =? syn) then error m VF_PROVIDER_INVALID_REPLY
        else
          let fetch := q_operation q =? VF_MEMORY_FETCH in
          let alignment := r_fault r =? VF_MEMORY_V2_DATA_ALIGNMENT in
          let kind := if fetch then VF_EXCEPTION_INSTRUCTION_ABORT
                      else if alignment then VF_EXCEPTION_ALIGNMENT_FAULT else VF_EXCEPTION_DATA_ABORT in
          let status := if fetch then VF_INSTRUCTION_ABORT
                        else if alignment then VF_ALIGNMENT_FAULT else VF_DATA_ABORT in
          '(rc, p) ← vf_cpu_raise_exception (Some c) kind (c pc) (r_address r) (u32 syn)
                       (if fetch then 0 else c instruction);
          c ← p;
          if nz rc then let '(st, m) := v2_error m VF_PROVIDER_INVALID_REPLY in Some (st, c, owner, r, m)
          else
            let m := m <| m_last_reply := r |> in
            Some (status, c, owner, r, m <| m_base := (m_base m) <| m_last_address := r_address r |> |>)
      end.

Definition memory_exchange_v2 (c : vf_cpu) (owner : S) (q : vf_memory_request_v2) (m : vf_memory_run_result_v2) :=
  memory_exchange_version c owner q m 2.

End Exchange.

(** ** One load or store *)

(** The controls of the request are those of the processor. *)
Definition memory_request_v2 (c : vf_cpu) (controls : vf_memory_controls_v2) (op width count address : Z) :
    vf_memory_request_v2 := {|
  q_abi_version := 2; q_struct_size := 160; q_operation := op; q_flags := 0; q_width := width; q_count := count;
  q_current_el := c current_el; q_reserved0 := 0; q_pc := c pc; q_address := address; q_value0 := 0; q_value1 := 0;
  q_pstate := c pstate;
  q_controls := controls <| k_sctlr := c sctlr |> <| k_ttbr0 := c ttbr0 |> <| k_ttbr1 := c ttbr1 |>
    <| k_tcr := c tcr |> <| k_mair := c mair |> <| k_hcr := c hcr_el2 |> <| k_scr := c scr_el3 |>;
  q_reserved1 := 0 |}.

Definition memory_data_step_version {S} (callback : vf_memory_callback_v2 S) (c : vf_cpu)
    (controls : vf_memory_controls_v2) (owner : S) (m : vf_memory_run_result_v2) (version : Z) :
    option (Z * vf_cpu * S * vf_memory_run_result_v2) :=
  match decode_memory (c instruction) with
  | None => '(st, c) ← commit c VF_UNDEFINED_INSTRUCTION; Some (st, c, owner, m)
  | Some d =>
    let base := memory_register c (rn d) true in
    if stack_misaligned c d base then
      '(st, c) ← commit (c.[far := base]) VF_SP_ALIGNMENT_FAULT; Some (st, c, owner, m)
    else
      let updated := u64 (base + memory_offset c d) in
      let address := if mode d =? 1 then base else updated in
      let q := memory_request_v2 c controls (if read d then VF_MEMORY_LOAD else VF_MEMORY_STORE)
                 (width d) (count d) address in
      let q := if version =? 3 then q <| q_abi_version := 3 |> <| q_controls := controls |> else q in
      let mask := width_mask (width d) in
      let q :=
        if negb (read d) then
          let q := q <| q_value0 := Z.land (memory_register c (rt d) false) mask |> in
          if count d =? 2 then q <| q_value1 := Z.land (memory_register c (rt2 d) false) mask |> else q
        else q in
      '(st, c, owner, r, m) ← memory_exchange_version callback c owner q m version;
      if negb (st =? VF_NEXT) then Some (st, c, owner, m)
      else
        let c := retire (store_registers c d updated (r_value0 r) (r_value1 r)) in
        let base := m_base m in
        Some (VF_NEXT, c, owner,
              m <| m_base := base <| m_completed_data_operations := u64 (m_completed_data_operations base + 1) |> |>)
  end.

Definition memory_data_step_v2 {S} (callback : vf_memory_callback_v2 S) (c : vf_cpu)
    (controls : vf_memory_controls_v2) (owner : S) (m : vf_memory_run_result_v2) :=
  memory_data_step_version callback c controls owner m 2.

(** ** What a fault means *)

Record request_ok (q : vf_memory_request_v2) : Prop := {
  qo_operation : q_operation q = 1 ∨ q_operation q = 2 ∨ q_operation q = 3;
  qo_width : access_width (q_width q);
  qo_count : q_count q = 1 ∨ q_count q = 2;
  qo_el : 0 ≤ q_current_el q ≤ 3;
  qo_address : fits 64 (q_address q);
}.

Record reply_fits (r : vf_memory_reply_v2) : Prop := {
  rf_value0 : fits 64 (r_value0 r); rf_value1 : fits 64 (r_value1 r); rf_result : fits 32 (r_result r);
  rf_fault : fits 32 (r_fault r); rf_level : fits 32 (r_level r); rf_context : fits 32 (r_context r);
  rf_flags : fits 32 (r_metadata_flags r);
  rf_address : fits 64 (r_address r); rf_descriptor : fits 64 (r_descriptor_pa r); rf_output : fits 64 (r_output_pa r);
}.

(** The translation regime of the request: its granule, the bits an address has, the
    level the walk starts at, and the end of the output addresses. *)
Definition granule_16k (q : vf_memory_request_v2) : bool := Z.land (Z.shiftr (k_tcr (q_controls q)) 14) 3 =? 2.
Definition page_bits (q : vf_memory_request_v2) : Z := if granule_16k q then 14 else 12.
Definition input_bits (q : vf_memory_request_v2) (a : Z) : Z :=
  64 - (if 2 ^ 63 <=? a then Z.land (Z.shiftr (k_tcr (q_controls q)) 16) 63 else Z.land (k_tcr (q_controls q)) 63).
Definition start_level (q : vf_memory_request_v2) (a : Z) : Z :=
  4 - (input_bits q a - page_bits q + (page_bits q - 3) - 1) / (page_bits q - 3).
Definition output_bits (q : vf_memory_request_v2) : Z :=
  default 0 (arr_get physical_bits (Z.land (Z.shiftr (k_tcr (q_controls q)) 32) 7)).
Definition output_end (q : vf_memory_request_v2) : Z := 2 ^ output_bits q.

Record regime_ok (q : vf_memory_request_v2) : Prop := {
  go_ps : Z.land (Z.shiftr (k_tcr (q_controls q)) 32) 7 ≤ 5;
  go_input : ∀ a, 17 ≤ input_bits q a ≤ 48;
}.

Definition misaligned (q : vf_memory_request_v2) : Prop :=
  q_address q mod q_width q ≠ 0 ∧ (q_operation q = VF_MEMORY_FETCH ∨ Z.testbit (k_sctlr (q_controls q)) 1 = true).

(** The stage of the walk a fault may come from, and what it has seen there: nothing of
    the tables yet, a table descriptor, or the final one. *)
Inductive stage (q : vf_memory_request_v2) (r : vf_memory_reply_v2) : Prop :=
  | Input_translation : r_context r = VF_MEMORY_V2_INPUT → r_level r = 0 → r_fault r = VF_MEMORY_V2_TRANSLATION →
      r_metadata_flags r = 0 → stage q r
  | Input_size : r_context r = VF_MEMORY_V2_INPUT → r_level r = 0 → r_fault r = VF_MEMORY_V2_ADDRESS_SIZE →
      r_metadata_flags r = 2 → output_end q ≤ r_output_pa r → stage q r
  | Walk_translation : r_context r = VF_MEMORY_V2_WALK → start_level q (r_address r) ≤ r_level r →
      r_fault r = VF_MEMORY_V2_TRANSLATION → r_metadata_flags r = 1 → r_descriptor_pa r + 8 ≤ output_end q → stage q r
  | Walk_size : r_context r = VF_MEMORY_V2_WALK → start_level q (r_address r) ≤ r_level r →
      r_fault r = VF_MEMORY_V2_ADDRESS_SIZE → Z.testbit (r_metadata_flags r) 0 = true →
      (output_end q < r_descriptor_pa r + 8 ∨
       Z.testbit (r_metadata_flags r) 1 = true ∧ output_end q ≤ r_output_pa r) → stage q r
  | Leaf : (r_context r = VF_MEMORY_V2_LEAF ∨ r_context r = VF_MEMORY_V2_CACHED_LEAF ∧ r_fault r = VF_MEMORY_V2_PERMISSION) →
      start_level q (r_address r) ≤ r_level r → (if granule_16k q then 2 else 1) ≤ r_level r →
      r_metadata_flags r = 3 → r_descriptor_pa r + 8 ≤ output_end q →
      (r_fault r = VF_MEMORY_V2_ADDRESS_SIZE ∧ output_end q ≤ r_output_pa r ∨
       (r_fault r = VF_MEMORY_V2_PERMISSION ∨ r_fault r = VF_MEMORY_V2_ACCESS_FLAG) ∧ r_output_pa r < output_end q) →
      stage q r.

(** The fault status code of a class of faults at level 0. *)
Definition class_code (fault : Z) : Z :=
  if fault =? VF_MEMORY_V2_ADDRESS_SIZE then 0 else if fault =? VF_MEMORY_V2_TRANSLATION then 4
  else if fault =? VF_MEMORY_V2_PERMISSION then 12 else 8.

(** The syndrome: the exception class, the instruction length bit, the status code and
    the write bit. *)
Definition abort_word (q : vf_memory_request_v2) (fsc : Z) : Z :=
  ((if q_operation q =? VF_MEMORY_FETCH then 0x20 else 0x24) + q_current_el q) * 2 ^ 26 + 2 ^ 25 + fsc
  + (if q_operation q =? VF_MEMORY_STORE then 64 else 0).

(** The faults an access can have, each with its syndrome.  Alignment comes first. *)
Inductive verdict (q : vf_memory_request_v2) (r : vf_memory_reply_v2) : Z → Prop :=
  | Pc_alignment : q_operation q = VF_MEMORY_FETCH → q_pc q mod 4 ≠ 0 → r_fault r = VF_MEMORY_V2_PC_ALIGNMENT →
      r_address r = q_address q → r_level r = VF_MEMORY_V2_NO_LEVEL → r_context r = VF_MEMORY_V2_INPUT →
      r_metadata_flags r = 0 → r_fsc r = 0 → verdict q r 0x8a000000
  | Data_alignment : q_operation q ≠ VF_MEMORY_FETCH → misaligned q → r_fault r = VF_MEMORY_V2_DATA_ALIGNMENT →
      r_address r = q_address q → r_level r = VF_MEMORY_V2_NO_LEVEL → r_context r = VF_MEMORY_V2_INPUT →
      r_metadata_flags r = 0 → r_fsc r = 0x21 → verdict q r (abort_word q 0x21)
  | Translation_stage : ¬ misaligned q → 3 ≤ r_fault r ≤ 6 → r_level r ≤ 3 →
      (q_operation q = VF_MEMORY_FETCH ∨ Z.testbit (k_sctlr (q_controls q)) 1 = true →
       (r_address r - q_address q) mod q_width q = 0) →
      r_fsc r = class_code (r_fault r) + r_level r → stage q r → verdict q r (abort_word q (r_fsc r)).

(** ** Lemmas *)

Lemma required_spec q : request_ok q → v2_alignment_required q = true ↔ misaligned q.
Proof.
  intros Hq. unfold v2_alignment_required, misaligned. rewrite offset_in_width by apply Hq.
  assert (nz (Z.land (k_sctlr (q_controls q)) 2) = Z.testbit (k_sctlr (q_controls q)) 1) as -> by (apply (land_bit_nz _ 1); lia).
  rewrite andb_true_iff, orb_true_iff, nz_true. lia.
Qed.

Lemma abort_word_lor q fsc : request_ok q → 0 ≤ fsc < 64 →
  Z.lor (Z.lor (Z.lor (shl 64 (u32 ((if q_operation q =? VF_MEMORY_FETCH then 0x20 else 0x24) + q_current_el q)) 26)
    (Z.shiftl 1 25)) fsc) (if q_operation q =? VF_MEMORY_STORE then 64 else 0) = abort_word q fsc.
Proof.
  intros [_ _ _ He _] Hf. unfold abort_word. set (e := (if q_operation q =? VF_MEMORY_FETCH then 0x20 else 0x24) + q_current_el q).
  assert (0 ≤ e < 64) as Hr by (unfold e; destruct (q_operation q =? _); lia). clearbody e.
  rewrite wrap_id by (unfold fits; lia). unfold shl. rewrite Z.shiftl_mul_pow2 by lia. rewrite wrap_id by (unfold fits; lia).
  change (Z.shiftl 1 25) with (2 ^ 25). rewrite lor_high_low by (lia || done).
  replace (e * 2 ^ 26 + 2 ^ 25) with ((2 * e + 1) * 2 ^ 25) by lia. rewrite lor_high_low by (unfold fits; lia).
  destruct (_ =? VF_MEMORY_STORE); [|rewrite Z.lor_0_r; lia].
  replace ((2 * e + 1) * 2 ^ 25 + fsc) with ((2 * e + 1) * 2 ^ 18 * 2 ^ 7 + fsc) by lia.
  rewrite <- (lor_high_low 7) by (unfold fits; lia). rewrite <- Z.lor_assoc, (Z.lor_comm fsc).
  change 64 with (1 * 2 ^ 6) at 1. rewrite (lor_high_low 6) by (unfold fits; lia). rewrite !(lor_high_low 7) by (unfold fits; lia). lia.
Qed.

(** The size of the output, and the two tests against it. *)
Lemma bits_spec q : regime_ok q →
  arr_get physical_bits (Z.land (Z.shiftr (k_tcr (q_controls q)) 32) 7) = Some (output_bits q) ∧ 32 ≤ output_bits q ≤ 48.
Proof.
  intros [Hps _]. unfold output_bits. pose proof (field_range (Z.shiftr (k_tcr (q_controls q)) 32) 3 7 ltac:(lia) eq_refl) as Hr.
  set (i := Z.land _ 7) in *. clearbody i.
  assert (i = 0 ∨ i = 1 ∨ i = 2 ∨ i = 3 ∨ i = 4 ∨ i = 5) as Hi by lia.
  destruct Hi as [-> | [-> | [-> | [-> | [-> | ->]]]]]; (split; [done|by vm_compute]).
Qed.

Lemma output_end_range q : regime_ok q → 2 ^ 32 ≤ output_end q ≤ 2 ^ 48.
Proof. intros [_ Hb]%bits_spec. unfold output_end. split; apply Z.pow_le_mono_r; lia. Qed.

Lemma physical_mask_spec q : regime_ok q → u64 (shl 64 1 (output_bits q) - 1) = Z.ones (output_bits q).
Proof. intros [_ Hb]%bits_spec. apply (shl_one_pred 64). lia. Qed.

Lemma beyond_spec q v : regime_ok q → fits 64 v →
  nz (Z.land v (bnot 64 (Z.ones (output_bits q)))) = (output_end q <=? v).
Proof.
  intros Hq Hv. pose proof (bits_spec q Hq) as [_ Hb]. pose proof (output_end_range q Hq). unfold output_end in *. unfold fits in Hv.
  rewrite land_bnot_ones by (done || lia). pose proof (Z.mod_pos_bound v (2 ^ output_bits q) ltac:(lia)).
  apply eq_true_iff_eq. rewrite nz_true, Z.leb_le. split; intros H1.
  - destruct (decide (2 ^ output_bits q ≤ v)); [done|]. rewrite Z.mod_small in H1 by lia. lia.
  - lia.
Qed.

Lemma unreachable_spec q v : regime_ok q → (u64 (Z.ones (output_bits q) - 7) <? v) = (output_end q <? v + 8).
Proof.
  intros Hq. pose proof (output_end_range q Hq). unfold output_end in *. rewrite Z.ones_equiv, wrap_id by (unfold fits; lia). lia.
Qed.

Lemma start_spec q a : regime_ok q → fits 64 a →
  let tsz := if nz (Z.shiftr a 63) then Z.land (Z.shiftr (k_tcr (q_controls q)) 16) 63 else Z.land (k_tcr (q_controls q)) 63 in
  let page := if granule_16k q then 14 else 12 in let bits := if granule_16k q then 11 else 9 in
  u32 (4 - u32 (64 - tsz - page + bits - 1) / bits) = start_level q a.
Proof.
  intros [_ Hi] Ha. cbv zeta. specialize (Hi a). unfold start_level, input_bits, page_bits in *. unfold fits in Ha.
  assert (nz (Z.shiftr a 63) = (2 ^ 63 <=? a)) as ->.
  { rewrite Z.shiftr_div_pow2 by lia. apply eq_true_iff_eq. rewrite nz_true, Z.leb_le. split; intros; dlia. }
  set (tsz := if _ <=? a then _ else _) in *. clearbody tsz.
  destruct (granule_16k q); rewrite (wrap_id 32 (64 - _ - _ + _ - 1)) by (unfold fits; lia);
    (rewrite wrap_id; [do 2 f_equal; lia|unfold fits; dlia]).
Qed.

Lemma bit0 v : nz (Z.land v 1) = Z.testbit v 0.
Proof. apply (land_bit_nz v 0). lia. Qed.
Lemma bit1 v : nz (Z.land v 2) = Z.testbit v 1.
Proof. apply (land_bit_nz v 1). lia. Qed.

(** The stages the code accepts, when the status code fits. *)
Lemma stage_spec q r : regime_ok q → reply_fits r → 3 ≤ r_fault r ≤ 6 → r_level r ≤ 3 → r_context r ≠ 0 →
  v2_stage_refused q r (u64 (shl 64 1 (output_bits q) - 1)) = false ↔ stage q r.
Proof.
  intros Hq Hr Hfault Hlevel Hctx. unfold v2_stage_refused.
  pose proof (start_spec q (r_address r) Hq (rf_address r Hr)) as Hst. cbv zeta in Hst. fold (granule_16k q) in *.
  rewrite Hst, physical_mask_spec, beyond_spec, unreachable_spec, bit0, bit1 by (done || apply Hr).
  pose proof (rf_level r Hr) as [Hl0 _].
  unfold VF_MEMORY_V2_INPUT, VF_MEMORY_V2_WALK, VF_MEMORY_V2_CACHED_LEAF, VF_MEMORY_V2_LEAF, VF_MEMORY_V2_TRANSLATION,
    VF_MEMORY_V2_ADDRESS_SIZE, VF_MEMORY_V2_PERMISSION, VF_MEMORY_V2_ACCESS_FLAG.
  split.
  - intros H. destruct (r_context r =? 1) eqn:E1.
    { unfold nz in H. destruct (negb (r_level r =? 0)) eqn:El; [done|]. destruct (r_fault r =? 4) eqn:E4.
      - apply Input_translation; unfold VF_MEMORY_V2_INPUT, VF_MEMORY_V2_TRANSLATION; lia.
      - destruct (r_fault r =? 3) eqn:E3; [|done]. apply Input_size; unfold VF_MEMORY_V2_INPUT, VF_MEMORY_V2_ADDRESS_SIZE; lia. }
    destruct (r_level r <? _) eqn:Es; [done|]. destruct (r_context r =? 2) eqn:E2.
    { destruct (r_fault r =? 4) eqn:E4.
      - apply Walk_translation; unfold VF_MEMORY_V2_WALK, VF_MEMORY_V2_TRANSLATION; lia.
      - destruct (r_fault r =? 3) eqn:E3; [|done]. apply Walk_size; unfold VF_MEMORY_V2_WALK, VF_MEMORY_V2_ADDRESS_SIZE; lia. }
    destruct (_ || _) eqn:Eg; [done|]. destruct (if r_context r =? 4 then _ else _) eqn:Ec; [done|].
    apply Leaf; unfold VF_MEMORY_V2_LEAF, VF_MEMORY_V2_CACHED_LEAF, VF_MEMORY_V2_PERMISSION, VF_MEMORY_V2_ADDRESS_SIZE, VF_MEMORY_V2_ACCESS_FLAG;
      destruct (r_context r =? 4) eqn:E4, (output_end q <=? r_output_pa r) eqn:Eo, (granule_16k q); lia.
  - unfold nz. intros [H1 H2 H3 H4|H1 H2 H3 H4 H5|H1 H2 H3 H4 H5|H1 H2 H3 H4 H5|H1 H2 H3 H4 H5 H6];
      unfold VF_MEMORY_V2_INPUT, VF_MEMORY_V2_WALK, VF_MEMORY_V2_CACHED_LEAF, VF_MEMORY_V2_LEAF, VF_MEMORY_V2_TRANSLATION,
        VF_MEMORY_V2_ADDRESS_SIZE, VF_MEMORY_V2_PERMISSION, VF_MEMORY_V2_ACCESS_FLAG in *.
    + by tests.
    + by tests.
    + by tests.
    + rewrite H4. destruct H5 as [H5|[-> H5]]; tests; cbn [negb andb orb]; [done|]. by rewrite andb_false_r.
    + destruct H1 as [H1|[H1 H1']], H6 as [[H6 H7]|[[H6|H6] H7]]; destruct (granule_16k q); tests; try done; lia.
Qed.

(** The status code of the code, and the offset test. *)
Lemma class_code_spec r : 3 ≤ r_fault r ≤ 6 → 0 ≤ r_level r ≤ 3 →
  (if r_fault r =? VF_MEMORY_V2_ADDRESS_SIZE then r_level r
   else if r_fault r =? VF_MEMORY_V2_TRANSLATION then u32 (4 + r_level r)
   else if r_fault r =? VF_MEMORY_V2_PERMISSION then u32 (12 + r_level r)
   else u32 (8 + r_level r)) = class_code (r_fault r) + r_level r ∧ 0 ≤ class_code (r_fault r) + r_level r < 64.
Proof.
  intros Hf Hl. unfold class_code. split_ifs; rewrite ?wrap_id by (unfold fits; lia); lia.
Qed.

Lemma offset_mod q r : request_ok q → u64 (r_address r - q_address q) mod q_width q = (r_address r - q_address q) mod q_width q.
Proof.
  intros [_ Hw _ _ _]. apply Z.mod_mod_divide.
  destruct Hw as [-> | [-> | [-> | ->]]]; [exists (2 ^ 64)|exists (2 ^ 63)|exists (2 ^ 62)|exists (2 ^ 61)]; done.
Qed.

Lemma stage_context q r : stage q r → r_context r ≠ 0.
Proof.
  unfold VF_MEMORY_V2_INPUT, VF_MEMORY_V2_WALK, VF_MEMORY_V2_LEAF, VF_MEMORY_V2_CACHED_LEAF.
  intros [H|H|H|H|[H|[H _]]]; rewrite H; by vm_compute.
Qed.

Definition fault_answer (q : vf_memory_request_v2) (r : vf_memory_reply_v2) (o : option (option Z)) : Prop :=
  ∃ v, o = Some v ∧ ∀ e, v = Some e ↔ verdict q r e.

Lemma answer_none q r : (∀ e, ¬ verdict q r e) → fault_answer q r (Some None).
Proof. intros H. exists None. split; [done|]. intros e. split; [done|]. intros He. by destruct (H e). Qed.

Lemma answer_some q r e : verdict q r e → (∀ e', verdict q r e' → e' = e) → fault_answer q r (Some (Some e)).
Proof. intros He H. exists (Some e). split; [done|]. intros e'. split; [by intros [= <-]|]. intros ->%H. done. Qed.

(** An access has at most one verdict. *)
Lemma verdict_fun q r e e' : verdict q r e → verdict q r e' → e' = e.
Proof.
  unfold VF_MEMORY_V2_PC_ALIGNMENT, VF_MEMORY_V2_DATA_ALIGNMENT in *.
  intros [] []; try done; unfold VF_MEMORY_V2_PC_ALIGNMENT, VF_MEMORY_V2_DATA_ALIGNMENT in *; try lia.
Qed.

(** The alignment faults. *)
Lemma alignment_fault_spec q r : request_ok q →
  (v2_alignment_required q = true → r_fault r = if q_operation q =? VF_MEMORY_FETCH then 1 else 2) → r_fault r = 1 ∨ r_fault r = 2 →
  fault_answer q r
    (if negb (r_address r =? q_address q) || negb (r_level r =? UINT32_MAX)
       || negb (r_context r =? VF_MEMORY_V2_INPUT) || nz (r_metadata_flags r) then Some None
    else if r_fault r =? VF_MEMORY_V2_PC_ALIGNMENT then
      if negb (q_operation q =? VF_MEMORY_FETCH) || negb (nz (Z.land (q_pc q) 3)) || nz (r_fsc r) then Some None else Some (Some 0x8a000000)
    else if (q_operation q =? VF_MEMORY_FETCH) || negb (v2_alignment_required q) || negb (r_fsc r =? 0x21) then Some None
    else Some (Some (Z.lor (Z.lor (Z.lor (shl 64 (0x24 + q_current_el q) 26) (Z.shiftl 1 25)) 0x21)
      (if q_operation q =? VF_MEMORY_STORE then 64 else 0)))).
Proof.
  intros Hq Hreq Hf. pose proof (required_spec q Hq) as Hm. rewrite land_3_mod. unfold nz.
  unfold VF_MEMORY_V2_PC_ALIGNMENT, VF_MEMORY_V2_INPUT.
  test E1.
  { apply answer_none. intros e [H1 H2 H3 H4 H5 H6 H7 H8|H1 H2 H3 H4 H5 H6 H7 H8|H1 H2 H3 H4 H5 H6];
      unfold VF_MEMORY_V2_NO_LEVEL, VF_MEMORY_V2_INPUT in *; lia. }
  destruct (r_fault r =? 1) eqn:E2.
  - test E3.
    + apply answer_none. intros e [H1 H2 H3 H4 H5 H6 H7 H8|H1 H2 H3 H4 H5 H6 H7 H8|H1 H2 H3 H4 H5 H6];
        unfold VF_MEMORY_V2_DATA_ALIGNMENT in *; lia.
    + apply answer_some; [|intros e'; apply verdict_fun];
        apply Pc_alignment; unfold VF_MEMORY_V2_PC_ALIGNMENT, VF_MEMORY_V2_NO_LEVEL, VF_MEMORY_V2_INPUT; lia.
  - test E3.
    + apply answer_none. intros e [H1 H2 H3 H4 H5 H6 H7 H8|H1 H2 H3 H4 H5 H6 H7 H8|H1 H2 H3 H4 H5 H6];
        unfold VF_MEMORY_V2_PC_ALIGNMENT in *; [lia| |lia]. apply Hm in H2. rewrite H2 in E3. lia.
    + rewrite !orb_false_iff, negb_false_iff in E3. destruct E3 as ((E3 & E4) & E5).
      pose proof (abort_word_lor q 0x21 Hq ltac:(lia)) as Ha. rewrite E3 in Ha. rewrite wrap_id in Ha by (destruct (qo_el q Hq); unfold fits; lia).
      rewrite Ha. assert (verdict q r (abort_word q 33)).
      { apply Data_alignment; try (apply Hm; done); unfold VF_MEMORY_V2_DATA_ALIGNMENT, VF_MEMORY_V2_NO_LEVEL, VF_MEMORY_V2_INPUT; lia. }
      apply answer_some; [done|]. intros e'. by apply verdict_fun.
Qed.

Lemma fault_valid_spec q r : request_ok q → regime_ok q → reply_fits r → fault_answer q r (v2_fault_valid q r).
Proof.
  intros Hq Hg Hr. pose proof (required_spec q Hq) as Hm. unfold v2_fault_valid.
  test E0.
  { apply andb_true_iff in E0 as [Ha Hb]. apply Hm in Ha. unfold VF_MEMORY_V2_PC_ALIGNMENT, VF_MEMORY_V2_DATA_ALIGNMENT in Hb.
    apply answer_none. intros e [H1 H2 H3 H4 H5 H6 H7 H8|H1 H2 H3 H4 H5 H6 H7 H8|H1 H2 H3 H4 H5 H6]; [..|done].
    - rewrite H1 in Hb. by rewrite H3 in Hb.
    - assert ((q_operation q =? VF_MEMORY_FETCH) = false) as Hx by lia. by rewrite Hx, H3 in Hb. }
  test E1.
  { apply alignment_fault_spec; [done| |unfold VF_MEMORY_V2_PC_ALIGNMENT, VF_MEMORY_V2_DATA_ALIGNMENT in E1; lia].
    intros Ha. rewrite Ha in E0. unfold VF_MEMORY_V2_PC_ALIGNMENT, VF_MEMORY_V2_DATA_ALIGNMENT in E0. lia. }
  unfold VF_MEMORY_V2_PC_ALIGNMENT, VF_MEMORY_V2_DATA_ALIGNMENT in E0, E1.
  assert (v2_alignment_required q = false) as Hn.
  { destruct (v2_alignment_required q); [|done]. destruct (_ =? VF_MEMORY_FETCH); lia. }
  assert (¬ misaligned q) as Hnm by (rewrite <- Hm; by rewrite Hn).
  rewrite offset_mod, bit1 by done.
  assert (∀ e, verdict q r e → 3 ≤ r_fault r ≤ 6 ∧ r_level r ≤ 3 ∧
      (q_operation q = VF_MEMORY_FETCH ∨ Z.testbit (k_sctlr (q_controls q)) 1 = true → (r_address r - q_address q) mod q_width q = 0) ∧
      r_fsc r = class_code (r_fault r) + r_level r ∧ stage q r) as Honly.
  { intros e [H1 H2 H3 H4 H5 H6 H7 H8|H1 H2 H3 H4 H5 H6 H7 H8|H1 H2 H3 H4 H5 H6];
      unfold VF_MEMORY_V2_PC_ALIGNMENT, VF_MEMORY_V2_DATA_ALIGNMENT in *; [lia|lia|auto]. }
  unfold VF_MEMORY_V2_ACCESS_FLAG, VF_MEMORY_V2_ADDRESS_SIZE at 1. pose proof (rf_level r Hr) as [Hl _].
  test E2.
  { apply answer_none. intros e (H1 & H2 & H3 & _)%Honly. unfold nz in E2. lia. }
  rewrite !orb_false_iff in E2. destruct E2 as (((E2a & E2b) & E2c) & E2d).
  destruct (class_code_spec r) as [-> Hcode]; [lia..|].
  test E3.
  { apply answer_none. intros e (_ & _ & _ & Hc & Hs%stage_context)%Honly. unfold nz in E3. lia. }
  rewrite orb_false_iff, !negb_false_iff, nz_true in E3. destruct E3 as [E3a%Z.eqb_eq E3b].
  destruct (bits_spec q Hg) as [-> Hb]. cbn [mbind option_bind].
  pose proof (stage_spec q r Hg Hr ltac:(lia) ltac:(lia) E3b) as Hst.
  test E4.
  { apply answer_none. intros e (_ & _ & _ & _ & Hs%Hst)%Honly. congruence. }
  pose proof (proj1 Hst eq_refl) as Hs. rewrite abort_word_lor, E3a by done.
  assert (verdict q r (abort_word q (r_fsc r))).
  { apply Translation_stage; try done; try lia. intros Hx. unfold nz in E2d. lia. }
  apply answer_some; [done|]. intros e'. by apply verdict_fun.
Qed.

(** ** What a reply may say *)

Definition header_ok (version : Z) (q : vf_memory_request_v2) (r : vf_memory_reply_v2) : Prop :=
  r_abi_version r = version ∧ r_struct_size r = 128 ∧ r_epoch r = k_epoch (q_controls q) ∧
  Forall (λ v, v = 0) (r_reserved r) ∧ v2_provenance_valid r = true.

(** The bytes of the access, and whether it goes to physical memory of a limited size. *)
Definition extent (q : vf_memory_request_v2) : Z := q_width q * q_count q.
Definition untranslated (version : Z) (q : vf_memory_request_v2) : Prop :=
  version = 3 ∧ Z.testbit (k_sctlr (q_controls q)) 0 = false.

#[export] Instance untranslated_dec version q : Decision (untranslated version q).
Proof. unfold untranslated. apply _. Defined.

Definition ok_reply (version : Z) (q : vf_memory_request_v2) (r : vf_memory_reply_v2) : Prop :=
  header_ok version q r ∧ r_result r = VF_MEMORY_V2_OK ∧
  q_address q + extent q ≤ 2 ^ 64 ∧ (untranslated version q → q_address q + extent q ≤ 2 ^ 48) ∧ ¬ misaligned q ∧
  (r_fault r = 0 ∧ r_fsc r = 0 ∧ r_esr r = 0 ∧ r_address r = 0 ∧ r_context r = 0 ∧ r_level r = VF_MEMORY_V2_NO_LEVEL ∧
   r_metadata_flags r = 0) ∧
  fits (8 * q_width q) (r_value0 r) ∧ fits (8 * q_width q) (r_value1 r) ∧
  (q_count q = 1 → r_value1 r = 0) ∧ (q_operation q = VF_MEMORY_STORE → r_value0 r = 0 ∧ r_value1 r = 0).

Definition fault_reply (version : Z) (q : vf_memory_request_v2) (r : vf_memory_reply_v2) : Prop :=
  header_ok version q r ∧ r_result r = VF_MEMORY_V2_GUEST_FAULT ∧ r_value0 r = 0 ∧ r_value1 r = 0 ∧
  q_address q ≤ r_address r < q_address q + extent q ∧
  (2 ^ 64 < q_address q + extent q → misaligned q) ∧
  (untranslated version q → r_fault r = VF_MEMORY_V2_PC_ALIGNMENT ∨ r_fault r = VF_MEMORY_V2_DATA_ALIGNMENT) ∧
  verdict q r (r_esr r).

(** The exception a fault raises. *)
Definition faulted (c : vf_cpu) (q : vf_memory_request_v2) (r : vf_memory_reply_v2) : Z * vf_cpu :=
  if q_operation q =? VF_MEMORY_FETCH then
    (VF_INSTRUCTION_ABORT, raised c VF_EXCEPTION_INSTRUCTION_ABORT (c pc) (r_address r) (r_esr r) 0)
  else if r_fault r =? VF_MEMORY_V2_DATA_ALIGNMENT then
    (VF_ALIGNMENT_FAULT, raised c VF_EXCEPTION_ALIGNMENT_FAULT (c pc) (r_address r) (r_esr r) (c instruction))
  else (VF_DATA_ABORT, raised c VF_EXCEPTION_DATA_ABORT (c pc) (r_address r) (r_esr r) (c instruction)).

Lemma verdict_word q r e : request_ok q → reply_fits r → verdict q r e → fits 32 e ∧ e ≠ 0.
Proof.
  intros Hq Hr. pose proof (rf_level r Hr) as [Hl _]. destruct (qo_el q Hq).
  assert (∀ f, 0 ≤ f < 64 → fits 32 (abort_word q f) ∧ abort_word q f ≠ 0) as Hw.
  { intros f Hf. unfold abort_word, fits. repeat case_match; lia. }
  intros [H1 H2 H3 H4 H5 H6 H7 H8|H1 H2 H3 H4 H5 H6 H7 H8|H1 H2 H3 H4 H5 H6]; [by split|by apply Hw|].
  apply Hw. rewrite H5. unfold class_code. repeat case_match; lia.
Qed.

Section Exchange_spec.
Context {S : Type} (callback : vf_memory_callback_v2 S).

Definition counted (q : vf_memory_request_v2) (m m' : vf_memory_run_result_v1) : Prop :=
  (if q_operation q =? VF_MEMORY_FETCH
   then m_fetch_requests m' = u64 (m_fetch_requests m + 1) ∧ m_data_requests m' = m_data_requests m
   else m_fetch_requests m' = m_fetch_requests m ∧ m_data_requests m' = u64 (m_data_requests m + 1)) ∧
  m_completed_data_operations m' = m_completed_data_operations m ∧ m_execution m' = m_execution m.

Inductive exchanged (version : Z) (c : vf_cpu) (q : vf_memory_request_v2) (m : vf_memory_run_result_v2) (rc : Z)
    (r : vf_memory_reply_v2) : Z → vf_cpu → vf_memory_run_result_v2 → Prop :=
  | Exchange_ok m' : rc = 0 → ok_reply version q r →
      m_provider_status (m_base m') = m_provider_status (m_base m) → m_last_reply m' = r →
      exchanged version c q m rc r VF_NEXT c m'
  | Exchange_fault c' m' : rc = 0 → fault_reply version q r → c exception_pending = 0 → ¬ ok_reply version q r →
      (∀ f, c' f = (faulted c q r).2 f) →
      m_provider_status (m_base m') = m_provider_status (m_base m) → m_last_reply m' = r →
      exchanged version c q m rc r (faulted c q r).1 c' m'
  | Exchange_refused m' : ¬ (rc = 0 ∧ ok_reply version q r) → ¬ (rc = 0 ∧ fault_reply version q r ∧ c exception_pending = 0) →
      1 ≤ m_provider_status (m_base m') ≤ 5 →
      exchanged version c q m rc r VF_DATA_FAULT c m'.

(** The replies as the tests of the code read them. *)
Lemma translated_header version q r :
  negb (r_abi_version r =? version) || negb (r_struct_size r =? 128) || negb (r_epoch r =? k_epoch (q_controls q))
     || (4 <? r_result r) || existsb nz (r_reserved r) || negb (v2_provenance_valid r) = false ↔
  header_ok version q r ∧ r_result r ≤ 4.
Proof.
  unfold header_ok. assert (existsb nz (r_reserved r) = false ↔ Forall (λ v, v = 0) (r_reserved r)) as Hz.
  { induction (r_reserved r) as [|v l IH]; cbn [existsb]; [by split; [constructor|]|].
    rewrite orb_false_iff. split.
    - intros [Hv%nz_false Hl%IH]. by apply Forall_cons_2.
    - intros [Hv%nz_false Hl%IH]%Forall_cons_1. done. }
  rewrite !orb_false_iff, !negb_false_iff, Hz. rewrite !Z.eqb_eq, Z.ltb_ge. tauto.
Qed.

Lemma extent_spec q : request_ok q →
  u32 (q_width q * q_count q) = extent q ∧ 1 ≤ extent q ≤ 16 ∧
  (UINT64_MAX - u32 (extent q - 1) <? q_address q) = (2 ^ 64 <? q_address q + extent q).
Proof.
  intros [_ Hw Hc _ _]. unfold extent. assert (1 ≤ q_width q * q_count q ≤ 16).
  { destruct Hw as [-> | [-> | [-> | ->]]], Hc as [-> | ->]; lia. }
  rewrite !wrap_id by (unfold fits; lia). split_and!; try done; lia.
Qed.

Lemma untranslated_spec version q :
  (version =? 3) && negb (nz (Z.land (k_sctlr (q_controls q)) 1)) = bool_decide (untranslated version q).
Proof.
  rewrite bit0. apply eq_true_iff_eq. rewrite bool_decide_eq_true. unfold untranslated. lia.
Qed.

Lemma beyond_physical q : request_ok q →
  (2 ^ 48 <=? q_address q) || (u64 (2 ^ 48 - q_address q) <? extent q) = (2 ^ 48 <? q_address q + extent q).
Proof.
  intros Hq. destruct (extent_spec q Hq) as (_ & He & _). pose proof (qo_address q Hq) as Ha. unfold fits in Ha.
  destruct (Z.leb_spec (2 ^ 48) (q_address q)); cbn [orb]; [lia|]. rewrite wrap_id by (unfold fits; lia). lia.
Qed.

Lemma ok_tests version q r : request_ok q → reply_fits r → header_ok version q r → r_result r = 0 →
  (2 ^ 64 <? q_address q + extent q)
   || (bool_decide (untranslated version q) && (2 ^ 48 <? q_address q + extent q))
   || v2_alignment_required q || nz (r_fault r) || nz (r_fsc r) || nz (r_esr r) || nz (r_address r)
   || nz (r_context r) || negb (r_level r =? UINT32_MAX) || nz (r_metadata_flags r)
   || nz (Z.land (r_value0 r) (bnot 64 (width_mask (q_width q)))) || nz (Z.land (r_value1 r) (bnot 64 (width_mask (q_width q))))
   || ((q_count q =? 1) && nz (r_value1 r))
   || ((q_operation q =? VF_MEMORY_STORE) && (nz (r_value0 r) || nz (r_value1 r))) = false ↔ ok_reply version q r.
Proof.
  intros Hq Hr Hh H0. pose proof (in_mask _ _ (qo_width q Hq) (rf_value0 r Hr)) as Hv0.
  pose proof (in_mask _ _ (qo_width q Hq) (rf_value1 r Hr)) as Hv1. pose proof (required_spec q Hq) as Hm.
  unfold ok_reply. rewrite !orb_false_iff, !andb_false_iff, Hv0, Hv1, !orb_false_iff, !nz_false, negb_false_iff.
  rewrite bool_decide_eq_false, !Z.ltb_ge, !Z.eqb_neq, Z.eqb_eq. unfold VF_MEMORY_V2_NO_LEVEL.
  assert (v2_alignment_required q = false ↔ ¬ misaligned q) as -> by (rewrite <- Hm; by destruct (v2_alignment_required q)).
  destruct (decide (q_count q = 1)), (decide (q_operation q = VF_MEMORY_STORE)), (decide (untranslated version q)); tauto.
Qed.

(** A refusal: the reply is neither of the two that count, because of the failed test. *)
Ltac refuse :=
  eexists _, _, _; split; [reflexivity|]; split; [done|]; split; [assumption|]; apply Exchange_refused;
    [intros [Hrc Hok]|intros (Hrc & Hf & Hp)|cbn; first [by vm_compute|idtac]];
    try (unfold nz in *; lia);
    try match goal with
    | H : ok_reply _ _ _ |- False => let Hres := fresh in pose proof (proj1 (proj2 H)) as Hres; unfold VF_MEMORY_V2_OK in *; lia
    | H : fault_reply _ _ _ |- False =>
      destruct H as (Hhd & Hres & Hv0 & Hv1 & Hwin & Hwrap & Hphys & Hver); unfold VF_MEMORY_V2_GUEST_FAULT in *; try (unfold nz in *; lia)
    end.

Lemma translated_exchange version c s q m rc r s' :
  cpu_ok c → request_ok q → regime_ok q → reply_fits r → callback s q = (rc, r, s') →
  ∃ st c' m', memory_exchange_version callback c s q m version = Some (st, c', s', r, m') ∧ cpu_ok c' ∧
    counted q (m_base m) (m_base m') ∧ exchanged version c q m rc r st c' m'.
Proof.
  intros Hc Hq Hg Hr Hcb. unfold memory_exchange_version. rewrite Hcb. cbv zeta. cbn [v2_error provider_error].
  destruct (extent_spec q Hq) as (-> & He & ->). rewrite untranslated_spec, beyond_physical by done.
  set (m1 := m <| m_last_reply := _ |> <| m_base := _ |>).
  assert (counted q (m_base m) (m_base m1) ∧ m_provider_status (m_base m1) = m_provider_status (m_base m)) as [Hm1 Hs1].
  { unfold counted, m1. by destruct (q_operation q =? VF_MEMORY_FETCH). }
  clearbody m1.
  test Erc; [refuse|]. apply nz_false in Erc as ->.
  test Eh; [refuse|].
  { rewrite (proj2 (translated_header version q r)) in Eh; [done|]. split; [apply Hok|]. destruct Hok as (_ & -> & _). by vm_compute. }
  { rewrite (proj2 (translated_header version q r)) in Eh; [done|]. split; [done|lia]. }
  apply translated_header in Eh as [Hh Er].
  test E0.
  { assert (r_result r = 0) as H0 by (unfold VF_MEMORY_V2_OK in E0; lia).
    pose proof (ok_tests version q r Hq Hr Hh H0) as Ht. test Eo; [refuse|]; [by apply Ht in Hok|].
    apply proj1 in Ht. eexists _, _, _. split; [reflexivity|]. split; [done|]. split; [assumption|]. apply Exchange_ok; auto. }
  assert (∀ v, r_result r ≠ v → v = 0 ∨ v = 1 → v = 1 ∨ r_result r ≠ 0) as _ by lia.
  unfold VF_MEMORY_V2_OK in E0.
  test Ev; [refuse; unfold nz in Ev; lia|].
  test E4.
  { unfold VF_MEMORY_V2_INVALID_REQUEST in E4. test Eg; refuse. }
  test Ew.
  { refuse. pose proof (rf_address r Hr). destruct Hq. unfold fits in *. rewrite (wrap_id 64) in Ew by (unfold fits; lia). lia. }
  test E23.
  { unfold VF_MEMORY_V2_UNSUPPORTED, VF_MEMORY_V2_UNAVAILABLE in E23. test Eg; [refuse|]. test Eg2; refuse. by destruct (_ =? VF_MEMORY_V2_UNAVAILABLE). }
  test Ewr; [refuse|].
  { rewrite andb_true_iff, negb_true_iff in Ewr. destruct Ewr as [Ewr Em]. apply Z.ltb_lt in Ewr.
    apply Hwrap, (required_spec q Hq) in Ewr. congruence. }
  test Eph; [refuse|].
  { rewrite !andb_true_iff, !negb_true_iff, bool_decide_eq_true in Eph. destruct Eph as [[Hu%Hphys E1] E2]. lia. }
  destruct (fault_valid_spec q r Hq Hg Hr) as (v & -> & Hverdict). cbn [mbind option_bind].
  assert (r_result r = 1) as E1.
  { unfold VF_MEMORY_V2_UNSUPPORTED, VF_MEMORY_V2_UNAVAILABLE, VF_MEMORY_V2_INVALID_REQUEST in *. pose proof (rf_result r Hr) as [? _]. lia. }
  destruct v as [syn|].
  2: { refuse. apply Hverdict in Hver. done. }
  test Ee; [refuse; apply Hverdict in Hver as [= ->]; lia|].
  apply negb_false_iff, Z.eqb_eq in Ee as <-. pose proof (proj1 (Hverdict (r_esr r)) eq_refl) as Hv.
  destruct (verdict_word q r (r_esr r) Hq Hr Hv) as [Hs Hs0]. rewrite (wrap_id 32) by done.
  assert (fault_reply version q r) as Hfr.
  { unfold fault_reply, VF_MEMORY_V2_GUEST_FAULT, VF_MEMORY_V2_PC_ALIGNMENT, VF_MEMORY_V2_DATA_ALIGNMENT in *. unfold nz in Ev.
    pose proof (rf_address r Hr). pose proof (qo_address q Hq). unfold fits in *.
    split_and!; try done; try lia.
    - destruct (Z.ltb_spec (r_address r) (q_address q)); [done|]. rewrite (wrap_id 64) in Ew by (unfold fits; lia). lia.
    - intros Hw%Z.ltb_lt. rewrite Hw in Ewr. cbn [andb] in Ewr. apply (required_spec q Hq). by apply negb_false_iff.
    - intros Hu. rewrite bool_decide_true in Eph by done. cbn [andb] in Eph. lia. }
  set (kind := if q_operation q =? VF_MEMORY_FETCH then VF_EXCEPTION_INSTRUCTION_ABORT else _).
  set (insn := if q_operation q =? VF_MEMORY_FETCH then 0 else c instruction).
  destruct (raise_exact c kind (r_address r) (r_esr r) insn) as (rc & c' & -> & Hcok & Hcase); try done.
  { unfold kind. repeat case_match; auto. }
  { apply Hr. }
  { unfold insn. case_match; [done|apply (proj1 Hc instruction)]. }
  cbn [mbind option_bind]. case_decide as Hpe.
  - destruct Hcase as [-> Hc']. cbn [nz Z.eqb negb]. eexists _, _, _. split; [reflexivity|].
    split; [done|]. split; [assumption|]. unfold kind, insn in Hc'.
    match goal with |- exchanged _ _ _ _ _ _ ?st _ _ => assert (st = (faulted c q r).1) as -> end.
    { unfold faulted. by repeat case_match. }
    apply Exchange_fault; try done.
    + intros Hok'. pose proof (proj1 (proj2 Hok')) as H0. unfold VF_MEMORY_V2_OK in H0. lia.
    + intros f. rewrite Hc'. unfold faulted. by repeat case_match.
  - destruct Hcase as [-> ->]. refuse.
Qed.

End Exchange_spec.

(** ** The data step *)

(** What a provider of translated memory promises: an accepted request reads or writes the
    bytes it names, a refused one changes nothing. *)
Class TranslatedMemory {S : Type} (version : Z) (callback : vf_memory_callback_v2 S) := {
  bytes : S → memory;
  service_typed : ∀ s q, reply_fits (callback s q).1.2;
  service_accepts : ∀ s q rc r s', request_ok q → callback s q = (rc, r, s') → rc = 0 ∧ ok_reply version q r →
    let read_ k := word_at (bytes s) (q_address q + k * q_width q) (Z.to_nat (q_width q)) in
    let write_ m k v := with_word m (q_address q + k * q_width q) (q_width q) v in
    if q_operation q =? VF_MEMORY_STORE then
      ∀ a, bytes s' a =
        (let m := write_ (bytes s) 0 (q_value0 q) in if q_count q =? 2 then write_ m 1 (q_value1 q) else m) a
    else r_value0 r = read_ 0 ∧ (q_count q = 2 → r_value1 r = read_ 1) ∧ ∀ a, bytes s' a = bytes s a;
  service_refuses : ∀ s q rc r s', request_ok q → callback s q = (rc, r, s') → ¬ (rc = 0 ∧ ok_reply version q r) →
    ∀ a, bytes s' a = bytes s a;
}.

(** Controls whose fields describe a regime. *)
Definition tcr_ok (tcr_ : Z) : Prop :=
  Z.land (Z.shiftr tcr_ 32) 7 ≤ 5 ∧ 16 ≤ Z.land tcr_ 63 ≤ 47 ∧ 16 ≤ Z.land (Z.shiftr tcr_ 16) 63 ≤ 47.

Lemma tcr_regime q : tcr_ok (k_tcr (q_controls q)) → regime_ok q.
Proof. intros (H1 & H2 & H3). constructor; [done|]. intros a. unfold input_bits. destruct (_ <=? a); lia. Qed.

Section Data_step.
Context {S : Type} (version : Z) (callback : vf_memory_callback_v2 S) `{!TranslatedMemory version callback}.
Context (controls : vf_memory_controls_v2).

(** The request of the step. *)
Definition request_of (c : vf_cpu) (d : memory_shape) : vf_memory_request_v2 :=
  let q := memory_request_v2 c controls (if read d then VF_MEMORY_LOAD else VF_MEMORY_STORE)
             (width d) (count d) (accessed c d) in
  let q := if version =? 3 then q <| q_abi_version := 3 |> <| q_controls := controls |> else q in
  if negb (read d) then
    let q := q <| q_value0 := Z.land (memory_register c (rt d) false) (width_mask (width d)) |> in
    if count d =? 2 then q <| q_value1 := Z.land (memory_register c (rt2 d) false) (width_mask (width d)) |> else q
  else q.

Definition regime_of (c : vf_cpu) : Z := if version =? 3 then k_tcr controls else c tcr.

Lemma request_fields c d :
  let q := request_of c d in
  q_operation q = (if read d then VF_MEMORY_LOAD else VF_MEMORY_STORE) ∧ q_width q = width d ∧ q_count q = count d ∧
  q_current_el q = c current_el ∧ q_address q = accessed c d ∧ k_tcr (q_controls q) = regime_of c ∧
  (read d = false → q_value0 q = Z.land (memory_register c (rt d) false) (width_mask (width d)) ∧
    (count d = 2 → q_value1 q = Z.land (memory_register c (rt2 d) false) (width_mask (width d)))).
Proof.
  cbv zeta. unfold request_of, regime_of. cbv zeta.
  destruct (version =? 3), (read d), (Z.eqb_spec (count d) 2); cbn [negb]; repeat split; done.
Qed.

Lemma translated_request_ok c d : cpu_ok c → shape_ok d → request_ok (request_of c d).
Proof.
  intros Hc Hd. pose proof (v_el c (cpu_ok_valid c Hc)).
  destruct (request_fields c d) as (H1 & H2 & H3 & H4 & H5 & _). destruct Hd as (Hw & Hcount & _).
  constructor; rewrite ?H1, ?H2, ?H3, ?H4, ?H5; [destruct (read d); auto|done|lia|lia|by apply accessed_fits].
Qed.

Lemma request_regime c d : tcr_ok (regime_of c) → regime_ok (request_of c d).
Proof. intros H. apply tcr_regime. by destruct (request_fields c d) as (_ & _ & _ & _ & _ & -> & _). Qed.

(** The outcome of a step, over the registers and the bytes of the memory. *)
Definition stepped (c : vf_cpu) (s : S) (m : vf_memory_run_result_v1) (st : Z) (c' : vf_cpu) (s' : S)
    (m' : vf_memory_run_result_v1) : Prop :=
  cpu_ok c' ∧
  if decide (st = VF_NEXT) then
    ∃ d, decode_memory (c instruction) = Some d ∧
      (∀ f, counters f = false ∨ f = retired →
        c' f = performed c d (value_at (bytes s) c d 0) (value_at (bytes s) c d 1) f) ∧
      (∀ a, bytes s' a = stored (bytes s) c d a) ∧
      m_completed_data_operations m' = u64 (m_completed_data_operations m + 1)
  else
    keeps_registers c c' ∧ (∀ a, bytes s' a = bytes s a) ∧
    m_completed_data_operations m' = m_completed_data_operations m.

Lemma translated_values c d s r s' f :
  cpu_ok c → shape_ok d → callback s (request_of c d) = (0, r, s') → ok_reply version (request_of c d) r →
  performed c d (r_value0 r) (r_value1 r) f = performed c d (value_at (bytes s) c d 0) (value_at (bytes s) c d 1) f.
Proof.
  intros Hc Hd Hcb Hr. pose proof (service_accepts s _ 0 r s' (translated_request_ok c d Hc Hd) Hcb (conj eq_refl Hr)) as Ha.
  destruct (request_fields c d) as (H1 & H2 & H3 & _ & H5 & _). cbv zeta in Ha. rewrite H1, H2, H3, H5 in Ha.
  destruct (read d) eqn:Er; [|by apply performed_store]. cbn [VF_MEMORY_LOAD VF_MEMORY_STORE Z.eqb Pos.eqb] in Ha.
  destruct Ha as (-> & Hv1 & _). destruct (decide (count d = 2)) as [E|E]; [by rewrite Hv1|]. apply performed_one. by left.
Qed.

Lemma translated_bytes c d s r s' a :
  cpu_ok c → shape_ok d → callback s (request_of c d) = (0, r, s') → ok_reply version (request_of c d) r →
  bytes s' a = stored (bytes s) c d a.
Proof.
  intros Hc Hd Hcb Hr. pose proof (service_accepts s _ 0 r s' (translated_request_ok c d Hc Hd) Hcb (conj eq_refl Hr)) as Ha.
  destruct (request_fields c d) as (H1 & H2 & H3 & _ & H5 & _ & Hv). cbv zeta in Ha. rewrite H1, H2, H3, H5 in Ha.
  unfold stored. destruct (read d); [apply Ha|]. destruct (Hv eq_refl) as [Hv0 Hv1].
  cbn [VF_MEMORY_STORE Z.eqb Pos.eqb] in Ha. rewrite Ha. clear Ha. destruct Hd as [Hw _].
  rewrite Z.mul_0_l, Z.add_0_r, Z.mul_1_l, Hv0, land_width by done.
  destruct (Z.eqb_spec (count d) 2) as [E|E]; [|by apply with_word_mask; lia].
  rewrite Hv1, land_width, with_word_mask by (done || lia). unfold with_word at 1 3. destruct (_ <? _); [done|].
  apply with_word_mask. lia.
Qed.

Lemma translated_data_step c s m :
  cpu_ok c → tcr_ok (regime_of c) →
  ∃ st c' s' m', memory_data_step_version callback c controls s m version = Some (st, c', s', m') ∧
    stepped c s (m_base m) st c' s' (m_base m').
Proof.
  intros Hc Htcr. unfold memory_data_step_version. assert (fits 32 (c instruction)) as Hi by apply (proj1 Hc instruction).
  destruct (decode_memory (c instruction)) as [d|] eqn:Ed.
  2: { destruct (commit_keeps c VF_UNDEFINED_INSTRUCTION Hc) as (c' & -> & Hok & Hk).
    eexists _, _, _, _. split; [reflexivity|]. split; [done|]. cbn. done. }
  pose proof (decode_ok _ _ Hi Ed) as Hd. destruct (stack_misaligned _ _ _) eqn:Es.
  { destruct (commit_keeps (c.[far := memory_register c (rn d) true]) VF_SP_ALIGNMENT_FAULT) as (c' & -> & Hok & Hk).
    { apply inert_ok; [done..|by apply x_fits]. }
    eexists _, _, _, _. split; [reflexivity|]. split; [done|]. cbn. split_and!; [|done|done]. intros f Hf. rewrite Hk by done.
    cbn [upd]. rewrite eqb_ne; [done|]. by intros ->. }
  cbv zeta. rewrite updated_spec by done. fold (accessed c d). fold (request_of c d).
  destruct (callback s (request_of c d)) as [[rc r] s'] eqn:Hcb.
  pose proof (service_typed (callback := callback) s (request_of c d)) as Hty. rewrite Hcb in Hty.
  destruct (translated_exchange callback version c s (request_of c d) m rc r s' Hc (translated_request_ok c d Hc Hd) (request_regime c d Htcr) Hty Hcb)
    as (st & c' & m' & -> & Hok & (_ & Hcount & _) & Hx).
  cbn [mbind option_bind]. pose proof (request_fields c d) as (_ & Hwd & _).
  assert (st ≠ VF_NEXT → keeps_registers c c' → (∀ a, bytes s' a = bytes s a) →
    ∃ st0 c0 s0 m0, (if negb (st =? VF_NEXT) then Some (st, c', s', m') else None) = Some (st0, c0, s0, m0) ∧
      stepped c s (m_base m) st0 c0 s0 (m_base m0)) as Hother.
  { intros Hst Hk Hb. assert ((st =? VF_NEXT) = false) as -> by lia. eexists _, _, _, _. split; [reflexivity|].
    split; [done|]. by rewrite decide_False. }
  destruct Hx as [m' -> Hr _ _|c' m' -> Hr _ Hno Hf _ _|m' Hno _ _].
  - cbn [VF_NEXT Z.eqb negb]. eexists _, _, _, _. split; [reflexivity|].
    assert (fits (8 * width d) (r_value0 r) ∧ fits (8 * width d) (r_value1 r)) as [Hv0 Hv1].
    { rewrite <- Hwd. destruct Hr as (_ & _ & _ & _ & _ & _ & H0 & H1 & _). done. }
    split; [apply retire_ok, store_registers_ok; try done; [by apply fits_wrap|apply Hty|apply Hty]|].
    rewrite decide_True by done. exists d. split; [done|]. split_and!.
    + intros f Hf. rewrite retire_performed by done. by eapply translated_values.
    + intros a. by eapply translated_bytes.
    + cbn. by rewrite Hcount.
  - assert ((faulted c (request_of c d) r).1 ≠ VF_NEXT) as Hst by (unfold faulted; by repeat case_match).
    destruct Hother as (st0 & c0 & s0 & m0 & Heq & Hs); [done| | |].
    + intros g Hg. rewrite Hf. unfold faulted. repeat case_match; by apply raised_keeps.
    + apply (service_refuses (callback := callback) s _ 0 r s' (translated_request_ok c d Hc Hd) Hcb). tauto.
    + exists st0, c0, s0, m0. split; [|done]. by destruct (negb _).
  - destruct Hother as (st0 & c0 & s0 & m0 & Heq & Hs); [done|done| |].
    + by apply (service_refuses (callback := callback) s _ rc r s' (translated_request_ok c d Hc Hd) Hcb).
    + exists st0, c0, s0, m0. done.
Qed.

End Data_step.

(** The controls the boot entry accepts describe a regime. *)
Lemma controls_regime k : vf_memory_controls_valid_v2 (Some k) = true → tcr_ok (k_tcr k).
Proof.
  unfold vf_memory_controls_valid_v2, tcr_ok. destruct (if _ =? VF_MEMORY_V2_FIXED_NC then _ else _); [|done].
  destruct (_ || (5 <? _)) eqn:E5; [done|]. apply orb_false_iff in E5 as [_ E5].
  destruct (if _ && _ then _ else _) as [[[min_ max_] al]|] eqn:Em; [|done].
  destruct (_ || _) eqn:Eb; [done|]. intros _.
  assert (16 ≤ min_ ∧ max_ ≤ 47) by (repeat case_match; by simplify_eq).
  pose proof (Z.ltb_ge 5 (Z.land (Z.shiftr (k_tcr k) 32) 7)). lia.
Qed.

(** A flat memory of 2^48 bytes: an address above has no translation. *)
Definition flat_reply (version : Z) (q : vf_memory_request_v2) (result fault level context fsc v0 v1 address syn : Z) :
    vf_memory_reply_v2 :=
  (empty_reply version (k_epoch (q_controls q))) <| r_result := result |> <| r_fault := fault |> <| r_level := level |>
    <| r_context := context |> <| r_fsc := fsc |> <| r_value0 := u64 v0 |> <| r_value1 := u64 v1 |>
    <| r_address := u64 address |> <| r_esr := syn |>.

Definition flat_memory (version : Z) : vf_memory_callback_v2 memory := λ m q,
  let read_ k := word_at m (q_address q + k * q_width q) (Z.to_nat (q_width q)) in
  let write_ m k v := with_word m (q_address q + k * q_width q) (q_width q) v in
  if v2_alignment_required q then
    if q_operation q =? VF_MEMORY_FETCH then
      (0, flat_reply version q 1 1 VF_MEMORY_V2_NO_LEVEL VF_MEMORY_V2_INPUT 0 0 0 (q_address q) 0x8a000000, m)
    else
      (0, flat_reply version q 1 2 VF_MEMORY_V2_NO_LEVEL VF_MEMORY_V2_INPUT 0x21 0 0 (q_address q) (abort_word q 0x21), m)
  else if 2 ^ 48 <? q_address q + extent q then
    (0, flat_reply version q 1 4 0 VF_MEMORY_V2_INPUT 4 0 0 (q_address q) (abort_word q 4), m)
  else if q_operation q =? VF_MEMORY_STORE then
    (0, flat_reply version q 0 0 VF_MEMORY_V2_NO_LEVEL 0 0 0 0 0 0,
     let m := write_ m 0 (q_value0 q) in if q_count q =? 2 then write_ m 1 (q_value1 q) else m)
  else
    (0, flat_reply version q 0 0 VF_MEMORY_V2_NO_LEVEL 0 0 (read_ 0) (if q_count q =? 2 then read_ 1 else 0) 0 0, m).

#[export] Instance flat_service version : TranslatedMemory version (flat_memory version).
Proof.
  refine {| bytes := λ m, m |}.
  - intros m q. unfold flat_memory. cbv zeta. repeat case_match; constructor; cbn; try apply fits_wrap; done.
  - intros m q rc r m' Hq Hcb Hok. cbv zeta. unfold flat_memory in Hcb. cbv zeta in Hcb.
    destruct (v2_alignment_required q).
    { destruct (_ =? _) in Hcb; injection Hcb as <- <- <-; by destruct Hok as [_ (_ & ? & _)]. }
    destruct (2 ^ 48 <? _) in Hcb; [injection Hcb as <- <- <-; by destruct Hok as [_ (_ & ? & _)]|].
    destruct (q_operation q =? VF_MEMORY_STORE); injection Hcb as <- <- <-; [done|]. cbn.
    assert (∀ a, u64 (word_at m a (Z.to_nat (q_width q))) = word_at m a (Z.to_nat (q_width q))) as Hu.
    { intros a. apply wrap_id. pose proof (word_at_range m a (Z.to_nat (q_width q))) as Hr. unfold fits.
      assert (256 ^ Z.of_nat (Z.to_nat (q_width q)) ≤ 2 ^ 64) by (destruct (qo_width q Hq) as [-> | [-> | [-> | ->]]]; by vm_compute). lia. }
    rewrite Hu. split_and!; [done| |done]. intros ->. cbn. apply Hu.
  - intros m q rc r m' Hq Hcb Hok a. unfold flat_memory in Hcb. cbv zeta in Hcb.
    destruct (v2_alignment_required q) eqn:Ea.
    { destruct (_ =? _) in Hcb; by injection Hcb as <- <- <-. }
    destruct (2 ^ 48 <? _) eqn:Ee in Hcb; [by injection Hcb as <- <- <-|].
    destruct (q_operation q =? VF_MEMORY_STORE) eqn:Es; injection Hcb as <- <- <-; [|done].
    destruct Hok. split; [done|]. assert (0 < 2 ^ (8 * q_width q)).
    { apply Z.pow_pos_nonneg; [lia|]. destruct (qo_width q Hq); lia. }
    unfold ok_reply, header_ok. cbn. change (u64 0) with 0. split_and!; try done; try lia.
    + by repeat constructor.
    + intros Hm%(required_spec q Hq). congruence.
Defined.

(** ** Properties *)

(** C16. The processor believes a fault reply exactly when the access can have that fault.
    The reply must name an alignment fault the access has, or a stage of the walk that
    the granule and sizes in TCR allow at that level, with a descriptor and an output
    address on the right side of the physical size; and then the recomputed syndrome is
    that of the fault (class, level, write bit, exception level), and the only one. *)
Theorem fault_reply_believed q r :
  request_ok q → regime_ok q → reply_fits r →
  ∃ v, v2_fault_valid q r = Some v ∧ ∀ e, v = Some e ↔ verdict q r e.
Proof. apply fault_valid_spec. Qed.

(** A load at level 3 of a 4k walk, refused by the permissions of its page. *)
Definition sample_controls : vf_memory_controls_v2 := {|
  k_abi_version := 2; k_struct_size := 80; k_profile := 1; k_reserved := 0; k_sctlr := 0x30d00803; k_ttbr0 := 0x10000;
  k_ttbr1 := 0x20000; k_tcr := Z.lor 0x80100010 (Z.shiftl 5 32); k_mair := 0x44; k_hcr := 0; k_scr := 0; k_epoch := 1 |}.
Definition sample_load : vf_memory_request_v2 := {|
  q_abi_version := 2; q_struct_size := 160; q_operation := VF_MEMORY_LOAD; q_flags := 0; q_width := 8; q_count := 1;
  q_current_el := 1; q_reserved0 := 0; q_pc := 0x4000; q_address := 0x5008; q_value0 := 0; q_value1 := 0; q_pstate := 0x3c5;
  q_controls := sample_controls; q_reserved1 := 0 |}.
Definition sample_fault : vf_memory_reply_v2 :=
  (empty_reply 2 1) <| r_result := 1 |> <| r_fault := 5 |> <| r_level := 3 |> <| r_context := 3 |> <| r_fsc := 15 |>
    <| r_metadata_flags := 3 |> <| r_address := 0x5008 |> <| r_esr := 0x9600000f |> <| r_descriptor_pa := 0x10028 |>
    <| r_output_pa := 0x85000 |>.

Lemma sample_load_ok : request_ok sample_load ∧ regime_ok sample_load.
Proof.
  split; [constructor; cbn; unfold VF_MEMORY_LOAD; first [lia|unfold access_width; lia|by vm_compute]|].
  apply tcr_regime, controls_regime. by vm_compute.
Qed.

Lemma fault_reply_believed_witness :
  v2_fault_valid sample_load sample_fault = Some (Some 0x9600000f) ∧
  ∃ v, v2_fault_valid sample_load sample_fault = Some v ∧ ∀ e, v = Some e ↔ verdict sample_load sample_fault e.
Proof.
  split; [by vm_compute|]. apply fault_reply_believed; [apply sample_load_ok..|]. constructor; by vm_compute.
Defined.

(** C8. Loads and stores through translated memory do what the instruction means, for
    both versions of the request.  The step is defined on every valid processor and keeps
    it valid.  When it succeeds, the registers are those of the abstract access and the
    memory holds the stored words; a guest fault or a refused reply leaves every general
    register, the stack pointer, the program counter and every byte of the memory as
    they were. *)
Theorem translated_step_refines {S} version (callback : vf_memory_callback_v2 S) `{!TranslatedMemory version callback} controls c s m :
  cpu_ok c → tcr_ok (if version =? 3 then k_tcr controls else c tcr) →
  ∃ st c' s' m', memory_data_step_version callback c controls s m version = Some (st, c', s', m') ∧ cpu_ok c' ∧
  if decide (st = VF_NEXT) then
    ∃ d, decode_memory (c instruction) = Some d ∧
      (∀ f, counters f = false ∨ f = retired →
        c' f = performed c d (value_at (bytes s) c d 0) (value_at (bytes s) c d 1) f) ∧
      (∀ a, bytes s' a = stored (bytes s) c d a) ∧
      m_completed_data_operations (m_base m') = u64 (m_completed_data_operations (m_base m) + 1)
  else
    keeps_registers c c' ∧ (∀ a, bytes s' a = bytes s a) ∧
    m_completed_data_operations (m_base m') = m_completed_data_operations (m_base m).
Proof. apply translated_data_step. Qed.

Lemma translated_step_refines_witness :
  let m := {| m_base := Provider.zero_result; m_last_reply := empty_reply 3 1 |} in let c := Provider.storing 0x1008 in
  ∃ st c' s' m', memory_data_step_version (flat_memory 3) c sample_controls (λ _, 0) m 3 = Some (st, c', s', m') ∧ cpu_ok c' ∧
  if decide (st = VF_NEXT) then
    ∃ d, decode_memory (c instruction) = Some d ∧
      (∀ f, counters f = false ∨ f = retired →
        c' f = performed c d (value_at (λ _, 0) c d 0) (value_at (λ _, 0) c d 1) f) ∧
      (∀ a, s' a = stored (λ _, 0) c d a) ∧ m_completed_data_operations (m_base m') = 1
  else keeps_registers c c' ∧ (∀ a, s' a = 0) ∧ m_completed_data_operations (m_base m') = 0.
Proof.
  exact (translated_step_refines 3 (flat_memory 3) sample_controls (Provider.storing 0x1008) (λ _, 0)
    {| m_base := Provider.zero_result; m_last_reply := empty_reply 3 1 |}
    (Provider.storing_ok 0x1008 ltac:(by vm_compute)) (controls_regime sample_controls ltac:(by vm_compute))).
Defined.

End StageOne.
