(* ===== verification/Dynamic.v ===== *)
(** Changing the translation controls ([runtime/memory_dynamic.inc],
    [memory_dynamic.h]).

    A guest that writes a translation control runs a transaction with a control service:
    PREPARE proposes the state after the write, COMMIT makes it so.  The processor keeps
    the last state it knows the service to be in; when a COMMIT is not acknowledged, it
    stops and marks that state uncertain.  The service is an argument, with a state of its
    own. *)
From S2P Require Import Prelude.
From S2P Require Import Words.
From S2P Require Import Mmio.
From S2P Require Import Cpu.
From S2P Require Import Insn.
From S2P Require Import Steps.
From S2P Require Import LoadStore.
From S2P Require Import Provider.
From S2P Require Import StageOne.

Module Dynamic.
Import Cpu.
Import Cpu.F.
Import Insn.
Import Steps.
Import LoadStore.
Import Provider(VF_PROVIDER_UNSUPPORTED, VF_PROVIDER_INVALID_REQUEST, VF_PROVIDER_INVALID_REPLY,
  VF_PROVIDER_CALLBACK_FAILURE, m_provider_status).
Import StageOne(vf_memory_controls_v2, Build_vf_memory_controls_v2, k_abi_version, k_struct_size, k_profile, k_reserved,
  k_sctlr, k_ttbr0, k_ttbr1, k_tcr, k_mair, k_hcr, k_scr, k_epoch, vf_memory_controls_valid_v2, vf_memory_run_result_v2,
  m_base, v2_error, VF_PROVIDER_UNAVAILABLE_V2).

Definition VF_DYNAMIC_DATA_VERSION := 3.
Definition VF_DYNAMIC_PROFILE := 2.
Definition VF_DYNAMIC_VERSION := 1.
Definition VF_DYNAMIC_PREPARE := 1.
Definition VF_DYNAMIC_COMMIT := 2.
Definition VF_DYNAMIC_CANCEL := 3.
Definition VF_DYNAMIC_WRITE := 1.
Definition VF_DYNAMIC_ISB := 2.
Definition VF_DYNAMIC_DSB := 3.
Definition VF_DYNAMIC_TLBI := 4.
Definition VF_DYNAMIC_SCTLR := 1.
Definition VF_DYNAMIC_TTBR0 := 2.
Definition VF_DYNAMIC_TTBR1 := 3.
Definition VF_DYNAMIC_TCR := 4.
Definition VF_DYNAMIC_MAIR := 5.
Definition VF_DYNAMIC_OK := 0.
Definition VF_DYNAMIC_UNSUPPORTED := 1.
Definition VF_DYNAMIC_INVALID := 2.
Definition VF_DYNAMIC_UNAVAILABLE := 3.
Definition VF_DYNAMIC_EMPTY := 0.
Definition VF_DYNAMIC_PROPOSED := 1.
Definition VF_DYNAMIC_KNOWN := 2.
Definition VF_DYNAMIC_UNCERTAIN := 3.
Definition VF_DYNAMIC_ISB_WORD := 0xd5033fdf.
Definition VF_DYNAMIC_DSB_WORD := 0xd5033f9f.
Definition VF_DYNAMIC_TLBI_WORD := 0xd508871f.

Record vf_dynamic_snapshot := {
  s_sctlr : Z; s_ttbr0 : Z; s_ttbr1 : Z; s_tcr : Z; s_mair : Z; s_hcr : Z; s_scr : Z; s_reserved : Z;
}.
Record vf_dynamic_request := {
  q_abi_version : Z; q_struct_size : Z; q_phase : Z; q_operation : Z; q_selector : Z; q_current_el : Z;
  q_flags : Z; q_reserved : Z; q_pc : Z; q_operand : Z; q_revision : Z; q_epoch : Z;
  q_before : vf_dynamic_snapshot; q_candidate : vf_dynamic_snapshot;
}.
Record vf_dynamic_reply := {
  r_abi_version : Z; r_struct_size : Z; r_result : Z; r_detail : Z; r_phase : Z; r_operation : Z; r_selector : Z;
  r_state_tag : Z; r_token : Z; r_revision : Z; r_epoch : Z; r_invalidations : Z;
  r_architectural : vf_dynamic_snapshot; r_effective : vf_dynamic_snapshot;
}.
Record vf_memory_run_result_dynamic := { o_memory : vf_memory_run_result_v2; o_final_control : vf_dynamic_reply }.

Definition vf_dynamic_callback (S : Type) := S → vf_dynamic_request → Z * vf_dynamic_reply * S.

Definition vf_dynamic_controls_valid (p : ptr vf_memory_controls_v2) : bool :=
  match p with
  | None => false
  | Some c =>
    if negb (k_abi_version c =? 3) || negb (k_struct_size c =? 80) || negb (k_profile c =? 2) || nz (k_reserved c)
       || negb (nz (k_epoch c)) then false
    else if nz (Z.shiftr (Z.lor (k_ttbr0 c) (k_ttbr1 c)) 48)
       || nz (Z.land (k_tcr c) (Z.lor (Z.shiftl 1 22) (Z.shiftl 1 36))) then false
    else
      let mapped := c <| k_abi_version := 2 |> <| k_profile := 1 |> <| k_epoch := 1 |>
                      <| k_sctlr := Z.lor (k_sctlr c) 1 |> in
      vf_memory_controls_valid_v2 (Some mapped)
  end.

Definition dynamic_snapshot (c : vf_memory_controls_v2) : vf_dynamic_snapshot := {|
  s_sctlr := k_sctlr c; s_ttbr0 := k_ttbr0 c; s_ttbr1 := k_ttbr1 c; s_tcr := k_tcr c; s_mair := k_mair c;
  s_hcr := k_hcr c; s_scr := k_scr c; s_reserved := 0 |}.

Definition dynamic_controls (s : vf_dynamic_snapshot) (epoch : Z) : vf_memory_controls_v2 := {|
  k_abi_version := 3; k_struct_size := 80; k_profile := 2; k_reserved := 0; k_sctlr := s_sctlr s; k_ttbr0 := s_ttbr0 s;
  k_ttbr1 := s_ttbr1 s; k_tcr := s_tcr s; k_mair := s_mair s; k_hcr := s_hcr s; k_scr := s_scr s; k_epoch := epoch |}.

Definition dynamic_equal (a b : vf_dynamic_snapshot) : bool :=
  (s_sctlr a =? s_sctlr b) && (s_ttbr0 a =? s_ttbr0 b) && (s_ttbr1 a =? s_ttbr1 b) && (s_tcr a =? s_tcr b)
  && (s_mair a =? s_mair b) && (s_hcr a =? s_hcr b) && (s_scr a =? s_scr b) && (s_reserved a =? s_reserved b).

Definition dynamic_cpu_match (c : vf_cpu) (a : vf_dynamic_snapshot) : bool :=
  (c current_el =? VF_EL1) && (c sctlr =? s_sctlr a) && (c ttbr0 =? s_ttbr0 a)
  && (c ttbr1 =? s_ttbr1 a) && (c tcr =? s_tcr a) && (c mair =? s_mair a)
  && (c hcr_el2 =? s_hcr a) && (c scr_el3 =? s_scr a) && negb (nz (Z.land (c pstate) (bnot 64 0xf00003cf))).

Definition dynamic_failure (out : vf_memory_run_result_dynamic) (reason : Z) (uncertain : bool) :
    Z * vf_memory_run_result_dynamic :=
  let out :=
    if uncertain then out <| o_final_control := (o_final_control out) <| r_state_tag := VF_DYNAMIC_UNCERTAIN |> |>
    else out in
  let '(st, m) := v2_error (o_memory out) reason in (st, out <| o_memory := m |>).

Definition zero_snapshot : vf_dynamic_snapshot := {|
  s_sctlr := 0; s_ttbr0 := 0; s_ttbr1 := 0; s_tcr := 0; s_mair := 0; s_hcr := 0; s_scr := 0; s_reserved := 0 |}.

Definition dynamic_error_valid (q : vf_dynamic_request) (r : vf_dynamic_reply) : bool :=
  (r_abi_version r =? 1) && (r_struct_size r =? 192) && (r_phase r =? q_phase q)
  && (r_operation r =? q_operation q) && (r_selector r =? q_selector q) && (1 <=? r_result r) && (r_result r <=? 3)
  && (1 <=? r_detail r) && (r_detail r <=? 10) && negb (nz (r_state_tag r)) && negb (nz (r_token r))
  && negb (nz (r_revision r)) && negb (nz (r_epoch r)) && negb (nz (r_invalidations r))
  && dynamic_equal (r_architectural r) zero_snapshot && dynamic_equal (r_effective r) zero_snapshot.

Definition dynamic_reply_equal (r e : vf_dynamic_reply) : bool :=
  (r_abi_version r =? r_abi_version e) && (r_struct_size r =? r_struct_size e) && (r_result r =? r_result e)
  && (r_detail r =? r_detail e) && (r_phase r =? r_phase e) && (r_operation r =? r_operation e)
  && (r_selector r =? r_selector e) && (r_state_tag r =? r_state_tag e) && (r_token r =? r_token e)
  && (r_revision r =? r_revision e) && (r_epoch r =? r_epoch e) && (r_invalidations r =? r_invalidations e)
  && dynamic_equal (r_architectural r) (r_architectural e) && dynamic_equal (r_effective r) (r_effective e).

(** The operation of an instruction, and the control it writes. *)
Definition dynamic_operation (w : Z) : option (Z * Z) :=
  if w =? VF_DYNAMIC_ISB_WORD then Some (VF_DYNAMIC_ISB, 0)
  else if w =? VF_DYNAMIC_DSB_WORD then Some (VF_DYNAMIC_DSB, 0)
  else if w =? VF_DYNAMIC_TLBI_WORD then Some (VF_DYNAMIC_TLBI, 0)
  else if negb (is_mrs_msr w) || nz (Z.land w 0x00200000) then None
  else
    selector ← switch (sysreg_key w) [
      (VF_SYSREG_KEY_SCTLR_EL1, VF_DYNAMIC_SCTLR); (VF_SYSREG_KEY_TTBR0_EL1, VF_DYNAMIC_TTBR0);
      (VF_SYSREG_KEY_TTBR1_EL1, VF_DYNAMIC_TTBR1); (VF_SYSREG_KEY_TCR_EL1, VF_DYNAMIC_TCR);
      (VF_SYSREG_KEY_MAIR_EL1, VF_DYNAMIC_MAIR)];
    Some (VF_DYNAMIC_WRITE, selector).

(** [switch (selector) { case VF_DYNAMIC_SCTLR: q.candidate.sctlr = q.operand; ...; default: ...mair }] *)
Definition candidate_with (s : vf_dynamic_snapshot) (selector operand : Z) : vf_dynamic_snapshot :=
  if selector =? VF_DYNAMIC_SCTLR then s <| s_sctlr := operand |>
  else if selector =? VF_DYNAMIC_TTBR0 then s <| s_ttbr0 := operand |>
  else if selector =? VF_DYNAMIC_TTBR1 then s <| s_ttbr1 := operand |>
  else if selector =? VF_DYNAMIC_TCR then s <| s_tcr := operand |>
  else s <| s_mair := operand |>.

(** The proposal, and the reply it should get; [None] when it is not supported. *)
Definition control_request (c : vf_cpu) (known : vf_dynamic_reply) (op selector : Z) : vf_dynamic_request :=
  let q := {|
    q_abi_version := 1; q_struct_size := 192; q_phase := VF_DYNAMIC_PREPARE; q_operation := op; q_selector := selector;
    q_current_el := VF_EL1; q_flags := 0; q_reserved := 0; q_pc := c pc; q_operand := 0; q_revision := r_revision known;
    q_epoch := r_epoch known; q_before := r_architectural known; q_candidate := r_architectural known |} in
  if op =? VF_DYNAMIC_WRITE then
    let operand := memory_register c (Z.land (c instruction) 31) false in
    q <| q_operand := operand |> <| q_candidate := candidate_with (r_architectural known) selector operand |>
  else q.

Definition control_expected (known : vf_dynamic_reply) (q : vf_dynamic_request) (op selector : Z) : option vf_dynamic_reply :=
  let expected := known <| r_phase := VF_DYNAMIC_PREPARE |> <| r_operation := op |> <| r_selector := selector |>
                        <| r_state_tag := VF_DYNAMIC_PROPOSED |> <| r_token := 0 |> in
  if op =? VF_DYNAMIC_WRITE then
    let candidate := dynamic_controls (q_candidate q) (r_epoch known) in
    let fixed := Z.lor (Z.lor (Z.shiftl 3 14) (Z.shiftl 3 30)) (Z.shiftl 7 32) in
    if nz (Z.land (s_sctlr (r_architectural known)) 1) || negb (vf_dynamic_controls_valid (Some candidate))
       || nz (Z.land (Z.lxor (s_tcr (r_effective known)) (k_tcr candidate)) fixed) || (r_revision known =? UINT64_MAX)
       || ((selector =? VF_DYNAMIC_SCTLR)
           && (negb (q_operand q =? Z.lor (s_sctlr (r_architectural known)) 1)
               || negb (dynamic_equal (r_architectural known) (r_effective known)) || (UINT64_MAX - 7 <? q_pc q)))
    then None
    else Some (expected <| r_architectural := q_candidate q |> <| r_revision := u64 (r_revision expected + 1) |>)
  else if (op =? VF_DYNAMIC_ISB) && negb (dynamic_equal (r_architectural known) (r_effective known)) then
    if r_epoch known =? UINT64_MAX then None
    else Some (expected <| r_effective := r_architectural known |> <| r_epoch := u64 (r_epoch expected + 1) |>)
  else if op =? VF_DYNAMIC_TLBI then
    if r_invalidations known =? UINT64_MAX then None
    else Some (expected <| r_invalidations := u64 (r_invalidations expected + 1) |>)
  else Some expected.

Section Control.
Context {S : Type} (callback : vf_dynamic_callback S).

Definition dynamic_control_step (c : vf_cpu) (op selector : Z) (owner : S) (out : vf_memory_run_result_dynamic) :
    Z * vf_cpu * S * vf_memory_run_result_dynamic :=
  let known := o_final_control out in
  let failure owner reason uncertain := let '(st, out) := dynamic_failure out reason uncertain in (st, c, owner, out) in
  let q := control_request c known op selector in
  match control_expected known q op selector with
  | None => failure owner VF_PROVIDER_UNSUPPORTED false
  | Some expected =>
    let '(rc, reply, owner) := callback owner q in
    if nz rc then failure owner VF_PROVIDER_CALLBACK_FAILURE false
    else if nz (r_result reply) then
      if negb (dynamic_error_valid q reply) then failure owner VF_PROVIDER_INVALID_REPLY false
      else
        failure owner
          (if r_result reply =? VF_DYNAMIC_UNSUPPORTED then VF_PROVIDER_UNSUPPORTED
           else if r_result reply =? VF_DYNAMIC_UNAVAILABLE then VF_PROVIDER_UNAVAILABLE_V2
           else VF_PROVIDER_INVALID_REQUEST) false
    else
      let expected := expected <| r_token := r_token reply |> in
      if negb (nz (r_token reply)) || negb (dynamic_reply_equal reply expected)
      then failure owner VF_PROVIDER_INVALID_REPLY false
      else
        let q := q <| q_phase := VF_DYNAMIC_COMMIT |> <| q_operand := r_token reply |> in
        let expected := expected <| r_phase := VF_DYNAMIC_COMMIT |> <| r_state_tag := VF_DYNAMIC_KNOWN |>
                                 <| r_token := 0 |> in
        let '(rc, reply, owner) := callback owner q in
        if nz rc then failure owner VF_PROVIDER_CALLBACK_FAILURE true
        else if negb (dynamic_reply_equal reply expected) then failure owner VF_PROVIDER_INVALID_REPLY true
        else
          let a := r_architectural expected in
          let c := c.[sctlr := s_sctlr a].[ttbr0 := s_ttbr0 a].[ttbr1 := s_ttbr1 a].[tcr := s_tcr a].[mair := s_mair a] in
          let expected := expected <| r_phase := 0 |> <| r_operation := 0 |> <| r_selector := 0 |> in
          (VF_NEXT, retire c, owner, out <| o_final_control := expected |>)
  end.

End Control.

(** ** The protocol *)

(** The state of the controls: as written, as in effect, and the three counters. *)
Record control := {
  architectural : vf_dynamic_snapshot; effective : vf_dynamic_snapshot; revision : Z; epoch : Z; invalidations : Z;
}.
Definition control_of (r : vf_dynamic_reply) : control := {|
  architectural := r_architectural r; effective := r_effective r; revision := r_revision r; epoch := r_epoch r;
  invalidations := r_invalidations r |}.

#[export] Instance snapshot_eq_dec : EqDecision vf_dynamic_snapshot.
Proof. solve_decision. Defined.

(** The state after an operation: a write is visible at once and takes effect at the next
    barrier, which opens a new epoch. *)
Definition advance (k : control) (op : Z) (candidate : vf_dynamic_snapshot) : control :=
  if op =? VF_DYNAMIC_WRITE then k <| architectural := candidate |> <| revision := revision k + 1 |>
  else if op =? VF_DYNAMIC_ISB then
    k <| effective := architectural k |>
      <| epoch := if decide (architectural k = effective k) then epoch k else epoch k + 1 |>
  else if op =? VF_DYNAMIC_TLBI then k <| invalidations := invalidations k + 1 |>
  else k.

(** The record the processor keeps of a known state. *)
Definition known_reply (k : control) : vf_dynamic_reply := {|
  r_abi_version := 1; r_struct_size := 192; r_result := 0; r_detail := 0; r_phase := 0; r_operation := 0; r_selector := 0;
  r_state_tag := VF_DYNAMIC_KNOWN; r_token := 0; r_revision := revision k; r_epoch := epoch k;
  r_invalidations := invalidations k; r_architectural := architectural k; r_effective := effective k |}.

(** The value written, and the two requests of a transaction. *)
Definition operand_of (c : vf_cpu) (op : Z) : Z :=
  if op =? VF_DYNAMIC_WRITE then memory_register c (Z.land (c instruction) 31) false else 0.
Definition candidate_of (c : vf_cpu) (k : control) (op selector : Z) : vf_dynamic_snapshot :=
  if op =? VF_DYNAMIC_WRITE then candidate_with (architectural k) selector (operand_of c op) else architectural k.
Definition request (c : vf_cpu) (k : control) (op selector phase operand : Z) : vf_dynamic_request := {|
  q_abi_version := 1; q_struct_size := 192; q_phase := phase; q_operation := op; q_selector := selector;
  q_current_el := VF_EL1; q_flags := 0; q_reserved := 0; q_pc := c pc; q_operand := operand; q_revision := revision k;
  q_epoch := epoch k; q_before := architectural k; q_candidate := candidate_of c k op selector |}.

(** The operations the processor proposes at all. *)
Definition proposable (c : vf_cpu) (k : control) (op selector : Z) : Prop :=
  let next := candidate_of c k op selector in
  if op =? VF_DYNAMIC_WRITE then
    Z.testbit (s_sctlr (architectural k)) 0 = false ∧
    vf_dynamic_controls_valid (Some (dynamic_controls next (epoch k))) = true ∧
    Z.land (Z.lxor (s_tcr (effective k)) (s_tcr next)) (Z.lor (Z.lor (Z.shiftl 3 14) (Z.shiftl 3 30)) (Z.shiftl 7 32)) = 0 ∧
    revision k ≠ UINT64_MAX ∧
    (selector = VF_DYNAMIC_SCTLR →
      s_sctlr next = Z.lor (s_sctlr (architectural k)) 1 ∧ architectural k = effective k ∧ c pc + 7 < 2 ^ 64)
  else if op =? VF_DYNAMIC_ISB then architectural k ≠ effective k → epoch k ≠ UINT64_MAX
  else if op =? VF_DYNAMIC_TLBI then invalidations k ≠ UINT64_MAX else True.

(** The processor's controls follow the written state. *)
Definition adopt (c : vf_cpu) (a : vf_dynamic_snapshot) : vf_cpu :=
  c.[sctlr := s_sctlr a].[ttbr0 := s_ttbr0 a].[ttbr1 := s_ttbr1 a].[tcr := s_tcr a].[mair := s_mair a].

(** One transaction of the processor with a service, from a known state. *)
Inductive transaction {S : Type} (callback : vf_dynamic_callback S) (c : vf_cpu) (k : control) (op selector : Z) (s : S) :
    Z → vf_cpu → S → vf_dynamic_reply → Prop :=
  | Committed r1 s1 r2 s2 :
      proposable c k op selector →
      callback s (request c k op selector VF_DYNAMIC_PREPARE (operand_of c op)) = (0, r1, s1) → r_token r1 ≠ 0 →
      callback s1 (request c k op selector VF_DYNAMIC_COMMIT (r_token r1)) = (0, r2, s2) →
      r_result r2 = 0 → r_state_tag r2 = VF_DYNAMIC_KNOWN → control_of r2 = advance k op (candidate_of c k op selector) →
      transaction callback c k op selector s VF_NEXT
        (retire (adopt c (architectural (advance k op (candidate_of c k op selector))))) s2
        (known_reply (advance k op (candidate_of c k op selector)))
  | Not_proposed : ¬ proposable c k op selector → transaction callback c k op selector s VF_DATA_FAULT c s (known_reply k)
  | Not_prepared rc r1 s1 :
      callback s (request c k op selector VF_DYNAMIC_PREPARE (operand_of c op)) = (rc, r1, s1) →
      transaction callback c k op selector s VF_DATA_FAULT c s1 (known_reply k)
  | Lost r1 s1 rc r2 s2 :
      callback s (request c k op selector VF_DYNAMIC_PREPARE (operand_of c op)) = (0, r1, s1) → r_token r1 ≠ 0 →
      callback s1 (request c k op selector VF_DYNAMIC_COMMIT (r_token r1)) = (rc, r2, s2) →
      transaction callback c k op selector s VF_DATA_FAULT c s2 ((known_reply k) <| r_state_tag := VF_DYNAMIC_UNCERTAIN |>).

(** ** Lemmas *)

Lemma dynamic_equal_spec a b : dynamic_equal a b = true ↔ a = b.
Proof.
  unfold dynamic_equal. destruct a, b; cbn. rewrite !andb_true_iff, !Z.eqb_eq. split; [by intros (((((((->&->)&->)&->)&->)&->)&->)&->)|].
  by intros [= -> -> -> -> -> -> -> ->].
Qed.

Lemma reply_equal_spec r e : dynamic_reply_equal r e = true ↔ r = e.
Proof.
  unfold dynamic_reply_equal. rewrite !andb_true_iff, !dynamic_equal_spec, !Z.eqb_eq. split; [|by intros ->].
  destruct r, e; cbn. intros (((((((((((((->&->)&->)&->)&->)&->)&->)&->)&->)&->)&->)&->)&->)&->). done.
Qed.

Record control_fits (k : control) : Prop := {
  cf_revision : fits 64 (revision k); cf_epoch : fits 64 (epoch k); cf_invalidations : fits 64 (invalidations k);
}.

(** The acknowledgement the processor waits for, in each phase. *)
Definition acknowledgement (k : control) (op selector phase tag token : Z) : vf_dynamic_reply :=
  (known_reply k) <| r_phase := phase |> <| r_operation := op |> <| r_selector := selector |>
    <| r_state_tag := tag |> <| r_token := token |>.

Lemma u64_succ v : fits 64 v → v ≠ UINT64_MAX → u64 (v + 1) = v + 1.
Proof. intros Hv Hm. apply wrap_id. unfold fits in *. lia. Qed.

Lemma selector_candidate s op selector : s_sctlr (candidate_with s selector op) = if selector =? VF_DYNAMIC_SCTLR then op else s_sctlr s.
Proof. unfold candidate_with. by repeat case_match. Qed.

Definition expectation (c : vf_cpu) (k : control) (op selector : Z) (o : option vf_dynamic_reply) : Prop :=
  match o with
  | Some e => proposable c k op selector ∧
      e = acknowledgement (advance k op (candidate_of c k op selector)) op selector VF_DYNAMIC_PREPARE VF_DYNAMIC_PROPOSED 0
  | None => ¬ proposable c k op selector
  end.

Lemma request_spec c k op selector :
  control_request c (known_reply k) op selector = request c k op selector VF_DYNAMIC_PREPARE (operand_of c op).
Proof. unfold control_request, request, candidate_of, operand_of. by destruct (op =? VF_DYNAMIC_WRITE). Qed.

(** What the code expects, when it proposes the operation. *)
Lemma expected_spec c k op selector : control_fits k → cpu_ok c →
  expectation c k op selector
    (control_expected (known_reply k) (request c k op selector VF_DYNAMIC_PREPARE (operand_of c op)) op selector).
Proof.
  intros [Hr He Hi] Hc. cbv zeta. assert (fits 64 (c pc)) as Hpc by apply (proj1 Hc pc). unfold fits in Hpc.
  unfold control_expected. cbv zeta. unfold expectation, proposable, advance, acknowledgement.
  cbn [known_reply r_architectural r_effective r_revision r_epoch r_invalidations k_tcr dynamic_controls
    request q_candidate q_operand q_pc].
  pose proof (dynamic_equal_spec (architectural k) (effective k)) as Heq.
  destruct (op =? VF_DYNAMIC_WRITE) eqn:E1.
  - rewrite StageOne.bit0. unfold candidate_of. rewrite E1. cbn [s_tcr]. rewrite selector_candidate.
    set (next := candidate_with (architectural k) selector (operand_of c op)). test Et.
    + intros (H1 & H2 & H3 & H4 & H5). rewrite !orb_true_iff, andb_true_iff, !orb_true_iff in Et.
      destruct Et as [[[[Et|Et]|Et]|Et]|[Et1 Et2]]; [congruence|by rewrite H2 in Et|by rewrite H3 in Et|lia|].
      destruct H5 as (H5 & H6 & H7); [lia|]. rewrite Et1 in H5. apply Heq in H6. rewrite H6 in Et2. lia.
    + rewrite !orb_false_iff in Et. destruct Et as ((((Et1 & Et2) & Et3) & Et4) & Et5). split.
      * split_and!; [done|by apply negb_false_iff|by apply nz_false|lia|]. intros Es%Z.eqb_eq. rewrite Es in Et5 |- *.
        cbn [andb] in Et5. rewrite !orb_false_iff, !negb_false_iff in Et5. destruct Et5 as ((E5 & E6) & E7).
        split_and!; [lia|by apply Heq|lia].
      * rewrite <- (u64_succ (revision k)) by (done || lia). done.
  - destruct (op =? VF_DYNAMIC_ISB) eqn:E2; cbn [andb].
    { destruct (dynamic_equal _ _) eqn:E3; cbn [negb].
      - pose proof (proj1 Heq eq_refl) as Hae. assert ((op =? VF_DYNAMIC_TLBI) = false) as -> by (unfold VF_DYNAMIC_ISB, VF_DYNAMIC_TLBI in *; lia).
        split; [done|]. rewrite decide_True by done. destruct k; cbn in *; by subst.
      - assert (architectural k ≠ effective k) as Hae by (intros H; apply Heq in H; done).
        test E4; [intros H; apply H in Hae; lia|]. split; [lia|]. rewrite decide_False by done.
        by rewrite <- (u64_succ (epoch k)) by (done || lia). }
    destruct (op =? VF_DYNAMIC_TLBI) eqn:E3; [|done]. test E4; [intros H; lia|]. split; [lia|].
    by rewrite <- (u64_succ (invalidations k)) by (done || lia).
Qed.

Section Transactions.
Context {S : Type} (callback : vf_dynamic_callback S).

(** A step is a transaction, and a failed one says so. *)
Lemma step_transaction c k op selector s out :
  cpu_ok c → control_fits k → o_final_control out = known_reply k →
  let '(st, c', s', out') := dynamic_control_step callback c op selector s out in
  transaction callback c k op selector s st c' s' (o_final_control out') ∧
  (st = VF_NEXT → o_memory out' = o_memory out) ∧
  (st ≠ VF_NEXT → m_provider_status (m_base (o_memory out')) ≠ 0).
Proof.
  intros Hc Hk Hout. unfold dynamic_control_step. rewrite Hout, request_spec. cbv zeta.
  pose proof (expected_spec c k op selector Hk Hc) as He.
  set (q := request c k op selector VF_DYNAMIC_PREPARE (operand_of c op)) in *.
  assert (∀ reason u s', (∀ k', k' = (if (u : bool) then (known_reply k) <| r_state_tag := VF_DYNAMIC_UNCERTAIN |> else known_reply k) →
      transaction callback c k op selector s VF_DATA_FAULT c s' k') → reason ≠ 0 →
    let '(st, c', s', out') := (let '(st, out) := dynamic_failure out reason u in (st, c, s', out)) in
    transaction callback c k op selector s st c' s' (o_final_control out') ∧
    (st = VF_NEXT → o_memory out' = o_memory out) ∧ (st ≠ VF_NEXT → m_provider_status (m_base (o_memory out')) ≠ 0)) as Hfail.
  { intros reason u s' Ht Hr. unfold dynamic_failure. destruct u; cbn; rewrite Hout; (split; [by apply Ht|done]). }
  destruct (control_expected _ _ _ _) as [e|].
  2: { apply Hfail; [|done]. intros k' ->. by apply Not_proposed. }
  destruct He as [Hp ->]. set (next := candidate_of c k op selector) in *.
  destruct (callback s q) as [[rc r1] s1] eqn:H1.
  assert (∀ k', k' = known_reply k → transaction callback c k op selector s VF_DATA_FAULT c s1 k') as Hnot.
  { intros k' ->. by eapply Not_prepared. }
  destruct (nz rc) eqn:Erc; [by apply Hfail|]. apply nz_false in Erc as ->.
  destruct (nz (r_result r1)).
  { test Ev; apply Hfail; [done..|]. by repeat case_match. }
  destruct (_ || _) eqn:Et; [by apply Hfail|]. apply orb_false_iff in Et as [Et _]. apply negb_false_iff, nz_true in Et.
  change (q <| q_phase := _ |> <| q_operand := _ |>) with (request c k op selector VF_DYNAMIC_COMMIT (r_token r1)).
  destruct (callback s1 _) as [[rc r2] s2] eqn:H2.
  assert (∀ k', k' = (known_reply k) <| r_state_tag := VF_DYNAMIC_UNCERTAIN |> →
    transaction callback c k op selector s VF_DATA_FAULT c s2 k') as Hlost by (intros k' ->; by eapply Lost).
  destruct (nz rc) eqn:Erc; [by apply Hfail|]. apply nz_false in Erc as ->.
  destruct (negb _) eqn:Eq; [by apply Hfail|]. apply negb_false_iff, reply_equal_spec in Eq.
  split; [|done]. refine (Committed callback c k op selector s r1 s1 r2 s2 Hp H1 Et H2 _ _ _); rewrite Eq; [done..|].
  fold next. unfold acknowledgement. by destruct (advance k op next).
Qed.

End Transactions.

(** ** Agreement with the service *)

(** What a control service promises, over a transport that may lose messages: a PREPARE
    commits nothing, a COMMIT commits the whole proposal or nothing, and an answer that
    calls the state known tells the state the service is in. *)
Class ControlService {S : Type} (callback : vf_dynamic_callback S) := {
  control_state : S → control;
  service_prepares : ∀ s q rc r s', q_phase q = VF_DYNAMIC_PREPARE → callback s q = (rc, r, s') →
    control_state s' = control_state s;
  service_commits : ∀ s q rc r s', q_phase q = VF_DYNAMIC_COMMIT → callback s q = (rc, r, s') →
    control_state s' = control_state s ∨ control_state s' = advance (control_state s) (q_operation q) (q_candidate q);
  service_truthful : ∀ s q rc r s', callback s q = (rc, r, s') → rc = 0 → r_result r = 0 →
    r_state_tag r = VF_DYNAMIC_KNOWN → control_state s' = control_of r;
}.

Definition controls_follow (c : vf_cpu) (a : vf_dynamic_snapshot) : Prop :=
  c sctlr = s_sctlr a ∧ c ttbr0 = s_ttbr0 a ∧ c ttbr1 = s_ttbr1 a ∧ c tcr = s_tcr a ∧ c mair = s_mair a ∧
  c hcr_el2 = s_hcr a ∧ c scr_el3 = s_scr a.

(** Control instructions in a row, each with the value of its register, until one fails. *)
Fixpoint control_run {S} (callback : vf_dynamic_callback S) (ws : list (Z * Z)) (c : vf_cpu) (s : S)
    (out : vf_memory_run_result_dynamic) : Z * vf_cpu * S * vf_memory_run_result_dynamic :=
  match ws with
  | [] => (VF_NEXT, c, s, out)
  | (w, v) :: ws =>
    match dynamic_operation w with
    | None => (VF_NEXT, c, s, out)
    | Some (op, selector) =>
      let '(st, c, s, out) :=
        dynamic_control_step callback (c.[instruction := w].[x (Z.land w 31) := v]) op selector s out in
      if st =? VF_NEXT then control_run callback ws c s out else (st, c, s, out)
    end
  end.

Lemma follow_adopt c k op candidate :
  controls_follow c (architectural k) → s_hcr candidate = s_hcr (architectural k) → s_scr candidate = s_scr (architectural k) →
  controls_follow (retire (adopt c (architectural (advance k op candidate)))) (architectural (advance k op candidate)).
Proof.
  intros (H1 & H2 & H3 & H4 & H5 & H6 & H7) Hh Hs. unfold controls_follow. rewrite !retire_frame by done. unfold adopt. fields.
  unfold advance. by repeat case_match; cbn; rewrite ?Hh, ?Hs, ?H6, ?H7.
Qed.

Lemma candidate_frame c k op selector :
  s_hcr (candidate_of c k op selector) = s_hcr (architectural k) ∧ s_scr (candidate_of c k op selector) = s_scr (architectural k).
Proof. unfold candidate_of, candidate_with. by repeat case_match. Qed.

Lemma adopt_ok c k op selector :
  cpu_ok c → controls_follow c (architectural k) → cpu_ok (retire (adopt c (architectural (advance k op (candidate_of c k op selector))))).
Proof.
  intros Hc (H1 & H2 & H3 & H4 & H5 & _). assert (∀ f, fits (F.width f) (c f)) as Ht by apply Hc.
  pose proof (x_fits c (Z.land (c instruction) 31) false Hc) as Hx.
  apply retire_ok. unfold adopt. set (a := architectural (advance k op (candidate_of c k op selector))).
  assert (fits 64 (s_sctlr a) ∧ fits 64 (s_ttbr0 a) ∧ fits 64 (s_ttbr1 a) ∧ fits 64 (s_tcr a) ∧ fits 64 (s_mair a))
    as (F1 & F2 & F3 & F4 & F5).
  { pose proof (Ht sctlr) as G1. pose proof (Ht ttbr0) as G2. pose proof (Ht ttbr1) as G3. pose proof (Ht tcr) as G4.
    pose proof (Ht mair) as G5. rewrite ?H1, ?H2, ?H3, ?H4, ?H5 in *.
    unfold a, advance, candidate_of, operand_of, candidate_with. by repeat case_match. }
  by repeat (apply inert_ok; [|done|done]).
Qed.

Lemma advance_fits c k op selector :
  control_fits k → proposable c k op selector → control_fits (advance k op (candidate_of c k op selector)).
Proof.
  intros [Hr He Hi] Hp. unfold proposable in Hp. cbv zeta in Hp. unfold advance, fits in *.
  destruct (op =? VF_DYNAMIC_WRITE); [|destruct (op =? VF_DYNAMIC_ISB); [|destruct (op =? VF_DYNAMIC_TLBI)]];
    constructor; cbn; unfold fits; try lia.
  destruct (decide _) as [|Hne]; [lia|]. specialize (Hp Hne). lia.
Qed.

(** The relation of the two sides: in agreement, or one transaction apart. *)
Definition related {S} (callback : vf_dynamic_callback S) `{!ControlService callback} (c : vf_cpu) (s : S) (r : vf_dynamic_reply) : Prop :=
  ∃ k, cpu_ok c ∧ control_fits k ∧ controls_follow c (architectural k) ∧
    (r = known_reply k ∧ control_state s = k ∨
     r = (known_reply k) <| r_state_tag := VF_DYNAMIC_UNCERTAIN |> ∧
     (control_state s = k ∨ ∃ op candidate, control_state s = advance k op candidate)).

Section Agreement.
Context {S : Type} (callback : vf_dynamic_callback S) `{!ControlService callback}.

Lemma transaction_related c k op selector s st c' s' r :
  cpu_ok c → control_fits k → controls_follow c (architectural k) → control_state s = k →
  transaction callback c k op selector s st c' s' r → related callback c' s' r ∧ (st = VF_NEXT → r_state_tag r = VF_DYNAMIC_KNOWN).
Proof.
  intros Hc Hk Hf Hs [r1 s1 r2 s2 Hp H1 Ht H2 Hr Htag Hr2|Hp|rc r1 s1 H1|r1 s1 rc r2 s2 H1 Ht H2].
  - split; [|done]. destruct (candidate_frame c k op selector).
    exists (advance k op (candidate_of c k op selector)). split_and!.
    + by apply adopt_ok.
    + by apply advance_fits.
    + by apply follow_adopt.
    + left. split; [done|]. rewrite <- Hr2. exact (service_truthful s1 _ 0 r2 s2 H2 eq_refl Hr Htag).
  - split; [|done]. exists k. split_and!; auto.
  - split; [|done]. exists k. split_and!; try done. left. split; [done|]. rewrite <- Hs. refine (service_prepares s _ rc r1 s1 _ H1); done.
  - split; [|done]. exists k. split_and!; try done. right. split; [done|].
    assert (control_state s1 = k) as Hs1 by (rewrite <- Hs; refine (service_prepares s _ 0 r1 s1 _ H1); done).
    rewrite <- Hs1. 
    destruct (service_commits s1 (request c k op selector VF_DYNAMIC_COMMIT (r_token r1)) rc r2 s2 eq_refl H2) as [-> | ->]; eauto.
Qed.

Lemma run_related ws c s out :
  Forall (λ '(w, v), fits 32 w ∧ fits 64 v) ws → related callback c s (o_final_control out) →
  r_state_tag (o_final_control out) = VF_DYNAMIC_KNOWN →
  let '(st, c', s', out') := control_run callback ws c s out in
  related callback c' s' (o_final_control out') ∧ (st = VF_NEXT → r_state_tag (o_final_control out') = VF_DYNAMIC_KNOWN).
Proof.
  revert c s out. induction ws as [|[w v] ws IH]; intros c s out Hws Hrel Htag; [done|]. cbn [control_run].
  apply Forall_cons_1 in Hws as [[Hw Hv] Hws]. destruct (dynamic_operation w) as [[op selector]|]; [|done].
  destruct Hrel as (k & Hc & Hk & Hf & [[Ho Hs]|[Ho _]]); [|by rewrite Ho in Htag].
  set (c1 := c.[instruction := w].[x (Z.land w 31) := v]).
  assert (cpu_ok c1) as Hc1 by (do 2 (apply inert_ok; [|done|done]); done).
  pose proof (step_transaction callback c1 k op selector s out Hc1 Hk Ho) as Hstep.
  destruct (dynamic_control_step callback c1 op selector s out) as [[[st c2] s2] out2]. destruct Hstep as (Ht & _ & _).
  apply (transaction_related c1 k op selector s) in Ht as [Hrel Hst]; [|done..].
  destruct (Z.eqb_spec st VF_NEXT) as [->|Hne]; [by apply IH; auto|]. split; [done|]. done.
Qed.

End Agreement.

(** A service that keeps its state in a record, and a transport that loses the replies
    it is told to. *)
Definition ledger : vf_dynamic_callback (control * list bool) := λ '(k, losses) q,
  let next := advance k (q_operation q) (q_candidate q) in
  let lost := match losses with b :: _ => b | [] => false end in
  let reply :=
    if q_phase q =? VF_DYNAMIC_PREPARE then
      acknowledgement next (q_operation q) (q_selector q) VF_DYNAMIC_PREPARE VF_DYNAMIC_PROPOSED 7
    else acknowledgement next (q_operation q) (q_selector q) VF_DYNAMIC_COMMIT VF_DYNAMIC_KNOWN 0 in
  (if lost then -1 else 0, reply, (if q_phase q =? VF_DYNAMIC_PREPARE then k else next, tail losses)).

#[export] Instance ledger_service : ControlService ledger.
Proof.
  refine {| control_state := fst |}.
  - intros [k l] q rc r s' Hp [= _ _ <-]. by rewrite Hp.
  - intros [k l] q rc r s' Hp [= _ _ <-]. rewrite Hp. by right.
  - intros [k l] q rc r s' [= _ <- <-] _ Hr Ht. cbn.
    destruct (q_phase q =? VF_DYNAMIC_PREPARE); [done|]. unfold acknowledgement. by destruct (advance _ _ _).
Defined.

Definition sample_snapshot : vf_dynamic_snapshot := {|
  s_sctlr := 0x30d00802; s_ttbr0 := 0x10000; s_ttbr1 := 0x20000; s_tcr := Z.lor 0x80100010 (Z.shiftl 5 32);
  s_mair := 0x44; s_hcr := 0; s_scr := 0; s_reserved := 0 |}.
Definition sample_control : control := {|
  architectural := sample_snapshot; effective := sample_snapshot; revision := 1; epoch := 1; invalidations := 0 |}.
Definition sample_cpu : vf_cpu := adopt reset_el1 sample_snapshot.
Definition sample_out : vf_memory_run_result_dynamic := {|
  o_memory := {| StageOne.m_base := Provider.zero_result; StageOne.m_last_reply := StageOne.empty_reply 3 1 |};
  o_final_control := known_reply sample_control |}.

(** [MSR TTBR0_EL1, X0] with X0 = 0x30000, then [ISB]. *)
Definition sample_words : list (Z * Z) := [(0xd5182000, 0x30000); (VF_DYNAMIC_ISB_WORD, 0)].

Lemma sample_related losses : related ledger sample_cpu (sample_control, losses) (o_final_control sample_out).
Proof.
  exists sample_control. split_and!; [|by constructor; vm_compute|by repeat split|by left].
  unfold sample_cpu, adopt. do 5 (apply inert_ok; [|done|by vm_compute]). exact reset_el1_ok.
Qed.

(** C9. The processor and the control service never disagree unnoticed.  Starting from
    agreement, run any control instructions, with any register values, against a service
    that keeps the protocol over a transport that may lose messages.  As long as the
    processor goes on, the state it keeps is the state of the service and its own control
    registers are the written half of it.  When it stops, the two still agree, or the
    state is marked uncertain, and then the service is in that state or one whole
    operation after it. *)
Theorem transactions_agree {S} (callback : vf_dynamic_callback S) `{!ControlService callback} ws c s out :
  Forall (λ '(w, v), fits 32 w ∧ fits 64 v) ws → related callback c s (o_final_control out) →
  r_state_tag (o_final_control out) = VF_DYNAMIC_KNOWN →
  let '(st, c', s', out') := control_run callback ws c s out in
  ∃ k, cpu_ok c' ∧ controls_follow c' (architectural k) ∧
    (o_final_control out' = known_reply k ∧ control_state s' = k ∨
     st ≠ VF_NEXT ∧ o_final_control out' = (known_reply k) <| r_state_tag := VF_DYNAMIC_UNCERTAIN |> ∧
     (control_state s' = k ∨ ∃ op candidate, control_state s' = advance k op candidate)).
Proof.
  intros Hws Hrel Htag. pose proof (run_related callback ws c s out Hws Hrel Htag) as H.
  destruct (control_run callback ws c s out) as [[[st c'] s'] out']. destruct H as [(k & Hc & _ & Hf & Hor) Hst].
  exists k. split_and!; [done..|]. destruct Hor as [Hor|[Ho Hor]]; [by left|]. right. split_and!; [|done..].
  intros Hnext%Hst. by rewrite Ho in Hnext.
Qed.

Lemma transactions_agree_witness :
  let '(st, c', s', out') := control_run ledger sample_words sample_cpu (sample_control, [false; false; false; true]) sample_out in
  r_state_tag (o_final_control out') = VF_DYNAMIC_UNCERTAIN ∧
  ∃ k, cpu_ok c' ∧ controls_follow c' (architectural k) ∧
    (o_final_control out' = known_reply k ∧ s'.1 = k ∨
     st ≠ VF_NEXT ∧ o_final_control out' = (known_reply k) <| r_state_tag := VF_DYNAMIC_UNCERTAIN |> ∧
     (s'.1 = k ∨ ∃ op candidate, s'.1 = advance k op candidate)).
Proof.
  pose proof (transactions_agree ledger sample_words sample_cpu (sample_control, [false; false; false; true]) sample_out
    ltac:(by repeat constructor) (sample_related _) eq_refl) as H.
  assert (r_state_tag (o_final_control
    (control_run ledger sample_words sample_cpu (sample_control, [false; false; false; true]) sample_out).2) = VF_DYNAMIC_UNCERTAIN) as Ht
    by (vm_compute; reflexivity).
  destruct (control_run _ _ _ _ _) as [[[st c'] s'] out']. split; [exact Ht|exact H].
Defined.

End Dynamic.
