(* ===== verification/X86.v ===== *)
(** The host processor: the x86-64 instructions the translator emits.

    The translator ([runtime/jit.c]) writes bytes of x86-64 code.  This file says what
    they do: an encoder and a decoder of the instructions that occur, and a machine that
    runs a list of bytes.  It is the documented behaviour of the processor on the forms
    the translator uses; every other byte sequence, and every use of a value the model
    does not determine (a flag that the architecture leaves undefined, an address outside
    the processor structure and the guest memory), has no meaning.

    The entry convention is the one of [vf_entry] ([runtime/jit.h]): RCX points at the
    [vf_cpu] structure, RDX at the guest memory, R8 is the size of that memory. *)
From S2P Require Import Prelude.
From S2P Require Import Words.
From S2P Require Import BitField.
From S2P Require Import Cpu.

Module X86.
Import Cpu.
Import Cpu.F.

(** ** Little-endian values *)

Fixpoint le_bytes (n : nat) (v : Z) : list Z :=
  match n with O => [] | S n => u8 v :: le_bytes n (Z.shiftr v 8) end.
Fixpoint le_value (l : list Z) : Z :=
  match l with [] => 0 | b :: l => b + 256 * le_value l end.

(** ** Instructions *)

Inductive reg := RAX | RCX | RDX | R8 | R9 | R10 | R11.

Definition reg_code (r : reg) : Z :=
  match r with RAX => 0 | RCX => 1 | RDX => 2 | R8 => 8 | R9 => 9 | R10 => 10 | R11 => 11 end.
Definition reg_of (n : Z) : option reg :=
  switch n [(0, RAX); (1, RCX); (2, RDX); (8, R8); (9, R9); (10, R10); (11, R11)].

(** A register, a member of the structure at RCX, or the guest byte at RDX + R9 plus a
    displacement. *)
Inductive operand := Direct (r : reg) | Member (d : Z) | Ram (d : Z).

Inductive alu := ADD | OR | AND | SUB | XOR | CMP | TEST.
Inductive shift_op := ROR | SHL | SHR | SAR.

Inductive insn :=
  | MovImm (wide : bool) (r : reg) (v : Z)
  | Load (wide : bool) (r : reg) (m : operand)
  | Store (n : Z) (m : operand) (r : reg)                       (* [n] bytes *)
  | Extend (sg : bool) (n : Z) (wide : bool) (r : reg) (m : operand)
  | StoreImm (m : operand) (v : Z)                              (* 32 bits *)
  | Alu (op : alu) (wide : bool) (m : operand) (r : reg)
  | AluLoad (op : alu) (wide : bool) (r : reg) (m : operand)
  | AluEax (op : alu) (wide : bool) (v : Z)
  | TestAl (v : Z)
  | AluImm8 (op : alu) (wide : bool) (m : operand) (v : Z)
  | AluImm32 (op : alu) (wide : bool) (m : operand) (v : Z)
  | Imul (wide : bool) (r : reg) (m : operand)
  | Shift (op : shift_op) (wide : bool) (r : reg) (n : Z)
  | ShiftCl (op : shift_op) (wide : bool) (r : reg)
  | Not (wide : bool) (r : reg)
  | Bt (wide : bool) (r : reg) (n : Z)
  | Setcc (cc : Z) (r : reg)
  | Jcc (cc : Z) (rel : Z)
  | Jmp (rel : Z)
  | Ret.

(** ** Encoding *)

Definition rex (w r x b : bool) : list Z :=
  let v := 0x40 + 8 * b2z w + 4 * b2z r + 2 * b2z x + b2z b in if v =? 0x40 then [] else [v].
Definition high (r : reg) : bool := 8 <=? reg_code r.

(** The REX prefix, the opcode, and the ModRM byte with its displacement. *)
Definition with_modrm (w : bool) (opcode : list Z) (field_reg : Z) (m : operand) : list Z :=
  let r := 8 <=? field_reg in
  let f := 8 * (field_reg mod 8) in
  match m with
  | Direct b => rex w r false (high b) ++ opcode ++ [0xc0 + f + reg_code b mod 8]
  | Member d => rex w r false false ++ opcode ++ [0x80 + f + 1] ++ le_bytes 4 d
  | Ram d => rex w r true false ++ opcode ++ (if d =? 0 then [f + 4; 0x0a] else [0x40 + f + 4; 0x0a; d])
  end.

Definition alu_code (op : alu) : Z :=
  match op with ADD => 0 | OR => 1 | AND => 4 | SUB => 5 | XOR => 6 | CMP => 7 | TEST => 0 end.
Definition shift_code (op : shift_op) : Z := match op with ROR => 1 | SHL => 4 | SHR => 5 | SAR => 7 end.

Definition encode (i : insn) : list Z :=
  match i with
  | MovImm wide r v => rex wide false false (high r) ++ [0xb8 + reg_code r mod 8] ++ le_bytes (if wide then 8 else 4) v
  | Load wide r m => with_modrm wide [0x8b] (reg_code r) m
  | Store n m r => (if n =? 2 then [0x66] else []) ++ with_modrm (n =? 8) [if n =? 1 then 0x88 else 0x89] (reg_code r) m
  | Extend sg n wide r m =>
    with_modrm wide (if n =? 4 then [0x63] else [0x0f; (if sg then 0xbe else 0xb6) + b2z (n =? 2)]) (reg_code r) m
  | StoreImm m v => with_modrm false [0xc7] 0 m ++ le_bytes 4 v
  | Alu op wide m r => with_modrm wide [match op with TEST => 0x85 | _ => 8 * alu_code op + 1 end] (reg_code r) m
  | AluLoad op wide r m => with_modrm wide [8 * alu_code op + 3] (reg_code r) m
  | AluEax op wide v => rex wide false false false ++ [8 * alu_code op + 5] ++ le_bytes 4 v
  | TestAl v => [0xa8; v]
  | AluImm8 op wide m v => with_modrm wide [0x83] (alu_code op) m ++ [v]
  | AluImm32 op wide m v => with_modrm wide [0x81] (alu_code op) m ++ le_bytes 4 v
  | Imul wide r m => with_modrm wide [0x0f; 0xaf] (reg_code r) m
  | Shift op wide r n => with_modrm wide [0xc1] (shift_code op) (Direct r) ++ [n]
  | ShiftCl op wide r => with_modrm wide [0xd3] (shift_code op) (Direct r)
  | Not wide r => with_modrm wide [0xf7] 2 (Direct r)
  | Bt wide r n => with_modrm wide [0x0f; 0xba] 4 (Direct r) ++ [n]
  | Setcc cc r => with_modrm false [0x0f; 0x90 + cc] 0 (Direct r)
  | Jcc cc rel => [0x0f; 0x80 + cc] ++ le_bytes 4 rel
  | Jmp rel => 0xe9 :: le_bytes 4 rel
  | Ret => [0xc3]
  end.

Definition enc (l : list insn) : list Z := flat_map encode l.

(** ** Decoding *)

Definition immediate (n : nat) (code : list Z) : option (Z * list Z) :=
  if (n <=? length code)%nat then Some (le_value (take n code), drop n code) else None.

Definition modrm (w r x b : bool) (code : list Z) : option (Z * operand * list Z) :=
  match code with
  | [] => None
  | m :: code =>
    let f := 8 * b2z r + Z.land (Z.shiftr m 3) 7 in
    let low := Z.land m 7 in
    let mode := Z.shiftr m 6 in
    if mode =? 3 then r ← reg_of (8 * b2z b + low); Some (f, Direct r, code)
    else if (mode =? 2) && (low =? 1) && negb b then '(d, code) ← immediate 4 code; Some (f, Member d, code)
    else
      match code with
      | s :: code =>
        if (low =? 4) && (s =? 0x0a) && x && negb b then
          if mode =? 0 then Some (f, Ram 0, code)
          else if mode =? 1 then '(d, code) ← immediate 1 code; if d <? 128 then Some (f, Ram d, code) else None
          else None
        else None
      | [] => None
      end
  end.

Definition alu_of (n : Z) : option alu := switch n [(0, ADD); (1, OR); (4, AND); (5, SUB); (6, XOR); (7, CMP)].
Definition shift_of (n : Z) : option shift_op := switch n [(1, ROR); (4, SHL); (5, SHR); (7, SAR)].

(** After the prefixes: [o] is the operand-size prefix, [w], [r], [x] and [b] the bits of
    the REX prefix. *)
Definition decode_opcode (o w r x b : bool) (op : Z) (code : list Z) : option (insn * list Z) :=
  if o && negb (op =? 0x89) then None
  else if Z.land op 0xf8 =? 0xb8 then
    g ← reg_of (8 * b2z b + Z.land op 7); '(v, code) ← immediate (if w then 8 else 4) code; Some (MovImm w g v, code)
  else if op =? 0xc3 then Some (Ret, code)
  else if op =? 0xe9 then '(v, code) ← immediate 4 code; Some (Jmp v, code)
  else if op =? 0xa8 then '(v, code) ← immediate 1 code; Some (TestAl v, code)
  else if (op <? 0x40) && (Z.land op 7 =? 5) then
    a ← alu_of (Z.shiftr op 3); '(v, code) ← immediate 4 code; Some (AluEax a w v, code)
  else if op =? 0x0f then
    match code with
    | [] => None
    | op :: code =>
      if Z.land op 0xf0 =? 0x80 then '(v, code) ← immediate 4 code; Some (Jcc (Z.land op 15) v, code)
      else
        '(f, m, code) ← modrm w r x b code;
        if Z.land op 0xf0 =? 0x90 then
          match m with Direct g => if f =? 0 then Some (Setcc (Z.land op 15) g, code) else None | _ => None end
        else if op =? 0xaf then g ← reg_of f; Some (Imul w g m, code)
        else if op =? 0xba then
          match m with
          | Direct g => '(v, code) ← immediate 1 code; if f =? 4 then Some (Bt w g v, code) else None
          | _ => None
          end
        else
          g ← reg_of f;
          if op =? 0xb6 then Some (Extend false 1 w g m, code)
          else if op =? 0xb7 then Some (Extend false 2 w g m, code)
          else if op =? 0xbe then Some (Extend true 1 w g m, code)
          else if op =? 0xbf then Some (Extend true 2 w g m, code)
          else None
    end
  else
    '(f, m, code) ← modrm w r x b code;
    if op =? 0x8b then g ← reg_of f; Some (Load w g m, code)
    else if op =? 0x89 then g ← reg_of f; Some (Store (if o then 2 else if w then 8 else 4) m g, code)
    else if op =? 0x88 then g ← reg_of f; Some (Store 1 m g, code)
    else if op =? 0x63 then g ← reg_of f; Some (Extend true 4 w g m, code)
    else if op =? 0x85 then g ← reg_of f; Some (Alu TEST w m g, code)
    else if (op <? 0x40) && (Z.land op 7 =? 1) then a ← alu_of (Z.shiftr op 3); g ← reg_of f; Some (Alu a w m g, code)
    else if (op <? 0x40) && (Z.land op 7 =? 3) then a ← alu_of (Z.shiftr op 3); g ← reg_of f; Some (AluLoad a w g m, code)
    else if op =? 0xc7 then '(v, code) ← immediate 4 code; if (f =? 0) && negb w then Some (StoreImm m v, code) else None
    else if op =? 0x83 then a ← alu_of f; '(v, code) ← immediate 1 code; Some (AluImm8 a w m v, code)
    else if op =? 0x81 then a ← alu_of f; '(v, code) ← immediate 4 code; Some (AluImm32 a w m v, code)
    else
      match m with
      | Direct g =>
        if op =? 0xc1 then s ← shift_of f; '(v, code) ← immediate 1 code; Some (Shift s w g v, code)
        else if op =? 0xd3 then s ← shift_of f; Some (ShiftCl s w g, code)
        else if op =? 0xf7 then if f =? 2 then Some (Not w g, code) else None
        else None
      | _ => None
      end.

Definition decode (code : list Z) : option (insn * list Z) :=
  let '(o, code) := match code with 0x66 :: code => (true, code) | _ => (false, code) end in
  match code with
  | [] => None
  | p :: rest =>
    if Z.land p 0xf0 =? 0x40 then
      match rest with
      | [] => None
      | op :: code => decode_opcode o (Z.testbit p 3) (Z.testbit p 2) (Z.testbit p 1) (Z.testbit p 0) op code
      end
    else decode_opcode o false false false false p rest
  end.

(** ** The machine *)

(** A register holds a word, or one of the two addresses of the entry convention.  The
    machine does not look at addresses; [Tainted] is an address whose low byte was
    replaced. *)
Inductive host_value := Word (v : Z) | CpuPtr | RamPtr | Tainted (low : Z).

(** [None] is a flag left undefined. *)
Record flags := { cf : option bool; zf : option bool; sf : option bool; of_ : option bool }.

Record host := {
  rax : host_value; rcx : host_value; rdx : host_value; r8 : host_value; r9 : host_value; r10 : host_value;
  r11 : host_value; fl : flags; guest : vf_cpu; ram : list Z;
}.

Definition get (h : host) (r : reg) : host_value :=
  match r with
  | RAX => rax h | RCX => rcx h | RDX => rdx h | R8 => r8 h | R9 => r9 h | R10 => r10 h | R11 => r11 h
  end.
Definition set (h : host) (r : reg) (v : host_value) : host :=
  match r with
  | RAX => Build_host v (rcx h) (rdx h) (r8 h) (r9 h) (r10 h) (r11 h) (fl h) (guest h) (ram h)
  | RCX => Build_host (rax h) v (rdx h) (r8 h) (r9 h) (r10 h) (r11 h) (fl h) (guest h) (ram h)
  | RDX => Build_host (rax h) (rcx h) v (r8 h) (r9 h) (r10 h) (r11 h) (fl h) (guest h) (ram h)
  | R8 => Build_host (rax h) (rcx h) (rdx h) v (r9 h) (r10 h) (r11 h) (fl h) (guest h) (ram h)
  | R9 => Build_host (rax h) (rcx h) (rdx h) (r8 h) v (r10 h) (r11 h) (fl h) (guest h) (ram h)
  | R10 => Build_host (rax h) (rcx h) (rdx h) (r8 h) (r9 h) v (r11 h) (fl h) (guest h) (ram h)
  | R11 => Build_host (rax h) (rcx h) (rdx h) (r8 h) (r9 h) (r10 h) v (fl h) (guest h) (ram h)
  end.
Definition set_flags (h : host) (f : flags) : host :=
  Build_host (rax h) (rcx h) (rdx h) (r8 h) (r9 h) (r10 h) (r11 h) f (guest h) (ram h).
Definition set_guest (h : host) (c : vf_cpu) : host :=
  Build_host (rax h) (rcx h) (rdx h) (r8 h) (r9 h) (r10 h) (r11 h) (fl h) c (ram h).
Definition set_ram (h : host) (m : list Z) : host :=
  Build_host (rax h) (rcx h) (rdx h) (r8 h) (r9 h) (r10 h) (r11 h) (fl h) (guest h) m.

Definition no_flags : flags := {| cf := None; zf := None; sf := None; of_ := None |}.

(** *** The structure at RCX *)

(** The members of [vf_cpu] in order, up to the ones the translator uses, with their size
    in bytes; the callback pointer has no field. *)
Definition members : list (option field * Z) :=
  let named := map (λ f, (Some f, F.width f / 8)) in
  named (map x (seqZ 0 32) ++ [sp; pc; pstate; sctlr; ttbr0; ttbr1; tcr; mair; vbar; esr; far; elr]
    ++ map sp_el (seqZ 0 4) ++ map spsr_el (seqZ 0 4) ++ map vbar_el (seqZ 0 4) ++ map esr_el (seqZ 0 4)
    ++ map far_el (seqZ 0 4) ++ map elr_el (seqZ 0 4)
    ++ [F.exception_syndrome; exception_far; exception_pc; exception_vector; cntfrq; cntpct; cntp_ctl; cntp_cval;
        id_aa64mmfr0; id_aa64isar1; cntvct; cntv_ctl; cntv_cval; cntp_tval; hcr_el2; cnthctl_el2; scr_el3;
        retired; tlb_tag; tlb_pa; tlb_generation;
        current_el; exception_pending; exception_target_el; exception_from_lower_el; instruction; status;
        guest_ram_base; compiled_blocks]
    ++ flat_map (λ i, map (pauth_keys i) (seqZ 0 2)) (seqZ 0 5))
  ++ [(None, 8)] ++ named [tpidr_el0; tpidrro_el0; tpidr_el1].

Fixpoint offset_in (l : list (option field * Z)) (f : field) (at_ : Z) : Z :=
  match l with
  | [] => -1
  | (Some g, n) :: l => if F.eqb g f then at_ else offset_in l f (at_ + n)
  | (None, n) :: l => offset_in l f (at_ + n)
  end.
Definition offsetof (f : field) : Z := offset_in members f 0.

Fixpoint member_in (l : list (option field * Z)) (off at_ : Z) : option field :=
  match l with
  | [] => None
  | (g, n) :: l => if off =? at_ then g else member_in l off (at_ + n)
  end.
Definition member_at (off : Z) : option field := member_in members off 0.

(** [n] bytes at an offset: a whole member, or the low word of a wide one. *)
Definition member_read (c : vf_cpu) (off n : Z) : option Z :=
  f ← member_at off; if 8 * n <=? F.width f then Some (c f mod 2 ^ (8 * n)) else None.
Definition member_write (c : vf_cpu) (off n v : Z) : option vf_cpu :=
  f ← member_at off; if 8 * n =? F.width f then Some (c.[f := v mod 2 ^ (8 * n)]) else None.

(** *** The guest memory at RDX *)

Definition ram_read (m : list Z) (off n : Z) : option Z :=
  if bool_decide (0 ≤ off ∧ off + n ≤ Z.of_nat (length m)) then Some (le_value (take (Z.to_nat n) (drop (Z.to_nat off) m))) else None.

Definition ram_write (m : list Z) (off n v : Z) : option (list Z) :=
  if bool_decide (0 ≤ off ∧ 0 ≤ n ∧ off + n ≤ Z.of_nat (length m))
  then Some (take (Z.to_nat off) m ++ le_bytes (Z.to_nat n) v ++ drop (Z.to_nat (off + n)) m) else None.

(** *** Operands *)

Definition low_part (v : host_value) (n : Z) : option Z := match v with Word v => Some (v mod 2 ^ (8 * n)) | _ => None end.

Definition read_operand (h : host) (m : operand) (n : Z) : option Z :=
  match m with
  | Direct r => low_part (get h r) n
  | Member d => match rcx h with CpuPtr => member_read (guest h) d n | _ => None end
  | Ram d => match rdx h, r9 h with RamPtr, Word o => ram_read (ram h) (o + d) n | _, _ => None end
  end.

Definition write_operand (h : host) (m : operand) (n v : Z) : option host :=
  match m with
  | Direct r => Some (set h r (Word v))
  | Member d =>
    match rcx h with CpuPtr => c ← member_write (guest h) d n v; Some (set_guest h c) | _ => None end
  | Ram d =>
    match rdx h, r9 h with RamPtr, Word o => b ← ram_write (ram h) (o + d) n v; Some (set_ram h b) | _, _ => None end
  end.

(** Size of an operation, in bytes. *)
Definition size (wide : bool) : Z := if wide then 8 else 4.

(** *** Arithmetic and its flags *)

Definition alu_value (op : alu) (a b : Z) : Z :=
  match op with
  | ADD => a + b | SUB | CMP => a - b | OR => Z.lor a b | AND | TEST => Z.land a b | XOR => Z.lxor a b
  end.

Definition alu_flags (op : alu) (n a b : Z) : flags :=
  let v := alu_value op a b mod 2 ^ (8 * n) in
  let s := match op with ADD => signed (8 * n) a + signed (8 * n) b | SUB | CMP => signed (8 * n) a - signed (8 * n) b | _ => 0 end in
  {| cf := Some match op with ADD => 2 ^ (8 * n) <=? a + b | SUB | CMP => a <? b | _ => false end;
     zf := Some (v =? 0); sf := Some (2 ^ (8 * n - 1) <=? v);
     of_ := Some ((s <? - 2 ^ (8 * n - 1)) || (2 ^ (8 * n - 1) <=? s)) |}.

Definition alu_writes (op : alu) : bool := match op with CMP | TEST => false | _ => true end.

Definition alu_step (h : host) (op : alu) (n : Z) (m : operand) (a b : Z) : option host :=
  let h := set_flags h (alu_flags op n a b) in
  if alu_writes op then write_operand h m n (alu_value op a b mod 2 ^ (8 * n)) else Some h.

(** A count is taken modulo the width; flags after a shift are not modelled. *)
Definition shift_value (op : shift_op) (n a count : Z) : Z :=
  let count := count mod (8 * n) in
  match op with
  | SHL => a * 2 ^ count mod 2 ^ (8 * n)
  | SHR => a / 2 ^ count
  | SAR => (signed (8 * n) a / 2 ^ count) mod 2 ^ (8 * n)
  | ROR => Z.lor (Z.shiftr a count) (Z.shiftl a (8 * n - count) mod 2 ^ (8 * n))
  end.

(** The condition of a jump or [set]; [None] when it depends on an undefined flag. *)
Definition condition (f : flags) (cc : Z) : option bool :=
  c ← switch (cc / 2) [
    (0, of_ f); (1, cf f); (2, zf f); (3, c ← cf f; z ← zf f; Some (c || z)); (4, sf f)];
  b ← c; Some (if Z.odd cc then negb b else b).

(** The low byte of a register. *)
Definition low_byte (v : host_value) (b : Z) : host_value :=
  match v with Word v => Word (v - v mod 256 + b) | _ => Tainted b end.
Definition byte_of (h : host) (m : operand) : option Z :=
  match m with
  | Direct r => match get h r with Tainted b => Some b | v => low_part v 1 end
  | _ => read_operand h m 1
  end.

(** [xor r, r] does not depend on [r]. *)
Definition zeroing (op : alu) (m : operand) (r : reg) : bool :=
  match op, m with XOR, Direct r' => reg_code r' =? reg_code r | _, _ => false end.

(** One instruction that does not jump. *)
Definition step (i : insn) (h : host) : option host :=
  match i with
  | MovImm wide r v => Some (set h r (Word (v mod 2 ^ (8 * size wide))))
  | Load wide r m => v ← read_operand h m (size wide); Some (set h r (Word v))
  | Store n (Direct r') r =>
    if n =? 8 then Some (set h r' (get h r)) else v ← low_part (get h r) n; if n =? 4 then Some (set h r' (Word v)) else None
  | Store n m r => v ← low_part (get h r) n; write_operand h m n v
  | Extend sg n wide r m =>
    v ← (if n =? 1 then byte_of h m else read_operand h m n);
    Some (set h r (Word ((if sg then signed (8 * n) v else v) mod 2 ^ (8 * size wide))))
  | StoreImm m v => write_operand h m 4 (v mod 2 ^ 32)
  | Alu op wide m r =>
    if zeroing op m r then alu_step h op (size wide) m 0 0
    else a ← read_operand h m (size wide); b ← low_part (get h r) (size wide); alu_step h op (size wide) m a b
  | AluLoad op wide r m =>
    a ← low_part (get h r) (size wide); b ← read_operand h m (size wide); alu_step h op (size wide) (Direct r) a b
  | AluEax op wide v => a ← low_part (rax h) (size wide); alu_step h op (size wide) (Direct RAX) a (signed 32 v mod 2 ^ (8 * size wide))
  | TestAl v => a ← low_part (rax h) 1; Some (set_flags h (alu_flags TEST 1 a v))
  | AluImm8 op wide m v => a ← read_operand h m (size wide); alu_step h op (size wide) m a (signed 8 v mod 2 ^ (8 * size wide))
  | AluImm32 op wide m v => a ← read_operand h m (size wide); alu_step h op (size wide) m a (signed 32 v mod 2 ^ (8 * size wide))
  | Imul wide r m =>
    a ← low_part (get h r) (size wide); b ← read_operand h m (size wide);
    Some (set_flags (set h r (Word (a * b mod 2 ^ (8 * size wide)))) no_flags)
  | Shift op wide r n =>
    a ← low_part (get h r) (size wide); Some (set_flags (set h r (Word (shift_value op (size wide) a n))) no_flags)
  | ShiftCl op wide r =>
    n ← low_part (rcx h) 1; a ← low_part (get h r) (size wide);
    Some (set_flags (set h r (Word (shift_value op (size wide) a n))) no_flags)
  | Not wide r => a ← low_part (get h r) (size wide); Some (set h r (Word (2 ^ (8 * size wide) - 1 - a)))
  | Bt wide r n =>
    a ← low_part (get h r) (size wide);
    Some (set_flags h {| cf := Some (Z.testbit a (n mod (8 * size wide))); zf := zf (fl h); sf := None; of_ := None |})
  | Setcc cc r => b ← condition (fl h) cc; Some (set h r (low_byte (get h r) (b2z b)))
  | Jcc _ _ | Jmp _ | Ret => None
  end.

(** A jump forward over [rel] bytes of code. *)
Definition jump (rel : Z) (code : list Z) : option (list Z) :=
  if (rel <? 2 ^ 31) && (rel <=? Z.of_nat (length code)) then Some (drop (Z.to_nat rel) code) else None.

(** Runs until the return, whose result is EAX.  The jumps of the translator are
    forward, so one round per byte of code is enough. *)
Fixpoint exec (fuel : nat) (code : list Z) (h : host) : option (Z * host) :=
  match fuel with
  | O => None
  | S fuel =>
    '(i, rest) ← decode code;
    match i with
    | Ret => v ← low_part (rax h) 4; Some (v, h)
    | Jmp rel => code ← jump rel rest; exec fuel code h
    | Jcc cc rel => b ← condition (fl h) cc; code ← (if b : bool then jump rel rest else Some rest); exec fuel code h
    | i => h ← step i h; exec fuel rest h
    end
  end.

Definition run (code : list Z) (h : host) : option (Z * host) := exec (S (length code)) code h.

(** ** The decoder inverts the encoder *)

Lemma le_bytes_length n v : length (le_bytes n v) = n.
Proof. revert v. induction n as [|n IH]; intros v; cbn; [done|]. by rewrite IH. Qed.

Lemma le_value_bytes n v : le_value (le_bytes n v) = v mod 2 ^ (8 * Z.of_nat n).
Proof.
  revert v. induction n as [|n IH]; intros v; cbn [le_bytes le_value]; [by rewrite Z.mod_1_r|].
  rewrite IH. rewrite Z.shiftr_div_pow2 by lia. change (u8 v) with (v mod 2 ^ 8).
  replace (8 * Z.of_nat (S n)) with (8 + 8 * Z.of_nat n) by lia. rewrite Z.pow_add_r by lia.
  rewrite Z.rem_mul_r by (lia || (apply Z.pow_pos_nonneg; lia)). done.
Qed.

Lemma immediate_le n v rest : fits (8 * Z.of_nat n) v → immediate n (le_bytes n v ++ rest) = Some (v, rest).
Proof.
  intros Hv. unfold immediate. rewrite length_app, le_bytes_length. rewrite (proj2 (Nat.leb_le _ _)) by lia.
  rewrite take_app_length', drop_app_length', le_value_bytes by (by rewrite le_bytes_length). by rewrite Z.mod_small.
Qed.

Lemma immediate_byte v rest : immediate 1 (v :: rest) = Some (v, rest).
Proof. unfold immediate. cbn [length Nat.leb take drop le_value]. rewrite Z.mul_0_r, Z.add_0_r. done. Qed.

Definition operand_ok (m : operand) : Prop :=
  match m with Direct _ => True | Member d => fits 32 d | Ram d => 0 ≤ d < 128 end.

Definition insn_ok (i : insn) : Prop :=
  match i with
  | MovImm wide _ v => fits (8 * size wide) v
  | Load _ _ m | Imul _ _ m => operand_ok m
  | Store n m _ => (n = 1 ∨ n = 2 ∨ n = 4 ∨ n = 8) ∧ operand_ok m
  | Extend sg n _ _ m => (n = 1 ∨ n = 2 ∨ n = 4 ∧ sg = true) ∧ operand_ok m
  | StoreImm m v => operand_ok m ∧ fits 32 v
  | Alu _ _ m _ => operand_ok m
  | AluLoad op _ _ m => op ≠ TEST ∧ operand_ok m
  | AluEax op _ v => op ≠ TEST ∧ fits 32 v
  | TestAl v => True
  | AluImm8 op _ m v => op ≠ TEST ∧ operand_ok m
  | AluImm32 op _ m v => op ≠ TEST ∧ operand_ok m ∧ fits 32 v
  | Shift _ _ _ _ | ShiftCl _ _ _ | Not _ _ | Bt _ _ _ | Ret => True
  | Setcc cc _ => 0 ≤ cc < 16
  | Jcc cc rel => 0 ≤ cc < 16 ∧ fits 32 rel
  | Jmp rel => fits 32 rel
  end.

(** What follows the opcode. *)
Definition modrm_tail (f : Z) (m : operand) : list Z :=
  match m with
  | Direct b => [0xc0 + 8 * (f mod 8) + reg_code b mod 8]
  | Member d => (0x80 + 8 * (f mod 8) + 1) :: le_bytes 4 d
  | Ram d => if d =? 0 then [8 * (f mod 8) + 4; 0x0a] else [0x40 + 8 * (f mod 8) + 4; 0x0a; d]
  end.
Definition is_ram (m : operand) : bool := match m with Ram _ => true | _ => false end.
Definition is_high (m : operand) : bool := match m with Direct r => high r | _ => false end.

Lemma with_modrm_tail w opcode f m :
  with_modrm w opcode f m = rex w (8 <=? f) (is_ram m) (is_high m) ++ opcode ++ modrm_tail f m.
Proof. by destruct m. Qed.

Lemma modrm_spec w f m rest : (f < 12)%nat → operand_ok m →
  modrm w (8 <=? Z.of_nat f) (is_ram m) (is_high m) (modrm_tail (Z.of_nat f) m ++ rest) = Some (Z.of_nat f, m, rest).
Proof.
  intros Hf Hm. destruct m as [r|d|d]; cbn [operand_ok] in Hm.
  - destruct r; do 12 (destruct f as [|f]; [vm_compute; reflexivity|]); lia.
  - cbn [modrm_tail is_ram is_high app modrm].
    do 12 (destruct f as [|f]; [rewrite immediate_le by done; vm_compute; reflexivity|]); lia.
  - cbn [modrm_tail is_ram is_high]. destruct (Z.eqb_spec d 0) as [->|Hd].
    + do 12 (destruct f as [|f]; [vm_compute; reflexivity|]); lia.
    + cbn [app modrm]. rewrite immediate_byte. cbn [mbind option_bind]. assert ((d <? 128) = true) as -> by lia.
      do 12 (destruct f as [|f]; [vm_compute; reflexivity|]); lia.
Qed.

Lemma modrm_tail_spec w f m rest : 0 ≤ f < 12 → operand_ok m →
  modrm w (8 <=? f) (is_ram m) (is_high m) (modrm_tail f m ++ rest) = Some (f, m, rest).
Proof. intros Hf Hm. rewrite <- (Z2Nat.id f) by lia. apply modrm_spec; [lia|done]. Qed.

Lemma reg_code_range r : 0 ≤ reg_code r < 12.
Proof. by destruct r. Qed.

Lemma reg_of_code r : reg_of (reg_code r) = Some r.
Proof. by destruct r. Qed.

Lemma reg_of_low r : reg_of (8 * b2z (high r) + reg_code r mod 8) = Some r.
Proof. by destruct r. Qed.

Lemma decode_rex w r x b op code :
  op ≠ 0x66 → Z.land op 0xf0 ≠ 0x40 →
  decode (rex w r x b ++ op :: code) = decode_opcode false w r x b op code.
Proof.
  intros H1 H2. assert (∀ op' code', op' ≠ 0x66 → decode (op' :: code') =
    if Z.land op' 0xf0 =? 0x40 then
      match code' with [] => None | op :: code => decode_opcode false (Z.testbit op' 3) (Z.testbit op' 2) (Z.testbit op' 1) (Z.testbit op' 0) op code end
    else decode_opcode false false false false false op' code') as Hd.
  { clear. intros op code Hop. unfold decode.
    destruct op as [|p|p]; try done. do 7 (destruct p as [p|p|]; try done). }
  destruct w, r, x, b;
    match goal with |- context [rex ?w ?r ?x ?b] => let e := eval vm_compute in (rex w r x b) in change (rex w r x b) with e end;
    cbn [app]; rewrite Hd by done; try reflexivity.
  by rewrite (proj2 (Z.eqb_neq _ _)).
Qed.

(** An instruction with a ModRM byte. *)
Lemma decode_modrm w op f m code :
  op ≠ 0x66 → Z.land op 0xf0 ≠ 0x40 → 0 ≤ f < 12 → operand_ok m →
  decode (with_modrm w [op] f m ++ code) =
  decode_opcode false w (8 <=? f) (is_ram m) (is_high m) op (modrm_tail f m ++ code).
Proof. intros. rewrite with_modrm_tail, <- !app_assoc. cbn [app]. by apply decode_rex. Qed.

Lemma decode_modrm2 w op f m code :
  0 ≤ f < 12 → operand_ok m →
  decode (with_modrm w [0x0f; op] f m ++ code) =
  decode_opcode false w (8 <=? f) (is_ram m) (is_high m) 0x0f (op :: modrm_tail f m ++ code).
Proof. intros. rewrite with_modrm_tail, <- !app_assoc. cbn [app]. by apply decode_rex. Qed.

(** Evaluates a decoder applied to an encoding, test by test. *)
Ltac decoding :=
  repeat lazymatch goal with
  | |- (if ?c then _ else _) = _ => let v := eval vm_compute in c in change c with v; cbv iota
  | |- (modrm _ _ _ _ _ ≫= _) = _ => rewrite modrm_tail_spec by (done || apply reg_code_range); cbn [mbind option_bind]
  | |- (immediate _ (le_bytes _ _ ++ _) ≫= _) = _ =>
    rewrite immediate_le by (done || (eapply fits_weaken; [|eassumption]; done)); cbn [mbind option_bind]
  | |- (immediate _ (_ :: _) ≫= _) = _ => rewrite immediate_byte; cbn [mbind option_bind]
  | |- (reg_of (reg_code _) ≫= _) = _ => rewrite reg_of_code; cbn [mbind option_bind]
  | |- (?m ≫= _) = _ => let v := eval vm_compute in m in change m with v; cbn [mbind option_bind]
  | |- (match ?m with Direct _ => _ | Member _ => _ | Ram _ => _ end) = _ => cbv iota
  end.

Lemma cases16 (P : Z → Prop) : Forall P (seqZ 0 16) → ∀ cc, 0 ≤ cc < 16 → P cc.
Proof. intros HP cc Hc. rewrite Forall_forall in HP. apply HP, list_elem_of_In, elem_of_seqZ. lia. Qed.

(** An operand-size prefix. *)
Lemma decode_prefix w op f m code :
  op ≠ 0x66 → Z.land op 0xf0 ≠ 0x40 → 0 ≤ f < 12 → operand_ok m →
  decode (0x66 :: with_modrm w [op] f m ++ code) =
  decode_opcode true w (8 <=? f) (is_ram m) (is_high m) op (modrm_tail f m ++ code).
Proof.
  intros H1 H2 Hf Hm. rewrite with_modrm_tail, <- !app_assoc. cbn [app].
  destruct w, (8 <=? f), (is_ram m), (is_high m);
    match goal with |- context [rex ?w ?r ?x ?b] => let e := eval vm_compute in (rex w r x b) in change (rex w r x b) with e end;
    cbn [app]; try reflexivity.
  unfold decode. by rewrite (proj2 (Z.eqb_neq _ _)).
Qed.

(** The opcode as a literal, and the decoder on it. *)
Ltac opcode :=
  repeat match goal with
  | |- context [(?a =? ?b)] => let v := eval vm_compute in (a =? b) in change (a =? b) with v; cbv iota; cbn [app]
  end;
  match goal with
  | |- context [with_modrm _ [?e] _ _] => let v := eval vm_compute in e in change e with v
  | |- context [with_modrm _ [0x0f; ?e] _ _] => let v := eval vm_compute in e in change e with v
  | |- context [rex _ _ _ _ ++ ?e :: _] => let v := eval vm_compute in e in change e with v
  | _ => idtac
  end;
  try match goal with |- context [with_modrm _ _ ?f _] => let v := eval vm_compute in f in
    lazymatch v with Z0 => change f with v | Zpos _ => change f with v end end;
  first [rewrite decode_prefix by (done || apply reg_code_range)|rewrite decode_modrm by (done || apply reg_code_range)
    |rewrite decode_modrm2 by (done || apply reg_code_range)|rewrite decode_rex by done];
  unfold decode_opcode; decoding; try done.

Lemma decode_encode i rest : insn_ok i → decode (encode i ++ rest) = Some (i, rest).
Proof.
  intros Hi. destruct i; cbn [insn_ok encode] in *; rewrite <- ?app_assoc; cbn [app].
  - rewrite decode_rex by (by destruct r). destruct wide, r; unfold decode_opcode; decoding; done.
  - opcode.
  - destruct Hi as [[-> | [-> | [-> | ->]]] Hm]; opcode.
  - destruct Hi as [[-> | [-> | [-> ->]]] Hm]; [destruct sg|destruct sg|]; opcode.
  - destruct Hi. opcode.
  - destruct op; opcode.
  - destruct Hi, op; try done; opcode.
  - destruct Hi, op; try done; opcode.
  - change (decode (rex false false false false ++ 0xa8 :: v :: rest) = Some (TestAl v, rest)). opcode.
  - destruct Hi, op; try done; opcode.
  - destruct Hi as (? & ? & ?), op; try done; opcode.
  - opcode.
  - destruct op; opcode.
  - destruct op; opcode.
  - opcode.
  - opcode.
  - revert cc Hi. refine (cases16 _ _). change (seqZ 0 16) with [0;1;2;3;4;5;6;7;8;9;10;11;12;13;14;15]. foralls; opcode.
  - destruct Hi as [Hc Hr]. change (decode (rex false false false false ++ 0x0f :: (0x80 + cc) :: le_bytes 4 rel ++ rest) = Some (Jcc cc rel, rest)).
    rewrite decode_rex by done. revert cc Hc. refine (cases16 _ _).
    change (seqZ 0 16) with [0;1;2;3;4;5;6;7;8;9;10;11;12;13;14;15]. unfold decode_opcode. foralls; decoding; done.
  - change (decode (rex false false false false ++ 0xe9 :: le_bytes 4 rel ++ rest) = Some (Jmp rel, rest)). opcode.
  - reflexivity.
Qed.

(** ** Running encoded instructions *)

Lemma rex_length w r x b : (length (rex w r x b) ≤ 1)%nat.
Proof. destruct w, r, x, b; by vm_compute; lia. Qed.

Lemma with_modrm_length w op f m : (1 + length op ≤ length (with_modrm w op f m) ≤ 6 + length op)%nat.
Proof.
  rewrite with_modrm_tail, !length_app. pose proof (rex_length w (8 <=? f) (is_ram m) (is_high m)).
  destruct m as [g|d|d]; cbn [modrm_tail length app]; rewrite ?le_bytes_length; [cbn [length]; lia..|]. destruct (d =? 0); cbn [length]; lia.
Qed.

Lemma encode_length i : (1 ≤ length (encode i) ≤ 16)%nat.
Proof.
  destruct i; cbn [encode]; rewrite ?length_app;
    repeat match goal with
    | |- context [with_modrm ?w ?op ?f ?m] =>
      pose proof (with_modrm_length w op f m); generalize dependent (with_modrm w op f m); intros
    | |- context [rex ?w ?r ?x ?b] => pose proof (rex_length w r x b); generalize dependent (rex w r x b); intros
    end; cbn [length] in *; rewrite ?le_bytes_length in *; try lia.
  - destruct wide; lia.
  - destruct (n =? 2); cbn [length]; lia.
  - destruct (n =? 4); cbn [length] in *; lia.
Qed.

Lemma exec_mono n m code h res : exec n code h = Some res → (n ≤ m)%nat → exec m code h = Some res.
Proof.
  revert m code h. induction n as [|n IH]; intros m code h He Hm; [done|]. destruct m as [|m]; [lia|]. cbn [exec] in *.
  destruct (decode code) as [[i rest]|]; [|done]. cbn [mbind option_bind] in *.
  destruct i; try done;
    repeat (match goal with |- context [?o ≫= _] => destruct o eqn:?; cbn [mbind option_bind] in *; try done end);
    apply IH; done || lia.
Qed.

Definition is_jump (i : insn) : bool := match i with Jcc _ _ | Jmp _ | Ret => true | _ => false end.

Lemma run_more n code h res : run code h = Some res → (S (length code) ≤ n)%nat → exec n code h = Some res.
Proof. apply exec_mono. Qed.

Lemma run_step i rest h h' res :
  insn_ok i → step i h = Some h' → run rest h' = Some res → run (encode i ++ rest) h = Some res.
Proof.
  intros Hi Hs Hr. unfold run. cbn [exec]. rewrite decode_encode by done. cbn [mbind option_bind].
  pose proof (encode_length i). destruct i; try (by cbn in Hs); rewrite Hs; cbn [mbind option_bind];
    apply run_more; rewrite ?length_app; done || lia.
Qed.

Fixpoint steps (l : list insn) (h : host) : option host :=
  match l with [] => Some h | i :: l => h ← step i h; steps l h end.

Lemma run_steps l rest h h' res :
  Forall insn_ok l → steps l h = Some h' → run rest h' = Some res → run (enc l ++ rest) h = Some res.
Proof.
  intros Hl. revert h. induction Hl as [|i l Hi Hl IH]; intros h Hs Hr; cbn [steps] in Hs.
  - by injection Hs as ->.
  - destruct (step i h) as [h1|] eqn:E; [|done]. cbn [mbind option_bind] in Hs. unfold enc. cbn [flat_map].
    rewrite <- app_assoc. eapply run_step; [done..|]. by apply IH.
Qed.

Lemma steps_app l l' h h' : steps l h = Some h' → steps (l ++ l') h = steps l' h'.
Proof.
  revert h. induction l as [|i l IH]; intros h Hs; cbn [steps app] in *; [by injection Hs as ->|].
  destruct (step i h); [|done]. cbn [mbind option_bind] in *. by apply IH.
Qed.

(** The bytes of a list of instructions, and the jumps over them. *)
Definition bytes_of (l : list insn) : Z := Z.of_nat (length (enc l)).

Lemma enc_app l l' : enc (l ++ l') = enc l ++ enc l'.
Proof. apply flat_map_app. Qed.

Lemma bytes_of_le l : 0 ≤ bytes_of l ≤ 16 * Z.of_nat (length l).
Proof.
  unfold bytes_of. induction l as [|i l IH]; [done|]. cbn [enc flat_map]. rewrite length_app. fold (enc l).
  pose proof (encode_length i). cbn [length]. lia.
Qed.

Lemma jump_over l rest : bytes_of l < 2 ^ 31 → jump (bytes_of l) (enc l ++ rest) = Some rest.
Proof.
  intros Hl. unfold jump. rewrite (proj2 (Z.ltb_lt _ _)) by done. unfold bytes_of in *.
  rewrite (proj2 (Z.leb_le _ _)) by (rewrite length_app; lia). cbn [andb]. by rewrite Nat2Z.id, drop_app_length.
Qed.

Lemma run_jcc cc l rest h b res :
  0 ≤ cc < 16 → bytes_of l < 2 ^ 31 → condition (fl h) cc = Some b →
  run (if b then rest else enc l ++ rest) h = Some res →
  run (encode (Jcc cc (bytes_of l)) ++ enc l ++ rest) h = Some res.
Proof.
  intros Hc Hl Hb Hr. unfold run. cbn [exec].
  rewrite decode_encode by (split; [done|]; unfold fits; pose proof (bytes_of_le l); lia).
  cbn [mbind option_bind]. rewrite Hb. cbn [mbind option_bind].
  destruct b; rewrite ?jump_over by done; cbn [mbind option_bind]; apply run_more; try done; rewrite !length_app; cbn [encode length app]; lia.
Qed.

Lemma run_jmp l rest h res :
  bytes_of l < 2 ^ 31 → run rest h = Some res → run (encode (Jmp (bytes_of l)) ++ enc l ++ rest) h = Some res.
Proof.
  intros Hl Hr. unfold run. cbn [exec].
  rewrite decode_encode by (cbn; unfold fits; pose proof (bytes_of_le l); lia). cbn [mbind option_bind].
  rewrite jump_over by done. cbn [mbind option_bind]. apply run_more; [done|]. rewrite !length_app. cbn [encode length app]. lia.
Qed.

Lemma run_ret rest h v : rax h = Word v → run (encode Ret ++ rest) h = Some (v mod 2 ^ 32, h).
Proof. intros Hv. unfold run. cbn [exec]. rewrite (decode_encode Ret) by done. cbn [mbind option_bind]. by rewrite Hv. Qed.

End X86.
