(* ===== verification/Emit.v ===== *)
(** Emission of code ([runtime/jit.c], [jit.h]).

    The translator writes bytes into a buffer, reads how many it has written, and comes
    back to fill in the distance of a jump.  A piece of the translator is a program of
    these commands ([emission]); [run_on] performs it on the buffer of the code, which
    keeps counting when it is full, and [assemble] on a list that grows.  The two agree
    when the result fits ([run_assembled]), so the rest of the development reasons on
    lists. *)
From S2P Require Import Prelude.
From S2P Require Import Words.
From S2P Require Import Cpu.
From S2P Require Import X86.

Module Emit.
Import Cpu.
Import Cpu.F.
Import X86(le_bytes, le_value, offsetof, le_bytes_length).

Arguments le_bytes : simpl never.

Record vf_code := { bytes : list Z; capacity : Z; used : Z }.

(** ** Programs *)

(** [Undefined] is undefined behaviour: a read outside the guest bytes. *)
Inductive emission (A : Type) :=
  | Done (a : A)
  | Put (v : Z) (k : emission A)
  | Here (k : Z → emission A)
  | Patch (p target : Z) (k : emission A)
  | Undefined.
Arguments Done {_} _.
Arguments Put {_} _ _.
Arguments Here {_} _.
Arguments Patch {_} _ _ _.
Arguments Undefined {_}.

Fixpoint bind {A B} (f : A → emission B) (m : emission A) : emission B :=
  match m with
  | Done a => f a
  | Put v k => Put v (bind f k)
  | Here k => Here (λ p, bind f (k p))
  | Patch p t k => Patch p t (bind f k)
  | Undefined => Undefined
  end.

#[export] Instance emission_ret : MRet emission := λ A, Done.
#[export] Instance emission_bind : MBind emission := λ A B f m, bind f m.

(** [b(c, x)], [c->used], [fix_to(c, p, target)] and the value of an optional read. *)
Definition b (v : Z) : emission unit := Put v (Done tt).
Definition here : emission Z := Here Done.
Definition fix_to (p target : Z) : emission unit := Patch p target (Done tt).
Definition fetched {A} (o : option A) : emission A := match o with Some a => Done a | None => Undefined end.

(** The distance of a jump whose displacement is at [p]. *)
Definition distance (p target : Z) : Z := u32 (target - p - 4).

(** On the buffer: a byte is stored while there is room and counted in any case; a
    displacement is stored when it lies inside the capacity.  [None] is undefined
    behaviour, a store outside the array. *)
Fixpoint put_all (buf : list Z) (at_ : Z) (l : list Z) : option (list Z) :=
  match l with [] => Some buf | v :: l => buf ← arr_set buf at_ v; put_all buf (at_ + 1) l end.

Fixpoint run_on {A} (m : emission A) (c : vf_code) : option (A * vf_code) :=
  match m with
  | Done a => Some (a, c)
  | Put v k =>
    buf ← (if used c <? capacity c then arr_set (bytes c) (used c) (u8 v) else Some (bytes c));
    run_on k {| bytes := buf; capacity := capacity c; used := used c + 1 |}
  | Here k => run_on (k (used c)) c
  | Patch p t k =>
    buf ← (if p + 4 <=? capacity c then put_all (bytes c) p (le_bytes 4 (distance p t)) else Some (bytes c));
    run_on k {| bytes := buf; capacity := capacity c; used := used c |}
  | Undefined => None
  end.

(** On a list.  A displacement is patched inside what has been emitted. *)
Definition patch (l : list Z) (p v : Z) : option (list Z) :=
  if bool_decide (0 ≤ p ∧ p + 4 ≤ Z.of_nat (length l))
  then Some (take (Z.to_nat p) l ++ le_bytes 4 v ++ drop (Z.to_nat p + 4) l) else None.

Fixpoint assemble {A} (m : emission A) (l : list Z) : option (A * list Z) :=
  match m with
  | Done a => Some (a, l)
  | Put v k => assemble k (l ++ [u8 v])
  | Here k => assemble (k (Z.of_nat (length l))) l
  | Patch p t k => l ← patch l p (distance p t); assemble k l
  | Undefined => None
  end.

(** ** Pieces of code *)

Definition emit32 (v : Z) : emission unit :=
  b v;; b (Z.shiftr v 8);; b (Z.shiftr v 16);; b (Z.shiftr v 24).
Definition emit64 (v : Z) : emission unit :=
  b v;; b (Z.shiftr v 8);; b (Z.shiftr v 16);; b (Z.shiftr v 24);;
  b (Z.shiftr v 32);; b (Z.shiftr v 40);; b (Z.shiftr v 48);; b (Z.shiftr v 56).

Definition imm (v : Z) : emission unit := b 0x48;; b 0xb8;; emit64 v.

(** [if (wide) b(c, 0x48);] *)
Definition wide_prefix (wide : bool) : emission unit := if wide then b 0x48 else mret tt.

Definition load (reg : Z) (sp_ wide : bool) : emission unit :=
  if reg =? 31 then
    if negb sp_ then b 0x31;; b 0xc0
    else wide_prefix wide;; b 0x8b;; b 0x81;; emit32 (offsetof sp)
  else wide_prefix wide;; b 0x8b;; b 0x81;; emit32 (reg * 8).

Definition save (reg : Z) (sp_ : bool) : emission unit :=
  if reg =? 31 then
    if sp_ then b 0x48;; b 0x89;; b 0x81;; emit32 (offsetof sp) else mret tt
  else b 0x48;; b 0x89;; b 0x81;; emit32 (reg * 8).

Definition store_field (off v : Z) : emission unit := imm v;; b 0x48;; b 0x89;; b 0x81;; emit32 off.
Definition store_field32 (off v : Z) : emission unit := b 0xc7;; b 0x81;; emit32 off;; emit32 v.
Definition save_host_r11 (off : Z) : emission unit := b 0x4c;; b 0x89;; b 0x99;; emit32 off.

Definition save_arithmetic_flags (subtract : bool) : emission unit :=
  b 0x41;; b 0x0f;; b 0x98;; b 0xc1;;
  b 0x41;; b 0x0f;; b 0x94;; b 0xc2;;
  b 0x41;; b 0x0f;; b (if subtract then 0x93 else 0x92);; b 0xc3;;
  b 0x0f;; b 0x90;; b 0xc0;;
  b 0x45;; b 0x0f;; b 0xb6;; b 0xc9;;
  b 0x45;; b 0x0f;; b 0xb6;; b 0xd2;;
  b 0x45;; b 0x0f;; b 0xb6;; b 0xdb;;
  b 0x0f;; b 0xb6;; b 0xc0;;
  b 0x41;; b 0xc1;; b 0xe1;; b 31;;
  b 0x41;; b 0xc1;; b 0xe2;; b 30;;
  b 0x41;; b 0xc1;; b 0xe3;; b 29;;
  b 0xc1;; b 0xe0;; b 28;;
  b 0x44;; b 0x09;; b 0xc8;;
  b 0x44;; b 0x09;; b 0xd0;;
  b 0x44;; b 0x09;; b 0xd8;;
  b 0x49;; b 0xb9;; emit64 (bnot 64 0xf0000000);;
  b 0x4c;; b 0x21;; b 0x89;; emit32 (offsetof pstate);;
  b 0x48;; b 0x09;; b 0x81;; emit32 (offsetof pstate).

Definition finish (pc_ count status_ : Z) : emission unit :=
  store_field (offsetof pc) pc_;;
  b 0x48;; b 0x81;; b 0x81;; emit32 (offsetof retired);; emit32 count;;
  b 0xb8;; emit32 status_;; b 0xc3.

(** The position of the displacement, filled in by [fix_to]. *)
Definition jcc (cc : Z) : emission Z := b 0x0f;; b cc;; p ← here; emit32 0;; mret p.
Definition fix_ (p : Z) : emission unit := target ← here; fix_to p target.

Definition condition_false (condition : Z) : emission Z :=
  if 14 <=? condition then mret 0
  else
    b 0x8b;; b 0x81;; emit32 (offsetof pstate);;
    b 0xc1;; b 0xe8;; b 28;;
    let group := Z.shiftr condition 1 in
    fall_cc ← (if group <? 4 then
                 b 0x83;; b 0xe0;; b (default 0 (switch group [(0, 4); (1, 2); (2, 8); (3, 1)]));; mret 0x84
               else if group =? 4 then
                 b 0x83;; b 0xe0;; b 6;; b 0x83;; b 0xf8;; b 2;; mret 0x85
               else
                 b 0x41;; b 0x89;; b 0xc1;;
                 b 0x41;; b 0xc1;; b 0xe9;; b 3;;
                 b 0x44;; b 0x31;; b 0xc8;;
                 b 0x83;; b 0xe0;; b (if group =? 5 then 1 else 5);; mret 0x85);
    jcc (if nz (Z.land condition 1) then Z.lxor fall_cc 1 else fall_cc).

(** ** The buffer and the list *)

Lemma assemble_bind {A B} (f : A → emission B) m l :
  assemble (m ≫= f) l = '(a, l) ← assemble m l; assemble (f a) l.
Proof.
  revert l. induction m as [a|v k IH|k IH|p t k IH|]; intros l; cbn [mbind emission_bind bind assemble]; try done.
  all: try apply IH. destruct (patch l p _) as [l'|]; cbn [mbind option_bind]; [apply IH|done].
Qed.

Lemma patch_length l p v l' : patch l p v = Some l' → length l' = length l.
Proof.
  unfold patch. case_bool_decide; [|done]. intros E. apply (inj Some) in E as <-.
  rewrite !length_app, length_take, length_drop, le_bytes_length. lia.
Qed.

Lemma assemble_grows {A} (m : emission A) l a l' : assemble m l = Some (a, l') → (length l ≤ length l')%nat.
Proof.
  revert l. induction m as [a'|v k IH|k IH|p t k IH|]; intros l; cbn [assemble].
  - by intros [= _ ->].
  - intros H%IH. rewrite length_app in H. lia.
  - apply IH.
  - destruct (patch l p _) as [l1|] eqn:E; [|done]. cbn [mbind option_bind]. intros H%IH. apply patch_length in E. lia.
  - done.
Qed.

Lemma put_all_spec buf at_ l :
  0 ≤ at_ → at_ + Z.of_nat (length l) ≤ Z.of_nat (length buf) →
  put_all buf at_ l = Some (take (Z.to_nat at_) buf ++ l ++ drop (Z.to_nat at_ + length l) buf).
Proof.
  revert buf at_. induction l as [|v l IH]; intros buf at_ H0 Hl; cbn [put_all length app].
  - by rewrite Nat.add_0_r, take_drop.
  - cbn [length] in Hl. rewrite arr_set_lt by lia. cbn [mbind option_bind]. rewrite IH by (rewrite ?length_insert; lia). f_equal.
    replace (Z.to_nat (at_ + 1)) with (S (Z.to_nat at_)) by lia.
    rewrite (take_S_r _ _ v) by (apply list_lookup_insert_eq; lia). rewrite take_insert_ge by lia. rewrite <- app_assoc. cbn [app].
    rewrite drop_insert_lt by lia. do 3 f_equal. f_equal. lia.
Qed.

(** The emitted part of a buffer is the list, when it fits. *)
Definition holds (c : vf_code) (l : list Z) : Prop :=
  used c = Z.of_nat (length l) ∧ (used c ≤ capacity c → take (length l) (bytes c) = l).

Definition room (c : vf_code) : Prop := 0 ≤ capacity c ≤ Z.of_nat (length (bytes c)).

Lemma run_assembled {A} (m : emission A) c l a l' :
  room c → holds c l → assemble m l = Some (a, l') →
  ∃ c', run_on m c = Some (a, c') ∧ holds c' l' ∧ capacity c' = capacity c ∧ length (bytes c') = length (bytes c) ∧
    drop (Z.to_nat (capacity c)) (bytes c') = drop (Z.to_nat (capacity c)) (bytes c).
Proof.
  revert c l. induction m as [a'|v k IH|k IH|p t k IH|]; intros c l Hr Hh; cbn [assemble run_on]; [..|done].
  - intros [= -> ->]. by exists c.
  - intros Ha. destruct Hh as [Hu Ht]. unfold room in Hr.
    destruct (Z.ltb_spec (used c) (capacity c)) as [Hlt|Hge].
    + rewrite arr_set_lt by lia. cbn [mbind option_bind].
      destruct (IH {| bytes := <[Z.to_nat (used c):=u8 v]> (bytes c); capacity := capacity c; used := used c + 1 |} (l ++ [u8 v]))
        as (c' & Hc & Hh' & Hcap & Hlen & Hdrop); [|split; cbn|exact Ha|].
      * unfold room. cbn. by rewrite length_insert.
      * rewrite length_app. cbn. lia.
      * intros _. rewrite length_app. cbn [length]. rewrite Nat.add_1_r, (take_S_r _ _ (u8 v)).
        { rewrite take_insert_ge by lia. by rewrite Ht by lia. }
        replace (length l) with (Z.to_nat (used c)) by lia. apply list_lookup_insert_eq. lia.
      * cbn in *. exists c'. rewrite length_insert in Hlen. split_and!; try done. rewrite Hdrop. by rewrite drop_insert_lt by lia.
    + cbn [mbind option_bind].
      destruct (IH {| bytes := bytes c; capacity := capacity c; used := used c + 1 |} (l ++ [u8 v]))
        as (c' & Hc & Hh' & Hcap & Hlen & Hdrop); [done| |exact Ha|by exists c'].
      split; cbn; [rewrite length_app; cbn; lia|lia].
  - destruct Hh as [Hu Ht]. rewrite Hu. apply IH; [done|by split].
  - destruct (patch l p (distance p t)) as [l1|] eqn:E; [|done]. cbn [mbind option_bind]. intros Ha.
    pose proof (patch_length _ _ _ _ E) as Hl1. unfold patch in E. case_bool_decide as Hp; [|done]. apply (inj Some) in E.
    destruct Hh as [Hu Ht]. unfold room in Hr. destruct (Z.leb_spec (p + 4) (capacity c)) as [Hle|Hgt].
    + rewrite put_all_spec by (rewrite ?le_bytes_length; lia). cbn [mbind option_bind].
      set (buf := take _ (bytes c) ++ _). assert (length buf = length (bytes c)) as Hbuf.
      { unfold buf. rewrite !length_app, length_take, length_drop, le_bytes_length. lia. }
      destruct (IH {| bytes := buf; capacity := capacity c; used := used c |} l1) as (c' & Hc & Hh' & Hcap & Hlen & Hdrop);
        [by unfold room; cbn; rewrite Hbuf|split; cbn; [lia|]|exact Ha|].
      * intros Hfit. specialize (Ht Hfit). rewrite Hl1, <- E. unfold buf. rewrite le_bytes_length.
        rewrite <- (take_drop (length l) (bytes c)), Ht, (take_app_le _ _ (Z.to_nat p)), drop_app_le by lia. rewrite !app_assoc.
        apply take_app_length'. rewrite !length_app, length_take, length_drop, le_bytes_length. lia.
      * cbn in *. exists c'. split_and!; try done; [lia|]. rewrite Hdrop. unfold buf. rewrite le_bytes_length.
        rewrite app_assoc, drop_app_ge, drop_drop by (rewrite length_app, length_take, le_bytes_length; lia).
        f_equal. rewrite length_app, length_take, le_bytes_length. lia.
    + cbn [mbind option_bind]. destruct (IH {| bytes := bytes c; capacity := capacity c; used := used c |} l1)
        as (c' & Hc & Hh' & Hcap & Hlen & Hdrop); [done|split; cbn; lia|exact Ha|by exists c'].
Qed.

End Emit.
