(* ===== verification/Translate.v ===== *)
(** The translator ([runtime/jit.c], [translate_impl]).

    Each guest instruction becomes a piece of host code.  One definition per class of
    instructions, in the order of the source; the result of each is whether the block
    ends there ([break]).  The default configuration is modelled, without
    [NEXTCORE_FP_EXECUTION]. *)
From S2P Require Import Prelude.
From S2P Require Import Words.
From S2P Require Import Cpu.
From S2P Require Import Insn.
From S2P Require Import X86.
From S2P Require Import Emit.

Module Translate.
Import Cpu.
Import Cpu.F.
Import Insn.
Import X86(offsetof).
Import Emit.

Definition VF_MEMORY_DISPATCH := 0x7ffffffe.

(** [(w >> n) & m] *)
Definition bits (w n m : Z) : Z := Z.land (Z.shiftr w n) m.
Definition flag (w n : Z) : bool := nz (bits w n 1).

(** [b(c, wide ? 0x4c : 0x44)] *)
Definition width_prefix (wide : bool) : emission unit := b (if wide then 0x4c else 0x44).

(** [field32(c, offsetof(vf_cpu, instruction), w); finish(c, pc, n, status); break;] *)
Definition stop (w pc_ n st : Z) : emission bool :=
  store_field32 (offsetof instruction) w;; finish pc_ n st;; mret true.

Definition thread_offset (key : Z) : Z :=
  default 0 (switch key [
    (VF_SYSREG_KEY_TPIDR_EL0, offsetof tpidr_el0); (VF_SYSREG_KEY_TPIDRRO_EL0, offsetof tpidrro_el0);
    (VF_SYSREG_KEY_TPIDR_EL1, offsetof tpidr_el1)]).

(** ** Data processing *)

(** A shift by an immediate: [c1 /n]. *)
Definition shift_byte (shift : Z) : Z :=
  if shift =? 0 then 0xe0 else if shift =? 1 then 0xe8 else if shift =? 2 then 0xf8 else 0xc8.
Definition shift_imm (wide : bool) (kind amount : Z) : emission unit :=
  wide_prefix wide;; b 0xc1;; b kind;; b amount.

(** CSEL, CSINC, CSINV, CSNEG *)
Definition emit_select (w : Z) (wide : bool) (rd rn : Z) : emission bool :=
  other ← condition_false (bits w 12 15);
  load rn false wide;;
  (if nz other then
     b 0xe9;; done ← here; emit32 0;; fix_ other;;
     load (bits w 16 31) false wide;;
     (if flag w 30 then wide_prefix wide;; b 0xf7;; b 0xd0 else mret tt);;
     (if flag w 10 then wide_prefix wide;; b 0x83;; b 0xc0;; b 1 else mret tt);;
     fix_ done
   else mret tt);;
  save rd false;;
  mret false.

(** LSLV, LSRV, ASRV, RORV *)
Definition emit_variable_shift (w : Z) (wide : bool) (rd rn : Z) : emission bool :=
  let shift := bits w 10 3 in
  load (bits w 16 31) false wide;; b 0x49;; b 0x89;; b 0xc1;;
  load rn false wide;;
  b 0x49;; b 0x89;; b 0xca;;
  b 0x44;; b 0x89;; b 0xc9;;
  wide_prefix wide;; b 0xd3;; b (shift_byte shift);;
  b 0x4c;; b 0x89;; b 0xd1;;
  save rd false;;
  mret false.

(** MADD, MSUB *)
Definition emit_multiply (w : Z) (wide : bool) (rd rn : Z) : emission bool :=
  load (bits w 16 31) false wide;; b 0x49;; b 0x89;; b 0xc1;;
  load rn false wide;;
  b (if wide then 0x49 else 0x41);; b 0x0f;; b 0xaf;; b 0xc1;;
  b 0x49;; b 0x89;; b 0xc1;;
  load (bits w 10 31) false wide;;
  width_prefix wide;; b (if nz (Z.land w (Z.shiftl 1 15)) then 0x29 else 0x01);; b 0xc8;;
  save rd false;;
  mret false.

(** CCMP, CCMN *)
Definition emit_conditional_compare (w : Z) (wide : bool) (rn : Z) : emission bool :=
  fallback ← condition_false (bits w 12 15);
  (if nz (Z.land w (Z.shiftl 1 11)) then imm (bits w 16 31) else load (bits w 16 31) false wide);;
  b 0x49;; b 0x89;; b 0xc1;;
  load rn false wide;; width_prefix wide;; b (if flag w 30 then 0x29 else 0x01);; b 0xc8;;
  save_arithmetic_flags (flag w 30);;
  (if nz fallback then
     b 0xe9;; done ← here; emit32 0;; fix_ fallback;;
     imm (shl 64 (Z.land w 15) 28);;
     b 0x49;; b 0xb9;; emit64 (bnot 64 0xf0000000);;
     b 0x4c;; b 0x21;; b 0x89;; emit32 (offsetof pstate);;
     b 0x48;; b 0x09;; b 0x81;; emit32 (offsetof pstate);; fix_ done
   else mret tt);;
  mret false.

(** [bits == 64 ? UINT64_MAX : (UINT64_C(1) << bits) - 1] *)
Definition low_mask (n : Z) : Z := if n =? 64 then UINT64_MAX else u64 (shl 64 1 n - 1).

(** BFM *)
Definition emit_bitfield_insert (w : Z) (wide : bool) (rd rn pc_ n : Z) : emission bool :=
  let r := bits w 16 63 in
  let s := bits w 10 63 in
  let width := if wide then 64 else 32 in
  if negb (bits w 22 1 =? b2z wide) || (negb wide && nz (Z.land (Z.lor r s) 32)) then stop w pc_ n VF_UNDEFINED_INSTRUCTION
  else
    let count := if r <=? s then s - r + 1 else s + 1 in
    let position := if r <=? s then 0 else width - r in
    let low := low_mask count in
    let selected := shl 64 low position in
    load rn false wide;;
    (if (r <=? s) && nz r then shift_imm wide 0xe8 r else mret tt);;
    b 0x49;; b 0xb9;; emit64 low;; width_prefix wide;; b 0x21;; b 0xc8;;
    (if nz position then shift_imm wide 0xe0 position else mret tt);;
    b 0x49;; b 0x89;; b 0xc2;;
    load rd false wide;; b 0x49;; b 0xb9;; emit64 (bnot 64 selected);;
    width_prefix wide;; b 0x21;; b 0xc8;;
    width_prefix wide;; b 0x09;; b 0xd0;;
    save rd false;;
    mret false.

(** UBFM *)
Definition emit_bitfield_extract (w : Z) (wide : bool) (rd rn pc_ n : Z) : emission bool :=
  let rotate := bits w 16 63 in
  let end_ := bits w 10 63 in
  let width := if wide then 64 else 32 in
  if negb (bits w 22 1 =? b2z wide) || (negb wide && nz (Z.land (Z.lor rotate end_) 32))
  then stop w pc_ n VF_UNDEFINED_INSTRUCTION
  else
    let count := if rotate <=? end_ then end_ - rotate + 1 else end_ + 1 in
    let mask := low_mask count in
    load rn false wide;;
    (if (rotate <=? end_) && nz rotate then shift_imm wide 0xe8 rotate else mret tt);;
    b 0x49;; b 0xb9;; emit64 mask;;
    width_prefix wide;; b 0x21;; b 0xc8;;
    (if end_ <? rotate then shift_imm wide 0xe0 (width - rotate) else mret tt);;
    save rd false;;
    mret false.

(** AND, ORR, EOR, ANDS: [op==1 ? 0x09 : op==2 ? 0x31 : 0x21] *)
Definition logical_byte (op : Z) : Z := if op =? 1 then 0x09 else if op =? 2 then 0x31 else 0x21.

Definition emit_logical_immediate (w : Z) (wide : bool) (rd rn pc_ n : Z) : emission bool :=
  let op := bits w 29 3 in
  match logical_mask w with
  | None => stop w pc_ n VF_UNDEFINED_INSTRUCTION
  | Some mask =>
    load rn false wide;; b 0x49;; b 0xb9;; emit64 mask;;
    width_prefix wide;; b (logical_byte op);; b 0xc8;;
    save rd (negb (op =? 3));;
    (if op =? 3 then save_arithmetic_flags false else mret tt);;
    mret false
  end.

(** The identification registers of the scalar profile. *)
Definition identification (w : Z) : bool :=
  let r := Z.land w (bnot 32 31) in
  existsb (Z.eqb r) [0xd5380400; 0xd5380420; 0xd5380440; 0xd5380480; 0xd5380600; 0xd5380640; 0xd5380660; 0xd5380700;
                     0xd5380720; 0xd5380740].

Definition VF_PFR0_SCALAR_PROFILE := 0x00ff0011.

Definition emit_identification (w rd pc_ n : Z) : emission bool :=
  let r := Z.land w (bnot 32 31) in
  b 0x83;; b 0xb9;; emit32 (offsetof current_el);; b VF_EL1;;
  bad_el ← jcc 0x85;
  b 0x48;; b 0x8b;; b 0x81;; emit32 (offsetof hcr_el2);;
  b 0x48;; b 0x0b;; b 0x81;; emit32 (offsetof scr_el3);;
  allowed ← jcc 0x84;
  fix_ bad_el;;
  store_field32 (offsetof instruction) w;;
  finish pc_ n VF_SYSTEM_REGISTER_TRAP;;
  fix_ allowed;;
  imm (if r =? 0xd5380700 then 0x0f100005 else if r =? 0xd5380400 then VF_PFR0_SCALAR_PROFILE else 0);; save rd false;;
  mret false.

(** The thread registers. *)
Definition emit_thread (w rd current_el_ thread pc_ n : Z) : emission bool :=
  let read := nz (Z.land w 0x00200000) in
  if (current_el_ =? VF_EL0) && ((sysreg_key w =? VF_SYSREG_KEY_TPIDR_EL1)
       || (negb read && (sysreg_key w =? VF_SYSREG_KEY_TPIDRRO_EL0))) then stop w pc_ n VF_UNDEFINED_INSTRUCTION
  else
    (if read then b 0x48;; b 0x8b;; b 0x81;; emit32 thread;; save rd false
     else load rd false true;; b 0x48;; b 0x89;; b 0x81;; emit32 thread);;
    mret false.

(** MOVZ, MOVN, MOVK *)
Definition emit_move_wide (w : Z) (wide : bool) (rd pc_ n : Z) : emission bool :=
  let shift := bits w 21 3 * 16 in
  let v := shl 64 (bits w 5 65535) shift in
  if negb wide && (32 <=? shift) then stop w pc_ n VF_UNDEFINED_INSTRUCTION
  else
    (if Z.land w 0x7f800000 =? 0x72800000 then
       load rd false wide;; b 0x49;; b 0xb9;; emit64 (bnot 64 (shl 64 65535 shift));;
       b 0x4c;; b 0x21;; b 0xc8;; b 0x49;; b 0xb9;; emit64 v;;
       b 0x4c;; b 0x09;; b 0xc8
     else
       imm (if Z.land w 0x7f800000 =? 0x12800000 then if wide then bnot 64 v else u32 (bnot 64 v) else v));;
    save rd false;;
    mret false.

(** ADR, ADRP *)
Definition emit_address (w rd pc_ : Z) : emission bool :=
  let displacement := sext (Z.lor (shl 32 (bits w 5 0x7ffff) 2) (bits w 29 3)) 21 in
  let target := if nz (Z.shiftr w 31) then u64 (Z.land pc_ (bnot 64 0xfff) + u64 (displacement * 4096))
                else u64 (pc_ + u64 displacement) in
  imm target;; save rd false;; mret false.

(** Logical, shifted register *)
Definition emit_logical_shifted (w : Z) (wide : bool) (rd rn pc_ n : Z) : emission bool :=
  let op := bits w 29 3 in
  let rm := bits w 16 31 in
  let shift := bits w 22 3 in
  let amount := bits w 10 63 in
  let invert := flag w 21 in
  if negb wide && (32 <=? amount) then stop w pc_ n VF_UNDEFINED_INSTRUCTION
  else
    load rm false wide;;
    (if nz amount then shift_imm wide (shift_byte shift) amount else mret tt);;
    (if invert then wide_prefix wide;; b 0xf7;; b 0xd0 else mret tt);;
    (if negb ((op =? 1) && (rn =? 31) && (shift =? 0) && (amount =? 0)) then
       b 0x49;; b 0x89;; b 0xc1;;
       load rn false wide;;
       width_prefix wide;; b (logical_byte op);; b 0xc8
     else mret tt);;
    save rd false;;
    (if op =? 3 then save_arithmetic_flags false else mret tt);;
    mret false.

(** ADD, SUB, ADDS, SUBS, immediate *)
Definition emit_add_immediate (w : Z) (wide : bool) (rd rn : Z) : emission bool :=
  let v := shl 32 (bits w 10 4095) (if flag w 22 then 12 else 0) in
  let subtract := flag w 30 in
  let flags := flag w 29 in
  load rn true wide;; wide_prefix wide;; b (0x05 + b2z subtract * 0x28);; emit32 v;;
  save rd (negb flags);;
  (if flags then save_arithmetic_flags subtract else mret tt);;
  mret false.

(** ADD, SUB, ADDS, SUBS, extended register *)
Definition emit_add_extended (w : Z) (wide : bool) (rd rn pc_ n : Z) : emission bool :=
  let rm := bits w 16 31 in
  let option := bits w 13 7 in
  let amount := bits w 10 7 in
  let subtract := flag w 30 in
  let flags := flag w 29 in
  if 4 <? amount then stop w pc_ n VF_UNDEFINED_INSTRUCTION
  else
    let width := if wide then 64 else 32 in
    let count := shl 32 8 (Z.land option 3) in
    let count := if width <? count then width else count in
    load rm false wide;;
    (if count <? width then
       shift_imm wide 0xe0 (width - count);;
       shift_imm wide (if nz (Z.land option 4) then 0xf8 else 0xe8) (width - count)
     else mret tt);;
    (if nz amount then shift_imm wide 0xe0 amount else mret tt);;
    b 0x49;; b 0x89;; b 0xc1;;
    load rn true wide;; width_prefix wide;; b (if subtract then 0x29 else 0x01);; b 0xc8;;
    save rd (negb flags);;
    (if flags then save_arithmetic_flags subtract else mret tt);;
    mret false.

(** ADD, SUB, ADDS, SUBS, shifted register *)
Definition emit_add_shifted (w : Z) (wide : bool) (rd rn pc_ n : Z) : emission bool :=
  let rm := bits w 16 31 in
  let shift := bits w 22 3 in
  let amount := bits w 10 63 in
  if (shift =? 3) || (negb wide && (32 <=? amount)) then stop w pc_ n VF_UNDEFINED_INSTRUCTION
  else
    load rm false wide;;
    (if nz amount then shift_imm wide (if shift =? 0 then 0xe0 else if shift =? 1 then 0xe8 else 0xf8) amount else mret tt);;
    b 0x49;; b 0x89;; b 0xc1;;
    load rn false wide;; width_prefix wide;; b (if flag w 30 then 0x29 else 0x01);; b 0xc8;; save rd false;;
    (if flag w 29 then save_arithmetic_flags (flag w 30) else mret tt);;
    mret false.

(** ** Loads and stores *)

(** The regime the native code supports. *)
Definition unsupported_regime (cpu : ptr vf_cpu) : bool :=
  let current_el_ := match cpu with Some c => c current_el | None => VF_EL0 end in
  let sctlr_ := match cpu with Some c => c sctlr | None => 0 end in
  (VF_EL1 <? current_el_) || match cpu with Some c => nz (c hcr_el2) || nz (c scr_el3) | None => false end
  || nz (Z.land sctlr_ (Z.shiftl 1 (if current_el_ =? VF_EL0 then 24 else 25))).

(** [rn==31 && (sctlr&(current_el==VF_EL0?16u:8u))] *)
Definition checks_stack (cpu : ptr vf_cpu) (rn : Z) : bool :=
  let current_el_ := match cpu with Some c => c current_el | None => VF_EL0 end in
  let sctlr_ := match cpu with Some c => c sctlr | None => 0 end in
  (rn =? 31) && nz (Z.land sctlr_ (if current_el_ =? VF_EL0 then 16 else 8)).

(** The faults at the end of a load or store, and the jumps to them. *)
Definition fault_block (pc_ n st : Z) : emission unit := save_host_r11 (offsetof far);; finish pc_ n st.

Definition guest_base (cpu : ptr vf_cpu) : Z := match cpu with Some c => c guest_ram_base | None => 0 end.

(** One element of a pair. *)
Definition emit_element (s : memory_shape) (element : Z) : emission unit :=
  let reg := if nz element then rt2 s else rt s in
  let bytes := width s in
  (if negb (read s) then load reg false (bytes =? 8) else mret tt);;
  b (if bytes =? 8 then 0x4a else 0x42);; b (if read s then 0x8b else 0x89);;
  b (if nz element then 0x44 else 0x04);; b 0x0a;; (if nz element then b bytes else mret tt);;
  (if read s then save reg false else mret tt).

Definition emit_writeback (s : memory_shape) : emission unit :=
  if negb (mode s =? 2) then
    b 0x4c;; b 0x89;; b 0xd8;;
    (if mode s =? 1 then b 0x48;; b 0x05;; emit32 (u32 (displacement s)) else mret tt);;
    save (rn s) true
  else mret tt.

(** LDP, STP, LDPSW excluded *)
Definition emit_pair (cpu : ptr vf_cpu) (w pc_ n : Z) : emission bool :=
  store_field32 (offsetof instruction) w;;
  match decode_memory w with
  | None => finish pc_ n VF_UNDEFINED_INSTRUCTION;; mret true
  | Some s =>
    if unsupported_regime cpu then finish pc_ n VF_SYSTEM_REGISTER_TRAP;; mret true
    else
      let bytes := width s in
      sp_align ← (if checks_stack cpu (rn s) then
                    load 31 true true;; b 0x49;; b 0x89;; b 0xc3;;
                    b 0xa8;; b 15;; jcc 0x85
                  else mret 0);
      load (rn s) true true;;
      (if negb (mode s =? 1) then b 0x48;; b 0x05;; emit32 (u32 (displacement s)) else mret tt);;
      b 0x49;; b 0x89;; b 0xc3;;
      b 0x49;; b 0x89;; b 0xc1;;
      b 0xa8;; b (bytes - 1);; align ← jcc 0x85;
      imm (guest_base cpu);; b 0x49;; b 0x29;; b 0xc1;;
      below ← jcc 0x82;
      b 0x49;; b 0x83;; b 0xf8;; b bytes;;
      short_first ← jcc 0x82;
      b 0x4d;; b 0x89;; b 0xc2;;
      b 0x49;; b 0x83;; b 0xea;; b bytes;;
      b 0x4d;; b 0x39;; b 0xd1;;
      first ← jcc 0x87;
      b 0x49;; b 0x83;; b 0xc3;; b bytes;;
      wrapped ← jcc 0x82;
      b 0x49;; b 0x83;; b 0xf8;; b (2 * bytes);;
      short_second ← jcc 0x82;
      b 0x49;; b 0x83;; b 0xea;; b bytes;;
      b 0x4d;; b 0x39;; b 0xd1;;
      second ← jcc 0x87;
      b 0x49;; b 0x83;; b 0xeb;; b bytes;;
      emit_element s 0;; emit_element s 1;;
      emit_writeback s;;
      b 0xe9;; next ← here; emit32 0;;
      sp_target ← here;
      (if nz sp_align then fault_block pc_ n VF_SP_ALIGNMENT_FAULT else mret tt);;
      align_target ← here;
      (if nz align then fault_block pc_ n VF_ALIGNMENT_FAULT else mret tt);;
      data_target ← here;
      fault_block pc_ n VF_DATA_ABORT;;
      (if nz sp_align then fix_to sp_align sp_target else mret tt);;
      (if nz align then fix_to align align_target else mret tt);;
      fix_to below data_target;; fix_to short_first data_target;;
      fix_to first data_target;; fix_to wrapped data_target;;
      fix_to short_second data_target;; fix_to second data_target;;
      fix_ next;;
      mret false
  end.

(** The access itself, at RDX + R9. *)
Definition emit_access (s : memory_shape) : emission unit :=
  let bytes := width s in
  if read s then
    b (if result64 s then 0x4a else 0x42);;
    (if bytes <? 4 then b 0x0f;; b ((if signed_load s then 0xbe else 0xb6) + b2z (bytes =? 2))
     else b (if signed_load s then 0x63 else 0x8b));;
    b 0x04;; b 0x0a;; save (rt s) false
  else
    load (rt s) false (bytes =? 8);;
    (if bytes =? 2 then b 0x66 else mret tt);;
    b (if bytes =? 8 then 0x4a else 0x42);; b (if bytes =? 1 then 0x88 else 0x89);; b 0x04;; b 0x0a.

(** LDR, STR and their byte, halfword and signed forms *)
Definition emit_scalar (cpu : ptr vf_cpu) (w pc_ n : Z) : emission bool :=
  store_field32 (offsetof instruction) w;;
  match decode_memory w with
  | None => finish pc_ n VF_UNDEFINED_INSTRUCTION;; mret true
  | Some s =>
    if unsupported_regime cpu then finish pc_ n VF_SYSTEM_REGISTER_TRAP;; mret true
    else
      let bytes := width s in
      load (rn s) true true;;
      sp_align ← (if checks_stack cpu (rn s) then
                    b 0x49;; b 0x89;; b 0xc3;;
                    b 0xa8;; b 15;; jcc 0x85
                  else mret 0);
      (if register_offset s then
         b 0x49;; b 0x89;; b 0xc3;;
         load (rm s) false (nz (Z.land (option_ s) 1));;
         (if option_ s =? 6 then b 0x48;; b 0x63;; b 0xc0 else mret tt);;
         (if nz (shift s) then b 0x48;; b 0xc1;; b 0xe0;; b (shift s) else mret tt);;
         b 0x4c;; b 0x01;; b 0xd8
       else if negb (mode s =? 1) then b 0x48;; b 0x05;; emit32 (u32 (displacement s)) else mret tt);;
      b 0x49;; b 0x89;; b 0xc3;;
      b 0x49;; b 0x89;; b 0xc1;;
      align ← (if 1 <? bytes then b 0xa8;; b (bytes - 1);; jcc 0x85 else mret 0);
      imm (guest_base cpu);; b 0x49;; b 0x29;; b 0xc1;;
      below ← jcc 0x82;
      b 0x49;; b 0x83;; b 0xf8;; b bytes;;
      short_ram ← jcc 0x82;
      b 0x4d;; b 0x89;; b 0xc2;; b 0x49;; b 0x83;; b 0xea;; b bytes;;
      b 0x4d;; b 0x39;; b 0xd1;; bound ← jcc 0x87;
      emit_access s;;
      emit_writeback s;;
      b 0xe9;; next ← here; emit32 0;;
      sp_target ← here;
      (if nz sp_align then fault_block pc_ n VF_SP_ALIGNMENT_FAULT else mret tt);;
      alignment_target ← here;
      (if nz align then fault_block pc_ n VF_ALIGNMENT_FAULT else mret tt);;
      data_target ← here;
      fault_block pc_ n VF_DATA_ABORT;;
      (if nz sp_align then fix_to sp_align sp_target else mret tt);;
      (if nz align then fix_to align alignment_target else mret tt);;
      fix_to below data_target;;
      fix_to short_ram data_target;;
      fix_to bound data_target;;
      fix_ next;;
      mret false
  end.

(** ** Branches *)

(** [pc + (uint64_t)(sext(x, bits) * 4)] *)
Definition branch_target (pc_ v n : Z) : Z := u64 (pc_ + u64 (sext v n * 4)).

Definition emit_conditional_branch (w pc_ n : Z) : emission bool :=
  let condition := Z.land w 15 in
  let target := branch_target pc_ (bits w 5 0x7ffff) 19 in
  if 14 <=? condition then finish target (n + 1) VF_NEXT;; mret true
  else
    fall ← condition_false condition;
    finish target (n + 1) VF_NEXT;;
    fix_ fall;; finish (u64 (pc_ + 4)) (n + 1) VF_NEXT;; mret true.

(** TBZ, TBNZ *)
Definition emit_test_branch (w rd pc_ n : Z) : emission bool :=
  let bit := Z.lor (bits w 26 32) (bits w 19 31) in
  load rd false (32 <=? bit);;
  wide_prefix (32 <=? bit);; b 0x0f;; b 0xba;; b 0xe0;; b bit;;
  fall ← jcc (if nz (Z.land w (Z.shiftl 1 24)) then 0x83 else 0x82);
  finish (branch_target pc_ (bits w 5 0x3fff) 14) (n + 1) VF_NEXT;;
  fix_ fall;; finish (u64 (pc_ + 4)) (n + 1) VF_NEXT;; mret true.

(** CBZ, CBNZ *)
Definition emit_compare_branch (w : Z) (wide : bool) (rd pc_ n : Z) : emission bool :=
  load rd false wide;; b 0x48;; b 0x85;; b 0xc0;;
  fall ← jcc (if nz (Z.land w 0x1000000) then 0x84 else 0x85);
  finish (branch_target pc_ (bits w 5 0x7ffff) 19) (n + 1) VF_NEXT;;
  fix_ fall;; finish (u64 (pc_ + 4)) (n + 1) VF_NEXT;; mret true.

(** B, BL *)
Definition emit_branch (w pc_ n : Z) : emission bool :=
  (if nz (Z.shiftr w 31) then store_field (offsetof (x 0) + 30 * 8) (u64 (pc_ + 4)) else mret tt);;
  finish (branch_target pc_ (Z.land w 0x3ffffff) 26) (n + 1) VF_NEXT;; mret true.

(** BR, BLR, RET *)
Definition emit_branch_register (w rn pc_ n : Z) : emission bool :=
  if rn =? 31 then stop w pc_ n VF_UNDEFINED_INSTRUCTION
  else
    load rn false true;; b 0x49;; b 0x89;; b 0xc1;;
    (if Z.land w 0xfffffc1f =? 0xd63f0000 then store_field (offsetof (x 0) + 30 * 8) (u64 (pc_ + 4)) else mret tt);;
    b 0x4c;; b 0x89;; b 0x89;; emit32 (offsetof pc);;
    b 0x48;; b 0x81;; b 0x81;; emit32 (offsetof retired);; emit32 (n + 1);;
    b 0xb8;; emit32 VF_NEXT;; b 0xc3;; mret true.

(** ** One instruction *)

Definition word (guest : list Z) (off : Z) : option Z :=
  b0 ← arr_get guest off; b1 ← arr_get guest (off + 1); b2 ← arr_get guest (off + 2); b3 ← arr_get guest (off + 3);
  Some (Z.lor (Z.lor (Z.lor b0 (Z.shiftl b1 8)) (Z.shiftl b2 16)) (shl 32 b3 24)).

Definition translate_insn (cpu : ptr vf_cpu) (w pc_ n : Z) (provider : bool) : emission bool :=
  let current_el_ := match cpu with Some c => c current_el | None => VF_EL0 end in
  let rd := Z.land w 31 in
  let rn := bits w 5 31 in
  let wide := nz (Z.shiftr w 31) in
  let thread := if is_mrs_msr w then thread_offset (sysreg_key w) else 0 in
  if is_mrs_msr w && (sysreg_key w =? VF_SYSREG_KEY_CPACR_EL1) && (current_el_ =? VF_EL0)
  then stop w pc_ n VF_UNDEFINED_INSTRUCTION
  else if is_mrs_msr w && ((sysreg_key w =? VF_SYSREG_KEY_FPCR) || (sysreg_key w =? VF_SYSREG_KEY_FPSR))
  then stop w pc_ n VF_UNDEFINED_INSTRUCTION
  else if provider && memory_family w then stop w pc_ n VF_MEMORY_DISPATCH
  else if Z.land w 0x3fe00800 =? 0x1a800000 then emit_select w wide rd rn
  else if Z.land w 0x7fe0f000 =? 0x1ac02000 then emit_variable_shift w wide rd rn
  else if Z.land w 0x7fe00000 =? 0x1b000000 then emit_multiply w wide rd rn
  else if Z.land w 0x3fe00410 =? 0x3a400000 then emit_conditional_compare w wide rn
  else if Z.land w 0x7f800000 =? 0x33000000 then emit_bitfield_insert w wide rd rn pc_ n
  else if Z.land w 0x7f800000 =? 0x53000000 then emit_bitfield_extract w wide rd rn pc_ n
  else if Z.land w 0x1f800000 =? 0x12000000 then emit_logical_immediate w wide rd rn pc_ n
  else if identification w then emit_identification w rd pc_ n
  else if nz thread then emit_thread w rd current_el_ thread pc_ n
  else if (Z.land w 0x7f800000 =? 0x52800000) || (Z.land w 0x7f800000 =? 0x72800000) || (Z.land w 0x7f800000 =? 0x12800000)
  then emit_move_wide w wide rd pc_ n
  else if Z.land w 0x1f000000 =? 0x10000000 then emit_address w rd pc_
  else if Z.land w 0x1f000000 =? 0x0a000000 then emit_logical_shifted w wide rd rn pc_ n
  else if Z.land w 0x1f800000 =? 0x11000000 then emit_add_immediate w wide rd rn
  else if Z.land w 0x1fe00000 =? 0x0b200000 then emit_add_extended w wide rd rn pc_ n
  else if Z.land w 0x1f200000 =? 0x0b000000 then emit_add_shifted w wide rd rn pc_ n
  else if Z.land w 0x3a000000 =? 0x28000000 then emit_pair cpu w pc_ n
  else if (Z.land w 0x3b000000 =? 0x39000000) || register_offset_family w || unscaled_offset_family w
          || scalar_writeback_family w then emit_scalar cpu w pc_ n
  else if Z.land w 0xff000010 =? 0x54000000 then emit_conditional_branch w pc_ n
  else if Z.land w 0x7e000000 =? 0x36000000 then emit_test_branch w rd pc_ n
  else if Z.land w 0x7e000000 =? 0x34000000 then emit_compare_branch w wide rd pc_ n
  else if Z.land w 0x7c000000 =? 0x14000000 then emit_branch w pc_ n
  else if (Z.land w 0xfffffc1f =? 0xd61f0000) || (Z.land w 0xfffffc1f =? 0xd63f0000) || (Z.land w 0xfffffc1f =? 0xd65f0000)
  then emit_branch_register w rn pc_ n
  else if w =? 0xd503201f then mret false
  else if w =? 0xd4400000 then finish (u64 (pc_ + 4)) (n + 1) VF_HALT;; mret true
  else
    let boundary := if known_privileged w current_el_ then VF_PRIVILEGE_FAULT else system_boundary w current_el_ in
    if nz boundary then stop w pc_ n boundary
    else stop w pc_ n VF_UNDEFINED_INSTRUCTION.

(** ** Blocks *)

(** [for (n = 0; n < limit; n++, pc += 4)], from round [n] with [rounds] to go. *)
Fixpoint translate_loop (rounds : nat) (cpu : ptr vf_cpu) (guest : list Z) (size pc_ n limit : Z) (provider : bool) :
    emission unit :=
  match rounds with
  | O => mret tt
  | S rounds =>
    let base := guest_base cpu in
    if negb provider && (nz (Z.land pc_ 3) || (size <? 4) || (pc_ <? base) || (u64 (size - 4) <? pc_ - base)
                         || (UINT64_MAX - 3 <? pc_))
    then finish pc_ n VF_INSTRUCTION_ABORT
    else
      w ← fetched (word guest (if provider then 0 else pc_ - base));
      break ← translate_insn cpu w pc_ n provider;
      if break : bool then mret tt
      else
        (if n + 1 =? limit then finish (u64 (pc_ + 4)) (n + 1) VF_NEXT else mret tt);;
        translate_loop rounds cpu guest size (u64 (pc_ + 4)) (n + 1) limit provider
  end.

(** Empties the buffer first; the status says whether the code fits. *)
Definition translate_impl (c : vf_code) (cpu : ptr vf_cpu) (guest : list Z) (size pc_ limit : Z) (provider : bool) :
    option (Z * vf_code) :=
  '(_, c) ← run_on (translate_loop (Z.to_nat limit) cpu guest size pc_ 0 limit provider)
              {| bytes := bytes c; capacity := capacity c; used := 0 |};
  Some (if capacity c <? used c then VF_CODE_FULL else VF_NEXT, c).

Definition vf_translate (c : vf_code) (guest : list Z) (size pc_ limit : Z) : option (Z * vf_code) :=
  translate_impl c None guest size pc_ limit false.

Definition vf_translate_cpu (c : vf_code) (cpu : ptr vf_cpu) (guest : list Z) (size pc_ limit : Z) :
    option (Z * vf_code * ptr vf_cpu) :=
  match cpu with
  | None => Some (VF_PRIVILEGE_FAULT, c, cpu)
  | Some s =>
    if negb (vf_cpu_state_valid (Some s)) then Some (VF_PRIVILEGE_FAULT, c, cpu)
    else if nz (Z.land (s sctlr) 1) then Some (VF_SYSTEM_REGISTER_TRAP, c, Some (s.[instruction := 0]))
    else '(st, c) ← translate_impl c cpu guest size pc_ limit false; Some (st, c, cpu)
  end.

End Translate.
