(* ===== verification/A64.v ===== *)
(** A reference semantics of the guest instructions.

    What each A64 instruction of the subset does to the registers and the memory, written
    from the architecture with arithmetic on bit fields, independently of the translator.
    The program counter is held apart from the registers; [block] runs a number of
    instructions.  File TransOk proves that translated code does the same. *)
From S2P Require Import Prelude.
From S2P Require Import Words.
From S2P Require Import BitField.
From S2P Require Import Cpu.
From S2P Require Import Insn.
From S2P Require Import LoadStore.
From S2P Require Import X86.

Module A64.
Import Cpu.
Import Cpu.F.
Import Insn.
Import LoadStore(loaded, index).
Import X86(le_bytes, le_value).

(** ** Registers *)

(** [N] is the width of the operation, 32 or 64. *)


Definition X (g : vf_cpu) (N r : Z) : Z := if r =? 31 then 0 else g (x r) mod 2 ^ N.
Definition XSP (g : vf_cpu) (N r : Z) : Z := if r =? 31 then g sp mod 2 ^ N else g (x r) mod 2 ^ N.
Definition put (g : vf_cpu) (r v : Z) : vf_cpu := if r =? 31 then g else g.[x r := v].
Definition put_sp (g : vf_cpu) (r v : Z) : vf_cpu := if r =? 31 then g.[sp := v] else g.[x r := v].

(** ** Flags *)

Record nzcv := { n : bool; z : bool; c : bool; v : bool }.

Definition nzcv_value (f : nzcv) : Z := 8 * b2z (n f) + 4 * b2z (z f) + 2 * b2z (c f) + b2z (v f).
Definition put_nzcv (g : vf_cpu) (value : Z) : vf_cpu := g.[pstate := insert_bits (g pstate) 28 4 value].

Definition condition_holds (cond p : Z) : bool :=
  let n := Z.testbit p 31 in
  let z := Z.testbit p 30 in
  let c := Z.testbit p 29 in
  let v := Z.testbit p 28 in
  let r := default true (switch (cond / 2) [
    (0, z); (1, c); (2, n); (3, v); (4, c && negb z); (5, Bool.eqb n v); (6, Bool.eqb n v && negb z)]) in
  if Z.odd cond && negb (cond =? 15) then negb r else r.

(** AddWithCarry *)
Definition add_with_carry (N a b carry : Z) : Z * nzcv :=
  let result := (a + b + carry) mod 2 ^ N in
  (result, {| n := Z.testbit result (N - 1); z := result =? 0; c := negb (result =? a + b + carry);
              v := negb (signed N result =? signed N a + signed N b + carry) |}).

Definition add_sub (subtract : bool) (N a b : Z) : Z * nzcv :=
  if subtract then add_with_carry N a (2 ^ N - 1 - b) 1 else add_with_carry N a b 0.

(** The flags of a logical operation. *)
Definition logic_flags (N result : Z) : nzcv :=
  {| n := Z.testbit result (N - 1); z := result =? 0; c := false; v := false |}.

(** ** Operations *)

(** LSL, LSR, ASR, ROR *)
Definition shift_reg (kind N a k : Z) : Z :=
  if kind =? 0 then a * 2 ^ k mod 2 ^ N
  else if kind =? 1 then a / 2 ^ k
  else if kind =? 2 then (signed N a / 2 ^ k) mod 2 ^ N
  else a / 2 ^ k + (a mod 2 ^ k) * 2 ^ (N - k).

(** AND, ORR, EOR, ANDS *)
Definition logic (op a b : Z) : Z := if op =? 1 then Z.lor a b else if op =? 2 then Z.lxor a b else Z.land a b.

(** The low [count] bits of [a], sign or zero extended to [N] bits, times [2 ^ k]. *)
Definition extend_reg (N count : Z) (sign : bool) (a k : Z) : Z :=
  let a := a mod 2 ^ count in
  (if sign then signed count a else a) * 2 ^ k mod 2 ^ N.

(** ** Instructions *)

(** What follows an instruction: the next one; a jump; or the end of the run with a
    status, the instruction retired or not. *)
Inductive outcome :=
  | Next (g : vf_cpu) (m : list Z)
  | Exit (st target retires : Z) (g : vf_cpu) (m : list Z).

Section Step.
Context (w pc_ : Z) (g : vf_cpu) (m : list Z).

Definition is64 : bool := Z.testbit w 31.
Definition N : Z := if is64 then 64 else 32.
Definition Rd : Z := fld w 0 5.
Definition Rn : Z := fld w 5 5.
Definition Rm : Z := fld w 16 5.
Definition Ra : Z := fld w 10 5.

(** The instruction does not execute; its word is kept for the syndrome. *)
Definition stopped (st : Z) : outcome := Exit st pc_ 0 (g.[instruction := w]) m.
Definition undefined : outcome := stopped VF_UNDEFINED_INSTRUCTION.
Definition jumped (target : Z) (g : vf_cpu) : outcome := Exit VF_NEXT target 1 g m.

(** Signed bit field. *)
Definition sfld (lo len : Z) : Z := signed len (fld w lo len).

Definition select : outcome :=
  let b := X g N Rm in
  let b := if Z.testbit w 30 then 2 ^ N - 1 - b else b in
  let b := if Z.testbit w 10 then (b + 1) mod 2 ^ N else b in
  Next (put g Rd (if condition_holds (fld w 12 4) (g pstate) then X g N Rn else b)) m.

Definition variable_shift : outcome :=
  Next (put g Rd (shift_reg (fld w 10 2) N (X g N Rn) (X g N Rm mod N))) m.

Definition multiply : outcome :=
  let p := X g N Rn * X g N Rm in
  Next (put g Rd ((if Z.testbit w 15 then X g N Ra - p else X g N Ra + p) mod 2 ^ N)) m.

Definition conditional_compare : outcome :=
  let b := if Z.testbit w 11 then Rm else X g N Rm in
  Next (put_nzcv g (if condition_holds (fld w 12 4) (g pstate)
                    then nzcv_value (add_sub (Z.testbit w 30) N (X g N Rn) b).2 else fld w 0 4)) m.

(** The fields of a bitfield instruction are in range of the register. *)
Definition bitfield_ok : bool :=
  Bool.eqb (Z.testbit w 22) is64 && (is64 || (negb (Z.testbit w 21) && negb (Z.testbit w 15))).

(** BFM: [s - r + 1] bits from [r] to 0, or [s + 1] bits from 0 to [N - r]. *)
Definition bitfield_insert : outcome :=
  let r := fld w 16 6 in
  let s := fld w 10 6 in
  if bitfield_ok then
    Next (put g Rd (if r <=? s then insert_bits (X g N Rd) 0 (s - r + 1) (fld (X g N Rn) r (s - r + 1))
                    else insert_bits (X g N Rd) (N - r) (s + 1) (fld (X g N Rn) 0 (s + 1)))) m
  else undefined.

(** UBFM: the same into zero. *)
Definition bitfield_extract : outcome :=
  let r := fld w 16 6 in
  let s := fld w 10 6 in
  if bitfield_ok then
    Next (put g Rd (if r <=? s then fld (X g N Rn) r (s - r + 1) else fld (X g N Rn) 0 (s + 1) * 2 ^ (N - r))) m
  else undefined.

(** The result of a logical operation; the flags with ANDS. *)
Definition logical (op v : Z) (to_sp : bool) : outcome :=
  if op =? 3 then Next (put_nzcv (put g Rd v) (nzcv_value (logic_flags N v))) m
  else Next (if to_sp then put_sp g Rd v else put g Rd v) m.

Definition logical_immediate : outcome :=
  match logical_mask w with
  | None => undefined
  | Some mask => logical (fld w 29 2) (logic (fld w 29 2) (X g N Rn) mask) true
  end.

Definition logical_shifted : outcome :=
  let k := fld w 10 6 in
  if negb is64 && (32 <=? k) then undefined
  else
    let b := shift_reg (fld w 22 2) N (X g N Rm) k in
    let b := if Z.testbit w 21 then 2 ^ N - 1 - b else b in
    logical (fld w 29 2) (logic (fld w 29 2) (X g N Rn) b) false.

(** ADD and SUB, and their flag-setting forms, whose destination 31 is the zero
    register; [to_sp]: the destination 31 of the others is the stack pointer. *)
Definition arithmetic (a b : Z) (to_sp : bool) : outcome :=
  let '(r, f) := add_sub (Z.testbit w 30) N a b in
  if Z.testbit w 29 then Next (put_nzcv (put g Rd r) (nzcv_value f)) m
  else Next (if to_sp then put_sp g Rd r else put g Rd r) m.

Definition add_immediate : outcome :=
  arithmetic (XSP g N Rn) (fld w 10 12 * (if Z.testbit w 22 then 2 ^ 12 else 1)) true.

Definition add_extended : outcome :=
  let k := fld w 10 3 in
  if 4 <? k then undefined
  else arithmetic (XSP g N Rn) (extend_reg N (Z.min N (8 * 2 ^ fld w 13 2)) (Z.testbit w 15) (X g N Rm) k) true.

Definition add_shifted : outcome :=
  let k := fld w 10 6 in
  if (fld w 22 2 =? 3) || (negb is64 && (32 <=? k)) then undefined
  else arithmetic (X g N Rn) (shift_reg (fld w 22 2) N (X g N Rm) k) false.

(** MOVZ, MOVN and MOVK of a halfword. *)
Definition move_wide : outcome :=
  let lo := 16 * fld w 21 2 in
  let v := fld w 5 16 in
  if negb is64 && (32 <=? lo) then undefined
  else if fld w 29 2 =? 3 then Next (put g Rd (insert_bits (X g N Rd) lo 16 v)) m
  else if fld w 29 2 =? 0 then Next (put g Rd (2 ^ N - 1 - v * 2 ^ lo)) m
  else Next (put g Rd (v * 2 ^ lo)) m.

Definition address : outcome :=
  let imm := signed 21 (4 * fld w 5 19 + fld w 29 2) in
  Next (put g Rd ((if is64 then pc_ - pc_ mod 4096 + imm * 4096 else pc_ + imm) mod 2 ^ 64)) m.

(** The identification registers, readable at EL1 when nothing traps them. *)
Definition identify : outcome :=
  if (g current_el =? VF_EL1) && (g hcr_el2 =? 0) && (g scr_el3 =? 0) then
    let value := if fld w 5 15 =? 0x4038 then 0x0f100005 else if fld w 5 15 =? 0x4020 then 0x00ff0011 else 0 in
    Next (put g Rd value) m
  else stopped VF_SYSTEM_REGISTER_TRAP.

(** The thread registers. *)
Definition thread_register : option field :=
  switch (sysreg_key w) [
    (VF_SYSREG_KEY_TPIDR_EL0, tpidr_el0); (VF_SYSREG_KEY_TPIDRRO_EL0, tpidrro_el0); (VF_SYSREG_KEY_TPIDR_EL1, tpidr_el1)].

Definition thread (f : field) : outcome :=
  let read := Z.testbit w 21 in
  if (g current_el =? VF_EL0) && (F.eqb f tpidr_el1 || (negb read && F.eqb f tpidrro_el0)) then undefined
  else if read then Next (put g Rd (g f mod 2 ^ 64)) m
  else Next (g.[f := X g 64 Rd]) m.

(** *** Loads and stores *)

(** Element [i] of the access, and whether it lies in the guest memory. *)
Definition in_memory (a k : Z) : bool := (g guest_ram_base <=? a) && (a + k <=? g guest_ram_base + Z.of_nat (length m)).

Definition load_at (m : list Z) (off k : Z) : Z := le_value (take (Z.to_nat k) (drop (Z.to_nat off) m)).
Definition store_at (m : list Z) (off k v : Z) : list Z :=
  take (Z.to_nat off) m ++ le_bytes (Z.to_nat k) v ++ drop (Z.to_nat (off + k)) m.

Definition regime_ok : bool :=
  (g current_el <=? VF_EL1) && (g hcr_el2 =? 0) && (g scr_el3 =? 0)
  && negb (Z.testbit (g sctlr) (if g current_el =? VF_EL0 then 24 else 25)).

Definition stack_checked : bool := Z.testbit (g sctlr) (if g current_el =? VF_EL0 then 4 else 3).

(** The first element the access cannot reach; the second must not wrap around. *)
Definition faulting (s : memory_shape) (a : Z) : option Z :=
  if negb (in_memory a (width s)) then Some a
  else if (count s =? 2) && ((2 ^ 64 <=? a + width s) || negb (in_memory (a + width s) (width s)))
  then Some ((a + width s) mod 2 ^ 64)
  else None.

(** The access at offset [off] of the memory: the registers loaded, or the memory
    stored. *)
Definition transfer (g : vf_cpu) (s : memory_shape) (off : Z) : vf_cpu * list Z :=
  if read s then
    let g := put g (rt s) (loaded s (load_at m off (width s))) in
    (if count s =? 2 then put g (rt2 s) (loaded s (load_at m (off + width s) (width s))) else g, m)
  else
    let m := store_at m off (width s) (X g 64 (rt s)) in
    (g, if count s =? 2 then store_at m (off + width s) (width s) (X g 64 (rt2 s)) else m).

Definition access : outcome :=
  match decode_memory w with
  | None => undefined
  | Some s =>
    let fault st far_ := Exit st pc_ 0 (g.[instruction := w].[far := far_]) m in
    if negb regime_ok then stopped VF_SYSTEM_REGISTER_TRAP
    else
      let base := XSP g 64 (rn s) in
      if (rn s =? 31) && stack_checked && negb (base mod 16 =? 0) then fault VF_SP_ALIGNMENT_FAULT base
      else
        let updated := (base + index g s) mod 2 ^ 64 in
        let a := if mode s =? 1 then base else updated in
        if negb (a mod width s =? 0) then fault VF_ALIGNMENT_FAULT a
        else
          match faulting s a with
          | Some a => fault VF_DATA_ABORT a
          | None =>
            let '(g, m) := transfer (g.[instruction := w]) s (a - g guest_ram_base) in
            Next (if mode s =? 2 then g else put_sp g (rn s) updated) m
          end
  end.

(** *** Branches *)

Definition next_pc : Z := (pc_ + 4) mod 2 ^ 64.
Definition relative (imm : Z) : Z := (pc_ + 4 * imm) mod 2 ^ 64.

Definition conditional_branch : outcome :=
  jumped (if condition_holds (fld w 0 4) (g pstate) then relative (sfld 5 19) else next_pc) g.

Definition test_branch : outcome :=
  let bit := 32 * fld w 31 1 + fld w 19 5 in
  jumped (if Bool.eqb (Z.testbit (X g 64 Rd) bit) (Z.testbit w 24) then relative (sfld 5 14) else next_pc) g.

Definition compare_branch : outcome :=
  jumped (if Bool.eqb (X g N Rd =? 0) (negb (Z.testbit w 24)) then relative (sfld 5 19) else next_pc) g.

Definition link (g : vf_cpu) : vf_cpu := g.[x 30 := next_pc].

Definition branch : outcome := jumped (relative (sfld 0 26)) (if Z.testbit w 31 then link g else g).

Definition branch_register : outcome :=
  if Rn =? 31 then undefined
  else jumped (g (x Rn) mod 2 ^ 64) (if Z.land w 0xfffffc1f =? 0xd63f0000 then link g else g).

(** *** Classes *)

Definition VF_MEMORY_DISPATCH := 0x7ffffffe.

(** [provider]: loads and stores are left to the memory provider.  The project's profile of
    the instruction set is kept: a branch to register 31 is undefined, and bit 20, which
    tells MRS and MSR from SYS and SYSL in the architecture, is not looked at. *)
Definition effect (provider : bool) : outcome :=
  let like mask value := Z.land w mask =? value in
  if is_mrs_msr w && (fld w 5 15 =? VF_SYSREG_KEY_CPACR_EL1) && (g current_el =? VF_EL0) then undefined
  else if is_mrs_msr w && ((fld w 5 15 =? VF_SYSREG_KEY_FPCR) || (fld w 5 15 =? VF_SYSREG_KEY_FPSR)) then undefined
  else if provider && memory_family w then stopped VF_MEMORY_DISPATCH
  else if like 0x3fe00800 0x1a800000 then select
  else if like 0x7fe0f000 0x1ac02000 then variable_shift
  else if like 0x7fe00000 0x1b000000 then multiply
  else if like 0x3fe00410 0x3a400000 then conditional_compare
  else if like 0x7f800000 0x33000000 then bitfield_insert
  else if like 0x7f800000 0x53000000 then bitfield_extract
  else if like 0x1f800000 0x12000000 then logical_immediate
  else if existsb (λ read, w / 32 =? read / 32)
            [0xd5380400; 0xd5380420; 0xd5380440; 0xd5380480; 0xd5380600; 0xd5380640; 0xd5380660; 0xd5380700; 0xd5380720;
             0xd5380740] then identify
  else
    match (if is_mrs_msr w then thread_register else None) with
    | Some f => thread f
    | None =>
      if like 0x7f800000 0x52800000 || like 0x7f800000 0x72800000 || like 0x7f800000 0x12800000 then move_wide
      else if like 0x1f000000 0x10000000 then address
      else if like 0x1f000000 0x0a000000 then logical_shifted
      else if like 0x1f800000 0x11000000 then add_immediate
      else if like 0x1fe00000 0x0b200000 then add_extended
      else if like 0x1f200000 0x0b000000 then add_shifted
      else if memory_family w then access
      else if like 0xff000010 0x54000000 then conditional_branch
      else if like 0x7e000000 0x36000000 then test_branch
      else if like 0x7e000000 0x34000000 then compare_branch
      else if like 0x7c000000 0x14000000 then branch
      else if like 0xfffffc1f 0xd61f0000 || like 0xfffffc1f 0xd63f0000 || like 0xfffffc1f 0xd65f0000 then branch_register
      else if w =? 0xd503201f then Next g m
      else if w =? 0xd4400000 then Exit VF_HALT next_pc 1 g m
      else stopped (if known_privileged w (g current_el) then VF_PRIVILEGE_FAULT
                    else if system_boundary w (g current_el) =? 0 then VF_UNDEFINED_INSTRUCTION
                    else system_boundary w (g current_el))
    end.
End Step.

(** ** Blocks *)

(** The word at [pc_]: aligned, inside the guest memory and the address space. *)
Definition fetch (guest : list Z) (base pc_ : Z) : option Z :=
  if (pc_ mod 4 =? 0) && (base <=? pc_) && (pc_ + 4 <=? base + Z.of_nat (length guest)) && (pc_ + 4 <=? 2 ^ 64)
  then Some (le_value (take 4 (drop (Z.to_nat (pc_ - base)) guest))) else None.

(** At most [rounds] instructions of [guest] from [pc_]: the status, the program counter
    and the number of instructions retired at the end, the registers and the memory. *)
Fixpoint block (rounds : nat) (guest : list Z) (pc_ : Z) (g : vf_cpu) (m : list Z) : Z * Z * Z * vf_cpu * list Z :=
  match rounds with
  | O => (VF_NEXT, pc_, 0, g, m)
  | S rounds =>
    match fetch guest (g guest_ram_base) pc_ with
    | None => (VF_INSTRUCTION_ABORT, pc_, 0, g, m)
    | Some w =>
      match effect w pc_ g m false with
      | Next g m => let '(st, p, k, g, m) := block rounds guest ((pc_ + 4) mod 2 ^ 64) g m in (st, p, k + 1, g, m)
      | Exit st target k g m => (st, target, k, g, m)
      end
    end
  end.

End A64.
