(* ===== verification/Codegen.v ===== *)
(** What the pieces of the translator emit, and what the host does with it.

    [emits] relates a program of emission to host instructions; the lemmas of the second
    half run these instructions on a host in the state of the entry convention. *)
From Stdlib Require Import FunctionalExtensionality.
From S2P Require Import Prelude.
From S2P Require Import Words.
From S2P Require Import BitField.
From S2P Require Import Cpu.
From S2P Require Import Insn.
From S2P Require Import LoadStore.
From S2P Require Import X86.
From S2P Require Import Emit.
From S2P Require Import Translate.
From S2P Require Import A64.

Module Codegen.
Import Cpu.
Import Cpu.F.
Import Insn.
Import LoadStore(loaded, index).
Import A64.
Import X86.
Import Emit.
Import Translate.

(** ** Emission *)

Definition emits_bytes {A} (m : emission A) (a : A) (bs : list Z) : Prop :=
  ∀ pre, assemble m pre = Some (a, pre ++ bs).

Definition emits {A} (m : emission A) (a : A) (l : list insn) : Prop := emits_bytes m a (enc l).

Section Rules.
Context {A : Type}.
Implicit Types (k : emission A) (a : A).

Lemma emits_ret a : emits_bytes (mret a) a [].
Proof. intros pre. cbn. by rewrite app_nil_r. Qed.

Lemma emits_bind {B} (m : emission B) (f : B → emission A) x a bs bs' :
  emits_bytes m x bs → emits_bytes (f x) a bs' → emits_bytes (m ≫= f) a (bs ++ bs').
Proof. intros Hm Hf pre. rewrite assemble_bind, Hm. cbn [mbind option_bind]. by rewrite Hf, app_assoc. Qed.

Lemma emits_ret_bind {B} (x : B) (f : B → emission A) a bs : emits_bytes (f x) a bs → emits_bytes (mret x ≫= f) a bs.
Proof. done. Qed.

Lemma emits_b v : emits_bytes (b v) tt [u8 v].
Proof. done. Qed.

Lemma emits_b_bind v k a bs : emits_bytes k a bs → emits_bytes (b v;; k) a (u8 v :: bs).
Proof. apply (emits_bind (b v) (λ _, k) tt a [u8 v]), emits_b. Qed.

Lemma emits_if {B} (t : bool) (m m' : emission B) x bs bs' :
  (t = true → emits_bytes m x bs) → (t = false → emits_bytes m' x bs') →
  emits_bytes (if t then m else m') x (if t then bs else bs').
Proof. intros H H'. destruct t; auto. Qed.
End Rules.

Lemma emits_32 v : emits_bytes (emit32 v) tt (le_bytes 4 v).
Proof.
  assert (le_bytes 4 v = [u8 v; u8 (Z.shiftr v 8); u8 (Z.shiftr v 16); u8 (Z.shiftr v 24)]) as ->.
  { unfold le_bytes. by rewrite !Z.shiftr_shiftr by done. }
  do 3 apply emits_b_bind. apply emits_b.
Qed.

Lemma emits_64 v : emits_bytes (emit64 v) tt (le_bytes 8 v).
Proof.
  assert (le_bytes 8 v = [u8 v; u8 (Z.shiftr v 8); u8 (Z.shiftr v 16); u8 (Z.shiftr v 24);
    u8 (Z.shiftr v 32); u8 (Z.shiftr v 40); u8 (Z.shiftr v 48); u8 (Z.shiftr v 56)]) as ->.
  { unfold le_bytes. by rewrite !Z.shiftr_shiftr by done. }
  do 7 apply emits_b_bind. apply emits_b.
Qed.

Lemma enc_cons i l : enc (i :: l) = encode i ++ enc l.
Proof. done. Qed.

Lemma emits_eq {A} (m : emission A) a bs l : emits_bytes m a bs → bs = enc l → emits m a l.
Proof. by intros H ->. Qed.

(** *** The pieces *)

Definition load_insns (reg : Z) (sp_ wide : bool) : list insn :=
  if reg =? 31 then if sp_ then [Load wide RAX (Member (offsetof sp))] else [Alu XOR false (Direct RAX) RAX]
  else [Load wide RAX (Member (reg * 8))].
Definition save_insns (reg : Z) (sp_ : bool) : list insn :=
  if reg =? 31 then if sp_ then [Store 8 (Member (offsetof sp)) RAX] else [] else [Store 8 (Member (reg * 8)) RAX].
Definition flag_insns (subtract : bool) : list insn :=
  [Setcc 8 R9; Setcc 4 R10; Setcc (if subtract then 3 else 2) R11; Setcc 0 RAX;
   Extend false 1 false R9 (Direct R9); Extend false 1 false R10 (Direct R10); Extend false 1 false R11 (Direct R11);
   Extend false 1 false RAX (Direct RAX);
   Shift SHL false R9 31; Shift SHL false R10 30; Shift SHL false R11 29; Shift SHL false RAX 28;
   Alu OR false (Direct RAX) R9; Alu OR false (Direct RAX) R10; Alu OR false (Direct RAX) R11;
   MovImm true R9 (bnot 64 0xf0000000); Alu AND true (Member (offsetof pstate)) R9;
   Alu OR true (Member (offsetof pstate)) RAX].
Definition finish_insns (pc_ count st : Z) : list insn :=
  [MovImm true RAX pc_; Store 8 (Member (offsetof pc)) RAX; AluImm32 ADD true (Member (offsetof retired)) count;
   MovImm false RAX st; Ret].

(** Emits a chain of commands, piece by piece. *)
Ltac emission :=
  repeat lazymatch goal with
  | |- emits_bytes (b _;; _) _ _ => apply emits_b_bind
  | |- emits_bytes (b _) _ _ => apply emits_b
  | |- emits_bytes (emit32 _) _ _ => apply emits_32
  | |- emits_bytes (emit64 _) _ _ => apply emits_64
  | |- emits_bytes (mret _) _ _ => apply emits_ret
  | |- emits_bytes (_ ≫= _) _ _ => eapply emits_bind
  end.

Lemma emits_load reg sp_ wide : emits (load reg sp_ wide) tt (load_insns reg sp_ wide).
Proof.
  unfold load, load_insns. destruct (reg =? 31), sp_, wide; cbn [negb wide_prefix];
    (eapply emits_eq; [emission|]; reflexivity).
Qed.

Lemma emits_save reg sp_ : emits (save reg sp_) tt (save_insns reg sp_).
Proof. unfold save, save_insns. destruct (reg =? 31), sp_; (eapply emits_eq; [emission|]; reflexivity). Qed.

Lemma emits_imm v : emits (imm v) tt [MovImm true RAX v].
Proof. eapply emits_eq; [unfold imm; emission|]. cbn [enc flat_map]. by rewrite app_nil_r. Qed.

Lemma emits_flags subtract : emits (save_arithmetic_flags subtract) tt (flag_insns subtract).
Proof. unfold save_arithmetic_flags. destruct subtract; (eapply emits_eq; [emission|]; reflexivity). Qed.

Lemma emits_store_field off v : emits (store_field off v) tt [MovImm true RAX v; Store 8 (Member off) RAX].
Proof. eapply emits_eq; [unfold store_field; emission; apply emits_imm|]. reflexivity. Qed.

Lemma emits_store_field32 off v : emits (store_field32 off v) tt [StoreImm (Member off) v].
Proof. eapply emits_eq; [unfold store_field32; emission|]. reflexivity. Qed.

Lemma emits_save_r11 off : emits (save_host_r11 off) tt [Store 8 (Member off) R11].
Proof. eapply emits_eq; [unfold save_host_r11; emission|]. reflexivity. Qed.

Lemma emits_finish pc_ count st : emits (finish pc_ count st) tt (finish_insns pc_ count st).
Proof. eapply emits_eq; [unfold finish; emission; apply emits_store_field|]. reflexivity. Qed.

Lemma emits_prefix wide : emits_bytes (wide_prefix wide) tt (if wide then [0x48] else []).
Proof. destruct wide; [apply emits_b|apply emits_ret]. Qed.

Lemma emits_shift_imm wide kind amount op :
  fits 8 amount → kind = match op with SHL => 0xe0 | SHR => 0xe8 | SAR => 0xf8 | ROR => 0xc8 end →
  emits (shift_imm wide kind amount) tt [Shift op wide RAX amount].
Proof.
  intros Ha ->. eapply emits_eq; [unfold shift_imm; emission; apply emits_prefix|]. rewrite (wrap_id 8 amount) by done.
  by destruct wide, op.
Qed.

(** All pieces. *)
Ltac pieces :=
  repeat lazymatch goal with
  | |- emits_bytes (b _;; _) _ _ => apply emits_b_bind
  | |- emits_bytes (b _) _ _ => apply emits_b
  | |- emits_bytes (emit32 _) _ _ => apply emits_32
  | |- emits_bytes (emit64 _) _ _ => apply emits_64
  | |- emits_bytes (mret _) _ _ => apply emits_ret
  | |- emits_bytes (load _ _ _) _ _ => apply emits_load
  | |- emits_bytes (save _ _) _ _ => apply emits_save
  | |- emits_bytes (imm _) _ _ => apply emits_imm
  | |- emits_bytes (save_arithmetic_flags _) _ _ => apply emits_flags
  | |- emits_bytes (store_field _ _) _ _ => apply emits_store_field
  | |- emits_bytes (store_field32 _ _) _ _ => apply emits_store_field32
  | |- emits_bytes (save_host_r11 _) _ _ => apply emits_save_r11
  | |- emits_bytes (finish _ _ _) _ _ => apply emits_finish
  | |- emits_bytes (wide_prefix _) _ _ => apply emits_prefix
  | |- emits_bytes (if _ then _ else _) _ _ => apply emits_if; intros _
  | |- emits_bytes (_ ≫= _) _ _ => eapply emits_bind
  end.

(** The bytes of a chain, against a list of instructions. *)
Ltac bytes_eq :=
  do 2 rewrite ?enc_app, ?enc_cons; do 2 (rewrite <- ?app_assoc; cbn [app]); rewrite ?app_nil_r; reflexivity.

Ltac emitting := eapply emits_eq; [pieces|bytes_eq].

(** *** Jumps *)

Lemma patch_mid u w v t : length w = 4%nat → patch (u ++ w ++ t) (Z.of_nat (length u)) v = Some (u ++ le_bytes 4 v ++ t).
Proof.
  intros Hw. unfold patch. rewrite bool_decide_true by (rewrite !length_app; lia). f_equal. rewrite Nat2Z.id.
  rewrite take_app_length. f_equal. rewrite drop_app_add', drop_app_length' by done. done.
Qed.

(** A jump whose displacement is filled in later, and the bytes before it. *)
Definition with_rel (i : insn) (rel : Z) : insn := match i with Jcc cc _ => Jcc cc rel | Jmp _ => Jmp rel | i => i end.
Definition jumps (i : insn) : Prop := match i with Jcc _ _ | Jmp _ => True | _ => False end.
Definition jump_head (i : insn) : list Z := match i with Jcc cc _ => [0x0f; 0x80 + cc] | _ => [0xe9] end.

Lemma encode_jump i rel : jumps i → encode (with_rel i rel) = jump_head i ++ le_bytes 4 rel.
Proof. by destruct i. Qed.
Lemma encode_jump' i : jumps i → ∃ rel, encode i = jump_head i ++ le_bytes 4 rel.
Proof. destruct i; try done; intros _; by eexists. Qed.

(** The position of the displacement of a jump emitted after [a]. *)
Definition slot (pre : list Z) (a : list insn) (i : insn) : Z := Z.of_nat (length (pre ++ enc a ++ jump_head i)).

Lemma patch_jump pre a i mid tail_ :
  jumps i → bytes_of mid < 2 ^ 32 →
  patch (pre ++ enc (a ++ i :: mid ++ tail_)) (slot pre a i)
    (distance (slot pre a i) (Z.of_nat (length (pre ++ enc (a ++ i :: mid)))))
  = Some (pre ++ enc (a ++ with_rel i (bytes_of mid) :: mid ++ tail_)).
Proof.
  intros Hi Hb. destruct (encode_jump' i Hi) as [rel Hrel].
  assert (distance (slot pre a i) (Z.of_nat (length (pre ++ enc (a ++ i :: mid)))) = bytes_of mid) as ->.
  { unfold distance, slot. rewrite enc_app, enc_cons, Hrel, !length_app, le_bytes_length.
    assert (∀ p, Z.of_nat (length pre + (length (enc a) + (length (jump_head i) + 4 + length (enc mid)))) - p - 4
      = Z.of_nat (length (enc mid)) + (Z.of_nat (length pre + (length (enc a) + length (jump_head i))) - p)) as -> by lia.
    rewrite Z.sub_diag, Z.add_0_r. apply wrap_id. pose proof (bytes_of_le mid). unfold bytes_of, fits in *. lia. }
  rewrite !enc_app, !enc_cons, encode_jump, Hrel by done. unfold slot.
  assert (∀ w t, pre ++ enc a ++ (jump_head i ++ w) ++ t = (pre ++ enc a ++ jump_head i) ++ w ++ t) as Hs by (intros; by rewrite <- !app_assoc).
  rewrite !Hs. apply patch_mid, le_bytes_length.
Qed.

(** ** Execution *)

Lemma upd_upd g f a a' : g.[f := a].[f := a'] = g.[f := a'].
Proof. apply functional_extensionality. intros h. unfold upd. by destruct (F.eqb f h). Qed.

Lemma member_x r : 0 ≤ r < 32 → member_at (r * 8) = Some (x r).
Proof.
  intros Hr. assert (r * 8 = 8 * r) as -> by lia.
  assert (∀ k, (k < 32)%nat → member_at (8 * Z.of_nat k) = Some (x (Z.of_nat k))) as H.
  { intros k Hk. do 32 (destruct k as [|k]; [reflexivity|]). lia. }
  rewrite <- (Z2Nat.id r) by lia. apply H. lia.
Qed.

Lemma member_named f : member_at (offsetof f) = Some f →
  ∀ g n, 8 * n <= F.width f → member_read g (offsetof f) n = Some (g f mod 2 ^ (8 * n)).
Proof. intros Hf g n Hn. unfold member_read. rewrite Hf. cbn [mbind option_bind]. by rewrite (proj2 (Z.leb_le _ _)). Qed.

(** Reads the components of a host. *)
Ltac host := unfold set_flags, set_guest, set_ram; cbn [set get mbind option_bind rax rcx rdx r8 r9 r10 r11 fl guest ram].

Lemma steps_cons i l h h1 h2 : step i h = Some h1 → steps l h1 = Some h2 → steps (i :: l) h = Some h2.
Proof. intros Hi Hl. cbn [steps]. by rewrite Hi. Qed.

(** The size of an operation in bits. *)
Definition bits_of (wide : bool) : Z := if wide then 64 else 32.
Lemma size_bits wide : 8 * size wide = bits_of wide.
Proof. by destruct wide. Qed.

Lemma X_fits g n r : 0 ≤ n → fits n (X g n r).
Proof. intros Hn. unfold X. destruct (_ =? _); [|by apply fits_wrap]. unfold fits. assert (0 < 2 ^ n) by (by apply Z.pow_pos_nonneg). lia. Qed.
Lemma XSP_fits g n r : 0 ≤ n → fits n (XSP g n r).
Proof. intros Hn. unfold XSP. by destruct (_ =? _); apply fits_wrap. Qed.

Definition operand_value (g : vf_cpu) (sp_ wide : bool) (reg : Z) : Z :=
  if sp_ then XSP g (bits_of wide) reg else X g (bits_of wide) reg.

Lemma steps_load reg sp_ wide a d e i j k f g m :
  0 ≤ reg < 32 →
  ∃ f', steps (load_insns reg sp_ wide) (Build_host a CpuPtr d e i j k f g m)
    = Some (Build_host (Word (operand_value g sp_ wide reg)) CpuPtr d e i j k f' g m).
Proof.
  intros Hr. unfold load_insns, operand_value, X, XSP.
  destruct (reg =? 31); [destruct sp_|]; cbn [steps step].
  - cbn [read_operand rcx guest]. rewrite (member_named sp) by (reflexivity || by destruct wide). rewrite size_bits. by eexists.
  - change (zeroing XOR (Direct RAX) RAX) with true. cbv iota. destruct wide; by eexists.
  - cbn [read_operand rcx guest]. unfold member_read. rewrite member_x by done. cbn [mbind option_bind].
    assert ((8 * size wide <=? F.width (x reg)) = true) as -> by (by destruct wide). rewrite size_bits.
    destruct sp_; by eexists.
Qed.

(** The host after a piece of code: RAX, R9 to R11 and the flags hold anything. *)
Definition leaves (l : list insn) (h : host) (g : vf_cpu) (m : list Z) : Prop :=
  ∃ a i j k f, steps l h = Some (Build_host a CpuPtr (rdx h) (r8 h) i j k f g m).

Lemma steps_save reg sp_ v d e i j k f g m :
  0 ≤ reg < 32 → fits 64 v →
  steps (save_insns reg sp_) (Build_host (Word v) CpuPtr d e i j k f g m)
  = Some (Build_host (Word v) CpuPtr d e i j k f (if sp_ then put_sp g reg v else put g reg v) m).
Proof.
  intros Hr Hv. unfold save_insns, put, put_sp. assert (v mod 2 ^ (8 * 8) = v) as Hm by (by apply Z.mod_small).
  destruct (reg =? 31) eqn:E; [destruct sp_; [|done]|]; cbn [steps step get low_part mbind option_bind write_operand rcx rax guest].
  - unfold member_write. change (member_at (offsetof sp)) with (Some sp). cbn [mbind option_bind].
    change (8 * 8 =? F.width sp) with true. cbv iota. cbn [mbind option_bind]. rewrite !Hm. reflexivity.
  - unfold member_write. rewrite member_x by done. cbn [mbind option_bind]. change (8 * 8 =? F.width (x reg)) with true. cbv iota.
    cbn [mbind option_bind]. rewrite !Hm. by destruct sp_.
Qed.

Lemma low_byte_value v t : match low_byte v (b2z t) with Tainted b => Some b | v => low_part v 1 end = Some (b2z t).
Proof.
  destruct v as [v| | |]; cbn [low_byte low_part]; try done. f_equal. change (2 ^ (8 * 1)) with 256. destruct t; cbn [b2z]; dlia.
Qed.

Lemma step_extend8 r h w t : get h r = low_byte w (b2z t) → step (Extend false 1 false r (Direct r)) h = Some (set h r (Word (b2z t))).
Proof.
  intros Hr. cbn [step]. change (1 =? 1) with true. cbv iota. cbn [byte_of]. rewrite Hr.
  rewrite low_byte_value. cbn [mbind option_bind]. by destruct t.
Qed.

Lemma step_shift_flag r h n t : get h r = Word (b2z t) → 0 ≤ n < 32 →
  step (Shift SHL false r n) h = Some (set_flags (set h r (Word (b2z t * 2 ^ n))) no_flags).
Proof.
  intros Hr Hn. cbn [step]. rewrite Hr. cbn [low_part mbind option_bind shift_value]. change (8 * size false) with 32.
  assert (b2z t mod 2 ^ 32 = b2z t) as -> by (by destruct t). rewrite (Z.mod_small n) by lia.
  rewrite (Z.mod_small (b2z t * 2 ^ n)); [done|].
  assert (0 < 2 ^ n) by (apply pow2_pos; lia). assert (2 ^ n < 2 ^ 32) by (apply Z.pow_lt_mono_r; lia). destruct t; cbn [b2z]; lia.
Qed.

Lemma step_or_words h r r' a b : get h r = Word a → get h r' = Word b → fits 32 a → fits 32 b →
  step (Alu OR false (Direct r) r') h = Some (set (set_flags h (alu_flags OR 4 a b)) r (Word (Z.lor a b))).
Proof.
  intros Hr Hr' Ha Hb. cbn [step zeroing read_operand]. rewrite Hr, Hr'. cbn [low_part mbind option_bind]. change (8 * size false) with 32.
  rewrite !(Z.mod_small _ (2 ^ 32)) by done. unfold alu_step. cbn [alu_writes alu_value write_operand].
  change (8 * size false) with 32. rewrite Z.mod_small; [done|]. by apply (fits_lor 32).
Qed.

(** The four flags of the guest in one word. *)
Lemma flag_word (s z c o : bool) :
  Z.lor (Z.lor (Z.lor (b2z o * 2 ^ 28) (b2z s * 2 ^ 31)) (b2z z * 2 ^ 30)) (b2z c * 2 ^ 29)
  = nzcv_value {| A64.n := s; A64.z := z; A64.c := c; A64.v := o |} * 2 ^ 28.
Proof. by destruct s, z, c, o. Qed.

Lemma nzcv_fits v : fits 4 (nzcv_value v).
Proof. by destruct v as [[] [] [] []]. Qed.

Lemma pstate_mask : bnot 64 0xf0000000 = bnot 64 (Z.ones 4 * 2 ^ 28).
Proof. reflexivity. Qed.

(** Clearing and setting the flags of the guest, from a word in RAX. *)
Lemma steps_put_nzcv v d e i j k f g m :
  typed g → fits 4 v →
  leaves [MovImm true R9 (bnot 64 0xf0000000); Alu AND true (Member (offsetof pstate)) R9;
          Alu OR true (Member (offsetof pstate)) RAX]
    (Build_host (Word (v * 2 ^ 28)) CpuPtr d e i j k f g m) (put_nzcv g v) m.
Proof.
  intros Hg Hv. pose proof (Hg pstate) as Hp. cbn [F.width] in Hp. unfold leaves, put_nzcv.
  assert (fits 64 (bnot 64 0xf0000000)) as Hb by (by vm_compute).
  assert (∀ g n, 8 * n ≤ 64 → member_read g (offsetof pstate) n = Some (g pstate mod 2 ^ (8 * n))) as Hread.
  { intros g' n' Hn'. by apply member_named. }
  assert (∀ g w, fits 64 w → member_write g (offsetof pstate) 8 w = Some (g.[pstate := w])) as Hwrite.
  { intros g' w Hw. unfold member_write. change (member_at (offsetof pstate)) with (Some pstate). cbn [mbind option_bind].
    change (8 * 8 =? F.width pstate) with true. cbv iota. by rewrite Z.mod_small. }
  pose proof (insert_fits 64 (g pstate) 28 4 v ltac:(lia) ltac:(lia) ltac:(lia) Hp Hv) as Hi.
  pose proof (insert_lor 64 (g pstate) 28 4 v ltac:(lia) ltac:(lia) ltac:(lia) Hp Hv) as Hl. rewrite <- pstate_mask in Hl.
  assert (fits 64 (Z.land (g pstate) (bnot 64 0xf0000000))) as Hand by (by apply fits_land_l).
  assert (fits 64 (v * 2 ^ 28)) as Hv28 by (unfold fits in *; lia).
  eexists _, _, _, _, _. eapply steps_cons; [reflexivity|]. host.
  eapply steps_cons.
  { cbn [step zeroing read_operand rcx guest]. rewrite Hread by by vm_compute. cbn [get r9 low_part mbind option_bind].
    change (8 * size true) with 64. rewrite (Z.mod_small _ _ Hp), !(Z.mod_small (bnot _ _) _ Hb).
    unfold alu_step. cbn [alu_writes write_operand set_flags rcx guest alu_value]. change (8 * size true) with 64.
    rewrite Z.mod_small by exact Hand. change (size true) with 8. rewrite Hwrite by exact Hand. reflexivity. }
  host.
  eapply steps_cons; [|reflexivity].
  cbn [step zeroing read_operand rcx guest]. rewrite Hread by by vm_compute. cbn [get rax low_part mbind option_bind].
  fields. change (8 * size true) with 64. rewrite (Z.mod_small _ _ Hand), (Z.mod_small _ _ Hv28).
  unfold alu_step. cbn [alu_writes write_operand set_flags rcx guest alu_value]. rewrite Hl. change (8 * size true) with 64.
  rewrite (Z.mod_small _ _ Hi). change (size true) with 8. rewrite Hwrite by exact Hi. cbn [mbind option_bind set_guest].
  rewrite upd_upd. reflexivity.
Qed.

Lemma leaves_step i l h h1 g m :
  step i h = Some h1 → rdx h1 = rdx h → r8 h1 = r8 h → leaves l h1 g m → leaves (i :: l) h g m.
Proof. intros Hi Hd He (a & i' & j & k & f & Hl). rewrite Hd, He in Hl. exists a, i', j, k, f. by eapply steps_cons. Qed.

Lemma leaves_app l l' h h1 g m :
  steps l h = Some h1 → rdx h1 = rdx h → r8 h1 = r8 h → leaves l' h1 g m → leaves (l ++ l') h g m.
Proof. intros Hi Hd He (a & i' & j & k & f & Hl). rewrite Hd, He in Hl. exists a, i', j, k, f. by rewrite (steps_app _ _ _ _ Hi). Qed.

(** Storing the flags of an operation whose result has been saved. *)
Lemma steps_flags subtract v d e i j k cb zb sb ob g m :
  typed g →
  leaves (flag_insns subtract)
    (Build_host (Word v) CpuPtr d e i j k {| cf := Some cb; zf := Some zb; sf := Some sb; of_ := Some ob |} g m)
    (put_nzcv g (nzcv_value {| A64.n := sb; A64.z := zb; A64.c := if subtract then negb cb else cb; A64.v := ob |})) m.
Proof.
  intros Hg. unfold flag_insns. set (c' := if subtract then negb cb else cb).
  eapply leaves_step; [reflexivity|done..|]. eapply leaves_step; [reflexivity|done..|].
  eapply (leaves_step _ _ _ (set _ R11 (low_byte k (b2z c')))); [by destruct subtract|done..|].
  eapply leaves_step; [reflexivity|done..|]. host.
  do 4 (eapply leaves_step; [eapply step_extend8; reflexivity|done..|]; host).
  do 4 (eapply leaves_step; [eapply step_shift_flag; [reflexivity|lia]|done..|]; host).
  eapply leaves_step; [eapply step_or_words; [reflexivity..|by destruct ob|by destruct sb]|done..|]; host.
  eapply leaves_step; [eapply step_or_words; [reflexivity..|by destruct ob, sb|by destruct zb]|done..|]; host.
  eapply leaves_step; [eapply step_or_words; [reflexivity..|by destruct ob, sb, zb|by destruct c']|done..|]; host.
  rewrite flag_word. apply steps_put_nzcv; [done|apply nzcv_fits].
Qed.

(** *** Single instructions on words *)

Lemma low_part_id wide a : fits (bits_of wide) a → low_part (Word a) (size wide) = Some a.
Proof. intros Ha. cbn [low_part]. f_equal. rewrite size_bits. by apply Z.mod_small. Qed.

Lemma step_alu op wide r r' h a b :
  get h r = Word a → get h r' = Word b → fits (bits_of wide) a → fits (bits_of wide) b →
  alu_writes op = true → op ≠ XOR ∨ r ≠ r' →
  step (Alu op wide (Direct r) r') h =
  Some (set (set_flags h (alu_flags op (size wide) a b)) r (Word (alu_value op a b mod 2 ^ bits_of wide))).
Proof.
  intros Hr Hr' Ha Hb Hw Hop. cbn [step read_operand]. rewrite Hr, Hr', !low_part_id by done. cbn [mbind option_bind].
  assert (zeroing op (Direct r) r' = false) as ->.
  { destruct op; try done. destruct Hop; [done|]. cbn. by destruct r, r'. }
  unfold alu_step. by rewrite Hw, size_bits.
Qed.

Lemma step_test op wide r r' h a b :
  get h r = Word a → get h r' = Word b → fits (bits_of wide) a → fits (bits_of wide) b → alu_writes op = false →
  step (Alu op wide (Direct r) r') h = Some (set_flags h (alu_flags op (size wide) a b)).
Proof.
  intros Hr Hr' Ha Hb Hw. cbn [step read_operand]. rewrite Hr, Hr', !low_part_id by done. cbn [mbind option_bind].
  unfold alu_step. rewrite Hw. by destruct op.
Qed.

Lemma step_shift op wide r h a k :
  get h r = Word a → fits (bits_of wide) a →
  step (Shift op wide r k) h = Some (set_flags (set h r (Word (shift_value op (size wide) a k))) no_flags).
Proof. intros Hr Ha. cbn [step]. by rewrite Hr, low_part_id by done. Qed.

Lemma step_not wide r h a :
  get h r = Word a → fits (bits_of wide) a → step (X86.Not wide r) h = Some (set h r (Word (2 ^ bits_of wide - 1 - a))).
Proof. intros Hr Ha. cbn [step]. rewrite Hr, low_part_id by done. cbn [mbind option_bind]. by rewrite size_bits. Qed.

Lemma step_imul wide r r' h a b :
  get h r = Word a → get h r' = Word b → fits (bits_of wide) a → fits (bits_of wide) b →
  step (Imul wide r (Direct r')) h = Some (set_flags (set h r (Word (a * b mod 2 ^ bits_of wide))) no_flags).
Proof. intros Hr Hr' Ha Hb. cbn [step read_operand]. rewrite Hr, Hr', !low_part_id by done. cbn [mbind option_bind]. by rewrite size_bits. Qed.

(** A positive immediate is not changed by its sign extension. *)
Lemma signed_small k v N : 0 < k ≤ N → 0 ≤ v < 2 ^ (k - 1) → signed k v mod 2 ^ N = v.
Proof.
  intros Hk Hv. unfold signed. rewrite (proj2 (Z.ltb_lt _ _)) by lia. apply Z.mod_small.
  assert (2 ^ (k - 1) ≤ 2 ^ N) by (apply Z.pow_le_mono_r; lia). lia.
Qed.

Lemma step_alu_eax op wide v h a :
  rax h = Word a → fits (bits_of wide) a → 0 ≤ v < 2 ^ 31 → alu_writes op = true →
  step (AluEax op wide v) h =
  Some (set (set_flags h (alu_flags op (size wide) a v)) RAX (Word (alu_value op a v mod 2 ^ bits_of wide))).
Proof.
  intros Hr Ha Hv Hw. cbn [step]. rewrite Hr, low_part_id by done. cbn [mbind option_bind].
  rewrite signed_small by (done || by destruct wide). unfold alu_step. by rewrite Hw, size_bits.
Qed.

Lemma step_alu_imm8 op wide r v h a :
  get h r = Word a → fits (bits_of wide) a → 0 ≤ v < 2 ^ 7 →
  step (AluImm8 op wide (Direct r) v) h =
  Some (if alu_writes op
        then set (set_flags h (alu_flags op (size wide) a v)) r (Word (alu_value op a v mod 2 ^ bits_of wide))
        else set_flags h (alu_flags op (size wide) a v)).
Proof.
  intros Hr Ha Hv. cbn [step read_operand]. rewrite Hr, low_part_id by done. cbn [mbind option_bind].
  rewrite signed_small by (done || by destruct wide). unfold alu_step. rewrite size_bits. by destruct (alu_writes op).
Qed.

(** A mov of a register to a register. *)
Lemma step_mov r r' h : step (Store 8 (Direct r') r) h = Some (set h r' (get h r)).
Proof. done. Qed.

Lemma step_mov_imm wide r v h : fits (bits_of wide) v → step (MovImm wide r v) h = Some (set h r (Word v)).
Proof. intros Hv. cbn [step]. do 3 f_equal. rewrite size_bits. by apply Z.mod_small. Qed.

(** Storing a word in a named 64-bit member. *)
Lemma step_store f r h v :
  rcx h = CpuPtr → get h r = Word v → fits 64 v → member_at (offsetof f) = Some f → F.width f = 64 →
  step (Store 8 (Member (offsetof f)) r) h = Some (set_guest h ((guest h).[f := v])).
Proof.
  intros Hc Hr Hv Hf Hw. cbn [step]. rewrite Hr. cbn [low_part mbind option_bind write_operand]. rewrite Hc.
  unfold member_write. rewrite Hf. cbn [mbind option_bind]. rewrite Hw. change (8 * 8 =? 64) with true. cbv iota.
  cbn [mbind option_bind]. change (2 ^ (8 * 8)) with (2 ^ 64). by rewrite !(Z.mod_small _ _ Hv).
Qed.

Lemma step_store_instruction h v :
  rcx h = CpuPtr → fits 32 v →
  step (StoreImm (Member (offsetof instruction)) v) h = Some (set_guest h ((guest h).[instruction := v])).
Proof.
  intros Hc Hv. cbn [step write_operand]. rewrite Hc. unfold member_write.
  change (member_at (offsetof instruction)) with (Some instruction). cbn [mbind option_bind].
  change (8 * 4 =? F.width instruction) with true. cbv iota. cbn [mbind option_bind]. change (2 ^ (8 * 4)) with (2 ^ 32).
  by rewrite !(Z.mod_small _ _ Hv).
Qed.

(** *** The end of a block *)

Definition ends (code : list Z) (h : host) (st : Z) (g : vf_cpu) (m : list Z) : Prop :=
  ∃ a i j k f, run code h = Some (st, Build_host a CpuPtr (rdx h) (r8 h) i j k f g m).

(** The range conditions of an instruction. *)
Ltac insn_ok :=
  cbn [insn_ok operand_ok]; rewrite ?size_bits;
  repeat match goal with |- _ ∧ _ => split end;
  lazymatch goal with |- fits _ (offsetof _) => first [assumption | vm_compute; split; [discriminate|reflexivity]] | _ => idtac end;
  first [done | eassumption | lia | by auto | (unfold fits in *; lia)].

Lemma ends_goes code h code' h' st g m :
  (∀ r, run code' h' = Some r → run code h = Some r) → rdx h' = rdx h → r8 h' = r8 h → ends code' h' st g m → ends code h st g m.
Proof. intros Hg Hd H8 (a & i & j & k & f & H). exists a, i, j, k, f. rewrite Hd, H8 in H. by apply Hg. Qed.

Lemma ends_step i code h h' st g m :
  step i h = Some h' → insn_ok i → rdx h' = rdx h → r8 h' = r8 h → ends code h' st g m → ends (encode i ++ code) h st g m.
Proof. intros Hs Hi. apply ends_goes. intros r. by apply run_step. Qed.

(** The count and the status, and the return. *)
Definition return_insns (count st : Z) : list insn :=
  [AluImm32 ADD true (Member (offsetof retired)) count; MovImm false RAX st; Ret].

Lemma ends_return count st rest a d e i j k f g m :
  typed g → 0 ≤ count < 2 ^ 31 → fits 32 st →
  ends (enc (return_insns count st) ++ rest) (Build_host a CpuPtr d e i j k f g m) st (g.[retired := u64 (g retired + count)]) m.
Proof.
  intros Hg Hn Hs. pose proof (Hg retired) as Hr. cbn [F.width] in Hr. unfold return_insns. rewrite !enc_cons, <- !app_assoc.
  eapply ends_step; [|insn_ok|..].
  { cbn [step read_operand rcx guest]. rewrite (member_named retired) by reflexivity || done. cbn [mbind option_bind].
    rewrite signed_small by done. unfold alu_step. cbn [alu_writes write_operand set_flags rcx guest alu_value].
    unfold member_write. change (member_at (offsetof retired)) with (Some retired). cbn [mbind option_bind].
    change (8 * size true =? F.width retired) with true. cbv iota. cbn [mbind option_bind]. reflexivity. }
  1,2: reflexivity.
  host. eapply ends_step; [by apply step_mov_imm|insn_ok|reflexivity..|]. host. unfold ends. eexists _, _, _, _, _.
  erewrite run_ret by reflexivity. rewrite (Z.mod_small _ _ Hs). fields.
  change (2 ^ (8 * size true)) with (2 ^ 64). rewrite (Z.mod_small _ _ Hr), Z.mod_mod by done. reflexivity.
Qed.

Lemma ends_finish pc_ count st rest a d e i j k f g m :
  typed g → fits 64 pc_ → 0 ≤ count < 2 ^ 31 → fits 32 st →
  ends (enc (finish_insns pc_ count st) ++ rest) (Build_host a CpuPtr d e i j k f g m)
    st (g.[pc := pc_].[retired := u64 (g retired + count)]) m.
Proof.
  intros Hg Hp Hn Hs. change (finish_insns pc_ count st) with (MovImm true RAX pc_ :: Store 8 (Member (offsetof pc)) RAX :: return_insns count st).
  rewrite !enc_cons, <- !app_assoc. eapply ends_step; [by apply step_mov_imm|insn_ok|reflexivity..|]. host.
  eapply ends_step; [by apply (step_store pc)|insn_ok|reflexivity..|]. host.
  apply (ends_return count st rest _ d e _ _ _ _ (g.[pc := pc_])); [by apply typed_upd|done..].
Qed.

(** *** Running a list of instructions, piece by piece *)

Lemma leaves_save reg sp_ v d e i j k f g m :
  0 ≤ reg < 32 → fits 64 v →
  leaves (save_insns reg sp_) (Build_host (Word v) CpuPtr d e i j k f g m) (if sp_ then put_sp g reg v else put g reg v) m.
Proof. intros Hr Hv. eexists _, _, _, _, _. by apply steps_save. Qed.

Lemma leaves_eq l h g g' m : leaves l h g m → g = g' → leaves l h g' m.
Proof. by intros H <-. Qed.

Lemma leaves_nil a d e i j k f g m : leaves [] (Build_host a CpuPtr d e i j k f g m) g m.
Proof. by eexists _, _, _, _, _. Qed.

Lemma register_field w lo : 0 ≤ fld w lo 5 < 32.
Proof. apply (fld_fits w lo 5). lia. Qed.

Ltac in_range := first [done | lia | apply register_field].

(** [load] at the head of the list. *)
Ltac run_load :=
  rewrite <- ?app_assoc;
  match goal with |- leaves (load_insns ?r ?s ?w ++ _) (Build_host ?a CpuPtr ?d ?e ?i ?j ?k ?f ?g ?m) _ _ =>
    let E := fresh in
    destruct (steps_load r s w a d e i j k f g m) as [? E]; [in_range|];
    eapply leaves_app; [exact E|reflexivity..|]; clear E; unfold operand_value; host
  end.

(** [save] at the head of the list. *)
Ltac run_save :=
  rewrite <- ?app_assoc;
  eapply leaves_app; [apply steps_save; [in_range|]|reflexivity..|]; host.

(** Ranges of the words that occur. *)
Lemma bits_nonneg wide : 0 ≤ bits_of wide.
Proof. by destruct wide. Qed.
Lemma X_bits wide g r : fits (bits_of wide) (X g (bits_of wide) r).
Proof. apply X_fits, bits_nonneg. Qed.
Lemma XSP_bits wide g r : fits (bits_of wide) (XSP g (bits_of wide) r).
Proof. apply XSP_fits, bits_nonneg. Qed.
Lemma mod_bits wide v : fits (bits_of wide) (v mod 2 ^ bits_of wide).
Proof. apply (fits_wrap (bits_of wide)), bits_nonneg. Qed.
Lemma bits_64 wide v : fits (bits_of wide) v → fits 64 v.
Proof. apply fits_weaken. by destruct wide. Qed.

Create HintDb word.
#[export] Hint Resolve X_bits XSP_bits mod_bits : word.

(** A word of the width of the operation, or of 64 bits. *)
Ltac word_fits := first [assumption | solve [eauto 3 with word] | eapply bits_64; solve [eauto 3 with word]].

(** One instruction, by its lemma. *)
Tactic Notation "run_one" uconstr(lem) :=
  cbn [app]; eapply leaves_step; [eapply lem; first [reflexivity | word_fits | in_range | by left | by right]|reflexivity..|]; host.

(** ** Translations *)

(** The code goes on at [rest]. *)
Definition reaches (code rest : list Z) (h : host) (g : vf_cpu) (m : list Z) : Prop :=
  ∃ a i j k f, ∀ r, run rest (Build_host a CpuPtr (rdx h) (r8 h) i j k f g m) = Some r → run code h = Some r.

Definition simulates (l : list insn) (h : host) (n : Z) (o : outcome) : Prop :=
  ∀ rest,
  match o with
  | Next g m => reaches (enc l ++ rest) rest h g m
  | Exit st target k g m => ends (enc l ++ rest) h st (g.[pc := target].[retired := u64 (g retired + (n + k))]) m
  end.

(** The fields that the translation reads. *)
Definition regime_fields : list field := [current_el; sctlr; hcr_el2; scr_el3; guest_ram_base].

(** A host at the entry of a piece of code translated for [cpu].  Code that leaves memory
    to a provider runs without guest memory. *)
Record ready (provider : bool) (cpu : vf_cpu) (h : host) : Prop := {
  rd_rcx : rcx h = CpuPtr;
  rd_typed : typed (guest h);
  rd_regime : ∀ f, f ∈ regime_fields → guest h f = cpu f;
  rd_rdx : provider = false → rdx h = RamPtr;
  rd_r8 : provider = false → r8 h = Word (Z.of_nat (length (ram h)));
  rd_length : Z.of_nat (length (ram h)) < 2 ^ 64;
  rd_bytes : Forall (fits 8) (ram h);
}.

Definition exits (o : outcome) : bool := match o with Exit _ _ _ _ _ => true | Next _ _ => false end.

(** Code for [em] does on every host what [eff] says.  When the block ends with it, it
    ends with a return on every path. *)
Definition translates (provider : bool) (cpu : vf_cpu) (n : Z) (em : emission bool)
    (eff : vf_cpu → list Z → outcome) : Prop :=
  ∃ brk l, emits em brk l ∧ Forall insn_ok l ∧
    ∀ h, ready provider cpu h → simulates l h n (eff (guest h) (ram h)) ∧ (brk = true → exits (eff (guest h) (ram h)) = true).

Lemma simulates_straight l h n g m : Forall insn_ok l → leaves l h g m → simulates l h n (Next g m).
Proof.
  intros Hok (a & i & j & k & f & Hl) rest. exists a, i, j, k, f. intros r Hr. by eapply run_steps.
Qed.

Lemma load_ok reg sp_ wide : 0 ≤ reg < 32 → Forall insn_ok (load_insns reg sp_ wide).
Proof.
  intros Hr. unfold load_insns. destruct (reg =? 31), sp_; foralls; insn_ok.
Qed.

Lemma save_ok reg sp_ : 0 ≤ reg < 32 → Forall insn_ok (save_insns reg sp_).
Proof.
  intros Hr. unfold save_insns. destruct (reg =? 31), sp_; foralls; insn_ok.
Qed.

Lemma flags_ok subtract : Forall insn_ok (flag_insns subtract).
Proof. unfold flag_insns. destruct subtract; foralls; insn_ok. Qed.

Ltac list_ok :=
  repeat first [apply Forall_app_2 | apply load_ok; in_range | apply save_ok; in_range | apply flags_ok
    | apply Forall_cons_2; [insn_ok|] | apply Forall_nil_2
    | match goal with |- Forall _ (if ?b then _ else _) => destruct b eqn:? end].

(** Code without jumps. *)
Lemma translates_straight provider cpu n em l eff :
  emits em false l → Forall insn_ok l →
  (∀ d e a i j k f g m, ready provider cpu (Build_host a CpuPtr d e i j k f g m) →
     ∃ g' m', eff g m = Next g' m' ∧ leaves l (Build_host a CpuPtr d e i j k f g m) g' m') →
  translates provider cpu n em eff.
Proof.
  intros He Hok Hl. exists false, l. split_and!; [done..|]. intros h Hr. split; [|done].
  pose proof (rd_rcx _ _ _ Hr) as Hc. destruct h as [a c' d e i j k f g m]. cbn in Hc. subst c'.
  destruct (Hl d e a i j k f g m Hr) as (g' & m' & E & Hs). cbn [guest ram]. rewrite E. by apply simulates_straight.
Qed.

Lemma finish_ok pc_ count st : fits 64 pc_ → 0 ≤ count < 2 ^ 31 → fits 32 st → Forall insn_ok (finish_insns pc_ count st).
Proof. intros Hp Hn Hs. unfold finish_insns. foralls; insn_ok. Qed.

(** An instruction that ends the block. *)
Lemma translates_stop provider cpu w pc_ n st eff :
  fits 32 w → fits 64 pc_ → 0 ≤ n < 2 ^ 31 → fits 32 st →
  (∀ g m, eff g m = stopped w pc_ g m st) →
  translates provider cpu n (stop w pc_ n st) eff.
Proof.
  intros Hw Hp Hn Hs Heff. exists true, (StoreImm (Member (offsetof instruction)) w :: finish_insns pc_ n st). split_and!.
  - unfold stop. emitting.
  - apply Forall_cons_2; [insn_ok|by apply finish_ok].
  - intros h Hr. rewrite Heff. split; [|done]. intros rest. pose proof (rd_rcx _ _ _ Hr) as Hc. pose proof (rd_typed _ _ _ Hr) as Ht.
    destruct h as [a c' d e i j k f g m]. cbn in Hc, Ht. subst c'. cbn [stopped guest ram]. unfold stopped. rewrite Z.add_0_r.
    destruct (ends_finish pc_ n st rest a d e i j k f (g.[instruction := w]) m) as (a' & i' & j' & k' & f' & E); [by apply typed_upd|done..|].
    exists a', i', j', k', f'. rewrite enc_cons, <- app_assoc. eapply run_step; [insn_ok| |].
    { apply step_store_instruction; [reflexivity|exact Hw]. }
    host. exact E.
Qed.

Lemma translates_if provider cpu n (t t' : bool) em em' eff eff' :
  t = t' → translates provider cpu n em eff → translates provider cpu n em' eff' →
  translates provider cpu n (if t then em else em') (λ g m, if t' then eff g m else eff' g m).
Proof. intros <- H H'. by destruct t. Qed.

Lemma translates_ext provider cpu n em eff eff' :
  (∀ h, ready provider cpu h → eff (guest h) (ram h) = eff' (guest h) (ram h)) →
  translates provider cpu n em eff → translates provider cpu n em eff'.
Proof.
  intros He (brk & l & Hem & Hok & H). exists brk, l. split_and!; [done..|]. intros h Hr. rewrite <- He by done. by apply H.
Qed.

(** *** Words of the guest instruction *)

Lemma bits_fld w lo len : 0 ≤ lo → 0 ≤ len → bits w lo (Z.ones len) = fld w lo len.
Proof. apply fld_land. Qed.

Lemma flag_testbit w i : 0 ≤ i → flag w i = Z.testbit w i.
Proof.
  intros Hi. unfold flag. assert (bits w i 1 = fld w i 1) as -> by (apply (bits_fld w i 1); lia). unfold fld, nz. change (2 ^ 1) with 2.
  rewrite <- Z.shiftr_div_pow2, Zmod_odd, <- Z.testbit_odd by done. by destruct (Z.testbit w i).
Qed.

Lemma wide_is64 w : fits 32 w → nz (Z.shiftr w 31) = is64 w.
Proof. apply top_bit. Qed.

Lemma N_bits w : N w = bits_of (is64 w).
Proof. done. Qed.

End Codegen.
