(* ===== verification/HostArith.v ===== *)
(** The arithmetic of the host is the arithmetic of the guest: results and flags of
    additions, subtractions and logical operations, shifts, and the masks of the
    bitfield instructions. *)
From S2P Require Import Prelude.
From S2P Require Import Words.
From S2P Require Import BitField.
From S2P Require Import Cpu.
From S2P Require Import Insn.
From S2P Require Import LoadStore.
From S2P Require Import X86.
From S2P Require Import Translate.
From S2P Require Import A64.
From S2P Require Import Codegen.

Module HostArith.
Import X86.
Import Translate(low_mask).
Import A64.
Import Codegen.

(** ** Signed values *)

Lemma signed_range N v : 0 < N → fits N v → - 2 ^ (N - 1) ≤ signed N v < 2 ^ (N - 1).
Proof.
  intros HN Hv. unfold signed, fits in *. assert (2 ^ N = 2 * 2 ^ (N - 1)) as H2 by (rewrite <- Z.pow_succ_r by lia; f_equal; lia).
  destruct (Z.ltb_spec v (2 ^ (N - 1))); lia.
Qed.

Lemma signed_mod N v : 0 < N → - 2 ^ (N - 1) ≤ v < 2 ^ (N - 1) → signed N (v mod 2 ^ N) = v.
Proof.
  intros HN Hv. unfold signed. assert (2 ^ N = 2 * 2 ^ (N - 1)) as H2 by (rewrite <- Z.pow_succ_r by lia; f_equal; lia).
  destruct (Z_lt_le_dec v 0).
  - assert (v mod 2 ^ N = v + 2 ^ N) as -> by (symmetry; apply (Z.mod_unique _ _ (-1)); lia).
    rewrite (proj2 (Z.ltb_ge _ _)) by lia. lia.
  - rewrite Z.mod_small by lia. by rewrite (proj2 (Z.ltb_lt _ _)) by lia.
Qed.

Lemma mod_signed N v : 0 < N → fits N v → signed N v mod 2 ^ N = v.
Proof.
  intros HN Hv. unfold signed. destruct (_ <? _); [by apply Z.mod_small|].
  replace (v - 2 ^ N) with (v + -1 * 2 ^ N) by lia. rewrite Z_mod_plus_full. by apply Z.mod_small.
Qed.

Lemma signed_complement N v : 0 < N → fits N v → signed N (2 ^ N - 1 - v) = - signed N v - 1.
Proof.
  intros HN Hv. unfold signed, fits in *. assert (2 ^ N = 2 * 2 ^ (N - 1)) as H2 by (rewrite <- Z.pow_succ_r by lia; f_equal; lia).
  destruct (Z.ltb_spec v (2 ^ (N - 1))), (Z.ltb_spec (2 ^ N - 1 - v) (2 ^ (N - 1))); lia.
Qed.

Lemma top_testbit N v : 0 < N → fits N v → Z.testbit v (N - 1) = (2 ^ (N - 1) <=? v).
Proof.
  intros HN Hv. unfold fits in *. assert (2 ^ N = 2 * 2 ^ (N - 1)) as H2 by (rewrite <- Z.pow_succ_r by lia; f_equal; lia).
  rewrite Z.testbit_odd, Z.shiftr_div_pow2 by lia. destruct (Z.leb_spec (2 ^ (N - 1)) v).
  - assert (v / 2 ^ (N - 1) = 1) as ->; [|done]. symmetry. apply (Z.div_unique_pos _ _ _ (v - 2 ^ (N - 1))); lia.
  - by rewrite Z.div_small by lia.
Qed.

(** The sign extension of the code. *)
Lemma sext_signed n v : 0 < n ≤ 32 → fits n v → Insn.sext v n = signed n v.
Proof.
  intros Hn Hv. rewrite LoadStore.sext_value by done. unfold signed.
  by destruct (Z.leb_spec (2 ^ (n - 1)) v), (Z.ltb_spec v (2 ^ (n - 1))); try lia.
Qed.

(** ** Additions *)

Lemma bits_positive wide : 0 < bits_of wide.
Proof. by destruct wide. Qed.

(** The overflow test of the host, on the exact sum [s]. *)
Lemma overflow_spec N s : 0 < N →
  (s <? - 2 ^ (N - 1)) || (2 ^ (N - 1) <=? s) = negb (signed N (s mod 2 ^ N) =? s).
Proof.
  intros HN. pose proof (signed_range N (s mod 2 ^ N) HN (fits_wrap N s ltac:(lia))) as Hr.
  destruct (Z_le_gt_dec (- 2 ^ (N - 1)) s) as [H1|H1], (Z_lt_le_dec s (2 ^ (N - 1))) as [H2|H2]; try lia.
  rewrite signed_mod by lia. lia.
Qed.

Lemma alu_add_sub (subtract wide : bool) a b :
  fits (bits_of wide) a → fits (bits_of wide) b →
  let op := if subtract then SUB else ADD in
  let r := add_sub subtract (bits_of wide) a b in
  r.1 = alu_value op a b mod 2 ^ bits_of wide ∧
  ∃ cb, alu_flags op (size wide) a b =
    {| cf := Some cb; zf := Some (A64.z r.2); sf := Some (A64.n r.2); of_ := Some (A64.v r.2) |} ∧
    (if subtract then negb cb else cb) = A64.c r.2.
Proof.
  intros Ha Hb. pose proof (bits_positive wide) as HN. unfold alu_flags. rewrite size_bits. set (N := bits_of wide) in *.
  assert (∀ s, fits N (s mod 2 ^ N)) as Hm by (intros s; apply (fits_wrap N); lia).
  assert (0 < 2 ^ N) as Hp by (apply pow2_pos; lia).
  destruct subtract; cbn [add_sub add_with_carry fst snd A64.n A64.z A64.c A64.v alu_value]; unfold add_sub, add_with_carry;
    cbn [fst snd A64.n A64.z A64.c A64.v alu_value].
  - replace (a + (2 ^ N - 1 - b) + 1) with (a - b + 1 * 2 ^ N) by lia. rewrite Z_mod_plus_full. split; [done|].
    exists (a <? b). rewrite <- (top_testbit N) by auto. split.
    + do 2 f_equal. rewrite overflow_spec by done. f_equal. rewrite signed_complement by done.
      replace (signed N a + (- signed N b - 1) + 1) with (signed N a - signed N b) by lia. f_equal. f_equal.
      rewrite Zminus_mod, !mod_signed by done. done.
    + f_equal. unfold fits in *. destruct (Z.ltb_spec a b).
      * assert ((a - b) mod 2 ^ N = a - b + 2 ^ N) as -> by (symmetry; apply (Z.mod_unique _ _ (-1)); lia). lia.
      * rewrite Z.mod_small by lia. lia.
  - rewrite Z.add_0_r. split; [done|]. exists (2 ^ N <=? a + b). rewrite <- (top_testbit N) by auto. split.
    + do 2 f_equal. rewrite overflow_spec by done. f_equal. rewrite Z.add_0_r. f_equal. f_equal.
      rewrite Zplus_mod, !mod_signed by done. done.
    + unfold fits in *. destruct (Z.leb_spec (2 ^ N) (a + b)).
      * assert ((a + b) mod 2 ^ N = a + b - 2 ^ N) as -> by (symmetry; apply (Z.mod_unique _ _ 1); lia). lia.
      * rewrite Z.mod_small by lia. lia.
Qed.

(** ** Logical operations *)

Lemma alu_logic op wide a b :
  fits (bits_of wide) a → fits (bits_of wide) b → op = OR ∨ op = XOR ∨ op = AND ∨ op = TEST →
  let r := alu_value op a b in
  fits (bits_of wide) r ∧ r mod 2 ^ bits_of wide = r ∧
  alu_flags op (size wide) a b =
    {| cf := Some false; zf := Some (r =? 0); sf := Some (Z.testbit r (bits_of wide - 1)); of_ := Some false |}.
Proof.
  intros Ha Hb Hop r. pose proof (bits_positive wide) as HN.
  assert (fits (bits_of wide) r) as Hr.
  { subst r. destruct Hop as [-> | [-> | [-> | ->]]]; cbn [alu_value];
      [apply fits_lor|apply fits_lxor|apply fits_land_l|apply fits_land_l]; done || lia. }
  assert (r mod 2 ^ bits_of wide = r) as Hm by (by apply Z.mod_small). split_and!; [done..|].
  unfold alu_flags. rewrite size_bits. fold r. rewrite Hm, <- top_testbit by done.
  assert (0 < 2 ^ (bits_of wide - 1)) by (apply pow2_pos; lia).
  destruct Hop as [-> | [-> | [-> | ->]]]; do 2 f_equal; lia.
Qed.

(** ** Shifts *)

Definition op_of (kind : Z) : shift_op := if kind =? 0 then SHL else if kind =? 1 then SHR else if kind =? 2 then SAR else ROR.

Lemma rotate_sum N a k : 0 ≤ k < N → fits N a →
  Z.lor (Z.shiftr a k) (Z.shiftl a (N - k) mod 2 ^ N) = a / 2 ^ k + a mod 2 ^ k * 2 ^ (N - k).
Proof.
  intros Hk Ha. unfold fits in *. assert (2 ^ N = 2 ^ k * 2 ^ (N - k)) as HN by (rewrite <- Z.pow_add_r by lia; f_equal; lia).
  assert (0 < 2 ^ k) by (apply pow2_pos; lia). assert (0 < 2 ^ (N - k)) by (apply pow2_pos; lia).
  rewrite Z.shiftr_div_pow2, Z.shiftl_mul_pow2 by lia.
  assert (a * 2 ^ (N - k) mod 2 ^ N = a mod 2 ^ k * 2 ^ (N - k)) as -> by (rewrite HN; by rewrite Z.mul_mod_distr_r by lia).
  rewrite Z.lor_comm, lor_high_low; [lia|lia|]. split; [apply Z.div_pos; lia|]. apply Z.div_lt_upper_bound; lia.
Qed.

Lemma shift_spec kind wide a k :
  fits (bits_of wide) a → 0 ≤ k < bits_of wide →
  shift_value (op_of kind) (size wide) a k = shift_reg kind (bits_of wide) a k.
Proof.
  intros Ha Hk. unfold shift_value, op_of, shift_reg. rewrite size_bits, (Z.mod_small k) by done.
  destruct (kind =? 0); [done|]. destruct (kind =? 1); [done|]. destruct (kind =? 2); [done|]. by apply rotate_sum.
Qed.

Lemma shift_fits kind N a k : 0 ≤ k < N → fits N a → fits N (shift_reg kind N a k).
Proof.
  intros Hk Ha. assert (0 < 2 ^ k) by (apply pow2_pos; lia). unfold shift_reg.
  destruct (_ =? 0); [apply (fits_wrap N); lia|]. destruct (_ =? 1).
  { rewrite <- Z.shiftr_div_pow2 by lia. apply fits_shiftr; lia || done. }
  destruct (_ =? 2); [apply (fits_wrap N); lia|].
  rewrite <- rotate_sum by done. apply fits_lor; [lia|apply fits_shiftr; lia || done|apply (fits_wrap N); lia].
Qed.

(** Shifts that are given by their x86 operation. *)
Lemma shift_left wide a k : 0 ≤ k < bits_of wide → shift_value SHL (size wide) a k = a * 2 ^ k mod 2 ^ bits_of wide.
Proof. intros Hk. unfold shift_value. by rewrite size_bits, (Z.mod_small k) by done. Qed.
Lemma shift_right wide a k : 0 ≤ k < bits_of wide → shift_value SHR (size wide) a k = a / 2 ^ k.
Proof. intros Hk. unfold shift_value. by rewrite size_bits, (Z.mod_small k) by done. Qed.
Lemma shift_arith wide a k : 0 ≤ k < bits_of wide →
  shift_value SAR (size wide) a k = (signed (bits_of wide) a / 2 ^ k) mod 2 ^ bits_of wide.
Proof. intros Hk. unfold shift_value. by rewrite size_bits, (Z.mod_small k) by done. Qed.

(** ** Masks *)

Lemma low_mask_ones k : 0 < k ≤ 64 → low_mask k = Z.ones k.
Proof.
  intros Hk. unfold low_mask. destruct (Z.eqb_spec k 64) as [->|Hne]; [done|]. apply shl_one_pred. lia.
Qed.

(** The low [count] bits moved to the top, and down again. *)
Lemma extend_pair N k a sign :
  0 < k ≤ N → fits N a →
  (if sign : bool then signed N (a * 2 ^ (N - k) mod 2 ^ N) / 2 ^ (N - k) mod 2 ^ N
   else (a * 2 ^ (N - k) mod 2 ^ N) / 2 ^ (N - k))
  = (if sign then signed k (a mod 2 ^ k) else a mod 2 ^ k) mod 2 ^ N.
Proof.
  intros Hk Ha. assert (2 ^ N = 2 ^ k * 2 ^ (N - k)) as HN by (rewrite <- Z.pow_add_r by lia; f_equal; lia).
  assert (0 < 2 ^ k) by (apply pow2_pos; lia). assert (0 < 2 ^ (N - k)) by (apply pow2_pos; lia).
  assert (a * 2 ^ (N - k) mod 2 ^ N = a mod 2 ^ k * 2 ^ (N - k)) as -> by (rewrite HN; by rewrite Z.mul_mod_distr_r by lia).
  pose proof (Z.mod_pos_bound a (2 ^ k) ltac:(lia)) as Hb. set (u := a mod 2 ^ k) in *.
  destruct sign; [|rewrite Z.div_mul by lia; symmetry; apply Z.mod_small; nia].
  assert (signed N (u * 2 ^ (N - k)) = signed k u * 2 ^ (N - k)) as ->; [|by rewrite Z.div_mul by lia].
  unfold signed. assert (2 ^ (N - 1) = 2 ^ (k - 1) * 2 ^ (N - k)) as H1 by (rewrite <- Z.pow_add_r by lia; f_equal; lia).
  rewrite H1, HN. destruct (Z.ltb_spec u (2 ^ (k - 1))), (Z.ltb_spec (u * 2 ^ (N - k)) (2 ^ (k - 1) * 2 ^ (N - k))); nia.
Qed.

Lemma complement_low N m : 0 ≤ N ≤ 64 → fits N m → bnot 64 m mod 2 ^ N = bnot N m.
Proof.
  intros HN Hm. apply Z.bits_inj'. intros i Hi. change (bnot 64 m mod 2 ^ N) with (wrap N (bnot 64 m)).
  rewrite wrap_testbit, !bnot_testbit by lia. case_bool_decide; [|done]. by rewrite bool_decide_true by lia.
Qed.

Lemma complement_sub N m : 0 ≤ N → fits N m → 2 ^ N - 1 - m = bnot N m.
Proof.
  intros HN Hm. unfold bnot. assert (Z.lor (Z.ldiff (Z.ones N) m) m = Z.ldiff (Z.ones N) m + m) as H1.
  { apply lor_add. apply Z.bits_inj'. intros i Hi. rewrite Z.land_spec, Z.ldiff_spec, Z.bits_0. destruct (Z.testbit m i); by rewrite ?andb_false_r. }
  assert (Z.lor (Z.ldiff (Z.ones N) m) m = Z.ones N) as H2.
  { apply Z.bits_inj'. intros i Hi. rewrite Z.lor_spec, Z.ldiff_spec, ones_testbit by done. destruct (Z.ltb_spec i N).
    - by destruct (Z.testbit m i).
    - by rewrite (fits_testbit_high N m) by done. }
  rewrite H2 in H1. pose proof (Z.ones_equiv N). lia.
Qed.

End HostArith.
