(* ===== verification/TransAlu.v ===== *)
(** Translated data processing ([runtime/jit.c]): the code emitted for each class of
    instructions computes what the instruction does. *)
From S2P Require Import Prelude.
From S2P Require Import Words.
From S2P Require Import BitField.
From S2P Require Import Cpu.
From S2P Require Import Insn.
From S2P Require Import LoadStore.
From S2P Require Import X86.
From S2P Require Import Emit.
From S2P Require Import Translate.
From S2P Require Import A64.
From S2P Require Import Codegen.
From S2P Require Import HostArith.

Module TransAlu.
Import Cpu.
Import Cpu.F.
Import Insn.
Import LoadStore(mod_mod_pow).
Import X86.
Import Emit.
Import Translate.
Import A64.
Import Codegen.
Import HostArith.

(** ** Shared pieces *)

Lemma typed_put g r v : typed g → fits 64 v → typed (put g r v).
Proof. intros Hg Hv. unfold put. destruct (_ =? _); [done|]. by apply typed_upd. Qed.
Lemma typed_put_sp g r v : typed g → fits 64 v → typed (put_sp g r v).
Proof. intros Hg Hv. unfold put_sp. destruct (_ =? _); by apply typed_upd. Qed.

(** The end of an operation: its result, then its flags. *)
Lemma leaves_result (setflags subtract sp_ : bool) reg v d e i j k fl g m cb zb sb ob :
  typed g → 0 ≤ reg < 32 → fits 64 v →
  (setflags = true → fl = {| cf := Some cb; zf := Some zb; sf := Some sb; of_ := Some ob |}) →
  let g' := if sp_ then put_sp g reg v else put g reg v in
  leaves (save_insns reg sp_ ++ (if setflags then flag_insns subtract else []))
    (Build_host (Word v) CpuPtr d e i j k fl g m)
    (if setflags then put_nzcv g' (nzcv_value {| A64.n := sb; A64.z := zb; A64.c := if subtract then negb cb else cb; A64.v := ob |})
     else g') m.
Proof.
  intros Hg Hr Hv Hf g'. run_save; [done|]. destruct setflags; [|apply leaves_nil]. rewrite Hf by done.
  apply steps_flags. unfold g'. destruct sp_; [by apply typed_put_sp|by apply typed_put].
Qed.

Lemma step_shift_cl op wide h a s r :
  rcx h = Word s → get h r = Word a → fits (bits_of wide) a →
  step (ShiftCl op wide r) h = Some (set_flags (set h r (Word (shift_value op (size wide) a (s mod 2 ^ 8)))) no_flags).
Proof. intros Hs Hr Ha. cbn [step]. rewrite Hs, Hr, (low_part_id wide) by done. done. Qed.

Lemma step_mov32 r r' h v : get h r = Word v → step (Store 4 (Direct r') r) h = Some (set h r' (Word (v mod 2 ^ 32))).
Proof. intros Hv. cbn [step]. change (4 =? 8) with false. cbv iota. rewrite Hv. done. Qed.

(** A second operand wider than the operation. *)
Lemma step_alu_wide op wide r r' h a b :
  get h r = Word a → get h r' = Word b → fits (bits_of wide) a → alu_writes op = true → op ≠ XOR ∨ r ≠ r' →
  step (Alu op wide (Direct r) r') h =
  Some (set (set_flags h (alu_flags op (size wide) a (b mod 2 ^ bits_of wide))) r
         (Word (alu_value op a (b mod 2 ^ bits_of wide) mod 2 ^ bits_of wide))).
Proof.
  intros Hr Hr' Ha Hw Hop. cbn [step read_operand]. rewrite Hr, Hr', (low_part_id wide a) by done. cbn [low_part mbind option_bind].
  assert (zeroing op (Direct r) r' = false) as ->.
  { destruct op; try done. destruct Hop; [done|]. cbn. by destruct r, r'. }
  unfold alu_step. by rewrite Hw, size_bits.
Qed.

Lemma typed_host provider cpu d e a i j k f g m : ready provider cpu (Build_host a CpuPtr d e i j k f g m) → typed g.
Proof. apply (rd_typed provider cpu). Qed.

(** The fields of the code are the fields of the word. *)
Ltac fields_of_word :=
  rewrite ?land_bit_nz, ?flag_testbit by done;
  change 31 with (Z.ones 5); change 63 with (Z.ones 6); change 3 with (Z.ones 2); rewrite ?bits_fld by done;
  change (Z.ones 5) with 31; change (Z.ones 6) with 63; change (Z.ones 2) with 3.

Section Word.
Context (w : Z) (Hw : fits 32 w) (provider : bool) (cpu : vf_cpu) (n : Z).

Local Abbreviation wide := (is64 w).
Local Abbreviation rd := (fld w 0 5).
Local Abbreviation rn := (fld w 5 5).
Local Abbreviation rm := (fld w 16 5).

Ltac straight H := apply (translates_straight _ _ _ _ _ _ H); [list_ok|
  let d := fresh "d" in let e := fresh "e" in let a := fresh "a" in let i := fresh "i" in let j := fresh "j" in
  let k := fresh "k" in let f := fresh "f" in let g := fresh "g" in let m := fresh "m" in let Hr := fresh "Hr" in
  let Hg := fresh "Hg" in
  intros d e a i j k f g m Hr; pose proof (typed_host _ _ _ _ _ _ _ _ _ _ _ Hr) as Hg; eexists _, _; split; [reflexivity|]].

(** ** Multiplication *)

Definition multiply_insns : list insn :=
  load_insns rm false wide ++ [Store 8 (Direct R9) RAX] ++ load_insns rn false wide ++
  [Imul wide RAX (Direct R9); Store 8 (Direct R9) RAX] ++ load_insns (fld w 10 5) false wide ++
  [Alu (if Z.testbit w 15 then SUB else ADD) wide (Direct RAX) R9] ++ save_insns rd false.

Lemma emits_multiply : emits (emit_multiply w wide rd rn) false multiply_insns.
Proof.
  unfold emit_multiply, multiply_insns, width_prefix. fields_of_word. destruct wide, (Z.testbit w 15); emitting.
Qed.

Lemma translates_multiply : translates provider cpu n (emit_multiply w wide rd rn) (λ g m, multiply w g m).
Proof.
  straight emits_multiply. unfold multiply_insns.
  run_load. run_one step_mov. run_load. run_one step_imul. run_one step_mov. run_load.
  change (N w) with (bits_of wide). change (Rd w) with rd. change (Rn w) with rn. change (Rm w) with rm. change (Ra w) with (fld w 10 5).
  destruct (Z.testbit w 15); run_one step_alu; cbn [alu_value].
  - rewrite Zminus_mod_idemp_r. apply (leaves_save rd false); [in_range|word_fits].
  - rewrite Zplus_mod_idemp_r. apply (leaves_save rd false); [in_range|word_fits].
Qed.

(** ** Variable shifts *)

Definition variable_shift_insns : list insn :=
  load_insns rm false wide ++ [Store 8 (Direct R9) RAX] ++ load_insns rn false wide ++
  [Store 8 (Direct R10) RCX; Store 4 (Direct RCX) R9; ShiftCl (op_of (fld w 10 2)) wide RAX; Store 8 (Direct RCX) R10]
  ++ save_insns rd false.

Lemma emits_variable_shift : emits (emit_variable_shift w wide rd rn) false variable_shift_insns.
Proof.
  unfold emit_variable_shift, variable_shift_insns, shift_byte, op_of. fields_of_word.
  destruct wide, (fld w 10 2 =? 0), (fld w 10 2 =? 1), (fld w 10 2 =? 2); emitting.
Qed.

Lemma translates_variable_shift : translates provider cpu n (emit_variable_shift w wide rd rn) (λ g m, variable_shift w g m).
Proof.
  straight emits_variable_shift. unfold variable_shift_insns.
  change (N w) with (bits_of wide). change (Rd w) with rd. change (Rn w) with rn. change (Rm w) with rm.
  run_load. run_one step_mov. run_load. run_one step_mov. run_one step_mov32. run_one step_shift_cl. run_one step_mov.
  set (s := X g (bits_of wide) rm). assert (0 ≤ s mod bits_of wide < bits_of wide) as Hs by (apply Z.mod_pos_bound; by destruct wide).
  assert (shift_value (op_of (fld w 10 2)) (size wide) (X g (bits_of wide) rn) ((s mod 2 ^ 32) mod 2 ^ 8)
    = shift_reg (fld w 10 2) (bits_of wide) (X g (bits_of wide) rn) (s mod bits_of wide)) as ->.
  { rewrite <- shift_spec by (done || word_fits). unfold shift_value. rewrite size_bits.
    assert (((s mod 2 ^ 32) mod 2 ^ 8) mod bits_of wide = s mod bits_of wide) as ->; [|by rewrite Z.mod_mod by (by destruct wide)].
    rewrite (mod_mod_pow s 32 8) by lia. destruct wide; [apply (mod_mod_pow s 8 6)|apply (mod_mod_pow s 8 5)]; lia. }
  apply (leaves_save rd false); [in_range|]. eapply bits_64, shift_fits; [done|word_fits].
Qed.

Context (pc_ : Z) (Hpc : fits 64 pc_) (Hn : 0 ≤ n < 2 ^ 31).

Ltac names :=
  change (N w) with (bits_of wide); change (Rd w) with rd; change (Rn w) with rn; change (Rm w) with rm.

Lemma stops g m : undefined w pc_ g m = stopped w pc_ g m VF_UNDEFINED_INSTRUCTION.
Proof. done. Qed.

Lemma translates_undefined : translates provider cpu n (stop w pc_ n VF_UNDEFINED_INSTRUCTION) (λ g m, undefined w pc_ g m).
Proof. by apply translates_stop. Qed.

(** ** Bit fields *)

Local Abbreviation immr := (fld w 16 6).
Local Abbreviation imms := (fld w 10 6).

Lemma bitfield_guard :
  negb (bits w 22 1 =? b2z wide) || (negb wide && nz (Z.land (Z.lor immr imms) 32)) = negb (bitfield_ok w).
Proof.
  unfold bitfield_ok. assert ((bits w 22 1 =? b2z wide) = Bool.eqb (Z.testbit w 22) wide) as ->.
  { pose proof (flag_testbit w 22 ltac:(lia)) as Hf. unfold flag in Hf. rewrite <- Hf.
    assert (bits w 22 1 = fld w 22 1) as -> by (apply (bits_fld w 22 1); lia). pose proof (fld_fits w 22 1 ltac:(lia)) as Hb.
    unfold fits in Hb. assert (fld w 22 1 = 0 ∨ fld w 22 1 = 1) as [-> | ->] by lia; by destruct wide. }
  change 32 with (Z.shiftl 1 5). rewrite land_bit_nz, Z.lor_spec, !fld_testbit by lia. change (5 <? 6) with true.
  change (16 + 5) with 21. change (10 + 5) with 15. cbn [andb].
  by destruct (Bool.eqb _ _), wide, (Z.testbit w 21), (Z.testbit w 15).
Qed.

(** The fields of an accepted instruction. *)
Lemma bitfield_range : bitfield_ok w = true → 0 ≤ immr < bits_of wide ∧ 0 ≤ imms < bits_of wide.
Proof.
  intros Hok. pose proof (fld_fits w 16 6 ltac:(lia)) as Hr. pose proof (fld_fits w 10 6 ltac:(lia)) as Hs. unfold fits in Hr, Hs.
  unfold bitfield_ok in Hok. destruct wide; [by split|]. apply andb_true_iff in Hok as [_ Hok]. cbn [orb] in Hok.
  apply andb_true_iff in Hok as [H1%negb_true_iff H2%negb_true_iff].
  assert (∀ v, 0 ≤ v < 2 ^ 6 → Z.testbit v 5 = false → 0 ≤ v < 32) as Hb.
  { intros v Hv Ht. rewrite (top_testbit 6) in Ht by (done || lia). change (2 ^ (6 - 1)) with 32 in Ht. lia. }
  split; apply Hb; try done; rewrite fld_testbit by lia; done.
Qed.

(** [a >> lo & ones count] *)
Lemma field_of_shift a lo count : 0 ≤ lo → 0 ≤ count → Z.land (a / 2 ^ lo) (Z.ones count) = fld a lo count.
Proof. intros. by rewrite Z.land_ones. Qed.

Definition extract_insns : list insn :=
  let mask := Z.ones (if immr <=? imms then imms - immr + 1 else imms + 1) in
  load_insns rn false wide ++ (if (immr <=? imms) && nz immr then [Shift SHR wide RAX immr] else []) ++
  [MovImm true R9 mask; Alu AND wide (Direct RAX) R9] ++
  (if imms <? immr then [Shift SHL wide RAX (bits_of wide - immr)] else []) ++ save_insns rd false.

Lemma mask_size : bitfield_ok w = true → 0 < (if immr <=? imms then imms - immr + 1 else imms + 1) ≤ bits_of wide.
Proof. intros [H1 H2]%bitfield_range. destruct (Z.leb_spec immr imms); lia. Qed.

Lemma emits_extract : bitfield_ok w = true → emits (emit_bitfield_extract w wide rd rn pc_ n) false extract_insns.
Proof.
  intros Hok. destruct (bitfield_range Hok) as [Hr Hs]. pose proof (mask_size Hok) as Hm.
  unfold emit_bitfield_extract. fields_of_word. rewrite bitfield_guard, Hok. cbn [negb].
  change (if wide then 64 else 32) with (bits_of wide). rewrite low_mask_ones by (destruct wide; cbn in Hm; lia).
  assert (bits_of wide ≤ 64) by (by destruct wide).
  pose proof (emits_shift_imm wide 0xe8 immr SHR ltac:(unfold fits; lia) eq_refl) as E1.
  pose proof (λ H, emits_shift_imm wide 0xe0 (bits_of wide - immr) SHL H eq_refl) as E2.
  unfold extract_insns, width_prefix. destruct (Z.leb_spec immr imms), (Z.ltb_spec imms immr); try lia; cbn [andb].
  - destruct (nz immr), wide; (eapply emits_eq; [pieces; eassumption|bytes_eq]).
  - specialize (E2 ltac:(unfold fits; lia)). destruct wide; (eapply emits_eq; [pieces; eassumption|bytes_eq]).
Qed.

(** Straight-line code for an effect that was computed by cases. *)
Ltac straight_case H := apply (translates_straight _ _ _ _ _ _ H); [|
  let d := fresh "d" in let e := fresh "e" in let a := fresh "a" in let i := fresh "i" in let j := fresh "j" in
  let k := fresh "k" in let f := fresh "f" in let g := fresh "g" in let m := fresh "m" in let Hr := fresh "Hr" in
  let Hg := fresh "Hg" in
  intros d e a i j k f g m Hr; pose proof (typed_host _ _ _ _ _ _ _ _ _ _ _ Hr) as Hg; eexists _, _; split; [reflexivity|]].

(** A right shift that is left out when it is by zero. *)
Lemma leaves_shift_right (t : bool) amount l v d e i j k f g g' m :
  fits (bits_of wide) v → 0 ≤ amount < bits_of wide → (t = false → amount = 0) →
  (∀ f, leaves l (Build_host (Word (v / 2 ^ amount)) CpuPtr d e i j k f g m) g' m) →
  leaves ((if t then [X86.Shift SHR wide RAX amount] else []) ++ l) (Build_host (Word v) CpuPtr d e i j k f g m) g' m.
Proof.
  intros Hv Ha Ht Hl. destruct t.
  - cbn [app]. eapply leaves_step; [by eapply step_shift|reflexivity..|]. rewrite shift_right by done. host. apply Hl.
  - cbn [app]. specialize (Hl f). rewrite Ht, Z.pow_0_r, Z.div_1_r in Hl by done. exact Hl.
Qed.

Lemma leaves_shift_left (t : bool) amount l v d e i j k f g g' m :
  fits (bits_of wide) v → 0 ≤ amount < bits_of wide → (t = false → amount = 0) →
  (∀ f, leaves l (Build_host (Word (v * 2 ^ amount mod 2 ^ bits_of wide)) CpuPtr d e i j k f g m) g' m) →
  leaves ((if t then [X86.Shift SHL wide RAX amount] else []) ++ l) (Build_host (Word v) CpuPtr d e i j k f g m) g' m.
Proof.
  intros Hv Ha Ht Hl. destruct t.
  - cbn [app]. eapply leaves_step; [by eapply step_shift|reflexivity..|]. rewrite shift_left by done. host. apply Hl.
  - cbn [app]. specialize (Hl f). rewrite Ht, Z.pow_0_r, Z.mul_1_r, Z.mod_small in Hl by done. exact Hl.
Qed.

Lemma quotient_fits v amount : fits (bits_of wide) v → 0 ≤ amount → fits (bits_of wide) (v / 2 ^ amount).
Proof. intros Hv Ha. rewrite <- Z.shiftr_div_pow2 by done. apply fits_shiftr; [apply bits_nonneg|done..]. Qed.

Lemma ones_fits count : 0 < count ≤ bits_of wide → fits (bits_of wide) (Z.ones count).
Proof. intros Hc. apply (fits_weaken count); [lia|]. apply fits_ones. lia. Qed.

Lemma field_in_width a lo count : 0 < count ≤ bits_of wide → fits (bits_of wide) (fld a lo count).
Proof. intros Hc. apply (fits_weaken count); [lia|]. apply fld_fits. lia. Qed.

Lemma translates_extract : translates provider cpu n (emit_bitfield_extract w wide rd rn pc_ n) (λ g m, bitfield_extract w pc_ g m).
Proof.
  unfold bitfield_extract. destruct (bitfield_ok w) eqn:Hok.
  2: { unfold emit_bitfield_extract. fields_of_word. rewrite bitfield_guard, Hok. apply translates_undefined. }
  destruct (bitfield_range Hok) as [Hir His]. pose proof (mask_size Hok) as Hm. pose proof (ones_fits _ Hm) as Hones.
  straight_case (emits_extract Hok); unfold extract_insns.
  - pose proof (bits_64 _ _ Hones). list_ok.
  - names. run_load. set (a' := X g (bits_of wide) rn). pose proof (X_bits wide g rn : fits _ a') as Ha.
    destruct (Z.leb_spec immr imms) as [Hle|Hgt]; cbn [andb] in *.
    + apply (leaves_shift_right (nz immr)); [done..|by intros ?%nz_false|]. intros f'. pose proof (quotient_fits a' immr Ha ltac:(lia)) as Hq.
      run_one (step_mov_imm true).
      run_one step_alu. destruct (alu_logic AND wide (a' / 2 ^ immr) _ Hq Hones) as (Hf & -> & _); [by auto|].
      cbn [alu_value] in *. rewrite field_of_shift in * by lia. rewrite (proj2 (Z.ltb_ge _ _)) by lia. cbn [app].
      apply (leaves_save rd false); [in_range|]. by eapply bits_64.
    + cbn [app]. run_one (step_mov_imm true).
      run_one step_alu. destruct (alu_logic AND wide a' _ Ha Hones) as (Hf & -> & _); [by auto|].
      cbn [alu_value] in *. rewrite Z.land_ones in * by lia. rewrite (proj2 (Z.ltb_lt _ _)) by lia.
      apply (leaves_shift_left true); [done|lia|done|]. intros f'.
      assert (fld a' 0 (imms + 1) = a' mod 2 ^ (imms + 1)) as -> by (unfold fld; by rewrite Z.pow_0_r, Z.div_1_r).
      assert (fits (bits_of wide) (a' mod 2 ^ (imms + 1) * 2 ^ (bits_of wide - immr))) as Hp.
      { pose proof (fits_wrap (imms + 1) a' ltac:(lia)) as Hw'. unfold wrap, fits in Hw'.
        assert (2 ^ (imms + 1) * 2 ^ (bits_of wide - immr) ≤ 2 ^ bits_of wide).
        { rewrite <- Z.pow_add_r by lia. apply Z.pow_le_mono_r; lia. }
        assert (0 < 2 ^ (bits_of wide - immr)) by (apply pow2_pos; lia). unfold fits. nia. }
      rewrite (Z.mod_small (_ * _)) by done. apply (leaves_save rd false); [in_range|]. by eapply bits_64.
Qed.

Local Abbreviation insert_count := (if immr <=? imms then imms - immr + 1 else imms + 1).
Local Abbreviation insert_at := (if immr <=? imms then 0 else bits_of wide - immr).

Definition insert_insns : list insn :=
  load_insns rn false wide ++ (if (immr <=? imms) && nz immr then [Shift SHR wide RAX immr] else []) ++
  [MovImm true R9 (Z.ones insert_count); Alu AND wide (Direct RAX) R9] ++
  (if nz insert_at then [Shift SHL wide RAX insert_at] else []) ++
  [Store 8 (Direct R10) RAX] ++ load_insns rd false wide ++
  [MovImm true R9 (bnot 64 (Z.ones insert_count * 2 ^ insert_at)); Alu AND wide (Direct RAX) R9;
   Alu OR wide (Direct RAX) R10] ++ save_insns rd false.

Lemma insert_room : bitfield_ok w = true → 0 ≤ insert_at ∧ 0 < insert_count ∧ insert_at + insert_count ≤ bits_of wide.
Proof. intros [H1 H2]%bitfield_range. destruct (Z.leb_spec immr imms); lia. Qed.

Lemma ones_at count at_ : 0 ≤ at_ → 0 < count → at_ + count ≤ bits_of wide → fits (bits_of wide) (Z.ones count * 2 ^ at_).
Proof.
  intros Ha Hc Hb. pose proof (fits_ones count ltac:(lia)) as Ho. unfold fits in *. assert (0 < 2 ^ at_) by (apply pow2_pos; lia).
  assert (2 ^ count * 2 ^ at_ ≤ 2 ^ bits_of wide) by (rewrite <- Z.pow_add_r by lia; apply Z.pow_le_mono_r; lia). nia.
Qed.

Lemma emits_insert : bitfield_ok w = true → emits (emit_bitfield_insert w wide rd rn pc_ n) false insert_insns.
Proof.
  intros Hok. destruct (bitfield_range Hok) as [Hr Hs]. pose proof (mask_size Hok) as Hm. destruct (insert_room Hok) as (Hi1 & Hi2 & Hi3).
  unfold emit_bitfield_insert. fields_of_word. rewrite bitfield_guard, Hok. cbn [negb].
  change (if wide then 64 else 32) with (bits_of wide). rewrite low_mask_ones by (destruct wide; cbn in Hm; lia).
  assert (bits_of wide ≤ 64) by (by destruct wide).
  pose proof (ones_at _ _ Hi1 Hi2 Hi3) as Ho. apply bits_64 in Ho.
  assert (shl 64 (Z.ones insert_count) insert_at = Z.ones insert_count * 2 ^ insert_at) as ->.
  { unfold shl. rewrite Z.shiftl_mul_pow2 by done. by apply wrap_id. }
  pose proof (emits_shift_imm wide 0xe8 immr SHR ltac:(unfold fits; lia) eq_refl) as E1.
  pose proof (emits_shift_imm wide 0xe0 insert_at SHL ltac:(unfold fits; lia) eq_refl) as E2.
  unfold insert_insns, width_prefix.
  destruct ((immr <=? imms) && nz immr), (nz insert_at), wide; (eapply emits_eq; [pieces; eassumption|bytes_eq]).
Qed.

Lemma insert_value : bitfield_ok w = true → ∀ g m,
  bitfield_insert w pc_ g m =
  Next (put g rd (insert_bits (X g (bits_of wide) rd) insert_at insert_count
                    (fld (X g (bits_of wide) rn) (if immr <=? imms then immr else 0) insert_count))) m.
Proof. intros Hok g m. unfold bitfield_insert. rewrite Hok. names. by destruct (immr <=? imms). Qed.

Lemma translates_insert : translates provider cpu n (emit_bitfield_insert w wide rd rn pc_ n) (λ g m, bitfield_insert w pc_ g m).
Proof.
  destruct (bitfield_ok w) eqn:Hok.
  2: { unfold emit_bitfield_insert, bitfield_insert. fields_of_word. rewrite bitfield_guard, Hok. apply translates_undefined. }
  destruct (bitfield_range Hok) as [Hir His]. pose proof (mask_size Hok) as Hm. pose proof (ones_fits _ Hm) as Hones.
  destruct (insert_room Hok) as (Hi1 & Hi2 & Hi3). pose proof (ones_at _ _ Hi1 Hi2 Hi3) as Hsel.
  apply (translates_straight _ _ _ _ _ _ (emits_insert Hok)).
  { pose proof (bits_64 _ _ Hones). pose proof (fits_bnot 64 (Z.ones insert_count * 2 ^ insert_at) ltac:(lia)).
    unfold insert_insns. list_ok. }
  intros d e a i j k f g m Hr. pose proof (typed_host _ _ _ _ _ _ _ _ _ _ _ Hr) as Hg. eexists _, _. split; [by apply insert_value|].
  unfold insert_insns. run_load. set (s := X g (bits_of wide) rn). pose proof (X_bits wide g rn : fits _ s) as Hs.
  set (lo := if immr <=? imms then immr else 0).
  assert (0 ≤ lo < bits_of wide ∧ ((immr <=? imms) && nz immr = false → lo = 0)) as [Hlo Hlo0].
  { unfold lo, nz. split; [destruct (immr <=? imms); lia|]. intros [->|H%negb_false_iff]%andb_false_iff; [done|]. destruct (_ <=? _); lia. }
  assert ((if (immr <=? imms) && nz immr then [Shift SHR wide RAX immr] else []) =
          (if (immr <=? imms) && nz immr then [Shift SHR wide RAX lo] else [])) as ->.
  { destruct (_ && _) eqn:E; [|done]. unfold lo. apply andb_true_iff in E as [-> _]. done. }
  apply leaves_shift_right; [done..|]. intros f'. pose proof (quotient_fits s lo Hs ltac:(lia)) as Hq.
  run_one (step_mov_imm true). run_one step_alu.
  destruct (alu_logic AND wide (s / 2 ^ lo) _ Hq Hones) as (Hf & -> & _); [by auto|]. cbn [alu_value] in *.
  rewrite field_of_shift in * by lia. set (v := fld s lo insert_count) in *.
  apply leaves_shift_left; [done|lia|by intros ?%nz_false|]. intros f2.
  assert (fits insert_count v) as Hv by (apply fld_fits; lia).
  assert (fits (bits_of wide) (v * 2 ^ insert_at)) as Hvs.
  { assert (0 < 2 ^ insert_at) by (apply pow2_pos; lia). unfold fits in *.
    assert (2 ^ insert_count * 2 ^ insert_at ≤ 2 ^ bits_of wide) by (rewrite <- Z.pow_add_r by lia; apply Z.pow_le_mono_r; lia). nia. }
  rewrite (Z.mod_small (v * _)) by done. run_one step_mov. run_load. 
  pose proof (fits_bnot 64 (Z.ones insert_count * 2 ^ insert_at) ltac:(lia)) as Hb. run_one (step_mov_imm true).
  run_one step_alu_wide. cbn [alu_value]. rewrite complement_low by (done || by destruct wide).
  set (t := X g (bits_of wide) rd). pose proof (X_bits wide g rd : fits _ t) as Ht.
  pose proof (fits_bnot (bits_of wide) (Z.ones insert_count * 2 ^ insert_at) (bits_nonneg wide)) as Hb'.
  destruct (alu_logic AND wide t _ Ht Hb') as (Hand & Em & _); [by auto|]. cbn [alu_value] in *. rewrite Em.
  run_one step_alu. destruct (alu_logic OR wide _ _ Hand Hvs) as (Hor & Em' & _); [by auto|]. cbn [alu_value] in *. rewrite Em'.
  rewrite (insert_lor (bits_of wide)) in * by (done || lia).
  apply (leaves_save rd false); [in_range|]. by eapply bits_64.
Qed.

(** ** Logical operations *)

Definition logic_alu (op : Z) : alu := if op =? 1 then OR else if op =? 2 then XOR else AND.

Lemma logic_alu_value op a b : alu_value (logic_alu op) a b = logic op a b.
Proof. unfold logic_alu, logic. destruct (op =? 1); [done|]. by destruct (op =? 2). Qed.

Lemma logic_alu_cases op : logic_alu op = OR ∨ logic_alu op = XOR ∨ logic_alu op = AND ∨ logic_alu op = TEST.
Proof. unfold logic_alu. destruct (op =? 1); [auto|]. destruct (op =? 2); auto. Qed.

(** The operation on RAX and R9, its result and its flags. *)
Definition logic_end (op : Z) (sp_ : bool) : list insn :=
  [Alu (logic_alu op) wide (Direct RAX) R9] ++ save_insns rd (sp_ && negb (op =? 3)) ++
  (if op =? 3 then flag_insns false else []).

Lemma logical_exact g m op v sp_ : ∃ g', logical w g m op v sp_ = Next g' m.
Proof. unfold logical. destruct (op =? 3); by eexists. Qed.

Definition next_guest (o : outcome) : vf_cpu := match o with Next g _ => g | Exit _ _ _ g _ => g end.

Lemma leaves_logic op sp_ x y d e j k f g m :
  typed g → fits (bits_of wide) x → fits (bits_of wide) y →
  leaves (logic_end op sp_) (Build_host (Word x) CpuPtr d e (Word y) j k f g m)
    (next_guest (logical w g m op (logic op x y) sp_)) m.
Proof.
  intros Hg Hx Hy. unfold logic_end. cbn [app]. destruct (alu_logic (logic_alu op) wide x y Hx Hy (logic_alu_cases op)) as (Hf & Hm & Hfl).
  eapply leaves_step; [eapply step_alu; [reflexivity..|done|done| |by right]|reflexivity..|].
  { destruct (logic_alu_cases op) as [-> | [-> | [-> | H]]]; try done. unfold logic_alu in H. destruct (op =? 1); [done|]. by destruct (op =? 2). }
  host. rewrite Hm, Hfl, logic_alu_value in *. set (v := logic op x y) in *.
  eapply leaves_eq; [apply (leaves_result (op =? 3) false (sp_ && negb (op =? 3)) rd); [done|in_range|by eapply bits_64|intros _; reflexivity]|].
  cbn zeta. unfold logical. names. unfold logic_flags. destruct (op =? 3); cbn [negb next_guest]; [by rewrite andb_false_r|by rewrite andb_true_r].
Qed.

Lemma translates_next em l eff :
  emits em false l → Forall insn_ok l →
  (∀ d e a i j k f g m, ready provider cpu (Build_host a CpuPtr d e i j k f g m) → typed g →
     eff g m = Next (next_guest (eff g m)) m ∧
     leaves l (Build_host a CpuPtr d e i j k f g m) (next_guest (eff g m)) m) →
  translates provider cpu n em eff.
Proof.
  intros He Hl Hs. apply (translates_straight _ _ _ _ _ _ He Hl). intros d e a i j k f g m Hr.
  destruct (Hs d e a i j k f g m Hr (typed_host _ _ _ _ _ _ _ _ _ _ _ Hr)) as [H1 H2]. by eexists _, _.
Qed.

Local Abbreviation lop := (fld w 29 2).

Definition logical_immediate_insns (mask : Z) : list insn :=
  load_insns rn false wide ++ [MovImm true R9 mask] ++ logic_end lop true.

Lemma emits_logical_immediate mask : logical_mask w = Some mask →
  emits (emit_logical_immediate w wide rd rn pc_ n) false (logical_immediate_insns mask).
Proof.
  intros Hm. unfold emit_logical_immediate. rewrite Hm. unfold logical_immediate_insns, logic_end, logic_alu, logical_byte, width_prefix.
  fields_of_word. destruct (lop =? 3) eqn:E3, (lop =? 1) eqn:E1, (lop =? 2) eqn:E2, wide; try lia; cbn [andb negb]; emitting.
Qed.

Lemma translates_logical_immediate :
  translates provider cpu n (emit_logical_immediate w wide rd rn pc_ n) (λ g m, logical_immediate w pc_ g m).
Proof.
  unfold logical_immediate. destruct (logical_mask w) as [mask|] eqn:Hm.
  2: { unfold emit_logical_immediate. rewrite Hm. apply translates_undefined. }
  pose proof (logical_mask_fits w mask Hw Hm : fits (bits_of wide) mask) as Hfit. pose proof (bits_64 _ _ Hfit) as H64.
  apply (translates_next _ _ _ (emits_logical_immediate mask Hm)).
  { unfold logical_immediate_insns, logic_end. list_ok. }
  intros d e a i j k f g m Hr Hg. names. split; [by destruct (logical_exact g m lop (logic lop (X g (bits_of wide) rn) mask) true) as [? ->]|].
  unfold logical_immediate_insns. run_load. run_one (step_mov_imm true). cbn [app]. apply leaves_logic; [done|word_fits|done].
Qed.

(** A shift by the amount of the word, which is left out when it is zero. *)
Lemma shift_by_zero kind a : fits (bits_of wide) a → shift_reg kind (bits_of wide) a 0 = a.
Proof.
  intros Ha. unfold shift_reg. rewrite Z.pow_0_r, Z.mul_1_r, !Z.div_1_r, Z.mod_1_r, Z.mul_0_l, Z.add_0_r.
  rewrite mod_signed by (apply bits_positive || done). rewrite (Z.mod_small a) by done.
  by destruct (kind =? 0), (kind =? 1), (kind =? 2).
Qed.

Lemma leaves_shift kind amount l v d e i j k f g g' m :
  fits (bits_of wide) v → 0 ≤ amount < bits_of wide →
  (∀ f, leaves l (Build_host (Word (shift_reg kind (bits_of wide) v amount)) CpuPtr d e i j k f g m) g' m) →
  leaves ((if nz amount then [X86.Shift (op_of kind) wide RAX amount] else []) ++ l)
    (Build_host (Word v) CpuPtr d e i j k f g m) g' m.
Proof.
  intros Hv Ha Hl. destruct (nz amount) eqn:E; cbn [app].
  - eapply leaves_step; [by eapply step_shift|reflexivity..|]. rewrite shift_spec by done. host. apply Hl.
  - apply nz_false in E as ->. specialize (Hl f). by rewrite shift_by_zero in Hl.
Qed.

(** A bitwise NOT that is optional. *)
Lemma leaves_not (t : bool) l v d e i j k f g g' m :
  fits (bits_of wide) v →
  leaves l (Build_host (Word (if t then 2 ^ bits_of wide - 1 - v else v)) CpuPtr d e i j k f g m) g' m →
  leaves ((if t then [X86.Not wide RAX] else []) ++ l) (Build_host (Word v) CpuPtr d e i j k f g m) g' m.
Proof.
  intros Hv Hl. destruct t; cbn [app]; [|done]. eapply leaves_step; [by eapply step_not|reflexivity..|]. host. exact Hl.
Qed.

Lemma not_fits v : fits (bits_of wide) v → fits (bits_of wide) (2 ^ bits_of wide - 1 - v).
Proof. unfold fits. lia. Qed.

(** ** Logical, shifted register *)

Definition mov_alias : bool := (lop =? 1) && (rn =? 31) && (fld w 22 2 =? 0) && (imms =? 0).

Definition logical_shifted_insns : list insn :=
  load_insns rm false wide ++
  (if nz imms then [Shift (op_of (fld w 22 2)) wide RAX imms] else []) ++
  (if Z.testbit w 21 then [X86.Not wide RAX] else []) ++
  (if mov_alias then save_insns rd false
   else [Store 8 (Direct R9) RAX] ++ load_insns rn false wide ++ logic_end lop false).

Lemma emits_logical_shifted : (negb wide && (32 <=? imms)) = false →
  emits (emit_logical_shifted w wide rd rn pc_ n) false logical_shifted_insns.
Proof.
  intros Hk. unfold emit_logical_shifted. fields_of_word. rewrite Hk.
  pose proof (fld_fits w 10 6 ltac:(lia)) as Hs.
  assert (fits 8 imms) as H8 by (apply (fits_weaken 6); [lia|done]).
  pose proof (emits_shift_imm wide (shift_byte (fld w 22 2)) imms (op_of (fld w 22 2)) H8) as E1.
  assert (shift_byte (fld w 22 2) = match op_of (fld w 22 2) with SHL => 0xe0 | SHR => 0xe8 | SAR => 0xf8 | ROR => 0xc8 end) as Hb.
  { unfold shift_byte, op_of. by destruct (fld w 22 2 =? 0), (fld w 22 2 =? 1), (fld w 22 2 =? 2). }
  specialize (E1 Hb). unfold logical_shifted_insns.
  change ((lop =? 1) && (rn =? 31) && (fld w 22 2 =? 0) && (imms =? 0)) with mov_alias. unfold logic_end, logic_alu, logical_byte, width_prefix.
  destruct mov_alias eqn:Em; cbn [negb].
  - assert ((lop =? 3) = false) as -> by (unfold mov_alias in Em; lia).
    destruct (nz imms), (Z.testbit w 21), wide; (eapply emits_eq; [pieces; eassumption|bytes_eq]).
  - destruct (lop =? 3) eqn:E3, (lop =? 1) eqn:E1', (lop =? 2) eqn:E2'; try lia; cbn [andb negb];
      destruct (nz imms), (Z.testbit w 21), wide; (eapply emits_eq; [pieces; eassumption|bytes_eq]).
Qed.

Lemma amount_range : (negb wide && (32 <=? imms)) = false → 0 ≤ imms < bits_of wide.
Proof. intros H. pose proof (fld_fits w 10 6 ltac:(lia)) as Hs. unfold fits in Hs. destruct wide; cbn [negb andb bits_of] in *; lia. Qed.

Lemma translates_logical_shifted :
  translates provider cpu n (emit_logical_shifted w wide rd rn pc_ n) (λ g m, logical_shifted w pc_ g m).
Proof.
  unfold logical_shifted. destruct (negb wide && (32 <=? imms)) eqn:Hk.
  { unfold emit_logical_shifted. fields_of_word. rewrite Hk. apply translates_undefined. }
  pose proof (amount_range Hk) as Ha.
  apply (translates_next _ _ _ (emits_logical_shifted Hk)).
  { assert (fits 8 imms) by (apply (fits_weaken 6); [lia|apply fld_fits; lia]). unfold logical_shifted_insns, logic_end, op_of. list_ok. }
  intros d e a i j k f g m Hr Hg. names. set (s := shift_reg _ _ _ imms).
  split; [by destruct (logical_exact g m lop (logic lop (X g (bits_of wide) rn)
    (if Z.testbit w 21 then 2 ^ bits_of wide - 1 - s else s)) false) as [? ->]|].
  unfold logical_shifted_insns. run_load. pose proof (X_bits wide g rm) as Hm. rewrite <- ?app_assoc.
  apply leaves_shift; [done..|]. intros f'. fold s. assert (fits (bits_of wide) s) as Hs by (by apply shift_fits).
  apply leaves_not; [done|]. set (y := if Z.testbit w 21 then _ else _).
  assert (fits (bits_of wide) y) as Hy by (unfold y; destruct (Z.testbit w 21); [by apply not_fits|done]).
  destruct mov_alias eqn:Em.
  - unfold mov_alias in Em. assert (lop = 1 ∧ rn = 31) as [-> ->] by lia.
    eapply leaves_eq; [apply (leaves_save rd false); [in_range|by eapply bits_64]|]. done.
  - run_one step_mov. run_load. apply leaves_logic; [done|word_fits|done].
Qed.

(** ** Additions and subtractions *)

(** The end of an addition: the operation has set the flags of the host. *)
Lemma leaves_sum x y sp_ d e i j k g m :
  typed g → fits (bits_of wide) x → fits (bits_of wide) y →
  let op := if Z.testbit w 30 then SUB else ADD in
  leaves (save_insns rd (sp_ && negb (Z.testbit w 29)) ++ (if Z.testbit w 29 then flag_insns (Z.testbit w 30) else []))
    (Build_host (Word (alu_value op x y mod 2 ^ bits_of wide)) CpuPtr d e i j k (alu_flags op (size wide) x y) g m)
    (next_guest (arithmetic w g m x y sp_)) m.
Proof.
  intros Hg Hx Hy op. destruct (alu_add_sub (Z.testbit w 30) wide x y Hx Hy) as (Hr & cb & Hf & Hc). fold op in Hr, Hf. cbn zeta in *.
  rewrite Hf, <- Hr. eapply leaves_eq.
  { apply (leaves_result (Z.testbit w 29) (Z.testbit w 30) (sp_ && negb (Z.testbit w 29)) rd);
      [done|in_range|rewrite Hr; eapply bits_64, mod_bits|intros _; reflexivity]. }
  cbn zeta. unfold arithmetic. names. destruct (add_sub _ _ x y) as [r [nf zf_ cf_ vf]]. cbn [fst snd A64.n A64.z A64.c A64.v] in *.
  rewrite Hc. destruct (Z.testbit w 29); cbn [negb next_guest]; [by rewrite andb_false_r|by rewrite andb_true_r].
Qed.

Lemma arithmetic_next g m x y sp_ : arithmetic w g m x y sp_ = Next (next_guest (arithmetic w g m x y sp_)) m.
Proof. unfold arithmetic. destruct (add_sub _ _ _ _), (Z.testbit w 29); done. Qed.

Definition sum_alu : alu := if Z.testbit w 30 then SUB else ADD.
Lemma sum_writes : sum_alu ≠ TEST ∧ alu_writes sum_alu = true.
Proof. unfold sum_alu. by destruct (Z.testbit w 30). Qed.

Definition sum_end (sp_ : bool) : list insn :=
  save_insns rd (sp_ && negb (Z.testbit w 29)) ++ (if Z.testbit w 29 then flag_insns (Z.testbit w 30) else []).

Lemma leaves_arithmetic x y sp_ d e j k f g m :
  typed g → fits (bits_of wide) x → fits (bits_of wide) y →
  leaves (Alu sum_alu wide (Direct RAX) R9 :: sum_end sp_) (Build_host (Word x) CpuPtr d e (Word y) j k f g m)
    (next_guest (arithmetic w g m x y sp_)) m.
Proof.
  intros Hg Hx Hy. eapply leaves_step; [eapply step_alu; [reflexivity..|done|done|apply sum_writes|by right]|
    reflexivity..|]. host. by apply leaves_sum.
Qed.

Definition add_immediate_value : Z := fld w 10 12 * (if Z.testbit w 22 then 2 ^ 12 else 1).
Definition add_immediate_insns : list insn :=
  load_insns rn true wide ++ [AluEax sum_alu wide add_immediate_value] ++ sum_end true.

Lemma add_immediate_small : 0 ≤ add_immediate_value < 2 ^ 24.
Proof.
  pose proof (fld_fits w 10 12 ltac:(lia)) as H. unfold add_immediate_value, fits in *. destruct (Z.testbit w 22); lia.
Qed.

Lemma emits_add_immediate : emits (emit_add_immediate w wide rd rn) false add_immediate_insns.
Proof.
  unfold emit_add_immediate. fields_of_word. change 4095 with (Z.ones 12). rewrite bits_fld by done.
  assert (shl 32 (fld w 10 12) (if Z.testbit w 22 then 12 else 0) = add_immediate_value) as ->.
  { unfold shl. rewrite Z.shiftl_mul_pow2 by (by destruct (Z.testbit w 22)). unfold add_immediate_value.
    pose proof add_immediate_small as H. unfold add_immediate_value in H. destruct (Z.testbit w 22); apply (wrap_id 32); unfold fits; lia. }
  unfold add_immediate_insns, sum_end, sum_alu. destruct (Z.testbit w 30), (Z.testbit w 29), wide; cbn [andb negb]; emitting.
Qed.

Lemma small_fits v k : 0 ≤ v < 2 ^ k → 0 ≤ k ≤ 31 → fits (bits_of wide) v.
Proof. intros Hv Hk. apply (fits_weaken k); [|done]. destruct wide; cbn [bits_of]; lia. Qed.

Lemma translates_add_immediate : translates provider cpu n (emit_add_immediate w wide rd rn) (λ g m, add_immediate w g m).
Proof.
  pose proof add_immediate_small as Hv. pose proof (small_fits _ 24 Hv ltac:(lia)) as Hf.
  apply (translates_next _ _ _ emits_add_immediate); unfold add_immediate_insns.
  { assert (fits 32 add_immediate_value) by (unfold fits; lia). pose proof sum_writes as [? _]. unfold sum_end. list_ok. }
  intros d e a i j k f g m Hr Hg. unfold add_immediate. names. split; [apply arithmetic_next|]. run_load.
  cbn [app]. eapply leaves_step; [eapply step_alu_eax; [reflexivity|word_fits|lia|apply sum_writes]|reflexivity..|].
  host. apply leaves_sum; [done|word_fits|done].
Qed.

Definition add_shifted_insns : list insn :=
  load_insns rm false wide ++ (if nz imms then [Shift (op_of (fld w 22 2)) wide RAX imms] else []) ++
  [Store 8 (Direct R9) RAX] ++ load_insns rn false wide ++ Alu sum_alu wide (Direct RAX) R9 :: sum_end false.

Lemma emits_add_shifted : (fld w 22 2 =? 3) || (negb wide && (32 <=? imms)) = false →
  emits (emit_add_shifted w wide rd rn pc_ n) false add_shifted_insns.
Proof.
  intros Hk. unfold emit_add_shifted. fields_of_word. rewrite Hk. apply orb_false_iff in Hk as [H3 _].
  pose proof (fld_fits w 10 6 ltac:(lia)) as Hs. pose proof (fld_fits w 22 2 ltac:(lia)) as Hk.
  assert (fits 8 imms) as H8 by (apply (fits_weaken 6); [lia|done]).
  pose proof (emits_shift_imm wide (if fld w 22 2 =? 0 then 0xe0 else if fld w 22 2 =? 1 then 0xe8 else 0xf8) imms (op_of (fld w 22 2)) H8) as E1.
  specialize (E1 ltac:(unfold op_of; destruct (Z.eqb_spec (fld w 22 2) 0), (Z.eqb_spec (fld w 22 2) 1),
    (Z.eqb_spec (fld w 22 2) 2); try done; unfold fits in Hk; lia)).
  unfold add_shifted_insns, sum_end, sum_alu, width_prefix. cbn [andb].
  destruct (nz imms), (Z.testbit w 30), (Z.testbit w 29), wide; (eapply emits_eq; [pieces; eassumption|bytes_eq]).
Qed.

Lemma translates_add_shifted : translates provider cpu n (emit_add_shifted w wide rd rn pc_ n) (λ g m, add_shifted w pc_ g m).
Proof.
  unfold add_shifted. destruct ((fld w 22 2 =? 3) || (negb wide && (32 <=? imms))) eqn:Hk.
  { unfold emit_add_shifted. fields_of_word. rewrite Hk. apply translates_undefined. }
  pose proof (amount_range (proj2 (proj1 (orb_false_iff _ _) Hk))) as Ha.
  apply (translates_next _ _ _ (emits_add_shifted Hk)); unfold add_shifted_insns.
  { assert (fits 8 imms) by (apply (fits_weaken 6); [lia|apply fld_fits; lia]). unfold sum_end, op_of. list_ok. }
  intros d e a i j k f g m Hr Hg. names. split; [apply arithmetic_next|]. run_load. rewrite <- ?app_assoc.
  pose proof (X_bits wide g rm) as Hm. apply leaves_shift; [done..|]. intros f'.
  pose proof (shift_fits (fld w 22 2) _ _ imms Ha Hm) as Hs. run_one step_mov. run_load. apply leaves_arithmetic; [done|word_fits|done].
Qed.

(** *** Extended register *)

Local Abbreviation ext_count := (Z.min (bits_of wide) (8 * 2 ^ fld w 13 2)).
Local Abbreviation ext_shift := (fld w 10 3).

Lemma ext_range : 0 < ext_count ≤ bits_of wide.
Proof. pose proof (pow2_pos (fld w 13 2)) as Hp. pose proof (fld_fits w 13 2 ltac:(lia)) as Hf. unfold fits in Hf. destruct wide; cbn [bits_of]; lia. Qed.

Definition add_extended_insns : list insn :=
  load_insns rm false wide ++
  (if ext_count <? bits_of wide
   then [Shift SHL wide RAX (bits_of wide - ext_count); Shift (if Z.testbit w 15 then SAR else SHR) wide RAX (bits_of wide - ext_count)]
   else []) ++
  (if nz ext_shift then [Shift SHL wide RAX ext_shift] else []) ++
  [Store 8 (Direct R9) RAX] ++ load_insns rn true wide ++ Alu sum_alu wide (Direct RAX) R9 :: sum_end true.

(** The fields as the code computes them. *)
Lemma option_fields :
  Z.land (fld w 13 3) 3 = fld w 13 2 ∧ nz (Z.land (fld w 13 3) 4) = Z.testbit w 15.
Proof.
  split.
  - rewrite (land_ones_mod _ 2) by done. unfold fld. apply (mod_mod_pow _ 3 2); lia.
  - change 4 with (Z.shiftl 1 2). by rewrite land_bit_nz, fld_testbit by done.
Qed.

Lemma extend_count : (if (if wide then 64 else 32) <? shl 32 8 (fld w 13 2) then if wide then 64 else 32 else shl 32 8 (fld w 13 2)) = ext_count.
Proof.
  pose proof (fld_fits w 13 2 ltac:(lia)) as Hf. unfold fits in Hf. change (2 ^ 2) with 4 in Hf.
  assert (fld w 13 2 = 0 ∨ fld w 13 2 = 1 ∨ fld w 13 2 = 2 ∨ fld w 13 2 = 3) as [-> | [-> | [-> | ->]]] by lia; by destruct wide.
Qed.

Lemma emits_add_extended : (4 <? ext_shift) = false → emits (emit_add_extended w wide rd rn pc_ n) false add_extended_insns.
Proof.
  intros Hk. unfold emit_add_extended. fields_of_word. change 7 with (Z.ones 3). rewrite !bits_fld by done. rewrite Hk.
  destruct option_fields as [-> ->]. rewrite extend_count. change (if wide then 64 else 32) with (bits_of wide).
  pose proof ext_range as He. assert (bits_of wide ≤ 64) by (by destruct wide). pose proof (fld_fits w 10 3 ltac:(lia)) as Hs.
  assert (fits 8 ext_shift) as H8 by (apply (fits_weaken 3); [lia|done]).
  assert (fits 8 (bits_of wide - ext_count)) as Hc8 by (unfold fits; lia).
  pose proof (emits_shift_imm wide 0xe0 (bits_of wide - ext_count) SHL Hc8 eq_refl) as E1.
  pose proof (emits_shift_imm wide (if Z.testbit w 15 then 0xf8 else 0xe8) (bits_of wide - ext_count) (if Z.testbit w 15 then SAR else SHR) Hc8
    ltac:(by destruct (Z.testbit w 15))) as E2.
  pose proof (emits_shift_imm wide 0xe0 ext_shift SHL H8 eq_refl) as E3.
  unfold add_extended_insns, sum_end, sum_alu, width_prefix.
  destruct (ext_count <? bits_of wide), (nz ext_shift), (Z.testbit w 30), (Z.testbit w 29), wide; cbn [andb negb];
    (eapply emits_eq; [pieces; eassumption|bytes_eq]).
Qed.

Lemma leaves_extend a l d e i j k f g g' m :
  fits (bits_of wide) a →
  (∀ f, leaves l (Build_host (Word ((if Z.testbit w 15 then signed ext_count (a mod 2 ^ ext_count) else a mod 2 ^ ext_count) mod 2 ^ bits_of wide))
                    CpuPtr d e i j k f g m) g' m) →
  leaves ((if ext_count <? bits_of wide
           then [X86.Shift SHL wide RAX (bits_of wide - ext_count);
                 X86.Shift (if Z.testbit w 15 then SAR else SHR) wide RAX (bits_of wide - ext_count)]
           else []) ++ l) (Build_host (Word a) CpuPtr d e i j k f g m) g' m.
Proof.
  intros Ha Hl. pose proof ext_range as He. destruct (Z.ltb_spec ext_count (bits_of wide)) as [Hlt|Hge]; cbn [app].
  - eapply leaves_step; [by eapply step_shift|reflexivity..|]. rewrite shift_left by lia. host.
    eapply leaves_step; [eapply step_shift; [reflexivity|apply mod_bits]|reflexivity..|]. host.
    pose proof (extend_pair (bits_of wide) ext_count a (Z.testbit w 15) He Ha) as Hp. destruct (Z.testbit w 15).
    + rewrite shift_arith by lia. rewrite Hp. apply Hl.
    + rewrite shift_right by lia. rewrite Hp. apply Hl.
  - assert (ext_count = bits_of wide) as Hc by lia. specialize (Hl f). rewrite Hc, (Z.mod_small a) in Hl by done.
    assert ((if Z.testbit w 15 then signed (bits_of wide) a else a) mod 2 ^ bits_of wide = a) as Hs.
    { destruct (Z.testbit w 15); [apply mod_signed; [apply bits_positive|done]|by apply Z.mod_small]. }
    by rewrite Hs in Hl.
Qed.

Lemma translates_add_extended : translates provider cpu n (emit_add_extended w wide rd rn pc_ n) (λ g m, add_extended w pc_ g m).
Proof.
  unfold add_extended. destruct (4 <? ext_shift) eqn:Hk.
  { unfold emit_add_extended. fields_of_word. change 7 with (Z.ones 3). rewrite !bits_fld by done. rewrite Hk. apply translates_undefined. }
  apply (translates_next _ _ _ (emits_add_extended Hk)); unfold add_extended_insns.
  { unfold sum_end. list_ok. }
  intros d e a i j k f g m Hr Hg. names. split; [apply arithmetic_next|]. run_load. rewrite <- ?app_assoc.
  pose proof (X_bits wide g rm) as Hm. apply leaves_extend; [done|]. intros f'.
  pose proof (fld_fits w 10 3 ltac:(lia)) as Hs. unfold fits in Hs.
  assert (4 < bits_of wide) by (by destruct wide).
  apply leaves_shift_left; [apply mod_bits|lia|by intros ?%nz_false|]. intros f2.
  rewrite Zmult_mod_idemp_l. run_one step_mov. run_load. apply leaves_arithmetic; [done|word_fits|apply mod_bits].
Qed.

(** ** Moves and addresses *)

(** An immediate that goes to the destination. *)
Lemma translates_constant v eff :
  fits 64 v → (∀ g m, eff g m = Next (put g rd v) m) → translates provider cpu n (imm v;; save rd false;; mret false) eff.
Proof.
  intros Hv He. apply (translates_next _ ([MovImm true RAX v] ++ save_insns rd false)); [emitting|list_ok|].
  intros d e a i j k f g m Hr Hg. rewrite He. split; [done|]. run_one (step_mov_imm true). apply (leaves_save rd false); [in_range|done].
Qed.

Local Abbreviation half := (fld w 5 16).
Local Abbreviation half_at := (16 * fld w 21 2).

Definition keep_insns : list insn :=
  load_insns rd false wide ++
  [MovImm true R9 (bnot 64 (Z.ones 16 * 2 ^ half_at)); Alu AND true (Direct RAX) R9;
   MovImm true R9 (half * 2 ^ half_at); Alu OR true (Direct RAX) R9] ++ save_insns rd false.

Lemma half_range : 0 ≤ half_at ≤ 48 ∧ fits 16 half.
Proof. pose proof (fld_fits w 21 2 ltac:(lia)) as Hf. split; [unfold fits in Hf; lia|]. apply fld_fits. lia. Qed.

Lemma half_fits v : fits 16 v → half_at + 16 ≤ bits_of wide → fits (bits_of wide) (v * 2 ^ half_at).
Proof.
  intros Hv Hh. destruct half_range as [H0 _]. assert (0 < 2 ^ half_at) by (apply pow2_pos; lia).
  assert (2 ^ 16 * 2 ^ half_at ≤ 2 ^ bits_of wide) by (rewrite <- Z.pow_add_r by lia; apply Z.pow_le_mono_r; lia). unfold fits in *. nia.
Qed.

Lemma half_guard : negb wide && (32 <=? half_at) = false → half_at + 16 ≤ bits_of wide.
Proof.
  intros H. pose proof (fld_fits w 21 2 ltac:(lia)) as Hf. unfold fits in Hf. destruct wide; cbn [negb andb bits_of] in *; lia.
Qed.

(** The class of the word says which of the three moves it is. *)
Lemma move_kind :
  (Z.land w 0x7f800000 =? 0x52800000) || (Z.land w 0x7f800000 =? 0x72800000) || (Z.land w 0x7f800000 =? 0x12800000) = true →
  (Z.land w 0x7f800000 =? 0x72800000) = (fld w 29 2 =? 3) ∧ (Z.land w 0x7f800000 =? 0x12800000) = (fld w 29 2 =? 0).
Proof.
  assert (fld w 29 2 = fld (Z.land w 0x7f800000) 29 2) as ->.
  { rewrite <- !(fld_land _ 29 2) by done. rewrite Z.shiftr_land, <- Z.land_assoc. done. }
  intros H. apply orb_true_iff in H as [H|E%Z.eqb_eq]; [apply orb_true_iff in H as [E%Z.eqb_eq|E%Z.eqb_eq]|]; rewrite E; by vm_compute.
Qed.

Lemma emits_keep : half_at + 16 ≤ bits_of wide → (Z.land w 0x7f800000 =? 0x72800000) = true →
  emits (emit_move_wide w wide rd pc_ n) false keep_insns.
Proof.
  intros Hh Hk. destruct half_range as [H0 H16]. unfold emit_move_wide. fields_of_word. change 65535 with (Z.ones 16). rewrite bits_fld by done.
  rewrite Hk, (Z.mul_comm (fld w 21 2)).
  assert (negb wide && (32 <=? half_at) = false) as -> by (destruct wide; cbn [bits_of negb andb] in *; lia).
  assert (∀ v, fits 16 v → shl 64 v half_at = v * 2 ^ half_at) as Hshl.
  { intros v Hv. unfold shl. rewrite Z.shiftl_mul_pow2 by lia. apply (wrap_id 64). by eapply bits_64, half_fits. }
  rewrite !Hshl by (done || by apply fits_ones). unfold keep_insns. emitting.
Qed.

Lemma translates_move_wide :
  (Z.land w 0x7f800000 =? 0x52800000) || (Z.land w 0x7f800000 =? 0x72800000) || (Z.land w 0x7f800000 =? 0x12800000) = true →
  translates provider cpu n (emit_move_wide w wide rd pc_ n) (λ g m, move_wide w pc_ g m).
Proof.
  intros Hc. destruct (move_kind Hc) as [Hk Hn0]. destruct half_range as [H0 H16]. unfold move_wide.
  destruct (negb wide && (32 <=? half_at)) eqn:Hg.
  { unfold emit_move_wide. fields_of_word. rewrite (Z.mul_comm (fld w 21 2)), Hg. apply translates_undefined. }
  pose proof (half_guard Hg) as Hh. pose proof (half_fits _ H16 Hh) as Hv. pose proof (bits_64 _ _ Hv) as Hv64.
  rewrite <- Hk, <- Hn0. destruct (Z.land w 0x7f800000 =? 0x72800000) eqn:Ek.
  - apply (translates_next _ _ _ (emits_keep Hh Ek)); unfold keep_insns.
    { pose proof (fits_bnot 64 (Z.ones 16 * 2 ^ half_at) ltac:(lia)). list_ok. }
    intros d e a i j k f g m Hr Htg. names. split; [done|]. cbn [next_guest]. run_load.
    pose proof (fits_bnot 64 (Z.ones 16 * 2 ^ half_at) ltac:(lia)) as Hb. set (t := X g (bits_of wide) rd).
    pose proof (X_bits wide g rd : fits _ t) as Ht. apply bits_64 in Ht.
    run_one (step_mov_imm true). cbn [app]. eapply leaves_step; [eapply (step_alu AND true RAX R9); [reflexivity|reflexivity|done|done|done|by left]|reflexivity..|].
    host. destruct (alu_logic AND true t _ Ht Hb) as (Hand & Em & _); [by auto|]. cbn [alu_value] in *. rewrite Em.
    run_one (step_mov_imm true). cbn [app]. eapply leaves_step; [eapply (step_alu OR true RAX R9); [reflexivity|reflexivity|done|done|done|by left]|reflexivity..|].
    host. destruct (alu_logic OR true _ _ Hand Hv64) as (Hor & Em' & _); [by auto|]. cbn [alu_value] in *. rewrite Em'.
    change (bits_of true) with 64 in *. rewrite (insert_lor 64) in * by (done || lia).
    apply (leaves_save rd false); [in_range|done].
  - unfold emit_move_wide. fields_of_word. change 65535 with (Z.ones 16). rewrite bits_fld by done.
    rewrite (Z.mul_comm (fld w 21 2)), Hg, Ek.
    assert (shl 64 half half_at = half * 2 ^ half_at) as -> by (unfold shl; rewrite Z.shiftl_mul_pow2 by lia; by apply (wrap_id 64)).
    destruct (Z.land w 0x7f800000 =? 0x12800000).
    + assert ((if wide then bnot 64 (half * 2 ^ half_at) else u32 (bnot 64 (half * 2 ^ half_at))) = 2 ^ bits_of wide - 1 - half * 2 ^ half_at) as ->.
      { rewrite complement_sub by (apply bits_nonneg || done). destruct wide; [done|]. by apply (complement_low 32). }
      apply translates_constant; [by eapply bits_64, not_fits|done].
    + by apply translates_constant.
Qed.

Lemma translates_address : translates provider cpu n (emit_address w rd pc_) (λ g m, address w pc_ g m).
Proof.
  unfold emit_address. rewrite wide_is64 by done. change 3 with (Z.ones 2). change 0x7ffff with (Z.ones 19). rewrite !bits_fld by done.
  pose proof (fld_fits w 5 19 ltac:(lia)) as H19. pose proof (fld_fits w 29 2 ltac:(lia)) as H2.
  assert (Z.lor (shl 32 (fld w 5 19) 2) (fld w 29 2) = 4 * fld w 5 19 + fld w 29 2) as ->.
  { unfold shl. rewrite Z.shiftl_mul_pow2 by done. rewrite (wrap_id 32) by (unfold fits in *; lia). rewrite lor_high_low by done. lia. }
  set (v := 4 * fld w 5 19 + fld w 29 2). rewrite (sext_signed 21) by (done || (subst v; unfold fits in *; lia)).
  set (k := signed 21 v).
  assert ((if wide then u64 (Z.land pc_ (bnot 64 0xfff) + u64 (k * 4096)) else u64 (pc_ + u64 k))
    = (if wide then pc_ - pc_ mod 4096 + k * 4096 else pc_ + k) mod 2 ^ 64) as ->.
  { unfold u64, wrap. destruct wide; [|by rewrite Zplus_mod_idemp_r]. rewrite Zplus_mod_idemp_r. change 0xfff with (Z.ones 12).
    by rewrite land_bnot_ones by (done || lia). }
  apply translates_constant; [apply (fits_wrap 64); lia|]. done.
Qed.
End Word.
End TransAlu.
