(* ===== verification/Jumps.v ===== *)
(** Code with jumps: the emission of a displacement that is filled in later, and the
    runs of the host along the jumps. *)
From S2P Require Import Prelude.
From S2P Require Import Words.
From S2P Require Import BitField.
From S2P Require Import Cpu.
From S2P Require Import X86.
From S2P Require Import Emit.
From S2P Require Import Translate.
From S2P Require Import A64.
From S2P Require Import Codegen.

Module Jumps.
Import Cpu.
Import Cpu.F.
Import A64.
Import X86.
Import Emit.
Import Translate.
Import Codegen.

(** ** Sizes *)

Lemma bytes_app l l' : bytes_of (l ++ l') = bytes_of l + bytes_of l'.
Proof. unfold bytes_of. rewrite enc_app, length_app. lia. Qed.
Lemma bytes_cons i l : bytes_of (i :: l) = Z.of_nat (length (encode i)) + bytes_of l.
Proof. unfold bytes_of. rewrite enc_cons, length_app. lia. Qed.
Lemma bytes_nil : bytes_of [] = 0.
Proof. done. Qed.
Lemma jcc_length cc rel : length (encode (Jcc cc rel)) = 6%nat.
Proof. reflexivity. Qed.
Lemma jmp_length rel : length (encode (Jmp rel)) = 5%nat.
Proof. reflexivity. Qed.

(** Equal sizes, whatever the displacements. *)
Ltac same_bytes := repeat progress (rewrite ?bytes_app, ?bytes_cons, ?bytes_nil, ?jcc_length, ?jmp_length); lia.

(** A bound of the number of instructions. *)
Definition within (k : Z) (l : list insn) : Prop := Z.of_nat (length l) ≤ k.
Definition short : list insn → Prop := within (2 ^ 20).

Lemma short_bytes l : short l → bytes_of l < 2 ^ 31.
Proof. intros Hs. pose proof (bytes_of_le l). unfold short, within in Hs. lia. Qed.

Lemma within_app k k' l l' : within k l → within k' l' → within (k + k') (l ++ l').
Proof. unfold within. rewrite length_app. lia. Qed.
Lemma within_cons k i l : within k l → within (1 + k) (i :: l).
Proof. unfold within. cbn [length]. lia. Qed.
Lemma within_nil : within 0 [].
Proof. done. Qed.
Lemma within_if k k' (t : bool) l l' : within k l → within k' l' → within (Z.max k k') (if t then l else l').
Proof. unfold within. destruct t; lia. Qed.
Lemma load_within reg sp_ wide : within 1 (load_insns reg sp_ wide).
Proof. unfold load_insns, within. destruct (_ =? _), sp_; cbn [length]; lia. Qed.
Lemma save_within reg sp_ : within 1 (save_insns reg sp_).
Proof. unfold save_insns, within. destruct (_ =? _), sp_; cbn [length]; lia. Qed.
Lemma flags_within subtract : within 18 (flag_insns subtract).
Proof. done. Qed.
Lemma finish_within p k st : within 5 (finish_insns p k st).
Proof. done. Qed.

Create HintDb short.
#[export] Hint Resolve load_within save_within flags_within finish_within : short.

Ltac within_bound :=
  lazymatch goal with
  | |- within _ (_ ++ _) => eapply within_app; within_bound
  | |- within _ (_ :: _) => eapply within_cons; within_bound
  | |- within _ [] => apply within_nil
  | |- within _ (if _ then _ else _) => eapply within_if; within_bound
  | |- _ => solve [eauto with short]
  end.

Lemma within_le k k' l : within k l → k ≤ k' → within k' l.
Proof. unfold within. lia. Qed.
Ltac within_ok := eapply within_le; [within_bound|lia].

Lemma within_short k l : within k l → k ≤ 2 ^ 20 → short l.
Proof. unfold short, within. lia. Qed.

Ltac short_ok := eapply within_short; [within_bound|lia].

(** ** Emission *)

Definition appends {A} (m : emission A) (pre : list Z) (l : list insn) (a : A) (l' : list insn) : Prop :=
  assemble m (pre ++ enc l) = Some (a, pre ++ enc l').

Definition position (pre : list Z) (l : list insn) : Z := Z.of_nat (length (pre ++ enc l)).

Section Rules.
Context {A : Type} (pre : list Z) (a : A) (l' : list insn).

Lemma appends_emits (m : emission A) : (∀ pre, appends m pre [] a l') → emits m a l'.
Proof. intros H p. specialize (H p). unfold appends in H. cbn [enc flat_map] in H. by rewrite app_nil_r in H. Qed.

Lemma appends_ret l : l = l' → appends (mret a) pre l a l'.
Proof. by intros ->. Qed.

Lemma appends_mret {B} (x : B) (k : B → emission A) l : appends (k x) pre l a l' → appends (mret x ≫= k) pre l a l'.
Proof. done. Qed.

Lemma appends_seq {B} (m : emission B) (k : B → emission A) x l1 l :
  emits m x l1 → appends (k x) pre (l ++ l1) a l' → appends (m ≫= k) pre l a l'.
Proof.
  intros Hm Hk. unfold appends in *. rewrite assemble_bind, Hm. cbn [mbind option_bind]. by rewrite <- app_assoc, <- enc_app.
Qed.

Lemma appends_assoc {B C} (m : emission B) (f : B → emission C) (k : C → emission A) l :
  appends (m ≫= λ x, f x ≫= k) pre l a l' → appends ((m ≫= f) ≫= k) pre l a l'.
Proof.
  unfold appends. rewrite !assemble_bind. destruct (assemble m _) as [[x p]|]; [|done]. cbn [mbind option_bind].
  by rewrite assemble_bind.
Qed.

Lemma appends_here (k : Z → emission A) l : appends (k (position pre l)) pre l a l' → appends (here ≫= k) pre l a l'.
Proof. done. Qed.

Lemma slot_position l i : jumps i → slot pre l i = Z.of_nat (length (pre ++ enc l ++ jump_head i)).
Proof. done. Qed.

Lemma appends_jcc cc c (k : Z → emission A) l :
  cc = 0x80 + c → 0 ≤ c < 16 → appends (k (slot pre l (Jcc c 0))) pre (l ++ [Jcc c 0]) a l' → appends (jcc cc ≫= k) pre l a l'.
Proof.
  intros -> Hc Hk.
  assert (∀ l, assemble (jcc (0x80 + c)) l = Some (Z.of_nat (length (l ++ jump_head (Jcc c 0))), l ++ encode (Jcc c 0))) as He.
  { intros l0. unfold jcc. cbn [mbind emission_bind bind b assemble here]. rewrite (assemble_bind _ (emit32 0)), emits_32. cbn [mbind option_bind].
    cbn [mret emission_ret assemble encode jump_head]. change (u8 15) with 15.
    assert (u8 (128 + c) = 128 + c) as -> by (apply (wrap_id 8); unfold fits; lia). by rewrite <- !app_assoc. }
  unfold appends in *. rewrite assemble_bind, He. cbn [mbind option_bind]. rewrite enc_app in Hk. cbn [enc flat_map] in Hk. rewrite app_nil_r in Hk.
  rewrite <- !app_assoc. rewrite <- Hk. done.
Qed.

Lemma appends_jmp (k : Z → emission A) l :
  appends (k (slot pre l (Jmp 0))) pre (l ++ [Jmp 0]) a l' →
  appends (b 0xe9 ≫= λ _, here ≫= λ p, emit32 0 ≫= λ _, k p) pre l a l'.
Proof.
  intros Hk. unfold appends in *. cbn [mbind emission_bind bind b assemble here]. rewrite (assemble_bind _ (emit32 0)), emits_32.
  cbn [mbind option_bind]. rewrite enc_app in Hk. cbn [enc flat_map encode] in Hk. rewrite app_nil_r in Hk.
  change (u8 0xe9) with 0xe9. rewrite <- !app_assoc. rewrite <- Hk. done.
Qed.

Lemma appends_jmp_bind {B} (f : Z → emission B) (k : B → emission A) l :
  appends (f (slot pre l (Jmp 0)) ≫= k) pre (l ++ [Jmp 0]) a l' →
  appends ((b 0xe9 ≫= λ _, here ≫= λ p, emit32 0 ≫= λ _, f p) ≫= k) pre l a l'.
Proof.
  intros H. apply appends_assoc. cbn [mbind emission_bind]. apply (appends_jmp (λ p, bind k (f p))). exact H.
Qed.

(** Filling in the displacement of the jump [i] after [u] with the distance to the end of
    [mid].  The prefix may have been patched since. *)
Lemma appends_fix_to u u0 i mid tail_ t0 r (k : unit → emission A) l l1 :
  l = u ++ [i] ++ mid ++ tail_ → l1 = u ++ [with_rel i r] ++ mid ++ tail_ → jumps i →
  bytes_of u0 = bytes_of u → bytes_of t0 = bytes_of (u ++ [i] ++ mid) → short mid →
  appends (k tt) pre l1 a l' → r = bytes_of mid → appends (fix_to (slot pre u0 i) (position pre t0) ≫= k) pre l a l'.
Proof.
  intros -> -> Hi Hu Ht Hs Hk ->. unfold appends in *. rewrite assemble_bind. cbn [fix_to assemble].
  assert (slot pre u0 i = slot pre u i) as ->.
  { unfold slot. rewrite !length_app. unfold bytes_of in Hu. lia. }
  assert (position pre t0 = Z.of_nat (length (pre ++ enc (u ++ i :: mid)))) as ->.
  { unfold position. rewrite !length_app. unfold bytes_of in Ht. cbn [app] in Ht. lia. }
  pose proof (short_bytes _ Hs). cbn [app]. rewrite patch_jump by (done || lia). cbn [mbind option_bind]. exact Hk.
Qed.

Lemma appends_fix p (k : unit → emission A) l :
  appends (fix_to p (position pre l) ≫= k) pre l a l' → appends (fix_ p ≫= k) pre l a l'.
Proof. intros H. unfold fix_. by apply appends_assoc, appends_here. Qed.

(** Bytes that do not make an instruction yet. *)
Definition pending (m : emission A) (l : list insn) (bs : list Z) : Prop :=
  assemble m (pre ++ enc l ++ bs) = Some (a, pre ++ enc l').

Lemma pending_start m l : pending m l [] → appends m pre l a l'.
Proof. unfold pending, appends. by rewrite app_nil_r. Qed.

Lemma pending_piece {B} (m : emission B) (k : B → emission A) x bs' l bs :
  emits_bytes m x bs' → pending (k x) l (bs ++ bs') → pending (m ≫= k) l bs.
Proof. intros Hm Hk. unfold pending in *. rewrite assemble_bind, Hm. cbn [mbind option_bind]. by rewrite <- !app_assoc. Qed.

Lemma pending_assoc {B C} (m : emission B) (f : B → emission C) (k : C → emission A) l bs :
  pending (m ≫= λ x, f x ≫= k) l bs → pending ((m ≫= f) ≫= k) l bs.
Proof.
  unfold pending. rewrite !assemble_bind. destruct (assemble m _) as [[x p]|]; [|done]. cbn [mbind option_bind].
  by rewrite assemble_bind.
Qed.

Lemma pending_flush l1 m l bs : bs = enc l1 → appends m pre (l ++ l1) a l' → pending m l bs.
Proof. intros -> H. unfold appends, pending in *. by rewrite enc_app in H. Qed.
End Rules.

Lemma slot_nz pre u i : jumps i → nz (slot pre u i) = true.
Proof. intros Hi. apply nz_true. unfold slot. rewrite !length_app. destruct i; try done; cbn [jump_head length]; lia. Qed.

(** *** Automation *)

(** The emitted list is nested to the left, one chunk per segment. *)
Ltac depth l := lazymatch l with ?l0 ++ _ => let d := depth l0 in constr:(S d) | _ => constr:(O) end.
Ltac prefix l n := let d := depth l in lazymatch constr:((d, n)) with (?x, ?x) => l | _ => lazymatch l with ?l0 ++ _ => prefix l0 n end end.
Ltac chunks l n acc :=
  let d := depth l in
  lazymatch constr:((d, n)) with
  | (?x, ?x) => acc
  | _ => lazymatch l with ?l0 ++ ?c => let acc' := lazymatch acc with @nil _ => c | _ => constr:(c ++ acc) end in chunks l0 n acc' end
  end.
Ltac replaced l n i :=
  let d := depth l in
  lazymatch constr:((d, n)) with
  | (S ?x, ?x) => lazymatch l with ?l0 ++ _ => constr:(l0 ++ [i]) end
  | _ => lazymatch l with ?l0 ++ ?c => let l1 := replaced l0 n i in constr:(l1 ++ c) end
  end.

Ltac list_eq := repeat progress (rewrite <- ?app_assoc; cbn [app with_rel]); rewrite ?app_nil_r; reflexivity.

(** One displacement; what remains is the rest of the emission, and the distance. *)
Ltac fill :=
  lazymatch goal with |- appends (fix_to (slot ?pre ?u0 ?i) (position ?pre ?t0) ≫= ?k) ?pre ?l ?a ?l' =>
    let n := depth u0 in let m := depth t0 in
    let u := prefix l n in
    let t := prefix l m in
    let mid := chunks t (S n) (@nil insn) in
    let tail_ := chunks l m (@nil insn) in
    let r := fresh "r" in
    evar (r : Z);
    let r' := eval unfold r in r in
    let j := eval cbn [with_rel] in (with_rel i r') in
    let l1 := replaced l n j in
    clear r;
    apply (appends_fix_to pre a l' u u0 i mid tail_ t0 r' k l l1);
    [list_eq|list_eq|exact I|same_bytes|same_bytes|short_ok|cbv beta|]
  end.

(** A piece whose instructions are known. *)
Ltac known := match goal with H : emits ?m _ _ |- emits_bytes ?m' _ _ => constr_eq m m'; exact H end.

(** Emission without jumps, up to the next jump. *)
Ltac run_pieces :=
  apply pending_start;
  repeat lazymatch goal with
  | |- pending _ _ _ (jcc _ ≫= _) _ _ => fail
  | |- pending _ _ _ (condition_false _ ≫= _) _ _ => fail
  | |- pending _ _ _ (here ≫= _) _ _ => fail
  | |- pending _ _ _ (fix_ _ ≫= _) _ _ => fail
  | |- pending _ _ _ (fix_to _ _ ≫= _) _ _ => fail
  | |- pending _ _ _ (b 0xe9 ≫= _) _ _ => fail
  | |- pending _ _ _ ((if nz (slot _ _ _) then _ else _) ≫= _) _ _ => rewrite slot_nz by exact I; cbv iota
  | |- pending _ _ _ ((if nz 0 then _ else _) ≫= _) _ _ => change (nz 0) with false; cbv iota
  | |- pending _ _ _ (_ ≫= _) _ _ => first [eapply pending_piece; [solve [known | pieces]|cbv beta] | apply pending_assoc; cbv beta]
  end.

(** The pieces up to the next jump are the instructions [l]. *)
Ltac segment l := run_pieces; apply (pending_flush _ _ _ l); [try bytes_eq|].

(** ** Execution *)

(** The conditions of the jumps of the translator. *)
Lemma condition_zero f t : zf f = Some t → condition f 4 = Some t.
Proof. unfold condition. change (4 / 2) with 2. cbn. by intros ->. Qed.
Lemma condition_nonzero f t : zf f = Some t → condition f 5 = Some (negb t).
Proof. unfold condition. change (5 / 2) with 2. cbn. by intros ->. Qed.
Lemma condition_carry f t : cf f = Some t → condition f 2 = Some t.
Proof. unfold condition. change (2 / 2) with 1. cbn. by intros ->. Qed.
Lemma condition_no_carry f t : cf f = Some t → condition f 3 = Some (negb t).
Proof. unfold condition. change (3 / 2) with 1. cbn. by intros ->. Qed.
Lemma condition_above f c z : cf f = Some c → zf f = Some z → condition f 7 = Some (negb (c || z)).
Proof. unfold condition. change (7 / 2) with 3. cbn. by intros -> ->. Qed.

(** What a run does from a code to the code that follows. *)
Definition goes (code : list Z) (h : host) (code' : list Z) (h' : host) : Prop :=
  ∀ r, run code' h' = Some r → run code h = Some r.

Definition results (code rest : list Z) (h : host) (n : Z) (o : outcome) : Prop :=
  match o with
  | Next g m => reaches code rest h g m
  | Exit st target k g m => ends code h st (g.[pc := target].[retired := u64 (g retired + (n + k))]) m
  end.

Lemma results_goes code h code' h' rest n o :
  goes code h code' h' → rdx h' = rdx h → r8 h' = r8 h → results code' rest h' n o → results code rest h n o.
Proof.
  intros Hg Hd H8. destruct o as [g m|st t k g m]; cbn [results].
  - intros (a & i & j & l & f & H). exists a, i, j, l, f. rewrite Hd, H8 in H. intros r Hr. by apply Hg, H.
  - intros (a & i & j & l & f & H). exists a, i, j, l, f. rewrite Hd, H8 in H. by apply Hg.
Qed.

Lemma goes_steps l rest h h' : Forall insn_ok l → steps l h = Some h' → goes (enc l ++ rest) h rest h'.
Proof. intros Hl Hs r Hr. by eapply run_steps. Qed.

Lemma results_app l l' rest h h' n o :
  steps l h = Some h' → Forall insn_ok l → rdx h' = rdx h → r8 h' = r8 h →
  results (enc l' ++ rest) rest h' n o → results (enc (l ++ l') ++ rest) rest h n o.
Proof.
  intros Hs Hl Hd H8 Hr. eapply results_goes; [|exact Hd|exact H8|exact Hr].
  rewrite enc_app, <- app_assoc. by apply goes_steps.
Qed.

Lemma results_step i l rest h h' n o :
  step i h = Some h' → insn_ok i → rdx h' = rdx h → r8 h' = r8 h →
  results (enc l ++ rest) rest h' n o → results (enc (i :: l) ++ rest) rest h n o.
Proof. intros Hs Hi. apply (results_app [i]); [by cbn [steps]; rewrite Hs|by apply Forall_cons_2]. Qed.

Lemma results_jcc cc mid tail_ l rest h t n o :
  condition (fl h) cc = Some t → 0 ≤ cc < 16 → l = mid ++ tail_ → short mid →
  results (if t then enc tail_ ++ rest else enc l ++ rest) rest h n o →
  results (enc (Jcc cc (bytes_of mid) :: l) ++ rest) rest h n o.
Proof.
  intros Ht Hc -> Hs. apply results_goes; [|done..]. intros r Hr. rewrite enc_cons, enc_app, <- !app_assoc.
  eapply run_jcc; [done|by apply short_bytes|done|]. destruct t; [done|]. by rewrite enc_app, <- app_assoc in Hr.
Qed.

Lemma results_jmp mid tail_ l rest h n o :
  l = mid ++ tail_ → short mid → results (enc tail_ ++ rest) rest h n o →
  results (enc (Jmp (bytes_of mid) :: l) ++ rest) rest h n o.
Proof.
  intros -> Hs. apply results_goes; [|done..]. intros r Hr. rewrite enc_cons, enc_app, <- !app_assoc.
  apply run_jmp; [by apply short_bytes|done].
Qed.

Lemma results_leaves l rest h n g m : leaves l h g m → Forall insn_ok l → results (enc l ++ rest) rest h n (Next g m).
Proof. intros (a & i & j & k & f & Hs) Hl. exists a, i, j, k, f. intros r. by apply goes_steps. Qed.

Lemma results_leaves_app l l' rest a d e i j k f g m g' m' n o :
  leaves l (Build_host a CpuPtr d e i j k f g m) g' m' → Forall insn_ok l →
  (∀ a i j k f, results (enc l' ++ rest) rest (Build_host a CpuPtr d e i j k f g' m') n o) →
  results (enc (l ++ l') ++ rest) rest (Build_host a CpuPtr d e i j k f g m) n o.
Proof.
  intros (a' & i' & j' & k' & f' & Hs) Hl Hr. eapply results_app; [exact Hs|done|reflexivity..|]. apply Hr.
Qed.

Lemma results_here rest a d e i j k f g m n : results rest rest (Build_host a CpuPtr d e i j k f g m) n (Next g m).
Proof. by exists a, i, j, k, f. Qed.

Lemma results_finish pc_ count st l rest rest' a d e i j k f g m n r :
  typed g → fits 64 pc_ → 0 ≤ count < 2 ^ 31 → fits 32 st → count = n + r →
  results (enc (finish_insns pc_ count st ++ l) ++ rest) rest' (Build_host a CpuPtr d e i j k f g m) n (Exit st pc_ r g m).
Proof. intros Hg Hp Hn Hs ->. cbn [results]. rewrite enc_app, <- app_assoc. by apply ends_finish. Qed.

Lemma jcc_ok cc mid : 0 ≤ cc < 16 → short mid → insn_ok (Jcc cc (bytes_of mid)).
Proof. intros Hc Hs%short_bytes. split; [done|]. pose proof (bytes_of_le mid). unfold fits. lia. Qed.
Lemma jmp_ok mid : short mid → insn_ok (Jmp (bytes_of mid)).
Proof. intros Hs%short_bytes. pose proof (bytes_of_le mid). cbn [X86.insn_ok]. unfold fits. lia. Qed.

Create HintDb code.

(** The instructions of a code are in range. *)
Ltac code_ok :=
  lazymatch goal with
  | |- Forall _ (_ ++ _) => apply Forall_app_2; code_ok
  | |- Forall _ (Jcc _ (bytes_of _) :: _) => apply Forall_cons_2; [apply jcc_ok; [in_range || solve [auto with code]|short_ok]|code_ok]
  | |- Forall _ (Jmp (bytes_of _) :: _) => apply Forall_cons_2; [apply jmp_ok; short_ok|code_ok]
  | |- Forall _ (_ :: _) => apply Forall_cons_2; [insn_ok|code_ok]
  | |- Forall _ [] => apply Forall_nil_2
  | |- Forall _ (load_insns _ _ _) => apply load_ok; in_range
  | |- Forall _ (save_insns _ _) => apply save_ok; in_range
  | |- Forall _ (flag_insns _) => apply flags_ok
  | |- Forall _ (finish_insns _ _ _) => apply finish_ok; first [done | assumption | lia]
  | |- Forall _ (if ?t then _ else _) => destruct t eqn:?; code_ok
  | |- _ => first [assumption | solve [auto with code]]
  end.

(** *** Steps on hosts in the state of the convention *)

Ltac go_load :=
  rewrite <- ?app_assoc;
  lazymatch goal with |- results (enc (load_insns ?r ?s ?w ++ _) ++ _) _ (Build_host ?a CpuPtr ?d ?e ?i ?j ?k ?f ?g ?m) _ _ =>
    let E := fresh in
    destruct (steps_load r s w a d e i j k f g m) as [? E]; [in_range|];
    eapply results_app; [exact E|list_ok|reflexivity..|]; clear E; unfold operand_value; host
  end.

Ltac go_save :=
  rewrite <- ?app_assoc;
  eapply results_app; [apply steps_save; [in_range|]|list_ok|reflexivity..|]; host.

Tactic Notation "go_one" uconstr(lem) :=
  cbn [app];
  eapply results_step; [eapply lem; first [reflexivity | word_fits | in_range | by left | by right]|insn_ok|reflexivity..|]; host.

(** A translation whose parts are known. *)
Lemma translates_results provider cpu n em brk l eff :
  emits em brk l → Forall insn_ok l →
  (∀ d e a i j k f g m rest, ready provider cpu (Build_host a CpuPtr d e i j k f g m) →
     results (enc l ++ rest) rest (Build_host a CpuPtr d e i j k f g m) n (eff g m)) →
  (brk = true → ∀ g m, exits (eff g m) = true) →
  translates provider cpu n em eff.
Proof.
  intros He Hok Hr Hb. exists brk, l. split_and!; [done..|]. intros h Hh. pose proof (rd_rcx _ _ _ Hh) as Hc.
  destruct h as [a c' d e i j k f g m]. cbn [rcx] in Hc. subst c'. split; [|intros E; by apply Hb].
  intros rest. apply Hr. exact Hh.
Qed.

End Jumps.
