(* ===== verification/TransControl.v ===== *)
(** Translated control ([runtime/jit.c]): conditional selection and comparison, branches,
    the identification and thread registers. *)
From S2P Require Import Prelude.
From S2P Require Import Words.
From S2P Require Import BitField.
From S2P Require Import Cpu.
From S2P Require Import Insn.
From S2P Require Import X86.
From S2P Require Import Emit.
From S2P Require Import Translate.
From S2P Require Import A64.
From S2P Require Import Codegen.
From S2P Require Import HostArith.
From S2P Require Import TransAlu.
From S2P Require Import Jumps.

Module TransControl.
Import Cpu.
Import Cpu.F.
Import Insn.
Import X86.
Import Emit.
Import Translate.
Import A64.
Import Codegen.
Import HostArith.
Import TransAlu.
Import Jumps.

(** ** Conditions *)

(** The test of a condition below 14, and the condition of the jump to the false path. *)
Definition condition_tail (c : Z) : list insn :=
  let group := c / 2 in
  if group <? 4 then [AluImm8 AND false (Direct RAX) (default 0 (switch group [(0, 4); (1, 2); (2, 8); (3, 1)]))]
  else if group =? 4 then [AluImm8 AND false (Direct RAX) 6; AluImm8 CMP false (Direct RAX) 2]
  else [Store 4 (Direct R9) RAX; Shift SHR false R9 3; Alu XOR false (Direct RAX) R9;
        AluImm8 AND false (Direct RAX) (if group =? 5 then 1 else 5)].
Definition condition_insns (c : Z) : list insn :=
  [Load false RAX (Member (offsetof pstate)); Shift SHR false RAX 28] ++ condition_tail c.
Definition false_cc (c : Z) : Z := if xorb (8 <=? c) (Z.odd c) then 5 else 4.

Lemma appends_condition {A} (k : Z → emission A) c pre l a l' :
  0 ≤ c < 14 →
  appends (k (slot pre (l ++ condition_insns c) (Jcc (false_cc c) 0))) pre ((l ++ condition_insns c) ++ [Jcc (false_cc c) 0]) a l' →
  appends (condition_false c ≫= k) pre l a l'.
Proof.
  intros Hc Hk. unfold condition_false. rewrite (proj2 (Z.leb_gt 14 c)) by lia. rewrite Z.shiftr_div_pow2 by done.
  change (2 ^ 1) with 2. unfold condition_insns, condition_tail, false_cc in *.
  assert (nz (Z.land c 1) = Z.odd c) as Ho by (change 1 with (Z.shiftl 1 0); by rewrite land_bit_nz, Z.bit0_odd).
  assert ((8 <=? c) = negb (c / 2 <? 4)) as H8 by (destruct (Z.leb_spec 8 c), (Z.ltb_spec (c / 2) 4); dlia).
  rewrite H8 in Hk. rewrite Ho. assert (0 ≤ c / 2 < 7) as Hg by dlia. cbv zeta. generalize dependent (c / 2). intros q Hk _ Hq.
  assert (q = 0 ∨ q = 1 ∨ q = 2 ∨ q = 3 ∨ q = 4 ∨ q = 5 ∨ q = 6) as Hcases by lia.
  repeat destruct Hcases as [-> | Hcases]; [..|subst q]; destruct (Z.odd c);
    (run_pieces; eapply pending_flush; [|eapply appends_jcc; [| |exact Hk]; [reflexivity|done]]; bytes_eq).
Qed.

(** *** Its run *)

Lemma condition_tail_run c v d e i j k f g m :
  0 ≤ c < 14 → 0 ≤ v < 16 →
  ∃ a' i' j' k' f', steps (condition_tail c) (Build_host (Word v) CpuPtr d e i j k f g m) =
    Some (Build_host a' CpuPtr d e i' j' k' f' g m) ∧ condition f' (false_cc c) = Some (negb (condition_holds c (v * 2 ^ 28))).
Proof.
  intros Hc Hv.
  assert (c = 0 ∨ c = 1 ∨ c = 2 ∨ c = 3 ∨ c = 4 ∨ c = 5 ∨ c = 6 ∨ c = 7 ∨ c = 8 ∨ c = 9 ∨ c = 10 ∨ c = 11 ∨ c = 12 ∨ c = 13) as Cc by lia.
  assert (v = 0 ∨ v = 1 ∨ v = 2 ∨ v = 3 ∨ v = 4 ∨ v = 5 ∨ v = 6 ∨ v = 7 ∨ v = 8 ∨ v = 9 ∨ v = 10 ∨ v = 11 ∨ v = 12 ∨ v = 13 ∨ v = 14 ∨ v = 15)
    as Cv by lia.
  clear Hc Hv. repeat destruct Cc as [-> | Cc]; [..|subst c];
    (do 5 eexists; split; [reflexivity|]; repeat destruct Cv as [-> | Cv]; [..|subst v]; vm_compute; reflexivity).
Qed.

(** A condition depends on the four flags. *)
Lemma condition_flags c p : condition_holds c (fld p 28 4 * 2 ^ 28) = condition_holds c p.
Proof.
  assert (∀ i, 28 ≤ i < 32 → Z.testbit (fld p 28 4 * 2 ^ 28) i = Z.testbit p i) as Hb.
  { intros i Hi. rewrite mul_pow2_testbit, fld_testbit by lia. rewrite (proj2 (Z.leb_le _ _)), (proj2 (Z.ltb_lt _ _)) by lia.
    cbn [andb]. f_equal. lia. }
  unfold condition_holds. by rewrite !Hb by lia.
Qed.

Lemma condition_run c a d e i j k f g m :
  0 ≤ c < 14 →
  ∃ a' i' j' k' f', steps (condition_insns c) (Build_host a CpuPtr d e i j k f g m) =
    Some (Build_host a' CpuPtr d e i' j' k' f' g m) ∧ condition f' (false_cc c) = Some (negb (condition_holds c (g pstate))).
Proof.
  intros Hc. set (v := fld (g pstate) 28 4). assert (fits 4 v) as Hv by (apply fld_fits; lia).
  destruct (condition_tail_run c v d e i j k no_flags g m Hc Hv) as (a' & i' & j' & k' & f' & Hs & Hh).
  exists a', i', j', k', f'. unfold v in Hh. rewrite condition_flags in Hh. split; [|done]. unfold condition_insns. cbn [app].
  eapply steps_cons; [cbn [step read_operand rcx guest]; rewrite (member_named pstate) by done; reflexivity|]. host.
  change (8 * size false) with 32.
  eapply steps_cons; [apply (step_shift SHR false RAX); [reflexivity|apply (fits_wrap 32); lia]|]. host.
  rewrite (shift_right false) by done. change (g pstate mod 2 ^ 32 / 2 ^ 28) with (u32 (g pstate) / 2 ^ 28).
  assert (u32 (g pstate) / 2 ^ 28 = v) as ->; [|exact Hs]. unfold v, fld, u32, wrap.
  change (2 ^ 32) with (2 ^ 28 * 2 ^ 4). by rewrite Z.rem_mul_r, Z.add_comm, Z.mul_comm, Z.div_add_l, (Z.div_small (_ mod _)), Z.add_0_r by (done || by apply Z.mod_pos_bound).
Qed.

Lemma condition_ok c : 0 ≤ c < 14 → Forall insn_ok (condition_insns c).
Proof.
  intros Hc. unfold condition_insns, condition_tail. list_ok.
Qed.

Lemma false_cc_range c : 0 ≤ false_cc c < 16.
Proof. unfold false_cc. destruct (xorb _ _); lia. Qed.

#[local] Hint Resolve false_cc_range : code.

Lemma condition_within c : within 6 (condition_insns c).
Proof. unfold condition_insns, condition_tail. by destruct (c / 2 <? 4), (c / 2 =? 4). Qed.
#[local] Hint Resolve condition_within : short.

(** The test of a condition and the jump to the false path. *)
Lemma results_condition c mid tail_ l rest a d e i j k f g m n o :
  0 ≤ c < 14 → l = mid ++ tail_ → short mid →
  (∀ a i j k f, results (enc (if condition_holds c (g pstate) then l else tail_) ++ rest) rest (Build_host a CpuPtr d e i j k f g m) n o) →
  results (enc (condition_insns c ++ Jcc (false_cc c) (bytes_of mid) :: l) ++ rest) rest (Build_host a CpuPtr d e i j k f g m) n o.
Proof.
  intros Hc Hl Hs Hr. destruct (condition_run c a d e i j k f g m Hc) as (a' & i' & j' & k' & f' & Hst & Hcond).
  eapply results_app; [exact Hst|by apply condition_ok|reflexivity..|].
  eapply results_jcc; [exact Hcond|apply false_cc_range|exact Hl|done|]. specialize (Hr a' i' j' k' f').
  by destruct (condition_holds c (g pstate)).
Qed.

Section Word.
Context (w : Z) (Hw : fits 32 w) (provider : bool) (cpu : vf_cpu) (n : Z) (pc_ : Z) (Hpc : fits 64 pc_) (Hn : 0 ≤ n < 2 ^ 31 - 1).

Local Abbreviation wide := (is64 w).
Local Abbreviation rd := (fld w 0 5).
Local Abbreviation rn := (fld w 5 5).
Local Abbreviation rm := (fld w 16 5).

Ltac names :=
  change (N w) with (bits_of wide); change (Rd w) with rd; change (Rn w) with rn; change (Rm w) with rm.

(** ** Selection *)

Local Abbreviation cond := (fld w 12 4).

Definition other_insns : list insn :=
  load_insns rm false wide ++ (if Z.testbit w 30 then [X86.Not wide RAX] else []) ++
  (if Z.testbit w 10 then [AluImm8 ADD wide (Direct RAX) 1] else []).
Definition select_insns : list insn :=
  if 14 <=? cond then load_insns rn false wide ++ save_insns rd false
  else
    let this := load_insns rn false wide ++ [Jmp (bytes_of other_insns)] in
    condition_insns cond ++ Jcc (false_cc cond) (bytes_of this) :: this ++ other_insns ++ save_insns rd false.

Lemma cond_range : (14 <=? cond) = false → 0 ≤ cond < 14.
Proof. intros H. pose proof (fld_fits w 12 4 ltac:(lia)) as Hf. unfold fits in Hf. lia. Qed.

Lemma other_within : within 3 other_insns.
Proof. unfold other_insns. within_ok. Qed.
#[local] Hint Resolve other_within : short.

Lemma emits_select : emits (emit_select w wide rd rn) false select_insns.
Proof.
  unfold emit_select, select_insns. fields_of_word. change 15 with (Z.ones 4). rewrite bits_fld by done.
  destruct (14 <=? cond) eqn:Hc.
  { unfold condition_false. rewrite Hc. apply emits_ret_bind. cbv beta. change (nz 0) with false. cbv iota. emitting. }
  apply appends_emits. intros pre. apply appends_condition; [by apply cond_range|]. rewrite slot_nz by done.
  segment (load_insns rn false wide). apply appends_jmp_bind, appends_assoc, appends_fix.
  fill; [|shelve].
  segment other_insns; [unfold other_insns; destruct (Z.testbit w 30), (Z.testbit w 10), wide; bytes_eq|]. apply appends_fix.
  fill; [|shelve]. segment (save_insns rd false). apply appends_ret. list_eq.
  Unshelve. all: same_bytes.
Qed.

Lemma holds_always c p : 0 ≤ c < 16 → (14 <=? c) = true → condition_holds c p = true.
Proof. intros Hc H. assert (c = 14 ∨ c = 15) as [-> | ->] by lia; done. Qed.

Lemma other_ok : Forall insn_ok other_insns.
Proof. unfold other_insns. code_ok. Qed.
#[local] Hint Resolve other_ok : code.

Lemma select_ok : Forall insn_ok select_insns.
Proof.
  unfold select_insns. destruct (14 <=? cond) eqn:Hc; [code_ok|]. pose proof (condition_ok cond (cond_range Hc)). cbv zeta. code_ok.
Qed.

Lemma leaves_other d e a i j k f g m :
  typed g →
  let v := X g (bits_of wide) rm in
  let v := if Z.testbit w 30 then 2 ^ bits_of wide - 1 - v else v in
  leaves (other_insns ++ save_insns rd false) (Build_host a CpuPtr d e i j k f g m)
    (put g rd (if Z.testbit w 10 then (v + 1) mod 2 ^ bits_of wide else v)) m.
Proof.
  intros Hg v v'. unfold other_insns. run_load. rewrite <- ?app_assoc. pose proof (X_bits wide g rm : fits _ v) as Hv.
  apply leaves_not; [done|]. fold v'. assert (fits (bits_of wide) v') as Hv' by (unfold v'; destruct (Z.testbit w 30); [by apply not_fits|done]).
  destruct (Z.testbit w 10).
  - cbn [app]. eapply leaves_step; [eapply step_alu_imm8; [reflexivity|done|lia]|reflexivity..|]. cbn [alu_writes alu_value]. host.
    apply (leaves_save rd false); [in_range|]. eapply bits_64, mod_bits.
  - apply (leaves_save rd false); [in_range|]. by eapply bits_64.
Qed.

Lemma translates_select : translates provider cpu n (emit_select w wide rd rn) (λ g m, select w g m).
Proof.
  apply (translates_results _ _ _ _ _ _ _ emits_select select_ok); [|done]. intros d e a i j k f g m rest Hr.
  pose proof (typed_host _ _ _ _ _ _ _ _ _ _ _ Hr) as Hg. unfold select. names. unfold select_insns.
  destruct (14 <=? cond) eqn:Hc.
  { rewrite holds_always by (done || (apply fld_fits; lia)). apply results_leaves; [|code_ok].
    run_load. apply (leaves_save rd false); [in_range|word_fits]. }
  cbv zeta. eapply results_condition; [by apply cond_range|reflexivity|short_ok|]. intros a' i' j' k' f'.
  destruct (condition_holds cond (g pstate)).
  - go_load. cbn [app]. eapply results_jmp; [reflexivity|short_ok|]. apply results_leaves; [|code_ok]. apply (leaves_save rd false); [in_range|word_fits].
  - apply results_leaves; [by apply leaves_other|code_ok].
Qed.

(** ** Comparison *)

Definition compare_insns : list insn :=
  (if Z.testbit w 11 then [MovImm true RAX rm] else load_insns rm false wide) ++ [Store 8 (Direct R9) RAX] ++
  load_insns rn false wide ++ [Alu (if Z.testbit w 30 then SUB else ADD) wide (Direct RAX) R9] ++ flag_insns (Z.testbit w 30).
Definition given_insns : list insn :=
  [MovImm true RAX (fld w 0 4 * 2 ^ 28); MovImm true R9 (bnot 64 0xf0000000); Alu AND true (Member (offsetof pstate)) R9;
   Alu OR true (Member (offsetof pstate)) RAX].
Definition conditional_compare_insns : list insn :=
  if 14 <=? cond then compare_insns
  else
    let this := compare_insns ++ [Jmp (bytes_of given_insns)] in
    condition_insns cond ++ Jcc (false_cc cond) (bytes_of this) :: this ++ given_insns.

Lemma compare_within : within 23 compare_insns.
Proof. unfold compare_insns. within_ok. Qed.
Lemma given_within : within 4 given_insns.
Proof. done. Qed.
#[local] Hint Resolve compare_within given_within : short.

Lemma compare_ok : Forall insn_ok compare_insns.
Proof.
  unfold compare_insns. assert (fits 64 rm) by (apply (fits_weaken 5); [lia|apply fld_fits; lia]). code_ok.
Qed.
Lemma given_ok : Forall insn_ok given_insns.
Proof.
  pose proof (fld_fits w 0 4 ltac:(lia)) as Hf. assert (fits 64 (fld w 0 4 * 2 ^ 28)) by (unfold fits in *; lia).
  assert (fits 64 (bnot 64 0xf0000000)) by (by vm_compute). unfold given_insns. code_ok.
Qed.
#[local] Hint Resolve compare_ok given_ok : code.

Lemma conditional_compare_ok : Forall insn_ok conditional_compare_insns.
Proof.
  unfold conditional_compare_insns. destruct (14 <=? cond) eqn:Hc; [code_ok|].
  pose proof (condition_ok cond (cond_range Hc)). cbv zeta. code_ok.
Qed.

Lemma emits_conditional_compare : emits (emit_conditional_compare w wide rn) false conditional_compare_insns.
Proof.
  unfold emit_conditional_compare, conditional_compare_insns, width_prefix. rewrite land_bit_nz by done. fields_of_word.
  change 15 with (Z.ones 4). rewrite bits_fld by done.
  assert (shl 64 (Z.land w (Z.ones 4)) 28 = fld w 0 4 * 2 ^ 28) as ->.
  { assert (Z.land w (Z.ones 4) = fld w 0 4) as -> by (rewrite <- fld_land by done; by rewrite Z.shiftr_0_r).
    pose proof (fld_fits w 0 4 ltac:(lia)) as Hf. unfold shl. rewrite Z.shiftl_mul_pow2 by done. apply (wrap_id 64). unfold fits in *. lia. }
  destruct (14 <=? cond) eqn:Hc.
  { unfold condition_false. rewrite Hc. apply emits_ret_bind. cbv beta. change (nz 0) with false. cbv iota. unfold compare_insns.
    destruct (Z.testbit w 11), (Z.testbit w 30), wide; emitting. }
  apply appends_emits. intros pre. apply appends_condition; [by apply cond_range|]. rewrite slot_nz by done.
  segment compare_insns; [unfold compare_insns; destruct (Z.testbit w 11), (Z.testbit w 30), wide; bytes_eq|].
  apply appends_jmp_bind, appends_assoc, appends_fix. fill; [|shelve].
  segment given_insns. apply appends_fix. fill; [|shelve]. apply appends_ret. list_eq.
  Unshelve. all: same_bytes.
Qed.

Lemma leaves_compare d e a i j k f g m :
  typed g →
  leaves compare_insns (Build_host a CpuPtr d e i j k f g m)
    (put_nzcv g (nzcv_value (A64.add_sub (Z.testbit w 30) (bits_of wide) (X g (bits_of wide) rn)
                               (if Z.testbit w 11 then rm else X g (bits_of wide) rm)).2)) m.
Proof.
  intros Hg. unfold compare_insns. set (y := if Z.testbit w 11 then rm else _).
  assert (fits (bits_of wide) y) as Hy.
  { unfold y. destruct (Z.testbit w 11); [|apply X_bits]. pose proof (fld_fits w 16 5 ltac:(lia)) as Hf.
    apply (fits_weaken 5); [|done]. destruct wide; cbn [bits_of]; lia. }
  assert (∃ f', steps (if Z.testbit w 11 then [MovImm true RAX rm] else load_insns rm false wide) (Build_host a CpuPtr d e i j k f g m)
    = Some (Build_host (Word y) CpuPtr d e i j k f' g m)) as [f' Hs].
  { unfold y in *. destruct (Z.testbit w 11); [|by apply steps_load; in_range]. eexists.
    eapply steps_cons; [apply step_mov_imm; change (bits_of true) with 64; by eapply bits_64|reflexivity]. }
  eapply leaves_app; [exact Hs|reflexivity..|]. run_one step_mov. run_load. set (x := X g (bits_of wide) rn).
  pose proof (X_bits wide g rn : fits _ x) as Hx.
  destruct (alu_add_sub (Z.testbit w 30) wide x y Hx Hy) as (_ & cb & Hf & Hc). cbn zeta in *.
  cbn [app]. eapply leaves_step; [eapply step_alu; [reflexivity..|done|done|by destruct (Z.testbit w 30)|by right]|reflexivity..|].
  host. rewrite Hf. eapply leaves_eq; [by apply steps_flags|]. rewrite Hc. by destruct (A64.add_sub _ _ _ _) as [? []].
Qed.

Lemma leaves_given d e a i j k f g m :
  typed g → leaves given_insns (Build_host a CpuPtr d e i j k f g m) (put_nzcv g (fld w 0 4)) m.
Proof.
  intros Hg. pose proof (fld_fits w 0 4 ltac:(lia)) as Hf. unfold given_insns.
  eapply leaves_step; [apply step_mov_imm; change (bits_of true) with 64; unfold fits in *; lia|reflexivity..|]. host.
  by apply steps_put_nzcv.
Qed.

Lemma translates_conditional_compare :
  translates provider cpu n (emit_conditional_compare w wide rn) (λ g m, conditional_compare w g m).
Proof.
  apply (translates_results _ _ _ _ _ _ _ emits_conditional_compare conditional_compare_ok); [|done]. intros d e a i j k f g m rest Hr.
  pose proof (typed_host _ _ _ _ _ _ _ _ _ _ _ Hr) as Hg. unfold conditional_compare. names. unfold conditional_compare_insns.
  destruct (14 <=? cond) eqn:Hc.
  { rewrite holds_always by (done || (apply fld_fits; lia)). apply results_leaves; [by apply leaves_compare|code_ok]. }
  cbv zeta. eapply results_condition; [by apply cond_range|reflexivity|short_ok|]. intros a' i' j' k' f'.
  destruct (condition_holds cond (g pstate)).
  - rewrite <- app_assoc. eapply results_leaves_app; [by apply leaves_compare|code_ok|]. intros. cbn [app].
    eapply results_jmp; [by rewrite app_nil_r|short_ok|]. apply results_here.
  - apply results_leaves; [by apply leaves_given|code_ok].
Qed.

(** ** Identification registers *)

Definition trap_insns : list insn := StoreImm (Member (offsetof instruction)) w :: finish_insns pc_ n VF_SYSTEM_REGISTER_TRAP.
Definition control_insns : list insn :=
  [Load true RAX (Member (offsetof hcr_el2)); AluLoad OR true RAX (Member (offsetof scr_el3)); Jcc 4 (bytes_of trap_insns)].
Definition identification_insns (v : Z) : list insn :=
  AluImm8 CMP false (Member (offsetof current_el)) VF_EL1 :: Jcc 5 (bytes_of control_insns) :: control_insns ++
  trap_insns ++ MovImm true RAX v :: save_insns rd false.

Definition identity (key : Z) : Z := if key =? 0x4038 then 0x0f100005 else if key =? 0x4020 then 0x00ff0011 else 0.

Lemma identity_fits key : fits 64 (identity key).
Proof. unfold identity. destruct (key =? 0x4038), (key =? 0x4020); done. Qed.

Lemma trap_within : within 6 trap_insns.
Proof. done. Qed.
Lemma control_within : within 3 control_insns.
Proof. done. Qed.
#[local] Hint Resolve trap_within control_within : short.

Lemma trap_ok : Forall insn_ok trap_insns.
Proof. unfold trap_insns. apply Forall_cons_2; [insn_ok|apply finish_ok; done || lia]. Qed.
#[local] Hint Resolve trap_ok : code.
Lemma control_ok : Forall insn_ok control_insns.
Proof. unfold control_insns. apply Forall_cons_2; [insn_ok|apply Forall_cons_2; [insn_ok|code_ok]]. Qed.
#[local] Hint Resolve control_ok : code.
Lemma identification_ok v : fits 64 v → Forall insn_ok (identification_insns v).
Proof. intros Hv. unfold identification_insns. code_ok. Qed.

(** The word without its register. *)
Lemma identification_word : Z.land w (bnot 32 31) = w - w mod 32 ∧ fld w 5 15 = Z.land w (bnot 32 31) / 32 mod 2 ^ 15.
Proof.
  assert (Z.land w (bnot 32 31) = w - w mod 32) as ->.
  { change 31 with (Z.ones 5). by rewrite land_bnot_ones by (done || lia). }
  split; [done|]. unfold fld. change (2 ^ 5) with 32. f_equal. dlia.
Qed.

Lemma identity_spec : identification w = true →
  (if Z.land w (bnot 32 31) =? 0xd5380700 then 0x0f100005 else if Z.land w (bnot 32 31) =? 0xd5380400 then VF_PFR0_SCALAR_PROFILE else 0)
  = identity (fld w 5 15).
Proof.
  unfold identification. destruct identification_word as [_ ->]. generalize (Z.land w (bnot 32 31)). intros r Hr. cbn [existsb] in Hr.
  rewrite !orb_true_iff, !Z.eqb_eq in Hr. destruct_or! Hr; try done; subst r; by vm_compute.
Qed.

Lemma emits_identification : emits (emit_identification w rd pc_ n) false
  (identification_insns (if Z.land w (bnot 32 31) =? 0xd5380700 then 0x0f100005
                         else if Z.land w (bnot 32 31) =? 0xd5380400 then VF_PFR0_SCALAR_PROFILE else 0)).
Proof.
  unfold emit_identification. cbv zeta. set (v := if _ =? 0xd5380700 then _ else _). apply appends_emits. intros pre. unfold identification_insns, control_insns.
  segment [AluImm8 CMP false (Member (offsetof current_el)) VF_EL1]. apply (appends_jcc _ _ _ _ 5); [done..|].
  segment [Load true RAX (Member (offsetof hcr_el2)); AluLoad OR true RAX (Member (offsetof scr_el3))]. apply (appends_jcc _ _ _ _ 4); [done..|].
  apply appends_fix. fill; [|shelve]. segment trap_insns. apply appends_fix. fill; [|shelve].
  segment (MovImm true RAX v :: save_insns rd false). apply appends_ret. list_eq.
  Unshelve. all: same_bytes.
Qed.

(** A stop of the block in the middle of a code. *)
Lemma results_stopped st l rest a d e i j k f g m :
  typed g → fits 32 st →
  results (enc ((StoreImm (Member (offsetof instruction)) w :: finish_insns pc_ n st) ++ l) ++ rest) rest
    (Build_host a CpuPtr d e i j k f g m) n (stopped w pc_ g m st).
Proof.
  intros Hg Hs. cbn [app]. eapply results_step; [by apply step_store_instruction|insn_ok|reflexivity..|]. host.
  unfold stopped. apply results_finish; [by apply typed_upd|done..|lia|done|lia].
Qed.

Lemma translates_identification : identification w = true →
  translates provider cpu n (emit_identification w rd pc_ n) (λ g m, identify w pc_ g m).
Proof.
  intros Hid. pose proof emits_identification as He. rewrite (identity_spec Hid) in He.
  apply (translates_results _ _ _ _ _ _ _ He); [apply identification_ok, identity_fits| |done].
  intros d e a i j k f g m rest Hr. pose proof (typed_host _ _ _ _ _ _ _ _ _ _ _ Hr) as Hg. unfold identify. names.
  change 0x00ff0011 with 0x00ff0011. fold (identity (fld w 5 15)). set (v := identity _). pose proof (identity_fits (fld w 5 15) : fits 64 v) as Hv.
  pose proof (Hg current_el) as Hel. pose proof (Hg hcr_el2) as Hh. pose proof (Hg scr_el3) as Hs3. cbn [F.width] in Hel, Hh, Hs3.
  unfold identification_insns.
  eapply results_step; [|insn_ok|..].
  { cbn [step read_operand rcx guest]. rewrite (member_named current_el) by done. cbn [mbind option_bind]. unfold alu_step. cbn [alu_writes]. reflexivity. }
  1,2: reflexivity.
  host. change (8 * size false) with 32. rewrite (Z.mod_small (g current_el)) by done. change (signed 8 VF_EL1 mod 2 ^ 32) with 1.
  assert (((g current_el - 1) mod 2 ^ 32 =? 0) = (g current_el =? VF_EL1)) as Hz.
  { unfold fits in Hel. destruct (Z.eqb_spec (g current_el) VF_EL1) as [->|Hne]; [done|]. change VF_EL1 with 1 in Hne.
    apply Z.eqb_neq. destruct (Z_lt_le_dec (g current_el) 1); dlia. }
  eapply (results_jcc 5 _ _ _ _ _ (negb (g current_el =? VF_EL1))); [|done|reflexivity|short_ok|].
  { apply condition_nonzero. cbn [fl alu_flags zf alu_value]. change (8 * size false) with 32. by rewrite Hz. }
  destruct (g current_el =? VF_EL1); cbn [negb andb]; [|by apply results_stopped].
  unfold control_insns. cbn [app]. eapply results_step; [|insn_ok|..].
  { cbn [step read_operand rcx guest]. rewrite (member_named hcr_el2) by done. cbn [mbind option_bind]. reflexivity. }
  1,2: reflexivity.
  host. eapply results_step; [|insn_ok|..].
  { cbn [step read_operand get rax rcx guest low_part]. rewrite (member_named scr_el3) by done. cbn [mbind option_bind]. unfold alu_step. cbn [alu_writes write_operand]. reflexivity. }
  1,2: reflexivity.
  host. change (8 * size true) with 64. rewrite !(Z.mod_small (g hcr_el2)), !(Z.mod_small (g scr_el3)) by done.
  assert (fits 64 (Z.lor (g hcr_el2) (g scr_el3))) as Hor by (by apply (fits_lor 64)).
  eapply (results_jcc 4 _ _ _ _ _ ((g hcr_el2 =? 0) && (g scr_el3 =? 0))); [|done|reflexivity|short_ok|].
  { apply condition_zero. cbn [fl alu_flags zf alu_value]. change (8 * size true) with 64. rewrite (Z.mod_small (Z.lor _ _)) by done. f_equal.
    destruct (Z.eqb_spec (Z.lor (g hcr_el2) (g scr_el3)) 0) as [[-> ->]%Z.lor_eq_0_iff|Hne]; [done|].
    destruct (Z.eqb_spec (g hcr_el2) 0) as [E1|]; [|done]. destruct (Z.eqb_spec (g scr_el3) 0) as [E2|]; [|done].
    by rewrite E1, E2 in Hne. }
  destruct ((g hcr_el2 =? 0) && (g scr_el3 =? 0)); [|by apply results_stopped].
  apply results_leaves; [|code_ok]. run_one (step_mov_imm true). by apply (leaves_save rd false); [in_range|].
Qed.

(** ** Thread registers *)

Lemma thread_cases f : thread_register w = Some f →
  thread_offset (sysreg_key w) = offsetof f ∧ member_at (offsetof f) = Some f ∧ F.width f = 64 ∧
  F.eqb f tpidr_el1 = (sysreg_key w =? VF_SYSREG_KEY_TPIDR_EL1) ∧
  F.eqb f tpidrro_el0 = (sysreg_key w =? VF_SYSREG_KEY_TPIDRRO_EL0) ∧ fits 32 (offsetof f).
Proof.
  unfold thread_register, thread_offset. generalize (sysreg_key w). intros key. cbn [switch].
  destruct (Z.eqb_spec key VF_SYSREG_KEY_TPIDR_EL0) as [->|]; [intros [= <-]; by vm_compute|].
  destruct (Z.eqb_spec key VF_SYSREG_KEY_TPIDRRO_EL0) as [->|]; [intros [= <-]; by vm_compute|].
  destruct (Z.eqb_spec key VF_SYSREG_KEY_TPIDR_EL1) as [->|]; [intros [= <-]; by vm_compute|done].
Qed.

Lemma translates_thread f : thread_register w = Some f →
  translates provider cpu n (emit_thread w rd (cpu current_el) (thread_offset (sysreg_key w)) pc_ n) (λ g m, thread w pc_ g m f).
Proof.
  intros Hf. destruct (thread_cases f Hf) as (Ho & Hm & Hwd & H1 & H0 & Hof). unfold emit_thread. rewrite Ho.
  change 0x00200000 with (Z.shiftl 1 21). rewrite land_bit_nz by done. cbv zeta.
  set (refused := (cpu current_el =? VF_EL0) && _).
  apply (translates_ext _ _ _ _ (λ g m, if refused then undefined w pc_ g m
    else if Z.testbit w 21 then Next (put g rd (g f mod 2 ^ 64)) m else Next (g.[f := X g 64 rd]) m)).
  { intros h Hr. unfold thread. rewrite (rd_regime _ _ _ Hr current_el) by (unfold regime_fields; rewrite list_elem_of_In; cbn; tauto).
    rewrite H1, H0. done. }
  destruct refused; [apply translates_undefined; done || lia|]. destruct (Z.testbit w 21).
  - apply (translates_next _ _ _ _ (Load true RAX (Member (offsetof f)) :: save_insns rd false)); [emitting|code_ok|].
    intros d e a i j k fl0 g m Hr Hg. split; [done|]. cbn [next_guest].
    eapply leaves_step; [cbn [step read_operand rcx guest]; rewrite (member_named f) by (done || by rewrite Hwd); reflexivity|reflexivity..|].
    host. apply (leaves_save rd false); [in_range|apply (fits_wrap 64); lia].
  - apply (translates_next _ _ _ _ (load_insns rd false true ++ [Store 8 (Member (offsetof f)) RAX])); [emitting|code_ok|].
    intros d e a i j k fl0 g m Hr Hg. split; [done|]. cbn [next_guest]. run_load. cbn [app].
    eapply leaves_step; [by eapply step_store; [..|apply (X_bits true)|done|done]|reflexivity..|]. host. apply leaves_nil.
Qed.

(** ** Branches *)

Local Abbreviation next := (next_pc pc_).

Lemma next_fits : fits 64 next.
Proof. apply (fits_wrap 64). lia. Qed.
Lemma relative_fits imm : fits 64 (relative pc_ imm).
Proof. apply (fits_wrap 64). lia. Qed.

(** The targets of the code. *)
Lemma target_relative lo len : 0 ≤ lo → 0 < len ≤ 32 → branch_target pc_ (fld w lo len) len = relative pc_ (sfld w lo len).
Proof.
  intros Hlo Hlen. unfold branch_target, relative, sfld. rewrite sext_signed by (done || (apply fld_fits; lia)).
  unfold u64, wrap. rewrite Zplus_mod_idemp_r. do 2 f_equal. lia.
Qed.

Definition go_insns (target : Z) : list insn := finish_insns target (n + 1) VF_NEXT.

Lemma go_within target : within 5 (go_insns target).
Proof. done. Qed.
Lemma go_ok target : fits 64 target → Forall insn_ok (go_insns target).
Proof. intros Ht. apply finish_ok; done || lia. Qed.
#[local] Hint Resolve go_within : short.
#[local] Hint Resolve go_ok next_fits relative_fits : code.

Lemma emits_go target : emits (finish target (n + 1) VF_NEXT) tt (go_insns target).
Proof. apply emits_finish. Qed.

Lemma results_go target st l rest a d e i j k f g m :
  typed g → fits 64 target → fits 32 st →
  results (enc (finish_insns target (n + 1) st ++ l) ++ rest) rest (Build_host a CpuPtr d e i j k f g m) n (Exit st target 1 g m).
Proof. intros Hg Ht Hs. apply results_finish; done || lia. Qed.

(** Both ways of a conditional jump. *)
Definition ways_insns (cc target : Z) : list insn := Jcc cc (bytes_of (go_insns target)) :: go_insns target ++ go_insns next.

Lemma ways_ok cc target : 0 ≤ cc < 16 → fits 64 target → Forall insn_ok (ways_insns cc target).
Proof. intros Hc Ht. pose proof next_fits. unfold ways_insns. code_ok. Qed.

Lemma results_ways cc target t rest a d e i j k f g m :
  typed g → fits 64 target → 0 ≤ cc < 16 → condition f cc = Some (negb t) →
  results (enc (ways_insns cc target) ++ rest) rest (Build_host a CpuPtr d e i j k f g m) n
    (jumped m (if t then target else next) g).
Proof.
  intros Hg Ht Hcc Hc. unfold ways_insns. eapply results_jcc; [exact Hc|done|reflexivity|short_ok|].
  destruct t; cbn [negb]; [by apply results_go|]. rewrite <- (app_nil_r (go_insns next)). apply results_go; [done|apply next_fits|done].
Qed.

Ltac two_ways target :=
  segment (go_insns target); apply appends_fix; fill; [segment (go_insns next); apply appends_ret; list_eq|same_bytes].

(** *** B.cond *)

Definition conditional_branch_insns (target : Z) : list insn :=
  if 14 <=? fld w 0 4 then go_insns target
  else condition_insns (fld w 0 4) ++ ways_insns (false_cc (fld w 0 4)) target.

Lemma low_condition : Z.land w 15 = fld w 0 4.
Proof. rewrite <- (fld_land w 0 4) by done. by rewrite Z.shiftr_0_r. Qed.

Lemma emits_conditional_branch : emits (emit_conditional_branch w pc_ n) true (conditional_branch_insns (relative pc_ (sfld w 5 19))).
Proof.
  unfold emit_conditional_branch, conditional_branch_insns. rewrite low_condition. change 0x7ffff with (Z.ones 19). rewrite bits_fld by done.
  rewrite target_relative by lia. change (u64 (pc_ + 4)) with next. cbv zeta. destruct (14 <=? fld w 0 4) eqn:Hc; [unfold go_insns; emitting|].
  apply appends_emits. intros pre. apply appends_condition; [pose proof (fld_fits w 0 4 ltac:(lia)) as Hf; unfold fits in Hf; lia|].
  unfold ways_insns. two_ways (relative pc_ (sfld w 5 19)).
Qed.

Lemma translates_conditional_branch :
  translates provider cpu n (emit_conditional_branch w pc_ n) (λ g m, conditional_branch w pc_ g m).
Proof.
  pose proof (fld_fits w 0 4 ltac:(lia)) as Hf. unfold fits in Hf. pose proof (false_cc_range (fld w 0 4)) as Hcc.
  apply (translates_results _ _ _ _ _ _ _ emits_conditional_branch); [| |done]; unfold conditional_branch_insns.
  { destruct (14 <=? fld w 0 4) eqn:Hc; [apply go_ok, relative_fits|]. pose proof (condition_ok (fld w 0 4) ltac:(lia)).
    pose proof (ways_ok _ _ Hcc (relative_fits (sfld w 5 19))). code_ok. }
  intros d e a i j k f g m rest Hr. pose proof (typed_host _ _ _ _ _ _ _ _ _ _ _ Hr) as Hg. unfold conditional_branch.
  destruct (14 <=? fld w 0 4) eqn:Hc.
  - rewrite holds_always by done. rewrite <- (app_nil_r (go_insns _)). apply results_go; [done|apply relative_fits|done].
  - destruct (condition_run (fld w 0 4) a d e i j k f g m ltac:(lia)) as (a' & i' & j' & k' & f' & Hst & Hcond).
    eapply results_app; [exact Hst|apply condition_ok; lia|reflexivity..|]. apply results_ways; [done|apply relative_fits|done..].
Qed.

(** *** CBZ, CBNZ *)

Lemma emits_compare_branch :
  emits (emit_compare_branch w wide rd pc_ n) true
    (load_insns rd false wide ++ Alu TEST true (Direct RAX) RAX :: ways_insns (if Z.testbit w 24 then 4 else 5) (relative pc_ (sfld w 5 19))).
Proof.
  unfold emit_compare_branch. change 0x1000000 with (Z.shiftl 1 24). rewrite land_bit_nz by done. change 0x7ffff with (Z.ones 19).
  rewrite bits_fld by done. rewrite target_relative by lia. change (u64 (pc_ + 4)) with next. apply appends_emits. intros pre. unfold ways_insns.
  segment (load_insns rd false wide ++ [Alu TEST true (Direct RAX) RAX]).
  apply (appends_jcc _ _ _ _ (if Z.testbit w 24 then 4 else 5)); [by destruct (Z.testbit w 24)|destruct (Z.testbit w 24); lia|].
  two_ways (relative pc_ (sfld w 5 19)).
Qed.

Lemma branch_cc (t : bool) k k' : 0 ≤ k < 16 → 0 ≤ k' < 16 → 0 ≤ (if t then k else k') < 16.
Proof. by destruct t. Qed.

Lemma translates_compare_branch :
  translates provider cpu n (emit_compare_branch w wide rd pc_ n) (λ g m, compare_branch w pc_ g m).
Proof.
  pose proof (ways_ok _ _ (branch_cc (Z.testbit w 24) 4 5 ltac:(lia) ltac:(lia)) (relative_fits (sfld w 5 19))) as Hways.
  apply (translates_results _ _ _ _ _ _ _ emits_compare_branch); [|intros d e a i j k f g m rest Hr|done].
  { apply Forall_app_2; [code_ok|apply Forall_cons_2; [insn_ok|done]]. }
  pose proof (typed_host _ _ _ _ _ _ _ _ _ _ _ Hr) as Hg. unfold compare_branch. names. go_load. set (v := X g (bits_of wide) rd).
  pose proof (X_bits wide g rd : fits _ v) as Hv. apply bits_64 in Hv.
  eapply results_step; [apply (step_test TEST true RAX RAX _ v v); done|insn_ok|reflexivity..|]. host.
  destruct (alu_logic TEST true v v Hv Hv) as (_ & _ & Hf); [by auto|]. cbn [alu_value] in Hf. rewrite Z.land_diag in Hf. rewrite Hf.
  apply results_ways; [done|apply relative_fits|apply branch_cc; lia|].
  destruct (Z.testbit w 24); cbn [negb].
  - rewrite (condition_zero _ (v =? 0)) by done. by destruct (v =? 0).
  - rewrite (condition_nonzero _ (v =? 0)) by done. by destruct (v =? 0).
Qed.

(** *** TBZ, TBNZ *)

Local Abbreviation bit := (32 * fld w 31 1 + fld w 19 5).

Lemma bit_spec : Z.lor (bits w 26 32) (bits w 19 31) = bit.
Proof.
  change (bits w 19 31) with (bits w 19 (Z.ones 5)). rewrite bits_fld by done. pose proof (fld_fits w 19 5 ltac:(lia)) as Hf.
  assert (bits w 26 32 = fld w 31 1 * 2 ^ 5) as ->; [|rewrite lor_high_low by done; change (2 ^ 5) with 32; lia].
  unfold bits. apply Z.bits_inj'. intros i Hi. change 32 with (2 ^ 5). rewrite Z.land_spec, Z.shiftr_spec, Z.pow2_bits_eqb by done.
  rewrite mul_pow2_testbit by done. destruct (Z.leb_spec 5 i); cbn [andb].
  - rewrite fld_testbit by lia. destruct (Z.eqb_spec 5 i) as [<-|]; [by rewrite andb_true_r|]. rewrite andb_false_r.
    by rewrite (proj2 (Z.ltb_ge (i - 5) 1)) by lia.
  - rewrite (proj2 (Z.eqb_neq 5 i)) by lia. by rewrite andb_false_r.
Qed.

Lemma bit_range : 0 ≤ bit < 64.
Proof.
  pose proof (fld_fits w 19 5 ltac:(lia)) as H1. pose proof (fld_fits w 31 1 ltac:(lia)) as H2. unfold fits in *. lia.
Qed.

Lemma emits_test_branch :
  emits (emit_test_branch w rd pc_ n) true
    (load_insns rd false (32 <=? bit) ++ Bt (32 <=? bit) RAX bit :: ways_insns (if Z.testbit w 24 then 3 else 2) (relative pc_ (sfld w 5 14))).
Proof.
  unfold emit_test_branch. rewrite bit_spec. rewrite land_bit_nz by done. change 0x3fff with (Z.ones 14).
  rewrite bits_fld by done. rewrite target_relative by lia. change (u64 (pc_ + 4)) with next. cbv zeta. apply appends_emits. intros pre.
  unfold ways_insns. pose proof bit_range.
  assert (u8 bit = bit) as Hu by (apply (wrap_id 8); unfold fits; lia).
  segment (load_insns rd false (32 <=? bit) ++ [Bt (32 <=? bit) RAX bit]); [rewrite Hu; destruct (32 <=? bit); bytes_eq|].
  apply (appends_jcc _ _ _ _ (if Z.testbit w 24 then 3 else 2)); [by destruct (Z.testbit w 24)|destruct (Z.testbit w 24); lia|].
  two_ways (relative pc_ (sfld w 5 14)).
Qed.

Lemma translates_test_branch : translates provider cpu n (emit_test_branch w rd pc_ n) (λ g m, test_branch w pc_ g m).
Proof.
  pose proof (ways_ok _ _ (branch_cc (Z.testbit w 24) 3 2 ltac:(lia) ltac:(lia)) (relative_fits (sfld w 5 14))) as Hways.
  apply (translates_results _ _ _ _ _ _ _ emits_test_branch); [|intros d e a i j k f g m rest Hr|done].
  { apply Forall_app_2; [code_ok|apply Forall_cons_2; [done|done]]. }
  pose proof (typed_host _ _ _ _ _ _ _ _ _ _ _ Hr) as Hg. unfold test_branch. names. go_load. set (wd := 32 <=? bit).
  pose proof bit_range as Hb. pose proof (X_bits wd g rd) as Hv.
  eapply results_step; [cbn [step get rax]; rewrite (low_part_id wd) by done; reflexivity|done|reflexivity..|]. host.
  assert (Z.testbit (X g (bits_of wd) rd) (bit mod (8 * size wd)) = Z.testbit (X g 64 rd) bit) as Ht.
  { rewrite size_bits. assert (bit < bits_of wd) by (unfold wd; destruct (Z.leb_spec 32 bit); cbn [bits_of]; lia).
    rewrite Z.mod_small by lia. unfold X. destruct (rd =? 31); [done|]. rewrite !Z.mod_pow2_bits_low by (destruct wd; cbn [bits_of] in *; lia). done. }
  apply results_ways; [done|apply relative_fits|apply branch_cc; lia|].
  destruct (Z.testbit w 24); cbn [negb].
  - rewrite (condition_no_carry _ (Z.testbit (X g (bits_of wd) rd) (bit mod (8 * size wd)))) by done. rewrite Ht. by destruct (Z.testbit (X g 64 rd) bit).
  - rewrite (condition_carry _ (Z.testbit (X g (bits_of wd) rd) (bit mod (8 * size wd)))) by done. rewrite Ht. by destruct (Z.testbit (X g 64 rd) bit).
Qed.

(** *** Unconditional branches *)

Definition link_insns : list insn := [MovImm true RAX next; Store 8 (Member (offsetof (x 30))) RAX].

Lemma link_ok : Forall insn_ok link_insns.
Proof. pose proof next_fits. unfold link_insns. code_ok. Qed.

Lemma leaves_link a d e i j k f g m :
  ∃ a', steps link_insns (Build_host a CpuPtr d e i j k f g m) = Some (Build_host a' CpuPtr d e i j k f (link pc_ g) m).
Proof.
  pose proof next_fits as Hf. eexists. unfold link_insns. eapply steps_cons; [by apply step_mov_imm|]. host.
  eapply steps_cons; [by eapply (step_store (x 30))|]. host. reflexivity.
Qed.

Lemma typed_link g : typed g → typed (link pc_ g).
Proof. intros Hg. apply typed_upd; [done|apply next_fits]. Qed.

Lemma emits_link : emits (store_field (offsetof (x 0) + 30 * 8) next) tt link_insns.
Proof. change (offsetof (x 0) + 30 * 8) with (offsetof (x 30)). apply emits_store_field. Qed.

Lemma translates_branch : translates provider cpu n (emit_branch w pc_ n) (λ g m, branch w pc_ g m).
Proof.
  pose proof (relative_fits (sfld w 0 26)) as Ht. pose proof link_ok.
  apply (translates_results _ _ _ _ true ((if wide then link_insns else []) ++ go_insns (relative pc_ (sfld w 0 26))));
    [|code_ok|intros d e a i j k f g m rest Hr|done].
  - unfold emit_branch. rewrite wide_is64 by done. change 0x3ffffff with (Z.ones 26).
    assert (Z.land w (Z.ones 26) = fld w 0 26) as -> by (rewrite <- (fld_land w 0 26) by done; by rewrite Z.shiftr_0_r).
    rewrite target_relative by lia. change (u64 (pc_ + 4)) with next. pose proof emits_link as El. pose proof (emits_go (relative pc_ (sfld w 0 26))).
    destruct wide; (eapply emits_eq; [pieces; eassumption|bytes_eq]).
  - pose proof (typed_host _ _ _ _ _ _ _ _ _ _ _ Hr) as Hg. unfold branch. change (Z.testbit w 31) with wide.
    rewrite <- (app_nil_r (go_insns _)). destruct wide; [|by apply results_go].
    destruct (leaves_link a d e i j k f g m) as [a' Hs]. eapply results_app; [exact Hs|done|reflexivity..|].
    apply results_go; [by apply typed_link|done..].
Qed.

(** *** BR, BLR, RET *)

Local Abbreviation blr := (Z.land w 0xfffffc1f =? 0xd63f0000).

Definition branch_register_insns : list insn :=
  load_insns rn false true ++ [Store 8 (Direct R9) RAX] ++ (if blr then link_insns else []) ++
  Store 8 (Member (offsetof pc)) R9 :: return_insns (n + 1) VF_NEXT.

Lemma emits_branch_register : (rn =? 31) = false → emits (emit_branch_register w rn pc_ n) true branch_register_insns.
Proof.
  intros H31. unfold emit_branch_register. rewrite H31. change (u64 (pc_ + 4)) with next. pose proof emits_link as El.
  unfold branch_register_insns, return_insns. destruct blr; (eapply emits_eq; [pieces; eassumption|bytes_eq]).
Qed.

Lemma translates_branch_register :
  translates provider cpu n (emit_branch_register w rn pc_ n) (λ g m, branch_register w pc_ g m).
Proof.
  unfold branch_register. names. destruct (rn =? 31) eqn:H31.
  { unfold emit_branch_register. rewrite H31. apply translates_undefined; done || lia. }
  pose proof link_ok.
  apply (translates_results _ _ _ _ _ _ _ (emits_branch_register H31)); [|intros d e a i j k f g m rest Hr|done].
  { unfold branch_register_insns. assert (fits 32 (n + 1)) by (unfold fits; lia). unfold return_insns. code_ok. }
  pose proof (typed_host _ _ _ _ _ _ _ _ _ _ _ Hr) as Hg. unfold branch_register_insns. go_load. unfold X. rewrite H31.
  change (bits_of true) with 64. set (target := g (x rn) mod 2 ^ 64). assert (fits 64 target) as Ht by (apply (fits_wrap 64); lia).
  go_one step_mov.
  assert (∀ a' g', typed g' → results (enc (Store 8 (Member (offsetof pc)) R9 :: return_insns (n + 1) VF_NEXT) ++ rest) rest
    (Build_host a' CpuPtr d e (Word target) j k x0 g' m) n (Exit VF_NEXT target 1 g' m)) as Hend.
  { intros a' g' Hg'. cbn [results]. rewrite enc_cons, <- app_assoc.
    eapply ends_step; [by eapply (step_store pc)|insn_ok|reflexivity..|]. host.
    apply (ends_return (n + 1) VF_NEXT rest a' d e _ _ _ _ (g'.[pc := target])); [by apply typed_upd|lia|done]. }
  destruct blr; [|by apply Hend].
  destruct (leaves_link (Word target) d e (Word target) j k x0 g m) as [a' Hs]. eapply results_app; [exact Hs|done|reflexivity..|].
  by apply Hend, typed_link.
Qed.

(** ** The rest *)

Lemma translates_nop : translates provider cpu n (mret false) (λ g m, Next g m).
Proof.
  apply (translates_next _ _ _ _ []); [apply emits_ret|constructor|]. intros d e a i j k f g m Hr Hg. split; [done|]. apply leaves_nil.
Qed.

Lemma translates_halt : translates provider cpu n (finish next (n + 1) VF_HALT;; mret true) (λ g m, Exit VF_HALT next 1 g m).
Proof.
  apply (translates_results _ _ _ _ true (finish_insns next (n + 1) VF_HALT)); [emitting|apply finish_ok; [apply next_fits|lia|done]| |done].
  intros d e a i j k f g m rest Hr. rewrite <- (app_nil_r (finish_insns _ _ _)).
  apply results_go; [by eapply typed_host|apply next_fits|done].
Qed.

(** A word outside the subset: the boundary the code reports. *)
Lemma translates_boundary (status_of : Z → Z) :
  (∀ el, fits 32 (status_of el)) →
  translates provider cpu n (stop w pc_ n (status_of (cpu current_el))) (λ g m, stopped w pc_ g m (status_of (g current_el))).
Proof.
  intros Hs. apply (translates_ext _ _ _ _ (λ g m, stopped w pc_ g m (status_of (cpu current_el)))).
  { intros h Hr. by rewrite (rd_regime _ _ _ Hr current_el) by (unfold regime_fields; rewrite list_elem_of_In; cbn; tauto). }
  apply translates_stop; done || lia.
Qed.
End Word.
End TransControl.
