(* ===== verification/TransMemory.v ===== *)
(** Translated loads and stores ([runtime/jit.c]): the checks of alignment and bounds, the
    access, and the faults. *)
From S2P Require Import Prelude.
From S2P Require Import Words.
From S2P Require Import BitField.
From S2P Require Import Cpu.
From S2P Require Import Insn.
From S2P Require Import LoadStore.
From S2P Require Import X86.
From S2P Require Import Emit.
From S2P Require Import Translate.
From S2P Require Import A64.
From S2P Require Import Codegen.
From S2P Require Import HostArith.
From S2P Require Import TransAlu.
From S2P Require Import Jumps.
From S2P Require Import TransControl.

Module TransMemory.
Import Cpu.
Import Cpu.F.
Import Insn.
Import LoadStore(loaded, index).
Import X86.
Import Emit.
Import Translate.
Import A64.
Import Codegen.
Import HostArith.
Import TransAlu.
Import Jumps.
Import TransControl.

(** ** Decoded shapes *)

(** What the emission relies on besides [shape_ok]. *)
Record shape_more (s : memory_shape) : Prop := {
  sm_signed : signed_load s = false → result64 s = (width s =? 8);
  sm_mode : register_offset s = true → mode s = 2;
  sm_pair : count s = 2 → signed_load s = false ∧ register_offset s = false;
}.

Lemma decode_pair_more w s : decode_pair w = Some s → shape_more s ∧ count s = 2.
Proof.
  unfold decode_pair. destruct (_ || _ || _ || _ || _); [done|]. intros H%(inj Some). subst s. split; [|done].
  split; cbn; try done. intros _. by destruct (_ =? 2).
Qed.

Lemma decode_single_more w s : fits 32 w → decode_single w = Some s → shape_more s ∧ count s = 1.
Proof.
  intros Hw. unfold decode_single. cbv zeta. destruct (_ && negb (nz (Z.land _ 2))); [done|].
  destruct (nz _ || _); [done|]. destruct (_ && _ && (_ =? _)); [done|]. intros H%(inj Some). subst s. split; [|done].
  split; cbn; [| |done].
  - intros H2. destruct (Z.leb_spec 2 (Z.land (Z.shiftr w 22) 3)) as [|Hlt]; [done|].
    assert ((Z.land (Z.shiftr w 22) 3 =? 2) = false) as -> by lia. cbn [orb].
    assert (0 ≤ Z.shiftr w 30 < 4) as Hs by (rewrite Z.shiftr_div_pow2 by done; unfold fits in Hw; dlia). generalize dependent (Z.shiftr w 30). intros z Hz.
    assert (z = 0 ∨ z = 1 ∨ z = 2 ∨ z = 3) as [-> | [-> | [-> | ->]]] by lia; reflexivity.
  - unfold register_offset_family, scalar_writeback_family. intros H%Z.eqb_eq.
    assert (Z.testbit (Z.land w 0x3b200c00) 10 = false) as Hb by (by rewrite H).
    destruct (Z.land w 0x3b200400 =? 0x38000400) eqn:E; [|done]. apply Z.eqb_eq in E.
    assert (Z.testbit (Z.land w 0x3b200400) 10 = true) as Hb' by (by rewrite E).
    rewrite Z.land_spec in Hb, Hb'. destruct (Z.testbit w 10); done.
Qed.

Lemma decode_more w s : fits 32 w → decode_memory w = Some s →
  shape_ok s ∧ shape_more s ∧ count s = if Z.land w 0x3a000000 =? 0x28000000 then 2 else 1.
Proof.
  intros Hw Hd. split; [by eapply decode_ok|]. unfold decode_memory in Hd. destruct (_ =? 0x28000000); [by apply decode_pair_more in Hd|].
  destruct (_ || _); [|done]. by apply decode_single_more in Hd.
Qed.

(** ** The code *)

Section Access.
Context (w : Z) (Hw : fits 32 w) (provider : bool) (cpu : vf_cpu) (n : Z) (pc_ : Z) (Hpc : fits 64 pc_) (Hn : 0 ≤ n < 2 ^ 31 - 1).
Context (s : memory_shape) (Hs : shape_ok s) (Hm : shape_more s).

Definition checked : bool := checks_stack (Some cpu) (rn s).

Definition fault_insns (st : Z) : list insn := Store 8 (Member (offsetof far)) R11 :: finish_insns pc_ n st.
Definition sp_block : list insn := if checked then fault_insns VF_SP_ALIGNMENT_FAULT else [].
Definition align_block : list insn := if 1 <? width s then fault_insns VF_ALIGNMENT_FAULT else [].
Definition data_block : list insn := fault_insns VF_DATA_ABORT.
Definition blocks : list insn := sp_block ++ align_block ++ data_block.

Definition displace_insns : list insn := [AluEax ADD true (u32 (displacement s))].
Definition index_insns : list insn :=
  if register_offset s then
    [Store 8 (Direct R11) RAX] ++ load_insns (rm s) false (nz (Z.land (option_ s) 1)) ++
    (if option_ s =? 6 then [Extend true 4 true RAX (Direct RAX)] else []) ++
    (if nz (shift s) then [Shift SHL true RAX (shift s)] else []) ++ [Alu ADD true (Direct RAX) R11]
  else if negb (mode s =? 1) then displace_insns else [].

Definition access_insns : list insn :=
  if read s then
    (if (width s <? 4) || signed_load s then Extend (signed_load s) (width s) (result64 s) RAX (Ram 0)
     else Load (result64 s) RAX (Ram 0)) :: save_insns (rt s) false
  else load_insns (rt s) false (width s =? 8) ++ [Store (width s) (Ram 0) RAX].
Definition element_insns (reg at_ : Z) : list insn :=
  if read s then Load (width s =? 8) RAX (Ram at_) :: save_insns reg false
  else load_insns reg false (width s =? 8) ++ [Store (width s) (Ram at_) RAX].
Definition writeback_insns : list insn :=
  if negb (mode s =? 2) then [Store 8 (Direct RAX) R11] ++ (if mode s =? 1 then displace_insns else []) ++ save_insns (rn s) true
  else [].

(** The end of the access, after the code [xfer] that performs it. *)
Definition body (xfer : list insn) : list insn := xfer ++ writeback_insns ++ [Jmp (bytes_of blocks)].

(** A check that leads to the data abort, in front of [code]. *)
Definition guard (cc : Z) (test code : list insn) : list insn :=
  test ++ Jcc cc (bytes_of (code ++ sp_block ++ align_block)) :: code.

Definition offset_test : list insn := [MovImm true RAX (guest_base (Some cpu)); Alu SUB true (Direct R9) RAX].
Definition room_test (k : Z) : list insn := [AluImm8 CMP true (Direct R8) k].
Definition bound_test : list insn := [AluImm8 SUB true (Direct R10) (width s); Alu CMP true (Direct R9) R10].

Definition first_checks (code : list insn) : list insn :=
  guard 2 offset_test (guard 2 (room_test (width s)) (guard 7 (Store 8 (Direct R10) R8 :: bound_test) code)).
Definition second_checks (code : list insn) : list insn :=
  guard 2 [AluImm8 ADD true (Direct R11) (width s)] (guard 2 (room_test (2 * width s)) (guard 7 bound_test code)).

(** The address in R11 and R9, and its alignment. *)
Definition aligned (code : list insn) : list insn :=
  [Store 8 (Direct R11) RAX; Store 8 (Direct R9) RAX] ++
  (if 1 <? width s then TestAl (width s - 1) :: Jcc 5 (bytes_of (code ++ sp_block)) :: code else code).

Definition stack_test (code : list insn) : list insn :=
  [Store 8 (Direct R11) RAX; TestAl 15] ++ Jcc 5 (bytes_of code) :: code.

Definition scalar_main : list insn := index_insns ++ aligned (first_checks (body access_insns)).
Definition scalar_insns : list insn :=
  StoreImm (Member (offsetof instruction)) w :: load_insns (rn s) true true ++
  (if checked then stack_test scalar_main else scalar_main) ++ blocks.

Definition pair_transfer : list insn :=
  [AluImm8 SUB true (Direct R11) (width s)] ++ element_insns (rt s) 0 ++ element_insns (rt2 s) (width s).
Definition pair_main : list insn :=
  load_insns (rn s) true true ++ (if negb (mode s =? 1) then displace_insns else []) ++
  aligned (first_checks (second_checks (body pair_transfer))).
Definition pair_insns : list insn :=
  StoreImm (Member (offsetof instruction)) w ::
  (if checked then load_insns 31 true true ++ stack_test pair_main else pair_main) ++ blocks.

(** ** Emission *)

Lemma width_cases : width s = 1 ∨ width s = 2 ∨ width s = 4 ∨ width s = 8.
Proof. apply Hs. Qed.

Lemma width_bytes : u8 (width s) = width s ∧ u8 (width s - 1) = width s - 1 ∧ u8 (2 * width s) = 2 * width s.
Proof. destruct width_cases as [-> | [-> | [-> | ->]]]; done. Qed.

Lemma emits_fault st : emits (fault_block pc_ n st) tt (fault_insns st).
Proof. unfold fault_block, fault_insns. emitting. Qed.

Lemma emits_access : emits (emit_access s) tt access_insns.
Proof.
  unfold emit_access, access_insns. pose proof (sm_signed s Hm) as Hr. destruct (read s).
  - destruct Hs as (Hwd & _ & _ & _ & _ & _ & _ & _ & _ & _ & Hsg & _). destruct (signed_load s).
    + destruct (Hsg eq_refl) as (_ & _ & H8 & H4).
      destruct Hwd as [E | [E | [E | E]]]; rewrite ?E in *; [..|done]; [destruct (result64 s)|destruct (result64 s)|rewrite (H4 eq_refl)]; emitting.
    + rewrite (Hr eq_refl). destruct Hwd as [-> | [-> | [-> | ->]]]; emitting.
  - destruct width_cases as [-> | [-> | [-> | ->]]]; emitting.
Qed.

Lemma emits_writeback : emits (emit_writeback s) tt writeback_insns.
Proof.
  unfold emit_writeback, writeback_insns, displace_insns. destruct (mode s =? 2), (mode s =? 1); cbn [negb]; emitting.
Qed.

Lemma emits_element e : width s = 4 ∨ width s = 8 → e = 0 ∨ e = 1 →
  emits (emit_element s e) tt (if nz e then element_insns (rt2 s) (width s) else element_insns (rt s) 0).
Proof.
  intros Hwd He. unfold emit_element, element_insns.
  destruct Hwd as [-> | ->], He as [-> | ->], (read s); change (nz 0) with false; change (nz 1) with true; cbv iota; cbn [negb]; emitting.
Qed.

(** The index of a register offset, or the displacement. *)
Lemma emits_index :
  emits (if register_offset s then
           b 0x49;; b 0x89;; b 0xc3;;
           load (rm s) false (nz (Z.land (option_ s) 1));;
           (if option_ s =? 6 then b 0x48;; b 0x63;; b 0xc0 else mret tt);;
           (if nz (shift s) then b 0x48;; b 0xc1;; b 0xe0;; b (shift s) else mret tt);;
           b 0x4c;; b 0x01;; b 0xd8
         else if negb (mode s =? 1) then b 0x48;; b 0x05;; emit32 (u32 (displacement s)) else mret tt) tt index_insns.
Proof.
  unfold index_insns, displace_insns. assert (u8 (shift s) = shift s) as Hu.
  { destruct Hs as (Hwd & _ & _ & _ & _ & _ & _ & _ & _ & _ & _ & [-> | Hsh] & _); [done|]. apply (wrap_id 8).
    destruct (Z_lt_le_dec (shift s) 0) as [Hlt|Hge]; [rewrite Z.pow_neg_r in Hsh by lia; lia|].
    destruct (Z_lt_le_dec 3 (shift s)) as [H3|H3]; [|unfold fits; lia]. assert (2 ^ 4 ≤ 2 ^ shift s) by (apply Z.pow_le_mono_r; lia). lia. }
  destruct (register_offset s); [destruct (option_ s =? 6), (nz (shift s))|destruct (mode s =? 1); cbn [negb]];
    (eapply emits_eq; [pieces|rewrite ?Hu; bytes_eq]).
Qed.

Ltac fills := lazymatch goal with
  | |- appends ((if nz (slot _ _ _) then _ else _) ≫= _) _ _ _ _ => rewrite slot_nz by exact I; cbv iota; fills
  | |- appends ((if nz 0 then _ else _) ≫= ?k) _ _ _ _ => change (nz 0) with false; cbv iota; apply appends_mret; cbv beta; fills
  | |- appends (mret _ ≫= _) _ _ _ _ => apply appends_mret; cbv beta; fills
  | |- appends (fix_to _ _ ≫= _) _ _ _ _ => fill; [fills|shelve]
  | |- appends (fix_ _ ≫= _) _ _ _ _ => apply appends_fix; fills
  | _ => idtac
  end.

Lemma fault_within st : within 6 (fault_insns st).
Proof. done. Qed.
Lemma index_within : within 5 index_insns.
Proof. unfold index_insns, displace_insns. within_ok. Qed.
Lemma access_within : within 2 access_insns.
Proof. unfold access_insns. within_ok. Qed.
Lemma writeback_within : within 3 writeback_insns.
Proof. unfold writeback_insns, displace_insns. within_ok. Qed.
Lemma offset_test_within : within 2 offset_test.
Proof. done. Qed.
Lemma room_test_within k : within 1 (room_test k).
Proof. done. Qed.
Lemma bound_test_within : within 2 bound_test.
Proof. done. Qed.
#[local] Hint Resolve offset_test_within room_test_within bound_test_within : short.
#[local] Hint Resolve fault_within index_within access_within writeback_within : short.

(** Names for the checks, so that the displacements do not nest. *)
Lemma guard_split cc test code : ∃ r, guard cc test code = test ++ Jcc cc r :: code ∧ r = bytes_of (code ++ sp_block ++ align_block).
Proof. by eexists. Qed.
Lemma body_split xfer : ∃ r, body xfer = xfer ++ writeback_insns ++ [Jmp r] ∧ r = bytes_of blocks.
Proof. by eexists. Qed.

Ltac name_body xfer :=
  let r := fresh "r" in let G := fresh "G" in let R := fresh "R" in let c := fresh "c" in
  destruct (body_split xfer) as (r & G & R); generalize dependent (body xfer); intros c G.
Ltac name_guard :=
  match goal with |- context [guard ?cc ?t ?code] =>
    is_var code;
    let r := fresh "r" in let G := fresh "G" in let R := fresh "R" in let c := fresh "c" in
    destruct (guard_split cc t code) as (r & G & R); generalize dependent (guard cc t code); intros c G
  end.
Ltac unname := repeat match goal with H : ?c = _ ++ _ |- _ => is_var c; progress rewrite H end.

(** The end of the emission, from the first jump to the data abort on. *)
Ltac emit_checks pieces_hint :=
  segment (room_test (width s)); [pieces_hint; bytes_eq|]; apply (appends_jcc _ _ _ _ 2); [done..|];
  segment (Store 8 (Direct R10) R8 :: bound_test); [pieces_hint; bytes_eq|]; apply (appends_jcc _ _ _ _ 7); [done..|].

Ltac emit_blocks sp_ al :=
  apply appends_jmp, appends_here; cbv beta;
  segment sp_; apply appends_here; segment al; apply appends_here;
  segment (fault_insns VF_DATA_ABORT); fills; apply appends_ret; unname; list_eq.

Lemma emits_scalar : unsupported_regime (Some cpu) = false → decode_memory w = Some s →
  emits (emit_scalar (Some cpu) w pc_ n) false scalar_insns.
Proof.
  intros Hreg Hd. unfold emit_scalar. rewrite Hd, Hreg. fold checked. cbv zeta.
  pose proof emits_index as Ei. pose proof emits_access as Ea. pose proof emits_writeback as Ew.
  pose proof (emits_fault VF_SP_ALIGNMENT_FAULT) as E1. pose proof (emits_fault VF_ALIGNMENT_FAULT) as E2. pose proof (emits_fault VF_DATA_ABORT) as E3.
  destruct width_bytes as (Hu & Hu1 & _). apply appends_emits. intros pre.
  unfold scalar_insns, scalar_main, stack_test, aligned, first_checks. name_body access_insns. do 3 name_guard.
  unfold blocks, sp_block, align_block, data_block in *.
  destruct checked eqn:Hch, (1 <? width s) eqn:Hal; cbv iota.
  - segment (StoreImm (Member (offsetof instruction)) w :: load_insns (rn s) true true ++ [Store 8 (Direct R11) RAX; TestAl 15]).
    apply (appends_jcc _ _ _ _ 5); [done..|].
    segment (index_insns ++ [Store 8 (Direct R11) RAX; Store 8 (Direct R9) RAX; TestAl (width s - 1)]); [rewrite Hu1; bytes_eq|].
    apply (appends_jcc _ _ _ _ 5); [done..|]. segment offset_test. apply (appends_jcc _ _ _ _ 2); [done..|]. emit_checks ltac:(rewrite Hu).
    segment (access_insns ++ writeback_insns). emit_blocks (fault_insns VF_SP_ALIGNMENT_FAULT) (fault_insns VF_ALIGNMENT_FAULT).
  - segment (StoreImm (Member (offsetof instruction)) w :: load_insns (rn s) true true ++ [Store 8 (Direct R11) RAX; TestAl 15]).
    apply (appends_jcc _ _ _ _ 5); [done..|].
    segment (index_insns ++ [Store 8 (Direct R11) RAX; Store 8 (Direct R9) RAX] ++ offset_test).
    apply (appends_jcc _ _ _ _ 2); [done..|]. emit_checks ltac:(rewrite Hu).
    segment (access_insns ++ writeback_insns). emit_blocks (fault_insns VF_SP_ALIGNMENT_FAULT) (@nil insn).
  - segment (StoreImm (Member (offsetof instruction)) w :: load_insns (rn s) true true ++ index_insns ++
             [Store 8 (Direct R11) RAX; Store 8 (Direct R9) RAX; TestAl (width s - 1)]); [rewrite Hu1; bytes_eq|].
    apply (appends_jcc _ _ _ _ 5); [done..|]. segment offset_test. apply (appends_jcc _ _ _ _ 2); [done..|]. emit_checks ltac:(rewrite Hu).
    segment (access_insns ++ writeback_insns). emit_blocks (@nil insn) (fault_insns VF_ALIGNMENT_FAULT).
  - segment (StoreImm (Member (offsetof instruction)) w :: load_insns (rn s) true true ++ index_insns ++
             [Store 8 (Direct R11) RAX; Store 8 (Direct R9) RAX] ++ offset_test).
    apply (appends_jcc _ _ _ _ 2); [done..|]. emit_checks ltac:(rewrite Hu).
    segment (access_insns ++ writeback_insns). emit_blocks (@nil insn) (@nil insn).
  Unshelve. all: subst; same_bytes.
Qed.

Lemma pair_width : count s = 2 → width s = 4 ∨ width s = 8.
Proof. intros Hc. destruct Hs as (Hwd & Hcount & _). lia. Qed.

Lemma element_within reg at_ : within 2 (element_insns reg at_).
Proof. unfold element_insns. within_ok. Qed.
Lemma displace_within : within 1 displace_insns.
Proof. done. Qed.
#[local] Hint Resolve element_within displace_within : short.

Lemma emits_displace :
  emits (if negb (mode s =? 1) then b 0x48;; b 0x05;; emit32 (u32 (displacement s)) else mret tt) tt
    (if negb (mode s =? 1) then displace_insns else []).
Proof. unfold displace_insns. destruct (negb _); emitting. Qed.

Lemma emits_pair : unsupported_regime (Some cpu) = false → decode_memory w = Some s → count s = 2 →
  emits (emit_pair (Some cpu) w pc_ n) false pair_insns.
Proof.
  intros Hreg Hd Hc. pose proof (pair_width Hc) as Hwd. unfold emit_pair. rewrite Hd, Hreg. fold checked. cbv zeta.
  pose proof emits_displace as Ed. pose proof emits_writeback as Ew.
  pose proof (emits_element 0 Hwd ltac:(by left)) as Ee0. pose proof (emits_element 1 Hwd ltac:(by right)) as Ee1.
  change (nz 0) with false in Ee0. change (nz 1) with true in Ee1. cbv iota in Ee0, Ee1.
  pose proof (emits_fault VF_SP_ALIGNMENT_FAULT) as E1. pose proof (emits_fault VF_ALIGNMENT_FAULT) as E2. pose proof (emits_fault VF_DATA_ABORT) as E3.
  destruct width_bytes as (Hu & Hu1 & Hu2). apply appends_emits. intros pre.
  assert ((1 <? width s) = true) as Hal by lia.
  unfold pair_insns, pair_main, stack_test, aligned, first_checks, second_checks. name_body pair_transfer. do 6 name_guard.
  unfold blocks, sp_block, align_block, data_block, pair_transfer in *.
  rewrite Hal in *. destruct checked eqn:Hch; cbv iota.
  - segment (StoreImm (Member (offsetof instruction)) w :: load_insns 31 true true ++ [Store 8 (Direct R11) RAX; TestAl 15]).
    apply (appends_jcc _ _ _ _ 5); [done..|].
    segment (load_insns (rn s) true true ++ (if negb (mode s =? 1) then displace_insns else []) ++
             [Store 8 (Direct R11) RAX; Store 8 (Direct R9) RAX; TestAl (width s - 1)]); [rewrite Hu1; bytes_eq|].
    apply (appends_jcc _ _ _ _ 5); [done..|]. segment offset_test. apply (appends_jcc _ _ _ _ 2); [done..|]. emit_checks ltac:(rewrite Hu).
    segment [AluImm8 ADD true (Direct R11) (width s)]; [rewrite Hu; bytes_eq|]. apply (appends_jcc _ _ _ _ 2); [done..|].
    segment (room_test (2 * width s)); [rewrite Hu2; bytes_eq|]. apply (appends_jcc _ _ _ _ 2); [done..|].
    segment bound_test; [rewrite Hu; bytes_eq|]. apply (appends_jcc _ _ _ _ 7); [done..|].
    segment ((AluImm8 SUB true (Direct R11) (width s) :: element_insns (rt s) 0 ++ element_insns (rt2 s) (width s)) ++ writeback_insns); [rewrite Hu; bytes_eq|].
    emit_blocks (fault_insns VF_SP_ALIGNMENT_FAULT) (fault_insns VF_ALIGNMENT_FAULT).
  - segment (StoreImm (Member (offsetof instruction)) w :: load_insns (rn s) true true ++ (if negb (mode s =? 1) then displace_insns else []) ++
             [Store 8 (Direct R11) RAX; Store 8 (Direct R9) RAX; TestAl (width s - 1)]); [rewrite Hu1; bytes_eq|].
    apply (appends_jcc _ _ _ _ 5); [done..|]. segment offset_test. apply (appends_jcc _ _ _ _ 2); [done..|]. emit_checks ltac:(rewrite Hu).
    segment [AluImm8 ADD true (Direct R11) (width s)]; [rewrite Hu; bytes_eq|]. apply (appends_jcc _ _ _ _ 2); [done..|].
    segment (room_test (2 * width s)); [rewrite Hu2; bytes_eq|]. apply (appends_jcc _ _ _ _ 2); [done..|].
    segment bound_test; [rewrite Hu; bytes_eq|]. apply (appends_jcc _ _ _ _ 7); [done..|].
    segment ((AluImm8 SUB true (Direct R11) (width s) :: element_insns (rt s) 0 ++ element_insns (rt2 s) (width s)) ++ writeback_insns); [rewrite Hu; bytes_eq|].
    emit_blocks (@nil insn) (fault_insns VF_ALIGNMENT_FAULT).
  Unshelve. all: subst; same_bytes.
Qed.

(** ** Runs *)

(** *** The faults *)

Lemma results_fault st far_ l rest a d e i j f g m :
  typed g → fits 64 far_ → fits 32 st →
  results (enc (fault_insns st ++ l) ++ rest) rest (Build_host a CpuPtr d e i j (Word far_) f g m) n
    (Exit st pc_ 0 (g.[far := far_]) m).
Proof.
  intros Hg Hf Hst. unfold fault_insns. cbn [app].
  eapply results_step; [by apply (step_store far)|insn_ok|reflexivity..|]. host.
  apply results_finish; [by apply typed_upd|done..|lia|done|lia].
Qed.

Lemma sp_within : within 6 sp_block.
Proof. unfold sp_block. by destruct checked. Qed.
Lemma align_within : within 6 align_block.
Proof. unfold align_block. by destruct (1 <? width s). Qed.
Lemma data_within : within 6 data_block.
Proof. done. Qed.
#[local] Hint Resolve sp_within align_within data_within : short.

(** A check, the way to the data abort and the way on. *)
Lemma results_guard cc test code k t rest h a d e i j far_ f g m o :
  steps test h = Some (Build_host a CpuPtr d e i j (Word far_) f g m) → Forall insn_ok test → rdx h = d → r8 h = e →
  condition f cc = Some t → 0 ≤ cc < 16 → within k code → k ≤ 2 ^ 10 → typed g → fits 64 far_ →
  (t = true → o = Exit VF_DATA_ABORT pc_ 0 (g.[far := far_]) m) →
  (t = false → results (enc (code ++ blocks) ++ rest) rest (Build_host a CpuPtr d e i j (Word far_) f g m) n o) →
  results (enc (guard cc test code ++ blocks) ++ rest) rest h n o.
Proof.
  intros Hst Hok Hd He Hc Hcc Hk Hkk Hg Hf Ht Hn'. unfold guard. rewrite <- app_assoc. cbn [app].
  eapply results_app; [exact Hst|done|done..|].
  eapply (results_jcc cc _ data_block _ _ _ t); [exact Hc|done|by unfold blocks; rewrite <- !app_assoc| |].
  - eapply within_short; [eapply within_app; [exact Hk|within_bound]|lia].
  - destruct t; [|by apply Hn']. rewrite Ht by done. unfold data_block. rewrite <- (app_nil_r (fault_insns _)). by apply results_fault.
Qed.

(** *** Address arithmetic *)

Lemma displacement_range : - 2 ^ 31 ≤ displacement s < 2 ^ 31.
Proof.
  destruct width_cases as [E | [E | [E | E]]]; destruct Hs as (_ & _ & _ & _ & _ & _ & _ & _ & _ & Hd & _); rewrite E in Hd; lia.
Qed.

Lemma step_displace a c d e i j k f g m : fits 64 a →
  ∃ f', step (AluEax ADD true (u32 (displacement s))) (Build_host (Word a) c d e i j k f g m) =
    Some (Build_host (Word ((a + displacement s) mod 2 ^ 64)) c d e i j k f' g m).
Proof.
  intros Ha. pose proof displacement_range as Hd. eexists. cbn [step rax]. rewrite (low_part_id true) by done. cbn [mbind option_bind].
  change (u32 (displacement s)) with (displacement s mod 2 ^ 32). rewrite signed_mod by lia. unfold alu_step. cbn [alu_writes write_operand]. host.
  cbn [alu_value]. change (8 * size true) with 64. rewrite Zplus_mod_idemp_r. reflexivity.
Qed.

(** A test of the low bits of the address. *)
Lemma step_align k a c d e i j l f g m : 0 ≤ k ≤ 8 →
  ∃ f', step (TestAl (2 ^ k - 1)) (Build_host (Word a) c d e i j l f g m) = Some (Build_host (Word a) c d e i j l f' g m) ∧
    zf f' = Some (a mod 2 ^ k =? 0).
Proof.
  intros Hk. eexists. split; [reflexivity|]. cbn [alu_flags zf alu_value]. f_equal. change (8 * 1) with 8.
  assert (2 ^ k - 1 = Z.ones k) as -> by (rewrite Z.ones_equiv; lia). rewrite Z.land_ones by lia.
  rewrite (LoadStore.mod_mod_pow a 8 k) by lia. rewrite Z.mod_small; [done|].
  pose proof (Z.mod_pos_bound a (2 ^ k) ltac:(by apply pow2_pos; lia)). assert (2 ^ k ≤ 2 ^ 8) by (apply Z.pow_le_mono_r; lia). lia.
Qed.

(** The address that is accessed. *)
Definition target (g : vf_cpu) (base : Z) : Z := if mode s =? 1 then base else (base + index g s) mod 2 ^ 64.

Lemma target_fits g base : fits 64 base → fits 64 (target g base).
Proof. intros Hb. unfold target. destruct (mode s =? 1); [done|]. apply (fits_wrap 64). lia. Qed.

Lemma displace_run base d e i j k f g m :
  fits 64 base → register_offset s = false →
  ∃ f', steps (if negb (mode s =? 1) then displace_insns else []) (Build_host (Word base) CpuPtr d e i j k f g m) =
    Some (Build_host (Word (target g base)) CpuPtr d e i j k f' g m).
Proof.
  intros Hb Hr. unfold target, index. rewrite Hr. destruct (mode s =? 1); cbn [negb]; [by eexists|].
  destruct (step_displace base CpuPtr d e i j k f g m Hb) as [f' Hf]. exists f'. unfold displace_insns. cbn [steps]. by rewrite Hf.
Qed.

Lemma index_run base d e i j k f g m :
  typed g → fits 64 base →
  ∃ k' f', steps index_insns (Build_host (Word base) CpuPtr d e i j k f g m) =
    Some (Build_host (Word (target g base)) CpuPtr d e i j k' f' g m).
Proof.
  intros Hg Hb. unfold index_insns. destruct (register_offset s) eqn:Hr.
  2: { destruct (displace_run base d e i j k f g m Hb Hr) as [f' Hf]. by exists k, f'. }
  unfold target. rewrite (sm_mode s Hm Hr). change (2 =? 1) with false. cbv iota. unfold index. rewrite Hr.
  destruct Hs as (Hwd & _ & _ & _ & _ & Hrm & _ & _ & _ & _ & _ & Hsh & _).
  assert (0 ≤ shift s < 64) as Hshift.
  { destruct Hsh as [-> | Hsh]; [lia|]. destruct (Z_lt_le_dec (shift s) 0) as [Hlt|Hge]; [rewrite Z.pow_neg_r in Hsh by lia; lia|].
    destruct (Z_lt_le_dec 3 (shift s)) as [H3|H3]; [|lia]. assert (2 ^ 4 ≤ 2 ^ shift s) by (apply Z.pow_le_mono_r; lia). lia. }
  set (odd := nz (Z.land (option_ s) 1)).
  assert (odd = Z.odd (option_ s)) as Hodd by (unfold odd; change 1 with (Z.shiftl 1 0); by rewrite land_bit_nz, Z.bit0_odd).
  set (v := memory_register g (rm s) false). assert (fits 64 v) as Hv.
  { unfold v, memory_register. destruct (rm s =? 31); [done|]. apply (Hg (x (rm s))). }
  assert (∀ wd, X g (bits_of wd) (rm s) = v mod 2 ^ bits_of wd) as HX.
  { intros wd. unfold X, v, memory_register. by destruct (rm s =? 31), wd. }
  cbn [app]. eexists _, _. eapply steps_cons; [reflexivity|]. host.
  destruct (steps_load (rm s) false odd (Word base) d e i j (Word base) f g m Hrm) as [f1 Hl]. rewrite (steps_app _ _ _ _ Hl).
  unfold operand_value. rewrite HX. clear Hl HX.
  set (u := if Z.odd (option_ s) then v else if option_ s =? 6 then s32 v else u32 v).
  assert (∃ f2, steps (if option_ s =? 6 then [Extend true 4 true RAX (Direct RAX)] else [])
    (Build_host (Word (v mod 2 ^ bits_of odd)) CpuPtr d e i j (Word base) f1 g m) =
    Some (Build_host (Word (u mod 2 ^ 64)) CpuPtr d e i j (Word base) f2 g m)) as [f2 H2].
  { exists f1. unfold u. rewrite <- Hodd. destruct (Z.eqb_spec (option_ s) 6) as [E6|E6].
    - assert (odd = false) as -> by (by rewrite Hodd, E6). cbn [steps step]. change (4 =? 1) with false. cbv iota.
      cbn [read_operand get rax low_part mbind option_bind]. change (8 * 4) with 32. change (8 * size true) with 64.
      rewrite Z.mod_mod by done. reflexivity.
    - cbn [steps]. destruct odd; [done|]. unfold u32, wrap, bits_of. rewrite (Z.mod_small (_ mod _) (2 ^ 64)); [done|].
      pose proof (Z.mod_pos_bound v (2 ^ 32) ltac:(lia)). lia. }
  rewrite (steps_app _ _ _ _ H2). clear H2.
  assert (∃ f3, steps (if nz (shift s) then [Shift SHL true RAX (shift s)] else [])
    (Build_host (Word (u mod 2 ^ 64)) CpuPtr d e i j (Word base) f2 g m) =
    Some (Build_host (Word (u * 2 ^ shift s mod 2 ^ 64)) CpuPtr d e i j (Word base) f3 g m)) as [f3 H3].
  { destruct (nz (shift s)) eqn:E.
    - eexists. eapply steps_cons; [apply (step_shift SHL true RAX _ (u mod 2 ^ 64)); [reflexivity|apply (fits_wrap 64); lia]|].
      rewrite (shift_left true) by done. host. change (bits_of true) with 64. rewrite Zmult_mod_idemp_l. reflexivity.
    - apply nz_false in E as ->. exists f2. by rewrite Z.pow_0_r, Z.mul_1_r. }
  rewrite (steps_app _ _ _ _ H3). clear H3.
  eapply steps_cons; [apply (step_alu ADD true RAX R11 _ (u * 2 ^ shift s mod 2 ^ 64) base); [done|done|apply (fits_wrap 64); lia|done..|by right]|].
  host. cbn [alu_value]. change (bits_of true) with 64. rewrite Zplus_mod_idemp_l, Z.add_comm. reflexivity.
Qed.

(** *** The access *)

Lemma ram_in off k (m : list Z) : 0 ≤ off → off + k ≤ Z.of_nat (length m) → 0 ≤ k → ram_read m off k = Some (load_at m off k).
Proof. intros H0 H1 Hk. unfold ram_read, load_at. by rewrite bool_decide_true by lia. Qed.

Lemma load_fits off k m : 0 ≤ k → Forall (fits 8) m → fits (8 * k) (load_at m off k).
Proof.
  intros Hk Hb. unfold load_at.
  assert (∀ l, Forall (fits 8) l → fits (8 * Z.of_nat (length l)) (le_value l)) as Hl.
  { induction l as [|b l IH]; intros Hf; [done|]. apply Forall_cons_1 in Hf as [Hb0 Hf]. specialize (IH Hf). cbn [le_value length].
    unfold fits in *. change (2 ^ 8) with 256 in Hb0. replace (8 * Z.of_nat (S (length l))) with (8 + 8 * Z.of_nat (length l)) by lia.
    rewrite Z.pow_add_r by lia. change (2 ^ 8) with 256. lia. }
  eapply fits_weaken; [|apply Hl; by apply Forall_take, Forall_drop]. rewrite length_take. lia.
Qed.

Lemma le_bytes_low k v : le_bytes k (v mod 2 ^ (8 * Z.of_nat k)) = le_bytes k v.
Proof.
  revert v. induction k as [|k IH]; intros v; [done|]. change (le_bytes (S k) ?v) with (u8 v :: le_bytes k (Z.shiftr v 8)).
  assert (8 * Z.of_nat (S k) = 8 + 8 * Z.of_nat k) as -> by lia. f_equal.
  - unfold u8, wrap. apply (LoadStore.mod_mod_pow v (8 + 8 * Z.of_nat k) 8). lia.
  - rewrite <- IH, <- (IH (Z.shiftr v 8)). f_equal. rewrite !Z.shiftr_div_pow2 by done. rewrite Z.pow_add_r by lia.
    rewrite Z.rem_mul_r by lia. rewrite Z.add_comm, Z.mul_comm, Z.div_add_l by lia.
    rewrite (Z.div_small (v mod 2 ^ 8)) by (by apply Z.mod_pos_bound). by rewrite Z.add_0_r, Z.mod_mod by lia.
Qed.

Lemma store_low m off k v v' : 0 ≤ k → v mod 2 ^ (8 * k) = v' mod 2 ^ (8 * k) → store_at m off k v = store_at m off k v'.
Proof.
  intros Hk E. unfold store_at. do 2 f_equal. rewrite <- (le_bytes_low _ v), <- (le_bytes_low _ v'), Z2Nat.id by done. by rewrite E.
Qed.

Lemma store_length m off k v : 0 ≤ off → 0 ≤ k → off + k ≤ Z.of_nat (length m) → length (store_at m off k v) = length m.
Proof. intros H0 Hk Hl. unfold store_at. rewrite !length_app, length_take, length_drop, le_bytes_length. lia. Qed.

Lemma ram_out off k (m : list Z) v : 0 ≤ off → 0 ≤ k → off + k ≤ Z.of_nat (length m) → ram_write m off k v = Some (store_at m off k v).
Proof. intros H0 H1 H2. unfold ram_write. by rewrite bool_decide_true by lia. Qed.

Lemma loaded_fits raw : fits 64 (loaded s raw).
Proof. unfold loaded. apply (fits_weaken (if result64 s then 64 else 32)); [destruct (result64 s); lia|]. apply fits_wrap. destruct (result64 s); lia. Qed.

Lemma loaded_unsigned raw : signed_load s = false → 4 ≤ width s → fits (8 * width s) raw → loaded s raw = raw.
Proof.
  intros Hsg Hwd Hr. unfold loaded. rewrite Hsg, (sm_signed s Hm Hsg). cbn [andb]. apply Z.mod_small.
  destruct width_cases as [E | [E | [E | E]]]; rewrite E in *; try lia; exact Hr.
Qed.

(** An unsigned load of four or eight bytes. *)
Lemma plain_load_run reg at_ a off e j k f g m :
  0 ≤ reg < 32 → signed_load s = false → 4 ≤ width s → 0 ≤ off + at_ → off + at_ + width s ≤ Z.of_nat (length m) → Forall (fits 8) m →
  ∃ a', steps (Load (width s =? 8) RAX (Ram at_) :: save_insns reg false) (Build_host a CpuPtr RamPtr e (Word off) j k f g m) =
    Some (Build_host a' CpuPtr RamPtr e (Word off) j k f (put g reg (loaded s (load_at m (off + at_) (width s)))) m).
Proof.
  intros Hreg Hsg Hwd H0 H1 Hb. assert (size (width s =? 8) = width s) as Hsz.
  { destruct width_cases as [E | [E | [E | E]]]; rewrite E in *; done || lia. }
  pose proof (load_fits (off + at_) (width s) m ltac:(lia) Hb) as Hf. rewrite (loaded_unsigned _ Hsg Hwd Hf). eexists.
  eapply steps_cons; [cbn [step read_operand rdx r9 ram]; rewrite Hsz, ram_in by lia; reflexivity|]. host.
  rewrite steps_save; [reflexivity|done|]. apply (fits_weaken (8 * width s)); [|done]. destruct width_cases; lia.
Qed.

Lemma step_store_ram at_ v e off j k f g m :
  0 ≤ off + at_ → off + at_ + width s ≤ Z.of_nat (length m) →
  step (Store (width s) (Ram at_) RAX) (Build_host (Word v) CpuPtr RamPtr e (Word off) j k f g m) =
  Some (Build_host (Word v) CpuPtr RamPtr e (Word off) j k f g (store_at m (off + at_) (width s) v)).
Proof.
  intros H0 H1. cbn [step get rax low_part mbind option_bind write_operand rdx r9 ram]. rewrite ram_out by (done || (destruct width_cases; lia)).
  cbn [mbind option_bind]. host. do 2 f_equal. apply store_low; [destruct width_cases; lia|]. apply Z.mod_mod.
  pose proof (pow2_pos (8 * width s)). destruct width_cases; lia.
Qed.

Lemma store_run reg at_ a off e j k f g m :
  0 ≤ reg < 32 → 0 ≤ off + at_ → off + at_ + width s ≤ Z.of_nat (length m) →
  ∃ a' f', steps (load_insns reg false (width s =? 8) ++ [Store (width s) (Ram at_) RAX])
    (Build_host a CpuPtr RamPtr e (Word off) j k f g m) =
    Some (Build_host a' CpuPtr RamPtr e (Word off) j k f' g (store_at m (off + at_) (width s) (X g 64 reg))).
Proof.
  intros Hreg H0 H1. destruct (steps_load reg false (width s =? 8) a RamPtr e (Word off) j k f g m Hreg) as [f' Hl].
  eexists _, f'. rewrite (steps_app _ _ _ _ Hl). unfold operand_value. cbn [steps]. rewrite step_store_ram by done. cbn [mbind option_bind].
  do 2 f_equal. apply store_low; [destruct width_cases; lia|]. unfold X. destruct (reg =? 31); [done|].
  destruct width_cases as [E | [E | [E | E]]]; rewrite E; try done;
    [change (8 * 1) with 8|change (8 * 2) with 16|change (8 * 4) with 32]; rewrite !LoadStore.mod_mod_pow by done; reflexivity.
Qed.

(** The value of a load of one or two bytes, or of a signed one. *)
Lemma extended_value raw :
  width s ≠ 8 → ((if signed_load s then signed (8 * width s) raw else raw) mod 2 ^ bits_of (result64 s)) = loaded s raw.
Proof.
  intros Hwd. unfold loaded, signed. assert ((2 ^ (8 * width s - 1) <=? raw) = negb (raw <? 2 ^ (8 * width s - 1))) as -> by lia.
  replace (bits_of (result64 s)) with (if result64 s then 64 else 32) by (by destruct (result64 s)).
  by destruct (signed_load s), (raw <? _).
Qed.

Lemma extend_run a off e j k f g m :
  0 ≤ rt s < 32 → width s ≠ 8 → 0 ≤ off → off + width s ≤ Z.of_nat (length m) →
  ∃ a', steps (Extend (signed_load s) (width s) (result64 s) RAX (Ram 0) :: save_insns (rt s) false)
      (Build_host a CpuPtr RamPtr e (Word off) j k f g m) =
    Some (Build_host a' CpuPtr RamPtr e (Word off) j k f (put g (rt s) (loaded s (load_at m off (width s)))) m).
Proof.
  intros Hrt Hwd H0 H1. rewrite <- extended_value by done. eexists. eapply steps_cons.
  - assert (∀ h, (if width s =? 1 then byte_of h (Ram 0) else read_operand h (Ram 0) (width s)) = read_operand h (Ram 0) (width s)) as E.
    { intros h. destruct (Z.eqb_spec (width s) 1) as [->|]; done. }
    cbn [step]. rewrite E. cbn [read_operand rdx r9 ram]. rewrite Z.add_0_r, ram_in by (destruct width_cases; lia).
    cbn [mbind option_bind]. reflexivity.
  - host. rewrite size_bits, steps_save; [reflexivity|done|].
    apply (fits_weaken (bits_of (result64 s))); [destruct (result64 s); cbn; lia|]. apply fits_wrap. destruct (result64 s); cbn; lia.
Qed.

Lemma access_run a off e j k f g m :
  0 ≤ off → off + width s ≤ Z.of_nat (length m) → Forall (fits 8) m → count s = 1 →
  ∃ a' f', steps access_insns (Build_host a CpuPtr RamPtr e (Word off) j k f g m) =
    Some (Build_host a' CpuPtr RamPtr e (Word off) j k f' (transfer m g s off).1 (transfer m g s off).2).
Proof.
  intros H0 H1 Hb Hc. unfold transfer, access_insns. rewrite Hc. change (1 =? 2) with false. cbv iota.
  destruct Hs as (Hwd & _ & _ & Hrt & _ & _ & _ & _ & _ & _ & Hsg & _).
  destruct (read s) eqn:Hrd; cbn [fst snd].
  2: { pose proof (store_run (rt s) 0 a off e j k f g m Hrt) as Hst. rewrite !Z.add_0_r in Hst. by apply Hst. }
  destruct ((width s <? 4) || signed_load s) eqn:E.
  - destruct (extend_run a off e j k f g m Hrt) as [a' Hr]; [|done..|by exists a', f].
    apply orb_prop in E as [E|E]; [lia|]. by apply Hsg.
  - apply orb_false_elim in E as [E E']. rewrite (sm_signed s Hm E').
    destruct (plain_load_run (rt s) 0 a off e j k f g m Hrt E') as [a' Hr]; [lia..|done|]. rewrite !Z.add_0_r in Hr. by exists a', f.
Qed.
Lemma element_run reg at_ a off e j k f g m :
  0 ≤ reg < 32 → count s = 2 → 0 ≤ off + at_ → off + at_ + width s ≤ Z.of_nat (length m) → Forall (fits 8) m →
  ∃ a' f', steps (element_insns reg at_) (Build_host a CpuPtr RamPtr e (Word off) j k f g m) =
    Some (Build_host a' CpuPtr RamPtr e (Word off) j k f'
      (if read s then put g reg (loaded s (load_at m (off + at_) (width s))) else g)
      (if read s then m else store_at m (off + at_) (width s) (X g 64 reg))).
Proof.
  intros Hreg Hc H0 H1 Hb. unfold element_insns. destruct (read s); [|by apply store_run].
  destruct (sm_pair s Hm Hc) as [Hsg _]. pose proof (pair_width Hc).
  destruct (plain_load_run reg at_ a off e j k f g m Hreg Hsg) as [a' Hr]; [lia..|done|]. by exists a', f.
Qed.

Lemma le_bytes_fits k v : Forall (fits 8) (le_bytes k v).
Proof. revert v. induction k as [|k IH]; intros v; [by apply Forall_nil_2|]. apply Forall_cons_2; [by apply (fits_wrap 8)|apply IH]. Qed.

Lemma store_bytes m off k v : Forall (fits 8) m → Forall (fits 8) (store_at m off k v).
Proof.
  intros Hb. unfold store_at. repeat apply Forall_app_2; [by apply Forall_take|apply le_bytes_fits|by apply Forall_drop].
Qed.

Lemma pair_run a off e j at_ f g m :
  fits 64 at_ → at_ + width s < 2 ^ 64 → 0 ≤ off → off + 2 * width s ≤ Z.of_nat (length m) → Forall (fits 8) m → count s = 2 →
  ∃ a' f', steps pair_transfer (Build_host a CpuPtr RamPtr e (Word off) j (Word (at_ + width s)) f g m) =
    Some (Build_host a' CpuPtr RamPtr e (Word off) j (Word at_) f' (transfer m g s off).1 (transfer m g s off).2).
Proof.
  intros Ha Hw' H0 H1 Hb Hc. unfold transfer, pair_transfer. rewrite Hc. change (2 =? 2) with true. cbv iota.
  destruct Hs as (Hwd & _ & _ & Hrt & Hrt2 & _). pose proof (pair_width Hc) as Hwp. cbn [app].
  assert (fits 64 (at_ + width s)) as Hf1 by (unfold fits in *; lia).
  assert (0 ≤ width s < 2 ^ 7) as Hw7 by lia.
  set (g1 := if read s then put g (rt s) (loaded s (load_at m off (width s))) else g).
  set (m1 := if read s then m else store_at m off (width s) (X g 64 (rt s))).
  destruct (element_run (rt s) 0 a off e j (Word at_) (alu_flags SUB 8 (at_ + width s) (width s)) g m Hrt Hc) as (a1 & f1 & H2); [lia..|done|].
  destruct (element_run (rt2 s) (width s) a1 off e j (Word at_) f1 g1 m1 Hrt2 Hc) as (a2 & f2 & H3); [lia|unfold m1..|].
  { destruct (read s); [lia|]. rewrite store_length by lia. lia. }
  { destruct (read s); [done|]. by apply store_bytes. }
  exists a2, f2. eapply steps_cons.
  { rewrite (step_alu_imm8 SUB true R11 _ _ (at_ + width s)) by done. cbn [alu_writes]. cbn [alu_value].
    replace (at_ + width s - width s) with at_ by lia. change (bits_of true) with 64. rewrite Z.mod_small by done. reflexivity. }
  host. rewrite Z.add_0_r in H2. rewrite (steps_app _ _ _ _ H2). fold g1 m1. rewrite H3. unfold g1, m1. by destruct (read s).
Qed.

Lemma writeback_run g base e j i d f g' m :
  fits 64 base →
  ∃ a' f', steps writeback_insns (Build_host d CpuPtr RamPtr e i j (Word (target g base)) f g' m) =
    Some (Build_host a' CpuPtr RamPtr e i j (Word (target g base)) f'
      (if mode s =? 2 then g' else put_sp g' (rn s) ((base + index g s) mod 2 ^ 64)) m).
Proof.
  intros Hb. unfold writeback_insns. destruct (mode s =? 2) eqn:E2; cbn [negb]; [by eexists _, _|].
  assert (register_offset s = false) as Hr.
  { destruct (register_offset s) eqn:E; [|done]. rewrite (sm_mode s Hm E) in E2. done. }
  destruct Hs as (_ & _ & Hrn & _). cbn [app]. unfold target.
  assert (index g s = displacement s) as -> by (unfold index; by rewrite Hr). destruct (mode s =? 1).
  - destruct (step_displace base CpuPtr RamPtr e i j (Word base) f g' m Hb) as [f' Hf]. eexists _, f'.
    eapply steps_cons; [reflexivity|]. host. cbn [displace_insns app]. eapply steps_cons; [exact Hf|].
    rewrite steps_save; [reflexivity|done|]. apply (fits_wrap 64). lia.
  - eexists _, f. eapply steps_cons; [reflexivity|]. host. cbn [app]. rewrite steps_save; [reflexivity|done|]. apply (fits_wrap 64). lia.
Qed.

(** *** The checks *)

Lemma guard_within k cc test code : within 3 test → within k code → within (4 + k) (guard cc test code).
Proof. intros Ht Hc. unfold guard. eapply within_le; [eapply within_app; [exact Ht|eapply within_cons; exact Hc]|lia]. Qed.

Lemma room_within2 k : within 2 (room_test k).
Proof. done. Qed.
Lemma bound_within2 : within 3 (Store 8 (Direct R10) R8 :: bound_test).
Proof. done. Qed.

Lemma bytes_64 (m : list Z) k : Z.of_nat (length m) < 2 ^ 64 → 0 ≤ k ≤ Z.of_nat (length m) → fits 64 (Z.of_nat (length m) - k).
Proof. unfold fits. lia. Qed.

Lemma offset_run a b e j k f g m :
  typed g → fits 64 a → guest_base (Some cpu) = g guest_ram_base →
  steps offset_test (Build_host b CpuPtr RamPtr e (Word a) j k f g m) =
  Some (Build_host (Word (g guest_ram_base)) CpuPtr RamPtr e (Word ((a - g guest_ram_base) mod 2 ^ 64)) j k
          (alu_flags SUB 8 a (g guest_ram_base)) g m).
Proof.
  intros Hg Ha Hb. unfold offset_test. rewrite Hb. assert (fits 64 (g guest_ram_base)) as HB by (apply (Hg guest_ram_base)).
  cbn [steps]. rewrite step_mov_imm by done. cbn [mbind option_bind]. host.
  rewrite (step_alu SUB true R9 RAX _ a (g guest_ram_base)) by (done || by left). cbn [mbind option_bind]. host. reflexivity.
Qed.

Lemma room_run k l b i j c f g m :
  fits 64 l → 0 ≤ k < 2 ^ 7 →
  steps (room_test k) (Build_host b CpuPtr RamPtr (Word l) i j c f g m) =
  Some (Build_host b CpuPtr RamPtr (Word l) i j c (alu_flags CMP 8 l k) g m).
Proof. intros Hl Hk. unfold room_test. cbn [steps]. rewrite (step_alu_imm8 CMP true R8 _ _ l) by done. reflexivity. Qed.

Lemma bound_run l off a e c f g m :
  fits 64 l → fits 64 off → width s ≤ l →
  steps bound_test (Build_host a CpuPtr RamPtr e (Word off) (Word l) c f g m) =
  Some (Build_host a CpuPtr RamPtr e (Word off) (Word (l - width s)) c (alu_flags CMP 8 off (l - width s)) g m).
Proof.
  intros Hl Ho Hk. assert (0 < width s ≤ 8) as Hwd by (destruct width_cases; lia). unfold bound_test. cbn [steps].
  rewrite (step_alu_imm8 SUB true R10 _ _ l) by (done || lia). cbn [alu_writes alu_value mbind option_bind]. host.
  change (bits_of true) with 64. assert (fits 64 (l - width s)) as Hf by (unfold fits in *; lia). rewrite Z.mod_small by done.
  rewrite (step_test CMP true R9 R10 _ off (l - width s)) by done. reflexivity.
Qed.

Lemma above_bound off l :
  fits 64 off → fits 64 l → condition (alu_flags CMP 8 off l) 7 = Some (l <? off).
Proof.
  intros Ho Hl. rewrite (condition_above _ (off <? l) ((off - l) mod 2 ^ 64 =? 0)) by done. f_equal.
  destruct (Z.ltb_spec off l) as [H|H]; cbn [orb negb]; [lia|]. unfold fits in *. rewrite Z.mod_small by lia. lia.
Qed.

Lemma results_first k code a rest b j f g m o :
  typed g → fits 64 a → Z.of_nat (length m) < 2 ^ 64 → guest_base (Some cpu) = g guest_ram_base → within k code → k ≤ 2 ^ 9 →
  (in_memory g m a (width s) = false → o = Exit VF_DATA_ABORT pc_ 0 (g.[far := a]) m) →
  (in_memory g m a (width s) = true → ∀ b f, results (enc (code ++ blocks) ++ rest) rest
     (Build_host b CpuPtr RamPtr (Word (Z.of_nat (length m))) (Word (a - g guest_ram_base))
        (Word (Z.of_nat (length m) - width s)) (Word a) f g m) n o) →
  results (enc (first_checks code ++ blocks) ++ rest) rest
    (Build_host b CpuPtr RamPtr (Word (Z.of_nat (length m))) (Word a) j (Word a) f g m) n o.
Proof.
  intros Hg Ha Hl Hbase Hk Hkk Hout Hin. pose proof (offset_run a b (Word (Z.of_nat (length m))) j (Word a) f g m Hg Ha Hbase) as Hoff.
  set (L := Z.of_nat (length m)) in *. set (B := g guest_ram_base) in *.
  assert (fits 64 B) as HB by (apply (Hg guest_ram_base)). assert (fits 64 L) as HL by (unfold fits; lia).
  assert (0 < width s ≤ 8) as Hwd by (destruct width_cases; lia).
  assert (in_memory g m a (width s) = (B <=? a) && (a + width s <=? B + L)) as Hm' by reflexivity.
  unfold first_checks. eapply (results_guard 2 _ _ (8 + k) (a <? B)); [exact Hoff| |reflexivity|reflexivity| |lia| |lia|done|done|intros E|intros E].
  - unfold offset_test. rewrite Hbase. foralls; insn_ok.
  - by apply condition_carry.
  - eapply within_le; [do 2 (apply guard_within; [done|]); exact Hk|lia].
  - apply Hout. rewrite Hm'. lia.
  - apply Z.ltb_ge in E. assert ((a - B) mod 2 ^ 64 = a - B) as -> by (apply Z.mod_small; unfold fits in *; lia).
    eapply (results_guard 2 _ _ (4 + k) (L <? width s)); [apply room_run; [done|lia]|unfold room_test; foralls; insn_ok|reflexivity|reflexivity| |lia| |lia|done|done|intros E'|intros E'].
    + by apply condition_carry.
    + apply guard_within; [done|exact Hk].
    + apply Hout. rewrite Hm'. lia.
    + apply Z.ltb_ge in E'.
      eapply (results_guard 7 _ _ k (L - width s <? a - B));
        [eapply steps_cons; [reflexivity|]; host; apply bound_run; [done|unfold fits in *; lia|lia]
        | |reflexivity|reflexivity| |lia|exact Hk|lia|done|done|intros E2|intros E2].
      * unfold bound_test. foralls; insn_ok.
      * apply above_bound; unfold fits in *; lia.
      * apply Hout. rewrite Hm'. lia.
      * apply Hin. rewrite Hm'. lia.
Qed.
Lemma results_second k code a rest b f g m o :
  typed g → fits 64 a → Z.of_nat (length m) < 2 ^ 64 → within k code → k ≤ 2 ^ 9 → count s = 2 →
  in_memory g m a (width s) = true →
  ((2 ^ 64 <=? a + width s) || negb (in_memory g m (a + width s) (width s)) = true →
   o = Exit VF_DATA_ABORT pc_ 0 (g.[far := (a + width s) mod 2 ^ 64]) m) →
  ((2 ^ 64 <=? a + width s) || negb (in_memory g m (a + width s) (width s)) = false →
   ∀ b j f, results (enc (code ++ blocks) ++ rest) rest
     (Build_host b CpuPtr RamPtr (Word (Z.of_nat (length m))) (Word (a - g guest_ram_base)) j (Word (a + width s)) f g m) n o) →
  results (enc (second_checks code ++ blocks) ++ rest) rest
    (Build_host b CpuPtr RamPtr (Word (Z.of_nat (length m))) (Word (a - g guest_ram_base))
        (Word (Z.of_nat (length m) - width s)) (Word a) f g m) n o.
Proof.
  intros Hg Ha Hl Hk Hkk Hc Hfirst Hout Hin. pose proof (pair_width Hc) as Hwd.
  set (L := Z.of_nat (length m)) in *. set (B := g guest_ram_base) in *.
  assert (∀ v, in_memory g m v (width s) = (B <=? v) && (v + width s <=? B + L)) as Hm' by reflexivity.
  rewrite Hm' in *. apply andb_prop in Hfirst as [Hfirst1%Z.leb_le Hfirst2%Z.leb_le].
  assert (fits 64 B) as HB by (apply (Hg guest_ram_base)). assert (fits 64 L) as HL by (unfold fits; lia).
  unfold second_checks. eapply (results_guard 2 _ _ (8 + k) (2 ^ 64 <=? a + width s) _ _ b RamPtr (Word L) _ _ ((a + width s) mod 2 ^ 64));
    [| |reflexivity|reflexivity| |lia| |lia|done|apply (fits_wrap 64); lia|intros E|intros E].
  - cbn [steps]. rewrite (step_alu_imm8 ADD true R11 _ _ a) by (done || lia). cbn [alu_writes alu_value mbind option_bind]. host. reflexivity.
  - foralls; insn_ok.
  - by apply condition_carry.
  - eapply within_le; [do 2 (apply guard_within; [done|]); exact Hk|lia].
  - apply Hout. by rewrite E.
  - rewrite E in *. cbn [orb] in *. apply Z.leb_gt in E. assert (fits 64 (a + width s)) as Ha2 by (unfold fits in *; lia).
    assert ((a + width s) mod 2 ^ 64 = a + width s) as Hmod by (by apply Z.mod_small). rewrite !Hmod in *.
    eapply (results_guard 2 _ _ (4 + k) (L <? 2 * width s)); [apply room_run; [done|lia]|unfold room_test; foralls; insn_ok|reflexivity|reflexivity| |lia| |lia|done|done|intros E'|intros E'].
    + by apply condition_carry.
    + apply guard_within; [done|exact Hk].
    + apply Hout. lia.
    + apply Z.ltb_ge in E'. eapply (results_guard 7 _ _ k (L - width s - width s <? a - B));
        [apply bound_run; [unfold fits in *; lia..|lia]| |reflexivity|reflexivity| |lia|exact Hk|lia|done|done|intros E2|intros E2].
      * unfold bound_test. foralls; insn_ok.
      * apply above_bound; unfold fits in *; lia.
      * apply Hout. lia.
      * apply Hin. lia.
Qed.

Lemma displace_ok : Forall insn_ok displace_insns.
Proof. apply Forall_cons_2; [|apply Forall_nil_2]. split; [done|]. by apply (fits_wrap 32). Qed.
#[local] Hint Resolve displace_ok : code.

(** The end of the access. *)
Lemma results_body xfer rest g0 base m g' m' h h' e i j a f :
  steps xfer h = Some h' → h' = Build_host a CpuPtr RamPtr e i j (Word (target g0 base)) f g' m' → rdx h = RamPtr → r8 h = e →
  Forall insn_ok xfer → fits 64 base → ram h = m →
  results (enc (body xfer ++ blocks) ++ rest) rest h n
    (Next (if mode s =? 2 then g' else put_sp g' (rn s) ((base + index g0 s) mod 2 ^ 64)) m').
Proof.
  intros Hst -> Hd He Hok Hb _. unfold body. rewrite <- !app_assoc. eapply results_app; [exact Hst|done|by rewrite Hd|by rewrite He|].
  destruct (writeback_run g0 base e j i a f g' m' Hb) as (a2 & f2 & Hw2).
  eapply results_app; [exact Hw2| |reflexivity|reflexivity|].
  - unfold writeback_insns. destruct Hs as (_ & _ & Hrn & _). code_ok.
  - cbn [app]. eapply (results_jmp blocks []); [by rewrite app_nil_r| |apply results_here].
    unfold blocks. short_ok.
Qed.
Lemma width_power : ∃ k, 0 ≤ k ≤ 3 ∧ width s = 2 ^ k.
Proof. destruct width_cases as [E | [E | [E | E]]]; rewrite E; [exists 0|exists 1|exists 2|exists 3]; lia. Qed.

(** A test of the low bits of the address, and a jump to the fault [st]. *)
Lemma results_low_bits k st code before after_ a rest d e i j f g m o :
  0 ≤ k ≤ 8 → typed g → fits 64 a → fits 32 st → short (code ++ before) →
  (a mod 2 ^ k ≠ 0 → o = Exit st pc_ 0 (g.[far := a]) m) →
  (a mod 2 ^ k = 0 → ∀ f, results (enc (code ++ before ++ fault_insns st ++ after_) ++ rest) rest
     (Build_host (Word a) CpuPtr d e i j (Word a) f g m) n o) →
  results (enc (TestAl (2 ^ k - 1) :: Jcc 5 (bytes_of (code ++ before)) :: code ++ before ++ fault_insns st ++ after_) ++ rest) rest
    (Build_host (Word a) CpuPtr d e i j (Word a) f g m) n o.
Proof.
  intros Hk Hg Ha Hst Hs' Hout Hin. destruct (step_align k a CpuPtr d e i j (Word a) f g m Hk) as (f1 & Hstep & Hz).
  eapply results_step; [exact Hstep|done|reflexivity..|].
  eapply (results_jcc 5 (code ++ before) (fault_insns st ++ after_) _ _ _ (negb (a mod 2 ^ k =? 0))); [by apply condition_nonzero|done|by rewrite <- !app_assoc|done|].
  destruct (Z.eqb_spec (a mod 2 ^ k) 0) as [E|E]; cbn [negb]; [by apply Hin|]. rewrite Hout by done. by apply results_fault.
Qed.

Lemma results_aligned k code a rest d e i j c f g m o :
  typed g → fits 64 a → within k code → k ≤ 2 ^ 10 →
  (a mod width s ≠ 0 → o = Exit VF_ALIGNMENT_FAULT pc_ 0 (g.[far := a]) m) →
  (a mod width s = 0 → ∀ f, results (enc (code ++ blocks) ++ rest) rest (Build_host (Word a) CpuPtr d e (Word a) j (Word a) f g m) n o) →
  results (enc (aligned code ++ blocks) ++ rest) rest (Build_host (Word a) CpuPtr d e i j c f g m) n o.
Proof.
  intros Hg Ha Hk Hkk Hout Hin. unfold aligned. rewrite <- app_assoc. eapply results_app; [reflexivity|foralls; insn_ok|reflexivity..|]. host.
  destruct width_power as (p & Hp & Ew). destruct (1 <? width s) eqn:E1.
  - assert (align_block = fault_insns VF_ALIGNMENT_FAULT) as Eb by (unfold align_block; by rewrite E1).
    rewrite Ew in Hout, Hin |- *. cbn [app].
    assert (code ++ blocks = code ++ sp_block ++ fault_insns VF_ALIGNMENT_FAULT ++ data_block) as Eq by (unfold blocks; by rewrite Eb).
    rewrite Eq in *. apply results_low_bits; [lia|done..| |exact Hout|exact Hin].
    eapply within_short; [eapply within_app; [exact Hk|within_bound]|lia].
  - apply Hin. assert (width s = 1) as -> by (destruct width_cases; lia). by rewrite Z.mod_1_r.
Qed.

Lemma results_stack k code a rest d e i j c f g m o :
  checked = true → typed g → fits 64 a → within k code → k ≤ 2 ^ 10 →
  (a mod 16 ≠ 0 → o = Exit VF_SP_ALIGNMENT_FAULT pc_ 0 (g.[far := a]) m) →
  (a mod 16 = 0 → ∀ f, results (enc (code ++ blocks) ++ rest) rest (Build_host (Word a) CpuPtr d e i j (Word a) f g m) n o) →
  results (enc (stack_test code ++ blocks) ++ rest) rest (Build_host (Word a) CpuPtr d e i j c f g m) n o.
Proof.
  intros Hch Hg Ha Hk Hkk Hout Hin. unfold stack_test. rewrite <- app_assoc. eapply results_step; [reflexivity|insn_ok|reflexivity..|]. host.
  cbn [app]. assert (sp_block = fault_insns VF_SP_ALIGNMENT_FAULT) as Eb by (unfold sp_block; by rewrite Hch).
  assert (code ++ blocks = code ++ [] ++ fault_insns VF_SP_ALIGNMENT_FAULT ++ align_block ++ data_block) as Eq by (unfold blocks; by rewrite Eb).
  rewrite Eq in *. replace (bytes_of code) with (bytes_of (code ++ [])) by (by rewrite app_nil_r).
  change 15 with (2 ^ 4 - 1). apply results_low_bits; [lia|done..| |exact Hout|exact Hin].
  rewrite app_nil_r. eapply within_short; [exact Hk|lia].
Qed.
(** *** The whole access *)

Lemma body_within k xfer : within k xfer → within (4 + k) (body xfer).
Proof. intros Hk. unfold body. eapply within_le; [eapply within_app; [exact Hk|within_bound]|lia]. Qed.
Lemma first_within k code : within k code → within (12 + k) (first_checks code).
Proof. intros Hk. unfold first_checks. eapply within_le; [do 3 (apply guard_within; [done|]); exact Hk|lia]. Qed.
Lemma second_within k code : within k code → within (12 + k) (second_checks code).
Proof. intros Hk. unfold second_checks. eapply within_le; [do 3 (apply guard_within; [done|]); exact Hk|lia]. Qed.
Lemma aligned_within k code : within k code → within (4 + k) (aligned code).
Proof. intros Hk. unfold aligned. unfold within in *. destruct (1 <? width s); cbn [app length]; lia. Qed.
Lemma pair_transfer_within : within 5 pair_transfer.
Proof. unfold pair_transfer. within_ok. Qed.

(** The access once its base is known. *)
Definition access_at (g : vf_cpu) (m : list Z) (base : Z) : outcome :=
  let fault st far_ := Exit st pc_ 0 (g.[far := far_]) m in
  if checked && negb (base mod 16 =? 0) then fault VF_SP_ALIGNMENT_FAULT base
  else
    let a := target g base in
    if negb (a mod width s =? 0) then fault VF_ALIGNMENT_FAULT a
    else
      match faulting g m s a with
      | Some a => fault VF_DATA_ABORT a
      | None =>
        Next (if mode s =? 2 then (transfer m g s (a - g guest_ram_base)).1
              else put_sp (transfer m g s (a - g guest_ram_base)).1 (rn s) ((base + index g s) mod 2 ^ 64))
             (transfer m g s (a - g guest_ram_base)).2
      end.

Definition entry (g : vf_cpu) (m : list Z) : Prop :=
  typed g ∧ Z.of_nat (length m) < 2 ^ 64 ∧ Forall (fits 8) m ∧ guest_base (Some cpu) = g guest_ram_base.

Lemma results_single g m base rest i j k f :
  entry g m → count s = 1 → fits 64 base → Forall insn_ok access_insns → Forall insn_ok index_insns →
  (checked = true → base mod 16 = 0) →
  results (enc (scalar_main ++ blocks) ++ rest) rest
    (Build_host (Word base) CpuPtr RamPtr (Word (Z.of_nat (length m))) i j k f g m) n (access_at g m base).
Proof.
  intros (Hg & Hl & Hb & Hbase) Hc Hf Hok Hoki Hal. unfold scalar_main. rewrite <- app_assoc.
  destruct (index_run base RamPtr (Word (Z.of_nat (length m))) i j k f g m Hg Hf) as (k1 & f1 & Hi).
  eapply results_app; [exact Hi|done|reflexivity..|]. pose proof (target_fits g base Hf) as Ht.
  assert (access_at g m base = access_at g m base) as Ho by done. unfold access_at in Ho at 2.
  replace (checked && negb (base mod 16 =? 0)) with false in Ho.
  2: { destruct checked; [|done]. by rewrite Hal by done. }
  cbv zeta in Ho. set (a := target g base) in *. set (o := access_at g m base) in *. clearbody o.
  pose proof (body_within 2 _ access_within) as Hwb. pose proof (first_within _ _ Hwb) as Hwf.
  apply (results_aligned _ _ a _ _ _ _ _ _ _ _ _ _ Hg Ht Hwf); [lia|intros E; rewrite Ho; by rewrite (proj2 (Z.eqb_neq _ _) E)|].
  intros E f2. rewrite E in Ho. change (0 =? 0) with true in Ho. cbn [negb] in Ho. unfold faulting in Ho. rewrite Hc in Ho.
  change (1 =? 2) with false in Ho. cbn [andb] in Ho.
  apply (results_first _ _ a _ _ _ _ _ _ _ Hg Ht Hl Hbase Hwb); [lia|intros Em; rewrite Em in Ho; exact Ho|].
  intros Em b f3. rewrite Em in Ho. cbn [negb] in Ho. rewrite Ho. unfold in_memory in Em.
  destruct (access_run b (a - g guest_ram_base) (Word (Z.of_nat (length m))) (Word (Z.of_nat (length m) - width s)) (Word a) f3 g m) as (a' & f' & Hr); [lia..|done|done|].
  eapply results_body; [exact Hr|reflexivity|done..].
Qed.
Lemma results_pair g m base rest i j k f a0 :
  entry g m → count s = 2 → base = XSP g 64 (rn s) → fits 64 base → Forall insn_ok pair_transfer →
  (checked = true → base mod 16 = 0) →
  results (enc (pair_main ++ blocks) ++ rest) rest
    (Build_host a0 CpuPtr RamPtr (Word (Z.of_nat (length m))) i j k f g m) n (access_at g m base).
Proof.
  intros (Hg & Hl & Hb & Hbase) Hc Hx Hf Hok Hal. unfold pair_main. destruct (sm_pair s Hm Hc) as [_ Hr].
  pose proof Hs as (_ & _ & Hrn & _). go_load. change (bits_of true) with 64. rewrite <- Hx.
  match goal with |- results _ _ (Build_host _ _ _ _ _ _ _ ?f0 _ _) _ _ =>
    destruct (displace_run base RamPtr (Word (Z.of_nat (length m))) i j k f0 g m Hf Hr) as (f1 & Hi) end.
  eapply results_app; [exact Hi|code_ok|reflexivity..|]. pose proof (target_fits g base Hf) as Ht.
  assert (access_at g m base = access_at g m base) as Ho by done. unfold access_at in Ho at 2.
  replace (checked && negb (base mod 16 =? 0)) with false in Ho.
  2: { destruct checked; [|done]. by rewrite Hal by done. }
  cbv zeta in Ho. set (a := target g base) in *. set (o := access_at g m base) in *. clearbody o.
  pose proof (body_within 5 _ pair_transfer_within) as Hwb. pose proof (second_within _ _ Hwb) as Hws. pose proof (first_within _ _ Hws) as Hwf.
  apply (results_aligned _ _ a _ _ _ _ _ _ _ _ _ _ Hg Ht Hwf); [lia|intros E; rewrite Ho; by rewrite (proj2 (Z.eqb_neq _ _) E)|].
  intros E f2. rewrite E in Ho. change (0 =? 0) with true in Ho. cbn [negb] in Ho. unfold faulting in Ho. rewrite Hc in Ho.
  change (2 =? 2) with true in Ho. cbn [andb] in Ho.
  apply (results_first _ _ a _ _ _ _ _ _ _ Hg Ht Hl Hbase Hws); [lia|intros Em; rewrite Em in Ho; exact Ho|].
  intros Em b f3. rewrite Em in Ho. cbn [negb] in Ho.
  apply (results_second _ _ a _ _ _ _ _ _ Hg Ht Hl Hwb); [lia|done|done|intros E2; rewrite E2 in Ho; exact Ho|].
  intros E2 b' j' f4. rewrite E2 in Ho. rewrite Ho. pose proof (pair_width Hc) as Hwd. apply orb_false_elim in E2 as [E2 E3].
  unfold in_memory in Em, E3.
  destruct (pair_run b' (a - g guest_ram_base) (Word (Z.of_nat (length m))) j' a f4 g m Ht) as (a' & f' & Hr'); [lia..|done|done|].
  eapply results_body; [exact Hr'|reflexivity|done..].
Qed.
(** *** The code is in range *)

Lemma guard_ok k cc test code :
  0 ≤ cc < 16 → Forall insn_ok test → Forall insn_ok code → within k code → k ≤ 2 ^ 10 → Forall insn_ok (guard cc test code).
Proof.
  intros Hc Ht Hk Hw' Hkk. unfold guard. apply Forall_app_2; [done|]. apply Forall_cons_2; [|done].
  apply jcc_ok; [done|]. eapply within_short; [eapply within_app; [exact Hw'|within_bound]|lia].
Qed.

Lemma fault_ok st : fits 32 st → Forall insn_ok (fault_insns st).
Proof. intros Hst. unfold fault_insns. apply Forall_cons_2; [insn_ok|]. apply finish_ok; done || lia. Qed.
Lemma blocks_ok : Forall insn_ok blocks.
Proof.
  unfold blocks, sp_block, align_block, data_block. repeat apply Forall_app_2; [destruct checked|destruct (1 <? width s)|]; first [by apply fault_ok | apply Forall_nil_2].
Qed.

Lemma access_ok : Forall insn_ok access_insns.
Proof.
  unfold access_insns. destruct Hs as (Hwd & _ & _ & Hrt & _ & _ & _ & _ & _ & _ & Hsg & _). destruct (read s).
  - apply Forall_cons_2; [|code_ok]. destruct ((width s <? 4) || signed_load s) eqn:E; [|done]. cbn [insn_ok operand_ok].
    split; [|done]. destruct (signed_load s); [|lia]. specialize (Hsg eq_refl). lia.
  - apply Forall_app_2; [code_ok|]. foralls. by split.
Qed.

Lemma element_ok reg at_ : 0 ≤ reg < 32 → 0 ≤ at_ < 128 → Forall insn_ok (element_insns reg at_).
Proof.
  intros Hr Ha. unfold element_insns. destruct (read s); [apply Forall_cons_2; [|code_ok]|apply Forall_app_2; [code_ok|foralls]].
  - cbn. lia.
  - destruct width_cases as [-> | [-> | [-> | ->]]]; cbn; lia.
Qed.

Lemma index_ok : Forall insn_ok index_insns.
Proof. unfold index_insns. destruct Hs as (_ & _ & _ & _ & _ & Hrm & _). code_ok. Qed.

Lemma blocks_within : within 18 blocks.
Proof. unfold blocks. within_ok. Qed.
#[local] Hint Resolve blocks_within : short.

Lemma body_ok xfer : Forall insn_ok xfer → Forall insn_ok (body xfer).
Proof.
  intros Hx. unfold body. destruct Hs as (_ & _ & Hrn & _). apply Forall_app_2; [done|]. unfold writeback_insns. code_ok.
Qed.

Lemma first_ok k code : Forall insn_ok code → within k code → k ≤ 2 ^ 9 → guest_base (Some cpu) = cpu guest_ram_base → fits 64 (cpu guest_ram_base) →
  Forall insn_ok (first_checks code).
Proof.
  intros Hc Hk Hkk Hb Hf. unfold first_checks.
  eapply (guard_ok (8 + k)); [lia|unfold offset_test; rewrite Hb; foralls; insn_ok| |eapply within_le; [do 2 (apply guard_within; [done|]); exact Hk|lia]|lia].
  eapply (guard_ok (4 + k)); [lia|unfold room_test; foralls; insn_ok| |by apply guard_within|lia].
  eapply (guard_ok k); [lia|unfold bound_test; foralls; insn_ok|done..|lia].
Qed.

Lemma second_ok k code : Forall insn_ok code → within k code → k ≤ 2 ^ 9 → Forall insn_ok (second_checks code).
Proof.
  intros Hc Hk Hkk. unfold second_checks.
  eapply (guard_ok (8 + k)); [lia|foralls; insn_ok| |eapply within_le; [do 2 (apply guard_within; [done|]); exact Hk|lia]|lia].
  eapply (guard_ok (4 + k)); [lia|unfold room_test; foralls; insn_ok| |by apply guard_within|lia].
  eapply (guard_ok k); [lia|unfold bound_test; foralls; insn_ok|done..|lia].
Qed.

Lemma aligned_ok k code : Forall insn_ok code → within k code → k ≤ 2 ^ 10 → Forall insn_ok (aligned code).
Proof.
  intros Hc Hk Hkk. unfold aligned. apply Forall_app_2; [foralls; insn_ok|]. destruct (1 <? width s); [|done].
  apply Forall_cons_2; [done|]. apply Forall_cons_2; [|done]. apply jcc_ok; [lia|].
  eapply within_short; [eapply within_app; [exact Hk|within_bound]|lia].
Qed.

Lemma stack_ok k code : Forall insn_ok code → within k code → k ≤ 2 ^ 10 → Forall insn_ok (stack_test code).
Proof.
  intros Hc Hk Hkk. unfold stack_test. apply Forall_app_2; [foralls; insn_ok|].
  apply Forall_cons_2; [|done]. apply jcc_ok; [lia|]. eapply within_short; [exact Hk|lia].
Qed.

Lemma scalar_main_within : within 27 scalar_main.
Proof.
  unfold scalar_main. eapply within_le; [eapply within_app; [apply index_within|apply aligned_within, first_within, body_within, access_within]|lia].
Qed.

Lemma pair_main_within : within 39 pair_main.
Proof.
  unfold pair_main. apply (within_le (1 + (Z.max 1 0 + (4 + (12 + (12 + (4 + 5))))))); [|lia]. apply within_app; [apply load_within|].
  apply within_app; [by apply within_if|]. by apply aligned_within, first_within, second_within, body_within, pair_transfer_within.
Qed.

Lemma scalar_ok : fits 64 (cpu guest_ram_base) → Forall insn_ok scalar_insns.
Proof.
  intros Hf. pose proof Hs as (_ & _ & Hrn & _). pose proof (body_within _ _ access_within) as Hwb.
  assert (Forall insn_ok scalar_main) as Hmain.
  { unfold scalar_main. apply Forall_app_2; [apply index_ok|]. eapply aligned_ok; [|apply first_within; exact Hwb|lia].
    eapply first_ok; [apply body_ok, access_ok|exact Hwb|lia|done|done]. }
  unfold scalar_insns. apply Forall_cons_2; [insn_ok|]. apply Forall_app_2; [code_ok|]. apply Forall_app_2; [|apply blocks_ok].
  destruct checked; [|done]. eapply stack_ok; [done|apply scalar_main_within|lia].
Qed.

Lemma pair_transfer_ok : count s = 2 → Forall insn_ok pair_transfer.
Proof.
  intros Hc. pose proof Hs as (Hwd & _ & _ & Hrt & Hrt2 & _). unfold pair_transfer.
  apply Forall_app_2; [foralls; insn_ok|]. apply Forall_app_2; apply element_ok; done || lia.
Qed.

Lemma pair_ok : fits 64 (cpu guest_ram_base) → count s = 2 → Forall insn_ok pair_insns.
Proof.
  intros Hf Hc. pose proof Hs as (_ & _ & Hrn & _). pose proof (body_within _ _ pair_transfer_within) as Hwb. pose proof (second_within _ _ Hwb) as Hws.
  assert (Forall insn_ok pair_main) as Hmain.
  { unfold pair_main. apply Forall_app_2; [code_ok|]. apply Forall_app_2; [code_ok|].
    eapply aligned_ok; [|apply first_within; exact Hws|lia].
    eapply first_ok; [|exact Hws|lia|done|done]. eapply second_ok; [by apply body_ok, pair_transfer_ok|exact Hwb|lia]. }
  unfold pair_insns. apply Forall_cons_2; [insn_ok|]. apply Forall_app_2; [|apply blocks_ok].
  destruct checked; [|done]. apply Forall_app_2; [code_ok|]. eapply stack_ok; [done|apply pair_main_within|lia].
Qed.
(** *** Simulation *)

Lemma regime_same g : (∀ f, f ∈ regime_fields → g f = cpu f) →
  regime_ok g = negb (unsupported_regime (Some cpu)) ∧ checked = (rn s =? 31) && stack_checked g ∧ guest_base (Some cpu) = g guest_ram_base.
Proof.
  intros Hf. unfold regime_ok, unsupported_regime, checked, checks_stack, stack_checked, guest_base.
  rewrite !Hf by (rewrite list_elem_of_In; cbn; tauto). split_and!; [|f_equal|done].
  - rewrite land_bit_nz by (destruct (_ =? _); lia). unfold nz. rewrite !negb_orb, !negb_involutive.
    replace (cpu current_el <=? VF_EL1) with (negb (VF_EL1 <? cpu current_el)) by lia. by rewrite !andb_assoc.
  - rewrite <- (land_bit_nz _ (if cpu current_el =? VF_EL0 then 4 else 3)) by (destruct (_ =? _); lia). by destruct (_ =? _).
Qed.

Lemma target_same g base : target (g.[instruction := w]) base = if mode s =? 1 then base else (base + index g s) mod 2 ^ 64.
Proof. reflexivity. Qed.

Lemma access_effect g m :
  (∀ f, f ∈ regime_fields → g f = cpu f) → unsupported_regime (Some cpu) = false → decode_memory w = Some s →
  access w pc_ g m = access_at (g.[instruction := w]) m (XSP g 64 (rn s)).
Proof.
  intros Hf Hu Hd. destruct (regime_same g Hf) as (Hr & Hc & _). unfold access, access_at. rewrite Hd, Hr, Hu, Hc, target_same. cbn [negb].
  change (faulting (g.[instruction := w]) m) with (faulting g m).
  change (index (g.[instruction := w]) s) with (index g s). change (g.[instruction := w] guest_ram_base) with (g guest_ram_base). cbv zeta.
  set (a := if mode s =? 1 then _ else _). generalize (XSP g 64 (rn s)). intros base.
  destruct ((rn s =? 31) && stack_checked g && negb (base mod 16 =? 0)); [done|]. destruct (negb (a mod width s =? 0)); [done|].
  destruct (faulting g m s a); [done|]. by destruct (transfer m _ s _).
Qed.

Lemma base_fits g : typed g → fits 64 (XSP g 64 (rn s)).
Proof. intros Hg. unfold XSP. destruct (_ =? _); apply (fits_wrap 64); lia. Qed.

Lemma entry_ready a d e i j k f g m :
  provider = false → ready provider cpu (Build_host a CpuPtr d e i j k f g m) →
  entry (g.[instruction := w]) m ∧ d = RamPtr ∧ e = Word (Z.of_nat (length m)).
Proof.
  intros Hp Hr. pose proof (rd_regime _ _ _ Hr) as Hreg. destruct (regime_same g Hreg) as (_ & _ & Hb).
  split_and!; [|by apply (rd_rdx _ _ _ Hr)|by apply (rd_r8 _ _ _ Hr)]. split_and!.
  - apply typed_upd; [by apply (rd_typed _ _ _ Hr)|done].
  - apply (rd_length _ _ _ Hr).
  - apply (rd_bytes _ _ _ Hr).
  - exact Hb.
Qed.

Lemma translates_scalar_shape :
  provider = false → fits 64 (cpu guest_ram_base) → unsupported_regime (Some cpu) = false → decode_memory w = Some s → count s = 1 →
  translates provider cpu n (emit_scalar (Some cpu) w pc_ n) (λ g m, access w pc_ g m).
Proof.
  intros Hp Hb Hu Hd Hc. apply (translates_results _ _ _ _ false scalar_insns); [by apply emits_scalar|by apply scalar_ok| |done].
  intros d e a i j k f g m rest Hr. pose proof (rd_regime _ _ _ Hr) as Hreg. cbn [guest] in Hreg. rewrite access_effect by done.
  pose proof (base_fits g (rd_typed _ _ _ Hr)) as Hf. destruct (entry_ready _ _ _ _ _ _ _ _ _ Hp Hr) as (Hent & -> & ->).
  pose proof Hs as (_ & _ & Hrn & _). unfold scalar_insns.
  eapply results_step; [by apply step_store_instruction|insn_ok|reflexivity..|]. host. go_load. change (bits_of true) with 64.
  change (XSP (g.[instruction := w]) 64 (rn s)) with (XSP g 64 (rn s)). set (base := XSP g 64 (rn s)) in *.
  destruct checked eqn:Hch.
  - eapply results_stack; [done|apply Hent|done|apply scalar_main_within|lia|intros E|intros E f'].
    + unfold access_at. by rewrite Hch, (proj2 (Z.eqb_neq _ _) E).
    + apply results_single; [done..|apply access_ok|apply index_ok|done].
  - apply results_single; [done..|apply access_ok|apply index_ok|by rewrite Hch].
Qed.

Lemma translates_pair_shape :
  provider = false → fits 64 (cpu guest_ram_base) → unsupported_regime (Some cpu) = false → decode_memory w = Some s → count s = 2 →
  translates provider cpu n (emit_pair (Some cpu) w pc_ n) (λ g m, access w pc_ g m).
Proof.
  intros Hp Hb Hu Hd Hc. apply (translates_results _ _ _ _ false pair_insns); [by apply emits_pair|by apply pair_ok| |done].
  intros d e a i j k f g m rest Hr. pose proof (rd_regime _ _ _ Hr) as Hreg. cbn [guest] in Hreg. rewrite access_effect by done.
  pose proof (base_fits g (rd_typed _ _ _ Hr)) as Hf. destruct (entry_ready _ _ _ _ _ _ _ _ _ Hp Hr) as (Hent & -> & ->).
  unfold pair_insns. eapply results_step; [by apply step_store_instruction|insn_ok|reflexivity..|]. host.
  set (base := XSP g 64 (rn s)) in *.
  destruct checked eqn:Hch.
  - assert (rn s = 31) as Hn31 by (unfold checked, checks_stack in Hch; apply andb_prop in Hch as [Hch _]; lia).
    rewrite <- app_assoc. go_load. change (bits_of true) with 64.
    change (XSP (g.[instruction := w]) 64 31) with (XSP g 64 31). replace (XSP g 64 31) with base by (unfold base; by rewrite Hn31).
    eapply results_stack; [done|apply Hent|done|apply pair_main_within|lia|intros E|intros E f'].
    + unfold access_at. by rewrite Hch, (proj2 (Z.eqb_neq _ _) E).
    + apply results_pair; [done..|by apply pair_transfer_ok|done].
  - apply results_pair; [done..|by apply pair_transfer_ok|by rewrite Hch].
Qed.
End Access.

(** Loads and stores: the code of either emission does what the instruction says. *)
Section Memory.
Context (w : Z) (Hw : fits 32 w) (cpu : vf_cpu) (n : Z) (pc_ : Z) (Hpc : fits 64 pc_) (Hn : 0 ≤ n < 2 ^ 31 - 1).
Context (Hb : fits 64 (cpu guest_ram_base)).

(** What the emissions do before they look at the shape. *)
Lemma translates_stopped em provider st :
  em = stop w pc_ n st → fits 32 st →
  (∀ g m, (∀ f, f ∈ regime_fields → g f = cpu f) → access w pc_ g m = stopped w pc_ g m st) →
  translates provider cpu n em (λ g m, access w pc_ g m).
Proof.
  intros -> Hst Ha. eapply translates_ext; [|by apply (translates_stop provider cpu w pc_ n st (λ g m, stopped w pc_ g m st)); try done; lia].
  intros h Hr. symmetry. apply Ha. apply (rd_regime _ _ _ Hr).
Qed.

Lemma translates_memory (pair : bool) :
  (Z.land w 0x3a000000 =? 0x28000000) = pair →
  translates false cpu n (if pair then emit_pair (Some cpu) w pc_ n else emit_scalar (Some cpu) w pc_ n) (λ g m, access w pc_ g m).
Proof.
  intros Hpair. destruct (decode_memory w) as [s|] eqn:Hd.
  2: { apply (translates_stopped _ _ VF_UNDEFINED_INSTRUCTION); [|done|].
       - unfold emit_pair, emit_scalar, stop. rewrite Hd. by destruct pair.
       - intros g m _. unfold access. by rewrite Hd. }
  destruct (decode_more w s Hw Hd) as (Hs & Hm & Hc). rewrite Hpair in Hc.
  destruct (unsupported_regime (Some cpu)) eqn:Hu.
  - apply (translates_stopped _ _ VF_SYSTEM_REGISTER_TRAP); [|done|].
    + unfold emit_pair, emit_scalar, stop. rewrite Hd, Hu. by destruct pair.
    + intros g m Hf. unfold access. rewrite Hd. assert (regime_ok g = false) as ->; [|done].
      replace (regime_ok g) with (negb (unsupported_regime (Some cpu))); [by rewrite Hu|]. symmetry. by eapply regime_same.
  - destruct pair; [by eapply translates_pair_shape|by eapply translates_scalar_shape].
Qed.
End Memory.
End TransMemory.
