(* ===== verification/TransOk.v ===== *)
(** Translated code does what the instructions do: every instruction, and whole blocks from
    the guest words to the registers and the memory after the call of the code. *)
From S2P Require Import Prelude.
From S2P Require Import Words.
From S2P Require Import BitField.
From S2P Require Import Cpu.
From S2P Require Import Insn.
From S2P Require Import LoadStore.
From S2P Require Import X86.
From S2P Require Import Emit.
From S2P Require Import Translate.
From S2P Require Import A64.
From S2P Require Import Codegen.
From S2P Require Import HostArith.
From S2P Require Import TransAlu.
From S2P Require Import Jumps.
From S2P Require Import TransControl.
From S2P Require Import TransMemory.

Module TransOk.
Import Cpu.
Import Cpu.F.
Import Insn.
Import X86.
Import Emit.
Import Translate.
Import A64.
Import Codegen.
Import TransAlu.
Import Jumps.
Import TransControl.
Import TransMemory.

(** ** One instruction *)

Section Word.
Context (w : Z) (Hw : fits 32 w) (provider : bool) (cpu : vf_cpu) (n : Z) (pc_ : Z) (Hpc : fits 64 pc_) (Hn : 0 ≤ n < 2 ^ 31 - 1).
Context (Hb : fits 64 (cpu guest_ram_base)).

Lemma translates_case (t : bool) em1 em2 e1 e2 :
  (t = true → translates provider cpu n em1 e1) → (t = false → translates provider cpu n em2 e2) →
  translates provider cpu n (if t then em1 else em2) (λ g m, if t then e1 g m else e2 g m).
Proof. destruct t; auto. Qed.

(** A condition on the exception level holds of the guest as of the processor the code is
    made for. *)
Lemma translates_level (t : Z → bool) em1 em2 e1 e2 :
  translates provider cpu n em1 e1 → translates provider cpu n em2 e2 →
  translates provider cpu n (if t (cpu current_el) then em1 else em2) (λ g m, if t (g current_el) then e1 g m else e2 g m).
Proof.
  intros H1 H2. apply (translates_ext _ _ _ _ (λ g m, if t (cpu current_el) then e1 g m else e2 g m)).
  { intros h Hr. by rewrite (rd_regime _ _ _ Hr current_el) by (rewrite list_elem_of_In; cbn; tauto). }
  by apply translates_case.
Qed.

Lemma sysreg_key_fld : sysreg_key w = fld w 5 15.
Proof. unfold sysreg_key. change 0x7fff with (Z.ones 15). by apply (bits_fld w 5 15). Qed.

Lemma identification_same :
  existsb (λ read, w / 32 =? read / 32)
    [0xd5380400; 0xd5380420; 0xd5380440; 0xd5380480; 0xd5380600; 0xd5380640; 0xd5380660; 0xd5380700; 0xd5380720; 0xd5380740]
  = identification w.
Proof.
  unfold identification. destruct (identification_word w Hw n Hn) as [-> _].
  assert (∀ r, r mod 32 = 0 → (w / 32 =? r / 32) = (w - w mod 32 =? r)) as H by (intros r Hr; dlia).
  cbn [existsb]. by rewrite !H by done.
Qed.

Lemma low_five : Z.land w 31 = fld w 0 5.
Proof. by apply (bits_fld w 0 5). Qed.
Lemma five_five : bits w 5 31 = fld w 5 5.
Proof. by apply (bits_fld w 5 5). Qed.

Theorem translates_effect :
  translates provider cpu n (translate_insn (Some cpu) w pc_ n provider) (λ g m, effect w pc_ g m provider).
Proof.
  assert (0 ≤ n < 2 ^ 31) as Hn' by lia.
  assert (∀ st, fits 32 st → translates provider cpu n (stop w pc_ n st) (λ g m, stopped w pc_ g m st)) as Hstop.
  { intros st Hst. by apply translates_stop. }
  unfold translate_insn, effect, undefined. cbv zeta. rewrite identification_same, sysreg_key_fld, wide_is64 by done.
  rewrite low_five, five_five.
  apply (translates_level (λ el, is_mrs_msr w && (fld w 5 15 =? VF_SYSREG_KEY_CPACR_EL1) && (el =? VF_EL0))); [by apply Hstop|].
  apply translates_case; intros _; [by apply Hstop|].
  apply translates_case; intros Hpm; [by apply Hstop|].
  apply translates_case; intros _; [apply translates_select|].
  apply translates_case; intros _; [apply translates_variable_shift|].
  apply translates_case; intros _; [apply translates_multiply|].
  apply translates_case; intros _; [apply translates_conditional_compare|].
  apply translates_case; intros _; [by apply translates_insert|].
  apply translates_case; intros _; [by apply translates_extract|].
  apply translates_case; intros _; [by apply translates_logical_immediate|].
  apply translates_case; intros Hid; [by apply translates_identification|].
  assert (nz (if is_mrs_msr w then thread_offset (sysreg_key w) else 0)
    = match (if is_mrs_msr w then thread_register w else None) with Some _ => true | None => false end) as Hth.
  { destruct (is_mrs_msr w); [|done]. unfold thread_register, thread_offset. by repeat (cbn [switch]; destruct (_ =? _)). }
  rewrite sysreg_key_fld in Hth. rewrite Hth. clear Hth.
  destruct (if is_mrs_msr w then thread_register w else None) as [f|] eqn:Hf.
  { destruct (is_mrs_msr w); [|done]. rewrite <- sysreg_key_fld. by apply translates_thread. }
  apply translates_case; intros Hmv; [by apply translates_move_wide|].
  apply translates_case; intros _; [by apply translates_address|].
  apply translates_case; intros _; [by apply translates_logical_shifted|].
  apply translates_case; intros _; [apply translates_add_immediate|].
  apply translates_case; intros _; [by apply translates_add_extended|].
  apply translates_case; intros _; [by apply translates_add_shifted|].
  destruct (memory_family w) eqn:Hmf.
  { rewrite andb_true_r in Hpm. subst provider. unfold memory_family in Hmf.
    destruct (Z.land w 0x3a000000 =? 0x28000000) eqn:Ep; [by apply (translates_memory w Hw cpu n pc_ Hpc Hn Hb true)|].
    cbn [orb] in Hmf. rewrite Hmf. by apply (translates_memory w Hw cpu n pc_ Hpc Hn Hb false). }
  unfold memory_family in Hmf. rewrite <- !orb_assoc in Hmf. apply orb_false_elim in Hmf as [Ep Es]. rewrite Ep.
  rewrite <- !orb_assoc, Es.
  apply translates_case; intros _; [by apply translates_conditional_branch|].
  apply translates_case; intros _; [by apply translates_test_branch|].
  apply translates_case; intros _; [by apply translates_compare_branch|].
  apply translates_case; intros _; [by apply translates_branch|].
  apply translates_case; intros _; [by apply translates_branch_register|].
  apply translates_case; intros _; [apply translates_nop|].
  apply translates_case; intros _; [by apply translates_halt|].
  set (status_of el := if known_privileged w el then VF_PRIVILEGE_FAULT
                       else if system_boundary w el =? 0 then VF_UNDEFINED_INSTRUCTION else system_boundary w el).
  pose proof (translates_boundary w Hw provider cpu n pc_ Hpc Hn status_of) as Hb'.
  replace (if nz _ then _ else _) with (stop w pc_ n (status_of (cpu current_el))); [apply Hb'|].
  - intros el. unfold status_of, system_boundary. repeat case_match; done.
  - unfold status_of. destruct (known_privileged _ _); [done|]. unfold nz. by destruct (_ =? 0).
Qed.
End Word.
(** ** The host keeps the guest well formed *)

Definition well (h h' : host) : Prop :=
  typed (guest h) → Forall (fits 8) (ram h) → typed (guest h') ∧ Forall (fits 8) (ram h') ∧ length (ram h') = length (ram h).

Lemma well_refl h h' : guest h' = guest h → ram h' = ram h → well h h'.
Proof. unfold well. by intros -> ->. Qed.

Lemma well_trans h1 h2 h3 : well h1 h2 → well h2 h3 → well h1 h3.
Proof.
  intros H12 H23 Ht Hb. destruct (H12 Ht Hb) as (Ht2 & Hb2 & Hl2). destruct (H23 Ht2 Hb2) as (Ht3 & Hb3 & Hl3). split_and!; [done|done|lia].
Qed.

Lemma well_set h r v : well h (set h r v).
Proof. by apply well_refl; destruct r. Qed.

Lemma member_write_typed c off k v c' : typed c → member_write c off k v = Some c' → typed c'.
Proof.
  intros Hc. unfold member_write. destruct (member_at off) as [f|]; [|done]. cbn [mbind option_bind].
  destruct (Z.eqb_spec (8 * k) (F.width f)) as [E|E]; [|done]. intros H%(inj Some). subst c'. apply typed_upd; [done|].
  rewrite E. apply fits_wrap. by destruct f.
Qed.

Lemma well_write h o k v h' : write_operand h o k v = Some h' → well h h'.
Proof.
  destruct o as [r|off|off]; cbn [write_operand].
  - intros [= <-]. apply well_set.
  - destruct (rcx h); try done. destruct (member_write (guest h) off k v) as [c|] eqn:E; [|done]. cbn [mbind option_bind].
    intros [= <-] Ht Hb. cbn. split_and!; [by eapply member_write_typed|done|done].
  - destruct (rdx h); try done. destruct (r9 h) as [o'| | |]; try done. unfold ram_write. case_bool_decide as Hin; [|done]. cbn [mbind option_bind].
    intros [= <-] Ht Hb. cbn. split_and!; [done| |].
    + repeat apply Forall_app_2; [by apply Forall_take|apply le_bytes_fits|by apply Forall_drop].
    + rewrite !length_app, length_take, length_drop, le_bytes_length. lia.
Qed.

Lemma well_alu h op k o a v h' : alu_step h op k o a v = Some h' → well h h'.
Proof.
  unfold alu_step. destruct (alu_writes op); [|intros [= <-]; by apply well_refl].
  intros H%well_write. eapply well_trans; [|exact H]. by apply well_refl.
Qed.

Lemma well_step i h h' : step i h = Some h' → well h h'.
Proof.
  assert (∀ A (o : option A) k, (∀ x, k x = Some h' → well h h') → (x ← o; k x) = Some h' → well h h') as Hbind.
  { intros A o k Hk. destruct o as [x|]; [apply Hk|done]. }
  destruct i as [wide r v|wide r o|k o r|sg k wide r o|o v|op wide o r|op wide r o|op wide v|v|op wide o v|op wide o v|wide r o|op wide r v|op wide r|wide r|wide r v|cc r|cc rel|rel|];
    cbn [step]; try done.
  all: try destruct o as [r'|off|off].
  all: try (destruct (zeroing _ _ _)).
  all: repeat (apply Hbind; intros ?).
  all: try (by intros ?%well_alu).
  all: try (by intros ?%well_write).
  all: try (intros [= <-]; first [apply well_set | apply well_refl; by destruct r | by apply well_refl]).
  destruct (k =? 8); [intros [= <-]; apply well_set|]. apply Hbind. intros v. destruct (k =? 4); [|done]. intros [= <-]. apply well_set.
Qed.

Lemma well_exec fuel code h st h' : exec fuel code h = Some (st, h') → well h h'.
Proof.
  revert code h. induction fuel as [|fuel IH]; intros code h; cbn [exec]; [done|].
  destruct (decode code) as [[i rest]|]; [|done]. cbn [mbind option_bind].
  assert ((h1 ← step i h; exec fuel rest h1) = Some (st, h') → well h h') as Hs.
  { destruct (step i h) as [h1|] eqn:E; [|done]. cbn [mbind option_bind]. intros H%IH. eapply well_trans; [by eapply well_step|done]. }
  destruct i; try exact Hs.
  - destruct (condition (fl h) cc) as [t|]; [|done]. cbn [mbind option_bind].
    destruct (if t then jump rel rest else Some rest) as [code'|]; [|done]. cbn [mbind option_bind]. apply IH.
  - destruct (jump rel rest) as [code'|]; [|done]. cbn [mbind option_bind]. apply IH.
  - destruct (low_part (rax h) 4) as [v|]; [|done]. cbn [mbind option_bind]. intros [= _ <-]. by apply well_refl.
Qed.

(** The registers and the memory after an instruction are well formed: a return put after
    the code shows them. *)
Lemma next_well provider cpu l h n g m :
  ready provider cpu h → simulates l h n (Next g m) →
  typed g ∧ Forall (fits 8) m ∧ length m = length (ram h).
Proof.
  intros Hr Hs. destruct (Hs (enc [MovImm false RAX 0; Ret])) as (a & i & j & k & f & Hrun).
  assert (run (enc [MovImm false RAX 0; Ret]) (Build_host a CpuPtr (rdx h) (r8 h) i j k f g m) =
    Some (0, Build_host (Word 0) CpuPtr (rdx h) (r8 h) i j k f g m)) as E by (by vm_compute).
  apply Hrun in E. apply (well_exec _ _ _ _ _ E); [apply (rd_typed _ _ _ Hr)|apply (rd_bytes _ _ _ Hr)].
Qed.

(** ** What instructions leave alone *)

(** The registers that translated code may change, the program counter and the count of
    retired instructions apart. *)
Definition written (f : field) : bool :=
  match f with x _ | sp | pstate | instruction | far | tpidr_el0 | tpidrro_el0 | tpidr_el1 => true | _ => false end.

Definition framed (g g' : vf_cpu) : Prop :=
  (∀ f, written f = false → g' f = g f) ∧ Z.land (g' pstate) VF_PSTATE_MODE_MASK = Z.land (g pstate) VF_PSTATE_MODE_MASK.

Lemma framed_refl g : framed g g.
Proof. done. Qed.

Lemma framed_upd g g' f v : written f = true → F.eqb f pstate = false → framed g g' → framed g (g'.[f := v]).
Proof.
  intros Hf Hp [Hs Hm]. split; [|cbn; by rewrite Hp]. intros e He. cbn.
  destruct (F.eqb f e) eqn:E; [|by apply Hs]. apply eqb_eq in E. congruence.
Qed.

Lemma framed_put g g' r v : framed g g' → framed g (put g' r v).
Proof. intros Hs. unfold put. destruct (r =? 31); [done|]. by apply framed_upd. Qed.
Lemma framed_put_sp g g' r v : framed g g' → framed g (put_sp g' r v).
Proof. intros Hs. unfold put_sp. destruct (r =? 31); by apply framed_upd. Qed.
Lemma framed_nzcv g g' v : framed g g' → framed g (put_nzcv g' v).
Proof.
  intros [Hs Hm]. split.
  - intros e He. unfold put_nzcv. cbn. destruct (F.eqb pstate e) eqn:E; [|by apply Hs]. apply eqb_eq in E. by subst e.
  - rewrite <- Hm. unfold put_nzcv. rewrite upd_same. unfold insert_bits. change VF_PSTATE_MODE_MASK with (Z.ones 4).
    rewrite !Z.land_ones by done. change (2 ^ 28) with (2 ^ 24 * 2 ^ 4). rewrite Z.mul_assoc. by rewrite Z.mod_add by done.
Qed.
Lemma framed_link g pc_ : framed g (link pc_ g).
Proof. by apply framed_upd. Qed.
Lemma framed_instruction g v : framed g (g.[instruction := v]).
Proof. by apply framed_upd. Qed.
Create HintDb frame.
#[local] Hint Resolve framed_refl framed_put framed_put_sp framed_nzcv framed_link framed_instruction : frame.

(** An instruction changes only those; when the run ends, one instruction is retired by a
    branch or a halt, and none otherwise. *)
Definition keeps (g : vf_cpu) (o : outcome) : Prop :=
  match o with
  | Next g' _ => framed g g'
  | Exit st target k g' _ => framed g g' ∧ fits 64 target ∧ k = if (st =? VF_NEXT) || (st =? VF_HALT) then 1 else 0
  end.

Section Keeps.
Context (w pc_ : Z) (g : vf_cpu) (m : list Z) (Hpc : fits 64 pc_).

Lemma keeps_next g' m' : framed g g' → keeps g (Next g' m').
Proof. done. Qed.
Lemma keeps_stopped st : (st =? VF_NEXT) || (st =? VF_HALT) = false → keeps g (stopped w pc_ g m st).
Proof. intros Hst. unfold stopped. cbn [keeps]. rewrite Hst. split_and!; [auto with frame|done|done]. Qed.
Lemma keeps_undefined : keeps g (undefined w pc_ g m).
Proof. by apply keeps_stopped. Qed.
Lemma keeps_jumped target g' : framed g g' → fits 64 target → keeps g (jumped m target g').
Proof. done. Qed.
Lemma relative_fits_any imm : fits 64 (relative pc_ imm).
Proof. apply (fits_wrap 64). lia. Qed.
Lemma next_pc_fits : fits 64 (next_pc pc_).
Proof. apply (fits_wrap 64). lia. Qed.

Lemma keeps_logical op v to_sp : keeps g (logical w g m op v to_sp).
Proof. unfold logical. repeat case_match; apply keeps_next; auto with frame. Qed.
Lemma keeps_arithmetic a v to_sp : keeps g (arithmetic w g m a v to_sp).
Proof. unfold arithmetic. destruct (add_sub _ _ _ _). repeat case_match; apply keeps_next; auto with frame. Qed.

Lemma keeps_thread f : thread_register w = Some f → keeps g (thread w pc_ g m f).
Proof.
  intros Hf. unfold thread. destruct (_ && _); [apply keeps_undefined|]. destruct (Z.testbit w 21); apply keeps_next; [auto with frame|].
  apply framed_upd; [| |done]; unfold thread_register in Hf;
    (repeat (cbn [switch] in Hf; destruct (_ =? _) in Hf; [by apply (inj Some) in Hf as <-|])); done.
Qed.

Lemma framed_transfer g' s off : framed g g' → framed g (transfer m g' s off).1.
Proof. intros Hs. unfold transfer. repeat case_match; cbn [fst]; auto with frame. Qed.

Lemma keeps_fault st far_ : (st =? VF_NEXT) || (st =? VF_HALT) = false → keeps g (Exit st pc_ 0 (g.[instruction := w].[far := far_]) m).
Proof. intros Hst. cbn [keeps]. rewrite Hst. split_and!; [|done|done]. apply framed_upd; auto with frame. Qed.

Lemma keeps_access : keeps g (access w pc_ g m).
Proof.
  unfold access. destruct (decode_memory w) as [s|]; [|apply keeps_undefined]. cbv zeta.
  destruct (negb (regime_ok g)); [by apply keeps_stopped|].
  repeat lazymatch goal with |- keeps _ (if ?t then Exit _ _ _ _ _ else _) => destruct t; [by apply keeps_fault|] end.
  destruct (faulting g m s _); [by apply keeps_fault|].
  destruct (transfer m _ s _) as [g' m'] eqn:E. apply keeps_next.
  assert (framed g g') as Hs.
  { replace g' with (g', m').1 by done. rewrite <- E. apply framed_transfer, framed_instruction. }
  destruct (mode s =? 2); auto with frame.
Qed.

(** One class of instructions. *)
Ltac keeps_class :=
  repeat lazymatch goal with
  | |- keeps _ (if ?t then _ else _) => destruct t
  | |- keeps _ (match ?t with Some _ => _ | None => _ end) => destruct t
  end;
  first [ apply keeps_undefined | by apply keeps_stopped | apply keeps_logical | apply keeps_arithmetic
        | apply keeps_jumped; [repeat case_match; auto with frame|repeat case_match; first [apply relative_fits_any | apply next_pc_fits | apply (fits_wrap 64); lia]]
        | apply keeps_next; auto with frame ].

Lemma keeps_effect provider : keeps g (effect w pc_ g m provider).
Proof.
  unfold effect. cbv zeta.
  assert (∀ t o o', keeps g o → keeps g o' → keeps g (if t : bool then o else o')) as Hif by (by intros []).
  repeat (apply Hif; [
    unfold select, variable_shift, multiply, conditional_compare, bitfield_insert, bitfield_extract, logical_immediate, identify; cbv zeta; keeps_class|]).
  destruct (if is_mrs_msr w then thread_register w else None) as [f|] eqn:Hf.
  { apply keeps_thread. by destruct (is_mrs_msr w). }
  repeat (apply Hif; [first [apply keeps_access |
    unfold move_wide, address, logical_shifted, add_immediate, add_extended, add_shifted,
      conditional_branch, test_branch, compare_branch, branch, branch_register; cbv zeta; keeps_class]|]).
  apply keeps_stopped. destruct (known_privileged w _); [done|]. unfold system_boundary. by repeat case_match.
Qed.
End Keeps.

(** The same for blocks, with the number of instructions. *)
Lemma framed_trans g1 g2 g3 : framed g1 g2 → framed g2 g3 → framed g1 g3.
Proof. intros [H12 M12] [H23 M23]. split; [|congruence]. intros f Hf. by rewrite H23, H12. Qed.

Lemma block_counts rounds code_ pc_ g m :
  fits 64 pc_ →
  let '(st, p, k, g', m') := block rounds code_ pc_ g m in
  framed g g' ∧ fits 64 p ∧ 0 ≤ k ≤ Z.of_nat rounds ∧ (st = VF_NEXT → (0 < rounds)%nat → 1 ≤ k) ∧
  (st ≠ VF_NEXT → st ≠ VF_HALT → k < Z.of_nat rounds).
Proof.
  revert pc_ g m. induction rounds as [|rounds IH]; intros pc_ g m Hp; cbn [block].
  { split_and!; done || lia. }
  destruct (fetch code_ (g guest_ram_base) pc_) as [w|]; [|by split_and!; done || lia].
  pose proof (keeps_effect w pc_ g m Hp false) as Hk. destruct (effect w pc_ g m false) as [g1 m1|st target k g1 m1]; cbn [keeps] in Hk.
  - specialize (IH ((pc_ + 4) mod 2 ^ 64) g1 m1 ltac:(apply (fits_wrap 64); lia)).
    destruct (block rounds code_ ((pc_ + 4) mod 2 ^ 64) g1 m1) as [[[[st p] k] g'] m']. destruct IH as (Hf & Ht & Hkk & H1 & H2).
    split_and!; try done; try lia. by eapply framed_trans.
  - destruct Hk as (Hf & Ht & ->). split_and!; try done; repeat case_match; try lia.
    all: intros H3 H4; exfalso; rewrite orb_true_iff, !Z.eqb_eq in *; by destruct_or!.
Qed.

(** ** Fetch *)

Lemma word_bytes b0 b1 b2 b3 :
  fits 8 b0 → fits 8 b1 → fits 8 b2 → fits 8 b3 →
  Z.lor (Z.lor (Z.lor b0 (Z.shiftl b1 8)) (Z.shiftl b2 16)) (shl 32 b3 24) = le_value [b0; b1; b2; b3] ∧ fits 32 (le_value [b0; b1; b2; b3]).
Proof.
  intros F0 F1 F2 F3. unfold shl. rewrite !Z.shiftl_mul_pow2 by lia. rewrite (wrap_id 32) by (unfold fits in *; lia).
  rewrite (Z.lor_comm b0), (lor_high_low 8) by (done || lia). rewrite (Z.lor_comm _ (b2 * _)), (lor_high_low 16) by (unfold fits in *; lia).
  rewrite (Z.lor_comm _ (b3 * _)), (lor_high_low 24) by (unfold fits in *; lia). cbn [le_value]. split; unfold fits in *; lia.
Qed.

Lemma word_value (guest : list Z) off :
  Forall (fits 8) guest → 0 ≤ off → off + 4 ≤ Z.of_nat (length guest) →
  word guest off = Some (le_value (take 4 (drop (Z.to_nat off) guest))) ∧ fits 32 (le_value (take 4 (drop (Z.to_nat off) guest))).
Proof.
  intros Hb H0 Hl. unfold word, arr_get. rewrite !bool_decide_true by lia.
  rewrite !Z2Nat.inj_add by lia. change (Z.to_nat 1) with 1%nat. change (Z.to_nat 2) with 2%nat. change (Z.to_nat 3) with 3%nat.
  set (i := Z.to_nat off). assert (i + 4 ≤ length guest)%nat as Hi by (subst i; lia). clearbody i.
  replace (guest !! i) with (guest !! (i + 0)%nat) by (by rewrite Nat.add_0_r). rewrite <- !lookup_drop.
  assert (Forall (fits 8) (drop i guest)) as Hd by (by apply Forall_drop).
  destruct (drop i guest) as [|b0 [|b1 [|b2 [|b3 l]]]] eqn:E; try (apply (f_equal length) in E; rewrite length_drop in E; cbn in E; lia).
  foralls. cbn [lookup list_lookup mbind option_bind take].
  destruct (word_bytes b0 b1 b2 b3) as [-> Hf]; done.
Qed.
(** ** Blocks *)

Section Block.
Context (cpu : vf_cpu) (code_ : list Z) (Hcpu : typed cpu) (Hcode : Forall (fits 8) code_) (Hlen : Z.of_nat (length code_) < 2 ^ 64).

Definition fetch_fails (pc_ : Z) : bool :=
  nz (Z.land pc_ 3) || (Z.of_nat (length code_) <? 4) || (pc_ <? guest_base (Some cpu))
  || (u64 (Z.of_nat (length code_) - 4) <? pc_ - guest_base (Some cpu)) || (UINT64_MAX - 3 <? pc_).

Lemma fetch_spec pc_ : fits 64 pc_ →
  if fetch_fails pc_ then fetch code_ (cpu guest_ram_base) pc_ = None
  else ∃ w, fetch code_ (cpu guest_ram_base) pc_ = Some w ∧ word code_ (pc_ - guest_base (Some cpu)) = Some w ∧ fits 32 w.
Proof.
  intros Hp. pose proof (Hcpu guest_ram_base) as Hb. change (F.width guest_ram_base) with 64 in Hb. unfold fetch, fetch_fails.
  change (guest_base (Some cpu)) with (cpu guest_ram_base). set (B := cpu guest_ram_base) in *. set (L := Z.of_nat (length code_)) in *.
  assert (nz (Z.land pc_ 3) = negb (pc_ mod 4 =? 0)) as ->.
  { change 3 with (Z.ones 2). rewrite Z.land_ones by done. done. }
  assert ((UINT64_MAX - 3 <? pc_) = negb (pc_ + 4 <=? 2 ^ 64)) as -> by (change UINT64_MAX with (2 ^ 64 - 1); lia).
  destruct (pc_ mod 4 =? 0); cbn [negb orb andb]; [|done].
  destruct (Z.leb_spec B pc_) as [H1|H1].
  2: { assert ((pc_ <? B) = true) as -> by lia. by rewrite !orb_true_r. }
  assert ((pc_ <? B) = false) as -> by lia. rewrite orb_false_r. cbn [andb].
  destruct (Z.leb_spec (pc_ + 4) (B + L)) as [H2|H2]; cbn [andb].
  - assert ((L <? 4) = false) as -> by lia. rewrite (wrap_id 64) by (unfold fits; lia).
    assert ((L - 4 <? pc_ - B) = false) as -> by lia. cbn [orb]. destruct (pc_ + 4 <=? 2 ^ 64); cbn [negb]; [|done].
    destruct (word_value code_ (pc_ - B)) as [Hv Hf]; [done|lia..|]. by eexists.
  - assert ((L <? 4) || (u64 (L - 4) <? pc_ - B) = true) as ->; [|done].
    destruct (Z.ltb_spec L 4) as [H|H]; [done|]. rewrite (wrap_id 64) by (unfold fits; lia). cbn [orb]. lia.
Qed.

(** The code of the rounds that are left does what the block does; [n] instructions have
    been retired before. *)
Lemma translate_block rounds pc_ n limit :
  fits 64 pc_ → 0 ≤ n → n + Z.of_nat rounds = limit → limit < 2 ^ 31 - 1 →
  ∃ l, emits (translate_loop rounds (Some cpu) code_ (Z.of_nat (length code_)) pc_ n limit false) tt l ∧
    ((0 < rounds)%nat → ∀ h, ready false cpu h →
     let '(st, p, k, g, m) := block rounds code_ pc_ (guest h) (ram h) in
     ends (enc l) h st (g.[pc := p].[retired := u64 (g retired + (n + k))]) m).
Proof.
  revert pc_ n. induction rounds as [|rounds IH]; intros pc_ n Hp Hn Hlim Hmax.
  { exists []. split; [apply emits_ret|lia]. }
  cbn [translate_loop block]. cbv zeta. cbn [negb andb].
  pose proof (fetch_spec pc_ Hp) as Hf. fold (fetch_fails pc_). destruct (fetch_fails pc_).
  { exists (finish_insns pc_ n VF_INSTRUCTION_ABORT). split; [apply emits_finish|]. intros _ h Hr.
    rewrite (rd_regime _ _ _ Hr guest_ram_base), Hf by (rewrite list_elem_of_In; cbn; tauto). rewrite Z.add_0_r.
    pose proof (rd_rcx _ _ _ Hr) as Hc. pose proof (rd_typed _ _ _ Hr) as Ht. destruct h as [a c' d e i j k f g m]. cbn in Hc. subst c'.
    rewrite <- (app_nil_r (enc _)). apply ends_finish; [exact Ht|done|lia|done]. }
  destruct Hf as (w & Hfetch & Hword & Hw). rewrite Hword. cbn [fetched].
  destruct (translates_effect w Hw false cpu n pc_ Hp) as (brk & l1 & Hem & Hok & Hsim); [lia|apply (Hcpu guest_ram_base)|].
  destruct (IH ((pc_ + 4) mod 2 ^ 64) (n + 1)) as (l2 & He2 & Hends2); [apply (fits_wrap 64); lia|lia|lia|done|].
  set (last_ := if n + 1 =? limit then finish_insns ((pc_ + 4) mod 2 ^ 64) (n + 1) VF_NEXT else []).
  exists (l1 ++ (if brk then [] else last_ ++ l2)). split.
  - eapply emits_eq; [|by rewrite enc_app]. apply (emits_ret_bind w). eapply emits_bind; [exact Hem|]. cbv beta. destruct brk; [apply emits_ret|].
    rewrite enc_app. eapply emits_bind; [|exact He2]. unfold last_. destruct (n + 1 =? limit); [apply emits_finish|apply emits_ret].
  - intros _ h Hr. destruct (Hsim h Hr) as [Hs Hb].
    rewrite (rd_regime _ _ _ Hr guest_ram_base), Hfetch by (rewrite list_elem_of_In; cbn; tauto).
    pose proof (keeps_effect w pc_ (guest h) (ram h) Hp false) as Hk. rewrite enc_app.
    destruct (effect w pc_ (guest h) (ram h) false) as [g m|st p k g m]; [|apply Hs].
    destruct brk; [by specialize (Hb eq_refl)|].
    destruct (next_well _ _ _ _ _ _ _ Hr Hs) as (Htg & Hbm & Hlm). specialize (Hs (enc (last_ ++ l2))) as (a & i & j & k & f & Hrun).
    set (h' := Build_host a CpuPtr (rdx h) (r8 h) i j k f g m) in *.
    assert (ready false cpu h') as Hr'.
    { split; cbn [h' rcx guest ram rdx r8]; try done.
      - intros e He. rewrite (proj1 Hk e) by (unfold regime_fields in He; rewrite list_elem_of_In in He; cbn in He; destruct_or!; by subst). by apply (rd_regime _ _ _ Hr).
      - apply (rd_rdx _ _ _ Hr).
      - intros _. rewrite Hlm. by apply (rd_r8 _ _ _ Hr).
      - rewrite Hlm. apply (rd_length _ _ _ Hr). }
    destruct rounds as [|rounds].
    + assert ((n + 1 =? limit) = true) as El by lia. cbn [block].
      apply (ends_goes _ _ _ h' _ _ _ Hrun); [done..|]. unfold last_. rewrite El, enc_app. rewrite Z.add_0_l.
      apply ends_finish; [done|apply (fits_wrap 64); lia|lia|done].
    + assert ((n + 1 =? limit) = false) as El by lia.
      specialize (Hends2 ltac:(lia) h' Hr'). change (guest h') with g in Hends2. change (ram h') with m in Hends2.
      destruct (block (S rounds) code_ ((pc_ + 4) mod 2 ^ 64) g m) as [[[[st p] k'] g'] m']. 
      apply (ends_goes _ _ _ h' _ _ _ Hrun); [done..|]. unfold last_. rewrite El. cbn [app].
      by replace (n + (k' + 1)) with (n + 1 + k') by lia.
Qed.
(** The whole translation: it never stores outside the buffer, says [VF_CODE_FULL] when the
    code does not fit, and otherwise the bytes of the buffer are code for the block. *)
Definition code_for (pc_ limit : Z) (l : list Z) : Prop :=
  ∀ h, ready false cpu h →
  let '(st, p, k, g, m) := block (Z.to_nat limit) code_ pc_ (guest h) (ram h) in
  ends l h st (g.[pc := p].[retired := u64 (g retired + k)]) m.

(** There is one code of the block, and every buffer gets it: what is stored is a part of it,
    what is counted is all of it. *)
Lemma translate_code pc_ limit :
  fits 64 pc_ → 0 < limit < 2 ^ 31 - 1 →
  ∃ l, code_for pc_ limit l ∧
    assemble (translate_loop (Z.to_nat limit) (Some cpu) code_ (Z.of_nat (length code_)) pc_ 0 limit false) [] = Some (tt, l) ∧
    ∀ c, room c →
    ∃ c', translate_impl c (Some cpu) code_ (Z.of_nat (length code_)) pc_ limit false =
        Some (if capacity c <? Z.of_nat (length l) then VF_CODE_FULL else VF_NEXT, c') ∧
      holds c' l ∧ capacity c' = capacity c ∧ length (bytes c') = length (bytes c) ∧
      drop (Z.to_nat (capacity c)) (bytes c') = drop (Z.to_nat (capacity c)) (bytes c).
Proof.
  intros Hp Hlim. destruct (translate_block (Z.to_nat limit) pc_ 0 limit) as (l & He & Hl); [done|lia..|].
  exists (enc l). split; [|split; [apply (He [])|]].
  { intros h Hr. specialize (Hl ltac:(lia) h Hr). by destruct (block _ _ _ _ _) as [[[[st p] k] g] m]. }
  intros c Hroom. set (c0 := {| bytes := bytes c; capacity := capacity c; used := 0 |}).
  destruct (run_assembled (translate_loop (Z.to_nat limit) (Some cpu) code_ (Z.of_nat (length code_)) pc_ 0 limit false) c0 [] tt (enc l))
    as (c' & Hrun & Hh & Hcap & Hlen' & Hdrop); [done|by split|by apply (He [])|].
  exists c'. split; [|done]. unfold translate_impl. fold c0. rewrite Hrun. cbn [mbind option_bind]. by rewrite Hcap, (proj1 Hh).
Qed.

Lemma translate_spec c pc_ limit :
  room c → fits 64 pc_ → 0 < limit < 2 ^ 31 - 1 →
  ∃ c' l, translate_impl c (Some cpu) code_ (Z.of_nat (length code_)) pc_ limit false =
      Some (if capacity c <? used c' then VF_CODE_FULL else VF_NEXT, c') ∧
    holds c' l ∧ code_for pc_ limit l ∧ capacity c' = capacity c ∧ length (bytes c') = length (bytes c) ∧
    drop (Z.to_nat (capacity c)) (bytes c') = drop (Z.to_nat (capacity c)) (bytes c).
Proof.
  intros Hroom Hp Hlim. destruct (translate_code pc_ limit Hp Hlim) as (l & Hl & _ & Hall).
  destruct (Hall c Hroom) as (c' & Hi & Hh & Hrest). exists c', l. split; [by rewrite (proj1 Hh)|]. tauto.
Qed.
End Block.

(** The host where the code is entered: the processor state, the guest memory and its size
    are the arguments of the call; the other registers hold anything. *)
Definition entered (g : vf_cpu) (m : list Z) (h : host) : Prop :=
  rcx h = CpuPtr ∧ rdx h = RamPtr ∧ r8 h = Word (Z.of_nat (length m)) ∧ guest h = g ∧ ram h = m.

Lemma entered_ready cpu g m h :
  entered g m h → typed g → (∀ f, f ∈ regime_fields → g f = cpu f) → Z.of_nat (length m) < 2 ^ 64 → Forall (fits 8) m → ready false cpu h.
Proof. intros (Hc & Hd & H8 & <- & <-) Ht Hf Hl Hb. by split. Qed.

(** The bytes that are called. *)
Definition machine_code (c : vf_code) : list Z := take (Z.to_nat (used c)) (bytes c).

Lemma holds_code c l : holds c l → used c ≤ capacity c → machine_code c = l.
Proof. intros [Hu Ht] Hc. unfold machine_code. rewrite Hu, Nat2Z.id. by apply Ht. Qed.

(** C1. A call of translated code returns, and leaves the status, the registers, the
    program counter, the count of retired instructions and the memory that the guest
    instructions define. *)
Theorem translated_block_correct c c' cpu code_ pc_ limit g m h :
  vf_translate_cpu c (Some cpu) code_ (Z.of_nat (length code_)) pc_ limit = Some (VF_NEXT, c', Some cpu) →
  room c → typed cpu → Forall (fits 8) code_ → Z.of_nat (length code_) < 2 ^ 64 → fits 64 pc_ → 0 < limit < 2 ^ 31 - 1 →
  entered g m h → typed g → (∀ f, f ∈ regime_fields → g f = cpu f) → Z.of_nat (length m) < 2 ^ 64 → Forall (fits 8) m →
  let '(st, p, k, g', m') := block (Z.to_nat limit) code_ pc_ g m in
  ∃ h', run (machine_code c') h = Some (st, h') ∧ guest h' = g'.[pc := p].[retired := u64 (g' retired + k)] ∧ ram h' = m'.
Proof.
  intros Htr Hroom Hcpu Hcode Hl Hp Hlim Hent Hg Hf Hlm Hb. pose proof (entered_ready cpu g m h Hent Hg Hf Hlm Hb) as Hr.
  destruct (translate_spec cpu code_ Hcpu Hcode Hl c pc_ limit Hroom Hp Hlim) as (c1 & l & Hi & Hh & Hfor & Hcap & _).
  unfold vf_translate_cpu in Htr. destruct (negb _); [done|]. destruct (nz _); [done|]. rewrite Hi in Htr. cbn [mbind option_bind] in Htr.
  destruct (Z.ltb_spec (capacity c) (used c1)) as [H|H]; [done|]. injection Htr as <-.
  rewrite (holds_code c1 l Hh) by lia. destruct Hent as (_ & _ & _ & <- & <-). specialize (Hfor h Hr).
  destruct (block _ _ _ _ _) as [[[[st p] k] g'] m']. destruct Hfor as (a & i & j & k1 & f & E). by eexists.
Qed.

(** C4. The translation is total, and what it produces does not depend on the buffer: a block
    has one code [l], which run on a host does what the instructions of the block define.
    Whatever buffer it is given, the translator counts all of [l], stores only inside the
    capacity, leaves exactly [l] in the buffer when it fits, and says that the buffer is
    full exactly when [l] is longer than the capacity. *)
Theorem translation_stays_inside cpu code_ pc_ limit :
  typed cpu → Forall (fits 8) code_ → Z.of_nat (length code_) < 2 ^ 64 → fits 64 pc_ → 0 < limit < 2 ^ 31 - 1 →
  ∃ l, code_for cpu code_ pc_ limit l ∧
  ∀ c, room c →
  ∃ st c', translate_impl c (Some cpu) code_ (Z.of_nat (length code_)) pc_ limit false = Some (st, c') ∧
    used c' = Z.of_nat (length l) ∧ length (bytes c') = length (bytes c) ∧ capacity c' = capacity c ∧
    drop (Z.to_nat (capacity c)) (bytes c') = drop (Z.to_nat (capacity c)) (bytes c) ∧
    (st = VF_CODE_FULL ∧ capacity c < Z.of_nat (length l) ∨
     st = VF_NEXT ∧ Z.of_nat (length l) ≤ capacity c ∧ machine_code c' = l).
Proof.
  intros Hcpu Hcode Hl Hp Hlim. destruct (translate_code cpu code_ Hcpu Hcode Hl pc_ limit Hp Hlim) as (l & Hfor & _ & Hall).
  exists l. split; [done|]. intros c Hroom. destruct (Hall c Hroom) as (c' & Hi & Hh & Hcap & Hlen & Hdrop).
  eexists _, c'. split_and!; [exact Hi|apply Hh|done..|]. destruct (Z.ltb_spec (capacity c) (Z.of_nat (length l))) as [H|H]; [by left|right].
  split_and!; [done..|]. apply (holds_code c' l Hh). rewrite (proj1 Hh). lia.
Qed.
(** ** Instances *)

(** [add x0, x1, #5], [ldr x3, [x2]], [b.ne .+8], [hlt #0]. *)
Definition sample_code : list Z := flat_map (le_bytes 4) [0x91001420; 0xf9400043; 0x54000041; 0xd4400000].
Definition sample_cpu : vf_cpu := reset_el1.[guest_ram_base := 0x80000000].[x 2 := 0x80000008].
Definition sample_buffer : vf_code := {| bytes := replicate 600 0; capacity := 600; used := 0 |}.
Definition sample_host : host := Build_host (Word 0) CpuPtr RamPtr (Word 16) (Word 0) (Word 0) (Word 0) no_flags sample_cpu sample_code.

Lemma sample_typed : typed sample_cpu.
Proof. apply typed_upd; [apply typed_upd; [apply reset_el1_ok|by vm_compute]|by vm_compute]. Qed.
Lemma sample_bytes : Forall (fits 8) sample_code.
Proof. unfold sample_code. cbn [flat_map]. repeat apply Forall_app_2; first [apply le_bytes_fits | apply Forall_nil_2]. Qed.
Lemma sample_buffer_room : room sample_buffer.
Proof. by vm_compute. Qed.

Lemma sample_translated : ∃ c', vf_translate_cpu sample_buffer (Some sample_cpu) sample_code (Z.of_nat (length sample_code)) 0x80000000 4 = Some (VF_NEXT, c', Some sample_cpu).
Proof.
  assert (is_Some (translate_impl sample_buffer (Some sample_cpu) sample_code (Z.of_nat (length sample_code)) 0x80000000 4 false)) as [[st c'] E] by (vm_compute; by eexists).
  assert (option_map fst (translate_impl sample_buffer (Some sample_cpu) sample_code (Z.of_nat (length sample_code)) 0x80000000 4 false) = Some VF_NEXT) as E' by (by vm_compute).
  rewrite E in E'. cbn in E'. apply (inj Some) in E'. subst st. exists c'. unfold vf_translate_cpu.
  assert (vf_cpu_state_valid (Some sample_cpu) = true) as -> by (by vm_compute). cbn [negb].
  assert (nz (Z.land (sample_cpu sctlr) 1) = false) as -> by (by vm_compute). by rewrite E.
Qed.

Lemma translated_block_correct_witness :
  ∃ c', vf_translate_cpu sample_buffer (Some sample_cpu) sample_code (Z.of_nat (length sample_code)) 0x80000000 4 = Some (VF_NEXT, c', Some sample_cpu) ∧
  (block (Z.to_nat 4) sample_code 0x80000000 sample_cpu sample_code).1.1.2 = 3 ∧
  let '(st, p, k, g', m') := block (Z.to_nat 4) sample_code 0x80000000 sample_cpu sample_code in
  ∃ h', run (machine_code c') sample_host = Some (st, h') ∧ guest h' = g'.[pc := p].[retired := u64 (g' retired + k)] ∧ ram h' = m'.
Proof.
  destruct sample_translated as [c' E]. exists c'. split; [exact E|]. split; [by vm_compute|].
  pose proof (translated_block_correct sample_buffer c' sample_cpu sample_code 0x80000000 4 sample_cpu sample_code sample_host E) as H.
  apply H; clear H.
  - apply sample_buffer_room.
  - apply sample_typed.
  - apply sample_bytes.
  - by vm_compute.
  - unfold fits. lia.
  - lia.
  - by split_and!.
  - apply sample_typed.
  - done.
  - by vm_compute.
  - apply sample_bytes.
Defined.

(** The four instructions of the sample do not fit twenty bytes. *)
Definition small_buffer : vf_code := {| bytes := replicate 20 0; capacity := 20; used := 0 |}.

Lemma translation_stays_inside_witness :
  option_map fst (translate_impl small_buffer (Some sample_cpu) sample_code (Z.of_nat (length sample_code)) 0x80000000 4 false) = Some VF_CODE_FULL ∧
  ∃ l, code_for sample_cpu sample_code 0x80000000 4 l ∧
  ∀ c, room c →
  ∃ st c', translate_impl c (Some sample_cpu) sample_code (Z.of_nat (length sample_code)) 0x80000000 4 false = Some (st, c') ∧
    used c' = Z.of_nat (length l) ∧ length (bytes c') = length (bytes c) ∧ capacity c' = capacity c ∧
    drop (Z.to_nat (capacity c)) (bytes c') = drop (Z.to_nat (capacity c)) (bytes c) ∧
    (st = VF_CODE_FULL ∧ capacity c < Z.of_nat (length l) ∨
     st = VF_NEXT ∧ Z.of_nat (length l) ≤ capacity c ∧ machine_code c' = l).
Proof.
  split; [by vm_compute|].
  apply (translation_stays_inside sample_cpu sample_code 0x80000000 4);
    [apply sample_typed|apply sample_bytes|by vm_compute|unfold fits; lia|lia].
Defined.
End TransOk.
