(* ===== verification/RunLoop.v ===== *)
(** Running guest code ([runtime/jit.c]): the call of translated code and the run loop over a
    guest memory.

    [guest_loop] is the run without the translator; the run loop does the same, and ends. *)
From S2P Require Import Prelude.
From S2P Require Import Words.
From S2P Require Import Cpu.
From S2P Require Import Insn.
From S2P Require Import Steps.
From S2P Require Import LoadStore.
From S2P Require Import X86.
From S2P Require Import Emit.
From S2P Require Import Translate.
From S2P Require Import A64.
From S2P Require Import Codegen.
From S2P Require Import TransOk.

Module RunLoop.
Import Cpu.
Import Cpu.F.
Import Insn.
Import Steps.
Import LoadStore(commit, commit_keeps).
Import X86.
Import Emit.
Import Translate.
Import A64(block, effect, outcome).
Import Codegen(ready, rd_typed, rd_bytes, ends).
Import TransOk.

(** ** The call of translated code *)

(** [VF_PROTECTION] and the callback that changes the protection of the buffer; it has a
    state of its own and does not touch the bytes. *)
Definition vf_protect (P : Type) := P → bool → Z * P.

(** What a round of a loop leads to. *)
Inductive progress (S : Type) := Going (s : S) | Ended (st : Z) (s : S).
Arguments Going {_} _.
Arguments Ended {_} _ _.

Section Native.
Context (caller : host).

(** The registers at the entry: the arguments in RCX, RDX and R8, the others as the caller
    leaves them. *)
Definition entry_host (c : vf_cpu) (m : ptr (list Z)) : host :=
  Build_host (rax caller) CpuPtr (match m with Some _ => RamPtr | None => Word 0 end)
    (Word (Z.of_nat (length (default [] m)))) (r9 caller) (r10 caller) (r11 caller) (fl caller) c (default [] m).

Definition execute_native_block (c : vf_cpu) (code : vf_code) (m : ptr (list Z)) : option (Z * vf_cpu * list Z) :=
  let before := c retired in
  '(st, h) ← run (machine_code code) (entry_host c m);
  c ← vf_cpu_advance_counter (Some (X86.guest h)) (u64 (X86.guest h retired - before));
  Some (st, c.[compiled_blocks := u64 (c compiled_blocks + 1)], ram h).

(** ** The run loop *)

Context {P : Type} (protect : vf_protect P) (pauth : option vf_pauth_step).

(** The steps the dispatcher tries itself, in order. *)
Definition slow_steps (c : vf_cpu) : option (bool * vf_cpu) :=
  let '(took, c) := system_register_slow_step c in
  if took then Some (true, c)
  else
    '(took, c) ← pstate_slow_step c;
    if took : bool then Some (true, c) else Some (pauth_slow_step pauth c).

(** [guest] of the call: the guest memory itself, or another array. *)
Inductive image := Shared | Separate (l : list Z).
Definition image_bytes (g : image) (m : list Z) : list Z := match g with Shared => m | Separate l => l end.

Record machine := { cpu : vf_cpu; mem : list Z; code : vf_code; opaque : P }.

(** [return cpu->status = st;] *)
Definition leave (c : vf_cpu) (m : list Z) (k : vf_code) (o : P) (st : Z) : progress machine :=
  Ended st {| cpu := c.[status := u32 st]; mem := m; code := k; opaque := o |}.

(** How many instructions the next block may have. *)
Definition block_limit (c : vf_cpu) (left_ : Z) : Z :=
  if nz (c irq_level) || nz (c fiq_level) || nz (Z.land (Z.lor (c cntp_ctl) (c cntv_ctl)) VF_TIMER_CTL_ENABLE) then 1
  else if 32 <? left_ then 32 else left_.

(** What comes before a block: the supported regime, then the interrupts.  An answer ends
    the run. *)
Definition before_block (c : vf_cpu) : option (option Z * vf_cpu) :=
  if nz (Z.land (c sctlr) 1) then Some (Some VF_SYSTEM_REGISTER_TRAP, c.[instruction := 0])
  else
    '(asynchronous, p) ← vf_cpu_poll_interrupt (Some c);
    c ← p;
    Some (if negb (asynchronous =? VF_NEXT) then Some asynchronous else None, c).

(** The status of a block that no step of the dispatcher took. *)
Definition settle (c : vf_cpu) (st : Z) : option (option Z * vf_cpu) :=
  let st := research_system_register_failure c st in
  if negb (st =? VF_NEXT) then
    '(_, p) ← vf_cpu_commit_status (Some c) st;
    c ← p;
    Some (Some st, c)
  else Some (None, c).

(** What becomes of the status of a block. *)
Definition after_block (c : vf_cpu) (st : Z) : option (option Z * vf_cpu) :=
  '(took, c) ← (if (st =? VF_UNDEFINED_INSTRUCTION) || (st =? VF_SYSTEM_REGISTER_TRAP) then slow_steps c else Some (false, c));
  if took : bool then Some (None, c) else settle c st.

(** The body of the loop, with [left_] instructions of the budget. *)
Definition run_round (g : image) (left_ : Z) (s : machine) : option (progress machine) :=
  '(ended, c) ← before_block (cpu s);
  match ended with
  | Some st => Some (leave c (mem s) (code s) (opaque s) st)
  | None =>
    let count := block_limit c left_ in
    let '(refused, o) := protect (opaque s) false in
    if nz refused then Some (leave c (mem s) (code s) o VF_PROTECTION)
    else
      let image := image_bytes g (mem s) in
      '(st, k, p) ← vf_translate_cpu (code s) (Some c) image (Z.of_nat (length image)) (c pc) count;
      c ← p;
      if nz st then
        '(_, p) ← (if negb (st =? VF_CODE_FULL) then vf_cpu_commit_status (Some c) st else Some (0, Some c));
        c ← p;
        Some (leave c (mem s) k o st)
      else
        let '(refused, o) := protect o true in
        if nz refused then Some (leave c (mem s) k o VF_PROTECTION)
        else
          '(st, c, m) ← execute_native_block c k (Some (mem s));
          '(ended, c) ← after_block c st;
          match ended with
          | Some st => Some (leave c m k o st)
          | None => Some (Going {| cpu := c; mem := m; code := k; opaque := o |})
          end
  end.

(** [while (cpu->retired - start < budget)]; [None] in the pair is fuel that ran out. *)
Fixpoint run_loop (fuel : nat) (g : image) (start budget : Z) (s : machine) : option (option Z * machine) :=
  match fuel with
  | O => Some (None, s)
  | S fuel =>
    let spent := u64 (cpu s retired - start) in
    if spent <? budget then
      r ← run_round g (u64 (budget - spent)) s;
      match r with
      | Ended st s => Some (Some st, s)
      | Going s => run_loop fuel g start budget s
      end
    else Some (Some VF_BUDGET, s <| cpu := (cpu s).[status := VF_BUDGET] |>)
  end.

(** The arrays come with their sizes; a code without a buffer is no code. *)
Definition vf_run (c : ptr vf_cpu) (g : ptr image) (m : ptr (list Z)) (k : ptr vf_code) (budget : Z) (o : P) :
    option (option Z * ptr vf_cpu * ptr (list Z) * ptr vf_code * P) :=
  let refused := Some (Some VF_DATA_FAULT, c ← c; Some (c.[status := VF_DATA_FAULT]), m, k, o) in
  match c, g, m, k with
  | Some c', Some g, Some m', Some k' =>
    if (Z.of_nat (length m') <? 8) || negb (vf_cpu_state_valid c) then refused
    else
      '(st, s) ← run_loop (S (Z.to_nat budget)) g (c' retired) budget {| cpu := c'; mem := m'; code := k'; opaque := o |};
      Some (st, Some (cpu s), Some (mem s), Some (code s), opaque s)
  | _, _, _, _ => refused
  end.
(** ** The run without the translator *)

(** The same run on the instructions themselves.  The buffer is only a number, how many
    bytes it has for the code of a block; the callback is asked before and after. *)

(** The code of a block, all of it. *)
Definition block_code (c : vf_cpu) (image : list Z) (count : Z) : list Z :=
  match assemble (translate_loop (Z.to_nat count) (Some c) image (Z.of_nat (length image)) (c pc) 0 count false) [] with
  | Some (_, l) => l
  | None => []
  end.

(** An interrupt may become due after any instruction. *)
Definition watchful (c : vf_cpu) : Prop :=
  c irq_level ≠ 0 ∨ c fiq_level ≠ 0 ∨ Z.testbit (c cntp_ctl) 0 = true ∨ Z.testbit (c cntv_ctl) 0 = true.
#[export] Instance watchful_dec c : Decision (watchful c).
Proof. unfold watchful. apply _. Defined.

(** The first of the steps that takes the instruction. *)
Fixpoint first_taken (steps : list (vf_cpu → option (bool * vf_cpu))) (c : vf_cpu) : option (option vf_cpu) :=
  match steps with
  | [] => Some None
  | step :: steps => '(took, c') ← step c; if took : bool then Some (Some c') else first_taken steps c
  end.

(** An instruction that was not executed is interpreted, or its status committed. *)
Definition dispatched (c : vf_cpu) (st : Z) : option (option Z * vf_cpu) :=
  taken ← (if decide (st = VF_UNDEFINED_INSTRUCTION ∨ st = VF_SYSTEM_REGISTER_TRAP)
           then first_taken [λ c, Some (system_register_slow_step c); pstate_slow_step; λ c, Some (pauth_slow_step pauth c)] c
           else Some None);
  match taken with
  | Some c => Some (None, c)
  | None =>
    if decide (st = VF_NEXT) then Some (None, c)
    else
      let st := research_system_register_failure c st in
      '(_, p) ← vf_cpu_commit_status (Some c) st;
      c ← p;
      Some (Some st, c)
  end.

Definition guest_round (g : image) (room_ left_ : Z) (c : vf_cpu) (m : list Z) (o : P) : option (option Z * vf_cpu * list Z * P) :=
  if Z.testbit (c sctlr) 0 then Some (Some VF_SYSTEM_REGISTER_TRAP, c.[instruction := 0], m, o)
  else
    '(st, p) ← vf_cpu_poll_interrupt (Some c);
    c ← p;
    if decide (st ≠ VF_NEXT) then Some (Some st, c, m, o)
    else
      let count := if decide (watchful c) then 1 else Z.min left_ 32 in
      let code_ := block_code c (image_bytes g m) count in
      let '(closed, o) := protect o false in
      if decide (closed ≠ 0) then Some (Some VF_PROTECTION, c, m, o)
      else if decide (room_ < Z.of_nat (length code_)) then Some (Some VF_CODE_FULL, c, m, o)
      else
        let '(closed, o) := protect o true in
        if decide (closed ≠ 0) then Some (Some VF_PROTECTION, c, m, o)
        else
          let '(st, p, k, c', m) := block (Z.to_nat count) (image_bytes g m) (c pc) c m in
          c ← vf_cpu_advance_counter (Some (c'.[pc := p].[retired := u64 (c' retired + k)])) k;
          '(ended, c) ← dispatched (c.[compiled_blocks := u64 (c compiled_blocks + 1)]) st;
          Some (ended, c, m, o).

Fixpoint guest_loop (fuel : nat) (g : image) (room_ start budget : Z) (c : vf_cpu) (m : list Z) (o : P) :
    option (option Z * vf_cpu * list Z * P) :=
  match fuel with
  | O => Some (None, c, m, o)
  | S fuel =>
    let spent := u64 (c retired - start) in
    if decide (spent < budget) then
      '(ended, c, m, o) ← guest_round g room_ (budget - spent) c m o;
      match ended with
      | Some st => Some (Some st, c.[status := u32 st], m, o)
      | None => guest_loop fuel g room_ start budget c m o
      end
    else Some (Some VF_BUDGET, c.[status := VF_BUDGET], m, o)
  end.

(** ** Correctness *)

Context (Hpauth : callback_ok pauth).

Lemma poll_next c c' : vf_cpu_poll_interrupt (Some c) = Some (VF_NEXT, Some c') → c' = c.
Proof.
  unfold vf_cpu_poll_interrupt. destruct (_ || _); [by intros [= <-]|]. destruct (_ && _).
  { destruct (vf_cpu_raise_exception _ _ _ _ _ _) as [[rc [c1|]]|]; try done; cbn [mbind option_bind]; by intros [= ]. }
  destruct (select_interrupt c) as [[st k]|] eqn:E; [|by intros [= <-]].
  assert (st ≠ VF_NEXT) as Hst by (unfold select_interrupt in E; repeat case_match; by simplify_eq).
  destruct (vf_cpu_raise_exception _ _ _ _ _ _) as [[rc p]|]; [|done]. cbn [mbind option_bind]. destruct (nz rc); [by intros [= ]|].
  destruct (vf_cpu_take_exception p) as [[rc' p']|]; [|done]. cbn [mbind option_bind]. destruct (nz rc'); [by intros [= ]|].
  destruct p' as [c2|]; [|done]. cbn [mbind option_bind]. by intros [= ].
Qed.

(** Interrupts and reported statuses retire nothing. *)
Lemma poll_retired c rc c' : cpu_ok c → vf_cpu_poll_interrupt (Some c) = Some (rc, Some c') → c' retired = c retired.
Proof.
  intros Hc. unfold vf_cpu_poll_interrupt. destruct (_ || _); [by intros [= _ <-]|].
  destruct (_ && _).
  { assert (cpu_ok c.[instruction := 0]) as H1 by (by apply inert_ok).
    destruct (raise_total _ VF_EXCEPTION_SYSTEM_REGISTER_TRAP (c.[instruction := 0] pc) 0 0 0 H1 (proj1 H1 pc))
      as (rc' & c1 & -> & _ & Hcase); [done..|]. cbn [mbind option_bind]. intros [= _ <-]. fields.
    destruct Hcase as [(_ & _ & syn & Hf)|[_ ->]]; [by rewrite Hf|done]. }
  destruct (select_interrupt c) as [[st k]|]; [|by intros [= _ <-]].
  destruct (raise_total c k (c pc) 0 0 0 Hc (proj1 Hc pc)) as (rc' & c1 & -> & Hok1 & Hcase); [done..|]. cbn [mbind option_bind].
  assert (c1 retired = c retired) as H1 by (destruct Hcase as [(_ & _ & syn & Hf)|[_ ->]]; [by rewrite Hf|done]).
  destruct (nz rc'); [by intros [= _ <-]|].
  destruct (take_total c1 Hok1) as (rc2 & c2 & -> & _ & Hcase2). cbn [mbind option_bind].
  assert (c2 retired = c1 retired) as H2 by (destruct Hcase2 as [(_ & _ & Hf)|(_ & _ & ->)]; [by rewrite Hf|done]).
  destruct (nz rc2); [intros [= _ <-]; congruence|]. intros [= _ <-]. fields. congruence.
Qed.

Lemma commit_retired c st : cpu_ok c →
  ∃ rc c', vf_cpu_commit_status (Some c) st = Some (rc, Some c') ∧ cpu_ok c' ∧ c' retired = c retired.
Proof.
  intros Hc. destruct (commit_keeps c st Hc) as (c' & Hm & Hok & Hk). unfold commit in Hm.
  destruct (vf_cpu_commit_status (Some c) st) as [[rc [c1|]]|]; [|done..]. cbn [mbind option_bind] in Hm. injection Hm as ->.
  exists rc, c'. split_and!; [done|done|by apply Hk].
Qed.

Lemma sctlr_bit c : nz (Z.land (c sctlr) 1) = Z.testbit (c sctlr) 0.
Proof. apply (land_bit_nz _ 0). lia. Qed.

Lemma before_ok c : cpu_ok c → ∃ ended c', before_block c = Some (ended, c') ∧ cpu_ok c' ∧ c' retired = c retired ∧
  (if Z.testbit (c sctlr) 0 then ended = Some VF_SYSTEM_REGISTER_TRAP ∧ c' = c.[instruction := 0]
   else ∃ rc, vf_cpu_poll_interrupt (Some c) = Some (rc, Some c') ∧ ended = (if decide (rc ≠ VF_NEXT) then Some rc else None)) ∧
  (ended = None → c' = c ∧ Z.testbit (c sctlr) 0 = false).
Proof.
  intros Hc. unfold before_block. rewrite sctlr_bit. destruct (Z.testbit (c sctlr) 0) eqn:E.
  { eexists _, _. split; [done|]. split_and!; [by apply inert_ok|done..]. }
  destruct (poll_ok c Hc) as (rc & c' & Hp & Hok). rewrite Hp. cbn [mbind option_bind]. eexists _, _. split; [done|].
  assert ((if negb (rc =? VF_NEXT) then Some rc else None) = (if decide (rc ≠ VF_NEXT) then Some rc else None)) as He.
  { destruct (Z.eqb_spec rc VF_NEXT); cbn [negb]; [by rewrite decide_False by tauto|by rewrite decide_True]. }
  split_and!; [done|by eapply poll_retired|by exists rc|].
  rewrite He. case_decide as Hd; [done|]. intros _. split; [|done]. apply poll_next. rewrite Hp. do 2 f_equal. lia.
Qed.

Lemma slow_ok c : cpu_ok c → ∃ took c', slow_steps c = Some (took, c') ∧ cpu_ok c' ∧
  if took then c' retired = u64 (c retired + 1) else c' = c.
Proof.
  intros Hc. unfold slow_steps. pose proof (sysreg_step_ok c Hc) as H1. destruct (system_register_slow_step c) as [[] c1].
  { destruct H1 as [Hok [Hr _]]. by eexists _, _. }
  destruct H1 as [_ ->]. destruct (pstate_step_ok c Hc) as (took & c2 & -> & H2). cbn [mbind option_bind].
  destruct took. { destruct H2 as [Hok [Hr _]]. by eexists _, _. }
  destruct H2 as [_ ->]. pose proof (pauth_slow_ok pauth c Hpauth Hc) as H3. destruct (pauth_slow_step pauth c) as [took c3].
  eexists _, _. split; [done|]. destruct H3 as [Hok Hr]. split; [done|]. by destruct took.
Qed.

Lemma settle_ok c st : cpu_ok c → ∃ ended c', settle c st = Some (ended, c') ∧ cpu_ok c' ∧ c' retired = c retired ∧
  (ended = None → st = VF_NEXT ∧ c' = c) ∧
  (if decide (st = VF_NEXT) then Some (None, c)
   else let st := research_system_register_failure c st in
        '(_, p) ← vf_cpu_commit_status (Some c) st; c ← p; Some (Some st, c)) = Some (ended, c').
Proof.
  intros Hok. unfold settle.
  assert (research_system_register_failure c st = VF_NEXT ↔ st = VF_NEXT) as Hr.
  { unfold research_system_register_failure. destruct (_ && _) eqn:E; [|done]. rewrite !andb_true_iff, Z.eqb_eq in E. destruct E as ((((-> & _) & _) & _) & _). done. }
  destruct (Z.eqb_spec (research_system_register_failure c st) VF_NEXT) as [E|E]; cbn [negb].
  - rewrite decide_True by (by apply Hr). eexists _, _. split; [done|]. split_and!; [done..| |done]. intros _. by apply Hr in E.
  - rewrite decide_False by (by intros H%Hr). destruct (commit_retired c (research_system_register_failure c st) Hok) as (rc & c2 & -> & Hok2 & Hr2).
    cbn [mbind option_bind]. eexists _, _. split; [done|]. split_and!; done.
Qed.

Lemma slow_first c c' took : cpu_ok c → slow_steps c = Some (took, c') →
  first_taken [λ c, Some (system_register_slow_step c); pstate_slow_step; λ c, Some (pauth_slow_step pauth c)] c
  = Some (if took then Some c' else None).
Proof.
  intros Hc. unfold slow_steps. cbn [first_taken]. pose proof (sysreg_step_ok c Hc) as H1. destruct (system_register_slow_step c) as [[] c1].
  { by intros [= <- <-]. }
  destruct H1 as [_ ->]. cbn [mbind option_bind]. destruct (pstate_step_ok c Hc) as (took2 & c2 & -> & H2). cbn [mbind option_bind].
  destruct took2; [by intros [= <- <-]|]. destruct H2 as [_ ->]. destruct (pauth_slow_step pauth c) as [took3 c3]. intros [= -> ->].
  by destruct took.
Qed.

Lemma after_ok c st : cpu_ok c → ∃ ended c', after_block c st = Some (ended, c') ∧ dispatched c st = Some (ended, c') ∧ cpu_ok c' ∧
  (c' retired = c retired ∧ (ended = None → st = VF_NEXT) ∨
   (st = VF_UNDEFINED_INSTRUCTION ∨ st = VF_SYSTEM_REGISTER_TRAP) ∧ c' retired = u64 (c retired + 1)).
Proof.
  intros Hc. unfold after_block, dispatched. destruct (settle_ok c st Hc) as (ended & c1 & Hs & Hok1 & Hr1 & H1 & Hd).
  assert ((st =? VF_UNDEFINED_INSTRUCTION) || (st =? VF_SYSTEM_REGISTER_TRAP) = bool_decide (st = VF_UNDEFINED_INSTRUCTION ∨ st = VF_SYSTEM_REGISTER_TRAP)) as ->.
  { apply eq_true_iff_eq. by rewrite bool_decide_eq_true, orb_true_iff, !Z.eqb_eq. }
  destruct (decide (st = VF_UNDEFINED_INSTRUCTION ∨ st = VF_SYSTEM_REGISTER_TRAP)) as [E|E].
  - rewrite bool_decide_true by done. destruct (slow_ok c Hc) as (took & c2 & Hsl & Hok & Hr). rewrite (slow_first c c2 took Hc Hsl), Hsl.
    cbn [mbind option_bind]. destruct took.
    + eexists _, _. split_and!; [done..|]. by right.
    + subst c2. exists ended, c1. split_and!; [done..|]. left. split; [done|]. intros H. by apply H1.
  - rewrite bool_decide_false by done. cbn [mbind option_bind]. exists ended, c1. split_and!; [done..|]. left. split; [done|].
    intros H. by apply H1.
Qed.

(** *** The block *)

Lemma framed_valid c g p r : framed c g → vf_cpu_state_valid (Some (g.[pc := p].[retired := r])) = vf_cpu_state_valid (Some c).
Proof.
  intros [Hf Hm]. change (vf_cpu_state_valid (Some (g.[pc := p].[retired := r]))) with (vf_cpu_state_valid (Some g)).
  unfold vf_cpu_state_valid. rewrite !Hf by done. by rewrite Hm.
Qed.

Lemma limit_spec c left_ : block_limit c left_ = if decide (watchful c) then 1 else Z.min left_ 32.
Proof.
  unfold block_limit. change VF_TIMER_CTL_ENABLE with (Z.shiftl 1 0). rewrite land_bit_nz, Z.lor_spec by lia.
  assert (nz (c irq_level) || nz (c fiq_level) || (Z.testbit (c cntp_ctl) 0 || Z.testbit (c cntv_ctl) 0) = bool_decide (watchful c)) as ->.
  { apply eq_true_iff_eq. rewrite bool_decide_eq_true, !orb_true_iff, !nz_true. unfold watchful. tauto. }
  case_bool_decide; [by rewrite decide_True|rewrite decide_False by done]. destruct (Z.ltb_spec 32 left_); lia.
Qed.

Lemma limit_range c left_ : 0 < left_ → 1 ≤ block_limit c left_ ≤ Z.min left_ 32.
Proof. intros Hl. rewrite limit_spec. case_decide; lia. Qed.

(** A machine on which the loop may go round. *)
Definition memory_ok (m : list Z) : Prop := Forall (fits 8) m ∧ Z.of_nat (length m) < 2 ^ 64.
Definition image_ok (g : image) : Prop := match g with Shared => True | Separate l => memory_ok l end.

Lemma image_bytes_ok g m : image_ok g → memory_ok m → memory_ok (image_bytes g m).
Proof. by destruct g. Qed.

(** One block, translated and called. *)
Lemma native_ok c m k c' l limit pc_ image :
  cpu_ok c → memory_ok m → holds k l → used k ≤ capacity k → code_for c image pc_ limit l → pc_ = c pc → c' = c → 0 < limit ≤ 32 →
  let '(st, p, n, g, m') := block (Z.to_nat limit) image pc_ c m in
  let g := g.[pc := p].[retired := u64 (g retired + n)] in
  ∃ c2, execute_native_block c k (Some m) = Some (st, c2.[compiled_blocks := u64 (c2 compiled_blocks + 1)], m') ∧
    vf_cpu_advance_counter (Some g) n = Some c2 ∧ cpu_ok c2 ∧ memory_ok m' ∧ c2 retired = u64 (c retired + n).
Proof.
  intros Hc Hm Hh Hu Hfor -> -> Hl.
  set (h := entry_host c (Some m)). assert (ready false c h) as Hr.
  { split; try done; [apply Hc|apply Hm|apply Hm]. }
  specialize (Hfor h Hr). change (X86.guest h) with c in Hfor. change (ram h) with m in Hfor.
  pose proof (block_counts (Z.to_nat limit) image (c pc) c m (proj1 Hc pc)) as Hcount.
  destruct (block (Z.to_nat limit) image (c pc) c m) as [[[[st p] n] g] m']. destruct Hcount as (Hf & Hp & Hn & _).
  destruct Hfor as (a & i & j & k' & f & Hrun). pose proof (well_exec _ _ _ _ _ Hrun (rd_typed _ _ _ Hr) (rd_bytes _ _ _ Hr)) as (Ht & Hb & Hlen).
  cbn [X86.guest ram] in Ht, Hb, Hlen. set (g1 := g.[pc := p].[retired := u64 (g retired + n)]) in *.
  assert (cpu_ok g1) as Hok by (split; [done|]; unfold g1; rewrite framed_valid with (c := c); [apply Hc|done]).
  assert (g1 retired = u64 (c retired + n)) as Hret.
  { unfold g1. rewrite upd_same. by rewrite (proj1 Hf retired). }
  assert (u64 (g1 retired - c retired) = n) as Hticks.
  { rewrite Hret. unfold wrap. rewrite Zminus_mod_idemp_l. replace (c retired + n - c retired) with n by lia. apply Z.mod_small. lia. }
  destruct (advance_ok g1 n Hok) as (c2 & Hadv & Hok2); [unfold fits; lia|].
  exists c2. split; [|split; [done|split; [done|split; [split; [done|rewrite Hlen; apply Hm]|]]]].
  - unfold execute_native_block. rewrite holds_code with (l := l) by done. fold h. rewrite Hrun. cbn [mbind option_bind X86.guest ram].
    fold g1. by rewrite Hticks, Hadv.
  - rewrite <- Hret. unfold vf_cpu_advance_counter in Hadv. apply (inj Some) in Hadv as <-.
    unfold update_timer_status. by repeat case_match.
Qed.
Definition machine_ok (s : machine) : Prop := cpu_ok (cpu s) ∧ memory_ok (mem s) ∧ room (code s).

(** The buffer keeps its size, and its bytes beyond the capacity. *)
Definition same_buffer (k k' : vf_code) : Prop :=
  capacity k' = capacity k ∧ length (bytes k') = length (bytes k) ∧
  drop (Z.to_nat (capacity k)) (bytes k') = drop (Z.to_nat (capacity k)) (bytes k).

(** One round does what the round without the translator does.  It retires at most the
    instructions it was given, and a round that goes on at least one. *)
Lemma round_ok g left_ s :
  machine_ok s → image_ok g → 0 < left_ < 2 ^ 64 →
  ∃ r, run_round g left_ s = Some r ∧
  match r with
  | Ended st s' =>
    (∃ c', guest_round g (capacity (code s)) left_ (cpu s) (mem s) (opaque s) = Some (Some st, c', mem s', opaque s') ∧ cpu s' = c'.[status := u32 st]) ∧
    same_buffer (code s) (code s') ∧ ∃ n, 0 ≤ n ≤ left_ ∧ cpu s' retired = u64 (cpu s retired + n)
  | Going s' =>
    machine_ok s' ∧ guest_round g (capacity (code s)) left_ (cpu s) (mem s) (opaque s) = Some (None, cpu s', mem s', opaque s') ∧
    same_buffer (code s) (code s') ∧ ∃ n, 1 ≤ n ≤ left_ ∧ cpu s' retired = u64 (cpu s retired + n)
  end.
Proof.
  intros (Hc & Hm & Hroom) Hg Hl. unfold run_round, guest_round.
  assert (∀ c', c' retired = cpu s retired → ∃ n, 0 ≤ n ≤ left_ ∧ c' retired = u64 (cpu s retired + n)) as Hnone.
  { intros c' ->. exists 0. split; [lia|]. rewrite Z.add_0_r. symmetry. apply (wrap_id 64), (proj1 Hc retired). }
  destruct (before_ok (cpu s) Hc) as (ended & c & -> & Hc' & Hret & Hcase & Hnext). cbn [mbind option_bind].
  destruct ended as [st|].
  { eexists. split; [done|]. unfold leave. split; [|split; [done|by apply Hnone]].
    exists c. split; [|done]. destruct (Z.testbit (cpu s sctlr) 0); [by destruct Hcase as [[= ->] ->]|].
    destruct Hcase as (rc & -> & He). cbn [mbind option_bind]. case_decide; [by injection He as ->|done]. }
  destruct (Hnext eq_refl) as [-> Hsctlr]. clear Hnext Hret. rewrite Hsctlr in *. destruct Hcase as (rc & -> & He). cbn [mbind option_bind].
  rewrite decide_False by (intros H; by rewrite decide_True in He). clear He rc. set (c := cpu s) in *. rewrite <- limit_spec. set (count := block_limit c left_).
  pose proof (limit_range c left_ ltac:(lia)) as Hcount. fold count in Hcount. unfold block_code.
  pose proof (image_bytes_ok g (mem s) Hg Hm) as [Hib Hil]. set (im := image_bytes g (mem s)) in *. cbv zeta.
  destruct (translate_code c im (proj1 Hc) Hib Hil (c pc) count (proj1 Hc pc)) as (l & Hfor & -> & Hall); [lia|].
  destruct (protect (opaque s) false) as [refused o].
  destruct (nz refused) eqn:Enz.
  { apply nz_true in Enz. rewrite decide_True by done. eexists. split; [done|]. split; [by eexists|]. split; [done|by apply Hnone]. }
  apply nz_false in Enz. rewrite decide_False by tauto.
  destruct (Hall (code s) Hroom) as (k & Htr & Hh & Hsame). assert (same_buffer (code s) k) as Hsb by exact Hsame.
  destruct Hsame as (Hcap & Hlen & _). unfold vf_translate_cpu. rewrite (proj2 Hc), sctlr_bit, Hsctlr, Htr. cbn [negb mbind option_bind].
  destruct (Z.ltb_spec (capacity (code s)) (Z.of_nat (length l))) as [Hfull|Hfit].
  { rewrite decide_True by done. change (nz VF_CODE_FULL) with true. change (negb (VF_CODE_FULL =? VF_CODE_FULL)) with false. cbv iota.
    eexists. split; [reflexivity|]. split; [by eexists|]. split; [done|by apply Hnone]. }
  rewrite decide_False by lia. change (nz VF_NEXT) with false. cbv iota.
  destruct (protect o true) as [refused' o']. destruct (nz refused') eqn:Enz'.
  { apply nz_true in Enz'. rewrite decide_True by done. eexists. split; [done|]. split; [by eexists|]. split; [done|by apply Hnone]. }
  apply nz_false in Enz'. rewrite decide_False by tauto.
  pose proof (native_ok c (mem s) k c l count (c pc) im Hc Hm Hh ltac:(destruct Hh; lia) Hfor eq_refl eq_refl ltac:(lia)) as Hn.
  pose proof (block_counts (Z.to_nat count) im (c pc) c (mem s) (proj1 Hc pc)) as Hk.
  destruct (block (Z.to_nat count) im (c pc) c (mem s)) as [[[[st p] n] c1] m1]. destruct Hk as (_ & _ & Hk & Hk1 & Hk2).
  destruct Hn as (c2 & -> & -> & Hok2 & Hm1 & Hret). cbn [mbind option_bind].
  set (c3 := c2.[compiled_blocks := u64 (c2 compiled_blocks + 1)]).
  assert (cpu_ok c3) as Hok3 by (apply inert_ok; try done; by apply (fits_wrap 64)).
  destruct (after_ok c3 st Hok3) as (ended & c4 & -> & -> & Hok4 & Hr4). cbn [mbind option_bind].
  change (c3 retired) with (c2 retired) in Hr4.
  assert (∃ n', (ended = None → 1 ≤ n') ∧ 0 ≤ n' ≤ left_ ∧ c4 retired = u64 (c retired + n')) as (n' & Hn1 & Hn' & Hr').
  { destruct Hr4 as [[Hr4 Hgo]|[Hst Hr4]].
    - exists n. rewrite Hr4. split_and!; [|lia..|done]. intros He. pose proof (Hk1 (Hgo He)). lia.
    - exists (n + 1). assert (n < Z.of_nat (Z.to_nat count)) by (apply Hk2; destruct Hst as [-> | ->]; done). split_and!; [lia..|].
      rewrite Hr4, Hret. unfold wrap. rewrite Zplus_mod_idemp_l. f_equal. lia. }
  destruct ended as [st'|]; (eexists; split; [reflexivity|]).
  - split; [by eexists|]. split; [done|]. by exists n'.
  - split; [split; [done|split; [done|]]|]. { unfold room in *. cbn [code]. by rewrite Hcap, Hlen. }
    split; [done|]. split; [done|]. exists n'. split; [|done]. specialize (Hn1 eq_refl). lia.
Qed.

(** The loop ends within the budget. *)
Lemma loop_ok fuel g start budget s :
  machine_ok s → image_ok g → fits 64 start → fits 64 budget → u64 (cpu s retired - start) ≤ budget →
  budget - u64 (cpu s retired - start) < Z.of_nat fuel →
  ∃ st s', run_loop fuel g start budget s = Some (Some st, s') ∧
    guest_loop fuel g (capacity (code s)) start budget (cpu s) (mem s) (opaque s) = Some (Some st, cpu s', mem s', opaque s') ∧
    same_buffer (code s) (code s') ∧ u64 (cpu s' retired - start) ≤ budget.
Proof.
  intros Hs Hg Hst Hbu. revert s Hs. induction fuel as [|fuel IH]; intros s Hs Hle Hf; [lia|]. cbn [run_loop guest_loop].
  set (spent := u64 (cpu s retired - start)) in *. pose proof (fits_wrap 64 (cpu s retired - start) ltac:(lia)) as Hsp64. fold spent in Hsp64.
  destruct (Z.ltb_spec spent budget) as [Hlt|Hge].
  2: { rewrite decide_False by lia. eexists _, _. split; [reflexivity|]. by split_and!. }
  rewrite decide_True by done. assert (u64 (budget - spent) = budget - spent) as -> by (apply (wrap_id 64); unfold fits in *; lia).
  assert (∀ c n, 0 ≤ n ≤ budget - spent → c retired = u64 (cpu s retired + n) → u64 (c retired - start) = spent + n) as Hstep.
  { intros c n Hn ->. unfold spent, wrap. rewrite Zminus_mod_idemp_l. replace (cpu s retired + n - start) with (cpu s retired - start + n) by lia.
    rewrite <- Zplus_mod_idemp_l. apply Z.mod_small. change ((cpu s retired - start) mod 2 ^ 64) with spent. unfold fits in *. lia. }
  destruct (round_ok g (budget - spent) s Hs Hg) as (r & -> & Hr); [unfold fits in *; lia|]. cbn [mbind option_bind].
  destruct r as [s'|st s'].
  - destruct Hr as (Hs' & -> & Hsame & n & Hn & Hret). cbn [mbind option_bind]. pose proof (Hstep (cpu s') n ltac:(lia) Hret) as Hsp.
    destruct (IH s' Hs') as (st & s2 & Hrun & Hguest & Hsame2 & Hb2); [rewrite Hsp; lia..|]. exists st, s2. split; [done|].
    destruct Hsame as (Hcap & Hlen & Hdrop). rewrite Hcap in Hguest. split; [done|]. split; [|done].
    destruct Hsame2 as (Hcap2 & Hlen2 & Hdrop2). rewrite Hcap in Hdrop2. split_and!; congruence.
  - destruct Hr as ((c' & -> & Hcs) & Hsame & n & Hn & Hret). eexists _, _. split; [done|]. cbn [mbind option_bind].
    rewrite Hcs. split; [done|]. split; [done|]. rewrite <- Hcs. rewrite (Hstep (cpu s') n) by done. lia.
Qed.

(** C2. The run loop on translated code always ends, retiring no more instructions than its
    budget, and does what the run on the instructions themselves defines: the same
    status, processor, guest memory and state of the protection callback.  That run says
    when the host stops it: [VF_PROTECTION] exactly when the callback refuses, before the
    translation (to write) or after it (to execute), and [VF_CODE_FULL] exactly when the
    code of the next block is longer than the buffer; the guest has then executed all
    earlier blocks and nothing of this one.  The buffer keeps its size and every byte
    beyond its capacity. *)
Theorem run_refines_guest c g m k budget o :
  cpu_ok c → memory_ok m → 8 ≤ Z.of_nat (length m) → image_ok g → room k → fits 64 budget →
  ∃ st c' m' k' o', vf_run (Some c) (Some g) (Some m) (Some k) budget o = Some (Some st, Some c', Some m', Some k', o') ∧
    guest_loop (S (Z.to_nat budget)) g (capacity k) (c retired) budget c m o = Some (Some st, c', m', o') ∧
    u64 (c' retired - c retired) ≤ budget ∧ same_buffer k k'.
Proof.
  intros Hc Hm H8 Hg Hk Hb. unfold vf_run. rewrite (proj2 Hc). assert ((Z.of_nat (length m) <? 8) = false) as -> by lia. cbn [negb orb].
  set (s := {| cpu := c; mem := m; code := k; opaque := o |}).
  assert (u64 (cpu s retired - c retired) = 0) as Hz by (change (cpu s retired) with (c retired); by rewrite Z.sub_diag).
  destruct (loop_ok (S (Z.to_nat budget)) g (c retired) budget s) as (st & s' & -> & Hguest & Hsame & Hret);
    [by split_and!|done|apply (proj1 Hc retired)|done|rewrite Hz; apply Hb|rewrite Hz; unfold fits in Hb; lia|].
  cbn [mbind option_bind]. eexists _, _, _, _, _. split; [reflexivity|]. done.
Qed.
End Native.

(** ** Instances *)

(** The branch of the sample leaves the memory; the load before it sees the code. *)
Lemma sample_run :
  match vf_run sample_host (λ u _, (0, u)) None (Some (sample_cpu.[pc := 0x80000000])) (Some Shared) (Some sample_code) (Some sample_buffer) 100 tt
  with Some (st, Some c, _, _, _) => Some (st, c retired, c pc, c (x 3)) | _ => None end
  = Some (Some VF_INSTRUCTION_ABORT, 3, 0x80000010, 0xd440000054000041).
Proof. by vm_compute. Qed.

(** A callback that refuses to make the buffer executable: nothing is executed. *)
Lemma sample_refused :
  match vf_run sample_host (λ u x, (if x : bool then 1 else 0, u)) None (Some sample_cpu) (Some Shared) (Some sample_code) (Some sample_buffer) 100 tt
  with Some (st, Some c, _, _, _) => Some (st, c retired, c pc) | _ => None end
  = Some (Some VF_PROTECTION, 0, sample_cpu pc).
Proof. by vm_compute. Qed.

Lemma run_refines_guest_witness :
  ∃ st c' m' k' o', vf_run sample_host (λ u _, (0, u)) None (Some sample_cpu) (Some Shared) (Some sample_code) (Some sample_buffer) 100 tt
      = Some (Some st, Some c', Some m', Some k', o') ∧
    guest_loop (λ u _, (0, u)) None 101 Shared (capacity sample_buffer) (sample_cpu retired) 100 sample_cpu sample_code tt = Some (Some st, c', m', o') ∧
    u64 (c' retired - sample_cpu retired) ≤ 100 ∧ same_buffer sample_buffer k'.
Proof.
  apply (run_refines_guest sample_host (λ u _, (0, u)) None I sample_cpu Shared sample_code sample_buffer 100 tt).
  - apply inert_ok; [apply inert_ok; [apply reset_el1_ok|done|]|done|]; unfold fits; cbn [F.width]; lia.
  - split; [apply sample_bytes|by vm_compute].
  - by vm_compute.
  - done.
  - apply sample_buffer_room.
  - unfold fits. lia.
Defined.
End RunLoop.
